(* ===== verification/_CoqProject ===== *)
-Q . S2P
Prelude.v
Rng.v
CxxFloat.v
Utils.v
Request.v
Numa.v
NumaFacts.v
LocalToRequester.v
DynamicMigration.v
DramSpec.v
DramNode.v
DramLambdas.v
DramTiming.v
DramSpecFacts.v
DramConfig.v
Device.v
DeviceFacts.v
DDR4.v
DDR4Facts.v
DDR4Rows.v
DDR3.v
DDR4VRR.v
DDR4RVRR.v
DDR5.v
DDR5VRR.v
DDR5RVRR.v
HBM.v
Dram.v
LPDDR5.v
GDDR6.v
Power.v
StandardsFacts.v
LPDDR5Facts.v
PowerFacts.v
Plugin.v
Scheduler.v
Controller.v
ControllerFacts.v
RefreshFacts.v
AddrMapper.v
NumaMapping.v
MemorySystem.v
MemorySystemFacts.v
Rit.v
Translation.v
SimpleO3.v
TraceFrontends.v
SniperQueue.v
SniperQueueFacts.v
SniperTrace.v
SniperDram.v
SniperCache.v
SniperCacheFacts.v
SniperMemCaches.v
TraceFacts.v
WindowFacts.v
FrontendFacts.v
SimulationFacts.v
RowHammer.v
PluginFacts.v
Graphene.v
Prac.v
PracFacts.v
Bliss.v
BlockHammer.v
BlockHammerFacts.v
BhLlc.v
BhLlcFacts.v
BhLlcSpec.v
BhO3.v
BhO3Facts.v
BhController.v
BhControllerFacts.v
BhSystem.v
RowTracker.v
Hydra.v
HydraFacts.v
RowSwap.v
RowSwapFacts.v
AquaFacts.v
