(* ===== verification/Prelude.v ===== *)
(** * A verification of the Ramulator 2 memory simulator of this repository

    The repository extends Ramulator 2 ([src/ramulator2]) with NUMA-aware page
    placement and drives it with traces recorded by Sniper ([src/snipersim]).
    This development models the C++ code of [src/ramulator2/src], and the part of Sniper
    that writes the traces, and proves what
    the simulator's results rest on: pages are placed where the policy says,
    addresses are mapped one to one, requests are neither lost nor reordered
    beyond the scheduling policy, and the DRAM model never accepts a command
    that violates the timing rules of the standard.

    ** How the parts fit together

    A frontend produces requests.  A translation ([ITranslation]) turns the
    virtual address of a request into a physical one.  The memory system maps the
    physical address to an index vector (channel, rank, ..., column) with an
    address mapper and hands the request to the controller of its channel.  Each
    cycle the memory system ticks the device and then every controller; a
    controller completes a read, lets the refresh manager add requests, asks the
    scheduler for the best request, lets the row policy react, and issues one
    command to the device shared by all controllers.  The device is a tree of
    nodes that keep command histories, ready cycles and row states; the tables of
    a standard (DDR4 and others) say what the nodes enforce.

    ** Conventions

    C++ integers are [Z]; where wrap-around or a conversion matters it is written
    out ([u64], [i32], [i64]).  A fallible operation returns [res]: a thrown
    exception is [Exc], [std::exit] is [Exit], undefined behaviour (an index out of
    range, a division by zero, signed overflow of a statistic) is [Undef], and a
    loop that runs out of the model's fuel is [OutOfFuel].  State is passed
    explicitly, with a record per class.  [std::unordered_map] is [gmap]; where code
    iterates over one, the order is the oracle [IterOrder] and theorems hold for all
    orders.  [float] and [double] are [spec_float] with the rounding of binary32 and
    binary64 ([CxxFloat]).  Interfaces of the source are type classes ([Rng], [IDRAM],
    [IScheduler], [IAddrMapper], [ITranslation], [IMemory], [IBHMemory],
    [IBHController], [IBHScheduler]) and records ([Plugin]); the schedulers carry the law
    that a choice only recomputes the commands of the requests.

    ** Files

    Foundations: [Prelude] (outcomes of C++ code, machine integers, vectors,
    iteration orders, tactics and hints), [CxxFloat], [Rng] (the class [Rng] and
    [mt19937_64]), [Utils] ([base/utils]), [Request] ([base/request]).

    Page placement ([translation/impl]): [Numa] and [NumaFacts] (the allocator
    shared by the two NUMA translations), [LocalToRequester], [DynamicMigration],
    [Translation] (the interface [ITranslation] and the stock
    translations).

    Devices ([dram]): [DramSpec] (levels, commands, tables), [DramNode] (the tree),
    [DramLambdas] (state functions), [DramConfig] (configuration steps), [Device]
    (the operations every standard repeats), one file per standard ([DDR3], [DDR4],
    [DDR4VRR], [DDR4RVRR], [DDR5], [DDR5VRR], [DDR5RVRR], [HBM] (HBM, HBM2, HBM3),
    [LPDDR5], [GDDR6]), and the class [IDRAM] in [Dram].  [DramTiming], [DramSpecFacts] and [DeviceFacts]
    prove what holds for every standard; [DDR4Facts], [DDR4Rows],
    [StandardsFacts] and [LPDDR5Facts] what holds for one.  [Power] is the
    power model ([lambdas/power.h] and the energies of each standard), and [PowerFacts]
    shows that it only observes.

    Controllers ([dram_controller]): [Scheduler] ([IScheduler], [FRFCFS]), [Plugin]
    (the interface [IControllerPlugin]), [Controller] (the generic controller with
    refresh manager and row policies), [ControllerFacts], [RefreshFacts].

    Plugins ([dram_controller/impl/plugin]): [RowHammer] (PARA, OracleRH, TWiCe,
    RFMManager, CommandCounter, TraceRecorder) with [PluginFacts], [Graphene],
    [Prac] with [PracFacts] (per-row activation counting and the alert
    back-off), [Bliss] (BLISS and the schedulers that choose by
    flags), [BlockHammer] with [BlockHammerFacts] (filters, history buffer, throttler
    and the blocking scheduler), [Hydra] with [HydraFacts] (group counters, counter
    table and counter cache), [RowSwap] with [RowSwapFacts] and [AquaFacts] (RRS and AQUA,
    which move rows), and [RowTracker] (what these three share).

    Memory systems: [AddrMapper] (linear mappers), [Rit] (row
    indirection), [NumaMapping] (placement and mapping together), [MemorySystem] and
    [MemorySystemFacts] (generic system, and the page cache of the
    custom system).

    Frontends: [SimpleO3] with [WindowFacts] and [FrontendFacts] (cores, last-level cache,
    main loop), [TraceFrontends] with [TraceFacts] (the trace-driven frontends),
    and [SimulationFacts] (everything together).

    Sniper ([snipersim/common]), the simulator that records the traces: [SniperTrace]
    (the DRAM controller that writes them and its accounting of times), [SniperDram]
    (the latency models behind it), [SniperQueue] with [SniperQueueFacts] (queue and
    contention models), [SniperCache] with [SniperCacheFacts] (caches, replacement
    policies, home lookup), [SniperMemCaches] (NUCA cache, DRAM cache, prefetcher).

    The BH configuration, in which attackers share a last-level cache with the
    other cores: [BhLlc] (the cache [BHO3LLC]), [BhLlcFacts] (its well-formedness) and
    [BhLlcSpec] (its properties); [BhO3] (cores and frontend) with [BhO3Facts];
    [BhController] (the controllers [BHDRAMController] and [PRACDRAMController], and the
    interface [IBHScheduler]) with
    [BhControllerFacts]; [BhSystem] (the memory system and the main loop).

    ** What the theorems show

    - Timing.  A device answers [check_ready] exactly as the full issue history
      and the constraint table demand ([ddr4_check_ready_exact]), and a run that
      issues only ready commands respects every constraint of its standard
      ([standards_enforce_their_tables], [ddr4_activate_rules]).  The controllers issue
      only ready commands ([controller_issues_only_ready], [shipped_tick_ready]), hence
      so does every memory system ([memory_system_timing_safe]) and every simulation
      ([simulation_timing_safe], and [bh_simulation_timing_safe] for the BH
      configuration), for any scheduler, stateless mapper, row policy, plugins and
      translation.  These hold for the standards in [simulated], all but LPDDR5, whose
      device has its own interface functions around the tree.  HBM2 and HBM3 are the
      exception among the tables: some of their constraints are registered where they
      are never checked ([hbm2_ignores_pseudochannel_constraints]), and only the
      others are enforced.  LPDDR5 enforces its table but never
      serves a row other than row 0 ([lpddr5_never_serves_other_rows]).
    - Requests.  No request is lost or duplicated by a controller
      whose active buffer has room ([controller_conserves_requests]); [send] behaves as specified on every branch;
      FRFCFS picks the oldest ready request; refreshes come in every nREFI-th cycle
      ([refresh_schedule]); cores retire in order and issue at most [ipc] per cycle
      ([core_tick_in_order], [window_refines_queue]).
    - Placement.  [Local_to_requester] refines an abstract page table
      ([local_translate_refines]), keeps it injective, and returns under a fair
      generator; with the mapper, a first touch is served by the requester's channel
      ([first_touch_goes_to_requester_channel]).  The mappers are bijections.
      [Dynamic_migration] moves only the pages its policy names, but can map two
      pages to one frame, because it leaves the reverse page table stale
      ([dynamic_migration_stale_reverse], [dynamic_migration_aliases_frames]), and can
      invalidate the iterator of its own loop.
    - Row hammer.  OracleRH and RFMManager count exactly; Graphene bounds the
      activations of a row between resets; PRAC raises an alert for every row at the
      threshold and follows the back-off protocol; BlockHammer's filters have no false
      negatives while no counter wraps, but its history buffer forgets; BLISS blacklists exactly the cores
      with a long streak.  Hydra bounds the activations of every row, whatever its
      cache of counters evicts ([hydra_bounds_activations]).  RRS and AQUA move rows,
      and the row indirection table tells where they are, provided the copy
      requests are served in the order they are sent ([rrs_rows_located],
      [aqua_rows_located]), but a row that gets hot after it was swapped, before the next
      reset, makes RRS lose the rows it draws ([rrs_reswap_misplaces_rows]).
    - The BH configuration, with a cache whose line size and number of sets are
      powers of two.  The last-level cache keeps its sets and MSHRs well formed
      ([llc_operations_type_safe]), replaces the least recently used line
      ([llc_lru_refinement]), never drops stored data ([llc_store_not_lost]) and reads
      back its checkpoint ([llc_checkpoint_roundtrip]); the frontend never fails
      ([bh_frontend_safe]) and a reply wakes every waiting core
      ([bh_reply_wakes_all_waiters]), but a late hit can lose a wake-up
      ([bh_early_hit_loses_wakeup]).  The PRAC controller keeps the commands of a
      recovery and all others apart ([prac_controller_respects_recovery],
      [prac_recovery_plan]).
    - Traces.  The one trace file that Sniper's DRAM controllers share is read by the
      frontend as the accesses they served, with times in whole nanoseconds
      ([sniper_trace_roundtrip]); [CustomTrace] sends it in order and once each;
      [CustomTrace2] does not wait for the cycle of a record and blocks on late ones.
    - Sniper.  With constant cost and the history list the DRAM controller never gives
      the data bus to two recorded accesses at once and gives each the earliest free
      slot; the analytical model leaves old accesses unrecorded
      ([sniper_dram_bus_exclusive], [history_list_exclusive_slots]); the contention
      model serves at most as many requests as it has units
      ([contention_units_exclusive]); the M/G/1 model delays nothing in its first ten
      windows ([mg1_no_delay_in_ten_windows]).  A cache implements a set of blocks for
      every hash that stays in range and every policy that keeps the laws [PolicyLaws],
      which those without query-based selection do
      ([cache_implements_block_set], [policies_keep_laws]); LRU evicts the least
      recently used line ([lru_evicts_least_recent]); addresses are spread over the
      memory controllers and over the sets without loss ([home_lookup_roundtrip],
      [split_address_in_range]).  The NUCA cache has only those blocks written to DRAM
      that were written twice ([nuca_writes_back_rewritten_only]), and the DRAM cache
      completes no access ([dram_cache_never_completes]).
    - The custom memory system keeps the most accessed pages in its cache and refuses
      every request for them.

    ** Fuel

    [calc_log2] halves a 64-bit value and has fuel 64, which is enough for every
    non-negative argument ([calc_log2_Ok]); [tokenize] has the length of the line.
    The allocation loops of the NUMA translations draw until a free page comes up
    and take their fuel as an argument: [local_translate_terminates] and its
    counterparts prove that some fuel suffices for a fair generator.
    [max_element], the loops over buffers, banks and levels and all parsers are
    structural.  The main loop takes its number of iterations as fuel; the theorems on
    it hold in every state it reaches.  Printing a 64-bit number has fuel 20, its
    largest number of digits.  RRS draws rows until one is free, with the fuel as an
    argument; the theorem on it holds for every fuel.  Random replacement in
    Sniper draws until a line may be replaced, with the number of draws as an argument
    (one is enough when no line is being upgraded); the pointer of round robin and the
    scans of NMRU, NRU and SRRIP pass every line once within the associativity, and the
    product of a moving average has at most as many factors as its ring has places.

    ** Not modelled

    - TRR, which is not part of the build and uses interfaces that no longer exist.
    - In the theorems on memory systems, mappers that change their state: the row
      indirection table is modelled with its plugins, not inside a memory system.
    - The configuration layer (YAML, factories, parameters, logging, statistics
      printing) and the resource files.
    - The rest of Sniper (cores, instruction decoding, coherence controllers, networks,
      front end), a separate simulator that the repository includes and runs as it is,
      and the fault injector's callbacks in its caches.
    *)
From Stdlib Require Export ZArith Lia.
From stdpp Require Export base tactics list gmap sets fin_maps strings numbers.

#[export] Set Default Goal Selector "!".
#[global] Open Scope Z_scope.

(** ** Outcomes of C++ code

    A fallible operation returns a value of [res].  [Undef] stands for
    undefined behaviour (an index outside a [std::vector], a division by zero,
    an invalidated iterator), [Exc] for a thrown exception, [Exit] for
    [std::exit], and [OutOfFuel] for a loop that has not finished within the
    fuel of the model. *)
Inductive err : Type :=
| Exc (what : string)
| Exit (code : Z)
| Undef
| OutOfFuel.

Inductive res (A : Type) : Type :=
| Ok (a : A)
| Err (e : err).

Arguments Ok {A} _.
Arguments Err {A} _.

#[global] Instance err_eq_dec : EqDecision err.
Proof. solve_decision. Defined.

#[global] Instance res_ret : MRet res := @Ok.
#[global] Instance res_bind : MBind res := fun A B f m =>
  match m with Ok a => f a | Err e => Err e end.

Definition from_res {A} (d : A) (m : res A) : A := match m with Ok a => a | Err _ => d end.

Definition ok_b {A} (m : res A) : bool := match m with Ok _ => true | Err _ => false end.

Lemma from_res_Ok {A} (d : A) (m : res A) : ok_b m = true -> m = Ok (from_res d m).
Proof. by destruct m. Qed.

Definition err_of {A} (m : res A) : option err :=
  match m with Ok _ => None | Err e => Some e end.

Lemma err_of_Some {A} (m : res A) e : err_of m = Some e -> m = Err e.
Proof. destruct m; cbn; congruence. Qed.

Definition is_Ok {A} (m : res A) : Prop := exists a, m = Ok a.

Lemma bind_Ok {A B} (f : A -> res B) (m : res A) b :
  m ≫= f = Ok b <-> exists a, m = Ok a /\ f a = Ok b.
Proof. destruct m; cbn; naive_solver. Qed.

Lemma bind_Ok_l {A B} (f : A -> res B) (a : A) : Ok a ≫= f = f a.
Proof. reflexivity. Qed.

(** The development's inversion tactic: it opens every monadic bind that is
    known to have returned. *)
Ltac res_inv :=
  repeat match goal with
  | H : Ok _ = Ok _ |- _ => injection H as H; try subst
  | H : Ok _ = Err _ |- _ => discriminate H
  | H : Err _ = Ok _ |- _ => discriminate H
  | H : mret _ = Ok _ |- _ => unfold mret, res_ret in H
  | H : mbind _ _ = Ok _ |- _ =>
      apply bind_Ok in H; destruct H as (? & ? & H)
  | H : context [match ?p with pair _ _ => _ end] |- _ =>
      is_var p; destruct p; cbn in H
  end.

(** [lia] with the quotients and remainders of the goal defined away. *)
Ltac dlia := Z.to_euclidean_division_equations; lia.

(** ** Machine integers *)
Definition u64 (x : Z) : Z := x mod 2 ^ 64.
Definition u32 (x : Z) : Z := x mod 2 ^ 32.
Definition i32 (x : Z) : Z := (x + 2 ^ 31) mod 2 ^ 32 - 2 ^ 31.
Definition i64 (x : Z) : Z := (x + 2 ^ 63) mod 2 ^ 64 - 2 ^ 63.
Definition SIZE_MAX : Z := 2 ^ 64 - 1.

Lemma u64_small x : 0 <= x < 2 ^ 64 -> u64 x = x.
Proof. intros. apply Z.mod_small. lia. Qed.

Lemma u64_range x : 0 <= u64 x < 2 ^ 64.
Proof. apply Z.mod_pos_bound. lia. Qed.

Lemma i32_small x : - 2 ^ 31 <= x < 2 ^ 31 -> i32 x = x.
Proof. intros. unfold i32. rewrite Z.mod_small; lia. Qed.

Lemma i64_small x : - 2 ^ 63 <= x < 2 ^ 63 -> i64 x = x.
Proof. intros. unfold i64. rewrite Z.mod_small; lia. Qed.

(** ** [std::vector] access: an index out of range is undefined behaviour *)
Section Vector.
Context {A : Type}.
Implicit Types (l : list A) (i : Z).

Definition vget l i : res A :=
  if bool_decide (0 <= i) then
    match l !! Z.to_nat i with Some x => Ok x | None => Err Undef end
  else Err Undef.

Definition vset l i (x : A) : res (list A) :=
  if bool_decide (0 <= i < Z.of_nat (length l))
  then Ok (<[Z.to_nat i := x]> l) else Err Undef.

Lemma vget_Ok l i x : vget l i = Ok x <-> 0 <= i /\ l !! Z.to_nat i = Some x.
Proof.
  unfold vget. case_bool_decide; [destruct (l !! _)|]; naive_solver.
Qed.

Lemma vset_Ok l l' i x :
  vset l i x = Ok l' <->
  0 <= i < Z.of_nat (length l) /\ l' = <[Z.to_nat i := x]> l.
Proof. unfold vset. case_bool_decide; naive_solver. Qed.

Lemma vget_is_Ok l i : 0 <= i < Z.of_nat (length l) -> is_Ok (vget l i).
Proof.
  intros Hi. destruct (lookup_lt_is_Some_2 l (Z.to_nat i)) as [x Hx]; [lia|].
  exists x. apply vget_Ok. split; [lia|done].
Qed.

Lemma vget_inside l i x : vget l i = Ok x -> 0 <= i < Z.of_nat (length l).
Proof.
  intros [? Hx]%vget_Ok. apply lookup_lt_Some in Hx. lia.
Qed.
End Vector.

(** ** Counting the free slots of a [std::vector<bool>] *)
Definition ntrue (l : list bool) : Z := Z.of_nat (length (filter (fun b => b = true) l)).

Lemma ntrue_nonneg l : 0 <= ntrue l.
Proof. unfold ntrue. lia. Qed.

Lemma ntrue_le l : ntrue l <= Z.of_nat (length l).
Proof. unfold ntrue. pose proof (length_filter (fun b => b = true) l). lia. Qed.

Lemma ntrue_cons b l : ntrue (b :: l) = (if b then 1 else 0) + ntrue l.
Proof. unfold ntrue. rewrite filter_cons. destruct b; cbn; case_decide; cbn; try done; lia. Qed.

Lemma ntrue_clear l i : l !! i = Some true -> ntrue (<[i := false]> l) = ntrue l - 1.
Proof.
  revert i. induction l as [|b l IH]; intros [|i] Hi; simplify_eq/=;
    rewrite !ntrue_cons; [lia|rewrite IH by done; lia].
Qed.

Lemma ntrue_set l i : l !! i = Some false -> ntrue (<[i := true]> l) = ntrue l + 1.
Proof.
  revert i. induction l as [|b l IH]; intros [|i] Hi; simplify_eq/=;
    rewrite !ntrue_cons; [lia|rewrite IH by done; lia].
Qed.

Lemma ntrue_pos l : 0 < ntrue l <-> exists i, l !! i = Some true.
Proof.
  split.
  - induction l as [|b l IH]; [unfold ntrue; cbn; lia|]. rewrite ntrue_cons. destruct b.
    + by exists 0%nat.
    + intros H. destruct IH as [i Hi]; [lia|]. by exists (S i).
  - intros [i Hi]. pose proof (ntrue_nonneg (<[i := false]> l)).
    rewrite ntrue_clear in H by done. lia.
Qed.

Lemma ntrue_zero l i : ntrue l = 0 -> (i < length l)%nat -> l !! i = Some false.
Proof.
  intros H0 Hi. destruct (lookup_lt_is_Some_2 _ _ Hi) as [[] Hx]; [|done].
  assert (0 < ntrue l) by (apply ntrue_pos; eauto). lia.
Qed.

Lemma ntrue_replicate_true n : ntrue (replicate n true) = Z.of_nat n.
Proof. induction n as [|n IH]; [done|]. cbn [replicate]. rewrite ntrue_cons, IH. lia. Qed.

(** ** Iteration order of [std::unordered_map]

    The standard leaves the order unspecified: the model takes it as an oracle
    that returns some permutation of the entries.  A theorem that quantifies
    over the class holds for every order. *)
Class IterOrder : Type := {
  iter_order : forall {V : Type}, gmap Z V -> list (Z * V);
  iter_order_perm : forall {V : Type} (m : gmap Z V), iter_order m ≡ₚ map_to_list m;
}.

#[export] Instance default_order : IterOrder := {|
  iter_order := fun V m => map_to_list m;
  iter_order_perm := fun V m => reflexivity _;
|}.

Lemma iter_order_elem `{!IterOrder} {V} (m : gmap Z V) k v :
  (k, v) ∈ iter_order m <-> m !! k = Some v.
Proof. rewrite iter_order_perm. apply elem_of_map_to_list. Qed.

(** ** Lists *)
Lemma length_delete_le {A} (l : list A) i : (length (delete i l) <= length l)%nat.
Proof.
  revert i. induction l as [|x l IH]; intros [|i]; simpl; [lia|lia|lia|].
  specialize (IH i). lia.
Qed.

Lemma delete_Permutation {A} (l : list A) i x : l !! i = Some x -> l ≡ₚ x :: delete i l.
Proof.
  revert i. induction l as [|y l IH]; intros [|i] Hi; simplify_eq/=; [done|].
  rewrite (IH i Hi) at 1. apply perm_swap.
Qed.

(** ** Bits *)
Lemma land_mask x n : 0 <= n -> Z.land x (Z.shiftl 1 n - 1) = x mod 2 ^ n.
Proof.
  intros. replace (Z.shiftl 1 n - 1) with (Z.ones n).
  - by apply Z.land_ones.
  - unfold Z.ones. lia.
Qed.

Lemma lor_disjoint hi lo n :
  0 <= n -> 0 <= lo < 2 ^ n -> Z.lor (Z.shiftl hi n) lo = hi * 2 ^ n + lo.
Proof.
  intros Hn Hlo. rewrite <- Z.shiftl_mul_pow2 by done. symmetry.
  assert (Z.land (Z.shiftl hi n) lo = 0) as Hland.
  { rewrite <- (Z.mod_small lo (2 ^ n)), <- Z.land_ones by done.
    apply Z.bits_inj'. intros i Hi. rewrite !Z.land_spec, Z.bits_0, Z.shiftl_spec by done.
    destruct (decide (i < n)).
    - by rewrite Z.testbit_neg_r by lia.
    - rewrite Z.testbit_ones_nonneg by lia.
      rewrite (proj2 (Z.ltb_ge i n)) by lia. by rewrite !andb_false_r. }
  rewrite Z.add_nocarry_lxor by done. by apply Z.lxor_lor.
Qed.

Create HintDb mem.
#[export] Hint Resolve u64_range ntrue_nonneg ntrue_le : mem.
#[export] Hint Rewrite @bind_Ok_l : mem.
