(* ===== verification/Rng.v ===== *)
(** * The pseudo-random generator used by the page allocators

    The translations of [src/ramulator2/src/translation/impl] draw physical
    pages from a [std::mt19937_64].  The allocators are modelled over the class
    [Rng], so that their theorems hold for every generator; [mt19937_64] is the
    instance the code uses, written out from the C++ standard's definition and
    checked against the value the standard prescribes. *)
From S2P Require Import Prelude.

Class Rng : Type := {
  rng_state : Type;
  rng_next : rng_state -> Z * rng_state;
  rng_range : forall s, 0 <= (rng_next s).1 < 2 ^ 64;
}.

Section Rng.
Context {RNG : Rng}.

(** The state after [k] draws, and the [k]-th draw. *)
Fixpoint rng_skip (k : nat) (s : rng_state) : rng_state :=
  match k with O => s | S k => rng_skip k (rng_next s).2 end.

Definition rng_draw (k : nat) (s : rng_state) : Z := (rng_next (rng_skip k s)).1.

(** Fairness: after any prefix of draws, every residue class below [n] is drawn
    eventually.  It is the equidistribution property the loops
    [while (!free[rng() % n])] of the allocators rely on to terminate. *)
Definition rng_fair (s : rng_state) : Prop :=
  forall j n r, 0 <= r < n -> n < 2 ^ 64 -> exists k, rng_draw k (rng_skip j s) mod n = r.

Lemma rng_skip_add j k s : rng_skip k (rng_skip j s) = rng_skip (j + k) s.
Proof. revert s. induction j as [|j IH]; intros s; [done|]. apply IH. Qed.

Lemma rng_fair_skip j s : rng_fair s -> rng_fair (rng_skip j s).
Proof. intros Hf i n r ? ?. rewrite rng_skip_add. by apply Hf. Qed.

Lemma rng_fair_next s : rng_fair s -> rng_fair (rng_next s).2.
Proof. apply (rng_fair_skip 1). Qed.

Lemma rng_fair_hit s n r : rng_fair s -> 0 <= r < n -> n < 2 ^ 64 ->
  exists k, rng_draw k s mod n = r.
Proof. intros Hf. apply (Hf 0%nat). Qed.
End Rng.

(** ** [std::mt19937_64]

    [n = 312], [m = 156], [r = 31], [a = 0xb5026f5aa96619e9], tempering
    [(29, 0x5555555555555555), (17, 0x71d67fffeda60000),
    (37, 0xfff7eee000000000), 43], initialisation multiplier
    [6364136223846793005].  The state is the window of the last 312 words. *)
Module Mt19937_64.

Fixpoint seed_words (k : nat) (i prev : Z) : list Z :=
  match k with
  | O => []
  | S k =>
      let x := u64 (6364136223846793005 * Z.lxor prev (Z.shiftr prev 62) + i) in
      x :: seed_words k (i + 1) x
  end.

Definition seed (s : Z) : list Z := u64 s :: seed_words 311 1 (u64 s).

Definition twist (x0 x1 xm : Z) : Z :=
  let y := Z.lor (Z.land x0 (2 ^ 64 - 2 ^ 31)) (Z.land x1 (2 ^ 31 - 1)) in
  let z := Z.lxor xm (Z.shiftr y 1) in
  if Z.odd y then Z.lxor z 13043109905998158313 else z.

Definition temper (x : Z) : Z :=
  let x := Z.lxor x (Z.land (Z.shiftr x 29) 6148914691236517205) in
  let x := Z.lxor x (Z.land (Z.shiftl x 17) 8202884508482404352) in
  let x := Z.lxor x (Z.land (Z.shiftl x 37) 18444473444759240704) in
  Z.lxor x (Z.shiftr x 43).

Definition next (s : list Z) : Z * list Z :=
  match s with
  | x0 :: x1 :: _ =>
      let x := twist x0 x1 (default 0 (s !! 156%nat)) in
      (u64 (temper x), tail s ++ [x])
  | _ => (0, s)
  end.

Lemma next_bound s : 0 <= (next s).1 < 2 ^ 64.
Proof. destruct s as [|x0 [|x1 s]]; cbn [next fst]; [lia|lia|apply u64_range]. Qed.

Fixpoint nth_draw (k : nat) (s : list Z) : Z :=
  match k with O => (next s).1 | S k => nth_draw k (next s).2 end.

(** The C++ standard requires the 10000th draw of a default-seeded engine
    (seed 5489) to be 9981545732273789042. *)
Example standard_check : nth_draw 9999 (seed 5489) = 9981545732273789042.
Proof. vm_compute. reflexivity. Qed.

End Mt19937_64.

#[export] Instance mt19937_64 : Rng := {|
  rng_state := list Z;
  rng_next := Mt19937_64.next;
  rng_range := Mt19937_64.next_bound;
|}.

(** ** A counting generator

    It is fair by construction: the witness that the fairness hypothesis of the
    termination theorems can be met. *)
Module Counter.

Definition next (s : Z) : Z * Z := (u64 s, s + 1).

Lemma counter_next_bound s : 0 <= (next s).1 < 2 ^ 64.
Proof. apply u64_range. Qed.

End Counter.

Definition counter_rng : Rng := {|
  rng_state := Z;
  rng_next := Counter.next;
  rng_range := Counter.counter_next_bound;
|}.

Lemma counter_skip k (s : Z) : @rng_skip counter_rng k s = s + Z.of_nat k.
Proof.
  revert s. induction k as [|k IH]; intros s; [cbn; lia|].
  cbn [rng_skip]. rewrite IH. cbn. lia.
Qed.

Lemma counter_fair (s : Z) : @rng_fair counter_rng s.
Proof.
  intros j n r Hr Hn. rewrite counter_skip. set (t := s + Z.of_nat j).
  exists (Z.to_nat ((r - t) mod 2 ^ 64)). unfold rng_draw. rewrite counter_skip.
  cbn. unfold Counter.next. cbn. unfold u64.
  pose proof (Z.mod_pos_bound (r - t) (2 ^ 64) ltac:(lia)).
  rewrite Z2Nat.id, Z.add_mod_idemp_r by lia.
  replace (t + (r - t)) with r by lia.
  rewrite (Z.mod_small r (2 ^ 64)) by lia. apply Z.mod_small. lia.
Qed.
