(* ===== verification/CxxFloat.v ===== *)
(** * IEEE-754 arithmetic of [float] and [double]

    The timing tables, the migration cost model and the write-drain watermarks
    of the simulator compute in [float] (binary32) and [double] (binary64).
    Both are the Standard Library's executable specification [SpecFloat], so
    rounding is the one the compiled code performs. *)
From Stdlib Require Export SpecFloat.
From S2P Require Import Prelude.

Module F32.
Definition of_Z (z : Z) : spec_float := binary_normalize 24 128 z 0 false.
Definition add := SFadd 24 128.
Definition sub := SFsub 24 128.
Definition mul := SFmul 24 128.
Definition div := SFdiv 24 128.
End F32.

Module F64.
Definition of_Z (z : Z) : spec_float := binary_normalize 53 1024 z 0 false.
Definition add := SFadd 53 1024.
Definition sub := SFsub 53 1024.
Definition mul := SFmul 53 1024.
Definition div := SFdiv 53 1024.
End F64.

Definition fgt (x y : spec_float) : bool := SFltb y x.
Definition flt (x y : spec_float) : bool := SFltb x y.

(** Conversion of a floating-point value to an integer type truncates towards
    zero; a value outside the target's range, an infinity or a NaN is undefined. *)
Definition ftrunc (x : spec_float) : option Z :=
  match x with
  | S754_zero _ => Some 0
  | S754_finite s m e =>
      Some (cond_Zopp s (if 0 <=? e then Z.shiftl (Zpos m) e else Z.shiftr (Zpos m) (- e)))
  | _ => None
  end.

Definition fto_int (lo hi : Z) (x : spec_float) : res Z :=
  match ftrunc x with
  | Some z => if (lo <=? z) && (z <=? hi) then Ok z else Err Undef
  | None => Err Undef
  end.

Definition fto_u64 : spec_float -> res Z := fto_int 0 (2 ^ 64 - 1).
Definition fto_i32 : spec_float -> res Z := fto_int (- 2 ^ 31) (2 ^ 31 - 1).
