(* ===== verification/Utils.v ===== *)
(** * [base/utils]: parsing, bit slicing, JEDEC rounding, the latency matrix

    Models [src/ramulator2/src/base/utils.h] and [utils.cpp]. *)
From Stdlib Require Import String Ascii.
From S2P Require Import Prelude CxxFloat.
Local Open Scope string_scope.
Local Open Scope Z_scope.

(** ** The C++ library's string to integer conversions *)
Definition is_space (c : ascii) : bool :=
  existsb (Ascii.eqb c) [" "; "009"; "010"; "011"; "012"; "013"]%char.

Definition digit (c : ascii) : option Z :=
  let n := Z.of_nat (nat_of_ascii c) in
  if (48 <=? n) && (n <=? 57) then Some (n - 48) else None.

Fixpoint skip_space (s : string) : string :=
  match s with
  | String c s' => if is_space c then skip_space s' else s
  | "" => ""
  end.

Fixpoint digits (acc : option Z) (s : string) : option Z :=
  match s with
  | String c s' =>
      match digit c with
      | Some d => digits (Some (default 0 acc * 10 + d)) s'
      | None => acc
      end
  | "" => acc
  end.

(** The sign and the magnitude of the longest numeric prefix. *)
Definition strto (s : string) : option (bool * Z) :=
  match skip_space s with
  | String "-" s' => pair true <$> digits None s'
  | String "+" s' => pair false <$> digits None s'
  | s' => pair false <$> digits None s'
  end.

Definition stoull (s : string) : res Z :=
  match strto s with
  | None => Err (Exc "invalid_argument")
  | Some (neg, v) =>
      if v <=? SIZE_MAX then Ok (u64 (if neg : bool then - v else v))
      else Err (Exc "out_of_range")
  end.

Definition sto_signed (bits : Z) (s : string) : res Z :=
  match strto s with
  | None => Err (Exc "invalid_argument")
  | Some (neg, v) =>
      let x := if neg : bool then - v else v in
      if (- 2 ^ (bits - 1) <=? x) && (x <? 2 ^ (bits - 1)) then Ok x
      else Err (Exc "out_of_range")
  end.

Definition stoi : string -> res Z := sto_signed 32.
Definition stoll : string -> res Z := sto_signed 64.

Definition contains (s sub : string) : bool :=
  match String.index 0 sub s with Some _ => true | None => false end.

(** ** Configuration strings *)
Fixpoint parse_suffix (unit0 : Z) (suffixes : list string) (s : string) : res Z :=
  match suffixes with
  | [] => Ok 0
  | suffix :: rest =>
      if contains s suffix then
        size ← stoull s;
        Ok (u64 (Z.shiftl size (10 * unit0)))
      else parse_suffix (unit0 + 1) rest s
  end.

Definition parse_capacity_str (size_str : string) : res Z :=
  parse_suffix 1 ["KB"; "MB"; "GB"] size_str.

Definition parse_frequency_str (size_str : string) : res Z :=
  parse_suffix 0 ["MHz"; "GHz"] size_str.

(** ** JEDEC rounding *)
Definition JEDEC_rounding (t_ns : spec_float) (tCK_ps : Z) : res Z :=
  t_ps ← fto_u64 (F32.mul t_ns (F32.of_Z 1000));
  let d := u64 tCK_ps in
  if d =? 0 then Err Undef
  else Ok (u64 (u64 (t_ps * 1000) / d + 974) / 1000).

Definition JEDEC_rounding_DDR5 (t_ns : spec_float) (tCK_ps : Z) : res Z :=
  t_ps ← fto_u64 (F32.mul t_ns (F32.of_Z 1000));
  let d := u64 tCK_ps in
  if d =? 0 then Err Undef
  else Ok (u64 (u64 (t_ps * 997) / d + 1000) / 1000).

(** ** Bit operations *)
Fixpoint calc_log2_loop (fuel : nat) (val n : Z) : res Z :=
  match fuel with
  | O => Err OutOfFuel
  | S fuel =>
      let val := Z.shiftr val 1 in
      if val =? 0 then Ok n else calc_log2_loop fuel val (n + 1)
  end.

(** 64 halvings exhaust every non-negative 64-bit value. *)
Definition calc_log2 (val : Z) : res Z := calc_log2_loop 64 val 0.

(** [slice_lower_bits(addr, num_bits)]: the sliced bits and the new value of
    the reference argument.  The mask [(1 << num_bits) - 1] is computed in [int]:
    a width outside 0..30 is undefined. *)
Definition slice_lower_bits (addr num_bits : Z) : res (Z * Z) :=
  if (0 <=? num_bits) && (num_bits <=? 30) then
    Ok (Z.land addr (Z.shiftl 1 num_bits - 1), Z.shiftr addr num_bits)
  else Err Undef.

(** ** Tokenisation *)
Fixpoint tokenize_loop (fuel : nat) (line delim : string) (last_pos : nat) : list string :=
  match fuel with
  | O => []
  | S fuel =>
      match String.index last_pos delim line with
      | Some pos =>
          String.substring last_pos (pos - last_pos) line
            :: tokenize_loop fuel line delim (pos + 1)
      | None => [String.substring last_pos (String.length line - last_pos) line]
      end
  end.

Definition tokenize (line delim : string) : list string :=
  tokenize_loop (S (String.length line)) line delim 0.

(** ** The core-to-channel latency matrix *)
Definition latency_pattern : list Z := [20; 30; 60; 100; 130].

Definition latency_entry (core ch : Z) : Z :=
  let offset := Z.abs (core - ch) in
  if offset <? 5 then latency_pattern !!! Z.to_nat offset
  else latency_pattern !!! Z.to_nat (8 - offset).

Definition initialize_core_channel_latency : list (list Z) :=
  map (fun core => map (fun ch => latency_entry core ch) (seqZ 0 8)) (seqZ 0 8).

Definition core_channel_latency_matrix : list (list Z) := initialize_core_channel_latency.

Definition FUTURE_ACCESS_FACTOR : Z := 1.
Definition MIGRATION_COOLDOWN : Z := 5000.

(** ** Facts *)
Lemma calc_log2_loop_spec fuel v n :
  0 <= v < 2 ^ Z.of_nat fuel -> (0 < fuel)%nat ->
  calc_log2_loop fuel v n = Ok (n + Z.log2 v).
Proof.
  revert v n. induction fuel as [|fuel IH]; intros v n Hv Hf; [lia|].
  cbn [calc_log2_loop]. rewrite Z.shiftr_div_pow2, Z.pow_1_r by lia.
  assert (v / 2 < 2 ^ Z.of_nat fuel).
  { apply Z.div_lt_upper_bound; [lia|]. rewrite Nat2Z.inj_succ, Z.pow_succ_r in Hv; lia. }
  assert (0 <= v / 2) by (apply Z.div_pos; lia).
  destruct (Z.eqb_spec (v / 2) 0) as [E|E].
  - f_equal. assert (v = 0 \/ v = 1) as [-> | ->]; [dlia|cbn; lia|cbn; lia].
  - destruct fuel as [|fuel]; [cbn in *; lia|].
    rewrite IH by lia. f_equal.
    assert (1 <= Z.log2 v) by (apply Z.log2_le_pow2; dlia).
    rewrite <- (Z.div2_div v), Z.div2_spec, Z.log2_shiftr by dlia. lia.
Qed.

Lemma calc_log2_Ok v : 0 <= v < 2 ^ 64 -> calc_log2 v = Ok (Z.log2 v).
Proof. intros. unfold calc_log2. rewrite calc_log2_loop_spec; [f_equal; lia|done|lia]. Qed.

Lemma calc_log2_pow2 k : 0 <= k < 64 -> calc_log2 (2 ^ k) = Ok k.
Proof.
  intros. rewrite calc_log2_Ok, Z.log2_pow2; [done|lia|].
  split; [lia|]. apply Z.pow_lt_mono_r; lia.
Qed.

(** A negative argument never leaves the loop: the arithmetic shift keeps it
    negative. *)
Lemma calc_log2_negative fuel v n : v < 0 -> calc_log2_loop fuel v n = Err OutOfFuel.
Proof.
  revert v n. induction fuel as [|fuel IH]; intros v n Hv; [done|].
  cbn [calc_log2_loop]. rewrite Z.shiftr_div_pow2, Z.pow_1_r by lia.
  assert (v / 2 < 0) by (apply Z.div_lt_upper_bound; lia).
  rewrite (proj2 (Z.eqb_neq _ _)) by lia. by apply IH.
Qed.

Lemma slice_lower_bits_Ok addr n :
  0 <= n <= 30 -> slice_lower_bits addr n = Ok (addr mod 2 ^ n, addr / 2 ^ n).
Proof.
  intros. unfold slice_lower_bits.
  rewrite (proj2 (Z.leb_le 0 n)), (proj2 (Z.leb_le n 30)) by lia. cbn [andb].
  by rewrite land_mask, Z.shiftr_div_pow2 by lia.
Qed.

(** Products of a whole number of nanoseconds by 1000 are exact in binary32 for
    every table entry of the DRAM standards (the largest is 7800). *)
Definition ns_to_ps_exact (t : Z) : bool :=
  match fto_u64 (F32.mul (F32.of_Z t) (F32.of_Z 1000)) with
  | Ok z => z =? t * 1000
  | Err _ => false
  end.

Lemma ns_to_ps_table : forallb ns_to_ps_exact (seqZ 0 8000) = true.
Proof. vm_compute. reflexivity. Qed.

Lemma ns_to_ps t : 0 <= t < 8000 ->
  fto_u64 (F32.mul (F32.of_Z t) (F32.of_Z 1000)) = Ok (t * 1000).
Proof.
  intros Ht. pose proof ns_to_ps_table as H. rewrite forallb_forall in H.
  specialize (H t). unfold ns_to_ps_exact in H. destruct (fto_u64 _).
  - rewrite Z.eqb_eq in H. rewrite H; [done|]. apply list_elem_of_In, elem_of_seqZ. lia.
  - discriminate H. apply list_elem_of_In, elem_of_seqZ. lia.
Qed.

Lemma JEDEC_rounding_int t tCK_ps :
  0 <= t < 8000 -> 0 < tCK_ps < 2 ^ 31 ->
  JEDEC_rounding (F32.of_Z t) tCK_ps = Ok ((t * 1000000 / tCK_ps + 974) / 1000).
Proof.
  intros Ht Hc. unfold JEDEC_rounding. rewrite ns_to_ps by done. cbn.
  rewrite (u64_small tCK_ps) by lia. rewrite (proj2 (Z.eqb_neq _ _)) by lia.
  rewrite (u64_small (t * 1000 * 1000)) by lia.
  assert (0 <= t * 1000 * 1000 / tCK_ps <= t * 1000 * 1000).
  { split; [apply Z.div_pos; lia|]. apply Z.div_le_upper_bound; nia. }
  rewrite u64_small by lia. do 4 f_equal. lia.
Qed.

(** Tokenisation with a one-character delimiter: reference definition. *)
Fixpoint split_on (c : ascii) (s : string) : list string :=
  match s with
  | "" => [""]
  | String b s' =>
      if Ascii.eqb b c then "" :: split_on c s'
      else match split_on c s' with
           | t :: ts => String b t :: ts
           | [] => [String b ""]
           end
  end.

Lemma prefix_char c b s : String.prefix (String c "") (String b s) = Ascii.eqb b c.
Proof.
  cbn. destruct (Ascii.eqb_spec b c) as [->|]; destruct (ascii_dec c _); try congruence.
  by destruct s.
Qed.

Lemma tokenize_loop_shift fuel b s d n :
  tokenize_loop fuel (String b s) d (S n) = tokenize_loop fuel s d n.
Proof.
  revert n. induction fuel as [|fuel IH]; intros n; [done|]. cbn.
  destruct (String.index n d s) as [pos|]; [|done].
  f_equal. apply IH.
Qed.

Lemma substring_all s : String.substring 0 (String.length s) s = s.
Proof. induction s as [|b s IH]; cbn; [done|by rewrite IH]. Qed.

Lemma index_char c b s :
  String.index 0 (String c "") (String b s) =
  if Ascii.eqb b c then Some 0%nat else S <$> String.index 0 (String c "") s.
Proof.
  cbn [String.index]. rewrite prefix_char. destruct (Ascii.eqb b c); [done|].
  by destruct (String.index 0 _ s).
Qed.

Lemma tokenize_loop_split fuel c s :
  (String.length s < fuel)%nat -> tokenize_loop fuel s (String c "") 0 = split_on c s.
Proof.
  revert s. induction fuel as [|fuel IH]; intros s Hf; [lia|].
  induction s as [|b s IHs]; [done|]. cbn [String.length] in Hf.
  cbn [tokenize_loop split_on]. rewrite index_char.
  destruct (Ascii.eqb b c).
  - cbn. rewrite tokenize_loop_shift. f_equal. apply IH. lia.
  - specialize (IHs ltac:(lia)). cbn [tokenize_loop] in IHs.
    destruct (String.index 0 (String c "") s) as [pos|] eqn:E; cbn [fmap option_fmap option_map].
    + rewrite <- IHs. cbn. f_equal.
      * by rewrite Nat.sub_0_r.
      * by rewrite tokenize_loop_shift.
    + rewrite <- IHs. cbn. by rewrite !Nat.sub_0_r.
Qed.

Lemma split_on_ne c s : split_on c s <> [].
Proof. destruct s as [|b s]; cbn; [done|]. destruct (Ascii.eqb b c); [done|]. by destruct (split_on c s). Qed.

Lemma split_on_concat c s : String.concat (String c "") (split_on c s) = s.
Proof.
  induction s as [|b s IH]; [done|]. cbn [split_on]. pose proof (split_on_ne c s).
  destruct (Ascii.eqb_spec b c) as [->|Hne]; destruct (split_on c s) as [|t ts]; [done| |done|].
  - change (String c (String.concat (String c "") (t :: ts)) = String c s). by rewrite IH.
  - rewrite <- IH. by destruct ts.
Qed.

Lemma split_on_free c s : Forall (fun t => String.index 0 (String c "") t = None) (split_on c s).
Proof.
  induction s as [|b s IH]; cbn [split_on]; [by repeat constructor|].
  destruct (Ascii.eqb b c) eqn:E; [by constructor|].
  destruct (split_on c s) as [|t ts]; inversion IH; subst; constructor; auto;
    rewrite index_char, E; [done|by rewrite H1].
Qed.

(** ** Properties *)

(** For every whole number of nanoseconds below 8000 and every
    clock period, [JEDEC_rounding] returns a cycle count [n] that rounds up with
    the JEDEC guard band of 2.6% of a clock: [n] cycles plus 0.026 of a cycle
    cover the requested time, and no smaller count does. *)
Theorem JEDEC_rounding_guard_band t tCK_ps :
  0 <= t < 8000 -> 0 < tCK_ps < 2 ^ 31 ->
  exists n, JEDEC_rounding (F32.of_Z t) tCK_ps = Ok n /\
    1000 * (1000 * t) < (1000 * n + 26) * tCK_ps /\
    (forall m, 0 <= m -> 1000 * (1000 * t) < (1000 * m + 26) * tCK_ps -> n <= m).
Proof.
  intros Ht Hc. eexists. split; [by apply JEDEC_rounding_int|].
  set (x := t * 1000000 / tCK_ps). set (n := (x + 974) / 1000).
  assert (x * tCK_ps <= t * 1000000 < x * tCK_ps + tCK_ps) by (unfold x; dlia).
  assert (1000 * n <= x + 974 < 1000 * n + 1000) by (unfold n; dlia).
  split; [nia|]. intros m Hm Hlt. enough (n < m + 1) by lia. nia.
Qed.

Lemma JEDEC_rounding_guard_band_witness :
  0 <= 260 < 8000 /\ 0 < 833 < 2 ^ 31 /\
  exists n, JEDEC_rounding (F32.of_Z 260) 833 = Ok n /\
    1000 * (1000 * 260) < (1000 * n + 26) * 833 /\
    (forall m, 0 <= m -> 1000 * (1000 * 260) < (1000 * m + 26) * 833 -> n <= m).
Proof. split; [lia|]. split; [lia|]. apply JEDEC_rounding_guard_band; lia. Defined.

(** Splitting a trace line at spaces loses nothing: the tokens
    joined by single spaces are the line, and no token contains a space. *)
Theorem tokenize_roundtrip line :
  String.concat " " (tokenize line " ") = line /\
  Forall (fun t => contains t " " = false) (tokenize line " ").
Proof.
  unfold tokenize. rewrite tokenize_loop_split by lia.
  split; [exact (split_on_concat " " line)|].
  eapply Forall_impl; [|exact (split_on_free " " line)].
  intros t Ht. unfold contains. by rewrite Ht.
Qed.
