(* ===== verification/Request.v ===== *)
(** * [base/request]: memory requests and request buffers

    Models [src/ramulator2/src/base/request.h] and [request.cpp]. *)
From S2P Require Import Prelude.

(** Request types 0 and 1; the device specification defines the others. *)
Module ReqType.
Definition Read : Z := 0.
Definition Write : Z := 1.
End ReqType.

(** What the [std::function] callback of a request does: nothing (empty) or
    hand the request back to the frontend that created it. *)
Inductive Callback : Type :=
| CbNone
| CbFrontEnd.

#[global] Instance Callback_eq_dec : EqDecision Callback.
Proof. solve_decision. Defined.

Record Request : Type := mkRequest {
  addr : Z;
  addr_vec : list Z;
  vpage : Z;
  v_addr : Z;
  type_id : Z;
  source_id : Z;
  command : Z;
  final_command : Z;
  is_stat_updated : bool;
  arrive : Z;
  depart : Z;
  is_cached : bool;
  scratchpad : list Z;
  callback : Callback;
  m_payload : Z;
}.

#[global] Instance Request_eq_dec : EqDecision Request.
Proof. solve_decision. Defined.

(** The member initialisers. *)
Definition blank_request : Request :=
  mkRequest (-1) [] (-1) (-1) (-1) (-1) (-1) (-1) false (-1) (-1) false [0; 0; 0; 0] CbNone 0.

(** Field updates. *)
Definition set_addr (a : Z) (r : Request) : Request :=
  mkRequest a (addr_vec r) (vpage r) (v_addr r) (type_id r) (source_id r) (command r)
    (final_command r) (is_stat_updated r) (arrive r) (depart r) (is_cached r) (scratchpad r)
    (callback r) (m_payload r).
Definition set_addr_vec (v : list Z) (r : Request) : Request :=
  mkRequest (addr r) v (vpage r) (v_addr r) (type_id r) (source_id r) (command r)
    (final_command r) (is_stat_updated r) (arrive r) (depart r) (is_cached r) (scratchpad r)
    (callback r) (m_payload r).
Definition set_virtual (vp va : Z) (r : Request) : Request :=
  mkRequest (addr r) (addr_vec r) vp va (type_id r) (source_id r) (command r)
    (final_command r) (is_stat_updated r) (arrive r) (depart r) (is_cached r) (scratchpad r)
    (callback r) (m_payload r).
Definition set_ids (ty src : Z) (r : Request) : Request :=
  mkRequest (addr r) (addr_vec r) (vpage r) (v_addr r) ty src (command r)
    (final_command r) (is_stat_updated r) (arrive r) (depart r) (is_cached r) (scratchpad r)
    (callback r) (m_payload r).
Definition set_command (c : Z) (r : Request) : Request :=
  mkRequest (addr r) (addr_vec r) (vpage r) (v_addr r) (type_id r) (source_id r) c
    (final_command r) (is_stat_updated r) (arrive r) (depart r) (is_cached r) (scratchpad r)
    (callback r) (m_payload r).
Definition set_final_command (c : Z) (r : Request) : Request :=
  mkRequest (addr r) (addr_vec r) (vpage r) (v_addr r) (type_id r) (source_id r) (command r)
    c (is_stat_updated r) (arrive r) (depart r) (is_cached r) (scratchpad r)
    (callback r) (m_payload r).
Definition set_stat_updated (b : bool) (r : Request) : Request :=
  mkRequest (addr r) (addr_vec r) (vpage r) (v_addr r) (type_id r) (source_id r) (command r)
    (final_command r) b (arrive r) (depart r) (is_cached r) (scratchpad r)
    (callback r) (m_payload r).
Definition set_arrive (t : Z) (r : Request) : Request :=
  mkRequest (addr r) (addr_vec r) (vpage r) (v_addr r) (type_id r) (source_id r) (command r)
    (final_command r) (is_stat_updated r) t (depart r) (is_cached r) (scratchpad r)
    (callback r) (m_payload r).
Definition set_depart (t : Z) (r : Request) : Request :=
  mkRequest (addr r) (addr_vec r) (vpage r) (v_addr r) (type_id r) (source_id r) (command r)
    (final_command r) (is_stat_updated r) (arrive r) t (is_cached r) (scratchpad r)
    (callback r) (m_payload r).
Definition set_scratchpad (s : list Z) (r : Request) : Request :=
  mkRequest (addr r) (addr_vec r) (vpage r) (v_addr r) (type_id r) (source_id r) (command r)
    (final_command r) (is_stat_updated r) (arrive r) (depart r) (is_cached r) s
    (callback r) (m_payload r).
Definition set_callback (c : Callback) (r : Request) : Request :=
  mkRequest (addr r) (addr_vec r) (vpage r) (v_addr r) (type_id r) (source_id r) (command r)
    (final_command r) (is_stat_updated r) (arrive r) (depart r) (is_cached r) (scratchpad r)
    c (m_payload r).

(** The four constructors. *)
Definition Request_addr_type (a ty : Z) : Request := set_addr a (set_ids ty (-1) blank_request).
Definition Request_vec_type (v : list Z) (ty : Z) : Request :=
  set_addr_vec v (set_ids ty (-1) blank_request).
Definition Request_addr_type_source_callback (a ty src : Z) (cb : Callback) : Request :=
  set_callback cb (set_addr a (set_ids ty src blank_request)).
Definition Request_addr_type_source (a ty src : Z) : Request :=
  set_addr a (set_ids ty src blank_request).

(** ** Request buffers *)
Record ReqBuffer : Type := mkReqBuffer {
  buffer : list Request;
  max_size : Z;
}.

Definition new_buffer : ReqBuffer := mkReqBuffer [] 32.

Definition buf_size (b : ReqBuffer) : Z := Z.of_nat (length (buffer b)).

Definition enqueue (r : Request) (b : ReqBuffer) : bool * ReqBuffer :=
  if buf_size b <=? max_size b
  then (true, mkReqBuffer (buffer b ++ [r]) (max_size b))
  else (false, b).

(** An iterator of the [std::list] is the position of its node. *)
Definition remove (it : nat) (b : ReqBuffer) : ReqBuffer :=
  mkReqBuffer (delete it (buffer b)) (max_size b).

Definition buf_update (it : nat) (f : Request -> Request) (b : ReqBuffer) : ReqBuffer :=
  mkReqBuffer (alter f it (buffer b)) (max_size b).

(** A buffer never holds more than [max_size + 1] requests: the guard of
    [enqueue] is [size <= max_size]. *)
Definition buf_wf (b : ReqBuffer) : Prop := buf_size b <= max_size b + 1.

Lemma enqueue_true r b b' : enqueue r b = (true, b') ->
  b' = mkReqBuffer (buffer b ++ [r]) (max_size b) /\ buf_size b <= max_size b.
Proof. unfold enqueue. destruct (Z.leb_spec (buf_size b) (max_size b)); naive_solver. Qed.

Lemma enqueue_false r b b' : enqueue r b = (false, b') -> b' = b /\ max_size b < buf_size b.
Proof. unfold enqueue. destruct (Z.leb_spec (buf_size b) (max_size b)); naive_solver. Qed.

Lemma enqueue_wf r b : buf_wf b -> buf_wf (enqueue r b).2.
Proof.
  unfold enqueue, buf_wf, buf_size. intros H.
  destruct (Z.leb_spec (Z.of_nat (length (buffer b))) (max_size b)); cbn; [|done].
  rewrite length_app. cbn. lia.
Qed.

Lemma remove_wf it b : buf_wf b -> buf_wf (remove it b).
Proof.
  unfold buf_wf, buf_size, remove. cbn. intros H.
  pose proof (length_delete_le (buffer b) it). lia.
Qed.

Lemma buf_update_wf it f b : buf_wf b -> buf_wf (buf_update it f b).
Proof. unfold buf_wf, buf_size, buf_update. cbn. by rewrite length_alter. Qed.

#[export] Hint Resolve enqueue_wf remove_wf buf_update_wf : mem.
