(* ===== verification/Numa.v ===== *)
(** * The NUMA page allocator shared by [Local_to_requester] and [Dynamic_migration]

    Both classes of [src/ramulator2/src/translation/impl] keep the same members
    and have textually the same [find_best_channel], [find_random_free_page],
    [evict_and_replace_page], [is_hot_page], [find_most_frequent_core],
    [calculate_migration_cost] and allocation path of [translate].  This file
    holds the state, these operations and the lemmas on the free-page pool; the
    two classes are in [LocalToRequester] and [DynamicMigration]. *)
From S2P Require Import Prelude Rng CxxFloat Utils Request.

(** ** State

    The members fixed by [init] ([Config]), the free-page pool with its
    generator ([Pool]), the page tables ([Tables], with the global
    [page_to_channel_mapping] of [utils.h]) and the counters. *)
Record Config : Type := mkConfig {
  m_max_paddr : Z;
  m_pagesize : Z;
  m_offsetbits : Z;
  m_num_pages : Z;
  HOT_PAGE_THRESHOLD : Z;
  STABILITY_WINDOW : Z;
  COOLDOWN_WINDOWS : Z;
  m_cost : Z;
  pages_per_channel : Z;
}.

Record Tables : Type := mkTables {
  global_page_table : gmap Z Z;
  reverse_page_table : gmap Z Z;
  page_to_channel_mapping : gmap Z Z;
}.

Section Numa.
Context {RNG : Rng}.

Record Pool : Type := mkPool {
  m_allocator_rng : rng_state;
  m_free_physical_pages2d : list (list bool);
  m_num_free_physical_pages_per_part : list Z;
}.

Record NState : Type := mkNState {
  cfg : Config;
  pool : Pool;
  tables : Tables;
  page_access_counts_per_core : gmap Z (gmap Z Z);
  migration_counter : Z;
  window_counter : Z;
  m_reserved_pages : gset Z;
  last_migration_window : gmap Z Z;
  migrations : Z;
}.

(** ** Channel choice *)
Fixpoint best_channel_loop (row : list Z) (channels : list Z) (best min_latency : Z) : res Z :=
  match channels with
  | [] => Ok best
  | channel :: rest =>
      lat ← vget row channel;
      if u64 lat <? min_latency
      then best_channel_loop row rest channel (u64 lat)
      else best_channel_loop row rest best min_latency
  end.

Definition find_best_channel (core : Z) : res Z :=
  row ← vget core_channel_latency_matrix core;
  best_channel_loop row (seqZ 0 8) 0 SIZE_MAX.

(** ** Allocation *)
Definition draw_page (c : Config) (ch : Z) (g : rng_state) : Z * rng_state :=
  let '(r, g) := rng_next g in
  (r mod pages_per_channel c + ch * pages_per_channel c, g).

(** Writes to [m_free_physical_pages2d[ch][off]] and
    [m_num_free_physical_pages_per_part[ch]]. *)
Definition mark_page (ch off : Z) (b : bool) (delta : Z) (p : Pool) : res Pool :=
  row ← vget (m_free_physical_pages2d p) ch;
  row ← vset row off b;
  free ← vset (m_free_physical_pages2d p) ch row;
  n ← vget (m_num_free_physical_pages_per_part p) ch;
  nums ← vset (m_num_free_physical_pages_per_part p) ch (u64 (n + delta));
  Ok (mkPool (m_allocator_rng p) free nums).

(** The loop that draws pages of the partition until a free one comes up. *)
Fixpoint pick_free (fuel : nat) (c : Config) (ch : Z) (p : Pool) : res (Z * Pool) :=
  match fuel with
  | O => Err OutOfFuel
  | S fuel =>
      if pages_per_channel c =? 0 then Err Undef else
      let '(ppn, g) := draw_page c ch (m_allocator_rng p) in
      let off := ppn mod pages_per_channel c in
      let p := mkPool g (m_free_physical_pages2d p) (m_num_free_physical_pages_per_part p) in
      row ← vget (m_free_physical_pages2d p) ch;
      is_free ← vget row off;
      if is_free : bool then p ← mark_page ch off false (-1) p; Ok (ppn, p)
      else pick_free fuel c ch p
  end.

(** [evict_and_replace_page] up to its tail call: [reverse_page_table[ppn]]
    yields 0 for a frame without an entry. *)
Definition evict_victim (c : Config) (ch : Z) (p : Pool) (t : Tables) : res (Pool * Tables) :=
  let ppc := m_num_pages c / 8 in
  if ppc =? 0 then Err Undef else
  let '(r, g) := rng_next (m_allocator_rng p) in
  let victim_ppn := r mod ppc + ch * ppc in
  let victim_vpn := default 0 (reverse_page_table t !! victim_ppn) in
  let t := mkTables (delete victim_vpn (global_page_table t))
                    (delete victim_ppn (reverse_page_table t))
                    (delete victim_vpn (page_to_channel_mapping t)) in
  let p := mkPool g (m_free_physical_pages2d p) (m_num_free_physical_pages_per_part p) in
  p ← mark_page ch (victim_ppn mod ppc) true 1 p;
  Ok (p, t).

Fixpoint find_random_free_page (fuel : nat) (c : Config) (ch : Z) (p : Pool) (t : Tables)
    : res (Z * Pool * Tables) :=
  match fuel with
  | O => Err OutOfFuel
  | S fuel =>
      n ← vget (m_num_free_physical_pages_per_part p) ch;
      if n =? 0 then
        '(p, t) ← evict_victim c ch p t;
        find_random_free_page fuel c ch p t
      else '(ppn, p) ← pick_free fuel c ch p; Ok (ppn, p, t)
  end.

Definition evict_and_replace_page (fuel : nat) (c : Config) (ch : Z) (p : Pool) (t : Tables)
    : res (Z * Pool * Tables) :=
  '(p, t) ← evict_victim c ch p t;
  find_random_free_page fuel c ch p t.

(** ** Access statistics *)
Definition bump_access (vpn core : Z) (counts : gmap Z (gmap Z Z)) : gmap Z (gmap Z Z) :=
  let inner := default ∅ (counts !! vpn) in
  <[vpn := <[core := u64 (default 0 (inner !! core) + 1)]> inner]> counts.

(** [page_access_counts_per_core[vpn]] inserts an empty inner map on a miss. *)
Definition is_hot_page `{!IterOrder} (c : Config) (vpn : Z) (counts : gmap Z (gmap Z Z))
    : bool * gmap Z (gmap Z Z) :=
  let inner := default ∅ (counts !! vpn) in
  let total := foldl (fun acc e => u64 (acc + e.2)) 0 (iter_order inner) in
  (HOT_PAGE_THRESHOLD c <=? total, <[vpn := inner]> counts).

Definition find_most_frequent_core `{!IterOrder} (vpn : Z) (counts : gmap Z (gmap Z Z)) : Z :=
  match counts !! vpn with
  | None => 0
  | Some inner =>
      (foldl (fun '(core, most) e => if most <? e.2 then (e.1, e.2) else (core, most))
             (0, 0) (iter_order inner)).1
  end.

(** ** The migration cost model, in [double] *)
Definition calculate_migration_cost (page_size : Z) (memory_bandwidth : spec_float) : spec_float :=
  let k := F64.of_Z 1024 in
  let page_size_in_bytes := F64.mul (F64.of_Z page_size) k in
  let bandwidth_in_bytes_per_second := F64.mul (F64.mul (F64.mul memory_bandwidth k) k) k in
  let cost_in_seconds := F64.div page_size_in_bytes bandwidth_in_bytes_per_second in
  F64.mul cost_in_seconds (F64.of_Z 1000000).

(** ** [init] *)
Definition init_config (max_addr pagesize_KB hot window cooldown : Z) (bandwidth : spec_float)
    : res Config :=
  let pagesize := i64 (Z.shiftl pagesize_KB 10) in
  offsetbits ← calc_log2 pagesize;
  if pagesize =? 0 then Err Undef else
  let num_pages := Z.quot max_addr pagesize in
  cost ← fto_u64 (calculate_migration_cost pagesize bandwidth);
  Ok (mkConfig max_addr pagesize offsetbits num_pages hot window cooldown cost (num_pages / 8)).

Definition init_state (c : Config) (seed : rng_state) : NState :=
  let ppc := pages_per_channel c in
  mkNState c
    (mkPool seed (replicate 8 (replicate (Z.to_nat ppc) true)) (replicate 8 ppc))
    (mkTables ∅ ∅ ∅) ∅ 0 0 ∅ ∅ 0.

(** ** The allocation path of [translate]: a free page of the channel, or the
    page of a victim. *)
Definition allocate_page (fuel : nat) (c : Config) (ch : Z) (p : Pool) (t : Tables)
    : res (Z * Pool * Tables) :=
  n ← vget (m_num_free_physical_pages_per_part p) ch;
  if 0 <? n then '(ppn, p) ← pick_free fuel c ch p; Ok (ppn, p, t)
  else evict_and_replace_page fuel c ch p t.

(** [(ppn << m_offsetbits) | (addr & ((1 << m_offsetbits) - 1))] *)
Definition phys_addr (c : Config) (ppn a : Z) : Z :=
  Z.lor (Z.shiftl ppn (m_offsetbits c)) (Z.land a (Z.shiftl 1 (m_offsetbits c) - 1)).

(** First half of [translate]: the access is counted, and when
    [migration_counter] reaches [STABILITY_WINDOW] the class's window action runs
    ([migrate_pages], commented out in [Local_to_requester]) and the counter is
    reset. *)
Definition window_step (on_window : nat -> NState -> res NState) (fuel : nat)
    (vpn core : Z) (s : NState) : res NState :=
  let counts := bump_access vpn core (page_access_counts_per_core s) in
  let counter := u64 (migration_counter s + 1) in
  let s := mkNState (cfg s) (pool s) (tables s) counts counter (window_counter s)
             (m_reserved_pages s) (last_migration_window s) (migrations s) in
  if counter =? STABILITY_WINDOW (cfg s) then
    s ← on_window fuel s;
    Ok (mkNState (cfg s) (pool s) (tables s) (page_access_counts_per_core s) 0
          (window_counter s) (m_reserved_pages s) (last_migration_window s) (migrations s))
  else Ok s.

(** Second half: the existing mapping, or a new page in the best channel of the
    requesting core. *)
Definition lookup_or_allocate (fuel : nat) (vpn core : Z) (s : NState) : res (Z * NState) :=
  match global_page_table (tables s) !! vpn with
  | Some ppn => Ok (ppn, s)
  | None =>
      ch ← find_best_channel core;
      '(ppn, p, t) ← allocate_page fuel (cfg s) ch (pool s) (tables s);
      let t := mkTables (<[vpn := ppn]> (global_page_table t))
                        (<[ppn := vpn]> (reverse_page_table t))
                        (<[vpn := ch]> (page_to_channel_mapping t)) in
      Ok (ppn, mkNState (cfg s) p t (page_access_counts_per_core s) (migration_counter s)
                 (window_counter s) (m_reserved_pages s) (last_migration_window s)
                 (migrations s))
  end.

Definition translate_with (on_window : nat -> NState -> res NState) (fuel : nat)
    (req : Request) (s : NState) : res (bool * Request * NState) :=
  let vpn := Z.shiftr (addr req) (m_offsetbits (cfg s)) in
  let req := set_virtual vpn (addr req) req in
  s ← window_step on_window fuel vpn (source_id req) s;
  '(ppn, s) ← lookup_or_allocate fuel vpn (source_id req) s;
  Ok (true, set_addr (phys_addr (cfg s) ppn (addr req)) req, s).

(** [reserve] and [get_max_addr]. *)
Definition reserve (a : Z) (s : NState) : bool * NState :=
  let ppn := Z.shiftr a (m_offsetbits (cfg s)) in
  (true, mkNState (cfg s) (pool s) (tables s) (page_access_counts_per_core s)
           (migration_counter s) (window_counter s) ({[ppn]} ∪ m_reserved_pages s)
           (last_migration_window s) (migrations s)).

Definition get_max_addr (s : NState) : Z := m_max_paddr (cfg s).
End Numa.
