(* ===== verification/NumaFacts.v ===== *)
(** * Facts on the NUMA page allocator

    The pool invariant, the effect of drawing, marking and evicting a page on
    the set of free pages, and the termination of the drawing loops under a fair
    generator. *)
From S2P Require Import Prelude Rng CxxFloat Utils Request Numa.

(** ** Channel choice *)

(** The nearest channel of every core is the one with its own index. *)
Lemma find_best_channel_spec core :
  find_best_channel core = if bool_decide (0 <= core < 8) then Ok core else Err Undef.
Proof.
  case_bool_decide as H.
  - assert (core = 0 \/ core = 1 \/ core = 2 \/ core = 3 \/ core = 4 \/ core = 5 \/
            core = 6 \/ core = 7) as Hc by lia.
    destruct_or! Hc; subst; vm_compute; reflexivity.
  - unfold find_best_channel.
    destruct (vget core_channel_latency_matrix core) as [row|e] eqn:E.
    + apply vget_inside in E. vm_compute length in E. lia.
    + unfold vget in E. cbn. case_bool_decide; [destruct (_ !! _)|]; naive_solver.
Qed.

Lemma find_best_channel_Ok core ch : find_best_channel core = Ok ch -> ch = core /\ 0 <= core < 8.
Proof. rewrite find_best_channel_spec. case_bool_decide; naive_solver. Qed.

Section Facts.
Context {RNG : Rng}.
Implicit Types (c : Config) (p : Pool) (t : Tables).

Record cfg_ok c : Prop := {
  cfg_ppc : pages_per_channel c = m_num_pages c / 8;
  cfg_pos : 0 < pages_per_channel c < 2 ^ 60;
  cfg_bits : 0 <= m_offsetbits c <= 30;
}.

(** Every partition has [pages_per_channel] slots and its counter is the
    number of free ones. *)
Record pool_ok c p : Prop := {
  pool_len : length (m_free_physical_pages2d p) = 8%nat;
  pool_nlen : length (m_num_free_physical_pages_per_part p) = 8%nat;
  pool_row : forall i row, m_free_physical_pages2d p !! i = Some row ->
    Z.of_nat (length row) = pages_per_channel c /\
    m_num_free_physical_pages_per_part p !! i = Some (ntrue row);
}.

Definition page_free c p (q : Z) : Prop :=
  exists row, m_free_physical_pages2d p !! Z.to_nat (q / pages_per_channel c) = Some row /\
    row !! Z.to_nat (q mod pages_per_channel c) = Some true.

Definition in_channel c (ch q : Z) : Prop :=
  ch * pages_per_channel c <= q < (ch + 1) * pages_per_channel c.

Lemma in_channel_div c ch q : cfg_ok c -> in_channel c ch q -> q / pages_per_channel c = ch.
Proof.
  intros [] H. unfold in_channel in H. symmetry.
  apply Z.div_unique with (q - ch * pages_per_channel c); lia.
Qed.

Lemma draw_in_channel c ch g :
  cfg_ok c -> in_channel c ch (draw_page c ch g).1.
Proof.
  intros []. unfold draw_page, in_channel. destruct (rng_next g) as [r g']. cbn.
  pose proof (Z.mod_pos_bound r (pages_per_channel c) ltac:(lia)). lia.
Qed.

Lemma draw_mod c ch g :
  cfg_ok c -> (draw_page c ch g).1 mod pages_per_channel c = (rng_next g).1 mod pages_per_channel c.
Proof.
  intros []. unfold draw_page. destruct (rng_next g) as [r g']. cbn.
  rewrite Z.mod_add by lia. apply Z.mod_mod. lia.
Qed.

Lemma draw_snd c ch g : (draw_page c ch g).2 = (rng_next g).2.
Proof. unfold draw_page. by destruct (rng_next g). Qed.

(** ** Marking a page *)
Lemma mark_page_free c p p' ch off b delta :
  cfg_ok c -> mark_page ch off b delta p = Ok p' -> 0 <= off < pages_per_channel c ->
  (forall q, 0 <= q -> page_free c p' q <->
     if bool_decide (q = ch * pages_per_channel c + off) then b = true else page_free c p q).
Proof.
  intros Hc H Hoff q Hq. unfold mark_page in H. res_inv.
  apply vget_Ok in H0 as [Hch Hrow]. apply vset_Ok in H1 as [Ho ->].
  apply vset_Ok in H2 as [Hch' ->]. unfold page_free. cbn [m_free_physical_pages2d].
  destruct Hc as [_ Hpos _]. pose proof (Z.div_mod q (pages_per_channel c) ltac:(lia)) as Hdm.
  pose proof (Z.mod_pos_bound q (pages_per_channel c) ltac:(lia)) as Hmb.
  assert (0 <= q / pages_per_channel c) by (apply Z.div_pos; lia).
  destruct (decide (q / pages_per_channel c = ch)) as [Hd|Hd].
  - rewrite Hd, list_lookup_insert_eq by lia. case_bool_decide as Hq'.
    + assert (q mod pages_per_channel c = off) as -> by (rewrite Hd in Hdm; lia).
      split; [intros (? & [= <-] & Hl)|intros ->; eexists; split; [done|]];
        rewrite list_lookup_insert_eq in *; naive_solver lia.
    + assert (q mod pages_per_channel c <> off) by (intros E; rewrite Hd, E in Hdm; lia).
      split; intros (r & Hr & Hl); eexists; (split; [by eauto|]).
      * injection Hr as <-. rewrite list_lookup_insert_ne in Hl by lia. done.
      * rewrite list_lookup_insert_ne by lia. naive_solver.
  - rewrite list_lookup_insert_ne by lia. rewrite bool_decide_eq_false_2; [done|].
    intros ->. apply Hd. rewrite Z.div_add_l, Z.div_small by lia. lia.
Qed.

Lemma mark_page_pool c p p' ch off b delta row :
  cfg_ok c -> pool_ok c p -> mark_page ch off b delta p = Ok p' ->
  m_free_physical_pages2d p !! Z.to_nat ch = Some row ->
  row !! Z.to_nat off = Some (negb b) -> delta = (if b then 1 else -1) ->
  pool_ok c p' /\ m_allocator_rng p' = m_allocator_rng p.
Proof.
  intros [_ Hpos _] [Hl Hn Hrow] H Hr Ho ->. unfold mark_page in H. res_inv.
  apply vget_Ok in H0 as [Hch Hrow']. rewrite Hr in Hrow'. injection Hrow' as <-. apply vset_Ok in H1 as [Hoff ->].
  apply vset_Ok in H2 as [Hch' ->]. apply vget_Ok in H3 as [_ Hnum].
  apply vset_Ok in H4 as [Hchn ->].
  destruct (Hrow _ _ Hr) as [Hlen Hnt]. rewrite Hnt in Hnum. injection Hnum as <-.
  split; [|done]. split; cbn; rewrite ?length_insert; [done..|].
  intros i r Hi. destruct (decide (i = Z.to_nat ch)) as [->|Hne].
  - rewrite list_lookup_insert_eq in Hi by lia. injection Hi as <-.
    rewrite length_insert, list_lookup_insert_eq by lia. split; [done|]. f_equal.
    pose proof (ntrue_le row). pose proof (ntrue_nonneg row). destruct b; cbn in Ho |- *.
    + rewrite ntrue_set by done. apply u64_small. lia.
    + rewrite ntrue_clear by done. assert (0 < ntrue row) by (apply ntrue_pos; eauto).
      replace (ntrue row + -1) with (ntrue row - 1) by lia. apply u64_small. lia.
  - rewrite list_lookup_insert_ne in Hi by lia. rewrite list_lookup_insert_ne by lia.
    by apply Hrow.
Qed.

Lemma mark_page_total c p ch off b delta :
  pool_ok c p -> 0 <= ch < 8 -> 0 <= off < pages_per_channel c ->
  is_Ok (mark_page ch off b delta p).
Proof.
  intros [Hl Hn Hrow] Hch Hoff. unfold mark_page.
  destruct (vget_is_Ok (m_free_physical_pages2d p) ch) as [row Er]; [lia|]. rewrite Er. cbn.
  apply vget_Ok in Er as [_ Er]. destruct (Hrow _ _ Er) as [Hlen Hnt].
  unfold vset. rewrite bool_decide_eq_true_2 by lia. cbn.
  rewrite bool_decide_eq_true_2 by lia. cbn.
  destruct (vget_is_Ok (m_num_free_physical_pages_per_part p) ch) as [n En]; [lia|].
  rewrite En. cbn. rewrite bool_decide_eq_true_2 by lia. by eexists.
Qed.
(** ** Drawing a free page *)
Lemma row_of_free c p ch q :
  cfg_ok c -> in_channel c ch q -> 0 <= ch -> page_free c p q <->
  exists row, m_free_physical_pages2d p !! Z.to_nat ch = Some row /\
    row !! Z.to_nat (q mod pages_per_channel c) = Some true.
Proof. intros Hc Hq Hch. unfold page_free. by rewrite (in_channel_div _ _ _ Hc Hq). Qed.

Lemma in_channel_off c ch q :
  cfg_ok c -> in_channel c ch q -> q = ch * pages_per_channel c + q mod pages_per_channel c.
Proof.
  intros Hc Hq. pose proof (in_channel_div _ _ _ Hc Hq). destruct Hc as [_ Hpos _].
  pose proof (Z.div_mod q (pages_per_channel c) ltac:(lia)). nia.
Qed.

(** One draw: a free page is taken, a used one is drawn over. *)
Lemma pick_free_S fuel c ch p (q := (draw_page c ch (m_allocator_rng p)).1)
    (p1 := mkPool (rng_next (m_allocator_rng p)).2 (m_free_physical_pages2d p)
             (m_num_free_physical_pages_per_part p)) :
  cfg_ok c -> pool_ok c p -> 0 <= ch < 8 ->
  (page_free c p q /\ exists p', mark_page ch (q mod pages_per_channel c) false (-1) p1 = Ok p' /\
     pick_free (S fuel) c ch p = Ok (q, p')) \/
  (~ page_free c p q /\ pick_free (S fuel) c ch p = pick_free fuel c ch p1).
Proof.
  intros Hc Hp Hch. pose proof (cfg_pos c Hc) as Hpos. cbn [pick_free].
  rewrite (proj2 (Z.eqb_neq _ _)) by lia.
  pose proof (draw_in_channel c ch (m_allocator_rng p) Hc) as Hin.
  pose proof (draw_snd c ch (m_allocator_rng p)) as Hg. subst q.
  destruct (draw_page c ch (m_allocator_rng p)) as [q g]. cbn [fst snd] in *. subst g. fold p1.
  destruct (lookup_lt_is_Some_2 (m_free_physical_pages2d p) (Z.to_nat ch)) as [row Hrow];
    [destruct Hp; lia|].
  pose proof (Z.mod_pos_bound q (pages_per_channel c) ltac:(lia)).
  destruct (pool_row c p Hp _ _ Hrow) as [Hlen _].
  assert (vget (m_free_physical_pages2d p1) ch = Ok row) as -> by (by apply vget_Ok; split; [lia|]).
  destruct (vget_is_Ok row (q mod pages_per_channel c)) as [b Hb]; [lia|].
  rewrite bind_Ok_l, Hb, bind_Ok_l. apply vget_Ok in Hb as [_ Hb].
  rewrite (row_of_free c p ch) by (done || lia). destruct b; [left|right].
  - split; [by eauto|].
    destruct (mark_page_total c p1 ch (q mod pages_per_channel c) false (-1)) as [p2 E];
      [by destruct Hp|lia|lia|]. exists p2. by rewrite E.
  - split; [|done]. intros (r & Hr & Ho). congruence.
Qed.

Lemma pick_free_spec fuel c ch p ppn p' :
  cfg_ok c -> pool_ok c p -> 0 <= ch < 8 -> pick_free fuel c ch p = Ok (ppn, p') ->
  pool_ok c p' /\ in_channel c ch ppn /\ page_free c p ppn /\
  (forall q, 0 <= q -> page_free c p' q <-> q <> ppn /\ page_free c p q) /\
  exists k, m_allocator_rng p' = rng_skip k (m_allocator_rng p).
Proof.
  intros Hc. revert p. induction fuel as [|fuel IH]; intros p Hp Hch H; [done|].
  pose proof (cfg_pos c Hc) as Hpos.
  set (p1 := mkPool (rng_next (m_allocator_rng p)).2 (m_free_physical_pages2d p)
               (m_num_free_physical_pages_per_part p)).
  assert (pool_ok c p1) as Hp1 by (by destruct Hp).
  destruct (pick_free_S fuel c ch p Hc Hp Hch) as [(Hfree & p2 & Hm & E)|(_ & E)];
    fold p1 in E; rewrite E in H.
  - injection H as <- <-. fold p1 in Hm. set (q := (draw_page _ _ _).1) in *.
    pose proof (draw_in_channel c ch (m_allocator_rng p) Hc) as Hin. fold q in Hin.
    pose proof (Z.mod_pos_bound q (pages_per_channel c) ltac:(lia)).
    pose proof Hfree as (row & Hrow & Hoff)%(row_of_free c p ch); [|done|done|lia].
    destruct (mark_page_pool c p1 p2 ch (q mod pages_per_channel c) false (-1) row)
      as [Hp' Hr]; try done.
    repeat (split; [done|]). split; [|by exists 1%nat].
    intros q' Hq'. rewrite (mark_page_free c p1 p2 ch (q mod pages_per_channel c) false (-1)) by done.
    rewrite <- in_channel_off by done. case_bool_decide; naive_solver.
  - apply IH in H as (? & ? & ? & ? & k & Hk); [|done..].
    repeat (split; [done|]). by exists (S k).
Qed.

(** Fairness of the generator bounds the number of draws. *)
Lemma pick_free_terminates c ch p :
  cfg_ok c -> pool_ok c p -> 0 <= ch < 8 -> rng_fair (m_allocator_rng p) ->
  (exists q, in_channel c ch q /\ page_free c p q) ->
  exists N, forall fuel, (N <= fuel)%nat -> is_Ok (pick_free fuel c ch p).
Proof.
  intros Hc Hp Hch Hfair (q & Hq & Hfree). pose proof (cfg_pos c Hc) as Hpos.
  destruct (rng_fair_hit _ (pages_per_channel c) (q mod pages_per_channel c) Hfair)
    as [k Hk]; [apply Z.mod_pos_bound; lia|lia|]. clear Hfair.
  exists (S k). revert p Hp Hk Hfree. induction k as [|k IH]; intros p Hp Hk Hfree fuel Hf;
    (destruct fuel as [|fuel]; [lia|]);
    destruct (pick_free_S fuel c ch p Hc Hp Hch) as [(_ & p2 & _ & E)|(Hnf & E)];
    try (by rewrite E; eexists).
  - destruct Hnf. enough ((draw_page c ch (m_allocator_rng p)).1 = q) as -> by done.
    pose proof (draw_in_channel c ch (m_allocator_rng p) Hc) as Hin.
    apply in_channel_off in Hin; [|done]. apply in_channel_off in Hq; [|done].
    rewrite draw_mod in Hin by done. unfold rng_draw in Hk. cbn in Hk. rewrite Hk in Hin. congruence.
  - rewrite E. apply IH; [by destruct Hp|done|done|lia].
Qed.

(** ** Eviction and allocation *)
Definition evict_tables (ppn : Z) t : Tables :=
  let v := default 0 (reverse_page_table t !! ppn) in
  mkTables (delete v (global_page_table t)) (delete ppn (reverse_page_table t))
    (delete v (page_to_channel_mapping t)).

Definition channel_full c (ch : Z) p : Prop := forall q, in_channel c ch q -> ~ page_free c p q.

Lemma channel_full_count c ch p row :
  cfg_ok c -> pool_ok c p -> 0 <= ch < 8 ->
  m_free_physical_pages2d p !! Z.to_nat ch = Some row ->
  (ntrue row = 0 <-> channel_full c ch p).
Proof.
  intros Hc Hp Hch Hrow. pose proof (cfg_pos c Hc) as Hpos.
  destruct (pool_row c p Hp _ _ Hrow) as [Hlen _]. split.
  - intros H0 q Hq Hf. apply (row_of_free c p ch) in Hf as (r & Hr & Ho); [|done|done|lia].
    enough (0 < ntrue row) by lia. apply ntrue_pos. naive_solver.
  - intros Hfull. pose proof (ntrue_nonneg row). destruct (decide (ntrue row = 0)); [done|].
    assert (0 < ntrue row) as [i Hi]%ntrue_pos by lia. exfalso.
    pose proof (lookup_lt_Some _ _ _ Hi).
    assert (in_channel c ch (ch * pages_per_channel c + Z.of_nat i)) as Hq
      by (unfold in_channel; lia).
    apply (Hfull _ Hq), (row_of_free c p ch); [done|done|lia|]. exists row. split; [done|].
    rewrite Z.add_comm, Z.mod_add, Z.mod_small by lia. by rewrite Nat2Z.id.
Qed.

Lemma evict_victim_spec c ch p t p' t' :
  cfg_ok c -> pool_ok c p -> 0 <= ch < 8 -> channel_full c ch p ->
  evict_victim c ch p t = Ok (p', t') ->
  exists ppn, in_channel c ch ppn /\ t' = evict_tables ppn t /\ pool_ok c p' /\
    (forall q, 0 <= q -> page_free c p' q <-> q = ppn \/ page_free c p q) /\
    m_allocator_rng p' = rng_skip 1 (m_allocator_rng p) /\ ppn = (draw_page c ch (m_allocator_rng p)).1.
Proof.
  intros Hc Hp Hch Hfull H. pose proof (cfg_pos c Hc) as Hpos. unfold evict_victim in H.
  rewrite <- (cfg_ppc c Hc), (proj2 (Z.eqb_neq _ _)) in H by lia.
  pose proof (draw_in_channel c ch (m_allocator_rng p) Hc) as Hin. unfold draw_page in Hin |- *.
  cbn [rng_skip]. destruct (rng_next (m_allocator_rng p)) as [r g].
  cbn [fst snd] in Hin |- *. set (ppn := r mod _ + _) in *. set (p1 := mkPool _ _ _) in *.
  assert (pool_ok c p1) as Hp1 by (by destruct Hp). res_inv.
  destruct (lookup_lt_is_Some_2 (m_free_physical_pages2d p) (Z.to_nat ch)) as [row Hrow];
    [destruct Hp; lia|].
  pose proof (Z.mod_pos_bound ppn (pages_per_channel c) ltac:(lia)).
  destruct (pool_row c p Hp _ _ Hrow) as [Hlen _].
  exists ppn. split; [done|]. split; [done|].
  destruct (mark_page_pool c p1 p' ch (ppn mod pages_per_channel c) true 1 row) as [Hp' Hr]; try done.
  { apply ntrue_zero; [|lia]. by apply (channel_full_count c ch p row). }
  split; [done|]. split; [|split; [by rewrite Hr|done]].
  intros q Hq. rewrite (mark_page_free c p1 p' ch (ppn mod pages_per_channel c) true 1) by done.
  rewrite <- in_channel_off by done. case_bool_decide; naive_solver.
Qed.

Record alloc_post c (ch : Z) p t (ppn : Z) p' t' : Prop := {
  ap_pool : pool_ok c p';
  ap_chan : in_channel c ch ppn;
  ap_rng : exists k, m_allocator_rng p' = rng_skip k (m_allocator_rng p);
  ap_case :
    (page_free c p ppn /\ t' = t /\
      forall q, 0 <= q -> page_free c p' q <-> q <> ppn /\ page_free c p q) \/
    (channel_full c ch p /\ t' = evict_tables ppn t /\
      forall q, 0 <= q -> page_free c p' q <-> page_free c p q);
}.

Lemma num_free_ok c ch p n :
  pool_ok c p -> vget (m_num_free_physical_pages_per_part p) ch = Ok n ->
  exists row, m_free_physical_pages2d p !! Z.to_nat ch = Some row /\ n = ntrue row.
Proof.
  intros [Hl Hn Hrow] [Hch Hget]%vget_Ok. pose proof (lookup_lt_Some _ _ _ Hget).
  destruct (lookup_lt_is_Some_2 (m_free_physical_pages2d p) (Z.to_nat ch)) as [row Hr]; [lia|].
  destruct (Hrow _ _ Hr) as [_ Hr']. rewrite Hget in Hr'. naive_solver.
Qed.

Lemma in_channel_nonneg c ch q : cfg_ok c -> 0 <= ch -> in_channel c ch q -> 0 <= q.
Proof. intros [_ Hpos _] Hch Hq. unfold in_channel in Hq. nia. Qed.

Lemma pick_free_post fuel c ch p t ppn p' :
  cfg_ok c -> pool_ok c p -> 0 <= ch < 8 -> pick_free fuel c ch p = Ok (ppn, p') ->
  alloc_post c ch p t ppn p' t.
Proof.
  intros Hc Hp Hch H. apply pick_free_spec in H as (? & ? & ? & ? & ?); try done.
  split; [done|done|done|]. left. done.
Qed.

(** A page found after an eviction is the victim's. *)
Lemma find_random_free_page_spec fuel c ch p t ppn p' t' :
  cfg_ok c -> pool_ok c p -> 0 <= ch < 8 ->
  find_random_free_page fuel c ch p t = Ok (ppn, p', t') -> alloc_post c ch p t ppn p' t'.
Proof.
  intros Hc. revert p t. induction fuel as [|fuel IH]; intros p t Hp Hch H; [done|].
  cbn [find_random_free_page] in H. apply bind_Ok in H as (n & Hn & H).
  destruct (num_free_ok c ch p n Hp Hn) as (row & Hrow & ->).
  destruct (Z.eqb_spec (ntrue row) 0) as [E|E].
  - apply (channel_full_count c ch p row) in E as Hfull; [|done..].
    apply bind_Ok in H as ([p1 t1] & Hev & H).
    apply (evict_victim_spec c ch) in Hev as (v & Hv & -> & Hp1 & Hf1 & Hr1 & _); [|done..].
    apply IH in H as [Hp' Hin [k Hk] [(Hfr & -> & Hf')|(Hfull' & _)]]; [|exfalso|done|done].
    + assert (0 <= ppn) by (eapply in_channel_nonneg; [done| |done]; lia).
      apply Hf1 in Hfr as [->|Hfr]; [|by destruct (Hfull ppn)|done].
      split; [done|done|rewrite Hk, Hr1, rng_skip_add; eauto|]. right.
      repeat (split; [done|]). intros q Hq. rewrite Hf', Hf1 by done.
      split; [naive_solver|]. intros Hq'. split; [intros ->; by destruct (Hfull v)|by right].
    + apply (Hfull' v Hv), Hf1; [|by left]. eapply in_channel_nonneg; [done| |done]. lia.
  - apply bind_Ok in H as ([q p1] & Hpick & H). injection H as <- <- <-.
    eapply pick_free_post; eauto.
Qed.

Lemma allocate_page_spec fuel c ch p t ppn p' t' :
  cfg_ok c -> pool_ok c p -> 0 <= ch < 8 ->
  allocate_page fuel c ch p t = Ok (ppn, p', t') -> alloc_post c ch p t ppn p' t'.
Proof.
  intros Hc Hp Hch H. unfold allocate_page in H. apply bind_Ok in H as (n & Hn & H).
  destruct (Z.ltb_spec 0 n).
  - apply bind_Ok in H as ([q p1] & Hpick & H). injection H as <- <- <-.
    eapply pick_free_post; eauto.
  - apply (find_random_free_page_spec (S fuel)); [done..|]. cbn [find_random_free_page].
    rewrite Hn. cbn. destruct (num_free_ok c ch p n Hp Hn) as (row & _ & ->).
    pose proof (ntrue_nonneg row). rewrite (proj2 (Z.eqb_eq _ _)) by lia. exact H.
Qed.
(** ** Termination of the allocation *)
Definition eventually {A} (f : nat -> res A) : Prop :=
  exists N, forall fuel, (N <= fuel)%nat -> is_Ok (f fuel).

Lemma evict_victim_total c ch p t :
  cfg_ok c -> pool_ok c p -> 0 <= ch < 8 -> is_Ok (evict_victim c ch p t).
Proof.
  intros Hc Hp Hch. pose proof (cfg_pos c Hc). unfold evict_victim.
  rewrite <- (cfg_ppc c Hc), (proj2 (Z.eqb_neq _ _)) by lia.
  destruct (rng_next (m_allocator_rng p)) as [r g].
  match goal with |- context [mark_page _ ?off _ _ ?p1] =>
    destruct (mark_page_total c p1 ch off true 1) as [p2 ->] end;
    [by destruct Hp|lia|apply Z.mod_pos_bound; lia|]. by eexists.
Qed.

Lemma not_full_free c ch p row :
  cfg_ok c -> pool_ok c p -> 0 <= ch < 8 ->
  m_free_physical_pages2d p !! Z.to_nat ch = Some row -> ntrue row <> 0 ->
  exists q, in_channel c ch q /\ page_free c p q.
Proof.
  intros Hc Hp Hch Hrow Hn. destruct (pool_row c p Hp _ _ Hrow) as [Hlen _].
  pose proof (ntrue_nonneg row). assert (0 < ntrue row) as [i Hi]%ntrue_pos by lia.
  pose proof (lookup_lt_Some _ _ _ Hi). pose proof (cfg_pos c Hc).
  exists (ch * pages_per_channel c + Z.of_nat i).
  assert (in_channel c ch (ch * pages_per_channel c + Z.of_nat i)) as Hq
    by (unfold in_channel; lia).
  split; [done|]. apply (row_of_free c p ch); [done|done|lia|]. exists row. split; [done|].
  rewrite Z.add_comm, Z.mod_add, Z.mod_small by lia. by rewrite Nat2Z.id.
Qed.

Lemma num_free_get c ch p :
  pool_ok c p -> 0 <= ch < 8 ->
  exists row, m_free_physical_pages2d p !! Z.to_nat ch = Some row /\
    vget (m_num_free_physical_pages_per_part p) ch = Ok (ntrue row).
Proof.
  intros Hp Hch.
  destruct (lookup_lt_is_Some_2 (m_free_physical_pages2d p) (Z.to_nat ch)) as [row Hrow];
    [destruct Hp; lia|].
  exists row. split; [done|]. apply vget_Ok. split; [lia|].
  by apply (pool_row c p Hp).
Qed.

Lemma find_free_terminates c ch p t :
  cfg_ok c -> pool_ok c p -> 0 <= ch < 8 -> rng_fair (m_allocator_rng p) ->
  (exists q, in_channel c ch q /\ page_free c p q) ->
  eventually (fun fuel => find_random_free_page fuel c ch p t).
Proof.
  intros Hc Hp Hch Hf Hq. destruct (pick_free_terminates c ch p) as [N HN]; [done..|].
  exists (S N). intros [|fuel] Hle; [lia|]. cbn [find_random_free_page].
  destruct (num_free_get c ch p Hp Hch) as (row & Hrow & ->). rewrite bind_Ok_l.
  destruct (Z.eqb_spec (ntrue row) 0) as [E|E].
  - apply (channel_full_count c ch p row) in E; [|done..]. destruct Hq as (q & Hq & Hfq).
    by destruct (E q).
  - destruct (HN fuel ltac:(lia)) as [[ppn p'] ->]. by eexists.
Qed.

Lemma evict_and_replace_terminates c ch p t :
  cfg_ok c -> pool_ok c p -> 0 <= ch < 8 -> channel_full c ch p ->
  rng_fair (m_allocator_rng p) ->
  eventually (fun fuel => evict_and_replace_page fuel c ch p t).
Proof.
  intros Hc Hp Hch Hfull Hf. unfold eventually, evict_and_replace_page.
  destruct (evict_victim_total c ch p t Hc Hp Hch) as [[p1 t1] E]. rewrite E.
  apply (evict_victim_spec c ch) in E as (v & Hv & _ & Hp1 & Hf1 & Hr1 & _); [|done..].
  apply find_free_terminates; [done..| |].
  - rewrite Hr1. by apply rng_fair_skip.
  - exists v. split; [done|]. apply Hf1; [|by left]. eapply in_channel_nonneg; [done| |done]. lia.
Qed.

Lemma find_random_free_page_terminates c ch p t :
  cfg_ok c -> pool_ok c p -> 0 <= ch < 8 -> rng_fair (m_allocator_rng p) ->
  eventually (fun fuel => find_random_free_page fuel c ch p t).
Proof.
  intros Hc Hp Hch Hf. destruct (num_free_get c ch p Hp Hch) as (row & Hrow & Hn).
  destruct (decide (ntrue row = 0)) as [E|E].
  - apply (channel_full_count c ch p row) in E as Hfull; [|done..].
    destruct (evict_and_replace_terminates c ch p t) as [N HN]; [done..|].
    exists (S N). intros [|fuel] Hle; [lia|]. cbn [find_random_free_page].
    rewrite Hn, bind_Ok_l, E. apply (HN fuel). lia.
  - apply find_free_terminates; [done..|]. by apply (not_full_free c ch p row).
Qed.

Lemma allocate_page_terminates c ch p t :
  cfg_ok c -> pool_ok c p -> 0 <= ch < 8 -> rng_fair (m_allocator_rng p) ->
  eventually (fun fuel => allocate_page fuel c ch p t).
Proof.
  intros Hc Hp Hch Hf. unfold allocate_page.
  destruct (num_free_get c ch p Hp Hch) as (row & Hrow & Hn). rewrite Hn.
  pose proof (ntrue_nonneg row). unfold eventually. cbn [mbind res_bind].
  destruct (Z.ltb_spec 0 (ntrue row)).
  - destruct (pick_free_terminates c ch p) as [N HN]; [done..|apply (not_full_free c ch p row); done || lia|].
    exists N. intros fuel Hle. destruct (HN fuel Hle) as [[ppn p'] ->]. by eexists.
  - apply evict_and_replace_terminates; [done..| |done].
    apply (channel_full_count c ch p row); [done..|]. lia.
Qed.

(** The initial pool satisfies the pool invariant and every page is free. *)
Lemma init_pool_ok c g : cfg_ok c -> pool_ok c (pool (init_state c g)).
Proof.
  intros [_ Hpos _]. split; [done|done|]. intros i row Hi.
  cbn [init_state pool m_free_physical_pages2d m_num_free_physical_pages_per_part] in *.
  apply lookup_replicate in Hi as [-> Hi]. rewrite length_replicate, ntrue_replicate_true.
  rewrite Z2Nat.id by lia. split; [done|]. by apply lookup_replicate.
Qed.

Lemma init_page_free c g q :
  cfg_ok c -> 0 <= q < 8 * pages_per_channel c -> page_free c (pool (init_state c g)) q.
Proof.
  intros [_ Hpos _] Hq.
  assert (0 <= q / pages_per_channel c < 8).
  { split; [apply Z.div_pos; lia|apply Z.div_lt_upper_bound; lia]. }
  pose proof (Z.mod_pos_bound q (pages_per_channel c) ltac:(lia)).
  exists (replicate (Z.to_nat (pages_per_channel c)) true).
  cbn [init_state pool m_free_physical_pages2d].
  split; apply lookup_replicate; (split; [done|lia]).
Qed.

(** The physical address keeps the page offset. *)
Lemma phys_addr_spec c ppn a :
  0 <= m_offsetbits c -> phys_addr c ppn a = ppn * 2 ^ m_offsetbits c + a mod 2 ^ m_offsetbits c.
Proof.
  intros H. unfold phys_addr. rewrite land_mask by done. apply lor_disjoint; [done|].
  apply Z.mod_pos_bound. lia.
Qed.
End Facts.
