(* ===== verification/LocalToRequester.v ===== *)
(** * [Local_to_requester]: first-touch placement in the nearest channel

    Models [src/ramulator2/src/translation/impl/Local_to_requester.cpp].  The
    class shares its allocator with [Dynamic_migration] (see [Numa]); its window
    action is empty, because the call of [migrate_pages] is commented out. *)
From S2P Require Import Prelude Rng CxxFloat Utils Request Numa NumaFacts.

Module Local.
Section Local.
Context {RNG : Rng}.

Definition init (max_addr pagesize_KB hot window : Z) : res Config :=
  init_config max_addr pagesize_KB hot window 0 (F64.of_Z 153).

Definition translate (fuel : nat) (req : Request) (s : NState) : res (bool * Request * NState) :=
  translate_with (fun _ s => Ok s) fuel req s.

Definition find_best_channel (core : Z) : res Z := Numa.find_best_channel core.

Definition find_random_free_page (fuel : nat) (c : Config) (ch : Z) (p : Pool) (t : Tables) :=
  Numa.find_random_free_page fuel c ch p t.

Definition evict_and_replace_page (fuel : nat) (c : Config) (ch : Z) (p : Pool) (t : Tables) :=
  Numa.evict_and_replace_page fuel c ch p t.

Definition calculate_migration_cost (page_size : Z) (bw : spec_float) : spec_float :=
  Numa.calculate_migration_cost page_size bw.

Definition reserve (a : Z) (s : NState) : bool * NState := Numa.reserve a s.

(** ** The abstract placement policy

    A page table is a finite map from virtual to physical pages.  A request is
    served by the existing mapping, by a free frame of the requester's channel,
    or, when that channel is full, by the frame of one evicted page. *)
Inductive place (ppc channel vpn : Z) (t : gmap Z Z) : Z -> gmap Z Z -> Prop :=
| place_hit ppn :
    t !! vpn = Some ppn -> place ppc channel vpn t ppn t
| place_free ppn :
    t !! vpn = None -> ppn / ppc = channel -> (forall v, t !! v <> Some ppn) ->
    place ppc channel vpn t ppn (<[vpn := ppn]> t)
| place_evict ppn victim :
    t !! vpn = None -> ppn / ppc = channel -> t !! victim = Some ppn ->
    (forall q, q / ppc = channel -> exists v, t !! v = Some q) ->
    place ppc channel vpn t ppn (<[vpn := ppn]> (delete victim t)).

(** ** The invariant *)
Record inv (s : NState) : Prop := {
  inv_cfg : cfg_ok (cfg s);
  inv_pool : pool_ok (cfg s) (pool s);
  inv_bij : forall v q, global_page_table (tables s) !! v = Some q <->
                        reverse_page_table (tables s) !! q = Some v;
  inv_range : forall q v, reverse_page_table (tables s) !! q = Some v ->
                          0 <= q < 8 * pages_per_channel (cfg s);
  inv_used : forall q, 0 <= q < 8 * pages_per_channel (cfg s) ->
               page_free (cfg s) (pool s) q <-> reverse_page_table (tables s) !! q = None;
  inv_chan : forall v q, global_page_table (tables s) !! v = Some q ->
               page_to_channel_mapping (tables s) !! v = Some (q / pages_per_channel (cfg s));
}.

Lemma local_init_inv c g : cfg_ok c -> inv (init_state c g).
Proof.
  intros Hc. split; cbn [init_state cfg tables global_page_table reverse_page_table
                         page_to_channel_mapping]; [done|by apply init_pool_ok| | | |].
  - intros v q. by rewrite !lookup_empty.
  - intros q v. by rewrite lookup_empty.
  - intros q Hq. rewrite lookup_empty. split; [done|]. intros _. by apply init_page_free.
  - intros v q. by rewrite lookup_empty.
Qed.

(** The window step of this class touches neither the pool nor the tables. *)
Lemma window_step_frame fuel vpn core s s1 :
  window_step (fun _ s => Ok s) fuel vpn core s = Ok s1 ->
  cfg s1 = cfg s /\ pool s1 = pool s /\ tables s1 = tables s.
Proof. unfold window_step. destruct (_ =? _); intros H; res_inv; by subst. Qed.

Lemma inv_frame s s1 :
  cfg s1 = cfg s -> pool s1 = pool s -> tables s1 = tables s -> inv s -> inv s1.
Proof. intros E1 E2 E3 []. split; rewrite ?E1, ?E2, ?E3; done. Qed.

Lemma in_channel_range c ch q :
  cfg_ok c -> 0 <= ch < 8 -> in_channel c ch q -> 0 <= q < 8 * pages_per_channel c.
Proof. intros [_ Hpos _] Hch Hq. unfold in_channel in Hq. nia. Qed.

Lemma div_in_channel c ch q : cfg_ok c -> q / pages_per_channel c = ch -> in_channel c ch q.
Proof. intros [_ Hpos _] <-. unfold in_channel. dlia. Qed.

Lemma lookup_or_allocate_place fuel vpn core s ppn s' :
  inv s -> lookup_or_allocate fuel vpn core s = Ok (ppn, s') ->
  inv s' /\ cfg s' = cfg s /\
  place (pages_per_channel (cfg s)) core vpn (global_page_table (tables s)) ppn
        (global_page_table (tables s')).
Proof.
  intros [Hc Hp Hbij Hrange Hused Hchan] H. unfold lookup_or_allocate in H.
  destruct (global_page_table (tables s) !! vpn) as [q|] eqn:Ehit.
  { injection H as <- <-. split; [by split|]. split; [done|]. by constructor. }
  apply bind_Ok in H as (ch & Hch & H). apply find_best_channel_Ok in Hch as [-> Hcore].
  apply bind_Ok in H as ([[q p'] t'] & Halloc & H). injection H as <- <-.
  apply allocate_page_spec in Halloc as [Hp' Hin _ Hcase]; [|done..].
  pose proof (in_channel_range _ _ _ Hc Hcore Hin) as Hqr.
  pose proof (in_channel_div _ _ _ Hc Hin) as Hdiv.
  destruct Hcase as [(Hfree & -> & Hf')|(Hfull & -> & Hf')].
  - apply Hused in Hfree as Hnone; [|done].
    assert (forall v, global_page_table (tables s) !! v <> Some q) as Hfresh.
    { intros v Hv. apply Hbij in Hv. congruence. }
    split; [|split; [done|by constructor]]. split; cbn; [done|done| | | |].
    + intros v w. rewrite !lookup_insert. repeat case_decide; subst; naive_solver.
    + intros w v. rewrite lookup_insert. case_decide; [naive_solver|apply Hrange].
    + intros w Hw. rewrite Hf', lookup_insert by lia. case_decide; [naive_solver|].
      rewrite <- Hused by done. naive_solver.
    + intros v w. rewrite !lookup_insert. case_decide; [naive_solver|apply Hchan].
  - destruct (reverse_page_table (tables s) !! q) as [victim|] eqn:Erev.
    2:{ apply Hused in Erev; [|done]. by destruct (Hfull q). }
    apply Hbij in Erev as Hvict. unfold evict_tables. rewrite Erev. cbn.
    split; [|split; [done|]].
    2:{ econstructor; [done|done|done|]. intros w Hw. apply div_in_channel in Hw; [|done].
        destruct (reverse_page_table (tables s) !! w) as [v|] eqn:Ew.
        - exists v. by apply Hbij.
        - apply Hused in Ew; [by destruct (Hfull w)|]. by apply (in_channel_range _ core). }
    assert (victim <> vpn) by congruence.
    split; cbn; [done|done| | | |].
    + intros v w. rewrite !lookup_insert, !lookup_delete. repeat case_decide; subst; naive_solver.
    + intros w v. rewrite lookup_insert, lookup_delete. repeat case_decide; [naive_solver..|apply Hrange].
    + intros w Hw. rewrite Hf', lookup_insert, lookup_delete by lia. case_decide.
      * subst w. split; [intros Hq; by destruct (Hfull q)|done].
      * by apply Hused.
    + intros v w. rewrite !lookup_insert, !lookup_delete. repeat case_decide; [naive_solver..|apply Hchan].
Qed.

Lemma translate_cases fuel req s b req' s' (vpn := Z.shiftr (addr req) (m_offsetbits (cfg s))) :
  inv s -> translate fuel req s = Ok (b, req', s') ->
  exists ppn, b = true /\
    req' = set_addr (phys_addr (cfg s) ppn (addr req)) (set_virtual vpn (addr req) req) /\
    inv s' /\ cfg s' = cfg s /\
    place (pages_per_channel (cfg s)) (source_id req) vpn (global_page_table (tables s)) ppn
          (global_page_table (tables s')).
Proof.
  intros Hinv H. unfold translate, translate_with in H.
  apply bind_Ok in H as (s1 & Hw & H). apply bind_Ok in H as ([ppn s2] & Hl & H).
  injection H as <- <- <-. apply window_step_frame in Hw as (E1 & E2 & E3).
  apply lookup_or_allocate_place in Hl as (Hinv' & Ec & Hplace); [|by apply (inv_frame s)].
  exists ppn. rewrite Ec, E1. split; [done|]. split; [done|]. split; [done|].
  split; [by rewrite <- E1|]. rewrite E1, E3 in Hplace. exact Hplace.
Qed.

(** ** Reachable states: any sequence of translations and reservations *)
Inductive reach (c : Config) (g : rng_state) : NState -> Prop :=
| reach_init : reach c g (init_state c g)
| reach_translate s fuel req b req' s' :
    reach c g s -> translate fuel req s = Ok (b, req', s') -> reach c g s'
| reach_reserve s a : reach c g s -> reach c g (reserve a s).2.

Lemma local_reach_inv c g s : cfg_ok c -> reach c g s -> inv s /\ cfg s = c.
Proof.
  intros Hc. induction 1 as [|s fuel req b req' s' _ [IH <-] Ht|s a _ [IH <-]].
  - split; [by apply local_init_inv|done].
  - apply translate_cases in Ht as (ppn & _ & _ & ? & ? & _); done.
  - split; [|done]. by apply (inv_frame s).
Qed.

Lemma lookup_or_allocate_rng fuel vpn core s ppn s' :
  inv s -> lookup_or_allocate fuel vpn core s = Ok (ppn, s') ->
  exists k, m_allocator_rng (pool s') = rng_skip k (m_allocator_rng (pool s)).
Proof.
  intros Hinv H. unfold lookup_or_allocate in H. destruct (_ !! vpn).
  { injection H as _ <-. by exists 0%nat. }
  apply bind_Ok in H as (ch & Hch & H). apply find_best_channel_Ok in Hch as [-> Hcore].
  apply bind_Ok in H as ([[q p'] t'] & Halloc & H). injection H as _ <-.
  apply allocate_page_spec in Halloc as [_ _ Hr _]; [done|apply Hinv|apply Hinv|done].
Qed.

Lemma reach_fair c g s :
  cfg_ok c -> rng_fair g -> reach c g s -> rng_fair (m_allocator_rng (pool s)).
Proof.
  intros Hc Hg. induction 1 as [|s fuel req b req' s' Hr IH Ht|s a _ IH]; [done| |done].
  apply local_reach_inv in Hr as [Hinv <-]; [|done]. unfold translate, translate_with in Ht.
  apply bind_Ok in Ht as (s1 & Hw & H). apply bind_Ok in H as ([ppn s2] & Hl & H).
  injection H as _ _ <-. apply window_step_frame in Hw as (E1 & E2 & E3).
  apply lookup_or_allocate_rng in Hl as [k ->]; [|by apply (inv_frame s)].
  rewrite E2. by apply rng_fair_skip.
Qed.

(** A sequence of translations. *)
Fixpoint run (fuel : nat) (reqs : list Request) (s : NState) : res NState :=
  match reqs with
  | [] => Ok s
  | r :: rs => '(_, _, s) ← translate fuel r s; run fuel rs s
  end.

Lemma local_reach_run c g fuel reqs s s' : reach c g s -> run fuel reqs s = Ok s' -> reach c g s'.
Proof.
  revert s. induction reqs as [|r rs IH]; intros s Hr H.
  - by injection H as <-.
  - cbn [run] in H. apply bind_Ok in H as ([[b r'] s1] & Ht & H).
    apply (IH s1); [|done]. by eapply reach_translate.
Qed.
End Local.
End Local.

(** The configuration of [init] for the default page size of 4 KB. *)
Lemma local_init_ok max_addr hot window :
  32768 <= max_addr < 2 ^ 63 ->
  exists c, Local.init max_addr 4 hot window = Ok c /\ cfg_ok c /\
    m_offsetbits c = 12 /\ m_cost c = 25 /\ pages_per_channel c = max_addr / 4096 / 8.
Proof.
  intros Hm. unfold Local.init, init_config.
  change (i64 (Z.shiftl 4 10)) with 4096.
  change (calc_log2 4096) with (Ok 12). cbn [mbind res_bind].
  change (4096 =? 0) with false. cbv iota.
  replace (fto_u64 _) with (Ok 25) by (vm_compute; reflexivity). cbn [mbind res_bind].
  rewrite Z.quot_div_nonneg by lia. eexists. split; [done|].
  split; [|done]. split; cbn; [done| |lia]. dlia.
Qed.

(** ** Properties *)

(** The latency matrix makes each core's own channel its unique
    nearest one, and [find_best_channel] returns it. *)
Theorem find_best_channel_nearest core :
  0 <= core < 8 ->
  Local.find_best_channel core = Ok core /\
  forall ch, 0 <= ch < 8 -> ch <> core -> latency_entry core core < latency_entry core ch.
Proof.
  intros Hc. split.
  - unfold Local.find_best_channel. rewrite find_best_channel_spec. by rewrite bool_decide_eq_true_2.
  - intros ch Hch Hne. unfold latency_entry. rewrite Z.sub_diag.
    assert (Z.abs (core - ch) = 1 \/ Z.abs (core - ch) = 2 \/ Z.abs (core - ch) = 3 \/
            Z.abs (core - ch) = 4 \/ Z.abs (core - ch) = 5 \/ Z.abs (core - ch) = 6 \/
            Z.abs (core - ch) = 7) as H by lia.
    destruct_or! H; rewrite H; vm_compute; reflexivity.
Qed.

Lemma find_best_channel_nearest_witness :
  0 <= 3 < 8 /\ Local.find_best_channel 3 = Ok 3 /\
  forall ch, 0 <= ch < 8 -> ch <> 3 -> latency_entry 3 3 < latency_entry 3 ch.
Proof. split; [lia|]. apply (find_best_channel_nearest 3). lia. Defined.

(** Property C24.  Refinement: from every reachable state, a translation that
    returns answers [true], stores the virtual address and page, returns a
    physical address with the same page offset, and changes the page table by
    exactly one step of the abstract placement policy [Local.place] for the
    requester's channel. *)
Theorem local_translate_refines {RNG : Rng} c g s fuel req b req' s'
    (vpn := addr req / 2 ^ m_offsetbits c) :
  cfg_ok c -> Local.reach c g s -> Local.translate fuel req s = Ok (b, req', s') ->
  exists ppn, b = true /\ v_addr req' = addr req /\ vpage req' = vpn /\
    source_id req' = source_id req /\ type_id req' = type_id req /\
    addr req' = ppn * 2 ^ m_offsetbits c + addr req mod 2 ^ m_offsetbits c /\
    Local.place (pages_per_channel c) (source_id req) vpn
      (global_page_table (tables s)) ppn (global_page_table (tables s')).
Proof.
  intros Hc Hr Ht. apply Local.local_reach_inv in Hr as [Hinv <-]; [|done].
  apply Local.translate_cases in Ht as (ppn & -> & -> & _ & _ & Hp); [|done].
  pose proof (cfg_bits _ Hc). rewrite Z.shiftr_div_pow2 in Hp by lia.
  exists ppn. cbn. rewrite phys_addr_spec, Z.shiftr_div_pow2 by lia. done.
Qed.

(** A small system for the witnesses: 16 pages of 4 KB, two per channel, the
    counting generator, and two pages already placed in channel 3. *)
Definition demo_cfg : Config := mkConfig 65536 4096 12 16 10 100 0 25 2.
Definition demo_req (vpn core : Z) : Request :=
  Request_addr_type_source (vpn * 4096 + 64) ReqType.Read core.
Definition demo_init : @NState counter_rng := @init_state counter_rng demo_cfg 5.
Definition demo_state : @NState counter_rng :=
  from_res demo_init (@Local.run counter_rng 20 [demo_req 100 3; demo_req 101 3] demo_init).

Lemma demo_cfg_ok : cfg_ok demo_cfg.
Proof. split; cbn; lia || reflexivity. Qed.

Lemma demo_reach : @Local.reach counter_rng demo_cfg 5 demo_state.
Proof.
  apply (@Local.local_reach_run counter_rng demo_cfg 5 20 [demo_req 100 3; demo_req 101 3] demo_init).
  - apply Local.reach_init.
  - apply from_res_Ok. vm_compute. reflexivity.
Qed.

Lemma local_translate_refines_witness :
  exists b req' s', @Local.translate counter_rng 20 (demo_req 102 3) demo_state = Ok (b, req', s') /\
  exists ppn, b = true /\ v_addr req' = addr (demo_req 102 3) /\
    vpage req' = addr (demo_req 102 3) / 2 ^ m_offsetbits demo_cfg /\
    source_id req' = source_id (demo_req 102 3) /\ type_id req' = type_id (demo_req 102 3) /\
    addr req' = ppn * 2 ^ m_offsetbits demo_cfg + addr (demo_req 102 3) mod 2 ^ m_offsetbits demo_cfg /\
    Local.place (pages_per_channel demo_cfg) (source_id (demo_req 102 3))
      (addr (demo_req 102 3) / 2 ^ m_offsetbits demo_cfg)
      (global_page_table (tables demo_state)) ppn (global_page_table (tables s')).
Proof.
  destruct (@Local.translate counter_rng 20 (demo_req 102 3) demo_state)
    as [[[b r'] s']|e] eqn:E; [|apply (f_equal ok_b) in E; vm_compute in E; discriminate E].
  exists b, r', s'. split; [reflexivity|].
  exact (@local_translate_refines counter_rng demo_cfg 5 demo_state 20 (demo_req 102 3) b r' s'
           demo_cfg_ok demo_reach E).
Defined.

(** Property C27.  In every reachable state of [Local_to_requester] the page
    table and the reverse page table are inverse to each other, so that the page
    table is injective; a frame is marked used exactly when some page maps to
    it, each mapped frame lies in the channel recorded for its page, and the
    free counter of each partition is the number of its unmapped frames. *)
Theorem local_page_table_invariant {RNG : Rng} c g s :
  cfg_ok c -> Local.reach c g s ->
  (forall v q, global_page_table (tables s) !! v = Some q <-> reverse_page_table (tables s) !! q = Some v) /\
  (forall v w q, global_page_table (tables s) !! v = Some q ->
                 global_page_table (tables s) !! w = Some q -> v = w) /\
  (forall q, 0 <= q < 8 * pages_per_channel c ->
     ~ page_free c (pool s) q <-> exists v, global_page_table (tables s) !! v = Some q) /\
  (forall v q, global_page_table (tables s) !! v = Some q ->
     0 <= q < 8 * pages_per_channel c /\
     page_to_channel_mapping (tables s) !! v = Some (q / pages_per_channel c)) /\
  (forall ch row, m_free_physical_pages2d (pool s) !! ch = Some row ->
     m_num_free_physical_pages_per_part (pool s) !! ch = Some (ntrue row)).
Proof.
  intros Hc Hr. apply Local.local_reach_inv in Hr as [[_ Hp Hbij Hrange Hused Hchan] <-]; [|done].
  split; [exact Hbij|]. split; [|split; [|split]].
  - intros v w q Hv Hw. apply Hbij in Hv, Hw. congruence.
  - intros q Hq. split; [intros Hnf; destruct (reverse_page_table (tables s) !! q) as [v|] eqn:E|].
    + exists v. by apply Hbij.
    + by apply Hused in E.
    + intros [v Hv] Hf. apply Hbij in Hv. apply Hused in Hf; [congruence|done].
  - intros v q Hv. split; [|by apply Hchan]. apply Hbij in Hv. by apply Hrange in Hv.
  - intros ch row Hrow. by apply (pool_row _ _ Hp).
Qed.

Lemma local_page_table_invariant_witness :
  cfg_ok demo_cfg /\ @Local.reach counter_rng demo_cfg 5 demo_state /\
  (forall v q, global_page_table (tables demo_state) !! v = Some q <->
               reverse_page_table (tables demo_state) !! q = Some v).
Proof.
  split; [exact demo_cfg_ok|]. split; [exact demo_reach|].
  exact (proj1 (@local_page_table_invariant counter_rng demo_cfg 5 demo_state demo_cfg_ok demo_reach)).
Defined.

(** Property C32.  With a fair generator a translation for a core 0..7 always
    returns: some amount of fuel suffices for the random search, from every
    reachable state, whether or not the channel still has free pages. *)
Theorem local_translate_terminates {RNG : Rng} c g s req :
  cfg_ok c -> rng_fair g -> Local.reach c g s -> 0 <= source_id req < 8 ->
  exists N, forall fuel, (N <= fuel)%nat -> is_Ok (Local.translate fuel req s).
Proof.
  intros Hc Hg Hr Hsrc. pose proof (Local.reach_fair _ _ _ Hc Hg Hr) as Hfair.
  apply Local.local_reach_inv in Hr as [Hinv <-]; [|done].
  set (vpn := Z.shiftr (addr req) (m_offsetbits (cfg s))).
  assert (exists s1, forall fuel, window_step (fun _ s => Ok s) fuel vpn (source_id req) s = Ok s1)
    as [s1 Hs1].
  { unfold window_step. destruct (_ =? _); eexists; reflexivity. }
  destruct (Local.window_step_frame 0 _ _ _ _ (Hs1 0%nat)) as (E1 & E2 & E3).
  destruct (global_page_table (tables s1) !! vpn) as [q|] eqn:Ehit.
  - exists 0%nat. intros fuel _. unfold Local.translate, translate_with.
    cbn [set_virtual source_id addr]. fold vpn. rewrite Hs1, bind_Ok_l.
    unfold lookup_or_allocate. rewrite Ehit. by eexists.
  - destruct (allocate_page_terminates (cfg s1) (source_id req) (pool s1) (tables s1))
      as [N HN]; [by rewrite E1|rewrite E1, E2; apply Hinv|done|by rewrite E2|].
    exists N. intros fuel Hle. unfold Local.translate, translate_with.
    cbn [set_virtual source_id addr]. fold vpn. rewrite Hs1, bind_Ok_l.
    unfold lookup_or_allocate. rewrite Ehit, find_best_channel_spec, bool_decide_eq_true_2 by done.
    rewrite bind_Ok_l. destruct (HN fuel Hle) as [[[ppn p'] t'] ->]. by eexists.
Qed.

Lemma local_translate_terminates_witness :
  @rng_fair counter_rng 5 /\ 0 <= source_id (demo_req 102 3) < 8 /\
  exists N, forall fuel, (N <= fuel)%nat ->
    is_Ok (@Local.translate counter_rng fuel (demo_req 102 3) demo_state).
Proof.
  split; [exact (counter_fair 5)|]. split; [cbn; lia|].
  apply (@local_translate_terminates counter_rng demo_cfg 5 demo_state (demo_req 102 3)
           demo_cfg_ok (counter_fair 5) demo_reach). cbn. lia.
Defined.
