(* ===== verification/DynamicMigration.v ===== *)
(** * [Dynamic_migration]: periodic migration of hot pages

    Models [src/ramulator2/src/translation/impl/Dynamic_migration.cpp].  The
    allocator and the counters are those of [Numa]; this file adds
    [estimate_latency_gain], [migrate_pages] and the class's [translate]. *)
From S2P Require Import Prelude Rng CxxFloat Utils Request Numa NumaFacts.

Module Dynamic.
Section Dynamic.
Context {RNG : Rng}.

Definition init (max_addr pagesize_KB hot window cooldown : Z) (bandwidth : spec_float)
    : res Config :=
  init_config max_addr pagesize_KB hot window cooldown bandwidth.

(** [std::distance(row, std::min_element(row, row + 8))]: the first minimum. *)
Definition min_element_idx (row : list Z) : Z :=
  (foldl (fun '(best, i) x =>
            (if x <? row !!! Z.to_nat best then i else best, i + 1))
         (0, 0) (take 8 row)).1.

Definition estimate_latency_gain (page_id current_core : Z) (p2c : gmap Z Z)
    (counts : gmap Z (gmap Z Z)) : res spec_float :=
  let current_channel := default 0 (p2c !! page_id) in
  row ← vget core_channel_latency_matrix current_core;
  let best_channel := min_element_idx row in
  cur ← vget row current_channel;
  new ← vget row best_channel;
  let recent_accesses := default 0 (default ∅ (counts !! page_id) !! current_core) in
  let predicted_accesses := u64 (recent_accesses * FUTURE_ACCESS_FACTOR) in
  Ok (F64.mul (F64.mul (F64.sub (F64.of_Z cur) (F64.of_Z new)) (F64.of_Z 2))
        (F64.of_Z predicted_accesses)).

Definition set_counts (counts : gmap Z (gmap Z Z)) (s : NState) : NState :=
  mkNState (cfg s) (pool s) (tables s) counts (migration_counter s) (window_counter s)
    (m_reserved_pages s) (last_migration_window s) (migrations s).

(** A page cools down for [COOLDOWN_WINDOWS] windows after a migration. *)
Definition cooling (vpn : Z) (s : NState) : bool :=
  match last_migration_window s !! vpn with
  | Some last_window => window_counter s - last_window <? COOLDOWN_WINDOWS (cfg s)
  | None => false
  end.

(** One iteration of the loop of [migrate_pages], for the entry of [vpn].  An
    entry that an earlier iteration evicted is no longer visited; if the body
    evicts the entry it stands on, advancing the iterator is undefined. *)
Definition migrate_one {IO : IterOrder} (fuel : nat) (vpn : Z) (s : NState) : res NState :=
  match global_page_table (tables s) !! vpn with
  | None => Ok s
  | Some _ =>
      let '(hot, counts) := is_hot_page (cfg s) vpn (page_access_counts_per_core s) in
      let s := set_counts counts s in
      if negb hot then Ok s else
      if vpn =? 0 then Ok s else
      let core := find_most_frequent_core vpn counts in
      best_channel ← find_best_channel core;
      let current_channel := default 0 (page_to_channel_mapping (tables s) !! vpn) in
      if best_channel =? current_channel then Ok s else
      if cooling vpn s then Ok s else
      gain ← estimate_latency_gain vpn core (page_to_channel_mapping (tables s)) counts;
      let gain := F64.div gain (F64.of_Z 1000) in
      if fgt gain (F64.of_Z (m_cost (cfg s))) then
        '(ppn, p, t) ← find_random_free_page fuel (cfg s) best_channel (pool s) (tables s);
        match global_page_table t !! vpn with
        | None => Err Undef
        | Some _ =>
            Ok (mkNState (cfg s) p
                  (mkTables (<[vpn := ppn]> (global_page_table t)) (reverse_page_table t)
                            (<[vpn := best_channel]> (page_to_channel_mapping t)))
                  (page_access_counts_per_core s) (migration_counter s) (window_counter s)
                  (m_reserved_pages s) (<[vpn := window_counter s]> (last_migration_window s))
                  (migrations s + 1))
        end
      else Ok s
  end.

Fixpoint migrate_loop {IO : IterOrder} (fuel : nat) (vpns : list Z) (s : NState) : res NState :=
  match vpns with
  | [] => Ok s
  | vpn :: rest => s ← migrate_one fuel vpn s; migrate_loop fuel rest s
  end.

Definition migrate_pages {IO : IterOrder} (fuel : nat) (s : NState) : res NState :=
  s ← migrate_loop fuel (iter_order (global_page_table (tables s))).*1 s;
  Ok (mkNState (cfg s) (pool s) (tables s) ∅ (migration_counter s) (window_counter s + 1)
        (m_reserved_pages s) (last_migration_window s) (migrations s)).

Definition translate {IO : IterOrder} (fuel : nat) (req : Request) (s : NState)
    : res (bool * Request * NState) :=
  translate_with migrate_pages fuel req s.

Fixpoint run {IO : IterOrder} (fuel : nat) (reqs : list Request) (s : NState) : res NState :=
  match reqs with
  | [] => Ok s
  | r :: rs => '(_, _, s) ← translate fuel r s; run fuel rs s
  end.

(** ** Reachable states: each step may see the hash tables in another order *)
Inductive reach (c : Config) (g : rng_state) : NState -> Prop :=
| reach_init : reach c g (init_state c g)
| reach_translate s (IO : IterOrder) fuel req b req' s' :
    reach c g s -> translate fuel req s = Ok (b, req', s') -> reach c g s'
| reach_reserve s a : reach c g s -> reach c g (reserve a s).2.

(** ** Placement invariant *)
Definition chan_ok (c : Config) (t : Tables) : Prop :=
  forall v q, global_page_table t !! v = Some q ->
    0 <= q < 8 * pages_per_channel c /\
    page_to_channel_mapping t !! v = Some (q / pages_per_channel c).

(** A frame with an entry in [reverse_page_table] is in use. *)
Definition rev_ok (c : Config) (p : Pool) (t : Tables) : Prop :=
  forall q v, reverse_page_table t !! q = Some v -> 0 <= q /\ ~ page_free c p q.

Record inv (s : NState) : Prop := {
  inv_cfg : cfg_ok (cfg s);
  inv_pool : pool_ok (cfg s) (pool s);
  inv_chan : chan_ok (cfg s) (tables s);
  inv_rev : rev_ok (cfg s) (pool s) (tables s);
}.

(** The frame an allocation hands out has no entry, and is in use afterwards. *)
Lemma alloc_post_rev c ch p t ppn p' t' : cfg_ok c -> 0 <= ch ->
  alloc_post c ch p t ppn p' t' -> rev_ok c p t ->
  rev_ok c p' t' /\ reverse_page_table t' !! ppn = None /\ 0 <= ppn /\ ~ page_free c p' ppn /\
  forall q, reverse_page_table t !! q = None -> reverse_page_table t' !! q = None.
Proof.
  intros Hc Hch [_ Hin _ Hcase] Hr. pose proof (in_channel_nonneg _ _ _ Hc Hch Hin) as H0.
  destruct Hcase as [(Hf & -> & Hf')|(Hfull & -> & Hf')].
  - assert (reverse_page_table t !! ppn = None) as Hn.
    { destruct (reverse_page_table t !! ppn) eqn:E; [|done]. by destruct (Hr _ _ E). }
    split; [|split; [done|]; split; [done|]; split; [by intros [[] _]%Hf'|done]].
    intros q v Hq. destruct (Hr _ _ Hq) as [Hq0 Hqf]. split; [done|]. by intros [_ ?]%Hf'.
  - split; [|split; [apply lookup_delete_eq|]; split; [done|]; split; [intros ?%Hf'; [by apply (Hfull ppn)|done]|]].
    + intros q v Hq. cbn in Hq. apply lookup_delete_Some in Hq as [_ Hq]. destruct (Hr _ _ Hq) as [Hq0 Hqf]. split; [done|]. by intros ?%Hf'.
    + intros q Hq. cbn. rewrite lookup_delete. by case_decide.
Qed.

Lemma evict_tables_sub ppn t v q :
  global_page_table (evict_tables ppn t) !! v = Some q -> global_page_table t !! v = Some q.
Proof. cbn. rewrite lookup_delete. case_decide; [done|naive_solver]. Qed.

Lemma alloc_post_sub c ch p t ppn p' t' v q :
  alloc_post c ch p t ppn p' t' ->
  global_page_table t' !! v = Some q -> global_page_table t !! v = Some q.
Proof. intros [_ _ _ [(_ & -> & _)|(_ & -> & _)]]; [done|apply evict_tables_sub]. Qed.

Lemma alloc_post_chan c ch p t ppn p' t' :
  alloc_post c ch p t ppn p' t' -> chan_ok c t -> chan_ok c t'.
Proof.
  intros [_ _ _ [(_ & -> & _)|(_ & -> & _)]]; [done|]. intros Ht v q.
  cbn. rewrite !lookup_delete. case_decide; [done|apply Ht].
Qed.

(** Recording a page of channel [ch] for [vpn]. *)
Lemma chan_ok_insert c ch vpn ppn t r :
  cfg_ok c -> 0 <= ch < 8 -> in_channel c ch ppn -> chan_ok c t ->
  chan_ok c (mkTables (<[vpn := ppn]> (global_page_table t)) r
               (<[vpn := ch]> (page_to_channel_mapping t))).
Proof.
  intros Hc Hch Hin Ht v q. cbn. rewrite !lookup_insert. case_decide; [|apply Ht].
  intros [= <-]. rewrite (in_channel_div c ch ppn) by done. split; [|done].
  destruct Hc as [_ Hpos _]. unfold in_channel in Hin. nia.
Qed.

Section Migration.
Context {IO : IterOrder}.

Definition same_counts (c1 c2 : gmap Z (gmap Z Z)) : Prop :=
  forall v, default ∅ (c1 !! v) = default ∅ (c2 !! v).

Lemma iter_order_empty V : iter_order (∅ : gmap Z V) = [].
Proof.
  apply Permutation_nil_r. rewrite iter_order_perm. by rewrite map_to_list_empty.
Qed.

Lemma find_most_frequent_core_same v c1 c2 :
  same_counts c1 c2 -> find_most_frequent_core v c1 = find_most_frequent_core v c2.
Proof.
  intros H. specialize (H v). unfold find_most_frequent_core.
  destruct (c1 !! v), (c2 !! v); cbn in H; subst; rewrite ?iter_order_empty; done.
Qed.

Lemma is_hot_page_same c v c1 c2 :
  same_counts c1 c2 -> (is_hot_page c v c1).1 = (is_hot_page c v c2).1.
Proof. intros H. unfold is_hot_page. cbn. by rewrite (H v). Qed.

Lemma is_hot_page_counts c v counts : same_counts (is_hot_page c v counts).2 counts.
Proof.
  intros w. unfold is_hot_page. cbn. rewrite lookup_insert. case_decide; [by subst|done].
Qed.

(** What it takes for [vpn] to be moved to frame [q] in a window. *)
Definition moved (s : NState) (vpn q : Z) : Prop :=
  vpn <> 0 /\ is_Some (global_page_table (tables s) !! vpn) /\
  (is_hot_page (cfg s) vpn (page_access_counts_per_core s)).1 = true /\
  q / pages_per_channel (cfg s) = find_most_frequent_core vpn (page_access_counts_per_core s) /\
  (forall w, last_migration_window s !! vpn = Some w ->
             w + COOLDOWN_WINDOWS (cfg s) <= window_counter s).

Record step_frame (s s' : NState) : Prop := {
  sf_cfg : cfg s' = cfg s;
  sf_window : window_counter s' = window_counter s;
  sf_counts : same_counts (page_access_counts_per_core s') (page_access_counts_per_core s);
}.

(** The effect of one iteration: other pages are untouched or evicted, and
    [vpn] itself stays, or moves and records the window. *)
Record one_post (s : NState) (vpn : Z) (s' : NState) : Prop := {
  op_inv : inv s';
  op_frame : step_frame s s';
  op_others : forall v q, v <> vpn -> global_page_table (tables s') !! v = Some q ->
                global_page_table (tables s) !! v = Some q;
  op_last : forall v, v <> vpn -> last_migration_window s' !! v = last_migration_window s !! v;
  op_rev : forall q, reverse_page_table (tables s) !! q = None -> reverse_page_table (tables s') !! q = None;
  op_self : forall q, global_page_table (tables s') !! vpn = Some q ->
     global_page_table (tables s) !! vpn = Some q \/
     moved s vpn q /\ last_migration_window s' !! vpn = Some (window_counter s) /\
     reverse_page_table (tables s') !! q = None;
}.

Lemma one_post_skip counts s vpn :
  inv s -> same_counts counts (page_access_counts_per_core s) ->
  one_post s vpn (set_counts counts s).
Proof. intros [] H. split; [by split|by split|done|done|done|by left]. Qed.

Lemma migrate_one_spec fuel vpn s s' :
  inv s -> migrate_one fuel vpn s = Ok s' -> one_post s vpn s'.
Proof.
  intros Hinv H. unfold migrate_one in H.
  pose proof (is_hot_page_counts (cfg s) vpn (page_access_counts_per_core s)) as Hcounts.
  destruct (global_page_table (tables s) !! vpn) as [q0|] eqn:E0.
  2:{ injection H as <-. split; [done|by split|done|done|done|by left]. }
  destruct (is_hot_page (cfg s) vpn (page_access_counts_per_core s)) as [hot counts] eqn:Ehot.
  cbn [snd] in Hcounts. cbn zeta in H. pose proof (one_post_skip counts s vpn Hinv Hcounts) as Hskip.
  assert (forall x, Ok (set_counts counts s) = Ok x -> one_post s vpn x) as Hret
    by (by intros x [= <-]). clear Hskip.
  destruct hot; [|exact (Hret _ H)]. cbn [negb] in H.
  destruct (Z.eqb_spec vpn 0) as [|Hv0]; [exact (Hret _ H)|].
  apply bind_Ok in H as (ch & Hch & H).
  rewrite (find_most_frequent_core_same vpn counts _ Hcounts) in *.
  apply find_best_channel_Ok in Hch as [-> Hcore].
  destruct (_ =? _) in H; [exact (Hret _ H)|].
  destruct (cooling vpn (set_counts counts s)) eqn:Ecool; [exact (Hret _ H)|].
  apply bind_Ok in H as (gain & _ & H). destruct (fgt _ _) in H; [|exact (Hret _ H)].
  apply bind_Ok in H as ([[ppn p] t] & Hfind & H). clear Hret. destruct Hinv as [Hc Hp Ht Hrev].
  apply find_random_free_page_spec in Hfind; [|done..].
  destruct (alloc_post_rev _ _ _ _ _ _ _ Hc (proj1 Hcore) Hfind Hrev) as (Hrev' & Hnone & _ & _ & Hmono).
  pose proof (ap_chan _ _ _ _ _ _ _ Hfind) as Hin.
  destruct (global_page_table t !! vpn); [|done]. injection H as <-. split.
  - split; cbn; [done|apply (ap_pool _ _ _ _ _ _ _ Hfind)| |].
    + apply chan_ok_insert; [done|done|done|]. by apply (alloc_post_chan _ _ _ _ _ _ _ Hfind).
    + exact Hrev'.
  - by split.
  - cbn. intros v q Hne. rewrite lookup_insert_ne by done.
    apply (alloc_post_sub _ _ _ _ _ _ _ _ _ Hfind).
  - cbn. intros v Hne. by rewrite lookup_insert_ne.
  - exact Hmono.
  - cbn. intros q. rewrite lookup_insert_eq. intros [= <-]. right. rewrite lookup_insert_eq.
    split; [|done]. split; [done|]. split; [by rewrite E0|]. split; [by rewrite Ehot|].
    split; [by apply in_channel_div|].
    unfold cooling in Ecool. cbn in Ecool. intros w Hw. rewrite Hw in Ecool.
    apply Z.ltb_ge in Ecool. lia.
Qed.

Record loop_post (s : NState) (vpns : list Z) (s' : NState) : Prop := {
  lp_inv : inv s';
  lp_frame : step_frame s s';
  lp_others : forall v, v ∉ vpns ->
    last_migration_window s' !! v = last_migration_window s !! v /\
    forall q, global_page_table (tables s') !! v = Some q ->
              global_page_table (tables s) !! v = Some q;
  lp_rev : forall q, reverse_page_table (tables s) !! q = None -> reverse_page_table (tables s') !! q = None;
  lp_moved : forall v q, v ∈ vpns -> global_page_table (tables s') !! v = Some q ->
     global_page_table (tables s) !! v = Some q \/
     moved s v q /\ last_migration_window s' !! v = Some (window_counter s) /\
     reverse_page_table (tables s') !! q = None;
}.

(** What moves a page in the middle of the loop would have moved it at its
    start: earlier iterations leave its counts and its cooldown alone. *)
Lemma moved_back s s1 vpn v q :
  one_post s vpn s1 -> v <> vpn -> moved s1 v q -> moved s v q.
Proof.
  intros [_ [Ec Ew Hs] Hg Hl _ _] Hne (H0 & [q0 Hq0] & Hhot & Hq & Hcool). rewrite Ec in *.
  split; [done|]. split; [by eauto|]. split; [|split].
  - by rewrite <- (is_hot_page_same _ _ _ _ Hs).
  - by rewrite <- (find_most_frequent_core_same _ _ _ Hs).
  - intros w Hw. rewrite <- Hl in Hw by done. rewrite <- Ew. auto.
Qed.

Lemma migrate_loop_spec fuel vpns s s' :
  inv s -> NoDup vpns -> migrate_loop fuel vpns s = Ok s' -> loop_post s vpns s'.
Proof.
  revert s. induction vpns as [|v0 vpns IH]; intros s Hinv Hnd H.
  { injection H as <-. split; [done|by split|done|done|]. by left. }
  apply list.NoDup_cons in Hnd as [Hv0 Hnd]. cbn [migrate_loop] in H.
  apply bind_Ok in H as (s1 & H1 & H). apply migrate_one_spec in H1; [|done].
  pose proof H1 as [Hinv1 [Ec1 Ew1 Hs1] Hg1 Hl1 Hr1 Hself].
  apply IH in H as [Hinv' [Ec Ew Hs] Hoth Hr Hmov]; [|done..].
  split; [done| | |by auto|].
  - split; [congruence|congruence|]. intros v. by rewrite (Hs v).
  - intros v Hv. apply not_elem_of_cons in Hv as [Hne Hv]. destruct (Hoth v Hv) as [El Hq].
    rewrite El, Hl1 by done. split; [done|]. eauto.
  - intros v q Hv Hq. apply elem_of_cons in Hv as [->|Hv].
    + destruct (Hoth v0 Hv0) as [El Hq0]. rewrite El. destruct (Hself q (Hq0 q Hq)) as [|(? & ? & ?)]; [by left|right]. auto.
    + assert (v <> v0) by (by intros ->). destruct (Hmov v q Hv Hq) as [|(Hm & Hw & Hn)]; [by eauto|].
      right. rewrite Hw, Ew1. split; [|done]. by apply (moved_back s s1 v0).
Qed.

Lemma migrate_pages_post fuel s s' :
  inv s -> migrate_pages fuel s = Ok s' ->
  inv s' /\ cfg s' = cfg s /\ window_counter s' = window_counter s + 1 /\
  page_access_counts_per_core s' = ∅ /\
  forall v q, global_page_table (tables s') !! v = Some q ->
    global_page_table (tables s) !! v = Some q \/
    moved s v q /\ last_migration_window s' !! v = Some (window_counter s) /\
    reverse_page_table (tables s') !! q = None.
Proof.
  intros Hinv H. unfold migrate_pages in H. apply bind_Ok in H as (s1 & H1 & H).
  injection H as <-. apply migrate_loop_spec in H1 as [Hi [Ec Ew _] Ho _ Hm]; [|done|].
  - split; [by destruct Hi|]. cbn. split; [done|]. split; [by rewrite Ew|]. split; [done|].
    intros v q Hq.
    destruct (decide (v ∈ (iter_order (global_page_table (tables s))).*1)) as [Hv|Hv].
    + by apply Hm.
    + left. by apply Ho.
  - rewrite iter_order_perm. apply NoDup_fst_map_to_list.
Qed.

Lemma window_step_inv fuel vpn core s s' :
  inv s -> window_step migrate_pages fuel vpn core s = Ok s' -> inv s' /\ cfg s' = cfg s.
Proof.
  intros Hinv H. unfold window_step in H. cbn zeta in H.
  set (s1 := mkNState _ _ _ _ _ _ _ _ _) in H.
  assert (inv s1) as Hinv1 by (by destruct Hinv).
  destruct (_ =? _) in H; [|by injection H as <-].
  apply bind_Ok in H as (s2 & H2 & H). injection H as <-.
  apply migrate_pages_post in H2 as (Hi & Ec & _); [|done]. by destruct Hi.
Qed.
End Migration.

Lemma lookup_or_allocate_inv fuel vpn core s ppn s' :
  inv s -> lookup_or_allocate fuel vpn core s = Ok (ppn, s') ->
  inv s' /\ cfg s' = cfg s /\ global_page_table (tables s') !! vpn = Some ppn.
Proof.
  intros [Hc Hp Ht Hrev] H. unfold lookup_or_allocate in H.
  destruct (global_page_table (tables s) !! vpn) as [q|] eqn:E.
  { injection H as <- <-. split; [by split|done]. }
  apply bind_Ok in H as (ch & Hch & H). apply find_best_channel_Ok in Hch as [-> Hcore].
  apply bind_Ok in H as ([[q p'] t'] & Halloc & H). injection H as <- <-.
  apply allocate_page_spec in Halloc; [|done..].
  destruct (alloc_post_rev _ _ _ _ _ _ _ Hc (proj1 Hcore) Halloc Hrev) as (Hrev' & _ & H0 & Hused & _).
  split; [|split; [done|apply lookup_insert_eq]].
  split; cbn; [done|apply (ap_pool _ _ _ _ _ _ _ Halloc)| |].
  - apply chan_ok_insert; [done|done|apply (ap_chan _ _ _ _ _ _ _ Halloc)|].
    by apply (alloc_post_chan _ _ _ _ _ _ _ Halloc).
  - intros f w Hw. cbn in Hw. apply lookup_insert_Some in Hw as [[<- <-]|[_ Hw]]; [done|]. by apply (Hrev' f w).
Qed.

Lemma translate_inv {IO : IterOrder} fuel req s b req' s' :
  inv s -> translate fuel req s = Ok (b, req', s') ->
  inv s' /\ cfg s' = cfg s /\ b = true /\
  exists ppn, global_page_table (tables s') !! Z.shiftr (addr req) (m_offsetbits (cfg s)) = Some ppn /\
    addr req' = phys_addr (cfg s) ppn (addr req).
Proof.
  intros Hinv H. unfold translate, translate_with in H.
  apply bind_Ok in H as (s1 & Hw & H). apply bind_Ok in H as ([ppn s2] & Hl & H).
  injection H as <- <- <-. apply window_step_inv in Hw as [Hi1 Ec1]; [|done].
  apply lookup_or_allocate_inv in Hl as (Hi & Ec & Hm); [|done].
  split; [done|]. split; [congruence|]. split; [done|]. exists ppn. split; [done|].
  cbn. by rewrite Ec, Ec1.
Qed.

Lemma dynamic_init_inv c g : cfg_ok c -> inv (init_state c g).
Proof.
  intros Hc. split; [done|by apply init_pool_ok| |]; intros v q; cbn; by rewrite lookup_empty.
Qed.

Lemma dynamic_reach_inv c g s : cfg_ok c -> reach c g s -> inv s /\ cfg s = c.
Proof.
  intros Hc. induction 1 as [|s IO fuel req b req' s' _ [IH <-] Ht|s a _ [[] <-]].
  - split; [by apply dynamic_init_inv|done].
  - apply translate_inv in Ht as (? & ? & _); done.
  - by split.
Qed.

Lemma dynamic_reach_run {IO : IterOrder} c g fuel reqs s s' :
  reach c g s -> run fuel reqs s = Ok s' -> reach c g s'.
Proof.
  revert s. induction reqs as [|r rs IH]; intros s Hr H.
  - by injection H as <-.
  - cbn [run] in H. apply bind_Ok in H as ([[b r'] s1] & Ht & H).
    apply (IH s1); [|done]. by eapply reach_translate.
Qed.
End Dynamic.
End Dynamic.

(** ** Properties *)

(** The system of the witnesses: 16 pages, the engine of the code with its
    default seed, hot threshold 1, windows of 120 accesses, two cooldown windows
    and the default bandwidth. *)
Definition mig_cfg : Config := mkConfig 65536 4096 12 16 1 120 2 25 2.
Definition mig_init : @NState mt19937_64 := @init_state mt19937_64 mig_cfg (Mt19937_64.seed 123).
Definition mig_req (vpn core : Z) : Request :=
  Request_addr_type_source (vpn * 4096 + 64) ReqType.Read core.
Definition mig_run (reqs : list Request) : res (@NState mt19937_64) :=
  @Dynamic.run mt19937_64 default_order 200 reqs mig_init.

Lemma mig_cfg_ok : cfg_ok mig_cfg.
Proof. split; cbn; lia || reflexivity. Qed.

Lemma mig_reach reqs : ok_b (mig_run reqs) = true ->
  @Dynamic.reach mt19937_64 mig_cfg (Mt19937_64.seed 123) (from_res mig_init (mig_run reqs)).
Proof.
  intros H. eapply (Dynamic.dynamic_reach_run _ _ 200 reqs mig_init); [apply Dynamic.reach_init|].
  by apply from_res_Ok.
Qed.

(** Property C33.  Placement safety: from every reachable state, under every
    iteration order of the hash tables, a translation that returns (a migration
    that evicts the entry it stands on does not, see
    [dynamic_migration_invalidates_iterator]) answers
    [true] with a physical address that keeps the page offset, and afterwards
    every mapped page lies in the channel partition recorded for it, with exact
    free counters; evictions and migrations included. *)
Theorem dynamic_placement_invariant {RNG : Rng} {IO : IterOrder} c g s fuel req b req' s'
    (vpn := addr req / 2 ^ m_offsetbits c) :
  cfg_ok c -> Dynamic.reach c g s -> Dynamic.translate fuel req s = Ok (b, req', s') ->
  b = true /\
  (exists ppn, global_page_table (tables s') !! vpn = Some ppn /\
     addr req' = ppn * 2 ^ m_offsetbits c + addr req mod 2 ^ m_offsetbits c) /\
  (forall v q, global_page_table (tables s') !! v = Some q ->
     0 <= q < 8 * pages_per_channel c /\
     page_to_channel_mapping (tables s') !! v = Some (q / pages_per_channel c)) /\
  (forall ch row, m_free_physical_pages2d (pool s') !! ch = Some row ->
     m_num_free_physical_pages_per_part (pool s') !! ch = Some (ntrue row)).
Proof.
  intros Hc Hr Ht. apply Dynamic.dynamic_reach_inv in Hr as [Hinv <-]; [|done].
  apply Dynamic.translate_inv in Ht as ([_ Hp Hch _] & Ec & -> & ppn & Hm & Ha); [|done].
  pose proof (cfg_bits _ Hc). rewrite Ec in Hch. split; [done|]. split; [|split].
  - exists ppn. rewrite Z.shiftr_div_pow2 in Hm by lia. by rewrite Ha, phys_addr_spec by lia.
  - exact Hch.
  - intros ch row Hrow. by apply (pool_row _ _ Hp).
Qed.

Lemma dynamic_placement_invariant_witness :
  exists b req' s',
  @Dynamic.translate mt19937_64 default_order 200 (mig_req 201 7)
    (from_res mig_init (mig_run [mig_req 100 3])) = Ok (b, req', s') /\
  b = true /\
  (exists ppn, global_page_table (tables s') !! (addr (mig_req 201 7) / 2 ^ m_offsetbits mig_cfg) = Some ppn /\
     addr req' = ppn * 2 ^ m_offsetbits mig_cfg + addr (mig_req 201 7) mod 2 ^ m_offsetbits mig_cfg).
Proof.
  assert (ok_b (mig_run [mig_req 100 3]) = true) as Hok by (vm_compute; reflexivity).
  destruct (@Dynamic.translate mt19937_64 default_order 200 (mig_req 201 7)
              (from_res mig_init (mig_run [mig_req 100 3]))) as [[[b r'] s']|e] eqn:E;
    [|apply (f_equal ok_b) in E; vm_compute in E; discriminate E].
  exists b, r', s'. split; [reflexivity|].
  destruct (@dynamic_placement_invariant mt19937_64 default_order mig_cfg (Mt19937_64.seed 123)
     _ 200 (mig_req 201 7) b r' s' mig_cfg_ok (mig_reach _ Hok) E) as (H1 & H2 & _).
  split; [exact H1|exact H2].
Defined.

(** Property C37.  A migration window changes the mapping of a page only if the
    page is hot, is not page 0, was mapped, and has cooled down for
    [COOLDOWN_WINDOWS] windows since its last migration; it then lies in the
    channel of the core that accessed it most, and the window is recorded.  The
    window counter advances and the access counts are cleared. *)
Theorem dynamic_migration_window {RNG : Rng} {IO : IterOrder} c g s fuel s' :
  cfg_ok c -> Dynamic.reach c g s -> Dynamic.migrate_pages fuel s = Ok s' ->
  window_counter s' = window_counter s + 1 /\ page_access_counts_per_core s' = ∅ /\
  forall v q, global_page_table (tables s') !! v = Some q ->
    global_page_table (tables s) !! v = Some q \/
    (v <> 0 /\ is_Some (global_page_table (tables s) !! v) /\
     (is_hot_page c v (page_access_counts_per_core s)).1 = true /\
     q / pages_per_channel c = find_most_frequent_core v (page_access_counts_per_core s) /\
     (forall w, last_migration_window s !! v = Some w ->
                w + COOLDOWN_WINDOWS c <= window_counter s) /\
     last_migration_window s' !! v = Some (window_counter s)).
Proof.
  intros Hc Hr Hm. apply Dynamic.dynamic_reach_inv in Hr as [Hinv <-]; [|done].
  apply Dynamic.migrate_pages_post in Hm as (_ & _ & Hw & He & Hmv); [|done].
  split; [done|]. split; [done|]. intros v q Hq.
  destruct (Hmv v q Hq) as [|[(? & ? & ? & ? & ?) [? _]]]; [by left|right; done].
Qed.

Definition mig_hot : list Request := mig_req 100 3 :: replicate 118 (mig_req 100 7).

Lemma dynamic_migration_window_witness :
  exists s', @Dynamic.migrate_pages mt19937_64 default_order 200
    (from_res mig_init (mig_run mig_hot)) = Ok s' /\
  window_counter s' = window_counter (from_res mig_init (mig_run mig_hot)) + 1.
Proof.
  assert (ok_b (mig_run mig_hot) = true) as Hok by (vm_compute; reflexivity).
  destruct (@Dynamic.migrate_pages mt19937_64 default_order 200
              (from_res mig_init (mig_run mig_hot))) as [s'|e] eqn:E;
    [|apply (f_equal ok_b) in E; vm_compute in E; discriminate E].
  exists s'. split; [reflexivity|].
  exact (proj1 (@dynamic_migration_window mt19937_64 default_order mig_cfg (Mt19937_64.seed 123)
     _ 200 s' mig_cfg_ok (mig_reach _ Hok) E)).
Defined.



(** It happens: with the engine and seed of the code there is a reachable state
    in which two virtual pages share one physical frame. *)
Theorem dynamic_migration_aliases_frames :
  exists s v w q, @Dynamic.reach mt19937_64 mig_cfg (Mt19937_64.seed 123) s /\ v <> w /\
    global_page_table (tables s) !! v = Some q /\ global_page_table (tables s) !! w = Some q.
Proof.
  set (reqs := mig_req 100 3 :: replicate 119 (mig_req 100 7) ++
                 [mig_req 201 7; mig_req 202 7; mig_req 203 7; mig_req 204 7]).
  exists (from_res mig_init (mig_run reqs)), 100, 204, 15.
  split; [apply mig_reach; vm_compute; reflexivity|]. split; [lia|].
  split; vm_compute; reflexivity.
Qed.

(** [migrate_pages] can evict the very entry it iterates over: in
    a reachable state with valid core ids, moving page 100 back to its first
    channel picks its own stale frame as the victim, the entry is erased, and
    advancing the loop's iterator is undefined behaviour. *)
Theorem dynamic_migration_invalidates_iterator :
  exists s req, @Dynamic.reach mt19937_64 mig_cfg (Mt19937_64.seed 123) s /\
    0 <= source_id req < 8 /\
    is_Some (global_page_table (tables s) !! 100) /\
    (exists ppn p t, find_random_free_page 200 mig_cfg 3 (pool s) (tables s) = Ok (ppn, p, t) /\
       global_page_table t !! 100 = None) /\
    @Dynamic.translate mt19937_64 default_order 200 req s = Err Undef.
Proof.
  set (reqs := mig_req 100 3 :: replicate 119 (mig_req 100 7) ++
               mig_req 300 3 :: replicate 119 (mig_req 100 7) ++ replicate 119 (mig_req 100 3)).
  exists (from_res mig_init (mig_run reqs)), (mig_req 100 3).
  split; [apply mig_reach; vm_compute; reflexivity|]. split; [cbn; lia|].
  split; [eexists; vm_compute; reflexivity|]. split.
  - pose (lost := fun r : res (Z * Pool * Tables) =>
            match r with Ok (_, _, t) => global_page_table t !! 100 | Err _ => Some 0 end).
    assert (lost (find_random_free_page 200 mig_cfg 3
              (pool (from_res mig_init (mig_run reqs)))
              (tables (from_res mig_init (mig_run reqs)))) = None) as Hl
      by (vm_compute; reflexivity).
    destruct (find_random_free_page _ _ _ _ _) as [[[ppn p] t]|e] in Hl |- *; [|discriminate Hl].
    exists ppn, p, t. split; [reflexivity|exact Hl].
  - apply err_of_Some. vm_compute. reflexivity.
Qed.
