(* ===== verification/DramSpec.v ===== *)
(** * Device specifications: [dram/spec.h]

    Names of levels, commands and states with their ids, look-up tables,
    timing-constraint tables and the function tables a DRAM standard fills in. *)
From S2P Require Import Prelude.

(** ** [ImplDef] and [SpecDef]: names in order, ids are positions *)
Definition ImplDef : Type := list string.

(** [operator()(name)]: the first position of the name, or an exception. *)
Fixpoint find_id (i : Z) (d : ImplDef) (name : string) : res Z :=
  match d with
  | [] => Err (Exc "NON EXISTENT NAME")
  | x :: d => if String.eqb x name then Ok i else find_id (i + 1) d name
  end.

Definition def_of_name (d : ImplDef) (name : string) : res Z := find_id 0 d name.

Definition name_of_id (d : ImplDef) (i : Z) : res string :=
  if i <? Z.of_nat (length d) then vget d i else Err (Exc "NON EXISTENT ID").

(** [operator[]] on names is [consteval]: a missing name does not compile.  The
    model gives -1, an id no table has. *)
Definition def_id (d : ImplDef) (name : string) : Z := from_res (-1) (def_of_name d name).

(** [SpecDef::operator()]: the run-time map keeps the last id of a name. *)
Definition spec_def_id (d : ImplDef) (name : string) : res Z :=
  match (list_to_map (reverse (zip d (seqZ 0 (Z.of_nat (length d))))) : gmap string Z) !! name with
  | Some i => Ok i
  | None => Err (Exc "out_of_range")
  end.

(** ** [ImplLUT]: tables indexed by a definition, value-initialised *)
Fixpoint fill_lut {V} (keys : ImplDef) (entries : list (string * V)) (t : list V) : res (list V) :=
  match entries with
  | [] => Ok t
  | (k, v) :: rest => i ← def_of_name keys k; t ← vset t i v; fill_lut keys rest t
  end.

Definition LUT {V} (keys : ImplDef) (zero : V) (entries : list (string * V)) : res (list V) :=
  fill_lut keys entries (replicate (length keys) zero).

Fixpoint resolve_values (values : ImplDef) (entries : list (string * string))
    : res (list (string * Z)) :=
  match entries with
  | [] => Ok []
  | (k, v) :: rest =>
      i ← def_of_name values v; r ← resolve_values values rest; Ok ((k, i) :: r)
  end.

Definition LUT_def (keys values : ImplDef) (entries : list (string * string)) : res (list Z) :=
  e ← resolve_values values entries; LUT keys 0 e.

(** ** Plain data of [spec.h] *)
Record Organization : Type := mkOrganization { density : Z; dq : Z; count : list Z }.

Record DRAMCommandMeta : Type := mkMeta {
  is_opening : bool; is_closing : bool; is_accessing : bool; is_refreshing : bool;
  is_sb_cmd : bool;
}.

Definition no_meta : DRAMCommandMeta := mkMeta false false false false false.

Record FutureAction : Type := mkFutureAction { fa_cmd : Z; fa_addr_vec : list Z; fa_clk : Z }.

Record TimingConsEntry : Type := mkEntry { t_cmd : Z; t_val : Z; t_window : Z; t_sibling : bool }.

(** The constructor replaces a negative window by 0. *)
Definition TimingConsEntry_ctor (cmd val window : Z) (sibling : bool) : TimingConsEntry :=
  mkEntry cmd val (if window <? 0 then 0 else window) sibling.

Definition TimingCons : Type := list (list (list TimingConsEntry)).

Record TimingConsInitializer : Type := mkInit {
  ti_level : string;
  ti_preceding : list string;
  ti_following : list string;
  ti_latency : Z;
  ti_window : Z;
  ti_is_sibling : bool;
}.

(** ** [populate_timingcons] *)
Definition push_entry (level p_cmd : Z) (e : TimingConsEntry) (tc : TimingCons) : res TimingCons :=
  row ← vget tc level;
  l ← vget row p_cmd;
  row ← vset row p_cmd (l ++ [e]);
  vset tc level row.

Fixpoint push_following (cmds : ImplDef) (ts : TimingConsInitializer) (level p_cmd : Z)
    (following : list string) (tc : TimingCons) : res TimingCons :=
  match following with
  | [] => Ok tc
  | f :: rest =>
      f_cmd ← def_of_name cmds f;
      tc ← push_entry level p_cmd
             (TimingConsEntry_ctor f_cmd (ti_latency ts) (ti_window ts) (ti_is_sibling ts)) tc;
      push_following cmds ts level p_cmd rest tc
  end.

Fixpoint push_preceding (cmds : ImplDef) (ts : TimingConsInitializer) (level : Z)
    (preceding : list string) (tc : TimingCons) : res TimingCons :=
  match preceding with
  | [] => Ok tc
  | p :: rest =>
      p_cmd ← def_of_name cmds p;
      tc ← push_following cmds ts level p_cmd (ti_following ts) tc;
      push_preceding cmds ts level rest tc
  end.

Fixpoint populate_loop (levels cmds : ImplDef) (inits : list TimingConsInitializer)
    (tc : TimingCons) : res TimingCons :=
  match inits with
  | [] => Ok tc
  | ts :: rest =>
      level ← def_of_name levels (ti_level ts);
      tc ← push_preceding cmds ts level (ti_preceding ts) tc;
      populate_loop levels cmds rest tc
  end.

Definition populate_timingcons (levels cmds : ImplDef) (inits : list TimingConsInitializer)
    : res TimingCons :=
  populate_loop levels cmds inits (replicate (length levels) (replicate (length cmds) [])).

(** ** [FuncMatrix]: the function of a level and a command, if one is set *)
Definition FuncMatrix (F : Type) : Type := list (Z * Z * F).

Definition fget {F} (m : FuncMatrix F) (level cmd : Z) : option F :=
  match find (fun '(l, c, _) => (l =? level) && (c =? cmd)) m with
  | Some (_, _, f) => Some f
  | None => None
  end.
