(* ===== verification/DramNode.v ===== *)
(** * The device tree: [DRAMNodeBase] of [dram/node.h]

    A node keeps the earliest issue cycle of every command, a bounded issue
    history per command, a state and, for banks, the open rows.  All operations
    recurse over the tree the way the code does. *)
From S2P Require Import Prelude DramSpec.

Inductive Node : Type := mkNode {
  m_level : Z;
  m_node_id : Z;
  m_state : Z;
  m_cmd_ready_clk : list Z;
  m_cmd_history : list (list Z);
  m_row_state : gmap Z Z;
  m_child_nodes : list Node;
}.

Definition set_state (st : Z) (n : Node) : Node :=
  mkNode (m_level n) (m_node_id n) st (m_cmd_ready_clk n) (m_cmd_history n) (m_row_state n)
    (m_child_nodes n).

Definition set_rows (rows : gmap Z Z) (n : Node) : Node :=
  mkNode (m_level n) (m_node_id n) (m_state n) (m_cmd_ready_clk n) (m_cmd_history n) rows
    (m_child_nodes n).

Definition set_children (l : list Node) (n : Node) : Node :=
  mkNode (m_level n) (m_node_id n) (m_state n) (m_cmd_ready_clk n) (m_cmd_history n)
    (m_row_state n) l.

Definition set_timing (ready : list Z) (hist : list (list Z)) (n : Node) : Node :=
  mkNode (m_level n) (m_node_id n) (m_state n) ready hist (m_row_state n) (m_child_nodes n).

(** The functions a standard installs: they see the node and the arguments of
    the C++ lambdas. *)
Definition ActionFunc : Type := Node -> Z -> Z -> Z -> res Node.
Definition PreqFunc : Type := Node -> Z -> list Z -> Z -> res Z.
Definition RowFunc : Type := Node -> Z -> Z -> Z -> res bool.

(** What a node reads of its specification. *)
Record Spec : Type := mkSpec {
  m_levels : ImplDef;
  m_commands : ImplDef;
  m_states : ImplDef;
  m_command_scopes : list Z;
  m_init_states : list Z;
  m_organization : Organization;
  m_timing_cons : TimingCons;
  m_actions : FuncMatrix ActionFunc;
  m_preqs : FuncMatrix PreqFunc;
  m_rowhits : FuncMatrix RowFunc;
  m_rowopens : FuncMatrix RowFunc;
}.

(** ** Recursion over children, one or all of them *)
Section Children.
Context {A B : Type}.

Section Get.
Context (f : A -> res B).
Fixpoint at_nth (l : list A) (i : nat) : res B :=
  match l, i with
  | [], _ => Err Undef
  | x :: _, O => f x
  | _ :: l, S i => at_nth l i
  end.
End Get.

Section Map.
Context (f : A -> res A).
Fixpoint on_nth (l : list A) (i : nat) : res (list A) :=
  match l, i with
  | [], _ => Err Undef
  | x :: l, O => y ← f x; Ok (y :: l)
  | x :: l, S i => l ← on_nth l i; Ok (x :: l)
  end.
Fixpoint on_all (l : list A) : res (list A) :=
  match l with
  | [] => Ok []
  | x :: l => y ← f x; l ← on_all l; Ok (y :: l)
  end.
End Map.

(** [ready = ready && f(child)]: the call is skipped once [ready] is false. *)
Section Conj.
Context (f : A -> res bool).
Fixpoint all_true (l : list A) (ready : bool) : res bool :=
  match l with
  | [] => Ok ready
  | x :: l => if ready then b ← f x; all_true l b else all_true l false
  end.
End Conj.
End Children.

Section Node.
Context (sp : Spec).

Definition cons_of (level cmd : Z) : res (list TimingConsEntry) :=
  row ← vget (m_timing_cons sp) level; vget row cmd.

(** ** Construction *)
Definition max_window (l : list TimingConsEntry) : Z :=
  foldl (fun w t => Z.max w (t_window t)) 0 l.

Fixpoint init_history (level : Z) (cmds : list Z) : res (list (list Z)) :=
  match cmds with
  | [] => Ok []
  | cmd :: rest =>
      l ← cons_of level cmd;
      h ← init_history level rest;
      Ok (replicate (Z.to_nat (max_window l)) (-1) :: h)
  end.

(** The recursion descends one level per step, down to the level above rows:
    [depth] is the number of levels. *)
Fixpoint new_node (depth : nat) (level nid : Z) : res Node :=
  match depth with
  | O => Err OutOfFuel
  | S depth =>
      let num_cmds := length (m_commands sp) in
      hist ← init_history level (seqZ 0 (Z.of_nat num_cmds));
      st ← vget (m_init_states sp) level;
      let next_level := level + 1 in
      let n := mkNode level nid st (replicate num_cmds (-1)) hist ∅ [] in
      if next_level =? def_id (m_levels sp) "row" then Ok n else
      size ← vget (count (m_organization sp)) next_level;
      children ← (fix make (ids : list Z) : res (list Node) :=
        match ids with
        | [] => Ok []
        | i :: ids => c ← new_node depth next_level i; cs ← make ids; Ok (c :: cs)
        end) (seqZ 0 size);
      Ok (set_children children n)
  end.

(** ** Timing *)
Definition bump (t : TimingConsEntry) (future : Z) (ready : list Z) : res (list Z) :=
  r ← vget ready (t_cmd t); vset ready (t_cmd t) (Z.max r future).

Fixpoint bump_siblings (tcs : list TimingConsEntry) (clk : Z) (ready : list Z) : res (list Z) :=
  match tcs with
  | [] => Ok ready
  | t :: tcs =>
      if t_sibling t
      then ready ← bump t (clk + t_val t) ready; bump_siblings tcs clk ready
      else bump_siblings tcs clk ready
  end.

Fixpoint bump_targets (tcs : list TimingConsEntry) (h : list Z) (ready : list Z) : res (list Z) :=
  match tcs with
  | [] => Ok ready
  | t :: tcs =>
      if t_sibling t then bump_targets tcs h ready else
      past ← vget h (t_window t - 1);
      if past <? 0 then bump_targets tcs h ready
      else ready ← bump t (past + t_val t) ready; bump_targets tcs h ready
  end.

Definition push_history (clk : Z) (h : list Z) : list Z :=
  match h with [] => [] | _ => clk :: removelast h end.

Fixpoint update_timing (command : Z) (addr_vec : list Z) (clk : Z) (n : Node) : res Node :=
  match n with
  | mkNode level nid st ready hist rows children =>
      a ← vget addr_vec level;
      tcs ← cons_of level command;
      if negb (nid =? a) && negb (a =? -1) then
        ready ← bump_siblings tcs clk ready;
        Ok (mkNode level nid st ready hist rows children)
      else
        h ← vget hist command;
        let h := push_history clk h in
        hist ← vset hist command h;
        ready ← bump_targets tcs h ready;
        children ← on_all (update_timing command addr_vec clk) children;
        Ok (mkNode level nid st ready hist rows children)
  end.

(** [m_level == m_command_scopes[command] || !m_child_nodes.size()] *)
Definition at_scope (command : Z) (n : Node) : res bool :=
  scope ← vget (m_command_scopes sp) command;
  Ok ((m_level n =? scope) || match m_child_nodes n with [] => true | _ => false end).

Fixpoint check_ready (command : Z) (addr_vec : list Z) (clk : Z) (n : Node) : res bool :=
  r ← vget (m_cmd_ready_clk n) command;
  if negb (r =? -1) && (clk <? r) then Ok false else
  child_id ← vget addr_vec (m_level n + 1);
  stop ← at_scope command n;
  if stop : bool then Ok true else
  if child_id =? -1 then all_true (check_ready command addr_vec clk) (m_child_nodes n) true
  else if child_id <? 0 then Err Undef
  else at_nth (check_ready command addr_vec clk) (m_child_nodes n) (Z.to_nat child_id).

(** ** States *)
Definition run_action (command child_id clk : Z) (n : Node) : res Node :=
  match fget (m_actions sp) (m_level n) command with
  | Some f => f n command child_id clk
  | None => Ok n
  end.

(** An action changes states and open rows of the node and its descendants but
    not the shape of the tree, so the recursion runs on the depth. *)
Fixpoint update_states (depth : nat) (command : Z) (addr_vec : list Z) (clk : Z) (n : Node)
    : res Node :=
  match depth with
  | O => Err OutOfFuel
  | S depth =>
      child_id ← vget addr_vec (m_level n + 1);
      n ← run_action command child_id clk n;
      stop ← at_scope command n;
      if stop : bool then Ok n else
      children ←
        (if child_id =? -1 then on_all (update_states depth command addr_vec clk) (m_child_nodes n)
         else if child_id <? 0 then Err Undef
         else on_nth (update_states depth command addr_vec clk) (m_child_nodes n)
                (Z.to_nat child_id));
      Ok (set_children children n)
  end.

(** ** Prerequisites, row hits and open rows *)
Fixpoint get_preq_command (command : Z) (addr_vec : list Z) (clk : Z) (n : Node) : res Z :=
  child_id ← vget addr_vec (m_level n + 1);
  preq ← (match fget (m_preqs sp) (m_level n) command with
          | Some f => f n command addr_vec clk
          | None => Ok (-1)
          end);
  if negb (preq =? -1) then Ok preq else
  match m_child_nodes n with
  | [] => Ok command
  | _ => if child_id <? 0 then Err Undef
         else at_nth (get_preq_command command addr_vec clk) (m_child_nodes n) (Z.to_nat child_id)
  end.

Section Row.
Context (tbl : FuncMatrix RowFunc).

Fixpoint row_query (command : Z) (addr_vec : list Z) (clk : Z) (n : Node) : res bool :=
  child_id ← vget addr_vec (m_level n + 1);
  match fget tbl (m_level n) command with
  | Some f => f n command child_id clk
  | None =>
      match m_child_nodes n with
      | [] => Ok false
      | _ => if child_id <? 0 then Err Undef
             else at_nth (row_query command addr_vec clk) (m_child_nodes n) (Z.to_nat child_id)
      end
  end.
End Row.

Definition check_rowbuffer_hit : Z -> list Z -> Z -> Node -> res bool := row_query (m_rowhits sp).
Definition check_node_open : Z -> list Z -> Z -> Node -> res bool := row_query (m_rowopens sp).
End Node.
