(* ===== verification/DramLambdas.v ===== *)
(** * State functions shared by the DRAM standards: [dram/lambdas]

    The templates of [action.h], [preq.h], [rowhit.h] and [rowopen.h], for the
    levels, commands and states of the standard that instantiates them. *)
From S2P Require Import Prelude DramSpec DramNode.

Section Lambdas.
Context (levels commands states : ImplDef).

Let lvl (name : string) : Z := def_id levels name.
Let cmd_id (name : string) : Z := def_id commands name.
Let st (name : string) : Z := def_id states name.

Definition close_bank (bank : Node) : Node := set_rows ∅ (set_state (st "Closed") bank).

(** Loops over the grandchildren of a node. *)
Definition map_grandchildren (f : Node -> Node) (n : Node) : Node :=
  set_children ((fun bg => set_children (f <$> m_child_nodes bg) bg) <$> m_child_nodes n) n.

Definition map_children (f : Node -> Node) (n : Node) : Node :=
  set_children (f <$> m_child_nodes n) n.

(** Loops over banks that test each bank's id against the target. *)
Definition on_target (target_id : Z) (f : Node -> Node) (bank : Node) : Node :=
  if m_node_id bank =? target_id then f bank else bank.

Definition Action_Bank_ACT : ActionFunc := fun node cmd target_id clk =>
  let node := set_state (st "Opened") node in
  Ok (set_rows (<[target_id := st "Opened"]> (m_row_state node)) node).

Definition Action_Bank_PRE : ActionFunc := fun node cmd target_id clk => Ok (close_bank node).

Definition Action_Bank_VRR : ActionFunc := fun node cmd target_id clk =>
  Ok (set_state (st "Refreshing") node).

Definition Action_Bank_VRR_end : ActionFunc := fun node cmd target_id clk =>
  Ok (set_state (st "Closed") node).

Definition Action_BankGroup_PREsb : ActionFunc := fun node cmd target_id clk =>
  Ok (map_children (on_target target_id close_bank) node).

Definition Action_BankGroup_REFsb : ActionFunc := fun node cmd target_id clk =>
  Ok (map_children (on_target target_id (set_state (st "Refreshing"))) node).

Definition Action_BankGroup_REFsb_end : ActionFunc := fun node cmd target_id clk =>
  Ok (map_children (on_target target_id close_bank) node).

Definition Action_Rank_PREab : ActionFunc := fun node cmd target_id clk =>
  if lvl "bank" - lvl "rank" =? 1 then Ok (map_children close_bank node)
  else if lvl "bank" - lvl "rank" =? 2 then Ok (map_grandchildren close_bank node)
  else Err (Exc "static_assert").

Definition Action_Rank_REFab : ActionFunc := fun node cmd target_id clk =>
  Ok (map_grandchildren (set_state (st "Refreshing")) node).

Definition Action_Rank_REFab_end : ActionFunc := fun node cmd target_id clk =>
  Ok (map_grandchildren (set_state (st "Closed")) node).

Definition Action_Channel_PREab : ActionFunc := fun node cmd target_id clk =>
  if lvl "bank" - lvl "channel" =? 2 then Ok (map_grandchildren close_bank node)
  else if lvl "bank" - lvl "channel" =? 3
  then Ok (map_children (map_grandchildren close_bank) node)
  else Err (Exc "static_assert").

(** ** Prerequisites *)
Definition Preq_Bank_RequireRowOpen : PreqFunc := fun node cmd addr_vec clk =>
  if m_state node =? st "Closed" then Ok (cmd_id "ACT")
  else if m_state node =? st "Opened" then
    row ← vget addr_vec (lvl "row");
    match m_row_state node !! row with
    | Some _ => Ok cmd
    | None => Ok (cmd_id "PRE")
    end
  else if m_state node =? st "Refreshing" then Ok (cmd_id "ACT")
  else Err (Exit (-1)).

Definition Preq_Bank_RequireBankClosed : PreqFunc := fun node cmd addr_vec clk =>
  if m_state node =? st "Closed" then Ok cmd
  else if m_state node =? st "Opened" then Ok (cmd_id "PRE")
  else if m_state node =? st "Refreshing" then Ok cmd
  else Err (Exit (-1)).

(** The first bank that is not closed decides. *)
Fixpoint first_not_closed (cmd : Z) (banks : list Node) : Z :=
  match banks with
  | [] => cmd
  | bank :: rest =>
      if m_state bank =? st "Closed" then first_not_closed cmd rest
      else if m_state bank =? st "Refreshing" then cmd
      else cmd_id "PREA"
  end.

Definition Preq_Rank_RequireAllBanksClosed : PreqFunc := fun node cmd addr_vec clk =>
  if lvl "bank" - lvl "rank" =? 1 then Ok (first_not_closed cmd (m_child_nodes node))
  else if lvl "bank" - lvl "rank" =? 2
  then Ok (first_not_closed cmd (m_child_nodes node ≫= m_child_nodes))
  else Ok cmd.

Definition Preq_Rank_RequireSameBanksClosed : PreqFunc := fun node cmd addr_vec clk =>
  b ← vget addr_vec (lvl "bank");
  let banks := m_child_nodes node ≫= m_child_nodes in
  let all_banks_ready :=
    forallb (fun bank => negb (m_node_id bank =? b) ||
                         ((m_state bank =? st "Closed") || (m_state bank =? st "Refreshing")))
            banks in
  if all_banks_ready then Ok cmd else Ok (cmd_id "PREsb").

Fixpoint any_not_closed (cmd : Z) (banks : list Node) : Z :=
  match banks with
  | [] => cmd
  | bank :: rest => if m_state bank =? st "Closed" then any_not_closed cmd rest else cmd_id "PREA"
  end.

Definition Preq_Channel_RequireAllBanksClosed : PreqFunc := fun node cmd addr_vec clk =>
  if lvl "bank" - lvl "channel" =? 2
  then Ok (any_not_closed cmd (m_child_nodes node ≫= m_child_nodes))
  else if lvl "bank" - lvl "channel" =? 3
  then Ok (any_not_closed cmd ((m_child_nodes node ≫= m_child_nodes) ≫= m_child_nodes))
  else Ok cmd.

(** ** Row hits and open rows *)
Definition RowHit_Bank_RDWR : RowFunc := fun node cmd target_id clk =>
  if m_state node =? st "Closed" then Ok false
  else if m_state node =? st "Opened" then Ok (bool_decide (is_Some (m_row_state node !! target_id)))
  else if m_state node =? st "Refreshing" then Ok false
  else Err (Exit (-1)).

Definition RowOpen_Bank_RDWR : RowFunc := fun node cmd target_id clk =>
  if m_state node =? st "Closed" then Ok false
  else if m_state node =? st "Opened" then Ok true
  else if m_state node =? st "Refreshing" then Ok false
  else Err (Exit (-1)).
End Lambdas.
