(* ===== verification/DramTiming.v ===== *)
(** * What the timing bookkeeping of the device tree means

    The reference is the full issue history: a command may be issued to a node
    at a cycle when every constraint of the node's level holds against the
    history of the node ([allowed]).  [tracks] says that the bounded histories
    and ready cycles of a tree summarise such a history; [update_timing] keeps
    it, and under it [check_ready] decides [allowed] on every node it visits. *)
From S2P Require Import Prelude DramSpec DramNode.

(** ** Induction over the tree *)
Section NodeInd.
Context (P : Node -> Prop).
Context (step : forall n, Forall P (m_child_nodes n) -> P n).

Fixpoint Node_tree_ind (n : Node) : P n :=
  match n with
  | mkNode level nid st ready hist rows children =>
      step (mkNode level nid st ready hist rows children)
        ((fix all (l : list Node) : Forall P l :=
            match l with
            | [] => List.Forall_nil P
            | c :: l => List.Forall_cons P c l (Node_tree_ind c) (all l)
            end) children)
  end.
End NodeInd.

(** ** Lists of children *)
Lemma on_all_Forall2 {A} (f : A -> res A) l l' :
  on_all f l = Ok l' -> Forall2 (fun x y => f x = Ok y) l l'.
Proof.
  revert l'. induction l as [|x l IH]; cbn; intros l' H; res_inv; [constructor|].
  constructor; [done|]. by apply IH.
Qed.

Lemma at_nth_Ok {A B} (f : A -> res B) l i b :
  at_nth f l i = Ok b -> exists x, l !! i = Some x /\ f x = Ok b.
Proof.
  revert i. induction l as [|x l IH]; intros [|i]; cbn; try done; [by exists x|apply IH].
Qed.

Lemma on_nth_Ok {A} (f : A -> res A) l i l' :
  on_nth f l i = Ok l' -> exists x y, l !! i = Some x /\ f x = Ok y /\ l' = <[i := y]> l.
Proof.
  revert i l'. induction l as [|x l IH]; intros [|i] l' H; cbn in H; res_inv.
  - by exists x, x0.
  - destruct (IH _ _ H0) as (a & b & ? & ? & ->). by exists a, b.
Qed.

Lemma all_true_false {A} (f : A -> res bool) l : all_true f l false = Ok false.
Proof. by induction l. Qed.

Lemma all_true_iff {A} (P : A -> Prop) (f : A -> res bool) l b :
  (forall i x b', l !! i = Some x -> f x = Ok b' -> b' = true <-> P x) ->
  all_true f l true = Ok b -> b = true <-> forall i x, l !! i = Some x -> P x.
Proof.
  revert b. induction l as [|x l IH]; cbn; intros b HP H; [by injection H as <-|].
  apply bind_Ok in H as (b1 & Hx & H). pose proof (HP 0%nat x b1 eq_refl Hx) as Hb1. destruct b1.
  - rewrite (IH b (fun i => HP (S i)) H). split; [|intros Hall i; apply (Hall (S i))].
    intros Hall [|i] y Hy; [|by apply (Hall i)]. injection Hy as <-. by apply Hb1.
  - rewrite all_true_false in H. injection H as <-. split; [done|].
    intros Hall. apply Hb1, (Hall 0%nat). done.
Qed.

(** ** Histories *)
Record Issue : Type := mkIssue { is_cmd : Z; is_addr : list Z; is_clk : Z }.

(** A node sees a command as a target, or as the sibling of a target. *)
Definition NodeHist : Type := list (bool * Issue).

(** [m_node_id == addr_vec[m_level] || addr_vec[m_level] == -1] *)
Definition hit (level nid : Z) (e : Issue) : bool :=
  match is_addr e !! Z.to_nat level with
  | Some a => (nid =? a) || (a =? -1)
  | None => false
  end.

(** Children see only the commands their parent was a target of. *)
Definition child_hist (level nid : Z) (E : NodeHist) : NodeHist :=
  omap (fun '(tgt, e) => if tgt : bool then Some (hit level nid e, e) else None) E.

Definition clks (tgt : bool) (c : Z) (E : NodeHist) : list Z :=
  omap (fun '(b, e) => if Bool.eqb b tgt && (is_cmd e =? c) then Some (is_clk e) else None) E.

(** The history of the node reached from a node of level [l - 1] along [p]. *)
Fixpoint hist_at (l : Z) (p : list Z) (E : NodeHist) : NodeHist :=
  match p with
  | [] => E
  | i :: p => hist_at (l + 1) p (child_hist l i E)
  end.

Section Timing.
Context (sp : Spec).

(** ** The reference: all constraints of a level hold at cycle [T]

    A constraint with window [w] reaches back to every issue that has been
    followed by [w - 1] further issues of the same command. *)
Definition respects (t : TimingConsEntry) (p : Z) (E : NodeHist) (T : Z) : Prop :=
  if t_sibling t then forall x, x ∈ clks false p E -> x + t_val t <= T
  else forall k x, t_window t - 1 <= Z.of_nat k -> clks true p E !! k = Some x ->
       x + t_val t <= T.

Definition allowed (level : Z) (E : NodeHist) (c T : Z) : Prop :=
  forall p l t, cons_of sp level p = Ok l -> t ∈ l -> t_cmd t = c -> respects t p E T.

Definition windows_ok : Prop :=
  forall level p l t, cons_of sp level p = Ok l -> t ∈ l -> 1 <= t_window t.

(** ** The summary a node keeps *)
Definition hist_ok (level : Z) (hist : list (list Z)) (E : NodeHist) : Prop :=
  forall p l h, cons_of sp level p = Ok l -> vget hist p = Ok h ->
    let W := Z.to_nat (max_window l) in
    h = take W (clks true p E ++ replicate W (-1)).

Definition ready_ok (level : Z) (ready : list Z) (E : NodeHist) : Prop :=
  forall c r, vget ready c = Ok r -> forall T, 0 <= T -> r <= T <-> allowed level E c T.

Fixpoint tracks (E : NodeHist) (n : Node) : Prop :=
  match n with
  | mkNode level nid st ready hist rows children =>
      hist_ok level hist E /\ ready_ok level ready E /\
      foldr (fun ch acc => tracks (child_hist (m_level ch) (m_node_id ch) E) ch /\ acc) True children
  end.

Lemma tracks_unfold E n :
  tracks E n <->
  hist_ok (m_level n) (m_cmd_history n) E /\ ready_ok (m_level n) (m_cmd_ready_clk n) E /\
  Forall (fun ch => tracks (child_hist (m_level ch) (m_node_id ch) E) ch) (m_child_nodes n).
Proof.
  destruct n as [level nid st ready hist rows ch]. cbn [tracks m_level m_cmd_history m_cmd_ready_clk m_child_nodes].
  do 2 f_equiv. induction ch as [|x ch IH]; cbn; [by rewrite List.Forall_nil_iff|].
  by rewrite List.Forall_cons_iff, IH.
Qed.

(** ** Windows and histories *)
Lemma max_window_mono l w :
  w <= foldl (fun w t => Z.max w (t_window t)) w l.
Proof. revert w. induction l as [|t l IH]; intros w; cbn; [lia|]. etrans; [|apply IH]. lia. Qed.

Lemma max_window_ge l t : t ∈ l -> t_window t <= max_window l.
Proof.
  unfold max_window. generalize 0. induction l as [|x l IH]; intros w Ht; [by apply not_elem_of_nil in Ht|].
  apply elem_of_cons in Ht as [->|Ht]; cbn.
  - etrans; [|apply max_window_mono]. lia.
  - by apply IH.
Qed.

Lemma removelast_take_S {A} (L : list A) n :
  (S n <= length L)%nat -> removelast (take (S n) L) = take n L.
Proof.
  revert n. induction L as [|x L IH]; intros n; cbn [length]; [lia|]. intros Hn.
  destruct n as [|n]; [done|]. change (take (S (S n)) (x :: L)) with (x :: take (S n) L).
  destruct L as [|y L]; [cbn in Hn; lia|].
  change (removelast (x :: take (S n) (y :: L))) with (x :: removelast (take (S n) (y :: L))).
  rewrite IH by (cbn in *; lia). done.
Qed.

Lemma push_history_take clk L W :
  push_history clk (take W (L ++ replicate W (-1))) = take W ((clk :: L) ++ replicate W (-1)).
Proof.
  destruct W as [|W]; [by rewrite !take_0|].
  assert (S W <= length (L ++ replicate (S W) (-1)%Z))%nat as HL
    by (rewrite length_app, length_replicate; lia).
  unfold push_history. destruct (take (S W) (L ++ _)) as [|x t] eqn:E.
  { apply (f_equal length) in E. rewrite length_take in E. change (length (@nil Z)) with 0%nat in E. lia. }
  rewrite <- E, (removelast_take_S (L ++ _)) by done. done.
Qed.

(** The oldest entry a constraint consults: the issue itself, or -1. *)
Lemma window_lookup L W w x :
  1 <= w <= Z.of_nat W ->
  vget (take W (L ++ replicate W (-1))) (w - 1) = Ok x ->
  L !! Z.to_nat (w - 1) = Some x \/ (x = -1 /\ L !! Z.to_nat (w - 1) = None).
Proof.
  intros Hw [_ Hx]%vget_Ok. rewrite lookup_take_lt in Hx by lia.
  destruct (decide (Z.to_nat (w - 1) < length L)%nat).
  - rewrite lookup_app_l in Hx by done. by left.
  - rewrite lookup_app_r in Hx by lia. apply lookup_replicate_1 in Hx as [-> _].
    right. split; [done|]. apply lookup_ge_None. lia.
Qed.

(** ** Raising the ready cycles *)
Lemma forall_cons {A} (P : A -> Prop) x l :
  (forall y, y ∈ x :: l -> P y) <-> P x /\ forall y, y ∈ l -> P y.
Proof.
  setoid_rewrite elem_of_cons. split; [intros H; split; intros; apply H; auto|].
  intros [Hx Hl] y [->|Hy]; auto.
Qed.

Lemma bump_Ok t future ready ready' :
  bump t future ready = Ok ready' ->
  forall c r', vget ready' c = Ok r' -> exists r, vget ready c = Ok r /\
    forall T, r' <= T <-> r <= T /\ (t_cmd t = c -> future <= T).
Proof.
  unfold bump. intros H c r' Hr'. res_inv. apply vset_Ok in H as [Hb ->].
  apply vget_Ok in Hr' as [Hc Hr'].
  destruct (decide (t_cmd t = c)) as [<-|Hne].
  - exists x. split; [done|]. intros T. rewrite list_lookup_insert_eq in Hr' by lia.
    injection Hr' as <-. naive_solver lia.
  - exists r'. rewrite list_lookup_insert_ne in Hr' by lia. rewrite vget_Ok.
    split; [done|]. naive_solver lia.
Qed.

Lemma bump_siblings_Ok tcs clk ready ready' :
  bump_siblings tcs clk ready = Ok ready' ->
  forall c r', vget ready' c = Ok r' -> exists r, vget ready c = Ok r /\
    forall T, r' <= T <->
      r <= T /\ (forall t, t ∈ tcs -> t_sibling t = true -> t_cmd t = c -> clk + t_val t <= T).
Proof.
  revert ready. induction tcs as [|t tcs IH]; cbn; intros ready H c r' Hr'.
  { res_inv. exists r'. split; [done|]. intros T. split; [|naive_solver].
    intros. split; [done|]. intros t Ht. by apply not_elem_of_nil in Ht. }
  destruct (t_sibling t) eqn:Es.
  - apply bind_Ok in H as (rd & Hb & H). destruct (IH _ H c r' Hr') as (r1 & Hr1 & H1).
    destruct (bump_Ok _ _ _ _ Hb c r1 Hr1) as (r & Hr & H2). exists r. split; [done|].
    intros T. rewrite H1, H2, forall_cons. intuition.
  - destruct (IH _ H c r' Hr') as (r & Hr & H1). exists r. split; [done|].
    intros T. rewrite H1, forall_cons. intuition congruence.
Qed.

Lemma bump_targets_Ok tcs h ready ready' :
  bump_targets tcs h ready = Ok ready' ->
  forall c r', vget ready' c = Ok r' -> exists r, vget ready c = Ok r /\
    forall T, r' <= T <->
      r <= T /\
      (forall t, t ∈ tcs -> t_sibling t = false -> t_cmd t = c ->
         exists past, vget h (t_window t - 1) = Ok past /\ (past < 0 \/ past + t_val t <= T)).
Proof.
  revert ready. induction tcs as [|t tcs IH]; cbn; intros ready H c r' Hr'.
  { res_inv. exists r'. split; [done|]. intros T. split; [|naive_solver].
    intros. split; [done|]. intros t Ht. by apply not_elem_of_nil in Ht. }
  destruct (t_sibling t) eqn:Es.
  { destruct (IH _ H c r' Hr') as (r & Hr & H1). exists r. split; [done|].
    intros T. rewrite H1, forall_cons. intuition congruence. }
  apply bind_Ok in H as (past & Hp & H). destruct (Z.ltb_spec past 0).
  - destruct (IH _ H c r' Hr') as (r & Hr & H1). exists r. split; [done|].
    intros T. rewrite H1, forall_cons. split; [|by intros (? & _ & ?)].
    intros [? ?]. split; [done|]. split; [|done]. intros _ _. exists past. auto.
  - apply bind_Ok in H as (rd & Hb & H). destruct (IH _ H c r' Hr') as (r1 & Hr1 & H1).
    destruct (bump_Ok _ _ _ _ Hb c r1 Hr1) as (r & Hr & H2). exists r. split; [done|].
    intros T. rewrite H1, H2, forall_cons. split.
    + intros [[? Hn] Hrest]. split; [done|]. split; [|done]. intros _ Hc. exists past. auto.
    + intros [? [Ht Hall]]. split; [split; [done|]|done].
      intros Hc. destruct (Ht Es Hc) as (q & Hq & Hor). rewrite Hp in Hq. injection Hq as <-. lia.
Qed.

(** ** One more event *)
Lemma clks_cons tgt p b e E :
  clks tgt p ((b, e) :: E) =
  if Bool.eqb b tgt && (is_cmd e =? p) then is_clk e :: clks tgt p E else clks tgt p E.
Proof. unfold clks. cbn. by destruct (_ && _). Qed.

Lemma respects_other b e E t p T :
  is_cmd e <> p -> respects t p ((b, e) :: E) T <-> respects t p E T.
Proof.
  intros Hne. unfold respects. rewrite !clks_cons, (proj2 (Z.eqb_neq _ _) Hne).
  by rewrite !andb_false_r.
Qed.

Lemma respects_sibling e E t T :
  respects t (is_cmd e) ((false, e) :: E) T <->
  respects t (is_cmd e) E T /\ (t_sibling t = true -> is_clk e + t_val t <= T).
Proof.
  unfold respects. rewrite !clks_cons, Z.eqb_refl. cbn. destruct (t_sibling t); [|naive_solver].
  rewrite forall_cons. naive_solver.
Qed.

Lemma respects_target e E t T :
  1 <= t_window t ->
  respects t (is_cmd e) ((true, e) :: E) T <->
  respects t (is_cmd e) E T /\
  (t_sibling t = false -> forall x,
     (is_clk e :: clks true (is_cmd e) E) !! Z.to_nat (t_window t - 1) = Some x ->
     x + t_val t <= T).
Proof.
  intros Hw. unfold respects. rewrite !clks_cons, Z.eqb_refl. cbn [Bool.eqb andb].
  destruct (t_sibling t); [naive_solver|]. split.
  - intros H. split.
    + intros k x Hk Hx. apply (H (S k)); [lia|done].
    + intros _ x Hx. apply (H (Z.to_nat (t_window t - 1))); [lia|done].
  - intros [H Hn] k x Hk Hx. destruct (decide (Z.of_nat k = t_window t - 1)) as [Ek|Ek].
    + apply (Hn eq_refl). by rewrite <- Ek, Nat2Z.id.
    + destruct k as [|k]; [lia|]. apply (H k); [lia|done].
Qed.

Lemma allowed_sibling level e E c T :
  allowed level ((false, e) :: E) c T <->
  allowed level E c T /\
  (forall l t, cons_of sp level (is_cmd e) = Ok l -> t ∈ l -> t_sibling t = true ->
     t_cmd t = c -> is_clk e + t_val t <= T).
Proof.
  unfold allowed. split.
  - intros H. split.
    + intros p l t Hl Ht Hc. specialize (H p l t Hl Ht Hc). destruct (decide (is_cmd e = p)) as [<-|].
      * by apply respects_sibling in H as [H _].
      * by apply respects_other in H.
    + intros l t Hl Ht Hs Hc. specialize (H _ l t Hl Ht Hc).
      apply respects_sibling in H as [_ H]. by apply H.
  - intros [H Hn] p l t Hl Ht Hc. specialize (H p l t Hl Ht Hc).
    destruct (decide (is_cmd e = p)) as [<-|]; [|by apply respects_other].
    apply respects_sibling. eauto.
Qed.

Lemma allowed_target level e E c T :
  windows_ok ->
  allowed level ((true, e) :: E) c T <->
  allowed level E c T /\
  (forall l t, cons_of sp level (is_cmd e) = Ok l -> t ∈ l -> t_sibling t = false ->
     t_cmd t = c -> forall x,
     (is_clk e :: clks true (is_cmd e) E) !! Z.to_nat (t_window t - 1) = Some x ->
     x + t_val t <= T).
Proof.
  intros Hw. unfold allowed. split.
  - intros H. split.
    + intros p l t Hl Ht Hc. specialize (H p l t Hl Ht Hc). destruct (decide (is_cmd e = p)) as [<-|].
      * by apply respects_target in H as [H _]; [|eapply Hw].
      * by apply respects_other in H.
    + intros l t Hl Ht Hs Hc. specialize (H _ l t Hl Ht Hc).
      apply respects_target in H as [_ H]; [|by eapply Hw]. by apply H.
  - intros [H Hn] p l t Hl Ht Hc. specialize (H p l t Hl Ht Hc).
    destruct (decide (is_cmd e = p)) as [<-|]; [|by apply respects_other].
    apply respects_target; [by eapply Hw|]. eauto.
Qed.

(** ** [update_timing] extends the history of the tree by the event *)
Definition clks_nonneg (E : NodeHist) : Prop := Forall (fun e => 0 <= is_clk e.2) E.

Lemma child_hist_nonneg level nid E : clks_nonneg E -> clks_nonneg (child_hist level nid E).
Proof.
  unfold clks_nonneg. induction 1 as [|[[] e] E He HE IH]; cbn; auto.
Qed.

Lemma clks_nonneg_lookup b c E k x : clks_nonneg E -> clks b c E !! k = Some x -> 0 <= x.
Proof.
  intros HE Hx. apply list_elem_of_lookup_2, list_elem_of_omap in Hx as ([b' e] & Hin & Hx).
  unfold clks_nonneg in HE. rewrite Forall_forall in HE. specialize (HE _ (proj1 (list_elem_of_In _ _) Hin)). cbn in HE.
  by destruct (_ && _); simplify_eq.
Qed.

Lemma ready_ok_target level ready ready' tcs hist h e E :
  windows_ok -> clks_nonneg ((true, e) :: E) ->
  ready_ok level ready E -> hist_ok level hist E ->
  cons_of sp level (is_cmd e) = Ok tcs -> vget hist (is_cmd e) = Ok h ->
  bump_targets tcs (push_history (is_clk e) h) ready = Ok ready' ->
  ready_ok level ready' ((true, e) :: E).
Proof.
  intros Hw Hnn Hready Hhist Htcs Hh Hb c r' Hr' T HT.
  destruct (bump_targets_Ok _ _ _ _ Hb c r' Hr') as (r & Hr & ->).
  rewrite (Hready c r Hr T HT), allowed_target by done. f_equiv.
  rewrite (Hhist _ _ _ Htcs Hh), push_history_take. cbn zeta. split.
  - intros H l t Hl Ht Hs Hc x Hx. assert (l = tcs) as -> by congruence.
    destruct (H t Ht Hs Hc) as (past & Hp & Hor).
    pose proof (max_window_ge _ _ Ht). pose proof (Hw _ _ _ _ Htcs Ht).
    apply window_lookup in Hp as [Hp|[_ Hp]]; [| |lia].
    + rewrite Hx in Hp. injection Hp as <-. destruct Hor as [Hneg|]; [|done].
      eapply (clks_nonneg_lookup true (is_cmd e) ((true, e) :: E) _ x) in Hnn; [lia|].
      rewrite clks_cons, Z.eqb_refl. exact Hx.
    + by rewrite Hx in Hp.
  - intros H t Ht Hs Hc. pose proof (max_window_ge _ _ Ht). pose proof (Hw _ _ _ _ Htcs Ht).
    edestruct (vget_is_Ok (take (Z.to_nat (max_window tcs))
       ((is_clk e :: clks true (is_cmd e) E) ++ replicate (Z.to_nat (max_window tcs)) (-1)))
       (t_window t - 1)) as [past Hp].
    { rewrite length_take, length_app, length_replicate. lia. }
    exists past. split; [done|]. apply window_lookup in Hp as [Hp|[-> _]]; [|lia|lia].
    right. by apply (H tcs t Htcs Ht Hs Hc).
Qed.

Lemma hist_ok_target level hist hist' h e E :
  hist_ok level hist E -> vget hist (is_cmd e) = Ok h ->
  vset hist (is_cmd e) (push_history (is_clk e) h) = Ok hist' ->
  hist_ok level hist' ((true, e) :: E).
Proof.
  intros Hhist Hh [Hb ->]%vset_Ok p l h' Hl [Hp Hh']%vget_Ok. cbn zeta. rewrite clks_cons.
  cbn [Bool.eqb andb]. destruct (Z.eqb_spec (is_cmd e) p) as [<-|Hne].
  - rewrite list_lookup_insert_eq in Hh' by lia. injection Hh' as <-.
    by rewrite (Hhist _ _ _ Hl Hh), push_history_take.
  - rewrite list_lookup_insert_ne in Hh' by lia. apply Hhist; [done|]. by apply vget_Ok.
Qed.

Lemma ready_ok_sibling level ready ready' tcs e E :
  ready_ok level ready E -> cons_of sp level (is_cmd e) = Ok tcs ->
  bump_siblings tcs (is_clk e) ready = Ok ready' ->
  ready_ok level ready' ((false, e) :: E).
Proof.
  intros Hready Htcs Hb c r' Hr' T HT.
  destruct (bump_siblings_Ok _ _ _ _ Hb c r' Hr') as (r & Hr & ->).
  rewrite (Hready c r Hr T HT), allowed_sibling. f_equiv. split; [|by eauto].
  intros H l t Hl. assert (l = tcs) as -> by congruence. apply H.
Qed.

Lemma update_timing_node e n n' :
  update_timing sp (is_cmd e) (is_addr e) (is_clk e) n = Ok n' ->
  m_level n' = m_level n /\ m_node_id n' = m_node_id n.
Proof.
  destruct n as [level nid st ready hist rows ch]. cbn [update_timing m_level m_node_id].
  intros H. apply bind_Ok in H as (a & _ & H). apply bind_Ok in H as (tcs & _ & H).
  destruct (_ && _); res_inv; done.
Qed.

Lemma update_timing_tracks e n E n' :
  windows_ok -> 0 <= is_clk e -> clks_nonneg E -> tracks E n ->
  update_timing sp (is_cmd e) (is_addr e) (is_clk e) n = Ok n' ->
  tracks ((hit (m_level n) (m_node_id n) e, e) :: E) n'.
Proof.
  intros Hw He. revert E n'. induction n as [n IH] using Node_tree_ind. intros E n' HE Ht Hu.
  destruct n as [level nid st ready hist rows ch].
  apply tracks_unfold in Ht as (Hh & Hr & Hch). cbn [m_level m_node_id m_cmd_history m_cmd_ready_clk m_child_nodes] in *.
  cbn [update_timing] in Hu. apply bind_Ok in Hu as (a & Ha & Hu).
  apply bind_Ok in Hu as (tcs & Htcs & Hu). apply vget_Ok in Ha as [Hlv Ha].
  unfold hit. rewrite Ha. destruct ((nid =? a) || (a =? -1)) eqn:Ehit.
  - replace (negb (nid =? a) && negb (a =? -1)) with false in Hu by (rewrite <- negb_orb, Ehit; done).
    apply bind_Ok in Hu as (h & Hh1 & Hu). apply bind_Ok in Hu as (hist' & Hset & Hu).
    apply bind_Ok in Hu as (ready' & Hb & Hu). apply bind_Ok in Hu as (ch' & Hall & Hu).
    injection Hu as <-. apply tracks_unfold. cbn [m_level m_node_id m_cmd_history m_cmd_ready_clk m_child_nodes].
    split; [by eapply hist_ok_target|]. split; [eapply ready_ok_target; eauto; by constructor|].
    apply on_all_Forall2 in Hall. clear Hh Hr Hset Hb Hh1.
    induction Hall as [|c c' ch ch' Hc _ IHall]; [constructor|].
    apply List.Forall_cons_iff in IH as [IHc IH]. apply List.Forall_cons_iff in Hch as [Htc Hch].
    constructor; [|by apply IHall]. destruct (update_timing_node _ _ _ Hc) as [-> ->].
    cbn. apply IHc; [by apply child_hist_nonneg|done|done].
  - replace (negb (nid =? a) && negb (a =? -1)) with true in Hu by (rewrite <- negb_orb, Ehit; done).
    res_inv. apply tracks_unfold. cbn [m_level m_node_id m_cmd_history m_cmd_ready_clk m_child_nodes].
    split; [|split; [by eapply ready_ok_sibling|done]].
    intros p l h. rewrite clks_cons. cbn. apply Hh.
Qed.

(** ** Positions in the tree *)
Fixpoint wf_tree (n : Node) : Prop :=
  match n with
  | mkNode level _ _ _ _ _ children =>
      (fix go (i : Z) (l : list Node) : Prop :=
         match l with
         | [] => True
         | c :: l => (m_level c = level + 1 /\ m_node_id c = i /\ wf_tree c) /\ go (i + 1) l
         end) 0 children
  end.

Lemma wf_tree_child n i ch :
  wf_tree n -> m_child_nodes n !! i = Some ch ->
  m_level ch = m_level n + 1 /\ m_node_id ch = Z.of_nat i /\ wf_tree ch.
Proof.
  destruct n as [level nid st ready hist rows children]. cbn [wf_tree m_child_nodes m_level].
  intros Hw Hi. replace (Z.of_nat i) with (0 + Z.of_nat i) by lia. revert Hw Hi. generalize 0 as k.
  revert i. induction children as [|c l IH]; intros [|i] k Hw Hi; simplify_eq/=.
  - destruct Hw as [(? & ? & ?) _]. rewrite Z.add_0_r. done.
  - destruct Hw as [_ Hw]. replace (k + Z.of_nat (S i)) with ((k + 1) + Z.of_nat i) by lia.
    by apply IH.
Qed.

Fixpoint node_at (p : list Z) (n : Node) : option Node :=
  match p with
  | [] => Some n
  | i :: p => if i <? 0 then None else
              match m_child_nodes n !! Z.to_nat i with
              | Some ch => node_at p ch
              | None => None
              end
  end.

(** The address vector names the node, or every node, at each level of [p]. *)
Fixpoint addressed (addr_vec : list Z) (l : Z) (p : list Z) : bool :=
  match p with
  | [] => true
  | i :: p =>
      match addr_vec !! Z.to_nat l with
      | Some a => (i =? a) || (a =? -1)
      | None => false
      end && addressed addr_vec (l + 1) p
  end.

Definition allowed_below (n : Node) (E : NodeHist) (c : Z) (addr_vec : list Z) (scope T : Z) : Prop :=
  forall p m, node_at p n = Some m -> addressed addr_vec (m_level n + 1) p = true ->
    m_level n + Z.of_nat (length p) <= scope ->
    allowed (m_level n + Z.of_nat (length p)) (hist_at (m_level n + 1) p E) c T.

Lemma allowed_below_leaf n E c av scope T :
  m_level n <= scope -> m_level n = scope \/ m_child_nodes n = [] ->
  allowed_below n E c av scope T <-> allowed (m_level n) E c T.
Proof.
  intros Hsc Hor. split.
  - intros H. specialize (H [] n). cbn in H. rewrite Z.add_0_r in H. by apply H.
  - intros H [|i p] m Hm Ha Hlen; cbn [node_at length hist_at] in *; [by rewrite Z.add_0_r|].
    destruct Hor as [Hl|Hnil]; [lia|]. rewrite Hnil in Hm. by destruct (i <? 0).
Qed.

Lemma hist_at_child l i p E : hist_at l (i :: p) E = hist_at (l + 1) p (child_hist l i E).
Proof. done. Qed.

Lemma allowed_below_step n E c av scope T (sel : nat -> Prop) :
  wf_tree n -> m_level n < scope ->
  (forall i ch, m_child_nodes n !! i = Some ch ->
     (sel i <-> addressed av (m_level n + 1) [Z.of_nat i] = true)) ->
  allowed_below n E c av scope T <->
  allowed (m_level n) E c T /\
  forall i ch, m_child_nodes n !! i = Some ch -> sel i ->
    allowed_below ch (child_hist (m_level ch) (m_node_id ch) E) c av scope T.
Proof.
  intros Hwf Hsc Hsel. split.
  - intros H. split.
    { specialize (H [] n). cbn in H. rewrite Z.add_0_r in H. apply H; [done|done|lia]. }
    intros i ch Hi Hs p m Hm Ha Hlen. destruct (wf_tree_child _ _ _ Hwf Hi) as (Hl & Hid & _).
    apply (Hsel _ _ Hi) in Hs. specialize (H (Z.of_nat i :: p) m).
    rewrite Hl, Hid in *. cbn [node_at addressed length hist_at] in H, Hs.
    rewrite (proj2 (Z.ltb_ge _ _)), Nat2Z.id, Hi in H by lia.
    rewrite andb_true_r in Hs. rewrite Hs in H.
    replace (m_level n + Z.of_nat (S (length p))) with (m_level n + 1 + Z.of_nat (length p)) in H by lia.
    by apply H.
  - intros [H Hch] [|i p] m Hm Ha Hlen; cbn [length hist_at] in *; [by rewrite Z.add_0_r|].
    cbn [node_at addressed] in Hm, Ha. destruct (Z.ltb_spec i 0); [done|].
    destruct (m_child_nodes n !! Z.to_nat i) as [ch|] eqn:Hi; [|done].
    destruct (wf_tree_child _ _ _ Hwf Hi) as (Hl & Hid & _).
    rewrite Z2Nat.id in Hid by lia. apply andb_true_iff in Ha as [Ha1 Ha2].
    assert (sel (Z.to_nat i)) as Hs.
    { apply (Hsel _ _ Hi). cbn [addressed]. rewrite andb_true_r, Z2Nat.id by lia. done. }
    specialize (Hch _ _ Hi Hs p m Hm). rewrite Hl, Hid in Hch.
    replace (m_level n + Z.of_nat (S (length p))) with (m_level n + 1 + Z.of_nat (length p)) by lia.
    apply Hch; [done|lia].
Qed.

(** ** [check_ready] decides the reference *)
Lemma ready_test r T : 0 <= T -> negb (r =? -1) && (T <? r) = false <-> r <= T.
Proof. intros. destruct (Z.eqb_spec r (-1)), (Z.ltb_spec T r); cbn; lia. Qed.

Lemma tracks_child E n i ch :
  tracks E n -> m_child_nodes n !! i = Some ch ->
  tracks (child_hist (m_level ch) (m_node_id ch) E) ch.
Proof. intros (_ & _ & H)%tracks_unfold Hi. by apply (Forall_lookup_1 _ _ _ _ H Hi). Qed.

Lemma check_ready_decides c av scope T n E b :
  0 <= T -> vget (m_command_scopes sp) c = Ok scope ->
  wf_tree n -> 0 <= m_level n <= scope -> tracks E n ->
  check_ready sp c av T n = Ok b -> b = true <-> allowed_below n E c av scope T.
Proof.
  intros HT Hscope. revert E b. induction n as [n IH] using Node_tree_ind.
  intros E b Hwf Hlv Htr Hc. destruct n as [level nid st ready hist rows children].
  cbn [check_ready m_level m_cmd_ready_clk m_child_nodes] in *.
  apply bind_Ok in Hc as (r & Hr & Hc).
  pose proof (proj1 (tracks_unfold _ _) Htr) as (_ & Hready & _).
  cbn [m_level m_cmd_ready_clk] in Hready. specialize (Hready _ _ Hr T HT).
  destruct (negb (r =? -1) && (T <? r)) eqn:Ew.
  { injection Hc as <-. split; [done|]. intros H. specialize (H [] _ eq_refl eq_refl).
    cbn in H. rewrite Z.add_0_r in H. apply Hready, (ready_test r T HT) in H; [|lia]. congruence. }
  apply (ready_test r T HT), Hready in Ew. apply bind_Ok in Hc as (child_id & Hid & Hc).
  apply vget_Ok in Hid as [_ Hid].
  apply bind_Ok in Hc as (stop & Hstop & Hc). unfold at_scope in Hstop. rewrite Hscope in Hstop.
  cbn [mbind res_bind m_level m_child_nodes] in Hstop. injection Hstop as Hstop.
  destruct stop.
  { injection Hc as <-. rewrite allowed_below_leaf; [done|cbn; lia|]. cbn.
    apply orb_true_iff in Hstop as [?%Z.eqb_eq|Hs]; [by left|right; by destruct children]. }
  apply orb_false_iff in Hstop as [Hne%Z.eqb_neq _].
  set (n := mkNode _ _ _ _ _ _ children) in *.
  assert (forall i ch b', children !! i = Some ch -> check_ready sp c av T ch = Ok b' ->
     b' = true <-> allowed_below ch (child_hist (m_level ch) (m_node_id ch) E) c av scope T) as Hrec.
  { intros i ch b' Hi Hb. destruct (wf_tree_child n _ _ Hwf Hi) as (Hl & _ & Hwc).
    refine (Forall_lookup_1 _ _ _ _ IH Hi _ _ Hwc _ (tracks_child _ n _ _ Htr Hi) Hb).
    rewrite Hl. cbn. lia. }
  destruct (Z.eqb_spec child_id (-1)) as [->|Hn1].
  - rewrite (all_true_iff _ _ _ _ Hrec Hc), (allowed_below_step n _ _ _ _ _ (fun _ => True));
      [naive_solver|done|cbn; lia|].
    intros i ch Hi. cbn. rewrite Hid. cbn. by rewrite orb_true_r.
  - destruct (Z.ltb_spec child_id 0); [done|]. apply at_nth_Ok in Hc as (ch & Hi & Hc).
    rewrite (Hrec _ _ _ Hi Hc), (allowed_below_step n _ _ _ _ _ (fun i => i = Z.to_nat child_id));
      [naive_solver|done|cbn; lia|].
    intros i ch' _. cbn. rewrite Hid, andb_true_r, orb_true_iff, !Z.eqb_eq. lia.
Qed.

(** ** Fresh trees *)
Lemma init_history_lookup level cmds hist i h :
  init_history sp level cmds = Ok hist -> hist !! i = Some h ->
  exists p l, cmds !! i = Some p /\ cons_of sp level p = Ok l /\
              h = replicate (Z.to_nat (max_window l)) (-1).
Proof.
  revert hist i. induction cmds as [|c cmds IH]; cbn; intros hist i H Hi; res_inv; [done|].
  destruct i as [|i]; simplify_eq/=; [by exists c, x|by eapply IH].
Qed.

Lemma new_node_ok depth level nid n :
  0 <= level -> new_node sp depth level nid = Ok n ->
  m_level n = level /\ m_node_id n = nid /\ wf_tree n /\ tracks [] n.
Proof.
  revert level nid n. induction depth as [|depth IH]; [done|]. cbn [new_node].
  intros level nid n Hlv H. apply bind_Ok in H as (hist & Hhist & H).
  apply bind_Ok in H as (st & _ & H).
  assert (hist_ok level hist []) as Hh.
  { intros p l h Hl [Hp Hx]%vget_Ok. cbn zeta.
    destruct (init_history_lookup _ _ _ _ _ Hhist Hx) as (p' & l' & Hp' & Hl' & ->).
    apply lookup_seqZ in Hp' as [-> _]. rewrite Z.add_0_l, Z2Nat.id in Hl' by lia.
    assert (l' = l) as -> by congruence. cbn. by rewrite take_ge by (rewrite length_replicate; lia). }
  assert (ready_ok level (replicate (length (m_commands sp)) (-1)) []) as Hr.
  { intros c r [_ [-> _]%lookup_replicate]%vget_Ok T HT. split; [|lia].
    intros _ p l t _ _ _. unfold respects. destruct (t_sibling t); [|done].
    intros x Hx. by apply not_elem_of_nil in Hx. }
  destruct (_ =? _); [injection H as <-; cbn; tauto|].
  apply bind_Ok in H as (size & _ & H). apply bind_Ok in H as (ch & Hch & H).
  injection H as <-. split; [done|]. split; [done|].
  assert (forall k ids ch, ids = seqZ k (Z.of_nat (length ids)) ->
    (fix make (ids : list Z) : res (list Node) :=
       match ids with
       | [] => Ok []
       | i :: ids => c ← new_node sp depth (level + 1) i; cs ← make ids; Ok (c :: cs)
       end) ids = Ok ch ->
    (fix go (i : Z) (l : list Node) : Prop :=
       match l with
       | [] => True
       | c :: l => (m_level c = level + 1 /\ m_node_id c = i /\ wf_tree c) /\ go (i + 1) l
       end) k ch /\ Forall (tracks []) ch) as Hmake.
  { intros k ids. revert k. clear -IH Hlv. induction ids as [|i ids IHids]; intros k ch Hids Hch.
    { injection Hch as <-. done. }
    apply bind_Ok in Hch as (c & Hc & Hch). apply bind_Ok in Hch as (cs & Hcs & Hch).
    injection Hch as <-. cbn [length] in Hids. rewrite seqZ_cons in Hids by lia.
    injection Hids as -> Hids.
    replace (Z.pred (Z.of_nat (S (length ids)))) with (Z.of_nat (length ids)) in Hids by lia.
    assert (0 <= level + 1) as Hlv1 by lia. destruct (IH _ _ _ Hlv1 Hc) as (? & ? & ? & ?).
    destruct (IHids _ _ Hids Hcs) as [? ?]. by repeat split; try constructor. }
  destruct (Hmake 0 (seqZ 0 size) ch) as [Hwf Htr]; [unfold seqZ; rewrite length_fmap, length_seq, Nat2Z.id; done|done|].
  split; [done|]. apply tracks_unfold. done.
Qed.

(** ** State updates leave the timing alone

    [skel] forgets states and open rows. *)
Fixpoint skel (n : Node) : Node :=
  match n with
  | mkNode level nid _ ready hist _ children =>
      mkNode level nid 0 ready hist ∅ (skel <$> children)
  end.

Lemma skel_fields n :
  m_level (skel n) = m_level n /\ m_node_id (skel n) = m_node_id n /\
  m_cmd_ready_clk (skel n) = m_cmd_ready_clk n /\ m_cmd_history (skel n) = m_cmd_history n /\
  m_child_nodes (skel n) = skel <$> m_child_nodes n.
Proof. by destruct n. Qed.

Lemma skel_eq n n' :
  skel n = skel n' <->
  m_level n = m_level n' /\ m_node_id n = m_node_id n' /\
  m_cmd_ready_clk n = m_cmd_ready_clk n' /\ m_cmd_history n = m_cmd_history n' /\
  skel <$> m_child_nodes n = skel <$> m_child_nodes n'.
Proof. destruct n, n'. cbn. split; [by intros [=]|]. naive_solver congruence. Qed.

Lemma skel_set_state st n : skel (set_state st n) = skel n.
Proof. by destruct n. Qed.

Lemma skel_set_rows rows n : skel (set_rows rows n) = skel n.
Proof. by destruct n. Qed.

Lemma skel_set_children l n :
  skel <$> l = skel <$> m_child_nodes n -> skel (set_children l n) = skel n.
Proof. destruct n. cbn. by intros ->. Qed.

Lemma tracks_skel n E : tracks E (skel n) <-> tracks E n.
Proof.
  revert E. induction n as [n IH] using Node_tree_ind. intros E. rewrite !tracks_unfold.
  destruct (skel_fields n) as (-> & _ & -> & -> & ->). do 2 f_equiv.
  rewrite list.Forall_fmap. split; intros H; apply Forall_lookup; intros i ch Hi;
    pose proof (Forall_lookup_1 _ _ _ _ H Hi) as Hc;
    pose proof (Forall_lookup_1 _ _ _ _ IH Hi) as IHc;
    destruct (skel_fields ch) as (Hl & Hid & _); cbn in *;
    rewrite ?Hl, ?Hid in *; by apply IHc.
Qed.

Lemma wf_tree_skel n : wf_tree (skel n) <-> wf_tree n.
Proof.
  induction n as [n IH] using Node_tree_ind. destruct n as [level nid st ready hist rows ch].
  cbn [skel wf_tree m_child_nodes] in *. generalize 0 as k.
  induction IH as [|c ch Hc _ IHch]; intros k; cbn; [done|].
  destruct (skel_fields c) as (-> & -> & _). by rewrite Hc, IHch.
Qed.

Definition frame_action (f : ActionFunc) : Prop :=
  forall n c t clk n', f n c t clk = Ok n' -> skel n' = skel n.

Definition frame_actions : Prop :=
  forall level c f, fget (m_actions sp) level c = Some f -> frame_action f.

Lemma on_all_skel f (l l' : list Node) :
  (forall x y, f x = Ok y -> skel y = skel x) -> on_all f l = Ok l' -> skel <$> l' = skel <$> l.
Proof.
  intros Hf H%on_all_Forall2. induction H as [|x y l l' Hxy _ IH]; [done|].
  cbn. by rewrite (Hf _ _ Hxy), IH.
Qed.

Lemma update_states_skel depth c av clk n n' :
  frame_actions -> update_states sp depth c av clk n = Ok n' -> skel n' = skel n.
Proof.
  intros Hf. revert n n'. induction depth as [|depth IH]; [done|]. cbn [update_states].
  intros n n' H. apply bind_Ok in H as (child_id & _ & H). apply bind_Ok in H as (n1 & Ha & H).
  assert (skel n1 = skel n) as Hs1.
  { unfold run_action in Ha. destruct (fget _ _ _) eqn:E; [by eapply Hf|by injection Ha as <-]. }
  apply bind_Ok in H as ([] & _ & H); [by injection H as <-|].
  apply bind_Ok in H as (ch & Hch & H). injection H as <-. rewrite <- Hs1.
  apply skel_set_children. destruct (_ =? -1); [by eapply on_all_skel|].
  destruct (_ <? 0); [done|]. apply on_nth_Ok in Hch as (x & y & Hx & Hy & ->).
  rewrite list_fmap_insert, (IH _ _ Hy). apply list_insert_id. by rewrite list_lookup_fmap, Hx.
Qed.

(** ** The shape of the tree never changes *)
Fixpoint shape (n : Node) : Node :=
  match n with
  | mkNode level nid _ _ _ _ children => mkNode level nid 0 [] [] ∅ (shape <$> children)
  end.

Lemma shape_fields n :
  m_level (shape n) = m_level n /\ m_node_id (shape n) = m_node_id n /\
  m_child_nodes (shape n) = shape <$> m_child_nodes n.
Proof. by destruct n. Qed.

Lemma shape_skel n : shape (skel n) = shape n.
Proof.
  induction n as [n IH] using Node_tree_ind. destruct n as [level nid st ready hist rows ch].
  cbn in *. f_equal. rewrite <- list_fmap_compose. by apply Forall_fmap_ext_1.
Qed.

Lemma update_timing_shape c av clk n n' :
  update_timing sp c av clk n = Ok n' -> shape n' = shape n.
Proof.
  revert n'. induction n as [n IH] using Node_tree_ind. intros n'.
  destruct n as [level nid st ready hist rows ch]. cbn [update_timing m_child_nodes] in *.
  intros H. apply bind_Ok in H as (a & _ & H). apply bind_Ok in H as (tcs & _ & H).
  destruct (_ && _); [res_inv; done|].
  apply bind_Ok in H as (h & _ & H). apply bind_Ok in H as (hist' & _ & H).
  apply bind_Ok in H as (ready' & _ & H). apply bind_Ok in H as (ch' & Hch & H).
  injection H as <-. cbn. f_equal. apply on_all_Forall2 in Hch.
  induction Hch as [|x y l l' Hxy _ IHc]; [done|].
  apply List.Forall_cons_iff in IH as [Hx IH]. cbn. by rewrite (Hx _ Hxy), IHc.
Qed.

Lemma wf_tree_shape n : wf_tree (shape n) <-> wf_tree n.
Proof.
  induction n as [n IH] using Node_tree_ind. destruct n as [level nid st ready hist rows ch].
  cbn [shape wf_tree m_child_nodes] in *. generalize 0 as k.
  induction IH as [|c ch Hc _ IHch]; intros k; cbn; [done|].
  destruct (shape_fields c) as (-> & -> & _). by rewrite Hc, IHch.
Qed.

Lemma node_at_shape p n : node_at p (shape n) = shape <$> node_at p n.
Proof.
  revert n. induction p as [|i p IH]; intros n; cbn; [done|]. destruct (i <? 0); [done|].
  destruct (shape_fields n) as (_ & _ & ->). rewrite list_lookup_fmap.
  destruct (m_child_nodes n !! _); cbn; [apply IH|done].
Qed.

Lemma allowed_below_shape n n' E c av scope T :
  shape n = shape n' -> allowed_below n E c av scope T <-> allowed_below n' E c av scope T.
Proof.
  intros Hs. unfold allowed_below.
  assert (m_level n = m_level n') as ->.
  { apply (f_equal m_level) in Hs. destruct n, n'. done. }
  assert (forall p, (exists m, node_at p n = Some m) <-> exists m, node_at p n' = Some m) as Hex.
  { intros p. pose proof (node_at_shape p n) as H1. pose proof (node_at_shape p n') as H2.
    rewrite <- Hs, H1 in H2. destruct (node_at p n), (node_at p n'); naive_solver. }
  split; intros H p m Hm; (destruct (Hex p) as [H1 H2]);
    [destruct H2 as [m' Hm']|destruct H1 as [m' Hm']]; eauto.
Qed.
End Timing.

#[export] Hint Resolve skel_set_state skel_set_rows : mem.
