(* ===== verification/DramSpecFacts.v ===== *)
(** * The timing table [populate_timingcons] builds, and the frame of the lambdas *)
From S2P Require Import Prelude DramSpec DramNode DramLambdas DramTiming.

(** ** Contents of a timing table *)
Definition tc_has (tc : TimingCons) (level p : Z) (t : TimingConsEntry) : Prop :=
  exists row l, vget tc level = Ok row /\ vget row p = Ok l /\ t ∈ l.

Lemma push_entry_has level p e tc tc' level' p' t :
  push_entry level p e tc = Ok tc' ->
  tc_has tc' level' p' t <-> tc_has tc level' p' t \/ (level' = level /\ p' = p /\ t = e).
Proof.
  unfold push_entry. intros H. apply bind_Ok in H as (row & Hrow & H).
  apply bind_Ok in H as (l & Hl & H). apply bind_Ok in H as (row' & [Hb1 ->]%vset_Ok & H).
  apply vset_Ok in H as [Hb2 ->]. unfold tc_has. setoid_rewrite vget_Ok.
  apply vget_Ok in Hrow as [Hlv Hrow]. apply vget_Ok in Hl as [Hp Hl]. split.
  - intros (r & l' & [H1 Hr] & [H2 Hl'] & Ht).
    destruct (decide (level' = level)) as [->|Hne].
    + rewrite list_lookup_insert_eq in Hr by lia. injection Hr as <-.
      destruct (decide (p' = p)) as [->|Hnp].
      * rewrite list_lookup_insert_eq in Hl' by lia. injection Hl' as <-.
        apply elem_of_app in Ht as [Ht|Ht%list_elem_of_singleton]; [left; eauto 10|by right].
      * rewrite list_lookup_insert_ne in Hl' by lia. left. eauto 10.
    + rewrite list_lookup_insert_ne in Hr by lia. left. eauto 10.
  - intros [(r & l' & [H1 Hr] & [H2 Hl'] & Ht)|(-> & -> & ->)].
    + destruct (decide (level' = level)) as [->|Hne].
      * rewrite Hrow in Hr. injection Hr as <-. exists (<[Z.to_nat p := l ++ [e]]> row).
        destruct (decide (p' = p)) as [->|Hnp].
        -- rewrite Hl in Hl'. injection Hl' as <-. exists (l ++ [e]).
           rewrite list_lookup_insert_eq by lia. split; [done|].
           rewrite list_lookup_insert_eq by lia. split; [done|]. apply elem_of_app. by left.
        -- exists l'. rewrite list_lookup_insert_eq by lia. split; [done|].
           by rewrite list_lookup_insert_ne by lia.
      * exists r, l'. by rewrite list_lookup_insert_ne by lia.
    + exists (<[Z.to_nat p := l ++ [e]]> row), (l ++ [e]).
      rewrite !list_lookup_insert_eq by lia. split; [done|]. split; [done|].
      apply elem_of_app. right. by apply list_elem_of_singleton.
Qed.

(** What one initializer contributes: an entry per preceding and following
    command. *)
Definition init_has (levels cmds : ImplDef) (ts : TimingConsInitializer) (level p : Z)
    (t : TimingConsEntry) : Prop :=
  def_of_name levels (ti_level ts) = Ok level /\
  exists pn fn f, pn ∈ ti_preceding ts /\ def_of_name cmds pn = Ok p /\
    fn ∈ ti_following ts /\ def_of_name cmds fn = Ok f /\
    t = TimingConsEntry_ctor f (ti_latency ts) (ti_window ts) (ti_is_sibling ts).

Lemma push_following_has cmds ts level p fs tc tc' level' p' t :
  push_following cmds ts level p fs tc = Ok tc' ->
  tc_has tc' level' p' t <-> tc_has tc level' p' t \/
    (level' = level /\ p' = p /\ exists fn f, fn ∈ fs /\ def_of_name cmds fn = Ok f /\
       t = TimingConsEntry_ctor f (ti_latency ts) (ti_window ts) (ti_is_sibling ts)).
Proof.
  revert tc. induction fs as [|fn fs IH]; cbn; intros tc H.
  { res_inv. split; [by left|]. intros [?|(_ & _ & fn & f & Hin & _)]; [done|].
    by apply not_elem_of_nil in Hin. }
  apply bind_Ok in H as (f & Hf & H). apply bind_Ok in H as (tc1 & Hp & H).
  rewrite (IH _ H), (push_entry_has _ _ _ _ _ _ _ _ Hp). setoid_rewrite elem_of_cons. split.
  - intros [[?|(-> & -> & ->)]|(-> & -> & fn' & f' & ? & ? & ?)];
      [by left|right|right]; do 2 (split; [done|]); eauto 10.
  - intros [?|(-> & -> & fn' & f' & [->|?] & Hf' & ->)]; [by auto| |].
    + assert (f' = f) as -> by congruence. by auto.
    + right. do 2 (split; [done|]). eauto 10.
Qed.

Lemma push_preceding_has cmds ts level ps tc tc' level' p' t :
  push_preceding cmds ts level ps tc = Ok tc' ->
  tc_has tc' level' p' t <-> tc_has tc level' p' t \/
    (level' = level /\ exists pn fn f, pn ∈ ps /\ def_of_name cmds pn = Ok p' /\
       fn ∈ ti_following ts /\ def_of_name cmds fn = Ok f /\
       t = TimingConsEntry_ctor f (ti_latency ts) (ti_window ts) (ti_is_sibling ts)).
Proof.
  revert tc. induction ps as [|pn ps IH]; cbn; intros tc H.
  { res_inv. split; [by left|]. intros [?|(_ & pn & fn & f & Hin & _)]; [done|].
    by apply not_elem_of_nil in Hin. }
  apply bind_Ok in H as (p & Hp & H). apply bind_Ok in H as (tc1 & Hf & H).
  rewrite (IH _ H), (push_following_has _ _ _ _ _ _ _ _ _ _ Hf). setoid_rewrite elem_of_cons. split.
  - intros [[?|(-> & -> & fn & f & ? & ? & ?)]|(-> & pn' & fn & f & ? & ? & ? & ? & ?)];
      [by left|right|right]; (split; [done|]); eauto 12.
  - intros [?|(-> & pn' & fn & f & [->|?] & Hp' & ? & ? & ?)]; [by auto| |].
    + assert (p' = p) as -> by congruence. left. right. eauto 10.
    + right. split; [done|]. eauto 12.
Qed.

Lemma populate_loop_has levels cmds inits tc tc' level p t :
  populate_loop levels cmds inits tc = Ok tc' ->
  tc_has tc' level p t <->
  tc_has tc level p t \/ exists ts, ts ∈ inits /\ init_has levels cmds ts level p t.
Proof.
  revert tc. induction inits as [|ts inits IH]; cbn; intros tc H.
  { res_inv. split; [by left|]. intros [?|(ts & Hin & _)]; [done|].
    by apply not_elem_of_nil in Hin. }
  apply bind_Ok in H as (lv & Hlv & H). apply bind_Ok in H as (tc1 & Hp & H).
  rewrite (IH _ H), (push_preceding_has _ _ _ _ _ _ _ _ _ Hp). setoid_rewrite elem_of_cons.
  unfold init_has. split.
  - intros [[?|(-> & Hex)]|(ts' & ? & ?)]; [by left| |]; right; eauto 10.
  - intros [?|(ts' & [->|?] & Hl & Hex)]; [by auto| |].
    + assert (level = lv) as -> by congruence. by auto.
    + right. eauto 10.
Qed.

Lemma populate_timingcons_has levels cmds inits tc level p t :
  populate_timingcons levels cmds inits = Ok tc ->
  tc_has tc level p t <-> exists ts, ts ∈ inits /\ init_has levels cmds ts level p t.
Proof.
  intros H. rewrite (populate_loop_has _ _ _ _ _ _ _ _ H). split; [|by right].
  intros [(row & l & [_ [-> _]%lookup_replicate]%vget_Ok & [_ [-> _]%lookup_replicate]%vget_Ok & Ht)|?];
    [by apply not_elem_of_nil in Ht|done].
Qed.

Lemma cons_of_has sp level p t :
  tc_has (m_timing_cons sp) level p t <-> exists l, cons_of sp level p = Ok l /\ t ∈ l.
Proof.
  unfold tc_has, cons_of. split.
  - intros (row & l & Hr & Hl & Ht). exists l. split; [|done]. apply bind_Ok. eauto.
  - intros (l & (row & Hr & Hl)%bind_Ok & Ht). eauto.
Qed.

Lemma windows_ok_populate sp levels cmds inits :
  populate_timingcons levels cmds inits = Ok (m_timing_cons sp) ->
  Forall (fun ts => 1 <= ti_window ts) inits -> windows_ok sp.
Proof.
  intros Hp Hw level p l t Hl Ht.
  assert (tc_has (m_timing_cons sp) level p t) as Hh by (apply cons_of_has; eauto).
  apply (populate_timingcons_has _ _ _ _ _ _ _ Hp) in Hh
    as (ts & Hts & _ & pn & fn & f & _ & _ & _ & _ & ->).
  apply list_elem_of_In in Hts. rewrite List.Forall_forall in Hw. specialize (Hw _ Hts).
  cbn. destruct (Z.ltb_spec (ti_window ts) 0); lia.
Qed.

(** ** Lambdas change states and open rows only *)
Lemma fget_elem {F} (m : FuncMatrix F) l c f : fget m l c = Some f -> exists k, (k, f) ∈ m.
Proof.
  unfold fget. destruct (find _ m) as [[k g]|] eqn:E; [|done].
  intros H. apply find_some in E as [E _]. destruct k as [l' c']. injection H as <-.
  exists (l', c'). by apply list_elem_of_In.
Qed.

Section Frame.
Context (levels commands states : ImplDef).

Lemma skel_close_bank n : skel (close_bank states n) = skel n.
Proof. by destruct n. Qed.

Lemma map_skel (f : Node -> Node) (l : list Node) :
  (forall n, skel (f n) = skel n) -> skel <$> (f <$> l) = skel <$> l.
Proof. intros Hf. induction l as [|x l IH]; [done|]. cbn. by rewrite Hf, IH. Qed.

Lemma skel_map_children f n :
  (forall n, skel (f n) = skel n) -> skel (map_children f n) = skel n.
Proof. intros Hf. by apply skel_set_children, map_skel. Qed.

Lemma skel_map_grandchildren f n :
  (forall n, skel (f n) = skel n) -> skel (map_grandchildren f n) = skel n.
Proof.
  intros Hf. apply skel_set_children, map_skel. intros bg. by apply skel_set_children, map_skel.
Qed.

Lemma frame_Bank_ACT : frame_action (Action_Bank_ACT states).
Proof. intros n c t clk n' [= <-]. by destruct n. Qed.

Lemma frame_Bank_PRE : frame_action (Action_Bank_PRE states).
Proof. intros n c t clk n' [= <-]. by destruct n. Qed.

Lemma frame_Rank_PREab : frame_action (Action_Rank_PREab levels states).
Proof.
  intros n c t clk n'. unfold Action_Rank_PREab. repeat case_match; intros [= <-];
    auto using skel_map_children, skel_map_grandchildren, skel_close_bank.
Qed.

Lemma frame_Rank_REFab : frame_action (Action_Rank_REFab states).
Proof. intros n c t clk n' [= <-]. auto using skel_map_grandchildren, skel_set_state. Qed.

Lemma frame_Rank_REFab_end : frame_action (Action_Rank_REFab_end states).
Proof. intros n c t clk n' [= <-]. auto using skel_map_grandchildren, skel_set_state. Qed.

Lemma frame_Bank_VRR : frame_action (Action_Bank_VRR states).
Proof. intros n c t clk n' [= <-]. by destruct n. Qed.

Lemma frame_Bank_VRR_end : frame_action (Action_Bank_VRR_end states).
Proof. intros n c t clk n' [= <-]. by destruct n. Qed.

Lemma skel_on_target t f n : (forall n, skel (f n) = skel n) -> skel (on_target t f n) = skel n.
Proof. intros Hf. unfold on_target. by destruct (_ =? _). Qed.

Lemma frame_BankGroup_PREsb : frame_action (Action_BankGroup_PREsb states).
Proof. intros n c t clk n' [= <-]. auto using skel_map_children, skel_on_target, skel_close_bank. Qed.

Lemma frame_BankGroup_REFsb : frame_action (Action_BankGroup_REFsb states).
Proof. intros n c t clk n' [= <-]. auto using skel_map_children, skel_on_target, skel_set_state. Qed.

Lemma frame_BankGroup_REFsb_end : frame_action (Action_BankGroup_REFsb_end states).
Proof. intros n c t clk n' [= <-]. auto using skel_map_children, skel_on_target, skel_close_bank. Qed.

Lemma frame_Channel_PREab : frame_action (Action_Channel_PREab levels states).
Proof.
  intros n c t clk n'. unfold Action_Channel_PREab. repeat case_match; intros [= <-];
    auto using skel_map_children, skel_map_grandchildren, skel_close_bank.
Qed.
End Frame.

#[export] Hint Resolve frame_Bank_ACT frame_Bank_PRE frame_Rank_PREab frame_Rank_REFab
  frame_Rank_REFab_end frame_Bank_VRR frame_Bank_VRR_end frame_BankGroup_PREsb frame_BankGroup_REFsb
  frame_BankGroup_REFsb_end frame_Channel_PREab : mem.
