(* ===== verification/DramConfig.v ===== *)
(** * Configuration steps common to the DRAM standards

    The parameters a standard reads from the groups [org] and [timing], and the
    parts of [set_organization] and [set_timing_vals] every standard repeats. *)
From Stdlib Require Import String Ascii.
From S2P Require Import Prelude CxxFloat Utils DramSpec.

Record OrgParams : Type := mkOrgParams {
  org_preset : option string;
  org_channel_width : option Z;
  org_dq : option Z;
  org_level : string -> option Z;
  org_density : option Z;
}.

Record TimingParams : Type := mkTimingParams {
  tim_preset : option string;
  tim_rate : option Z;
  tim_cycles : string -> option Z;
  tim_ns : string -> option spec_float;
}.

Definition preset_get {V} (presets : list (string * V)) (name : string) : option V :=
  match find (fun e => String.eqb (fst e) name) presets with
  | Some (_, v) => Some v
  | None => None
  end.

(** The preset, then the overrides of [dq], the levels and the density. *)
Definition load_organization (levels : ImplDef) (presets : list (string * Organization))
    (p : OrgParams) : res Organization :=
  o ← (match org_preset p with
       | None => Ok (mkOrganization (-1) (-1) (replicate (List.length levels) (-1)))
       | Some name =>
           match preset_get presets name with
           | Some o => Ok o
           | None => Err (Exc "Unrecognized organization preset")
           end
       end);
  Ok (mkOrganization (default (density o) (org_density p)) (default (dq o) (org_dq p))
        (zip_with (fun name c => default c (org_level p name)) levels (count o))).

(** [size_t] product of the sizes and the DQ width, in Mb, against the density
    (an [int] compared as a [size_t]). *)
Definition check_density (sizes : list Z) (o : Organization) : res Organization :=
  let d := Z.shiftr (foldl (fun acc x => u64 (acc * u64 x)) 1 (sizes ++ [dq o])) 20 in
  if u64 (density o) =? d then Ok o else Err (Exc "density mismatch").

(** [m_timing_vals(name)] *)
Definition tval (timings : ImplDef) (vals : list Z) (name : string) : res Z :=
  i ← def_of_name timings name; vget vals i.

Definition tset (timings : ImplDef) (name : string) (v : Z) (vals : list Z) : res (list Z) :=
  i ← def_of_name timings name; vset vals i v.

(** Preset and transfer rate. *)
Definition load_timing_preset (timings : ImplDef) (presets : list (string * list Z))
    (p : TimingParams) : res (list Z) :=
  '(vals, preset_provided) ←
    (match tim_preset p with
     | None => Ok (replicate (List.length timings) (-1), false)
     | Some name =>
         match preset_get presets name with
         | Some v => Ok (v, true)
         | None => Err (Exc "Unrecognized timing preset")
         end
     end);
  match tim_rate p with
  | None => Ok vals
  | Some r =>
      if preset_provided : bool then Err (Exc "Cannot change the transfer rate")
      else tset timings "rate" r vals
  end.

(** [switch] tables: the position of a value in a list of cases, -1 by default. *)
Definition switch_id (cases : list Z) (x : Z) : Z :=
  match list_find (fun y => y = x) cases with
  | Some (i, _) => Z.of_nat i
  | None => -1
  end.

Definition table2 (t : list (list Z)) (i j : Z) : res Z := row ← vget t i; vget row j.

(** The user's values, in cycles ([nRCD]) or in nanoseconds ([tRCD]), for every
    timing but the first ([rate]) and the last ([tCK_ps]). *)
Definition in_ns (name : string) : string := String "t"%char (substring 1 (String.length name - 1) name).

Fixpoint override_timings (rounding : spec_float -> Z -> res Z) (tCK_ps : Z) (p : TimingParams)
    (ids : list Z) (timings : ImplDef) (vals : list Z) : res (list Z) :=
  match ids with
  | [] => Ok vals
  | i :: rest =>
      name ← name_of_id timings i;
      vals ← (match tim_cycles p name with
              | Some v => vset vals i v
              | None =>
                  match tim_ns p (in_ns name) with
                  | Some t => n ← rounding t tCK_ps; vset vals i (i32 n)
                  | None => Ok vals
                  end
              end);
      override_timings rounding tCK_ps p rest timings vals
  end.

Definition check_timings (vals : list Z) : res (list Z) :=
  if forallb (fun v => negb (v =? -1)) vals then Ok vals else Err (Exc "timing is not specified").

(** A value computed in [int]: overflow is undefined. *)
Definition int32 (x : Z) : res Z := if (- 2 ^ 31 <=? x) && (x <? 2 ^ 31) then Ok x else Err Undef.

(** [int tCK_ps = 1E6 / (rate / 2)], computed in [double]. *)
Definition tCK_of_rate (rate : Z) : res Z :=
  fto_i32 (F64.div (F64.of_Z 1000000) (F64.of_Z (Z.quot rate 2))).

(** The preset with its transfer rate and clock period. *)
Definition base_timings (timings : ImplDef) (presets : list (string * list Z)) (p : TimingParams)
    : res (list Z * Z * Z) :=
  vals ← load_timing_preset timings presets p;
  rate ← tval timings vals "rate";
  tCK_ps ← tCK_of_rate rate;
  vals ← tset timings "tCK_ps" tCK_ps vals;
  Ok (vals, rate, tCK_ps).

(** [m_timing_vals(name) = rounding(ns, tCK_ps)] *)
Definition tset_ns (rounding : spec_float -> Z -> res Z) (timings : ImplDef) (tCK_ps : Z)
    (name : string) (ns : Z) (vals : list Z) : res (list Z) :=
  n ← rounding (F32.of_Z ns) tCK_ps; tset timings name (i32 n) vals.

(** The user's values, then the check that nothing is left unset. *)
Definition final_timings (rounding : spec_float -> Z -> res Z) (timings : ImplDef) (tCK_ps : Z)
    (p : TimingParams) (vals : list Z) : res (list Z) :=
  vals ← override_timings rounding tCK_ps p (seqZ 1 (Z.of_nat (List.length timings) - 2)) timings vals;
  check_timings vals.
