(* ===== verification/Device.v ===== *)
(** * DRAM devices: the operations the standards share

    Every class of [dram/impl] has the same [init], [issue_command], [tick] and
    queries, written out again for its own tables.  [Standard] collects the
    tables; the operations below are those of [DDR4.cpp] over them, with
    the power model disabled, as it is by default ([drampower_enable]); the
    device with the power model enabled is built from this one in [Power]. *)
From Stdlib Require Import String.
From S2P Require Import Prelude Utils DramSpec DramNode DramConfig.
Local Open Scope string_scope.
Local Open Scope Z_scope.

Record Standard : Type := mkStandard {
  st_levels : ImplDef;
  st_commands : ImplDef;
  st_states : ImplDef;
  st_timings : ImplDef;
  st_requests : ImplDef;
  st_scopes : res (list Z);
  st_meta : res (list DRAMCommandMeta);
  st_translations : res (list Z);
  st_init_states : res (list Z);
  st_organization : OrgParams -> res (Z * Organization);
  st_timing_vals : TimingParams -> Organization -> res (list Z);
  st_read_latency : list Z -> res Z;
  (** The argument of [populate_timingcons]; the function reads a timing value. *)
  st_initializers : (string -> Z) -> list TimingConsInitializer;
  st_actions : FuncMatrix ActionFunc;
  st_preqs : FuncMatrix PreqFunc;
  st_rowhits : FuncMatrix RowFunc;
  st_rowopens : FuncMatrix RowFunc;
  (** Commands with a future action: the command whose action ends it and the
      timing after which it does.  Standards without [m_future_actions] have
      none. *)
  st_futures : list (string * string * string);
}.

Module Dev.
Record Device : Type := mkDevice {
  d_spec : Spec;
  d_timing_vals : list Z;
  d_read_latency : Z;
  d_channel_width : Z;
}.

Record State : Type := mkState {
  m_clk : Z;
  m_channels : list Node;
  m_future_actions : list FutureAction;
}.

Section Device.
Context (σ : Standard).

Definition lvl (name : string) : Z := def_id (st_levels σ) name.
Definition cmd (name : string) : Z := def_id (st_commands σ) name.

(** ** [init] *)
Definition create_nodes (sp : Spec) : res (list Node) :=
  num_channels ← vget (count (m_organization sp)) (lvl "channel");
  (fix make (ids : list Z) : res (list Node) :=
     match ids with
     | [] => Ok []
     | i :: ids =>
         c ← new_node sp (List.length (st_levels σ)) 0 i; cs ← make ids; Ok (c :: cs)
     end) (seqZ 0 num_channels).

Definition set_timing_vals (p : TimingParams) (o : Organization) : res (list Z * Z * TimingCons) :=
  vals ← st_timing_vals σ p o;
  lat ← st_read_latency σ vals;
  tc ← populate_timingcons (st_levels σ) (st_commands σ)
         (st_initializers σ (fun name => from_res (-1) (tval (st_timings σ) vals name)));
  Ok (vals, lat, tc).

Definition init (po : OrgParams) (pt : TimingParams) : res (Device * State) :=
  scopes ← st_scopes σ;
  inits ← st_init_states σ;
  '(width, o) ← st_organization σ po;
  '(vals, lat, tc) ← set_timing_vals pt o;
  let sp := mkSpec (st_levels σ) (st_commands σ) (st_states σ) scopes inits o tc
              (st_actions σ) (st_preqs σ) (st_rowhits σ) (st_rowopens σ) in
  channels ← create_nodes sp;
  Ok (mkDevice sp vals lat width, mkState 0 channels []).

(** ** Issuing commands *)
Definition upd_channel (f : Node -> res Node) (addr_vec : list Z) (s : State) : res State :=
  ch ← vget addr_vec (lvl "channel");
  n ← vget (m_channels s) ch;
  n ← f n;
  chs ← vset (m_channels s) ch n;
  Ok (mkState (m_clk s) chs (m_future_actions s)).

Definition future_of (command : Z) : option (string * string * string) :=
  List.find (fun e => command =? cmd e.1.1) (st_futures σ).

Definition check_future_action (d : Device) (command : Z) (addr_vec : list Z) (s : State)
    : res State :=
  match future_of command with
  | Some (_, _, timing) =>
      n ← tval (st_timings σ) (d_timing_vals d) timing;
      Ok (mkState (m_clk s) (m_channels s)
            (m_future_actions s ++ [mkFutureAction command addr_vec (m_clk s + n - 1)]))
  | None => Ok s
  end.

Definition handle_future_action (d : Device) (command : Z) (addr_vec : list Z) (s : State)
    : res State :=
  match future_of command with
  | Some (_, end_command, _) =>
      upd_channel (update_states (d_spec d) (List.length (st_levels σ)) (cmd end_command) addr_vec (m_clk s))
        addr_vec s
  | None => Ok s
  end.

Definition issue_command (d : Device) (command : Z) (addr_vec : list Z) (s : State) : res State :=
  s ← upd_channel (update_timing (d_spec d) command addr_vec (m_clk s)) addr_vec s;
  s ← upd_channel (update_states (d_spec d) (List.length (st_levels σ)) command addr_vec (m_clk s))
        addr_vec s;
  check_future_action d command addr_vec s.

(** The loop of [tick] runs from the last future action to the first. *)
Fixpoint future_loop (d : Device) (i : nat) (s : State) : res State :=
  match i with
  | O => Ok s
  | S i =>
      match m_future_actions s !! i with
      | None => Err Undef
      | Some fa =>
          if fa_clk fa =? m_clk s then
            s ← handle_future_action d (fa_cmd fa) (fa_addr_vec fa) s;
            future_loop d i (mkState (m_clk s) (m_channels s) (delete i (m_future_actions s)))
          else future_loop d i s
      end
  end.

Definition tick (d : Device) (s : State) : res State :=
  let s := mkState (m_clk s + 1) (m_channels s) (m_future_actions s) in
  future_loop d (List.length (m_future_actions s)) s.

(** ** Queries *)
Definition on_channel {A} (f : Node -> res A) (addr_vec : list Z) (s : State) : res A :=
  ch ← vget addr_vec (lvl "channel"); n ← vget (m_channels s) ch; f n.

Definition get_preq_command (d : Device) (command : Z) (addr_vec : list Z) (s : State) : res Z :=
  on_channel (DramNode.get_preq_command (d_spec d) command addr_vec (m_clk s)) addr_vec s.

Definition check_ready (d : Device) (command : Z) (addr_vec : list Z) (s : State) : res bool :=
  on_channel (DramNode.check_ready (d_spec d) command addr_vec (m_clk s)) addr_vec s.

Definition check_rowbuffer_hit (d : Device) (command : Z) (addr_vec : list Z) (s : State)
    : res bool :=
  on_channel (DramNode.check_rowbuffer_hit (d_spec d) command addr_vec (m_clk s)) addr_vec s.

Definition check_node_open (d : Device) (command : Z) (addr_vec : list Z) (s : State) : res bool :=
  on_channel (DramNode.check_node_open (d_spec d) command addr_vec (m_clk s)) addr_vec s.
End Device.
End Dev.
