(* ===== verification/DeviceFacts.v ===== *)
(** * Correctness of the devices

    For any standard: runs of the device, the invariant that ties the tree to the
    issue history, and the guarantee that a run which issues only commands that
    [check_ready] accepts respects every timing constraint of the standard. *)
From Stdlib Require Import String.
From S2P Require Import Prelude CxxFloat Utils DramSpec DramNode DramLambdas DramTiming.
From S2P Require Import DramSpecFacts DramConfig Device.
Local Open Scope string_scope.
Local Open Scope Z_scope.

Import Dev.

(** What a standard's tables must satisfy. *)
Record std_ok (σ : Standard) : Prop := {
  sto_channel : def_id (st_levels σ) "channel" = 0;
  sto_windows : forall V, Forall (fun i => 1 <= ti_window i) (st_initializers σ V);
  sto_actions : forall k f, (k, f) ∈ st_actions σ -> frame_action f;
  sto_scopes : exists l, st_scopes σ = Ok l /\ Forall (fun x => 0 <= x) l;
}.

(** Closes [std_ok] of a standard whose tables are lists. *)
Ltac solve_std_ok :=
  split; [reflexivity
         |intros; repeat (constructor; [cbn; lia|]); constructor
         |intros ? ? Hin; repeat (apply elem_of_cons in Hin as [[= _ ->]|Hin]; [auto with mem|]);
          by apply not_elem_of_nil in Hin
         |eexists; split; [reflexivity|repeat constructor; lia]].

(** A device configured by presets only. *)
Definition preset_org (name : string) : OrgParams :=
  mkOrgParams (Some name) None None (fun _ => None) None.
Definition preset_timing (name : string) : TimingParams :=
  mkTimingParams (Some name) None (fun _ => None) (fun _ => None).

Section Facts.
Context (σ : Standard) (Hσ : std_ok σ).

(** The value of a timing parameter of a device. *)
Definition V (d : Device) (name : string) : Z := from_res (-1) (tval (st_timings σ) (d_timing_vals d) name).

(** ** What [init] establishes *)
Record device_ok (d : Device) : Prop := {
  dok_levels : DramNode.m_levels (d_spec d) = st_levels σ;
  dok_scopes : st_scopes σ = Ok (m_command_scopes (d_spec d));
  dok_actions : m_actions (d_spec d) = st_actions σ;
  dok_preqs : m_preqs (d_spec d) = st_preqs σ;
  dok_rowhits : m_rowhits (d_spec d) = st_rowhits σ;
  dok_rowopens : m_rowopens (d_spec d) = st_rowopens σ;
  dok_cons : populate_timingcons (st_levels σ) (st_commands σ) (st_initializers σ (V d)) =
             Ok (m_timing_cons (d_spec d));
}.

Lemma init_device_ok po pt d s : init σ po pt = Ok (d, s) -> device_ok d.
Proof.
  unfold init. intros H. apply bind_Ok in H as (scopes & Hsc & H).
  apply bind_Ok in H as (inits & _ & H). apply bind_Ok in H as ([width o] & _ & H).
  apply bind_Ok in H as ([[vals lat] tc] & Ht & H). apply bind_Ok in H as (chs & _ & H).
  injection H as <- <-. unfold set_timing_vals in Ht.
  apply bind_Ok in Ht as (vals' & _ & Ht). apply bind_Ok in Ht as (lat' & _ & Ht).
  apply bind_Ok in Ht as (tc' & Hp & Ht).
  injection Ht as -> _ ->. by constructor.
Qed.

Lemma device_windows d : device_ok d -> windows_ok (d_spec d).
Proof.
  intros Hd. eapply windows_ok_populate; [apply (dok_cons _ Hd)|].
  apply (sto_windows σ Hσ).
Qed.

Lemma device_frame d : device_ok d -> frame_actions (d_spec d).
Proof.
  intros Hd level c f Hf. rewrite (dok_actions _ Hd) in Hf. apply fget_elem in Hf as (k & Hin).
  by eapply (sto_actions σ Hσ).
Qed.

Definition chan_hist (ch : Z) (H : list Issue) : NodeHist :=
  omap (fun e => if bool_decide (is_addr e !! 0%nat = Some ch) then Some (true, e) else None) H.

Record chan_inv (d : Device) (n0 : Node) (i : nat) (H : list Issue) (n : Node) : Prop := {
  ci_level : m_level n = 0;
  ci_id : m_node_id n = Z.of_nat i;
  ci_wf : wf_tree n;
  ci_shape : shape n = shape n0;
  ci_tracks : tracks (d_spec d) (chan_hist (Z.of_nat i) H) n;
}.

Definition chans_inv (d : Device) (s0 : State) (H : list Issue) (chs : list Node) : Prop :=
  forall i n, chs !! i = Some n -> exists n0, m_channels s0 !! i = Some n0 /\ chan_inv d n0 i H n.

Lemma chan_inv_skel d n0 i H n n' : skel n = skel n' -> chan_inv d n0 i H n -> chan_inv d n0 i H n'.
Proof.
  intros Hs [Hl Hid Hw Hsh Ht]. pose proof (proj1 (skel_eq _ _) Hs) as (El & Ei & _). constructor.
  - congruence.
  - congruence.
  - by rewrite <- wf_tree_skel, <- Hs, wf_tree_skel.
  - by rewrite <- Hsh, <- (shape_skel n), Hs, shape_skel.
  - by rewrite <- tracks_skel, <- Hs, tracks_skel.
Qed.

Lemma chans_inv_skel d s0 H chs chs' :
  skel <$> chs = skel <$> chs' -> chans_inv d s0 H chs -> chans_inv d s0 H chs'.
Proof.
  intros Hs Hinv i n' Hn'. assert ((skel <$> chs) !! i = Some (skel n')) as Hn.
  { by rewrite Hs, list_lookup_fmap, Hn'. }
  rewrite list_lookup_fmap in Hn. destruct (chs !! i) as [n|] eqn:E; [|done].
  injection Hn as Hn. destruct (Hinv i n E) as (n0 & H0 & Hc). exists n0. split; [done|].
  by eapply chan_inv_skel.
Qed.

(** ** Runs of the device

    With [ready] set, a command is only issued when [check_ready] accepts it,
    as the controller does. *)
Section Run.
Context (ready : bool) (d : Device) (s0 : State).

Inductive reach : State -> list Issue -> Prop :=
| reach_init : reach s0 []
| reach_tick s H s' : reach s H -> tick σ d s = Ok s' -> reach s' H
| reach_issue s H command addr_vec s' :
    reach s H ->
    (ready = true -> check_ready σ d command addr_vec s = Ok true) ->
    issue_command σ d command addr_vec s = Ok s' ->
    reach s' (mkIssue command addr_vec (m_clk s) :: H).
End Run.

Lemma lvl_channel : lvl σ "channel" = 0.
Proof. apply (sto_channel σ Hσ). Qed.

Lemma upd_channel_Ok f av s s' :
  upd_channel σ f av s = Ok s' ->
  exists ch n n', av !! 0%nat = Some (Z.of_nat ch) /\ m_channels s !! ch = Some n /\ f n = Ok n' /\
    s' = mkState (m_clk s) (<[ch := n']> (m_channels s)) (m_future_actions s).
Proof.
  unfold upd_channel. rewrite lvl_channel. intros H. apply bind_Ok in H as (ch & [_ Hch]%vget_Ok & H).
  apply bind_Ok in H as (n & [Hc Hn]%vget_Ok & H). apply bind_Ok in H as (n' & Hf & H).
  apply bind_Ok in H as (chs & [_ ->]%vset_Ok & H). injection H as <-.
  exists (Z.to_nat ch), n, n'. rewrite Z2Nat.id by done. done.
Qed.

Lemma upd_states_skel d depth c av clk s s' :
  device_ok d -> upd_channel σ (update_states (d_spec d) depth c av clk) av s = Ok s' ->
  m_clk s' = m_clk s /\ skel <$> m_channels s' = skel <$> m_channels s /\
  m_future_actions s' = m_future_actions s.
Proof.
  intros Hd (ch & n & n' & _ & Hn & Hu & ->)%upd_channel_Ok. split; [done|]. split; [|done]. cbn.
  rewrite list_fmap_insert, (update_states_skel _ _ _ _ _ _ _ (device_frame d Hd) Hu).
  apply list_insert_id. by rewrite list_lookup_fmap, Hn.
Qed.

Lemma future_loop_skel d i s s' :
  device_ok d -> future_loop σ d i s = Ok s' ->
  m_clk s' = m_clk s /\ skel <$> m_channels s' = skel <$> m_channels s.
Proof.
  intros Hd. revert s. induction i as [|i IH]; cbn; intros s H; [by injection H as <-|].
  destruct (m_future_actions s !! i) as [fa|]; [|done]. destruct (_ =? _); [|by apply IH].
  apply bind_Ok in H as (s1 & Hh & H). apply IH in H as [Hc Hs]. cbn in Hc, Hs.
  unfold handle_future_action in Hh. destruct (future_of σ _) as [[[? ?] ?]|].
  - apply upd_states_skel in Hh as (? & ? & _); [|done]. split; congruence.
  - injection Hh as <-. done.
Qed.

Lemma check_future_action_channels d c av s s' :
  check_future_action σ d c av s = Ok s' -> m_clk s' = m_clk s /\ m_channels s' = m_channels s.
Proof. unfold check_future_action. destruct (future_of σ _) as [[[? ?] ?]|]; intros; res_inv; done. Qed.

Definition run_inv (d : Device) (s0 s : State) (H : list Issue) : Prop :=
  0 <= m_clk s /\ Forall (fun e => 0 <= is_clk e) H /\ chans_inv d s0 H (m_channels s).

Lemma chan_hist_nonneg i H : Forall (fun e => 0 <= is_clk e) H -> clks_nonneg (chan_hist i H).
Proof.
  unfold clks_nonneg, chan_hist. induction 1 as [|e H He _ IH]; cbn; [constructor|].
  case_bool_decide; [by constructor|done].
Qed.

Lemma issue_timing_inv d s0 s H c av s' :
  device_ok d -> run_inv d s0 s H ->
  upd_channel σ (update_timing (d_spec d) c av (m_clk s)) av s = Ok s' ->
  chans_inv d s0 (mkIssue c av (m_clk s) :: H) (m_channels s').
Proof.
  intros Hd (Hclk & Hnn & Hinv) (ch & n & n' & Hch & Hn & Hu & ->)%upd_channel_Ok.
  cbn [m_channels]. intros i m Hm. set (e := mkIssue c av (m_clk s)) in *.
  destruct (decide (i = ch)) as [->|Hne].
  - rewrite list_lookup_insert_eq in Hm by (by eapply lookup_lt_Some). injection Hm as <-.
    destruct (Hinv _ _ Hn) as (n0 & H0 & [Hl Hid Hw Hsh Ht]). exists n0. split; [done|].
    destruct (update_timing_node (d_spec d) e n n' Hu) as [Hl' Hid'].
    pose proof (update_timing_shape _ _ _ _ _ _ Hu) as Hs'.
    constructor; [congruence|congruence| |congruence|].
    + by rewrite <- wf_tree_shape, Hs', wf_tree_shape.
    + pose proof (update_timing_tracks (d_spec d) e n _ n' (device_windows d Hd) Hclk
                    (chan_hist_nonneg _ _ Hnn) Ht Hu) as Ht'.
      rewrite Hl, Hid in Ht'. replace (hit 0 (Z.of_nat ch) e) with true in Ht'
        by (unfold hit, e; cbn [is_addr]; change (Z.to_nat 0) with 0%nat;
            rewrite Hch, Z.eqb_refl; done).
      cbn [chan_hist omap list_omap]. by rewrite bool_decide_true.
  - rewrite list_lookup_insert_ne in Hm by done. destruct (Hinv _ _ Hm) as (n0 & H0 & [Hl Hid Hw Hsh Ht]).
    exists n0. split; [done|]. constructor; try done. cbn [chan_hist omap list_omap].
    rewrite bool_decide_false; [done|]. unfold e. cbn [is_addr]. rewrite Hch. intros [= ?]. lia.
Qed.

Lemma issue_inv d s0 s H c av s' :
  device_ok d -> run_inv d s0 s H -> issue_command σ d c av s = Ok s' ->
  m_clk s' = m_clk s /\ chans_inv d s0 (mkIssue c av (m_clk s) :: H) (m_channels s').
Proof.
  intros Hd Hinv Hi. unfold issue_command in Hi. apply bind_Ok in Hi as (s1 & H1 & Hi).
  apply bind_Ok in Hi as (s2 & H2 & H3).
  pose proof (issue_timing_inv _ _ _ _ _ _ _ Hd Hinv H1) as Hc1.
  apply upd_channel_Ok in H1 as (? & ? & ? & _ & _ & _ & ->).
  apply upd_states_skel in H2 as (Hc2 & Hs2 & _); [|done].
  apply check_future_action_channels in H3 as [-> ->]. split; [done|].
  by eapply chans_inv_skel.
Qed.

Lemma create_nodes_inv d s :
  create_nodes σ (d_spec d) = Ok (m_channels s) -> chans_inv d s [] (m_channels s).
Proof.
  intros H i n Hn. exists n. split; [done|]. unfold create_nodes in H.
  apply bind_Ok in H as (num & _ & H).
  assert (exists id, seqZ 0 num !! i = Some id /\ new_node (d_spec d) (List.length (st_levels σ)) 0 id = Ok n) as (id & Hid & Hnn).
  { clear -H Hn. revert H Hn. generalize (seqZ 0 num) as ids. generalize (m_channels s) as chs.
    intros chs ids. revert chs i. induction ids as [|k ids IH]; intros chs i H Hn.
    - injection H as <-. done.
    - apply bind_Ok in H as (c & Hc & H). apply bind_Ok in H as (cs & Hcs & H). injection H as <-.
      destruct i as [|i]; [injection Hn as <-; by exists k|]. by apply (IH cs i). }
  apply lookup_seqZ in Hid as [-> _].
  destruct (new_node_ok _ _ _ _ _ (Z.le_refl 0) Hnn) as (Hl & Hid & Hw & Ht). by constructor.
Qed.

Lemma init_run_inv po pt d s0 : init σ po pt = Ok (d, s0) -> run_inv d s0 s0 [].
Proof.
  intros H. unfold init in H. apply bind_Ok in H as (scopes & Hsc & H).
  apply bind_Ok in H as (inits & _ & H). apply bind_Ok in H as ([width o] & _ & H).
  apply bind_Ok in H as ([[vals lat] tc] & Ht & H). apply bind_Ok in H as (chs & Hch & H).
  injection H as <- <-. split; [done|]. split; [constructor|].
  apply (create_nodes_inv (mkDevice _ vals lat width) (mkState 0 chs [])). exact Hch.
Qed.

Lemma reach_run_inv r po pt d s0 s H :
  init σ po pt = Ok (d, s0) -> reach r d s0 s H -> run_inv d s0 s H.
Proof.
  intros Hi Hr. pose proof (init_device_ok _ _ _ _ Hi) as Hd.
  induction Hr as [|s H s' Hr IH Ht|s H c av s' Hr IH Hg Hc].
  - by eapply init_run_inv.
  - destruct IH as (Hclk & Hnn & Hinv). unfold tick in Ht.
    apply future_loop_skel in Ht as [Hc Hs]; [|done]. cbn in Hc, Hs.
    split; [lia|]. split; [done|]. by eapply chans_inv_skel.
  - pose proof IH as (Hclk & Hnn & _). destruct (issue_inv _ _ _ _ _ _ _ Hd IH Hc) as [Hc' Hinv].
    split; [lia|]. split; [by constructor|done].
Qed.

Lemma check_ready_allowed po pt d s0 r s H c av scope b :
  init σ po pt = Ok (d, s0) -> reach r d s0 s H ->
  vget (m_command_scopes (d_spec d)) c = Ok scope -> 0 <= scope ->
  check_ready σ d c av s = Ok b ->
  exists ch n0, av !! 0%nat = Some (Z.of_nat ch) /\ m_channels s0 !! ch = Some n0 /\
    m_level n0 = 0 /\
    (b = true <->
     allowed_below (d_spec d) n0 (chan_hist (Z.of_nat ch) H) c av scope (m_clk s)).
Proof.
  intros Hi Hr Hsc Hs0 Hc. pose proof (reach_run_inv _ _ _ _ _ _ _ Hi Hr) as (Hclk & _ & Hinv).
  unfold check_ready, on_channel in Hc. rewrite lvl_channel in Hc. apply bind_Ok in Hc as (ch & [_ Hch]%vget_Ok & Hc).
  apply bind_Ok in Hc as (n & [Hpos Hn]%vget_Ok & Hc).
  destruct (Hinv _ _ Hn) as (n0 & H0 & [Hl Hid Hw Hsh Ht]). exists (Z.to_nat ch), n0.
  split; [by rewrite Z2Nat.id|]. split; [done|].
  assert (m_level n0 = 0) as Hl0.
  { rewrite <- Hl. destruct (shape_fields n) as (<- & _). destruct (shape_fields n0) as (<- & _).
    by rewrite Hsh. }
  split; [done|]. rewrite <- (allowed_below_shape _ _ _ _ _ _ _ _ Hsh).
  eapply check_ready_decides; [done|done|done|lia|done|done].
Qed.

Lemma scope_nonneg d c scope :
  device_ok d -> vget (m_command_scopes (d_spec d)) c = Ok scope -> 0 <= scope.
Proof.
  intros Hd [_ Hv]%vget_Ok. destruct (sto_scopes σ Hσ) as (l & Hl & Hf).
  rewrite (dok_scopes _ Hd) in Hl. injection Hl as <-.
  by apply (Forall_lookup_1 (fun x => 0 <= x) _ _ _ Hf Hv).
Qed.

(** ** Timing safety of disciplined runs *)
Lemma reach_split r d s0 s H :
  reach r d s0 s H -> forall H1 e H2, H = (H1 ++ e :: H2)%list ->
  exists s1 s2, reach r d s0 s1 H2 /\ is_clk e = m_clk s1 /\
    (r = true -> check_ready σ d (is_cmd e) (is_addr e) s1 = Ok true) /\
    issue_command σ d (is_cmd e) (is_addr e) s1 = Ok s2.
Proof.
  induction 1 as [|s H s' Hr IH Ht|s H c av s' Hr IH Hg Hc]; intros H1 e H2 Heq.
  - by destruct H1.
  - by eapply IH.
  - destruct H1 as [|e1 H1]; simplify_eq/=; [by exists s, s'|by eapply IH].
Qed.

(** The constraint of an initializer, at a position of the tree. *)
Lemma allowed_initializer d level p t pn fn pc fc lat w sib E T :
  device_ok d ->
  mkInit level pn fn lat w sib ∈ st_initializers σ (V d) ->
  1 <= w ->
  forall lv, def_of_name (st_levels σ) level = Ok lv ->
  p ∈ pn -> def_of_name (st_commands σ) p = Ok pc -> t ∈ fn -> def_of_name (st_commands σ) t = Ok fc ->
  allowed (d_spec d) lv E fc T -> respects (mkEntry fc lat w sib) pc E T.
Proof.
  intros Hd Hin Hw lv Hlv Hp Hpc Ht Hfc Hall.
  assert (tc_has (m_timing_cons (d_spec d)) lv pc (mkEntry fc lat w sib)) as (l & Hl & Hel)%cons_of_has.
  { apply (populate_timingcons_has _ _ _ _ _ _ _ (dok_cons _ Hd)). eexists. split; [exact Hin|].
    split; [done|]. exists p, t, fc. cbn. do 4 (split; [done|]).
    unfold TimingConsEntry_ctor. by rewrite (proj2 (Z.ltb_ge w 0)) by lia. }
  by apply (Hall _ _ _ Hl Hel).
Qed.

(** The cycles at which a command was issued to the node at position [p] of a
    channel, newest first. *)
Definition issued (c ch : Z) (p : list Z) (H : list Issue) : list Z :=
  omap (fun e => if (is_cmd e =? c) && bool_decide (is_addr e !! 0%nat = Some ch) &&
                    addressed (is_addr e) 1 p
                 then Some (is_clk e) else None) H.

Lemma clks_hist_at c p l E :
  clks true c (hist_at l p E) =
  omap (fun '(b, e) => if b && (is_cmd e =? c) && addressed (is_addr e) l p
                       then Some (is_clk e) else None) E.
Proof.
  revert l E. induction p as [|i p IH]; intros l E.
  - unfold clks. cbn. induction E as [|[b e] E IHE]; [done|]. cbn.
    replace (Bool.eqb b true) with b by (by destruct b). by rewrite andb_true_r, IHE.
  - rewrite hist_at_child, IH. cbn [addressed]. unfold child_hist, hit.
    induction E as [|[[] e] E IHE]; cbn; [done| |done].
    rewrite IHE. clear IHE. destruct (is_addr e !! Z.to_nat l) as [a|]; cbn.
    + by destruct ((i =? a) || (a =? -1)), (is_cmd e =? c).
    + by destruct (is_cmd e =? c).
Qed.

Lemma clks_issued c ch p H :
  clks true c (hist_at 1 p (chan_hist ch H)) = issued c ch p H.
Proof.
  rewrite clks_hist_at. unfold chan_hist, issued. induction H as [|e H IH]; cbn; [done|].
  case_bool_decide; cbn; rewrite <- IH; destruct (is_cmd e =? c), (addressed _ _ _); done.
Qed.

(** A position below a channel of the device. *)
Definition has_node (s0 : State) (ch : Z) (p : list Z) : Prop :=
  exists n m, vget (m_channels s0) ch = Ok n /\ node_at p n = Some m.

Lemma ready_allowed_at po pt d s0 s H H1 e H2 scope ch p :
  init σ po pt = Ok (d, s0) -> reach true d s0 s H -> H = (H1 ++ e :: H2)%list ->
  vget (m_command_scopes (d_spec d)) (is_cmd e) = Ok scope ->
  is_addr e !! 0%nat = Some ch -> has_node s0 ch p ->
  addressed (is_addr e) 1 p = true -> Z.of_nat (List.length p) <= scope ->
  allowed (d_spec d) (Z.of_nat (List.length p)) (hist_at 1 p (chan_hist ch H2)) (is_cmd e) (is_clk e).
Proof.
  intros Hi Hr Heq Hsc Hch (n & m & [Hc0 Hn]%vget_Ok & Hm) Had Hlen.
  destruct (reach_split _ _ _ _ _ Hr _ _ _ Heq) as (s1 & s2 & Hr1 & -> & Hrd & _).
  pose proof (scope_nonneg _ _ _ (init_device_ok _ _ _ _ Hi) Hsc) as Hs0.
  destruct (check_ready_allowed _ _ _ _ _ _ _ _ _ _ _ Hi Hr1 Hsc Hs0 (Hrd eq_refl))
    as (ch' & n0 & Hch' & Hn0 & Hl0 & Hall).
  rewrite Hch in Hch'. injection Hch' as ->. rewrite Nat2Z.id, Hn0 in Hn. injection Hn as ->.
  assert (allowed_below (d_spec d) n (chan_hist (Z.of_nat ch') H2) (is_cmd e) (is_addr e) scope
            (m_clk s1)) as Hb by (by apply Hall).
  specialize (Hb p m Hm). rewrite Hl0 in Hb. apply Hb; [done|lia].
Qed.

(** Every constraint of the standard's table, at every node the command
    addresses down to its scope, holds for every command of the history against
    the commands before it. *)
Definition table_respected (d : Device) (s0 : State) (H : list Issue) : Prop :=
  forall H1 e H2 ch p i pre post pc scope,
    H = (H1 ++ e :: H2)%list -> is_addr e !! 0%nat = Some ch -> has_node s0 ch p ->
    addressed (is_addr e) 1 p = true ->
    vget (m_command_scopes (d_spec d)) (is_cmd e) = Ok scope -> Z.of_nat (List.length p) <= scope ->
    i ∈ st_initializers σ (V d) -> def_of_name (st_levels σ) (ti_level i) = Ok (Z.of_nat (List.length p)) ->
    pre ∈ ti_preceding i -> def_of_name (st_commands σ) pre = Ok pc ->
    post ∈ ti_following i -> def_of_name (st_commands σ) post = Ok (is_cmd e) ->
    respects (mkEntry (is_cmd e) (ti_latency i) (ti_window i) (ti_is_sibling i)) pc
      (hist_at 1 p (chan_hist ch H2)) (is_clk e).

Lemma ready_respects po pt d s0 s H :
  init σ po pt = Ok (d, s0) -> reach true d s0 s H -> table_respected d s0 H.
Proof.
  intros Hi Hr H1 e H2 ch p i pre post pc scope Heq Hch Hn Had Hsc Hle Hin Hlv Hpre Hpc Hpost Hfc.
  destruct i as [lv pn fn lat w sib]. cbn [ti_level ti_preceding ti_following ti_latency ti_window ti_is_sibling] in *.
  eapply (allowed_initializer d lv pre post pn fn pc); try done; [by eapply init_device_ok| |].
  - apply (proj1 (List.Forall_forall _ _) (sto_windows σ Hσ (V d)) _ (proj1 (list_elem_of_In _ _) Hin)).
  - by eapply ready_allowed_at.
Qed.

Lemma respects_all fc lat pc E T :
  respects (mkEntry fc lat 1 false) pc E T -> forall x, x ∈ clks true pc E -> x + lat <= T.
Proof.
  intros H x (k & Hk)%list_elem_of_lookup_1. apply (H k x); [cbn; lia|done].
Qed.

Lemma respects_window fc lat w pc E T x k :
  respects (mkEntry fc lat w false) pc E T -> Z.of_nat k = w - 1 ->
  clks true pc E !! k = Some x -> x + lat <= T.
Proof. intros H Hk Hx. apply (H k x); [cbn; lia|done]. Qed.

Lemma has_node_prefix s0 ch p q : has_node s0 ch (p ++ q)%list -> has_node s0 ch p.
Proof.
  intros (n & m & Hn & Hm).
  assert (exists m', node_at p n = Some m') as [m' Hm'] by
    (clear Hn; revert n Hm; induction p as [|i p IH]; intros n Hm; [by eexists|]; cbn in *;
     destruct (i <? 0); [done|]; destruct (m_child_nodes n !! _); [by apply IH|done]).
  by exists n, m'.
Qed.

(** A command for a bank, row or column was allowed at all four levels. *)
Lemma ready_path po pt d s0 s H H1 c ch ra bg ba rest T H2 scope :
  init σ po pt = Ok (d, s0) -> reach true d s0 s H ->
  H = (H1 ++ mkIssue c (ch :: ra :: bg :: ba :: rest) T :: H2)%list ->
  has_node s0 ch [ra; bg; ba] ->
  vget (m_command_scopes (d_spec d)) c = Ok scope -> 3 <= scope ->
  let E := chan_hist ch H2 in
  allowed (d_spec d) 0 E c T /\
  allowed (d_spec d) 1 (hist_at 1 [ra] E) c T /\
  allowed (d_spec d) 2 (hist_at 1 [ra; bg] E) c T /\
  allowed (d_spec d) 3 (hist_at 1 [ra; bg; ba] E) c T.
Proof.
  intros Hi Hr Heq Hn Hsc H3 E.
  assert (forall p q, (p ++ q)%list = [ra; bg; ba] ->
     allowed (d_spec d) (Z.of_nat (List.length p)) (hist_at 1 p E) c T) as Hall.
  { intros p q Hpq.
    assert (List.length p <= 3)%nat by (apply (f_equal (@List.length _)) in Hpq; rewrite length_app in Hpq; cbn in Hpq; lia).
    assert (addressed (ch :: ra :: bg :: ba :: rest) 1 p = true).
    { destruct p as [|? [|? [|? [|? p]]]]; simplify_eq/=; rewrite ?Z.eqb_refl; done. }
    eapply (ready_allowed_at _ _ _ _ _ _ _ (mkIssue c _ T) _ _ _ p Hi Hr Heq Hsc eq_refl);
      [|done|lia]. apply (has_node_prefix _ _ p q). by rewrite Hpq. }
  split; [apply (Hall [] [ra; bg; ba] eq_refl)|]. split; [apply (Hall [ra] [bg; ba] eq_refl)|].
  split; [apply (Hall [ra; bg] [ba] eq_refl)|apply (Hall [ra; bg; ba] [] eq_refl)].
Qed.

(** ** Scripts: concrete disciplined runs *)
Inductive Op : Type :=
| Tick
| Issue_to (command : Z) (addr_vec : list Z).

Definition exec1 (d : Device) (o : Op) (x : State * list Issue) : res (State * list Issue) :=
  let '(s, H) := x in
  match o with
  | Tick => s ← tick σ d s; Ok (s, H)
  | Issue_to c av =>
      b ← check_ready σ d c av s;
      if b : bool then
        s' ← issue_command σ d c av s; Ok (s', mkIssue c av (m_clk s) :: H)
      else Err (Exc "not ready")
  end.

Fixpoint exec (d : Device) (ops : list Op) (x : State * list Issue) : res (State * list Issue) :=
  match ops with
  | [] => Ok x
  | o :: ops => x ← exec1 d o x; exec d ops x
  end.

Lemma exec_reach d s0 ops x y :
  reach true d s0 x.1 x.2 -> exec d ops x = Ok y -> reach true d s0 y.1 y.2.
Proof.
  revert x. induction ops as [|o ops IH]; cbn; intros x Hx H; [by injection H as <-|].
  apply bind_Ok in H as (z & Hz & H). apply (IH z); [|done]. destruct x as [s h]. destruct o as [|c av].
  - apply bind_Ok in Hz as (s' & Ht & Hz). injection Hz as <-. by eapply reach_tick.
  - apply bind_Ok in Hz as ([] & Hb & Hz); [|done]. apply bind_Ok in Hz as (s' & Hi & Hz).
    injection Hz as <-. by eapply reach_issue.
Qed.

Lemma exec_reach0 d s0 ops s H : exec d ops (s0, []) = Ok (s, H) -> reach true d s0 s H.
Proof. intros He. exact (exec_reach d s0 ops (s0, []) (s, H) (reach_init _ _ _) He). Qed.

Definition hist_of (r : res (State * list Issue)) : option (list Issue) :=
  match r with Ok (_, h) => Some h | Err _ => None end.

Lemma hist_of_Ok r h : hist_of r = Some h -> exists s, r = Ok (s, h).
Proof. destruct r as [[s h']|]; cbn; [|done]. intros [= ->]. by exists s. Qed.

Definition node_b (s : State) (p : list Z) : bool :=
  match m_channels s with n :: _ => match node_at p n with Some _ => true | None => false end | [] => false end.

Lemma node_b_has s p : node_b s p = true -> has_node s 0 p.
Proof.
  unfold node_b. destruct (m_channels s) as [|n l] eqn:E; [done|].
  destruct (node_at p n) as [m|] eqn:Em; [|done]. intros _. exists n, m. by rewrite E.
Qed.
End Facts.
