(* ===== verification/DDR4Facts.v ===== *)
(** * Correctness of the DDR4 device

    The guarantees of [DeviceFacts] at DDR4: its timing rules by name, and the
    consistency of its presets. *)
From Stdlib Require Import String.
From S2P Require Import Prelude CxxFloat Utils DramSpec DramNode DramLambdas DramTiming.
From S2P Require Import DramSpecFacts DramConfig Device DeviceFacts DDR4.
Local Open Scope string_scope.
Local Open Scope Z_scope.

Import DDR4.

Lemma ddr4_ok : std_ok std.
Proof. solve_std_ok. Qed.

Notation V := (DeviceFacts.V std).
Notation device_ok := (DeviceFacts.device_ok std).
Notation reach := (DeviceFacts.reach std).
Notation reach_init := (DeviceFacts.reach_init std).
Notation reach_tick := (DeviceFacts.reach_tick std).
Notation reach_issue := (DeviceFacts.reach_issue std).
Notation init_device_ok := (DeviceFacts.init_device_ok std).
Notation reach_split := (DeviceFacts.reach_split std).
Notation exec1 := (DeviceFacts.exec1 std).
Notation exec := (DeviceFacts.exec std).
Notation device_windows := (DeviceFacts.device_windows std ddr4_ok).
Notation device_frame := (DeviceFacts.device_frame std ddr4_ok).
Notation reach_run_inv := (DeviceFacts.reach_run_inv std ddr4_ok).
Notation check_ready_allowed := (DeviceFacts.check_ready_allowed std ddr4_ok).
Notation scope_nonneg := (DeviceFacts.scope_nonneg std ddr4_ok).
Notation allowed_initializer := (DeviceFacts.allowed_initializer std).
Notation ready_allowed_at := (DeviceFacts.ready_allowed_at std ddr4_ok).
Notation ready_path := (DeviceFacts.ready_path std ddr4_ok).
Notation exec_reach := (DeviceFacts.exec_reach std).
Notation exec_reach0 := (DeviceFacts.exec_reach0 std).
Notation upd_channel_Ok := (DeviceFacts.upd_channel_Ok std ddr4_ok).
Notation upd_states_skel := (DeviceFacts.upd_states_skel std ddr4_ok).

(** The tables of an initialised device. *)
Lemma dok_actions d : device_ok d -> m_actions (d_spec d) = actions.
Proof. apply DeviceFacts.dok_actions. Qed.
Lemma dok_preqs d : device_ok d -> m_preqs (d_spec d) = preqs.
Proof. apply DeviceFacts.dok_preqs. Qed.
Lemma dok_rowhits d : device_ok d -> m_rowhits (d_spec d) = rowhits.
Proof. apply DeviceFacts.dok_rowhits. Qed.
Lemma dok_rowopens d : device_ok d -> m_rowopens (d_spec d) = rowopens.
Proof. apply DeviceFacts.dok_rowopens. Qed.

Lemma command_scopes_eval : command_scopes = Ok [4; 3; 1; 5; 5; 5; 5; 1; 1].
Proof. reflexivity. Qed.

Lemma device_scopes d : device_ok d -> m_command_scopes (d_spec d) = [4; 3; 1; 5; 5; 5; 5; 1; 1].
Proof. intros Hd. pose proof (DeviceFacts.dok_scopes _ _ Hd) as Hs. vm_compute in Hs. by injection Hs. Qed.

(** [rule Hd lv p f Hall] is the constraint of [timing_initializers] at level
    [lv] between the commands [p] and [f], with [Hall : allowed] at that level. *)
Ltac in_list := repeat first [apply list_elem_of_here | apply list_elem_of_further].

Ltac use_rule d Hd lvn pn fn Hall :=
  eapply (allowed_initializer d lvn pn fn);
  [exact Hd|cbn [st_initializers std]; unfold timing_initializers; in_list|lia|reflexivity|in_list|reflexivity|in_list
  |reflexivity|exact Hall].

Ltac rule d Hd lvn pn fn Hall :=
  refine (respects_all (cmd fn) _ (cmd pn) _ _ _); use_rule d Hd lvn pn fn Hall.

(** The rules an activation at cycle [T] obeys against the issues [H2] before it. *)
Definition activate_ok (d : Device) (ch ra bg ba : Z) (H2 : list Issue) (T : Z) : Prop :=
  (forall x, x ∈ issued (cmd "ACT") ch [ra; bg; ba] H2 -> x + V d "nRC" <= T) /\
  (forall x, x ∈ issued (cmd "PRE") ch [ra; bg; ba] H2 -> x + V d "nRP" <= T) /\
  (forall x, x ∈ issued (cmd "ACT") ch [ra; bg] H2 -> x + V d "nRRDL" <= T) /\
  (forall x, x ∈ issued (cmd "ACT") ch [ra] H2 -> x + V d "nRRDS" <= T) /\
  (forall x, issued (cmd "ACT") ch [ra] H2 !! 3%nat = Some x -> x + V d "nFAW" <= T) /\
  (forall x, x ∈ issued (cmd "PREA") ch [ra] H2 -> x + V d "nRP" <= T) /\
  (forall x, x ∈ issued (cmd "REFab") ch [ra] H2 -> x + V d "nRFC" <= T).

Lemma activate_rules po pt d s0 s H H1 H2 ch ra bg ba rest T :
  init po pt = Ok (d, s0) -> reach true d s0 s H ->
  H = (H1 ++ mkIssue (cmd "ACT") (ch :: ra :: bg :: ba :: rest) T :: H2)%list ->
  has_node s0 ch [ra; bg; ba] -> activate_ok d ch ra bg ba H2 T.
Proof.
  intros Hi Hr Heq Hn. pose proof (init_device_ok _ _ _ _ Hi) as Hd.
  assert (vget (m_command_scopes (d_spec d)) (cmd "ACT") = Ok 4) as Hsc
    by (rewrite (device_scopes d Hd); reflexivity).
  destruct (ready_path _ _ _ _ _ _ _ _ _ _ _ _ _ _ _ _ Hi Hr Heq Hn Hsc ltac:(lia))
    as (_ & Hra & Hbg & Hba).
  unfold activate_ok. rewrite <- !clks_issued.
  split; [rule d Hd "bank" "ACT" "ACT" Hba|].
  split; [rule d Hd "bank" "PRE" "ACT" Hba|].
  split; [rule d Hd "bankgroup" "ACT" "ACT" Hbg|].
  split; [rule d Hd "rank" "ACT" "ACT" Hra|].
  split; [|split; [rule d Hd "rank" "PREA" "ACT" Hra|rule d Hd "rank" "REFab" "ACT" Hra]].
  intros x Hx. refine (respects_window (cmd "ACT") _ 4 _ _ _ _ 3 _ eq_refl Hx).
  use_rule d Hd "rank" "ACT" "ACT" Hra.
Qed.

(** For a run of the DDR4 device in which every command was issued
    only when [check_ready] accepted it, an ACT to a bank obeys tRC, tRP, tRRD_S,
    tRRD_L, tFAW and tRFC against the whole issue history. *)
Theorem ddr4_activate_rules po pt d s0 s H H1 H2 ch ra bg ba rest T :
  init po pt = Ok (d, s0) -> reach true d s0 s H ->
  H = (H1 ++ mkIssue (cmd "ACT") (ch :: ra :: bg :: ba :: rest) T :: H2)%list ->
  has_node s0 ch [ra; bg; ba] ->
  (forall x, x ∈ issued (cmd "ACT") ch [ra; bg; ba] H2 -> x + V d "nRC" <= T) /\
  (forall x, x ∈ issued (cmd "PRE") ch [ra; bg; ba] H2 -> x + V d "nRP" <= T) /\
  (forall x, x ∈ issued (cmd "ACT") ch [ra; bg] H2 -> x + V d "nRRDL" <= T) /\
  (forall x, x ∈ issued (cmd "ACT") ch [ra] H2 -> x + V d "nRRDS" <= T) /\
  (forall x, issued (cmd "ACT") ch [ra] H2 !! 3%nat = Some x -> x + V d "nFAW" <= T) /\
  (forall x, x ∈ issued (cmd "PREA") ch [ra] H2 -> x + V d "nRP" <= T) /\
  (forall x, x ∈ issued (cmd "REFab") ch [ra] H2 -> x + V d "nRFC" <= T).
Proof. exact (activate_rules po pt d s0 s H H1 H2 ch ra bg ba rest T). Qed.

(** The device of [example_config.yaml] with one channel, for the examples. *)
Definition demo_org : OrgParams :=
  mkOrgParams (Some "DDR4_8Gb_x8") None None (fun l => if String.eqb l "rank" then Some 2 else None) None.
Definition demo_timing : TimingParams :=
  mkTimingParams (Some "DDR4_2400R") None (fun _ => None) (fun _ => None).
Definition demo0 : Device * State :=
  from_res (mkDevice (mkSpec [] [] [] [] [] (mkOrganization 0 0 []) [] [] [] [] []) [] 0 0, mkState 0 [] [])
    (init demo_org demo_timing).
Definition demo_d : Device := fst demo0.
Definition demo_s : State := snd demo0.

Lemma demo_init : init demo_org demo_timing = Ok (demo_d, demo_s).
Proof.
  unfold demo_d, demo_s. rewrite <- surjective_pairing. apply from_res_Ok. vm_compute. reflexivity.
Qed.

Definition ticks (n : nat) : list Op := replicate n Tick.
Definition bank_addr (bg ba row : Z) : list Z := [0; 0; bg; ba; row; 0].

(** Four activates in different bank groups, then a fifth. *)
Definition act_script : list Op :=
  (Issue_to (cmd "ACT") (bank_addr 0 0 5) :: ticks 4 ++
   Issue_to (cmd "ACT") (bank_addr 1 0 5) :: ticks 4 ++
   Issue_to (cmd "ACT") (bank_addr 2 0 5) :: ticks 4 ++
   Issue_to (cmd "ACT") (bank_addr 3 0 5) :: ticks 14 ++
   [Issue_to (cmd "ACT") (bank_addr 0 1 5)])%list.

Definition act_hist : list Issue :=
  [mkIssue (cmd "ACT") (bank_addr 3 0 5) 12; mkIssue (cmd "ACT") (bank_addr 2 0 5) 8;
   mkIssue (cmd "ACT") (bank_addr 1 0 5) 4; mkIssue (cmd "ACT") (bank_addr 0 0 5) 0].

Lemma ddr4_activate_rules_witness :
  hist_of (exec demo_d act_script (demo_s, [])) =
    Some (mkIssue (cmd "ACT") (bank_addr 0 1 5) 26 :: act_hist) /\
  V demo_d "nFAW" = 26 /\ 0 + V demo_d "nFAW" <= 26.
Proof.
  assert (hist_of (exec demo_d act_script (demo_s, [])) =
    Some (mkIssue (cmd "ACT") (bank_addr 0 1 5) 26 :: act_hist)) as Hh by (vm_compute; reflexivity).
  split; [exact Hh|]. split; [vm_compute; reflexivity|].
  destruct (hist_of_Ok _ _ Hh) as [s Hs].
  pose proof (exec_reach0 _ _ _ _ _ Hs) as Hr.
  destruct (ddr4_activate_rules demo_org demo_timing demo_d demo_s s _ [] act_hist 0 0 0 1 [5; 0] 26
    demo_init Hr eq_refl) as (_ & _ & _ & _ & HF & _).
  { apply node_b_has. vm_compute. reflexivity. }
  apply HF. vm_compute. reflexivity.
Defined.

(** Likewise a RD obeys tRCD, tCCD_L, tCCD_S, the data bus, the write
    to read turnaround within the bank group and the rank, and the rank switch
    after a read of another rank. *)
Theorem ddr4_read_rules po pt d s0 s H H1 H2 ch ra bg ba rest T :
  init po pt = Ok (d, s0) -> reach true d s0 s H ->
  H = (H1 ++ mkIssue (cmd "RD") (ch :: ra :: bg :: ba :: rest) T :: H2)%list ->
  has_node s0 ch [ra; bg; ba] ->
  (forall x, x ∈ issued (cmd "ACT") ch [ra; bg; ba] H2 -> x + V d "nRCD" <= T) /\
  (forall x, x ∈ issued (cmd "RD") ch [ra; bg] H2 -> x + V d "nCCDL" <= T) /\
  (forall x, x ∈ issued (cmd "RD") ch [ra] H2 -> x + V d "nCCDS" <= T) /\
  (forall x, x ∈ issued (cmd "RD") ch [] H2 -> x + V d "nBL" <= T) /\
  (forall x, x ∈ issued (cmd "WR") ch [ra; bg] H2 -> x + (V d "nCWL" + V d "nBL" + V d "nWTRL") <= T) /\
  (forall x, x ∈ issued (cmd "WR") ch [ra] H2 -> x + (V d "nCWL" + V d "nBL" + V d "nWTRS") <= T) /\
  (forall x, x ∈ clks false (cmd "RD") (hist_at 1 [ra] (chan_hist ch H2)) ->
     x + (V d "nBL" + V d "nCS") <= T).
Proof.
  intros Hi Hr Heq Hn. pose proof (init_device_ok _ _ _ _ Hi) as Hd.
  assert (vget (m_command_scopes (d_spec d)) (cmd "RD") = Ok 5) as Hsc
    by (rewrite (device_scopes d Hd); reflexivity).
  destruct (ready_path _ _ _ _ _ _ _ _ _ _ _ _ _ _ _ _ Hi Hr Heq Hn Hsc ltac:(lia))
    as (Hch & Hra & Hbg & Hba).
  rewrite <- !clks_issued.
  split; [rule d Hd "bank" "ACT" "RD" Hba|].
  split; [rule d Hd "bankgroup" "RD" "RD" Hbg|].
  split; [rule d Hd "rank" "RD" "RD" Hra|].
  split; [rule d Hd "channel" "RD" "RD" Hch|].
  split; [rule d Hd "bankgroup" "WR" "RD" Hbg|].
  split; [rule d Hd "rank" "WR" "RD" Hra|].
  enough (respects (mkEntry (cmd "RD") (V d "nBL" + V d "nCS") 1 true) (cmd "RD")
            (hist_at 1 [ra] (chan_hist ch H2)) T) as R by exact R.
  use_rule d Hd "rank" "RD" "RD" Hra.
Qed.

Definition read_script : list Op :=
  (Issue_to (cmd "ACT") (bank_addr 0 0 5) :: ticks 16 ++ [Issue_to (cmd "RD") (bank_addr 0 0 5)])%list.

Definition read_hist : list Issue := [mkIssue (cmd "ACT") (bank_addr 0 0 5) 0].

Lemma read_script_hist :
  hist_of (exec demo_d read_script (demo_s, [])) =
    Some (mkIssue (cmd "RD") (bank_addr 0 0 5) 16 :: read_hist).
Proof. vm_compute. reflexivity. Qed.

Lemma ddr4_read_rules_witness :
  V demo_d "nRCD" = 16 /\ 0 + V demo_d "nRCD" <= 16.
Proof.
  split; [vm_compute; reflexivity|]. destruct (hist_of_Ok _ _ read_script_hist) as [s Hs].
  destruct (ddr4_read_rules demo_org demo_timing demo_d demo_s s _ [] read_hist 0 0 0 0 [5; 0] 16
    demo_init (exec_reach0 _ _ _ _ _ Hs) eq_refl) as (HR & _).
  { apply node_b_has. vm_compute. reflexivity. }
  apply HR. vm_compute. apply list_elem_of_here.
Defined.

(** A PRE obeys tRAS, tRTP and the write recovery time. *)
Theorem ddr4_precharge_rules po pt d s0 s H H1 H2 ch ra bg ba rest T :
  init po pt = Ok (d, s0) -> reach true d s0 s H ->
  H = (H1 ++ mkIssue (cmd "PRE") (ch :: ra :: bg :: ba :: rest) T :: H2)%list ->
  has_node s0 ch [ra; bg; ba] ->
  (forall x, x ∈ issued (cmd "ACT") ch [ra; bg; ba] H2 -> x + V d "nRAS" <= T) /\
  (forall x, x ∈ issued (cmd "RD") ch [ra; bg; ba] H2 -> x + V d "nRTP" <= T) /\
  (forall x, x ∈ issued (cmd "WR") ch [ra; bg; ba] H2 ->
     x + (V d "nCWL" + V d "nBL" + V d "nWR") <= T).
Proof.
  intros Hi Hr Heq Hn. pose proof (init_device_ok _ _ _ _ Hi) as Hd.
  assert (vget (m_command_scopes (d_spec d)) (cmd "PRE") = Ok 3) as Hsc
    by (rewrite (device_scopes d Hd); reflexivity).
  destruct (ready_path _ _ _ _ _ _ _ _ _ _ _ _ _ _ _ _ Hi Hr Heq Hn Hsc ltac:(lia))
    as (_ & _ & _ & Hba).
  rewrite <- !clks_issued.
  split; [rule d Hd "bank" "ACT" "PRE" Hba|].
  split; [rule d Hd "bank" "RD" "PRE" Hba|rule d Hd "bank" "WR" "PRE" Hba].
Qed.

Definition pre_script : list Op :=
  (Issue_to (cmd "ACT") (bank_addr 0 0 5) :: ticks 39 ++ [Issue_to (cmd "PRE") (bank_addr 0 0 5)])%list.

Lemma ddr4_precharge_rules_witness :
  hist_of (exec demo_d pre_script (demo_s, [])) =
    Some (mkIssue (cmd "PRE") (bank_addr 0 0 5) 39 :: read_hist) /\
  V demo_d "nRAS" = 39 /\ 0 + V demo_d "nRAS" <= 39.
Proof.
  assert (hist_of (exec demo_d pre_script (demo_s, [])) =
    Some (mkIssue (cmd "PRE") (bank_addr 0 0 5) 39 :: read_hist)) as Hh by (vm_compute; reflexivity).
  split; [exact Hh|]. split; [vm_compute; reflexivity|].
  destruct (hist_of_Ok _ _ Hh) as [s Hs].
  destruct (ddr4_precharge_rules demo_org demo_timing demo_d demo_s s _ [] read_hist 0 0 0 0 [5; 0] 39
    demo_init (exec_reach0 _ _ _ _ _ Hs) eq_refl) as (HR & _).
  { apply node_b_has. vm_compute. reflexivity. }
  apply HR. vm_compute. apply list_elem_of_here.
Defined.

(** Property C5.  On every run, whether commands were issued ready or not,
    [check_ready] answers exactly whether all timing constraints against the full
    issue history hold at the current cycle, on every node from the channel down
    to the scope of the command that the address vector names (all children at
    a level whose entry is -1). *)
Theorem ddr4_check_ready_exact po pt d s0 r s H c av scope b :
  init po pt = Ok (d, s0) -> reach r d s0 s H ->
  vget (m_command_scopes (d_spec d)) c = Ok scope ->
  check_ready d c av s = Ok b ->
  exists ch n0, av !! 0%nat = Some (Z.of_nat ch) /\ m_channels s0 !! ch = Some n0 /\
    (b = true <->
     forall p m, node_at p n0 = Some m -> addressed av 1 p = true ->
       Z.of_nat (List.length p) <= scope ->
       allowed (d_spec d) (Z.of_nat (List.length p)) (hist_at 1 p (chan_hist (Z.of_nat ch) H)) c (m_clk s)).
Proof.
  intros Hi Hr Hsc Hc. pose proof (init_device_ok _ _ _ _ Hi) as Hd.
  destruct (check_ready_allowed _ _ _ _ _ _ _ _ _ _ _ Hi Hr Hsc (scope_nonneg _ _ _ Hd Hsc) Hc)
    as (ch & n0 & Hch & Hn0 & Hl & Hiff).
  exists ch, n0. split; [done|]. split; [done|]. rewrite Hiff. unfold allowed_below. by rewrite Hl.
Qed.

Lemma ddr4_check_ready_exact_witness :
  exists s, exec demo_d read_script (demo_s, []) =
              Ok (s, mkIssue (cmd "RD") (bank_addr 0 0 5) 16 :: read_hist) /\
    exists ch n0, bank_addr 0 0 5 !! 0%nat = Some (Z.of_nat ch) /\ m_channels demo_s !! ch = Some n0.
Proof.
  destruct (hist_of_Ok _ _ read_script_hist) as [s Hs]. exists s. split; [exact Hs|].
  assert (match exec demo_d read_script (demo_s, []) with
          | Ok (s, _) => ok_b (check_ready demo_d (cmd "PRE") (bank_addr 0 0 5) s)
          | Err _ => false end = true) as Hb by (vm_compute; reflexivity).
  rewrite Hs in Hb.
  destruct (check_ready demo_d (cmd "PRE") (bank_addr 0 0 5) s) as [b|] eqn:Hc; [|discriminate Hb].
  destruct (ddr4_check_ready_exact demo_org demo_timing demo_d demo_s true s _ (cmd "PRE")
    (bank_addr 0 0 5) 3 b demo_init (exec_reach0 _ _ _ _ _ Hs)) as (ch & n0 & H1 & H2 & _).
  { rewrite (device_scopes demo_d (init_device_ok _ _ _ _ demo_init)). reflexivity. }
  { exact Hc. }
  exists ch, n0. split; assumption.
Defined.

(** ** Presets *)
(** The consistency conditions of a device's timing values. *)
Definition timing_consistent (d : Device) : bool :=
  (V d "nRC" =? V d "nRAS" + V d "nRP") && (d_read_latency d =? V d "nCL" + V d "nBL") &&
  (4 * V d "nRRDS" <=? V d "nFAW") && (V d "nRRDS" <=? V d "nRRDL") &&
  (V d "nCCDS" <=? V d "nCCDL") && (V d "nWTRS" <=? V d "nWTRL") &&
  (0 <? V d "nRFC") && (V d "nRFC" <? V d "nREFI") &&
  forallb (fun ts => 0 <? ti_latency ts) (timing_initializers (V d)).

Definition preset_ok (on tn : string) : bool :=
  match init (preset_org on) (preset_timing tn) with
  | Ok (d, s) => timing_consistent d
  | Err _ => false
  end.

Lemma presets_table :
  forallb (fun o => forallb (fun t => preset_ok (fst o) (fst t)) timing_presets) org_presets = true.
Proof. vm_compute. reflexivity. Qed.

(** Every organization preset combined with every timing preset
    initialises (the density check passes and no timing is left unset), with
    nRC = nRAS + nRP, read latency nCL + nBL, a four-activate window of at least
    four short activate distances, long distances no shorter than short ones,
    a refresh shorter than its interval, and only positive latencies in the
    constraint table. *)
Theorem ddr4_presets_consistent on o tn v :
  (on, o) ∈ org_presets -> (tn, v) ∈ timing_presets ->
  exists d s, init (preset_org on) (preset_timing tn) = Ok (d, s) /\ timing_consistent d = true.
Proof.
  intros Ho Ht. pose proof presets_table as H. rewrite forallb_forall in H.
  apply list_elem_of_In in Ho, Ht. specialize (H _ Ho). rewrite forallb_forall in H.
  specialize (H _ Ht). cbn in H. unfold preset_ok in H.
  destruct (init _ _) as [[d s]|e]; [|done]. by exists d, s.
Qed.

Lemma ddr4_presets_consistent_witness :
  exists d s, init (preset_org "DDR4_8Gb_x8") (preset_timing "DDR4_2400R") = Ok (d, s) /\
    timing_consistent d = true.
Proof.
  apply (ddr4_presets_consistent "DDR4_8Gb_x8" (mkOrganization (8 * 2 ^ 10) 8 [1; 1; 4; 4; 2 ^ 16; 2 ^ 10])
    "DDR4_2400R" [2400; 4; 16; 16; 16; 39; 55; 18; 9; 12; 4; 6; -1; -1; 3; 9; -1; -1; -1; 2; 833]);
    [unfold org_presets|unfold timing_presets]; in_list.
Defined.
