(* ===== verification/DDR4Rows.v ===== *)
(** * Row buffers of the DDR4 device

    How the bank states steer [get_preq_command] and [check_rowbuffer_hit], and
    how issued commands change them. *)
From Stdlib Require Import String.
From S2P Require Import Prelude CxxFloat Utils DramSpec DramNode DramLambdas DramTiming.
From S2P Require Import DramSpecFacts DramConfig Device DeviceFacts DDR4 DDR4Facts.
Local Open Scope string_scope.
Local Open Scope Z_scope.
Import DDR4.

(** ** Walking down to a bank *)
Lemma at_nth_lookup {A B} (f : A -> res B) l i x : l !! i = Some x -> at_nth f l i = f x.
Proof.
  revert i. induction l as [|y l IH]; intros [|i] H; simplify_eq/=; [done|by apply IH].
Qed.

Lemma on_nth_lookup {A} (f : A -> res A) l i x y :
  l !! i = Some x -> f x = Ok y -> on_nth f l i = Ok (<[i := y]> l).
Proof.
  revert i. induction l as [|z l IH]; intros [|i] H Hf; simplify_eq/=; [by rewrite Hf|].
  by rewrite (IH i H Hf).
Qed.

(** The nodes of a path from a channel to a bank. *)
Record bank_path (n : Node) (ra bg ba : Z) (rank group bank : Node) : Prop := {
  bp_level : m_level n = 0;
  bp_wf : wf_tree n;
  bp_rank : 0 <= ra /\ m_child_nodes n !! Z.to_nat ra = Some rank;
  bp_group : 0 <= bg /\ m_child_nodes rank !! Z.to_nat bg = Some group;
  bp_bank : 0 <= ba /\ m_child_nodes group !! Z.to_nat ba = Some bank;
}.

Lemma node_at_path n ra bg ba bank :
  m_level n = 0 -> wf_tree n -> node_at [ra; bg; ba] n = Some bank ->
  exists rank group, bank_path n ra bg ba rank group bank.
Proof.
  intros Hl Hw H. cbn in H. destruct (Z.ltb_spec ra 0); [done|].
  destruct (m_child_nodes n !! Z.to_nat ra) as [rank|] eqn:E1; [|done].
  destruct (Z.ltb_spec bg 0); [done|].
  destruct (m_child_nodes rank !! Z.to_nat bg) as [group|] eqn:E2; [|done].
  destruct (Z.ltb_spec ba 0); [done|].
  destruct (m_child_nodes group !! Z.to_nat ba) as [b|] eqn:E3; [|done].
  injection H as ->. exists rank, group. by constructor.
Qed.

Lemma bank_path_levels n ra bg ba rank group bank :
  bank_path n ra bg ba rank group bank ->
  m_level rank = 1 /\ m_level group = 2 /\ m_level bank = 3.
Proof.
  intros [Hl Hw [_ H1] [_ H2] [_ H3]].
  destruct (wf_tree_child _ _ _ Hw H1) as (L1 & _ & W1).
  destruct (wf_tree_child _ _ _ W1 H2) as (L2 & _ & W2).
  destruct (wf_tree_child _ _ _ W2 H3) as (L3 & _ & _). lia.
Qed.

Lemma children_cons n i (ch : Node) :
  m_child_nodes n !! i = Some ch -> exists c cs, m_child_nodes n = c :: cs.
Proof. destruct (m_child_nodes n); [done|]. eauto. Qed.

Section Walk.
Context (d : Device) (Hd : device_ok d).
Context (av : list Z) (c clk : Z).

(** A level without a prerequisite for the command passes the question on. *)
Lemma preq_step m x i :
  fget preqs (m_level m) c = None -> vget av (m_level m + 1) = Ok i -> 0 <= i ->
  m_child_nodes m !! Z.to_nat i = Some x ->
  DramNode.get_preq_command (d_spec d) c av clk m =
  DramNode.get_preq_command (d_spec d) c av clk x.
Proof.
  intros Hf Hav Hi Hx. destruct m as [level nid st ready hist rows chs].
  cbn [m_level m_child_nodes] in *. cbn [DramNode.get_preq_command m_level m_child_nodes].
  rewrite Hav, (dok_preqs _ Hd), Hf, !bind_Ok_l. cbn [negb Z.eqb].
  destruct chs as [|c0 cs]; [done|]. rewrite (proj2 (Z.ltb_ge i 0)) by done.
  by apply at_nth_lookup.
Qed.

Lemma preq_bank m f row r :
  fget preqs (m_level m) c = Some f -> vget av (m_level m + 1) = Ok row ->
  f m c av clk = Ok r -> r <> -1 ->
  DramNode.get_preq_command (d_spec d) c av clk m = Ok r.
Proof.
  intros Hf Hav Hr Hne. destruct m as [level nid st ready hist rows chs].
  cbn [m_level m_child_nodes] in *. cbn [DramNode.get_preq_command m_level m_child_nodes].
  rewrite Hav, (dok_preqs _ Hd), Hf, bind_Ok_l, Hr, bind_Ok_l.
  by rewrite (proj2 (Z.eqb_neq r (-1))).
Qed.

Lemma row_step tbl m x i :
  fget tbl (m_level m) c = None -> vget av (m_level m + 1) = Ok i -> 0 <= i ->
  m_child_nodes m !! Z.to_nat i = Some x ->
  row_query tbl c av clk m = row_query tbl c av clk x.
Proof.
  intros Hf Hav Hi Hx. destruct m as [level nid st ready hist rows chs].
  cbn [m_level m_child_nodes] in *. cbn [row_query m_level m_child_nodes].
  rewrite Hav, Hf, !bind_Ok_l. destruct chs as [|c0 cs]; [done|].
  rewrite (proj2 (Z.ltb_ge i 0)) by done. by apply at_nth_lookup.
Qed.

Lemma row_bank tbl m f row :
  fget tbl (m_level m) c = Some f -> vget av (m_level m + 1) = Ok row ->
  row_query tbl c av clk m = f m c row clk.
Proof. intros Hf Hav. destruct m. cbn in *. by rewrite Hav, Hf. Qed.

Lemma states_step depth m x y i scope :
  fget actions (m_level m) c = None -> vget av (m_level m + 1) = Ok i -> 0 <= i ->
  vget (m_command_scopes (d_spec d)) c = Ok scope -> m_level m <> scope ->
  m_child_nodes m !! Z.to_nat i = Some x ->
  update_states (d_spec d) depth c av clk x = Ok y ->
  update_states (d_spec d) (S depth) c av clk m =
    Ok (set_children (<[Z.to_nat i := y]> (m_child_nodes m)) m).
Proof.
  intros Hf Hav Hi Hsc Hne Hx Hy. cbn [update_states]. unfold run_action, at_scope.
  rewrite Hav, (dok_actions _ Hd), Hf, Hsc, !bind_Ok_l.
  rewrite (proj2 (Z.eqb_neq _ _) Hne). cbn [orb].
  destruct (m_child_nodes m) as [|c0 cs] eqn:E; [done|]. rewrite <- E in *.
  rewrite (proj2 (Z.eqb_neq i (-1))), (proj2 (Z.ltb_ge i 0)) by lia.
  by rewrite (on_nth_lookup _ _ _ _ _ Hx Hy).
Qed.

Lemma states_bank depth m y row :
  vget av (m_level m + 1) = Ok row -> m_child_nodes y = [] ->
  (exists scope, vget (m_command_scopes (d_spec d)) c = Ok scope) ->
  match fget actions (m_level m) c with Some f => f m c row clk | None => Ok m end = Ok y ->
  update_states (d_spec d) (S depth) c av clk m = Ok y.
Proof.
  intros Hav Hnil [scope Hsc] Hf. cbn [update_states]. unfold run_action, at_scope.
  rewrite Hav, (dok_actions _ Hd), bind_Ok_l. destruct (fget _ _ _); rewrite Hf, Hsc, !bind_Ok_l;
    by rewrite Hnil, orb_true_r.
Qed.
End Walk.

(** ** Banks are the leaves of the tree *)
Lemma new_node_depth sp depth level nid n p m :
  new_node sp depth level nid = Ok n -> node_at p n = Some m -> def_id (DramNode.m_levels sp) "row" = 4 ->
  0 <= level < 4 -> level + Z.of_nat (List.length p) < 4.
Proof.
  intros Hn Hm Hrow. revert level nid n p m Hn Hm. induction depth as [|depth IH]; [done|].
  intros level nid n p m Hn Hm Hlv. destruct p as [|i p]; [cbn; lia|]. cbn [new_node] in Hn.
  apply bind_Ok in Hn as (hist & _ & Hn). apply bind_Ok in Hn as (st & _ & Hn). rewrite Hrow in Hn.
  destruct (Z.eqb_spec (level + 1) 4) as [Hl|Hl].
  { injection Hn as <-. cbn in Hm. by destruct (i <? 0). }
  apply bind_Ok in Hn as (size & _ & Hn). apply bind_Ok in Hn as (chs & Hch & Hn). injection Hn as <-.
  cbn [node_at m_child_nodes set_children] in Hm. destruct (i <? 0); [done|].
  destruct (chs !! Z.to_nat i) as [x|] eqn:Hx; [|done].
  assert (exists k, new_node sp depth (level + 1) k = Ok x) as [k Hk].
  { clear -Hch Hx. revert Hch Hx. generalize (seqZ 0 size) as ids. generalize (Z.to_nat i) as j.
    intros j ids. revert chs j. induction ids as [|k ids IHi]; intros chs j Hch Hx.
    - injection Hch as <-. done.
    - apply bind_Ok in Hch as (c0 & Hc & Hch). apply bind_Ok in Hch as (cs & Hcs & Hch).
      injection Hch as <-. destruct j as [|j]; [injection Hx as <-; by exists k|]. by apply (IHi cs j). }
  specialize (IH _ _ _ _ _ Hk Hm ltac:(lia)). cbn [List.length]. lia.
Qed.

(** ** Views of a bank *)
Definition view_of (n : Node) (p : list Z) : option (Z * gmap Z Z) :=
  (fun m => (m_state m, m_row_state m)) <$> node_at p n.

Definition bank_view (s : State) (ch ra bg ba : Z) : option (Z * gmap Z Z) :=
  if ch <? 0 then None else m_channels s !! Z.to_nat ch ≫= fun n => view_of n [ra; bg; ba].

Lemma update_timing_view sp c av clk p n n' :
  update_timing sp c av clk n = Ok n' -> view_of n' p = view_of n p.
Proof.
  unfold view_of. revert n n'. induction p as [|i p IH]; intros n n' H.
  - destruct n as [level nid st ready hist rows chs]. cbn [update_timing] in H.
    apply bind_Ok in H as (a & _ & H). apply bind_Ok in H as (tcs & _ & H).
    destruct (_ && _); res_inv; done.
  - assert (m_child_nodes n' = m_child_nodes n \/
      Forall2 (fun x y => update_timing sp c av clk x = Ok y) (m_child_nodes n) (m_child_nodes n')) as Hch.
    { destruct n as [level nid st ready hist rows chs]. cbn [update_timing] in H.
      apply bind_Ok in H as (a & _ & H). apply bind_Ok in H as (tcs & _ & H).
      destruct (_ && _); [left; res_inv; done|right].
      apply bind_Ok in H as (h & _ & H). apply bind_Ok in H as (hist' & _ & H).
      apply bind_Ok in H as (ready' & _ & H). apply bind_Ok in H as (ch' & Hch & H).
      injection H as <-. by apply on_all_Forall2. }
    cbn [node_at]. destruct (i <? 0); [done|]. destruct Hch as [->|Hch]; [done|].
    destruct (m_child_nodes n !! Z.to_nat i) as [x|] eqn:E1,
             (m_child_nodes n' !! Z.to_nat i) as [y|] eqn:E2.
    + apply IH. by eapply (Forall2_lookup_lr _ _ _ _ _ _ Hch).
    + eapply Forall2_lookup_l in E1 as (y & Hy & _); [|done]. congruence.
    + eapply Forall2_lookup_r in E2 as (x & Hx & _); [|done]. congruence.
    + done.
Qed.

(** What a bank-level command does to a bank. *)
Definition bank_step (c row : Z) (v : Z * gmap Z Z) : Z * gmap Z Z :=
  if c =? cmd "ACT" then (def_id states "Opened", <[row := def_id states "Opened"]> v.2)
  else if (c =? cmd "PRE") || (c =? cmd "RDA") || (c =? cmd "WRA") then (def_id states "Closed", ∅)
  else v.

Definition bank_cmds : list Z :=
  [cmd "ACT"; cmd "PRE"; cmd "RD"; cmd "WR"; cmd "RDA"; cmd "WRA"].

Lemma bank_cmd_tables d c :
  device_ok d -> c ∈ bank_cmds ->
  fget actions 0 c = None /\ fget actions 1 c = None /\ fget actions 2 c = None /\
  exists scope, vget (m_command_scopes (d_spec d)) c = Ok scope /\ 3 <= scope.
Proof.
  intros Hd Hc. rewrite (device_scopes d Hd).
  repeat (apply elem_of_cons in Hc as [->|Hc];
          [do 3 (split; [reflexivity|]); eexists; split; [reflexivity|lia]|]).
  by apply not_elem_of_nil in Hc.
Qed.

Lemma bank_cmd_action c row clk m :
  c ∈ bank_cmds -> m_level m = 3 ->
  exists y, match fget actions 3 c with Some f => f m c row clk | None => Ok m end = Ok y /\
    (m_state y, m_row_state y) = bank_step c row (m_state m, m_row_state m) /\
    m_child_nodes y = m_child_nodes m.
Proof.
  intros Hc Hl.
  repeat (apply elem_of_cons in Hc as [->|Hc]; [eexists; split; [reflexivity|]; split; reflexivity|]).
  by apply not_elem_of_nil in Hc.
Qed.

Lemma node_at_set n i y p :
  0 <= i -> is_Some (m_child_nodes n !! Z.to_nat i) ->
  node_at (i :: p) (set_children (<[Z.to_nat i := y]> (m_child_nodes n)) n) = node_at p y.
Proof.
  intros Hi [x Hx]. cbn. rewrite (proj2 (Z.ltb_ge i 0)) by done.
  by rewrite list_lookup_insert_eq by (by eapply lookup_lt_Some).
Qed.

Lemma node_at_set_ne n i j y p :
  0 <= i -> j <> i ->
  node_at (j :: p) (set_children (<[Z.to_nat i := y]> (m_child_nodes n)) n) = node_at (j :: p) n.
Proof.
  intros Hi Hne. cbn. destruct (Z.ltb_spec j 0); [done|].
  by rewrite list_lookup_insert_ne by lia.
Qed.

(** One bank-level command changes the bank it addresses and no other. *)
Lemma update_states_bank d c ch ra bg ba row rest clk n n' rank group bank :
  device_ok d -> c ∈ bank_cmds -> bank_path n ra bg ba rank group bank -> m_child_nodes bank = [] ->
  update_states (d_spec d) 6 c (ch :: ra :: bg :: ba :: row :: rest) clk n = Ok n' ->
  view_of n' [ra; bg; ba] = Some (bank_step c row (m_state bank, m_row_state bank)) /\
  forall ra' bg' ba', (ra', bg', ba') <> (ra, bg, ba) ->
    view_of n' [ra'; bg'; ba'] = view_of n [ra'; bg'; ba'].
Proof.
  intros Hd Hc Hp Hnil Hu. destruct (bank_path_levels _ _ _ _ _ _ _ Hp) as (L1 & L2 & L3).
  destruct (bank_cmd_tables d c Hd Hc) as (F0 & F1 & F2 & scope & Hsc & H3).
  destruct (bank_cmd_action c row clk bank Hc L3) as (y & Hy & Hstep & Hch).
  pose proof Hp as [L0 _ [Hra H1] [Hbg H2] [Hba H4]].
  set (av := ch :: ra :: bg :: ba :: row :: rest) in *.
  assert (update_states (d_spec d) 3 c av clk bank = Ok y) as U3.
  { apply (states_bank d Hd av c clk 2 bank y row); [by rewrite L3|by rewrite Hch|by eauto|by rewrite L3]. }
  assert (update_states (d_spec d) 4 c av clk group =
    Ok (set_children (<[Z.to_nat ba := y]> (m_child_nodes group)) group)) as U2.
  { eapply states_step; rewrite ?L2; try done; lia. }
  assert (update_states (d_spec d) 5 c av clk rank =
    Ok (set_children (<[Z.to_nat bg := set_children (<[Z.to_nat ba := y]> (m_child_nodes group)) group]>
         (m_child_nodes rank)) rank)) as U1.
  { eapply states_step; rewrite ?L1; try done; lia. }
  erewrite (states_step d Hd av c clk 5 n rank _ ra scope) in Hu; rewrite ?L0; try done; [|lia].
  injection Hu as <-. unfold view_of. split.
  - rewrite node_at_set by (done || eauto). rewrite node_at_set by (done || eauto).
    rewrite node_at_set by (done || eauto). cbn. by rewrite Hstep.
  - intros ra' bg' ba' Hne. destruct (decide (ra' = ra)) as [->|]; [|by rewrite node_at_set_ne].
    rewrite node_at_set by (done || eauto). 
    change (node_at [ra; bg'; ba'] n) with (node_at ([ra] ++ [bg'; ba']) n).
    assert (node_at [ra; bg'; ba'] n = node_at [bg'; ba'] rank) as E1.
    { cbn [node_at]. rewrite (proj2 (Z.ltb_ge ra 0)) by done. by rewrite H1. }
    cbn [app]. rewrite E1. destruct (decide (bg' = bg)) as [->|]; [|by rewrite node_at_set_ne].
    rewrite node_at_set by (done || eauto).
    assert (node_at [bg; ba'] rank = node_at [ba'] group) as E2.
    { cbn [node_at]. rewrite (proj2 (Z.ltb_ge bg 0)) by done. by rewrite H2. }
    rewrite E2. destruct (decide (ba' = ba)) as [->|]; [done|by rewrite node_at_set_ne].
Qed.

(** ** Banks of a reachable device *)
Lemma init_leaves po pt d s0 i n0 p m :
  init po pt = Ok (d, s0) -> m_channels s0 !! i = Some n0 -> node_at p n0 = Some m ->
  (List.length p < 4)%nat.
Proof.
  intros Hi Hn Hm. pose proof (init_device_ok _ _ _ _ Hi) as Hd. unfold init in Hi.
  apply bind_Ok in Hi as (scopes & Hsc & Hi). apply bind_Ok in Hi as (inits & _ & Hi).
  apply bind_Ok in Hi as ([width o] & _ & Hi). apply bind_Ok in Hi as ([[vals lat] tc] & Ht & Hi).
  apply bind_Ok in Hi as (chs & Hch & Hi). injection Hi as <- <-. cbn in Hn, Hch.
  unfold create_nodes in Hch. apply bind_Ok in Hch as (num & _ & Hch).
  assert (exists k, new_node (mkSpec levels commands states scopes inits o tc actions preqs rowhits rowopens)
     6 0 k = Ok n0) as [k Hk].
  { clear -Hch Hn. revert Hch Hn. generalize (seqZ 0 num) as ids. intros ids. revert chs i.
    induction ids as [|k ids IHi]; intros chs i Hch Hn; [injection Hch as <-; done|].
    apply bind_Ok in Hch as (c0 & Hc & Hch). apply bind_Ok in Hch as (cs & Hcs & Hch).
    injection Hch as <-. destruct i as [|i]; [injection Hn as <-; by exists k|]. by apply (IHi cs i). }
  pose proof (new_node_depth _ _ _ _ _ p m Hk Hm eq_refl ltac:(lia)). lia.
Qed.

Lemma reach_bank po pt d s0 r s H ch ra bg ba v :
  init po pt = Ok (d, s0) -> reach r d s0 s H -> bank_view s ch ra bg ba = Some v ->
  exists n rank group bank, 0 <= ch /\ m_channels s !! Z.to_nat ch = Some n /\
    bank_path n ra bg ba rank group bank /\ m_child_nodes bank = [] /\
    v = (m_state bank, m_row_state bank).
Proof.
  intros Hi Hr Hv. unfold bank_view in Hv. destruct (Z.ltb_spec ch 0); [done|].
  destruct (m_channels s !! Z.to_nat ch) as [n|] eqn:Hn; [|done].
  cbn [mbind option_bind] in Hv. unfold view_of in Hv.
  destruct (node_at [ra; bg; ba] n) as [bank|] eqn:Hb; [|done]. cbn in Hv. injection Hv as <-.
  pose proof (reach_run_inv _ _ _ _ _ _ _ Hi Hr) as (_ & _ & Hinv).
  destruct (Hinv _ _ Hn) as (n0 & Hn0 & [Hl Hid Hw Hsh Ht]).
  destruct (node_at_path _ _ _ _ _ Hl Hw Hb) as (rank & group & Hp).
  exists n, rank, group, bank. do 3 (split; [done|]). split; [|done].
  destruct (m_child_nodes bank) as [|x l] eqn:E; [done|]. exfalso.
  assert (node_at [ra; bg; ba; 0] n = Some x) as Hx.
  { pose proof Hp as [_ _ [Hra H1] [Hbg H2] [Hba H3]]. cbn.
    rewrite !(proj2 (Z.ltb_ge _ 0)), H1, H2, H3, E by lia. done. }
  pose proof (node_at_shape [ra; bg; ba; 0] n) as Hs. rewrite Hsh, node_at_shape, Hx in Hs.
  destruct (node_at [ra; bg; ba; 0] n0) as [x0|] eqn:Hx0; [|done].
  pose proof (init_leaves _ _ _ _ _ _ _ _ Hi Hn0 Hx0) as Hlen. cbn in Hlen. lia.
Qed.

Lemma path_node_at n ra bg ba rank group bank :
  bank_path n ra bg ba rank group bank -> node_at [ra; bg; ba] n = Some bank.
Proof.
  intros [_ _ [Hra G1] [Hbg G2] [Hba G3]]. cbn.
  by rewrite !(proj2 (Z.ltb_ge _ 0)), G1, G2, G3 by lia.
Qed.

(** [update_timing] keeps the path to a bank and the bank's state. *)
Lemma update_timing_path sp c av clk n n1 ra bg ba rank group bank :
  update_timing sp c av clk n = Ok n1 -> bank_path n ra bg ba rank group bank ->
  exists rank1 group1 bank1, bank_path n1 ra bg ba rank1 group1 bank1 /\
    (m_state bank1, m_row_state bank1) = (m_state bank, m_row_state bank) /\
    (m_child_nodes bank = [] -> m_child_nodes bank1 = []).
Proof.
  intros Hu Hp. pose proof (path_node_at _ _ _ _ _ _ _ Hp) as Hb.
  pose proof (update_timing_view _ _ _ _ [ra; bg; ba] _ _ Hu) as Hv.
  pose proof (update_timing_shape _ _ _ _ _ _ Hu) as Hsh.
  unfold view_of in Hv. rewrite Hb in Hv.
  destruct (node_at [ra; bg; ba] n1) as [bank1|] eqn:Hb1; [|done]. cbn in Hv. injection Hv as Hst Hrw.
  assert (m_level n1 = 0) as Hl1.
  { destruct (shape_fields n1) as (<- & _). rewrite Hsh. destruct (shape_fields n) as (-> & _).
    apply (bp_level _ _ _ _ _ _ _ Hp). }
  assert (wf_tree n1) as Hw1.
  { rewrite <- wf_tree_shape, Hsh, wf_tree_shape. apply (bp_wf _ _ _ _ _ _ _ Hp). }
  destruct (node_at_path _ _ _ _ _ Hl1 Hw1 Hb1) as (rank1 & group1 & Hp1).
  exists rank1, group1, bank1. split; [done|]. split; [congruence|]. intros Hnil.
  pose proof (node_at_shape [ra; bg; ba] n1) as E1. rewrite Hsh, node_at_shape, Hb1, Hb in E1.
  cbn in E1. injection E1 as E1. apply (f_equal m_child_nodes) in E1.
  destruct (shape_fields bank) as (_ & _ & S1). destruct (shape_fields bank1) as (_ & _ & S2).
  rewrite S1, S2, Hnil in E1. cbn in E1. by destruct (m_child_nodes bank1).
Qed.

Lemma issue_channels d c av s s' :
  issue_command d c av s = Ok s' ->
  exists k n n1 n2, av !! 0%nat = Some (Z.of_nat k) /\ m_channels s !! k = Some n /\
    update_timing (d_spec d) c av (m_clk s) n = Ok n1 /\
    update_states (d_spec d) 6 c av (m_clk s) n1 = Ok n2 /\
    m_channels s' = <[k := n2]> (m_channels s).
Proof.
  unfold issue_command. intros Hs. apply bind_Ok in Hs as (s1 & H1 & Hs).
  apply bind_Ok in Hs as (s2 & H2 & H3). apply check_future_action_channels in H3 as [_ ->].
  apply upd_channel_Ok in H1 as (k & n & n1 & Hk & Hn & Hu1 & ->).
  apply upd_channel_Ok in H2 as (k2 & m & n2 & Hk2 & Hm & Hu2 & ->).
  rewrite Hk in Hk2. injection Hk2 as Hk2. apply Nat2Z.inj in Hk2 as <-. cbn [m_channels m_clk] in *.
  rewrite list_lookup_insert_eq in Hm by (by eapply lookup_lt_Some). injection Hm as <-.
  rewrite list_insert_insert_eq. by exists k, n, n1, n2.
Qed.

Lemma issue_bank po pt d s0 r s H c ch ra bg ba row rest v s' :
  init po pt = Ok (d, s0) -> reach r d s0 s H -> bank_view s ch ra bg ba = Some v ->
  c ∈ bank_cmds -> issue_command d c (ch :: ra :: bg :: ba :: row :: rest) s = Ok s' ->
  bank_view s' ch ra bg ba = Some (bank_step c row v) /\
  forall ch' ra' bg' ba', (ch', ra', bg', ba') <> (ch, ra, bg, ba) ->
    bank_view s' ch' ra' bg' ba' = bank_view s ch' ra' bg' ba'.
Proof.
  intros Hi Hr Hv Hc Hs. pose proof (init_device_ok _ _ _ _ Hi) as Hd.
  apply issue_channels in Hs as (k & n & n1 & n2 & [= ->] & Hn & Hu1 & Hu2 & Hch).
  destruct (reach_bank _ _ _ _ _ _ _ _ _ _ _ _ Hi Hr Hv)
    as (n' & rank & group & bank & _ & Hn' & Hp & Hnil & ->).
  rewrite Nat2Z.id, Hn in Hn'. injection Hn' as <-.
  destruct (update_timing_path _ _ _ _ _ _ _ _ _ _ _ _ Hu1 Hp)
    as (rank1 & group1 & bank1 & Hp1 & Hst & Hnil1).
  destruct (update_states_bank d c (Z.of_nat k) ra bg ba row rest _ n1 n2 _ _ _ Hd Hc Hp1
              (Hnil1 Hnil) Hu2) as [Hsame Hother].
  unfold bank_view. rewrite Hch. split.
  - rewrite (proj2 (Z.ltb_ge _ 0)), Nat2Z.id by lia.
    rewrite list_lookup_insert_eq by (by eapply lookup_lt_Some). cbn [mbind option_bind].
    by rewrite Hsame, Hst.
  - intros ch' ra' bg' ba' Hne. destruct (Z.ltb_spec ch' 0); [done|].
    destruct (decide (Z.to_nat ch' = k)) as [<-|Hnk].
    + rewrite list_lookup_insert_eq by (by eapply lookup_lt_Some). rewrite Hn. cbn [mbind option_bind].
      rewrite Hother; [by apply (update_timing_view _ _ _ _ _ _ _ Hu1)|].
      intros [= -> -> ->]. apply Hne. by rewrite Z2Nat.id.
    + by rewrite list_lookup_insert_ne by done.
Qed.

(** ** The prerequisite of a column command *)
Definition row_preq (final row : Z) (v : Z * gmap Z Z) : res Z :=
  if v.1 =? def_id states "Closed" then Ok (cmd "ACT")
  else if v.1 =? def_id states "Opened" then
    match v.2 !! row with Some _ => Ok final | None => Ok (cmd "PRE") end
  else if v.1 =? def_id states "Refreshing" then Ok (cmd "ACT")
  else Err (Exit (-1)).

Definition row_hit (row : Z) (v : Z * gmap Z Z) : bool :=
  (v.1 =? def_id states "Opened") && bool_decide (is_Some (v.2 !! row)).

Lemma preq_of_path d n ra bg ba rank group bank ch row rest final clk c :
  device_ok d -> bank_path n ra bg ba rank group bank ->
  final ∈ [cmd "RD"; cmd "WR"] -> row_preq final row (m_state bank, m_row_state bank) = Ok c ->
  let av := ch :: ra :: bg :: ba :: row :: rest in
  DramNode.get_preq_command (d_spec d) final av clk n = Ok c /\
  DramNode.check_rowbuffer_hit (d_spec d) final av clk n =
    Ok (row_hit row (m_state bank, m_row_state bank)).
Proof.
  intros Hd Hp Hf Hc av. destruct (bank_path_levels _ _ _ _ _ _ _ Hp) as (L1 & L2 & L3).
  pose proof Hp as [L0 _ [Hra G1] [Hbg G2] [Hba G3]].
  assert (forall lv, lv ∈ [0; 1; 2] -> fget preqs lv final = None /\ fget rowhits lv final = None) as Hno.
  { intros lv Hlv. repeat (apply elem_of_cons in Hf as [->|Hf];
      [repeat (apply elem_of_cons in Hlv as [->|Hlv]; [split; reflexivity|]);
       by apply not_elem_of_nil in Hlv|]). by apply not_elem_of_nil in Hf. }
  assert (fget preqs 3 final = Some (Preq_Bank_RequireRowOpen levels commands states) /\
          fget rowhits 3 final = Some (RowHit_Bank_RDWR states)) as [Hb1 Hb2].
  { repeat (apply elem_of_cons in Hf as [->|Hf]; [split; reflexivity|]).
    by apply not_elem_of_nil in Hf. }
  destruct (Hno 0 ltac:(in_list)) as [P0 R0]. destruct (Hno 1 ltac:(in_list)) as [P1 R1].
  destruct (Hno 2 ltac:(in_list)) as [P2 R2].
  split.
  - rewrite (preq_step d Hd av final clk n rank ra) by (rewrite ?L0; done).
    rewrite (preq_step d Hd av final clk rank group bg) by (rewrite ?L1; done).
    rewrite (preq_step d Hd av final clk group bank ba) by (rewrite ?L2; done).
    apply (preq_bank d Hd av final clk bank _ row c ltac:(by rewrite L3) ltac:(by rewrite L3)).
    + exact Hc.
    + unfold row_preq in Hc. repeat case_match; simplify_eq; try done.
      repeat (apply elem_of_cons in Hf as [->|Hf]; [done|]). by apply not_elem_of_nil in Hf.
  - unfold DramNode.check_rowbuffer_hit. rewrite (dok_rowhits _ Hd).
    rewrite (row_step av final clk rowhits n rank ra) by (rewrite ?L0; done).
    rewrite (row_step av final clk rowhits rank group bg) by (rewrite ?L1; done).
    rewrite (row_step av final clk rowhits group bank ba) by (rewrite ?L2; done).
    rewrite (row_bank av final clk rowhits bank _ row ltac:(by rewrite L3) ltac:(by rewrite L3)).
    unfold RowHit_Bank_RDWR, row_preq, row_hit in *. cbn [fst snd] in *.
    destruct (m_state bank =? def_id states "Closed") eqn:E1.
    { apply Z.eqb_eq in E1. by rewrite E1. }
    destruct (m_state bank =? def_id states "Opened"); [done|].
    by destruct (m_state bank =? def_id states "Refreshing").
Qed.

Lemma query_bank po pt d s0 r s H ch ra bg ba row rest v final c :
  init po pt = Ok (d, s0) -> reach r d s0 s H -> bank_view s ch ra bg ba = Some v ->
  final ∈ [cmd "RD"; cmd "WR"] -> row_preq final row v = Ok c ->
  get_preq_command d final (ch :: ra :: bg :: ba :: row :: rest) s = Ok c /\
  check_rowbuffer_hit d final (ch :: ra :: bg :: ba :: row :: rest) s = Ok (row_hit row v).
Proof.
  intros Hi Hr Hv Hf Hc. pose proof (init_device_ok _ _ _ _ Hi) as Hd.
  destruct (reach_bank _ _ _ _ _ _ _ _ _ _ _ _ Hi Hr Hv)
    as (n & rank & group & bank & Hch & Hn & Hp & Hnil & ->).
  destruct (preq_of_path d n ra bg ba rank group bank ch row rest final (m_clk s) c Hd Hp Hf Hc) as [H1 H2].
  unfold get_preq_command, check_rowbuffer_hit, on_channel.
  assert (vget (ch :: ra :: bg :: ba :: row :: rest) (Dev.lvl std "channel") = Ok ch) as -> by reflexivity.
  rewrite !bind_Ok_l.
  assert (vget (m_channels s) ch = Ok n) as -> by (by apply vget_Ok). by rewrite !bind_Ok_l.
Qed.

(** Property C7.  The state machine of a row buffer: a command for a bank opens
    the row (ACT), closes the bank (PRE, RDA, WRA) or leaves it (RD, WR), and
    changes no other bank of the device. *)
Theorem ddr4_bank_state_machine po pt d s0 r s H c ch ra bg ba row rest v s' :
  init po pt = Ok (d, s0) -> reach r d s0 s H -> bank_view s ch ra bg ba = Some v ->
  c ∈ bank_cmds -> issue_command d c (ch :: ra :: bg :: ba :: row :: rest) s = Ok s' ->
  bank_view s' ch ra bg ba = Some (bank_step c row v) /\
  forall ch' ra' bg' ba', (ch', ra', bg', ba') <> (ch, ra, bg, ba) ->
    bank_view s' ch' ra' bg' ba' = bank_view s ch' ra' bg' ba'.
Proof. apply issue_bank. Qed.

(** A read or write needs at most two commands before it: the
    prerequisite is the command itself exactly on a row-buffer hit, ACT on a
    closed bank and PRE on a row conflict; after the ACT it is a hit, and after
    PRE and ACT too. *)
Theorem ddr4_open_row_sequence po pt d s0 r s H ch ra bg ba row rest v final c :
  init po pt = Ok (d, s0) -> reach r d s0 s H -> bank_view s ch ra bg ba = Some v ->
  final ∈ [cmd "RD"; cmd "WR"] -> row_preq final row v = Ok c ->
  let av := ch :: ra :: bg :: ba :: row :: rest in
  get_preq_command d final av s = Ok c /\
  (c = final <-> check_rowbuffer_hit d final av s = Ok true) /\
  (forall s', c = cmd "ACT" -> issue_command d c av s = Ok s' ->
     get_preq_command d final av s' = Ok final) /\
  (forall s1 s2, c = cmd "PRE" -> issue_command d c av s = Ok s1 ->
     get_preq_command d final av s1 = Ok (cmd "ACT") /\
     (issue_command d (cmd "ACT") av s1 = Ok s2 -> get_preq_command d final av s2 = Ok final)).
Proof.
  intros Hi Hr Hv Hf Hc av. destruct (query_bank _ _ _ _ _ _ _ _ _ _ _ _ rest _ _ _ Hi Hr Hv Hf Hc) as [H1 H2].
  fold av in H1, H2.
  assert (forall s h, reach false d s0 s h -> forall s', issue_command d (cmd "ACT") av s = Ok s' ->
    forall v, bank_view s ch ra bg ba = Some v -> get_preq_command d final av s' = Ok final) as Hact.
  { intros t h Ht t' Hi' w Hw.
    assert (cmd "ACT" ∈ bank_cmds) as Hin by in_list.
    destruct (issue_bank _ _ _ _ _ _ _ _ _ _ _ _ _ _ _ _ Hi Ht Hw Hin Hi') as [Hw' _].
    eapply (query_bank _ _ _ _ false t' _ _ _ _ _ row rest); [done|by eapply reach_issue|done|done|].
    unfold row_preq, bank_step. cbn. by rewrite lookup_insert_eq. }
  assert (reach false d s0 s H) as Hr0.
  { clear -Hr. induction Hr; [constructor|by eapply reach_tick|by eapply reach_issue]. }
  split; [done|]. split.
  { rewrite H2. clear -Hc Hf. unfold row_preq, row_hit in *.
    repeat (apply elem_of_cons in Hf as [->|Hf];
      [destruct (v.1 =? def_id states "Closed") eqn:E1;
         [apply Z.eqb_eq in E1; rewrite E1; by injection Hc as <-|];
       destruct (v.1 =? def_id states "Opened") eqn:E2; cbn [andb];
         [destruct (v.2 !! row) eqn:E3; injection Hc as <-; by cbn
         |destruct (v.1 =? def_id states "Refreshing"); [by injection Hc as <-|done]]|]).
    by apply not_elem_of_nil in Hf. }
  split; [intros s' -> Hs'; by eapply Hact|]. intros s1 s2 -> Hs1.
  assert (cmd "PRE" ∈ bank_cmds) as Hin by in_list.
  destruct (issue_bank _ _ _ _ _ _ _ _ _ _ _ _ _ _ _ _ Hi Hr0 Hv Hin Hs1) as [Hv1 _].
  split.
  - eapply (query_bank _ _ _ _ false s1 _ _ _ _ _ row rest); [done|by eapply reach_issue|done|done|done].
  - intros Hs2. eapply Hact; [by eapply reach_issue|done|done].
Qed.

Definition demo_av : list Z := bank_addr 0 0 5.

Definition closed_view : Z * gmap Z Z := (def_id states "Closed", ∅).

Lemma demo_closed : bank_view demo_s 0 0 0 0 = Some closed_view.
Proof. vm_compute. reflexivity. Qed.

Lemma demo_act_ok : ok_b (issue_command demo_d (cmd "ACT") demo_av demo_s) = true.
Proof. vm_compute. reflexivity. Qed.

Lemma ddr4_bank_state_machine_witness :
  exists s', issue_command demo_d (cmd "ACT") demo_av demo_s = Ok s' /\
    bank_view s' 0 0 0 0 = Some (bank_step (cmd "ACT") 5 closed_view).
Proof.
  destruct (issue_command demo_d (cmd "ACT") demo_av demo_s) as [s'|e] eqn:E;
    [|pose proof demo_act_ok as Hb; rewrite E in Hb; discriminate Hb].
  exists s'. split; [reflexivity|].
  assert (cmd "ACT" ∈ bank_cmds) as Hin by in_list.
  exact (proj1 (ddr4_bank_state_machine demo_org demo_timing demo_d demo_s true demo_s []
    (cmd "ACT") 0 0 0 0 5 [0] closed_view s' demo_init (reach_init _ _ _) demo_closed Hin E)).
Defined.

Lemma ddr4_open_row_sequence_witness :
  row_preq (cmd "RD") 5 closed_view = Ok (cmd "ACT") /\
  get_preq_command demo_d (cmd "RD") demo_av demo_s = Ok (cmd "ACT").
Proof.
  assert (row_preq (cmd "RD") 5 closed_view = Ok (cmd "ACT")) as Hc by reflexivity.
  split; [exact Hc|]. assert (cmd "RD" ∈ [cmd "RD"; cmd "WR"]) as Hin by in_list.
  exact (proj1 (ddr4_open_row_sequence demo_org demo_timing demo_d demo_s true demo_s [] 0 0 0 0 5 [0]
    closed_view (cmd "RD") (cmd "ACT") demo_init (reach_init _ _ _) demo_closed Hin Hc)).
Defined.
