(* ===== verification/DDR3.v ===== *)
(** * The DDR3 device: [dram/impl/DDR3.cpp]

    Presets and tables of the class [DDR3], and the computation of its timing
    parameters; the operations of the device are those of [Device]. *)
From Stdlib Require Import String Ascii.
From S2P Require Import Prelude CxxFloat Utils DramSpec DramNode DramLambdas DramConfig Device.
Local Open Scope string_scope.
Local Open Scope Z_scope.

Module DDR3.
Definition org_presets : list (string * Organization) :=
  [
   ("DDR3_1Gb_x4", mkOrganization (1 * 2 ^ 10) 4 [1; 1; 8; 2 ^ 14; 2 ^ 11]);
   ("DDR3_1Gb_x8", mkOrganization (1 * 2 ^ 10) 8 [1; 1; 8; 2 ^ 14; 2 ^ 10]);
   ("DDR3_1Gb_x16", mkOrganization (1 * 2 ^ 10) 16 [1; 1; 8; 2 ^ 13; 2 ^ 10]);
   ("DDR3_2Gb_x4", mkOrganization (2 * 2 ^ 10) 4 [1; 1; 8; 2 ^ 15; 2 ^ 11]);
   ("DDR3_2Gb_x8", mkOrganization (2 * 2 ^ 10) 8 [1; 1; 8; 2 ^ 15; 2 ^ 10]);
   ("DDR3_2Gb_x16", mkOrganization (2 * 2 ^ 10) 16 [1; 1; 8; 2 ^ 14; 2 ^ 10]);
   ("DDR3_4Gb_x4", mkOrganization (4 * 2 ^ 10) 4 [1; 1; 8; 2 ^ 16; 2 ^ 11]);
   ("DDR3_4Gb_x8", mkOrganization (4 * 2 ^ 10) 8 [1; 1; 8; 2 ^ 16; 2 ^ 10]);
   ("DDR3_4Gb_x16", mkOrganization (4 * 2 ^ 10) 16 [1; 1; 8; 2 ^ 15; 2 ^ 10]);
   ("DDR3_8Gb_x4", mkOrganization (8 * 2 ^ 10) 4 [1; 1; 8; 2 ^ 17; 2 ^ 11]);
   ("DDR3_8Gb_x8", mkOrganization (8 * 2 ^ 10) 8 [1; 1; 8; 2 ^ 17; 2 ^ 10]);
   ("DDR3_8Gb_x16", mkOrganization (8 * 2 ^ 10) 16 [1; 1; 8; 2 ^ 16; 2 ^ 10])].

Definition timing_presets : list (string * list Z) :=
  [
   ("DDR3_800D", [800; 4; 5; 5; 5; 15; 20; 6; 4; 9; 4; -1; 4; -1; -1; -1; 2; 2500]);
   ("DDR3_800E", [800; 4; 5; 5; 5; 15; 20; 6; 4; 9; 4; -1; 4; -1; -1; -1; 2; 2500]);
   ("DDR3_1066E", [1066; 4; 6; 6; 6; 20; 26; 8; 4; 9; 4; -1; 4; -1; -1; -1; 2; 1875]);
   ("DDR3_1066F", [1066; 4; 7; 7; 7; 20; 27; 8; 4; 9; 4; -1; 4; -1; -1; -1; 2; 1875]);
   ("DDR3_1066G", [1066; 4; 8; 8; 8; 20; 28; 8; 4; 9; 4; -1; 4; -1; -1; -1; 2; 1875]);
   ("DDR3_1333G", [1333; 4; 8; 8; 8; 24; 32; 10; 5; 9; 4; -1; 5; -1; -1; -1; 2; 1500]);
   ("DDR3_1333H", [1333; 4; 9; 9; 9; 24; 33; 10; 5; 9; 4; -1; 5; -1; -1; -1; 2; 1500]);
   ("DDR3_1600H", [1600; 4; 9; 9; 9; 28; 37; 12; 6; 9; 4; -1; 6; -1; -1; -1; 2; 1250]);
   ("DDR3_1600J", [1600; 4; 10; 10; 10; 28; 38; 12; 6; 9; 4; -1; 6; -1; -1; -1; 2; 1250]);
   ("DDR3_1600K", [1600; 4; 11; 11; 11; 28; 39; 12; 6; 9; 4; -1; 6; -1; -1; -1; 2; 1250]);
   ("DDR3_1866K", [1866; 4; 11; 11; 11; 32; 43; 14; 7; 9; 4; -1; 7; -1; -1; -1; 2; 1071]);
   ("DDR3_1866L", [1866; 4; 12; 12; 12; 32; 44; 14; 7; 9; 4; -1; 7; -1; -1; -1; 2; 1071]);
   ("DDR3_2133L", [2133; 4; 12; 12; 12; 36; 48; 16; 8; 9; 4; -1; 8; -1; -1; -1; 2; 937]);
   ("DDR3_2133M", [2133; 4; 13; 13; 13; 36; 49; 16; 8; 9; 4; -1; 8; -1; -1; -1; 2; 937])].

Definition m_internal_prefetch_size : Z := 8.

Definition levels : ImplDef :=
  ["channel"; "rank"; "bank"; "row"; "column"].

Definition commands : ImplDef :=
  ["ACT"; "PRE"; "PREA"; "RD"; "WR"; "RDA"; "WRA"; "REFab"].

Definition command_scopes : res (list Z) :=
  LUT_def commands levels
    [("ACT", "row"); ("PRE", "bank"); ("PREA", "rank"); ("RD", "column"); ("WR", "column");
     ("RDA", "column"); ("WRA", "column"); ("REFab", "rank")].

Definition command_meta : res (list DRAMCommandMeta) :=
  LUT commands no_meta
    [("ACT", mkMeta true false false false false);
     ("PRE", mkMeta false true false false false);
     ("PREA", mkMeta false true false false false);
     ("RD", mkMeta false false true false false);
     ("WR", mkMeta false false true false false);
     ("RDA", mkMeta false true true false false);
     ("WRA", mkMeta false true true false false);
     ("REFab", mkMeta false false false true false)].

Definition requests : ImplDef :=
  ["read"; "write"; "all-bank-refresh"].

Definition request_translations : res (list Z) :=
  LUT_def requests commands
    [("read", "RD"); ("write", "WR"); ("all-bank-refresh", "REFab")].

Definition timings : ImplDef :=
  ["rate"; "nBL"; "nCL"; "nRCD"; "nRP"; "nRAS"; "nRC"; "nWR"; "nRTP"; "nCWL"; "nCCD"; "nRRD"; "nWTR";
   "nFAW"; "nRFC"; "nREFI"; "nCS"; "tCK_ps"].

Definition states : ImplDef :=
  ["Opened"; "Closed"; "PowerUp"; "N/A"; "Refreshing"].

Definition init_states : res (list Z) :=
  LUT_def levels states
    [("channel", "N/A"); ("rank", "PowerUp"); ("bank", "Closed"); ("row", "Closed");
     ("column", "N/A")].

Definition lvl (name : string) : Z := def_id levels name.
Definition cmd (name : string) : Z := def_id commands name.

(** ** Initialisation *)
Definition set_organization (p : OrgParams) : res (Z * Organization) :=
  o ← load_organization levels org_presets p;
  n0 ← vget (count o) (lvl "bank");
  n1 ← vget (count o) (lvl "row");
  n2 ← vget (count o) (lvl "column");
  o ← check_density [n0; n1; n2] o;
  Ok (default 64 (org_channel_width p), o).

Definition nRRD_TABLE : list (list Z) :=
  [[4; 4; 4; 5; 5; 6]; [4; 4; 4; 5; 5; 6]; [4; 6; 5; 6; 6; 7]].
Definition nFAW_TABLE : list (list Z) :=
  [[16; 20; 20; 24; 26; 27]; [16; 20; 20; 24; 26; 27]; [20; 27; 30; 32; 33; 34]].
Definition tRFC_TABLE : list Z := [110; 160; 260; 350].
Definition tREFI_BASE : Z := 7800.
Definition dq_id (x : Z) : Z := switch_id [4; 8; 16] x.
Definition rate_id (x : Z) : Z := switch_id [800; 1066; 1333; 1600; 1866; 2133] x.
Definition density_id (x : Z) : Z := switch_id [1024; 2048; 4096; 8192] x.

Definition secondary_timings (o : Organization) (rate : Z) (vals : list Z) : res (list Z) :=
  let d := dq_id (dq o) in
  let r := rate_id rate in
  if negb (d =? -1) && negb (r =? -1) then
    x ← table2 nRRD_TABLE d r; vals ← tset timings "nRRD" x vals;
    x ← table2 nFAW_TABLE d r; tset timings "nFAW" x vals
  else Ok vals.

Definition refresh_timings (o : Organization) (tCK_ps : Z) (vals : list Z) : res (list Z) :=
  rfc ← vget tRFC_TABLE (density_id (density o));
  vals ← tset_ns JEDEC_rounding timings tCK_ps "nRFC" rfc vals;
  tset_ns JEDEC_rounding timings tCK_ps "nREFI" tREFI_BASE vals.

Definition timing_vals (p : TimingParams) (o : Organization) : res (list Z) :=
  '(vals, rate, tCK_ps) ← base_timings timings timing_presets p;
  vals ← secondary_timings o rate vals;
  vals ← refresh_timings o tCK_ps vals;
  final_timings JEDEC_rounding timings tCK_ps p vals.

Definition read_latency (vals : list Z) : res Z :=
  cl ← tval timings vals "nCL"; bl ← tval timings vals "nBL"; Ok (cl + bl).

(** The argument of [populate_timingcons]; [V] reads a timing value. *)
Definition timing_initializers (V : string -> Z) : list TimingConsInitializer :=
  [
   mkInit "channel" ["RD"; "RDA"] ["RD"; "RDA"] (V "nBL") 1 false;
   mkInit "channel" ["WR"; "WRA"] ["WR"; "WRA"] (V "nBL") 1 false;
   mkInit "rank" ["RD"; "RDA"] ["RD"; "RDA"] (V "nCCD") 1 false;
   mkInit "rank" ["WR"; "WRA"] ["WR"; "WRA"] (V "nCCD") 1 false;
   mkInit "rank" ["RD"; "RDA"] ["WR"; "WRA"] (V "nCL" + V "nBL" + 2 - V "nCWL") 1 false;
   mkInit "rank" ["WR"; "WRA"] ["RD"; "RDA"] (V "nCWL" + V "nBL" + V "nWTR") 1 false;
   mkInit "rank" ["RD"; "RDA"] ["RD"; "RDA"; "WR"; "WRA"] (V "nBL" + V "nCS") 1 true;
   mkInit "rank" ["WR"; "WRA"] ["RD"; "RDA"] (V "nCL" + V "nBL" + V "nCS" - V "nCWL") 1 true;
   mkInit "rank" ["RD"] ["PREA"] (V "nRTP") 1 false;
   mkInit "rank" ["WR"] ["PREA"] (V "nCWL" + V "nBL" + V "nWR") 1 false;
   mkInit "rank" ["ACT"] ["ACT"] (V "nRRD") 1 false;
   mkInit "rank" ["ACT"] ["ACT"] (V "nFAW") 4 false;
   mkInit "rank" ["ACT"] ["PREA"] (V "nRAS") 1 false;
   mkInit "rank" ["PREA"] ["ACT"] (V "nRP") 1 false;
   mkInit "rank" ["ACT"] ["REFab"] (V "nRC") 1 false;
   mkInit "rank" ["PRE"; "PREA"] ["REFab"] (V "nRP") 1 false;
   mkInit "rank" ["RDA"] ["REFab"] (V "nRP" + V "nRTP") 1 false;
   mkInit "rank" ["WRA"] ["REFab"] (V "nCWL" + V "nBL" + V "nWR" + V "nRP") 1 false;
   mkInit "rank" ["REFab"] ["ACT"] (V "nRFC") 1 false;
   mkInit "bank" ["ACT"] ["ACT"] (V "nRC") 1 false;
   mkInit "bank" ["ACT"] ["RD"; "RDA"; "WR"; "WRA"] (V "nRCD") 1 false;
   mkInit "bank" ["ACT"] ["PRE"] (V "nRAS") 1 false;
   mkInit "bank" ["PRE"] ["ACT"] (V "nRP") 1 false;
   mkInit "bank" ["RD"] ["PRE"] (V "nRTP") 1 false;
   mkInit "bank" ["WR"] ["PRE"] (V "nCWL" + V "nBL" + V "nWR") 1 false;
   mkInit "bank" ["RDA"] ["ACT"] (V "nRTP" + V "nRP") 1 false;
   mkInit "bank" ["WRA"] ["ACT"] (V "nCWL" + V "nBL" + V "nWR" + V "nRP") 1 false].

Definition actions : FuncMatrix ActionFunc :=
  [(lvl "rank", cmd "PREA", Action_Rank_PREab levels states);
   (lvl "bank", cmd "ACT", Action_Bank_ACT states);
   (lvl "bank", cmd "PRE", Action_Bank_PRE states);
   (lvl "bank", cmd "RDA", Action_Bank_PRE states);
   (lvl "bank", cmd "WRA", Action_Bank_PRE states)].

Definition preqs : FuncMatrix PreqFunc :=
  [(lvl "rank", cmd "REFab", Preq_Rank_RequireAllBanksClosed levels commands states);
   (lvl "bank", cmd "RD", Preq_Bank_RequireRowOpen levels commands states);
   (lvl "bank", cmd "WR", Preq_Bank_RequireRowOpen levels commands states)].

Definition rowhits : FuncMatrix RowFunc :=
  [(lvl "bank", cmd "RD", RowHit_Bank_RDWR states);
   (lvl "bank", cmd "WR", RowHit_Bank_RDWR states)].

Definition rowopens : FuncMatrix RowFunc :=
  [(lvl "bank", cmd "RD", RowOpen_Bank_RDWR states);
   (lvl "bank", cmd "WR", RowOpen_Bank_RDWR states)].

(** Commands that end later: the command that ends them and when. *)
Definition futures : list (string * string * string) :=
  [].

(** ** The device *)
Definition std : Standard := {|
  st_levels := levels; st_commands := commands; st_states := states; st_timings := timings;
  st_requests := requests;
  st_scopes := command_scopes; st_meta := command_meta; st_translations := request_translations;
  st_init_states := init_states;
  st_organization := set_organization; st_timing_vals := timing_vals; st_read_latency := read_latency;
  st_initializers := timing_initializers;
  st_actions := actions; st_preqs := preqs; st_rowhits := rowhits; st_rowopens := rowopens;
  st_futures := futures;
|}.

Definition create_nodes := Dev.create_nodes std.
Definition init := Dev.init std.
Definition issue_command := Dev.issue_command std.
Definition tick := Dev.tick std.
Definition get_preq_command := Dev.get_preq_command std.
Definition check_ready := Dev.check_ready std.
Definition check_rowbuffer_hit := Dev.check_rowbuffer_hit std.
Definition check_node_open := Dev.check_node_open std.
End DDR3.
