(* ===== verification/DDR4VRR.v ===== *)
(** * The DDR4 with victim row refresh device: [dram/impl/DDR4-VRR.cpp]

    Presets and tables of the class [DDR4VRR], and the computation of its timing
    parameters; the operations of the device are those of [Device]. *)
From Stdlib Require Import String Ascii.
From S2P Require Import Prelude CxxFloat Utils DramSpec DramNode DramLambdas DramConfig Device.
Local Open Scope string_scope.
Local Open Scope Z_scope.

Module DDR4VRR.
Section Parameters.
Context (m_RH_radius : Z).

Definition org_presets : list (string * Organization) :=
  [
   ("DDR4_2Gb_x4", mkOrganization (2 * 2 ^ 10) 4 [1; 1; 4; 4; 2 ^ 15; 2 ^ 10]);
   ("DDR4_2Gb_x8", mkOrganization (2 * 2 ^ 10) 8 [1; 1; 4; 4; 2 ^ 14; 2 ^ 10]);
   ("DDR4_2Gb_x16", mkOrganization (2 * 2 ^ 10) 16 [1; 1; 2; 4; 2 ^ 14; 2 ^ 10]);
   ("DDR4_4Gb_x4", mkOrganization (4 * 2 ^ 10) 4 [1; 1; 4; 4; 2 ^ 16; 2 ^ 10]);
   ("DDR4_4Gb_x8", mkOrganization (4 * 2 ^ 10) 8 [1; 1; 4; 4; 2 ^ 15; 2 ^ 10]);
   ("DDR4_4Gb_x16", mkOrganization (4 * 2 ^ 10) 16 [1; 1; 2; 4; 2 ^ 15; 2 ^ 10]);
   ("DDR4_8Gb_x4", mkOrganization (8 * 2 ^ 10) 4 [1; 1; 4; 4; 2 ^ 17; 2 ^ 10]);
   ("DDR4_8Gb_x8", mkOrganization (8 * 2 ^ 10) 8 [1; 1; 4; 4; 2 ^ 16; 2 ^ 10]);
   ("DDR4_8Gb_x16", mkOrganization (8 * 2 ^ 10) 16 [1; 1; 2; 4; 2 ^ 16; 2 ^ 10]);
   ("DDR4_16Gb_x4", mkOrganization (16 * 2 ^ 10) 4 [1; 1; 4; 4; 2 ^ 18; 2 ^ 10]);
   ("DDR4_16Gb_x8", mkOrganization (16 * 2 ^ 10) 8 [1; 1; 4; 4; 2 ^ 17; 2 ^ 10]);
   ("DDR4_16Gb_x16", mkOrganization (16 * 2 ^ 10) 16 [1; 1; 2; 4; 2 ^ 17; 2 ^ 10])].

Definition timing_presets : list (string * list Z) :=
  [
   ("DDR4_1600J", [1600; 4; 10; 10; 10; 28; 38; 12; 6; 9; 4; 5; -1; -1; 2; 6; -1; -1; -1; -1; 2; 1250]);
   ("DDR4_1600K", [1600; 4; 11; 11; 11; 28; 39; 12; 6; 9; 4; 5; -1; -1; 2; 6; -1; -1; -1; -1; 2; 1250]);
   ("DDR4_1600L", [1600; 4; 12; 12; 12; 28; 40; 12; 6; 9; 4; 5; -1; -1; 2; 6; -1; -1; -1; -1; 2; 1250]);
   ("DDR4_1866L", [1866; 4; 12; 12; 12; 32; 44; 14; 7; 10; 4; 5; -1; -1; 3; 7; -1; -1; -1; -1; 2; 1071]);
   ("DDR4_1866M", [1866; 4; 13; 13; 13; 32; 45; 14; 7; 10; 4; 5; -1; -1; 3; 7; -1; -1; -1; -1; 2; 1071]);
   ("DDR4_1866N", [1866; 4; 14; 14; 14; 32; 46; 14; 7; 10; 4; 5; -1; -1; 3; 7; -1; -1; -1; -1; 2; 1071]);
   ("DDR4_2133N", [2133; 4; 14; 14; 14; 36; 50; 16; 8; 11; 4; 6; -1; -1; 3; 8; -1; -1; -1; -1; 2; 937]);
   ("DDR4_2133P", [2133; 4; 15; 15; 15; 36; 51; 16; 8; 11; 4; 6; -1; -1; 3; 8; -1; -1; -1; -1; 2; 937]);
   ("DDR4_2133R", [2133; 4; 16; 16; 16; 36; 52; 16; 8; 11; 4; 6; -1; -1; 3; 8; -1; -1; -1; -1; 2; 937]);
   ("DDR4_2400P", [2400; 4; 15; 15; 15; 39; 54; 18; 9; 12; 4; 6; -1; -1; 3; 9; -1; -1; -1; -1; 2; 833]);
   ("DDR4_2400R", [2400; 4; 16; 16; 16; 39; 55; 18; 9; 12; 4; 6; -1; -1; 3; 9; -1; -1; -1; -1; 2; 833]);
   ("DDR4_2400U", [2400; 4; 17; 17; 17; 39; 56; 18; 9; 12; 4; 6; -1; -1; 3; 9; -1; -1; -1; -1; 2; 833]);
   ("DDR4_2400T", [2400; 4; 18; 18; 18; 39; 57; 18; 9; 12; 4; 6; -1; -1; 3; 9; -1; -1; -1; -1; 2; 833]);
   ("DDR4_2666T", [2666; 4; 17; 17; 17; 43; 60; 20; 10; 14; 4; 7; -1; -1; 4; 10; -1; -1; -1; -1; 2; 750]);
   ("DDR4_2666U", [2666; 4; 18; 18; 18; 43; 61; 20; 10; 14; 4; 7; -1; -1; 4; 10; -1; -1; -1; -1; 2; 750]);
   ("DDR4_2666V", [2666; 4; 19; 19; 19; 43; 62; 20; 10; 14; 4; 7; -1; -1; 4; 10; -1; -1; -1; -1; 2; 750]);
   ("DDR4_2666W", [2666; 4; 20; 20; 20; 43; 63; 20; 10; 14; 4; 7; -1; -1; 4; 10; -1; -1; -1; -1; 2; 750]);
   ("DDR4_2933V", [2933; 4; 19; 19; 19; 47; 66; 22; 11; 16; 4; 8; -1; -1; 4; 11; -1; -1; -1; -1; 2; 682]);
   ("DDR4_2933W", [2933; 4; 20; 20; 20; 47; 67; 22; 11; 16; 4; 8; -1; -1; 4; 11; -1; -1; -1; -1; 2; 682]);
   ("DDR4_2933Y", [2933; 4; 21; 21; 21; 47; 68; 22; 11; 16; 4; 8; -1; -1; 4; 11; -1; -1; -1; -1; 2; 682]);
   ("DDR4_2933AA", [2933; 4; 22; 22; 22; 47; 69; 22; 11; 16; 4; 8; -1; -1; 4; 11; -1; -1; -1; -1; 2; 682]);
   ("DDR4_3200W", [3200; 4; 20; 20; 20; 52; 72; 24; 12; 16; 4; 8; -1; -1; 4; 12; -1; -1; -1; -1; 2; 625]);
   ("DDR4_3200AA", [3200; 4; 22; 22; 22; 52; 74; 24; 12; 16; 4; 8; -1; -1; 4; 12; -1; -1; -1; -1; 2; 625]);
   ("DDR4_3200AC", [3200; 4; 24; 24; 24; 52; 76; 24; 12; 16; 4; 8; -1; -1; 4; 12; -1; -1; -1; -1; 2; 625])].

Definition m_internal_prefetch_size : Z := 8.

Definition levels : ImplDef :=
  ["channel"; "rank"; "bankgroup"; "bank"; "row"; "column"].

Definition commands : ImplDef :=
  ["ACT"; "PRE"; "PREA"; "RD"; "WR"; "RDA"; "WRA"; "REFab"; "REFab_end"; "VRR"; "VRR_end"].

Definition command_scopes : res (list Z) :=
  LUT_def commands levels
    [("ACT", "row"); ("PRE", "bank"); ("PREA", "rank"); ("RD", "column"); ("WR", "column");
     ("RDA", "column"); ("WRA", "column"); ("REFab", "rank"); ("REFab_end", "rank"); ("VRR", "bank");
     ("VRR_end", "bank")].

Definition command_meta : res (list DRAMCommandMeta) :=
  LUT commands no_meta
    [("ACT", mkMeta true false false false false);
     ("PRE", mkMeta false true false false false);
     ("PREA", mkMeta false true false false false);
     ("RD", mkMeta false false true false false);
     ("WR", mkMeta false false true false false);
     ("RDA", mkMeta false true true false false);
     ("WRA", mkMeta false true true false false);
     ("REFab", mkMeta false false false true false);
     ("REFab_end", mkMeta false true false false false);
     ("VRR", mkMeta false false false true false);
     ("VRR_end", mkMeta false true false false false)].

Definition requests : ImplDef :=
  ["read"; "write"; "all-bank-refresh"; "victim-row-refresh"; "open-row"; "close-row"].

Definition request_translations : res (list Z) :=
  LUT_def requests commands
    [("read", "RD"); ("write", "WR"); ("all-bank-refresh", "REFab"); ("victim-row-refresh", "VRR");
     ("open-row", "ACT"); ("close-row", "PRE")].

Definition timings : ImplDef :=
  ["rate"; "nBL"; "nCL"; "nRCD"; "nRP"; "nRAS"; "nRC"; "nWR"; "nRTP"; "nCWL"; "nCCDS"; "nCCDL";
   "nRRDS"; "nRRDL"; "nWTRS"; "nWTRL"; "nFAW"; "nRFC"; "nREFI"; "nVRR"; "nCS"; "tCK_ps"].

Definition states : ImplDef :=
  ["Opened"; "Closed"; "PowerUp"; "N/A"; "Refreshing"].

Definition init_states : res (list Z) :=
  LUT_def levels states
    [("channel", "N/A"); ("rank", "PowerUp"); ("bankgroup", "N/A"); ("bank", "Closed");
     ("row", "Closed"); ("column", "N/A")].

Definition lvl (name : string) : Z := def_id levels name.
Definition cmd (name : string) : Z := def_id commands name.

(** ** Initialisation *)
Definition set_organization (p : OrgParams) : res (Z * Organization) :=
  o ← load_organization levels org_presets p;
  n0 ← vget (count o) (lvl "bankgroup");
  n1 ← vget (count o) (lvl "bank");
  n2 ← vget (count o) (lvl "row");
  n3 ← vget (count o) (lvl "column");
  o ← check_density [n0; n1; n2; n3] o;
  Ok (default 64 (org_channel_width p), o).

Definition nRRDS_TABLE : list (list Z) :=
  [[4; 4; 4; 4; 4; 4; 4]; [4; 4; 4; 4; 4; 4; 4]; [5; 5; 6; 7; 8; 8; 9]].
Definition nRRDL_TABLE : list (list Z) :=
  [[5; 5; 6; 6; 7; 8; 8]; [5; 5; 6; 6; 7; 8; 8]; [6; 6; 7; 8; 9; 10; 11]].
Definition nFAW_TABLE : list (list Z) :=
  [[16; 16; 16; 16; 16; 16; 16]; [20; 22; 23; 26; 28; 31; 34]; [28; 28; 32; 36; 40; 44; 48]].
Definition tRFC_TABLE : list (list Z) :=
  [[160; 260; 360; 550]; [110; 160; 260; 350]; [90; 110; 160; 260]].
Definition tREFI_BASE : Z := 7800.
Definition dq_id (x : Z) : Z := switch_id [4; 8; 16] x.
Definition rate_id (x : Z) : Z := switch_id [1600; 1866; 2133; 2400; 2666; 2933; 3200] x.
Definition density_id (x : Z) : Z := switch_id [2048; 4096; 8192; 16384] x.

Definition secondary_timings (o : Organization) (rate : Z) (vals : list Z) : res (list Z) :=
  let d := dq_id (dq o) in
  let r := rate_id rate in
  if negb (d =? -1) && negb (r =? -1) then
    x ← table2 nRRDS_TABLE d r; vals ← tset timings "nRRDS" x vals;
    x ← table2 nRRDL_TABLE d r; vals ← tset timings "nRRDL" x vals;
    x ← table2 nFAW_TABLE d r; tset timings "nFAW" x vals
  else Ok vals.

Definition refresh_timings (o : Organization) (tCK_ps : Z) (vals : list Z) : res (list Z) :=
  rfc ← table2 tRFC_TABLE 0 (density_id (density o));
  vals ← tset_ns JEDEC_rounding timings tCK_ps "nRFC" rfc vals;
  tset_ns JEDEC_rounding timings tCK_ps "nREFI" tREFI_BASE vals.

Definition nVRR_base_ns : Z := 70.

Definition vrr_timings (tCK_ps : Z) (vals : list Z) : res (list Z) :=
  ns ← int32 (nVRR_base_ns * m_RH_radius * 2);
  tset_ns JEDEC_rounding timings tCK_ps "nVRR" ns vals.

Definition timing_vals (p : TimingParams) (o : Organization) : res (list Z) :=
  '(vals, rate, tCK_ps) ← base_timings timings timing_presets p;
  vals ← secondary_timings o rate vals;
  vals ← refresh_timings o tCK_ps vals;
  vals ← vrr_timings tCK_ps vals;
  final_timings JEDEC_rounding timings tCK_ps p vals.

Definition read_latency (vals : list Z) : res Z :=
  cl ← tval timings vals "nCL"; bl ← tval timings vals "nBL"; Ok (cl + bl).

(** The argument of [populate_timingcons]; [V] reads a timing value. *)
Definition timing_initializers (V : string -> Z) : list TimingConsInitializer :=
  [
   mkInit "channel" ["RD"; "RDA"] ["RD"; "RDA"] (V "nBL") 1 false;
   mkInit "channel" ["WR"; "WRA"] ["WR"; "WRA"] (V "nBL") 1 false;
   mkInit "rank" ["RD"; "RDA"] ["RD"; "RDA"] (V "nCCDS") 1 false;
   mkInit "rank" ["WR"; "WRA"] ["WR"; "WRA"] (V "nCCDS") 1 false;
   mkInit "rank" ["RD"; "RDA"] ["WR"; "WRA"] (V "nCL" + V "nBL" + 2 - V "nCWL") 1 false;
   mkInit "rank" ["WR"; "WRA"] ["RD"; "RDA"] (V "nCWL" + V "nBL" + V "nWTRS") 1 false;
   mkInit "rank" ["RD"; "RDA"] ["RD"; "RDA"; "WR"; "WRA"] (V "nBL" + V "nCS") 1 true;
   mkInit "rank" ["WR"; "WRA"] ["RD"; "RDA"] (V "nCL" + V "nBL" + V "nCS" - V "nCWL") 1 true;
   mkInit "rank" ["RD"] ["PREA"] (V "nRTP") 1 false;
   mkInit "rank" ["WR"] ["PREA"] (V "nCWL" + V "nBL" + V "nWR") 1 false;
   mkInit "rank" ["ACT"] ["ACT"] (V "nRRDS") 1 false;
   mkInit "rank" ["ACT"] ["ACT"] (V "nFAW") 4 false;
   mkInit "rank" ["ACT"] ["PREA"] (V "nRAS") 1 false;
   mkInit "rank" ["VRR"] ["PREA"] (V "nVRR") 1 false;
   mkInit "rank" ["PREA"] ["ACT"; "VRR"] (V "nRP") 1 false;
   mkInit "rank" ["ACT"] ["REFab"] (V "nRC") 1 false;
   mkInit "rank" ["VRR"] ["REFab"] (V "nVRR") 1 false;
   mkInit "rank" ["PRE"; "PREA"] ["REFab"] (V "nRP") 1 false;
   mkInit "rank" ["RDA"] ["REFab"] (V "nRP" + V "nRTP") 1 false;
   mkInit "rank" ["WRA"] ["REFab"] (V "nCWL" + V "nBL" + V "nWR" + V "nRP") 1 false;
   mkInit "rank" ["REFab"] ["ACT"; "VRR"] (V "nRFC") 1 false;
   mkInit "bankgroup" ["RD"; "RDA"] ["RD"; "RDA"] (V "nCCDL") 1 false;
   mkInit "bankgroup" ["WR"; "WRA"] ["WR"; "WRA"] (V "nCCDL") 1 false;
   mkInit "bankgroup" ["WR"; "WRA"] ["RD"; "RDA"] (V "nCWL" + V "nBL" + V "nWTRL") 1 false;
   mkInit "bankgroup" ["ACT"] ["ACT"] (V "nRRDL") 1 false;
   mkInit "bank" ["ACT"] ["ACT"; "VRR"] (V "nRC") 1 false;
   mkInit "bank" ["VRR"] ["ACT"; "VRR"] (V "nVRR") 1 false;
   mkInit "bank" ["ACT"] ["RD"; "RDA"; "WR"; "WRA"] (V "nRCD") 1 false;
   mkInit "bank" ["ACT"] ["PRE"] (V "nRAS") 1 false;
   mkInit "bank" ["PRE"] ["ACT"; "VRR"] (V "nRP") 1 false;
   mkInit "bank" ["RD"] ["PRE"] (V "nRTP") 1 false;
   mkInit "bank" ["WR"] ["PRE"] (V "nCWL" + V "nBL" + V "nWR") 1 false;
   mkInit "bank" ["RDA"] ["ACT"; "VRR"] (V "nRTP" + V "nRP") 1 false;
   mkInit "bank" ["WRA"] ["ACT"; "VRR"] (V "nCWL" + V "nBL" + V "nWR" + V "nRP") 1 false].

Definition actions : FuncMatrix ActionFunc :=
  [(lvl "rank", cmd "PREA", Action_Rank_PREab levels states);
   (lvl "rank", cmd "REFab", Action_Rank_REFab states);
   (lvl "rank", cmd "REFab_end", Action_Rank_REFab_end states);
   (lvl "bank", cmd "ACT", Action_Bank_ACT states);
   (lvl "bank", cmd "PRE", Action_Bank_PRE states);
   (lvl "bank", cmd "RDA", Action_Bank_PRE states);
   (lvl "bank", cmd "WRA", Action_Bank_PRE states);
   (lvl "bank", cmd "VRR", Action_Bank_VRR states);
   (lvl "bank", cmd "VRR_end", Action_Bank_VRR_end states)].

Definition preqs : FuncMatrix PreqFunc :=
  [(lvl "rank", cmd "REFab", Preq_Rank_RequireAllBanksClosed levels commands states);
   (lvl "bank", cmd "RD", Preq_Bank_RequireRowOpen levels commands states);
   (lvl "bank", cmd "WR", Preq_Bank_RequireRowOpen levels commands states);
   (lvl "bank", cmd "VRR", Preq_Bank_RequireBankClosed commands states);
   (lvl "bank", cmd "ACT", Preq_Bank_RequireRowOpen levels commands states);
   (lvl "bank", cmd "PRE", Preq_Bank_RequireBankClosed commands states)].

Definition rowhits : FuncMatrix RowFunc :=
  [(lvl "bank", cmd "RD", RowHit_Bank_RDWR states);
   (lvl "bank", cmd "WR", RowHit_Bank_RDWR states)].

Definition rowopens : FuncMatrix RowFunc :=
  [(lvl "bank", cmd "RD", RowOpen_Bank_RDWR states);
   (lvl "bank", cmd "WR", RowOpen_Bank_RDWR states)].

(** Commands that end later: the command that ends them and when. *)
Definition futures : list (string * string * string) :=
  [("REFab", "REFab_end", "nRFC");
   ("VRR", "VRR_end", "nVRR")].

(** ** The device *)
Definition std : Standard := {|
  st_levels := levels; st_commands := commands; st_states := states; st_timings := timings;
  st_requests := requests;
  st_scopes := command_scopes; st_meta := command_meta; st_translations := request_translations;
  st_init_states := init_states;
  st_organization := set_organization; st_timing_vals := timing_vals; st_read_latency := read_latency;
  st_initializers := timing_initializers;
  st_actions := actions; st_preqs := preqs; st_rowhits := rowhits; st_rowopens := rowopens;
  st_futures := futures;
|}.

Definition create_nodes := Dev.create_nodes std.
Definition init := Dev.init std.
Definition check_future_action := Dev.check_future_action std.
Definition handle_future_action := Dev.handle_future_action std.
Definition issue_command := Dev.issue_command std.
Definition tick := Dev.tick std.
Definition get_preq_command := Dev.get_preq_command std.
Definition check_ready := Dev.check_ready std.
Definition check_rowbuffer_hit := Dev.check_rowbuffer_hit std.
Definition check_node_open := Dev.check_node_open std.
End Parameters.
End DDR4VRR.
