(* ===== verification/DDR5VRR.v ===== *)
(** * The DDR5 with victim row refresh device: [dram/impl/DDR5-VRR.cpp]

    Presets and tables of the class [DDR5VRR], and the computation of its timing
    parameters; the operations of the device are those of [Device]. *)
From Stdlib Require Import String Ascii.
From S2P Require Import Prelude CxxFloat Utils DramSpec DramNode DramLambdas DramConfig Device.
Local Open Scope string_scope.
Local Open Scope Z_scope.

Module DDR5VRR.
Section Parameters.
Context (m_RH_radius m_BRC m_tRAS : Z) (m_PRAC : bool).

Definition org_presets : list (string * Organization) :=
  [
   ("DDR5_8Gb_x4", mkOrganization (8 * 2 ^ 10) 4 [1; 1; 8; 2; 2 ^ 16; 2 ^ 11]);
   ("DDR5_8Gb_x8", mkOrganization (8 * 2 ^ 10) 8 [1; 1; 8; 2; 2 ^ 16; 2 ^ 10]);
   ("DDR5_8Gb_x16", mkOrganization (8 * 2 ^ 10) 16 [1; 1; 4; 2; 2 ^ 16; 2 ^ 10]);
   ("DDR5_16Gb_x4", mkOrganization (16 * 2 ^ 10) 4 [1; 1; 8; 4; 2 ^ 16; 2 ^ 11]);
   ("DDR5_16Gb_x8", mkOrganization (16 * 2 ^ 10) 8 [1; 1; 8; 4; 2 ^ 16; 2 ^ 10]);
   ("DDR5_16Gb_x16", mkOrganization (16 * 2 ^ 10) 16 [1; 1; 4; 4; 2 ^ 16; 2 ^ 10]);
   ("DDR5_32Gb_x4", mkOrganization (32 * 2 ^ 10) 4 [1; 1; 8; 4; 2 ^ 17; 2 ^ 11]);
   ("DDR5_32Gb_x8", mkOrganization (32 * 2 ^ 10) 8 [1; 1; 8; 4; 2 ^ 17; 2 ^ 10]);
   ("DDR5_32Gb_x16", mkOrganization (32 * 2 ^ 10) 16 [1; 1; 4; 4; 2 ^ 17; 2 ^ 10])].

Definition timing_presets : list (string * list Z) :=
  [
   ("DDR5_3200AN", [3200; 8; 24; 24; 24; 52; 75; 48; 12; 22; 2; 8; 8; 22 + 8 + 4; 8; 16; 22 + 8 + 16; 8;
               -1; -1; -1; -1; -1; -1; 30; -1; -1; -1; -1; -1; -1; 2; 625]);
   ("DDR5_3200BN", [3200; 8; 26; 26; 26; 52; 77; 48; 12; 24; 2; 8; 8; 24 + 8 + 4; 8; 16; 24 + 8 + 16; 8;
               -1; -1; -1; -1; -1; -1; 30; -1; -1; -1; -1; -1; -1; 2; 625]);
   ("DDR5_3200C", [3200; 8; 28; 28; 28; 52; 79; 48; 12; 26; 2; 8; 8; 26 + 8 + 4; 8; 16; 26 + 8 + 16; 8;
               -1; -1; -1; -1; -1; -1; 30; -1; -1; -1; -1; -1; -1; 2; 625])].

Definition m_internal_prefetch_size : Z := 16.

Definition levels : ImplDef :=
  ["channel"; "rank"; "bankgroup"; "bank"; "row"; "column"].

Definition commands : ImplDef :=
  ["ACT"; "PRE"; "PREA"; "PREsb"; "RD"; "WR"; "RDA"; "WRA"; "REFab"; "REFsb"; "REFab_end";
   "REFsb_end"; "RFMab"; "RFMsb"; "RFMab_end"; "RFMsb_end"; "DRFMab"; "DRFMsb"; "DRFMab_end";
   "DRFMsb_end"; "VRR"; "VRR_end"].

Definition command_scopes : res (list Z) :=
  LUT_def commands levels
    [("ACT", "row"); ("PRE", "bank"); ("PREA", "rank"); ("PREsb", "bank"); ("RD", "column");
     ("WR", "column"); ("RDA", "column"); ("WRA", "column"); ("REFab", "rank"); ("REFsb", "bank");
     ("REFab_end", "rank"); ("REFsb_end", "bank"); ("RFMab", "rank"); ("RFMsb", "bank");
     ("RFMab_end", "rank"); ("RFMsb_end", "bank"); ("DRFMab", "rank"); ("DRFMsb", "bank");
     ("DRFMab_end", "rank"); ("DRFMsb_end", "bank"); ("VRR", "bank"); ("VRR_end", "bank")].

Definition command_meta : res (list DRAMCommandMeta) :=
  LUT commands no_meta
    [("ACT", mkMeta true false false false false);
     ("PRE", mkMeta false true false false false);
     ("PREA", mkMeta false true false false false);
     ("PREsb", mkMeta false true false false false);
     ("RD", mkMeta false false true false false);
     ("WR", mkMeta false false true false false);
     ("RDA", mkMeta false true true false false);
     ("WRA", mkMeta false true true false false);
     ("REFab", mkMeta false false false true false);
     ("REFsb", mkMeta false false false true false);
     ("REFab_end", mkMeta false true false false false);
     ("REFsb_end", mkMeta false true false false false);
     ("RFMab", mkMeta false false false true false);
     ("RFMsb", mkMeta false false false true false);
     ("RFMab_end", mkMeta false true false false false);
     ("RFMsb_end", mkMeta false true false false false);
     ("DRFMab", mkMeta false false false true false);
     ("DRFMsb", mkMeta false false false true false);
     ("DRFMab_end", mkMeta false true false false false);
     ("DRFMsb_end", mkMeta false true false false false);
     ("VRR", mkMeta false false false true false);
     ("VRR_end", mkMeta false true false false false)].

Definition requests : ImplDef :=
  ["read"; "write"; "all-bank-refresh"; "same-bank-refresh"; "rfm"; "same-bank-rfm"; "directed-rfm";
   "same-bank-directed-rfm"; "victim-row-refresh"; "open-row"; "close-row"; "close-all-bank"].

Definition request_translations : res (list Z) :=
  LUT_def requests commands
    [("read", "RD"); ("write", "WR"); ("all-bank-refresh", "REFab"); ("same-bank-refresh", "REFsb");
     ("rfm", "RFMab"); ("same-bank-rfm", "RFMsb"); ("directed-rfm", "DRFMab");
     ("same-bank-directed-rfm", "DRFMsb"); ("victim-row-refresh", "VRR"); ("open-row", "ACT");
     ("close-row", "PRE"); ("close-all-bank", "PREA")].

Definition timings : ImplDef :=
  ["rate"; "nBL"; "nCL"; "nRCD"; "nRP"; "nRAS"; "nRC"; "nWR"; "nRTP"; "nCWL"; "nPPD"; "nCCDS";
   "nCCDS_WR"; "nCCDS_WTR"; "nCCDL"; "nCCDL_WR"; "nCCDL_WTR"; "nRRDS"; "nRRDL"; "nFAW"; "nRFC1";
   "nRFC2"; "nRFCsb"; "nREFI"; "nREFSBRD"; "nRFM1"; "nRFM2"; "nRFMsb"; "nDRFMab"; "nDRFMsb"; "nVRR";
   "nCS"; "tCK_ps"].

Definition states : ImplDef :=
  ["Opened"; "Closed"; "PowerUp"; "N/A"; "Refreshing"].

Definition init_states : res (list Z) :=
  LUT_def levels states
    [("channel", "N/A"); ("rank", "PowerUp"); ("bankgroup", "N/A"); ("bank", "Closed");
     ("row", "Closed"); ("column", "N/A")].

Definition lvl (name : string) : Z := def_id levels name.
Definition cmd (name : string) : Z := def_id commands name.

(** ** Initialisation *)
Definition set_organization (p : OrgParams) : res (Z * Organization) :=
  o ← load_organization levels org_presets p;
  n0 ← vget (count o) (lvl "bankgroup");
  n1 ← vget (count o) (lvl "bank");
  n2 ← vget (count o) (lvl "row");
  n3 ← vget (count o) (lvl "column");
  o ← check_density [n0; n1; n2; n3] o;
  Ok (default 32 (org_channel_width p), o).

Definition nRRDL_TABLE : list (list Z) :=
  [[5]; [5]; [5]].
Definition nFAW_TABLE : list (list Z) :=
  [[40]; [32]; [32]].
Definition nCCD_L_WR2_TABLE : list Z := [32].
Definition tRFC_TABLE : list (list Z) :=
  [[195; 295; 410]; [130; 160; 220]].
Definition tRFCsb_TABLE : list (list Z) :=
  [[115; 130; 190]].
Definition tRRFsb_TABLE : list (list Z) :=
  [[70; 70; 70]; [60; 60; 60]].
Definition tREFI_BASE : Z := 3900.
Definition dq_id (x : Z) : Z := switch_id [4; 8; 16] x.
Definition rate_id (x : Z) : Z := switch_id [3200] x.
Definition density_id (x : Z) : Z := switch_id [8192; 16384; 32768] x.

Definition secondary_timings (o : Organization) (rate : Z) (vals : list Z) : res (list Z) :=
  let d := dq_id (dq o) in
  let r := rate_id rate in
  vals ← (if negb (d =? -1) && negb (r =? -1) then
            x ← table2 nRRDL_TABLE d r; vals ← tset timings "nRRDL" x vals;
            x ← table2 nFAW_TABLE d r; tset timings "nFAW" x vals
          else Ok vals);
  if d =? 0 then x ← vget nCCD_L_WR2_TABLE r; tset timings "nCCDL_WR" x vals else Ok vals.

Definition refresh_timings (o : Organization) (tCK_ps : Z) (vals : list Z) : res (list Z) :=
  let i := density_id (density o) in
  x ← table2 tRFC_TABLE 0 i; vals ← tset_ns JEDEC_rounding_DDR5 timings tCK_ps "nRFC1" x vals;
  x ← table2 tRFC_TABLE 1 i; vals ← tset_ns JEDEC_rounding_DDR5 timings tCK_ps "nRFC2" x vals;
  x ← table2 tRFCsb_TABLE 0 i; vals ← tset_ns JEDEC_rounding_DDR5 timings tCK_ps "nRFCsb" x vals;
  tset_ns JEDEC_rounding_DDR5 timings tCK_ps "nREFI" tREFI_BASE vals.

Definition rfm_timings (vals : list Z) : res (list Z) :=
  x ← tval timings vals "nRFC1"; vals ← tset timings "nRFM1" x vals;
  x ← tval timings vals "nRFC2"; vals ← tset timings "nRFM2" x vals;
  x ← tval timings vals "nRFCsb";
  x ← int32 (x * m_RH_radius); tset timings "nRFMsb" x vals.

(** An [int] factor times the [uint64_t] result of the rounding, as an [int]. *)
Definition rrf_cycles (k : Z) (row : Z) (o : Organization) (tCK_ps : Z) : res Z :=
  k ← int32 k;
  ns ← table2 tRRFsb_TABLE row (density_id (density o));
  n ← JEDEC_rounding_DDR5 (F32.of_Z ns) tCK_ps;
  Ok (i32 (u64 (u64 k * n))).

Definition drfm_timings (o : Organization) (tCK_ps : Z) (vals : list Z) : res (list Z) :=
  x ← rrf_cycles (2 * m_BRC) 0 o tCK_ps; vals ← tset timings "nDRFMab" x vals;
  x ← rrf_cycles (2 * m_BRC) 1 o tCK_ps; tset timings "nDRFMsb" x vals.

Definition nVRR_base_ns : Z := 60.

Definition vrr_timings (tCK_ps : Z) (vals : list Z) : res (list Z) :=
  ns ← int32 (nVRR_base_ns * m_RH_radius * 2);
  tset_ns JEDEC_rounding_DDR5 timings tCK_ps "nVRR" ns vals.

(** [tRAS > 0] (REGA) sets the row cycle. *)
Definition rega_timings (tCK_ps : Z) (vals : list Z) : res (list Z) :=
  if 0 <? m_tRAS then
    vals ← tset_ns JEDEC_rounding_DDR5 timings tCK_ps "nRAS" m_tRAS vals;
    ras ← tval timings vals "nRAS";
    rp ← tval timings vals "nRP";
    rc ← int32 (ras + rp); tset timings "nRC" rc vals
  else Ok vals.

(** [m_timing_vals(name) = std::max(x, m_timing_vals(name))] *)
Definition tset_max (name : string) (x : Z) (vals : list Z) : res (list Z) :=
  y ← tval timings vals name; tset timings name (Z.max x y) vals.

Fixpoint max_ns (tCK_ps : Z) (l : list (string * Z)) (vals : list Z) : res (list Z) :=
  match l with
  | [] => Ok vals
  | (name, ns) :: l =>
      n ← JEDEC_rounding_DDR5 (F32.of_Z ns) tCK_ps;
      vals ← tset_max name (i32 n) vals; max_ns tCK_ps l vals
  end.

(** Per-row activation counting raises the row timings. *)
Definition prac_timings (o : Organization) (tCK_ps : Z) (vals : list Z) : res (list Z) :=
  if m_PRAC then
    vals ← max_ns tCK_ps [("nRAS", 16); ("nRP", 36); ("nRC", 52); ("nRTP", 5); ("nWR", 10)] vals;
    x ← rrf_cycles (2 * m_BRC + 1) 0 o tCK_ps; vals ← tset_max "nRFM1" x vals;
    x ← rrf_cycles (2 * m_BRC + 1) 1 o tCK_ps; tset_max "nRFMsb" x vals
  else Ok vals.

Definition timing_vals (p : TimingParams) (o : Organization) : res (list Z) :=
  '(vals, rate, tCK_ps) ← base_timings timings timing_presets p;
  vals ← rega_timings tCK_ps vals;
  vals ← secondary_timings o rate vals;
  vals ← refresh_timings o tCK_ps vals;
  vals ← rfm_timings vals;
  vals ← vrr_timings tCK_ps vals;
  vals ← drfm_timings o tCK_ps vals;
  vals ← prac_timings o tCK_ps vals;
  final_timings JEDEC_rounding_DDR5 timings tCK_ps p vals.

Definition read_latency (vals : list Z) : res Z :=
  cl ← tval timings vals "nCL"; bl ← tval timings vals "nBL"; Ok (cl + bl).

(** The argument of [populate_timingcons]; [V] reads a timing value. *)
Definition timing_initializers (V : string -> Z) : list TimingConsInitializer :=
  [
   mkInit "channel" ["ACT"; "RD"; "RDA"; "WR"; "WRA"] commands 2 1 false;
   mkInit "channel" ["RD"; "RDA"] ["RD"; "RDA"] (V "nBL") 1 false;
   mkInit "channel" ["WR"; "WRA"] ["WR"; "WRA"] (V "nBL") 1 false;
   mkInit "rank" ["RD"; "RDA"] ["RD"; "RDA"] (V "nCCDS") 1 false;
   mkInit "rank" ["WR"; "WRA"] ["WR"; "WRA"] (V "nCCDS_WR") 1 false;
   mkInit "rank" ["RD"; "RDA"] ["WR"; "WRA"] (V "nCL" + V "nBL" + 2 - V "nCWL" + 2) 1 false;
   mkInit "rank" ["WR"; "WRA"] ["RD"; "RDA"] (V "nCCDS_WTR") 1 false;
   mkInit "rank" ["RD"; "RDA"] ["RD"; "RDA"; "WR"; "WRA"] (V "nBL" + V "nCS") 1 true;
   mkInit "rank" ["WR"; "WRA"] ["RD"; "RDA"] (V "nCL" + V "nBL" + V "nCS" - V "nCWL") 1 true;
   mkInit "rank" ["RD"] ["PREA"] (V "nRTP") 1 false;
   mkInit "rank" ["WR"] ["PREA"] (V "nCWL" + V "nBL" + V "nWR") 1 false;
   mkInit "rank" ["ACT"] ["ACT"] (V "nRRDS") 1 false;
   mkInit "rank" ["ACT"] ["ACT"] (V "nFAW") 4 false;
   mkInit "rank" ["ACT"] ["PREA"] (V "nRAS") 1 false;
   mkInit "rank" ["VRR"] ["PREA"] (V "nVRR") 1 false;
   mkInit "rank" ["PREA"] ["ACT"; "VRR"] (V "nRP") 1 false;
   mkInit "rank" ["ACT"] ["REFab"; "RFMab"; "DRFMab"] (V "nRC") 1 false;
   mkInit "rank" ["VRR"] ["REFab"; "RFMab"; "DRFMab"] (V "nVRR") 1 false;
   mkInit "rank" ["PRE"; "PREsb"] ["REFab"; "RFMab"; "DRFMab"] (V "nRP") 1 false;
   mkInit "rank" ["PREA"] ["REFab"; "RFMab"; "DRFMab"; "REFsb"; "RFMsb"; "DRFMsb"] (V "nRP") 1
     false;
   mkInit "rank" ["RDA"] ["REFab"; "RFMab"; "DRFMab"] (V "nRP" + V "nRTP") 1 false;
   mkInit "rank" ["WRA"] ["REFab"; "RFMab"; "DRFMab"] (V "nCWL" + V "nBL" + V "nWR" + V "nRP") 1
     false;
   mkInit "rank" ["REFab"] ["ACT"; "VRR"; "PREA"; "REFab"; "RFMab"; "DRFMab"; "REFsb"; "RFMsb";
     "DRFMsb"] (V "nRFC1") 1 false;
   mkInit "rank" ["RFMab"] ["ACT"; "VRR"; "PREA"; "REFab"; "RFMab"; "DRFMab"; "REFsb"; "RFMsb";
     "DRFMsb"] (V "nRFM1") 1 false;
   mkInit "rank" ["DRFMab"] ["ACT"; "VRR"; "PREA"; "REFab"; "RFMab"; "DRFMab"; "REFsb"; "RFMsb";
     "DRFMsb"] (V "nDRFMab") 1 false;
   mkInit "rank" ["REFsb"] ["PREA"; "REFab"; "RFMab"; "DRFMab"] (V "nRFCsb") 1 false;
   mkInit "rank" ["RFMsb"] ["PREA"; "REFab"; "RFMab"; "DRFMab"] (V "nRFMsb") 1 false;
   mkInit "rank" ["DRFMsb"] ["PREA"; "REFab"; "RFMab"; "DRFMab"] (V "nDRFMsb") 1 false;
   mkInit "bankgroup" ["RD"; "RDA"] ["RD"; "RDA"] (V "nCCDL") 1 false;
   mkInit "bankgroup" ["WR"; "WRA"] ["WR"; "WRA"] (V "nCCDL_WR") 1 false;
   mkInit "bankgroup" ["WR"; "WRA"] ["RD"; "RDA"] (V "nCCDL_WTR") 1 false;
   mkInit "bankgroup" ["ACT"] ["ACT"] (V "nRRDL") 1 false;
   mkInit "bank" ["ACT"] ["ACT"; "VRR"; "REFsb"; "RFMsb"; "DRFMsb"] (V "nRC") 1 false;
   mkInit "bank" ["VRR"] ["ACT"; "VRR"; "REFsb"; "RFMsb"; "DRFMsb"] (V "nVRR") 1 false;
   mkInit "bank" ["ACT"] ["RD"; "RDA"; "WR"; "WRA"] (V "nRCD") 1 false;
   mkInit "bank" ["ACT"] ["PRE"; "PREsb"] (V "nRAS") 1 false;
   mkInit "bank" ["PRE"; "PREsb"] ["ACT"; "VRR"; "REFsb"; "RFMsb"; "DRFMsb"] (V "nRP") 1 false;
   mkInit "bank" ["RD"] ["PRE"; "PREsb"] (V "nRTP") 1 false;
   mkInit "bank" ["WR"] ["PRE"; "PREsb"] (V "nCWL" + V "nBL" + V "nWR") 1 false;
   mkInit "bank" ["RDA"] ["ACT"; "VRR"; "REFsb"; "RFMsb"; "DRFMsb"] (V "nRTP" + V "nRP") 1 false;
   mkInit "bank" ["WRA"] ["ACT"; "VRR"; "REFsb"; "RFMsb"; "DRFMsb"] (V "nCWL" + V "nBL" + V "nWR" +
     V "nRP") 1 false;
   mkInit "bank" ["WR"] ["RDA"] (V "nCWL" + V "nBL" + V "nWR" - V "nRTP") 1 false;
   mkInit "bank" ["REFsb"] ["ACT"; "VRR"; "REFsb"; "RFMsb"; "DRFMsb"] (V "nRFCsb") 1 false;
   mkInit "bank" ["RFMsb"] ["ACT"; "VRR"; "REFsb"; "RFMsb"; "DRFMsb"] (V "nRFMsb") 1 false;
   mkInit "bank" ["DRFMsb"] ["ACT"; "VRR"; "REFsb"; "RFMsb"; "DRFMsb"] (V "nDRFMsb") 1 false].

Definition actions : FuncMatrix ActionFunc :=
  [(lvl "rank", cmd "PREA", Action_Rank_PREab levels states);
   (lvl "rank", cmd "REFab", Action_Rank_REFab states);
   (lvl "rank", cmd "REFab_end", Action_Rank_REFab_end states);
   (lvl "rank", cmd "RFMab", Action_Rank_REFab states);
   (lvl "rank", cmd "RFMab_end", Action_Rank_REFab_end states);
   (lvl "rank", cmd "DRFMab", Action_Rank_REFab states);
   (lvl "rank", cmd "DRFMab_end", Action_Rank_REFab_end states);
   (lvl "bankgroup", cmd "PREsb", Action_BankGroup_PREsb states);
   (lvl "bankgroup", cmd "REFsb", Action_BankGroup_REFsb states);
   (lvl "bankgroup", cmd "REFsb_end", Action_BankGroup_REFsb_end states);
   (lvl "bankgroup", cmd "RFMsb", Action_BankGroup_REFsb states);
   (lvl "bankgroup", cmd "RFMsb_end", Action_BankGroup_REFsb_end states);
   (lvl "bankgroup", cmd "DRFMsb", Action_BankGroup_REFsb states);
   (lvl "bankgroup", cmd "DRFMsb_end", Action_BankGroup_REFsb_end states);
   (lvl "bank", cmd "ACT", Action_Bank_ACT states);
   (lvl "bank", cmd "PRE", Action_Bank_PRE states);
   (lvl "bank", cmd "RDA", Action_Bank_PRE states);
   (lvl "bank", cmd "WRA", Action_Bank_PRE states);
   (lvl "bank", cmd "VRR", Action_Bank_VRR states);
   (lvl "bank", cmd "VRR_end", Action_Bank_VRR_end states)].

Definition preqs : FuncMatrix PreqFunc :=
  [(lvl "rank", cmd "REFab", Preq_Rank_RequireAllBanksClosed levels commands states);
   (lvl "rank", cmd "RFMab", Preq_Rank_RequireAllBanksClosed levels commands states);
   (lvl "rank", cmd "DRFMab", Preq_Rank_RequireAllBanksClosed levels commands states);
   (lvl "rank", cmd "PREA", Preq_Rank_RequireAllBanksClosed levels commands states);
   (lvl "rank", cmd "REFsb", Preq_Rank_RequireSameBanksClosed levels commands states);
   (lvl "rank", cmd "RFMsb", Preq_Rank_RequireSameBanksClosed levels commands states);
   (lvl "rank", cmd "DRFMsb", Preq_Rank_RequireSameBanksClosed levels commands states);
   (lvl "bank", cmd "RD", Preq_Bank_RequireRowOpen levels commands states);
   (lvl "bank", cmd "WR", Preq_Bank_RequireRowOpen levels commands states);
   (lvl "bank", cmd "VRR", Preq_Bank_RequireBankClosed commands states);
   (lvl "bank", cmd "ACT", Preq_Bank_RequireRowOpen levels commands states);
   (lvl "bank", cmd "PRE", Preq_Bank_RequireBankClosed commands states)].

Definition rowhits : FuncMatrix RowFunc :=
  [(lvl "bank", cmd "RD", RowHit_Bank_RDWR states);
   (lvl "bank", cmd "WR", RowHit_Bank_RDWR states)].

Definition rowopens : FuncMatrix RowFunc :=
  [(lvl "bank", cmd "RD", RowOpen_Bank_RDWR states);
   (lvl "bank", cmd "WR", RowOpen_Bank_RDWR states)].

(** Commands that end later: the command that ends them and when. *)
Definition futures : list (string * string * string) :=
  [("REFab", "REFab_end", "nRFC1");
   ("REFsb", "REFsb_end", "nRFCsb");
   ("RFMab", "RFMab_end", "nRFM1");
   ("RFMsb", "RFMsb_end", "nRFMsb");
   ("DRFMab", "DRFMab_end", "nDRFMab");
   ("DRFMsb", "DRFMsb_end", "nDRFMsb");
   ("VRR", "VRR_end", "nVRR")].

(** ** The device *)
Definition std : Standard := {|
  st_levels := levels; st_commands := commands; st_states := states; st_timings := timings;
  st_requests := requests;
  st_scopes := command_scopes; st_meta := command_meta; st_translations := request_translations;
  st_init_states := init_states;
  st_organization := set_organization; st_timing_vals := timing_vals; st_read_latency := read_latency;
  st_initializers := timing_initializers;
  st_actions := actions; st_preqs := preqs; st_rowhits := rowhits; st_rowopens := rowopens;
  st_futures := futures;
|}.

Definition create_nodes := Dev.create_nodes std.
Definition init := Dev.init std.
Definition check_future_action := Dev.check_future_action std.
Definition handle_future_action := Dev.handle_future_action std.
Definition issue_command := Dev.issue_command std.
Definition tick := Dev.tick std.
Definition get_preq_command := Dev.get_preq_command std.
Definition check_ready := Dev.check_ready std.
Definition check_rowbuffer_hit := Dev.check_rowbuffer_hit std.
Definition check_node_open := Dev.check_node_open std.
End Parameters.
End DDR5VRR.
