(* ===== verification/HBM.v ===== *)
(** * The HBM devices: [HBM.cpp], [HBM2.cpp] and [HBM3.cpp] of [dram/impl]

    Presets and tables of the three classes, and the computation of their timing
    parameters; the operations of the devices are those of [Device]. *)
From Stdlib Require Import String Ascii.
From S2P Require Import Prelude CxxFloat Utils DramSpec DramNode DramLambdas DramConfig Device.
Local Open Scope string_scope.
Local Open Scope Z_scope.

Module HBM.
Definition org_presets : list (string * Organization) :=
  [
   ("HBM_1Gb", mkOrganization (1 * 2 ^ 10) 128 [1; 4; 2; 2 ^ 13; 2 ^ 7]);
   ("HBM_2Gb", mkOrganization (2 * 2 ^ 10) 128 [1; 4; 2; 2 ^ 14; 2 ^ 7]);
   ("HBM_4Gb", mkOrganization (4 * 2 ^ 10) 128 [1; 4; 4; 2 ^ 14; 2 ^ 7])].

Definition timing_presets : list (string * list Z) :=
  [
   ("HBM_2Gbps", [2000; 2; 7; 7; 7; 7; 17; 19; 8; 2; 3; 2; 1; 2; 2; 3; 3; 4; 3; 15; -1; 160; 3900; -1;
               8; 1000])].

Definition m_internal_prefetch_size : Z := 2.

Definition levels : ImplDef :=
  ["channel"; "bankgroup"; "bank"; "row"; "column"].

Definition commands : ImplDef :=
  ["ACT"; "PRE"; "PREA"; "RD"; "WR"; "RDA"; "WRA"; "REFab"; "REFsb"].

Definition command_scopes : res (list Z) :=
  LUT_def commands levels
    [("ACT", "row"); ("PRE", "bank"); ("PREA", "channel"); ("RD", "column"); ("WR", "column");
     ("RDA", "column"); ("WRA", "column"); ("REFab", "channel"); ("REFsb", "bank")].

Definition command_meta : res (list DRAMCommandMeta) :=
  LUT commands no_meta
    [("ACT", mkMeta true false false false false);
     ("PRE", mkMeta false true false false false);
     ("PREA", mkMeta false true false false false);
     ("RD", mkMeta false false true false false);
     ("WR", mkMeta false false true false false);
     ("RDA", mkMeta false true true false false);
     ("WRA", mkMeta false true true false false);
     ("REFab", mkMeta false false false true false);
     ("REFsb", mkMeta false false false true false)].

Definition requests : ImplDef :=
  ["read"; "write"; "all-bank-refresh"; "per-bank-refresh"].

Definition request_translations : res (list Z) :=
  LUT_def requests commands
    [("read", "RD"); ("write", "WR"); ("all-bank-refresh", "REFab"); ("per-bank-refresh", "REFsb")].

Definition timings : ImplDef :=
  ["rate"; "nBL"; "nCL"; "nRCDRD"; "nRCDWR"; "nRP"; "nRAS"; "nRC"; "nWR"; "nRTPS"; "nRTPL"; "nCWL";
   "nCCDS"; "nCCDL"; "nRRDS"; "nRRDL"; "nWTRS"; "nWTRL"; "nRTW"; "nFAW"; "nRFC"; "nRFCSB"; "nREFI";
   "nREFISB"; "nRREFD"; "tCK_ps"].

Definition states : ImplDef :=
  ["Opened"; "Closed"; "N/A"; "Refreshing"].

Definition init_states : res (list Z) :=
  LUT_def levels states
    [("channel", "N/A"); ("bankgroup", "N/A"); ("bank", "Closed"); ("row", "Closed");
     ("column", "N/A")].

Definition lvl (name : string) : Z := def_id levels name.
Definition cmd (name : string) : Z := def_id commands name.

(** ** Initialisation *)
Definition set_organization (p : OrgParams) : res (Z * Organization) :=
  o ← load_organization levels org_presets p;
  n0 ← vget (count o) (lvl "bankgroup");
  n1 ← vget (count o) (lvl "bank");
  n2 ← vget (count o) (lvl "row");
  n3 ← vget (count o) (lvl "column");
  o ← check_density [n0; n1; n2; n3] o;
  Ok (default 128 (org_channel_width p), o).

Definition tRFC_TABLE : list (list Z) :=
  [[160; 260; 350; 450]].
Definition tREFISB_TABLE : list (list Z) :=
  [[4875; 4875; 2438; 2438]].
Definition density_id (x : Z) : Z := switch_id [2048; 4096; 8192; 16384] x.

(** Both values are read from [tRFC_TABLE]. *)
Definition refresh_timings (o : Organization) (tCK_ps : Z) (vals : list Z) : res (list Z) :=
  rfc ← table2 tRFC_TABLE 0 (density_id (density o));
  vals ← tset_ns JEDEC_rounding timings tCK_ps "nRFC" rfc vals;
  tset_ns JEDEC_rounding timings tCK_ps "nREFISB" rfc vals.

Definition timing_vals (p : TimingParams) (o : Organization) : res (list Z) :=
  '(vals, rate, tCK_ps) ← base_timings timings timing_presets p;
  vals ← refresh_timings o tCK_ps vals;
  final_timings JEDEC_rounding timings tCK_ps p vals.

Definition read_latency (vals : list Z) : res Z :=
  cl ← tval timings vals "nCL"; bl ← tval timings vals "nBL"; Ok (cl + bl).

(** The argument of [populate_timingcons]; [V] reads a timing value. *)
Definition timing_initializers (V : string -> Z) : list TimingConsInitializer :=
  [
   mkInit "channel" ["ACT"] ["ACT"; "PRE"; "PREA"; "REFab"; "REFsb"] 2 1 false;
   mkInit "channel" ["ACT"] ["ACT"] (V "nRRDS") 1 false;
   mkInit "channel" ["ACT"] ["ACT"] (V "nFAW") 4 false;
   mkInit "channel" ["ACT"] ["REFsb"] (V "nRRDS" + 1) 1 false;
   mkInit "channel" ["REFsb"] ["REFsb"] (V "nRREFD") 1 false;
   mkInit "channel" ["REFsb"] ["ACT"] (V "nRREFD" - 1) 1 false;
   mkInit "channel" ["RD"; "RDA"] ["RD"; "RDA"] (V "nBL") 1 false;
   mkInit "channel" ["WR"; "WRA"] ["WR"; "WRA"] (V "nBL") 1 false;
   mkInit "channel" ["RD"; "RDA"] ["RD"; "RDA"] (V "nCCDS") 1 false;
   mkInit "channel" ["WR"; "WRA"] ["WR"; "WRA"] (V "nCCDS") 1 false;
   mkInit "channel" ["RD"; "RDA"] ["WR"; "WRA"] (V "nCL" + V "nBL" + 2 - V "nCWL") 1 false;
   mkInit "channel" ["WR"; "WRA"] ["RD"; "RDA"] (V "nCWL" + V "nBL" + V "nWTRS") 1 false;
   mkInit "channel" ["RD"] ["PREA"] (V "nRTPS") 1 false;
   mkInit "channel" ["WR"] ["PREA"] (V "nCWL" + V "nBL" + V "nWR") 1 false;
   mkInit "channel" ["ACT"] ["ACT"] (V "nRRDS") 1 false;
   mkInit "channel" ["ACT"] ["ACT"] (V "nFAW") 4 false;
   mkInit "channel" ["ACT"] ["PREA"] (V "nRAS") 1 false;
   mkInit "channel" ["PREA"] ["ACT"] (V "nRP") 1 false;
   mkInit "channel" ["ACT"] ["REFab"] (V "nRC") 1 false;
   mkInit "channel" ["PRE"; "PREA"] ["REFab"] (V "nRP") 1 false;
   mkInit "channel" ["RDA"] ["REFab"] (V "nRP" + V "nRTPS") 1 false;
   mkInit "channel" ["WRA"] ["REFab"] (V "nCWL" + V "nBL" + V "nWR" + V "nRP") 1 false;
   mkInit "channel" ["REFab"] ["ACT"; "REFsb"] (V "nRFC") 1 false;
   mkInit "bankgroup" ["RD"; "RDA"] ["RD"; "RDA"] (V "nCCDL") 1 false;
   mkInit "bankgroup" ["WR"; "WRA"] ["WR"; "WRA"] (V "nCCDL") 1 false;
   mkInit "bankgroup" ["WR"; "WRA"] ["RD"; "RDA"] (V "nCWL" + V "nBL" + V "nWTRL") 1 false;
   mkInit "bankgroup" ["ACT"] ["ACT"] (V "nRRDL") 1 false;
   mkInit "bankgroup" ["ACT"] ["REFsb"] (V "nRRDL" + 1) 1 false;
   mkInit "bankgroup" ["REFsb"] ["ACT"] (V "nRRDL" - 1) 1 false;
   mkInit "bank" ["RD"] ["PRE"] (V "nRTPS") 1 false;
   mkInit "bank" ["ACT"] ["ACT"] (V "nRC") 1 false;
   mkInit "bank" ["ACT"] ["RD"; "RDA"] (V "nRCDRD") 1 false;
   mkInit "bank" ["ACT"] ["WR"; "WRA"] (V "nRCDWR") 1 false;
   mkInit "bank" ["ACT"] ["PRE"] (V "nRAS") 1 false;
   mkInit "bank" ["PRE"] ["ACT"] (V "nRP") 1 false;
   mkInit "bank" ["RD"] ["PRE"] (V "nRTPL") 1 false;
   mkInit "bank" ["WR"] ["PRE"] (V "nCWL" + V "nBL" + V "nWR") 1 false;
   mkInit "bank" ["RDA"] ["ACT"; "REFsb"] (V "nRTPL" + V "nRP") 1 false;
   mkInit "bank" ["WRA"] ["ACT"; "REFsb"] (V "nCWL" + V "nBL" + V "nWR" + V "nRP") 1 false].

Definition actions : FuncMatrix ActionFunc :=
  [(lvl "channel", cmd "PREA", Action_Channel_PREab levels states);
   (lvl "bank", cmd "ACT", Action_Bank_ACT states);
   (lvl "bank", cmd "PRE", Action_Bank_PRE states);
   (lvl "bank", cmd "RDA", Action_Bank_PRE states);
   (lvl "bank", cmd "WRA", Action_Bank_PRE states)].

Definition preqs : FuncMatrix PreqFunc :=
  [(lvl "channel", cmd "REFab", Preq_Channel_RequireAllBanksClosed levels commands states);
   (lvl "bank", cmd "REFsb", Preq_Bank_RequireBankClosed commands states);
   (lvl "bank", cmd "RD", Preq_Bank_RequireRowOpen levels commands states);
   (lvl "bank", cmd "WR", Preq_Bank_RequireRowOpen levels commands states)].

Definition rowhits : FuncMatrix RowFunc :=
  [(lvl "bank", cmd "RD", RowHit_Bank_RDWR states);
   (lvl "bank", cmd "WR", RowHit_Bank_RDWR states)].

Definition rowopens : FuncMatrix RowFunc :=
  [(lvl "bank", cmd "RD", RowOpen_Bank_RDWR states);
   (lvl "bank", cmd "WR", RowOpen_Bank_RDWR states)].

(** Commands that end later: the command that ends them and when. *)
Definition futures : list (string * string * string) :=
  [].

(** ** The device *)
Definition std : Standard := {|
  st_levels := levels; st_commands := commands; st_states := states; st_timings := timings;
  st_requests := requests;
  st_scopes := command_scopes; st_meta := command_meta; st_translations := request_translations;
  st_init_states := init_states;
  st_organization := set_organization; st_timing_vals := timing_vals; st_read_latency := read_latency;
  st_initializers := timing_initializers;
  st_actions := actions; st_preqs := preqs; st_rowhits := rowhits; st_rowopens := rowopens;
  st_futures := futures;
|}.

Definition create_nodes := Dev.create_nodes std.
Definition init := Dev.init std.
Definition issue_command := Dev.issue_command std.
Definition tick := Dev.tick std.
Definition get_preq_command := Dev.get_preq_command std.
Definition check_ready := Dev.check_ready std.
Definition check_rowbuffer_hit := Dev.check_rowbuffer_hit std.
Definition check_node_open := Dev.check_node_open std.
End HBM.

(** ** HBM2 *)
Module HBM2.
Definition org_presets : list (string * Organization) :=
  [
   ("HBM2_2Gb", mkOrganization (2 * 2 ^ 10) 128 [1; 2; 4; 2; 2 ^ 14; 2 ^ 6]);
   ("HBM2_4Gb", mkOrganization (4 * 2 ^ 10) 128 [1; 2; 4; 4; 2 ^ 14; 2 ^ 6]);
   ("HBM2_8Gb", mkOrganization (6 * 2 ^ 10) 128 [1; 2; 4; 4; 2 ^ 15; 2 ^ 6])].

Definition timing_presets : list (string * list Z) :=
  [
   ("HBM2_2Gbps", [2000; 4; 7; 7; 7; 7; 17; 19; 8; 2; 3; 2; 1; 2; 2; 3; 3; 4; 3; 15; -1; 160; 3900; -1;
               8; 1000])].

Definition m_internal_prefetch_size : Z := 2.

Definition levels : ImplDef :=
  ["channel"; "pseudochannel"; "bankgroup"; "bank"; "row"; "column"].

Definition commands : ImplDef :=
  ["ACT"; "PRE"; "PREA"; "RD"; "WR"; "RDA"; "WRA"; "REFab"; "REFsb"].

Definition command_scopes : res (list Z) :=
  LUT_def commands levels
    [("ACT", "row"); ("PRE", "bank"); ("PREA", "channel"); ("RD", "column"); ("WR", "column");
     ("RDA", "column"); ("WRA", "column"); ("REFab", "channel"); ("REFsb", "bank")].

Definition command_meta : res (list DRAMCommandMeta) :=
  LUT commands no_meta
    [("ACT", mkMeta true false false false false);
     ("PRE", mkMeta false true false false false);
     ("PREA", mkMeta false true false false false);
     ("RD", mkMeta false false true false false);
     ("WR", mkMeta false false true false false);
     ("RDA", mkMeta false true true false false);
     ("WRA", mkMeta false true true false false);
     ("REFab", mkMeta false false false true false);
     ("REFsb", mkMeta false false false true false)].

Definition requests : ImplDef :=
  ["read"; "write"; "all-bank-refresh"; "per-bank-refresh"].

Definition request_translations : res (list Z) :=
  LUT_def requests commands
    [("read", "RD"); ("write", "WR"); ("all-bank-refresh", "REFab"); ("per-bank-refresh", "REFsb")].

Definition timings : ImplDef :=
  ["rate"; "nBL"; "nCL"; "nRCDRD"; "nRCDWR"; "nRP"; "nRAS"; "nRC"; "nWR"; "nRTPS"; "nRTPL"; "nCWL";
   "nCCDS"; "nCCDL"; "nRRDS"; "nRRDL"; "nWTRS"; "nWTRL"; "nRTW"; "nFAW"; "nRFC"; "nRFCSB"; "nREFI";
   "nREFISB"; "nRREFD"; "tCK_ps"].

Definition states : ImplDef :=
  ["Opened"; "Closed"; "N/A"; "Refreshing"].

Definition init_states : res (list Z) :=
  LUT_def levels states
    [("channel", "N/A"); ("pseudochannel", "N/A"); ("bankgroup", "N/A"); ("bank", "Closed");
     ("row", "Closed"); ("column", "N/A")].

Definition lvl (name : string) : Z := def_id levels name.
Definition cmd (name : string) : Z := def_id commands name.

(** ** Initialisation *)
Definition set_organization (p : OrgParams) : res (Z * Organization) :=
  o ← load_organization levels org_presets p;
  n0 ← vget (count o) (lvl "pseudochannel");
  n1 ← vget (count o) (lvl "bankgroup");
  n2 ← vget (count o) (lvl "bank");
  n3 ← vget (count o) (lvl "row");
  n4 ← vget (count o) (lvl "column");
  o ← check_density [n0; n1; n2; n3; n4] o;
  Ok (default 64 (org_channel_width p), o).

Definition tRFC_TABLE : list (list Z) :=
  [[160; 260; 350; 450]].
Definition tREFISB_TABLE : list (list Z) :=
  [[4875; 4875; 2438; 2438]].
Definition density_id (x : Z) : Z := switch_id [2048; 4096; 8192; 16384] x.

(** Both values are read from [tRFC_TABLE]. *)
Definition refresh_timings (o : Organization) (tCK_ps : Z) (vals : list Z) : res (list Z) :=
  rfc ← table2 tRFC_TABLE 0 (density_id (density o));
  vals ← tset_ns JEDEC_rounding timings tCK_ps "nRFC" rfc vals;
  tset_ns JEDEC_rounding timings tCK_ps "nREFISB" rfc vals.

Definition timing_vals (p : TimingParams) (o : Organization) : res (list Z) :=
  '(vals, rate, tCK_ps) ← base_timings timings timing_presets p;
  vals ← refresh_timings o tCK_ps vals;
  final_timings JEDEC_rounding timings tCK_ps p vals.

Definition read_latency (vals : list Z) : res Z :=
  cl ← tval timings vals "nCL"; bl ← tval timings vals "nBL"; Ok (cl + bl).

(** The argument of [populate_timingcons]; [V] reads a timing value. *)
Definition timing_initializers (V : string -> Z) : list TimingConsInitializer :=
  [
   mkInit "channel" ["ACT"] ["ACT"; "PRE"; "PREA"; "REFab"; "REFsb"] 2 1 false;
   mkInit "pseudochannel" ["ACT"] ["ACT"] (V "nRRDS") 1 false;
   mkInit "pseudochannel" ["ACT"] ["ACT"] (V "nFAW") 4 false;
   mkInit "pseudochannel" ["ACT"] ["REFsb"] (V "nRRDS" + 1) 1 false;
   mkInit "pseudochannel" ["REFsb"] ["REFsb"] (V "nRREFD") 1 false;
   mkInit "pseudochannel" ["REFsb"] ["ACT"] (V "nRREFD" - 1) 1 false;
   mkInit "pseudochannel" ["RD"; "RDA"] ["RD"; "RDA"] (V "nBL") 1 false;
   mkInit "pseudochannel" ["WR"; "WRA"] ["WR"; "WRA"] (V "nBL") 1 false;
   mkInit "pseudochannel" ["RD"; "RDA"] ["RD"; "RDA"] (V "nCCDS") 1 false;
   mkInit "pseudochannel" ["WR"; "WRA"] ["WR"; "WRA"] (V "nCCDS") 1 false;
   mkInit "pseudochannel" ["RD"; "RDA"] ["WR"; "WRA"] (V "nCL" + V "nBL" + 2 - V "nCWL") 1 false;
   mkInit "pseudochannel" ["WR"; "WRA"] ["RD"; "RDA"] (V "nCWL" + V "nBL" + V "nWTRS") 1 false;
   mkInit "pseudochannel" ["RD"] ["PREA"] (V "nRTPS") 1 false;
   mkInit "pseudochannel" ["WR"] ["PREA"] (V "nCWL" + V "nBL" + V "nWR") 1 false;
   mkInit "pseudochannel" ["ACT"] ["ACT"] (V "nRRDS") 1 false;
   mkInit "pseudochannel" ["ACT"] ["ACT"] (V "nFAW") 4 false;
   mkInit "pseudochannel" ["ACT"] ["PREA"] (V "nRAS") 1 false;
   mkInit "pseudochannel" ["PREA"] ["ACT"] (V "nRP") 1 false;
   mkInit "pseudochannel" ["ACT"] ["REFab"] (V "nRC") 1 false;
   mkInit "pseudochannel" ["PRE"; "PREA"] ["REFab"] (V "nRP") 1 false;
   mkInit "pseudochannel" ["RDA"] ["REFab"] (V "nRP" + V "nRTPS") 1 false;
   mkInit "pseudochannel" ["WRA"] ["REFab"] (V "nCWL" + V "nBL" + V "nWR" + V "nRP") 1 false;
   mkInit "pseudochannel" ["REFab"] ["ACT"; "REFsb"] (V "nRFC") 1 false;
   mkInit "bankgroup" ["RD"; "RDA"] ["RD"; "RDA"] (V "nCCDL") 1 false;
   mkInit "bankgroup" ["WR"; "WRA"] ["WR"; "WRA"] (V "nCCDL") 1 false;
   mkInit "bankgroup" ["WR"; "WRA"] ["RD"; "RDA"] (V "nCWL" + V "nBL" + V "nWTRL") 1 false;
   mkInit "bankgroup" ["ACT"] ["ACT"] (V "nRRDL") 1 false;
   mkInit "bankgroup" ["ACT"] ["REFsb"] (V "nRRDL" + 1) 1 false;
   mkInit "bankgroup" ["REFsb"] ["ACT"] (V "nRRDL" - 1) 1 false;
   mkInit "bank" ["RD"] ["PRE"] (V "nRTPS") 1 false;
   mkInit "bank" ["ACT"] ["ACT"] (V "nRC") 1 false;
   mkInit "bank" ["ACT"] ["RD"; "RDA"] (V "nRCDRD") 1 false;
   mkInit "bank" ["ACT"] ["WR"; "WRA"] (V "nRCDWR") 1 false;
   mkInit "bank" ["ACT"] ["PRE"] (V "nRAS") 1 false;
   mkInit "bank" ["PRE"] ["ACT"] (V "nRP") 1 false;
   mkInit "bank" ["RD"] ["PRE"] (V "nRTPL") 1 false;
   mkInit "bank" ["WR"] ["PRE"] (V "nCWL" + V "nBL" + V "nWR") 1 false;
   mkInit "bank" ["RDA"] ["ACT"; "REFsb"] (V "nRTPL" + V "nRP") 1 false;
   mkInit "bank" ["WRA"] ["ACT"; "REFsb"] (V "nCWL" + V "nBL" + V "nWR" + V "nRP") 1 false].

Definition actions : FuncMatrix ActionFunc :=
  [(lvl "channel", cmd "PREA", Action_Channel_PREab levels states);
   (lvl "bank", cmd "ACT", Action_Bank_ACT states);
   (lvl "bank", cmd "PRE", Action_Bank_PRE states);
   (lvl "bank", cmd "RDA", Action_Bank_PRE states);
   (lvl "bank", cmd "WRA", Action_Bank_PRE states)].

Definition preqs : FuncMatrix PreqFunc :=
  [(lvl "channel", cmd "REFab", Preq_Channel_RequireAllBanksClosed levels commands states);
   (lvl "bank", cmd "REFsb", Preq_Bank_RequireBankClosed commands states);
   (lvl "bank", cmd "RD", Preq_Bank_RequireRowOpen levels commands states);
   (lvl "bank", cmd "WR", Preq_Bank_RequireRowOpen levels commands states)].

Definition rowhits : FuncMatrix RowFunc :=
  [(lvl "bank", cmd "RD", RowHit_Bank_RDWR states);
   (lvl "bank", cmd "WR", RowHit_Bank_RDWR states)].

Definition rowopens : FuncMatrix RowFunc :=
  [(lvl "bank", cmd "RD", RowOpen_Bank_RDWR states);
   (lvl "bank", cmd "WR", RowOpen_Bank_RDWR states)].

(** Commands that end later: the command that ends them and when. *)
Definition futures : list (string * string * string) :=
  [].

(** ** The device *)
Definition std : Standard := {|
  st_levels := levels; st_commands := commands; st_states := states; st_timings := timings;
  st_requests := requests;
  st_scopes := command_scopes; st_meta := command_meta; st_translations := request_translations;
  st_init_states := init_states;
  st_organization := set_organization; st_timing_vals := timing_vals; st_read_latency := read_latency;
  st_initializers := timing_initializers;
  st_actions := actions; st_preqs := preqs; st_rowhits := rowhits; st_rowopens := rowopens;
  st_futures := futures;
|}.

Definition create_nodes := Dev.create_nodes std.
Definition init := Dev.init std.
Definition issue_command := Dev.issue_command std.
Definition tick := Dev.tick std.
Definition get_preq_command := Dev.get_preq_command std.
Definition check_ready := Dev.check_ready std.
Definition check_rowbuffer_hit := Dev.check_rowbuffer_hit std.
Definition check_node_open := Dev.check_node_open std.
End HBM2.

(** ** HBM3 *)
Module HBM3.
Definition org_presets : list (string * Organization) :=
  [
   ("HBM3_2Gb", mkOrganization (2 * 2 ^ 10) 128 [1; 2; 4; 4; 2 ^ 13; 2 ^ 6]);
   ("HBM3_4Gb", mkOrganization (4 * 2 ^ 10) 128 [1; 2; 4; 4; 2 ^ 14; 2 ^ 6]);
   ("HBM3_8Gb", mkOrganization (6 * 2 ^ 10) 128 [1; 2; 4; 4; 2 ^ 15; 2 ^ 6])].

Definition timing_presets : list (string * list Z) :=
  [
   ("HBM3_2Gbps", [2000; 4; 7; 7; 7; 7; 17; 19; 8; 2; 3; 2; 1; 2; 2; 3; 3; 4; 3; 15; -1; 160; 3900; -1;
               8; 1000])].

Definition m_internal_prefetch_size : Z := 2.

Definition levels : ImplDef :=
  ["channel"; "pseudochannel"; "bankgroup"; "bank"; "row"; "column"].

Definition commands : ImplDef :=
  ["ACT"; "PRE"; "PREA"; "RD"; "WR"; "RDA"; "WRA"; "REFab"; "REFsb"; "RFMab"; "RFMsb"].

Definition command_scopes : res (list Z) :=
  LUT_def commands levels
    [("ACT", "row"); ("PRE", "bank"); ("PREA", "channel"); ("RD", "column"); ("WR", "column");
     ("RDA", "column"); ("WRA", "column"); ("REFab", "channel"); ("REFsb", "bank");
     ("RFMab", "channel"); ("RFMsb", "bank")].

Definition command_meta : res (list DRAMCommandMeta) :=
  LUT commands no_meta
    [("ACT", mkMeta true false false false false);
     ("PRE", mkMeta false true false false false);
     ("PREA", mkMeta false true false false false);
     ("RD", mkMeta false false true false false);
     ("WR", mkMeta false false true false false);
     ("RDA", mkMeta false true true false false);
     ("WRA", mkMeta false true true false false);
     ("REFab", mkMeta false false false true false);
     ("REFsb", mkMeta false false false true false);
     ("RFMab", mkMeta false false false true false);
     ("RFMsb", mkMeta false false false true false)].

Definition requests : ImplDef :=
  ["read"; "write"; "all-bank-refresh"; "per-bank-refresh"; "all-bank-rfm"; "per-bank-rfm"].

Definition request_translations : res (list Z) :=
  LUT_def requests commands
    [("read", "RD"); ("write", "WR"); ("all-bank-refresh", "REFab"); ("per-bank-refresh", "REFsb");
     ("all-bank-rfm", "RFMab"); ("per-bank-rfm", "RFMsb")].

Definition timings : ImplDef :=
  ["rate"; "nBL"; "nCL"; "nRCDRD"; "nRCDWR"; "nRP"; "nRAS"; "nRC"; "nWR"; "nRTPS"; "nRTPL"; "nCWL";
   "nCCDS"; "nCCDL"; "nRRDS"; "nRRDL"; "nWTRS"; "nWTRL"; "nRTW"; "nFAW"; "nRFC"; "nRFCSB"; "nREFI";
   "nREFISB"; "nRREFD"; "tCK_ps"].

Definition states : ImplDef :=
  ["Opened"; "Closed"; "N/A"; "Refreshing"].

Definition init_states : res (list Z) :=
  LUT_def levels states
    [("channel", "N/A"); ("pseudochannel", "N/A"); ("bankgroup", "N/A"); ("bank", "Closed");
     ("row", "Closed"); ("column", "N/A")].

Definition lvl (name : string) : Z := def_id levels name.
Definition cmd (name : string) : Z := def_id commands name.

(** ** Initialisation *)
Definition set_organization (p : OrgParams) : res (Z * Organization) :=
  o ← load_organization levels org_presets p;
  n0 ← vget (count o) (lvl "pseudochannel");
  n1 ← vget (count o) (lvl "bankgroup");
  n2 ← vget (count o) (lvl "bank");
  n3 ← vget (count o) (lvl "row");
  n4 ← vget (count o) (lvl "column");
  o ← check_density [n0; n1; n2; n3; n4] o;
  Ok (default 64 (org_channel_width p), o).

Definition tRFC_TABLE : list (list Z) :=
  [[160; 260; 350; 450]].
Definition tREFISB_TABLE : list (list Z) :=
  [[4875; 4875; 2438; 2438]].
Definition density_id (x : Z) : Z := switch_id [2048; 4096; 8192; 16384] x.

(** Both values are read from [tRFC_TABLE]. *)
Definition refresh_timings (o : Organization) (tCK_ps : Z) (vals : list Z) : res (list Z) :=
  rfc ← table2 tRFC_TABLE 0 (density_id (density o));
  vals ← tset_ns JEDEC_rounding timings tCK_ps "nRFC" rfc vals;
  tset_ns JEDEC_rounding timings tCK_ps "nREFISB" rfc vals.

Definition timing_vals (p : TimingParams) (o : Organization) : res (list Z) :=
  '(vals, rate, tCK_ps) ← base_timings timings timing_presets p;
  vals ← refresh_timings o tCK_ps vals;
  final_timings JEDEC_rounding timings tCK_ps p vals.

Definition read_latency (vals : list Z) : res Z :=
  cl ← tval timings vals "nCL"; bl ← tval timings vals "nBL"; Ok (cl + bl).

(** The argument of [populate_timingcons]; [V] reads a timing value. *)
Definition timing_initializers (V : string -> Z) : list TimingConsInitializer :=
  [
   mkInit "channel" ["ACT"] ["ACT"; "PRE"; "PREA"; "REFab"; "REFsb"; "RFMab"; "RFMsb"] 2 1 false;
   mkInit "pseudochannel" ["ACT"] ["ACT"] (V "nRRDS") 1 false;
   mkInit "pseudochannel" ["ACT"] ["ACT"] (V "nFAW") 4 false;
   mkInit "pseudochannel" ["ACT"] ["REFsb"; "RFMsb"] (V "nRRDS" + 1) 1 false;
   mkInit "pseudochannel" ["REFsb"; "RFMsb"] ["REFsb"; "RFMsb"] (V "nRREFD") 1 false;
   mkInit "pseudochannel" ["REFsb"; "RFMsb"] ["ACT"] (V "nRREFD" - 1) 1 false;
   mkInit "pseudochannel" ["RD"; "RDA"] ["RD"; "RDA"] (V "nBL") 1 false;
   mkInit "pseudochannel" ["WR"; "WRA"] ["WR"; "WRA"] (V "nBL") 1 false;
   mkInit "pseudochannel" ["RD"; "RDA"] ["RD"; "RDA"] (V "nCCDS") 1 false;
   mkInit "pseudochannel" ["WR"; "WRA"] ["WR"; "WRA"] (V "nCCDS") 1 false;
   mkInit "pseudochannel" ["RD"; "RDA"] ["WR"; "WRA"] (V "nCL" + V "nBL" + 2 - V "nCWL") 1 false;
   mkInit "pseudochannel" ["WR"; "WRA"] ["RD"; "RDA"] (V "nCWL" + V "nBL" + V "nWTRS") 1 false;
   mkInit "pseudochannel" ["RD"] ["PREA"] (V "nRTPS") 1 false;
   mkInit "pseudochannel" ["WR"] ["PREA"] (V "nCWL" + V "nBL" + V "nWR") 1 false;
   mkInit "pseudochannel" ["ACT"] ["ACT"] (V "nRRDS") 1 false;
   mkInit "pseudochannel" ["ACT"] ["ACT"] (V "nFAW") 4 false;
   mkInit "pseudochannel" ["ACT"] ["PREA"] (V "nRAS") 1 false;
   mkInit "pseudochannel" ["PREA"] ["ACT"] (V "nRP") 1 false;
   mkInit "pseudochannel" ["ACT"] ["REFab"; "RFMab"] (V "nRC") 1 false;
   mkInit "pseudochannel" ["PRE"; "PREA"] ["REFab"; "RFMab"] (V "nRP") 1 false;
   mkInit "pseudochannel" ["RDA"] ["REFab"; "RFMab"] (V "nRP" + V "nRTPS") 1 false;
   mkInit "pseudochannel" ["WRA"] ["REFab"; "RFMab"] (V "nCWL" + V "nBL" + V "nWR" + V "nRP") 1
     false;
   mkInit "pseudochannel" ["REFab"; "RFMab"] ["ACT"; "REFsb"; "RFMsb"] (V "nRFC") 1 false;
   mkInit "bankgroup" ["RD"; "RDA"] ["RD"; "RDA"] (V "nCCDL") 1 false;
   mkInit "bankgroup" ["WR"; "WRA"] ["WR"; "WRA"] (V "nCCDL") 1 false;
   mkInit "bankgroup" ["WR"; "WRA"] ["RD"; "RDA"] (V "nCWL" + V "nBL" + V "nWTRL") 1 false;
   mkInit "bankgroup" ["ACT"] ["ACT"] (V "nRRDL") 1 false;
   mkInit "bankgroup" ["ACT"] ["REFsb"; "RFMsb"] (V "nRRDL" + 1) 1 false;
   mkInit "bankgroup" ["REFsb"; "RFMsb"] ["ACT"] (V "nRRDL" - 1) 1 false;
   mkInit "bank" ["RD"] ["PRE"] (V "nRTPS") 1 false;
   mkInit "bank" ["ACT"] ["ACT"] (V "nRC") 1 false;
   mkInit "bank" ["ACT"] ["RD"; "RDA"] (V "nRCDRD") 1 false;
   mkInit "bank" ["ACT"] ["WR"; "WRA"] (V "nRCDWR") 1 false;
   mkInit "bank" ["ACT"] ["PRE"] (V "nRAS") 1 false;
   mkInit "bank" ["PRE"] ["ACT"] (V "nRP") 1 false;
   mkInit "bank" ["RD"] ["PRE"] (V "nRTPL") 1 false;
   mkInit "bank" ["WR"] ["PRE"] (V "nCWL" + V "nBL" + V "nWR") 1 false;
   mkInit "bank" ["RDA"] ["ACT"; "REFsb"; "RFMsb"] (V "nRTPL" + V "nRP") 1 false;
   mkInit "bank" ["WRA"] ["ACT"; "REFsb"; "RFMsb"] (V "nCWL" + V "nBL" + V "nWR" + V "nRP") 1 false].

Definition actions : FuncMatrix ActionFunc :=
  [(lvl "channel", cmd "PREA", Action_Channel_PREab levels states);
   (lvl "bank", cmd "ACT", Action_Bank_ACT states);
   (lvl "bank", cmd "PRE", Action_Bank_PRE states);
   (lvl "bank", cmd "RDA", Action_Bank_PRE states);
   (lvl "bank", cmd "WRA", Action_Bank_PRE states)].

Definition preqs : FuncMatrix PreqFunc :=
  [(lvl "channel", cmd "REFab", Preq_Channel_RequireAllBanksClosed levels commands states);
   (lvl "bank", cmd "REFsb", Preq_Bank_RequireBankClosed commands states);
   (lvl "bank", cmd "RD", Preq_Bank_RequireRowOpen levels commands states);
   (lvl "bank", cmd "WR", Preq_Bank_RequireRowOpen levels commands states)].

Definition rowhits : FuncMatrix RowFunc :=
  [(lvl "bank", cmd "RD", RowHit_Bank_RDWR states);
   (lvl "bank", cmd "WR", RowHit_Bank_RDWR states)].

Definition rowopens : FuncMatrix RowFunc :=
  [(lvl "bank", cmd "RD", RowOpen_Bank_RDWR states);
   (lvl "bank", cmd "WR", RowOpen_Bank_RDWR states)].

(** Commands that end later: the command that ends them and when. *)
Definition futures : list (string * string * string) :=
  [].

(** ** The device *)
Definition std : Standard := {|
  st_levels := levels; st_commands := commands; st_states := states; st_timings := timings;
  st_requests := requests;
  st_scopes := command_scopes; st_meta := command_meta; st_translations := request_translations;
  st_init_states := init_states;
  st_organization := set_organization; st_timing_vals := timing_vals; st_read_latency := read_latency;
  st_initializers := timing_initializers;
  st_actions := actions; st_preqs := preqs; st_rowhits := rowhits; st_rowopens := rowopens;
  st_futures := futures;
|}.

Definition create_nodes := Dev.create_nodes std.
Definition init := Dev.init std.
Definition issue_command := Dev.issue_command std.
Definition tick := Dev.tick std.
Definition get_preq_command := Dev.get_preq_command std.
Definition check_ready := Dev.check_ready std.
Definition check_rowbuffer_hit := Dev.check_rowbuffer_hit std.
Definition check_node_open := Dev.check_node_open std.
End HBM3.
