(* ===== verification/Dram.v ===== *)
(** * The device interface: [IDRAM] of [dram/dram.h]

    What the controller, the scheduler, the refresh manager and the row policy
    use of a device, as a class; every [Standard] is an instance. *)
From Stdlib Require Import String.
From S2P Require Import Prelude DramSpec Device DDR4.
Local Open Scope string_scope.
Local Open Scope Z_scope.

(** [SpecLUT::operator()(int)]: the id is compared as a [size_t]. *)
Definition lut_get {V} (t : list V) (i : Z) : res V :=
  if (0 <=? i) && (i <? Z.of_nat (List.length t)) then vget t i
  else Err (Exc "SpecLUT out of range").

Class IDRAM : Type := {
  dev : Type;
  dram_check_ready : Z -> list Z -> dev -> res bool;
  dram_get_preq_command : Z -> list Z -> dev -> res Z;
  dram_check_rowbuffer_hit : Z -> list Z -> dev -> res bool;
  dram_check_node_open : Z -> list Z -> dev -> res bool;
  dram_issue_command : Z -> list Z -> dev -> res dev;
  dram_tick : dev -> res dev;
  dram_levels : ImplDef;
  dram_count : list Z;
  dram_commands : ImplDef;
  dram_command_scopes : list Z;
  dram_requests : ImplDef;
  dram_request_translations : list Z;
  dram_command_meta : list DRAMCommandMeta;
  dram_read_latency : Z;
  dram_timing : string -> res Z;
}.

(** [get_level_size]: -1 for an unknown level. *)
Definition get_level_size `{D : IDRAM} (name : string) : res Z :=
  match spec_def_id dram_levels name with
  | Ok i => vget dram_count i
  | Err _ => Ok (-1)
  end.

Definition std_dram (σ : Standard) (d : Dev.Device) : IDRAM := {|
  dev := Dev.State;
  dram_check_ready := Dev.check_ready σ d;
  dram_get_preq_command := Dev.get_preq_command σ d;
  dram_check_rowbuffer_hit := Dev.check_rowbuffer_hit σ d;
  dram_check_node_open := Dev.check_node_open σ d;
  dram_issue_command := Dev.issue_command σ d;
  dram_tick := Dev.tick σ d;
  dram_levels := st_levels σ;
  dram_count := count (DramNode.m_organization (Dev.d_spec d));
  dram_commands := st_commands σ;
  dram_command_scopes := from_res [] (st_scopes σ);
  dram_requests := st_requests σ;
  dram_request_translations := from_res [] (st_translations σ);
  dram_command_meta := from_res [] (st_meta σ);
  dram_read_latency := Dev.d_read_latency d;
  dram_timing := DramConfig.tval (st_timings σ) (Dev.d_timing_vals d);
|}.

Notation DDR4_dram := (std_dram DDR4.std).

Lemma request_translations_eval : DDR4.request_translations = Ok [3; 4; 7; 0; 1].
Proof. reflexivity. Qed.
