(* ===== verification/LPDDR5.v ===== *)
(** * The LPDDR5 device: [dram/impl/LPDDR5.cpp]

    Presets and tables of the class [LPDDR5].  Its nodes have a member more than
    those of the other standards, [m_final_synced_cycle], which only ranks use:
    it is kept beside the tree of [Device], per channel and rank. *)
From Stdlib Require Import String Ascii.
From S2P Require Import Prelude CxxFloat Utils DramSpec DramNode DramLambdas DramConfig Device Dram.
Local Open Scope string_scope.
Local Open Scope Z_scope.

Module LPDDR5.
Definition org_presets : list (string * Organization) :=
  [
   ("LPDDR5_2Gb_x16", mkOrganization (2 * 2 ^ 10) 16 [1; 1; 4; 4; 2 ^ 13; 2 ^ 10]);
   ("LPDDR5_4Gb_x16", mkOrganization (4 * 2 ^ 10) 16 [1; 1; 4; 4; 2 ^ 14; 2 ^ 10]);
   ("LPDDR5_8Gb_x16", mkOrganization (8 * 2 ^ 10) 16 [1; 1; 4; 4; 2 ^ 15; 2 ^ 10]);
   ("LPDDR5_16Gb_x16", mkOrganization (16 * 2 ^ 10) 16 [1; 1; 4; 4; 2 ^ 16; 2 ^ 10]);
   ("LPDDR5_32Gb_x16", mkOrganization (32 * 2 ^ 10) 16 [1; 1; 4; 4; 2 ^ 17; 2 ^ 10])].

Definition timing_presets : list (string * list Z) :=
  [("LPDDR5_6400", [6400; 4; 20; 15; 17; 15; 34; 30; 28; 4; 11; 4; 4; 5; 10; 16; 2; -1; -1; -1; -1; -1; 2; 1250])].

Definition m_internal_prefetch_size : Z := 8.

Definition levels : ImplDef :=
  ["channel"; "rank"; "bankgroup"; "bank"; "row"; "column"].

Definition commands : ImplDef :=
  ["ACT-1"; "ACT-2"; "PRE"; "PREA"; "CASRD"; "CASWR"; "RD16"; "WR16"; "RD16A"; "WR16A"; "REFab"; "REFpb";
   "RFMab"; "RFMpb"].

Definition command_scopes : res (list Z) :=
  LUT_def commands levels
    [("ACT-1", "row"); ("ACT-2", "row"); ("PRE", "bank"); ("PREA", "rank"); ("CASRD", "rank"); ("CASWR", "rank");
     ("RD16", "column"); ("WR16", "column"); ("RD16A", "column"); ("WR16A", "column"); ("REFab", "rank");
     ("REFpb", "rank"); ("RFMab", "rank"); ("RFMpb", "rank")].

Definition command_meta : res (list DRAMCommandMeta) :=
  LUT commands no_meta
    [("ACT-1", mkMeta false false false false false);
     ("ACT-2", mkMeta true false false false false);
     ("PRE", mkMeta false true false false false);
     ("PREA", mkMeta false true false false false);
     ("CASRD", mkMeta false false false false false);
     ("CASWR", mkMeta false false false false false);
     ("RD16", mkMeta false false true false false);
     ("WR16", mkMeta false false true false false);
     ("RD16A", mkMeta false true true false false);
     ("WR16A", mkMeta false true true false false);
     ("REFab", mkMeta false false false true false);
     ("REFpb", mkMeta false false false true false);
     ("RFMab", mkMeta false false false true false);
     ("RFMpb", mkMeta false false false true false)].

Definition requests : ImplDef :=
  ["read16"; "write16"; "all-bank-refresh"; "per-bank-refresh"].

Definition request_translations : res (list Z) :=
  LUT_def requests commands
    [("read16", "RD16"); ("write16", "WR16"); ("all-bank-refresh", "REFab"); ("per-bank-refresh", "REFpb")].

Definition timings : ImplDef :=
  ["rate"; "nBL16"; "nCL"; "nRCD"; "nRPab"; "nRPpb"; "nRAS"; "nRC"; "nWR"; "nRTP"; "nCWL"; "nCCD"; "nRRD"; "nWTRS";
   "nWTRL"; "nFAW"; "nPPD"; "nRFCab"; "nRFCpb"; "nREFI"; "nPBR2PBR"; "nPBR2ACT"; "nCS"; "tCK_ps"].

Definition states : ImplDef :=
  ["Pre-Opened"; "Opened"; "Closed"; "PowerUp"; "N/A"; "Refreshing"].

Definition init_states : res (list Z) :=
  LUT_def levels states
    [("channel", "N/A"); ("rank", "PowerUp"); ("bankgroup", "N/A"); ("bank", "Closed");
     ("row", "Closed"); ("column", "N/A")].

Definition lvl (name : string) : Z := def_id levels name.
Definition cmd (name : string) : Z := def_id commands name.
Definition st (name : string) : Z := def_id states name.

(** ** Initialisation *)
Definition set_organization (p : OrgParams) : res (Z * Organization) :=
  o ← load_organization levels org_presets p;
  n0 ← vget (count o) (lvl "bankgroup");
  n1 ← vget (count o) (lvl "bank");
  n2 ← vget (count o) (lvl "row");
  n3 ← vget (count o) (lvl "column");
  o ← check_density [n0; n1; n2; n3] o;
  Ok (default 32 (org_channel_width p), o).

Definition tRFCab_TABLE : list Z := [130; 180; 210; 280].
Definition tRFCpb_TABLE : list Z := [60; 90; 120; 140].
Definition tPBR2PBR_TABLE : list Z := [60; 90; 90; 90].
Definition tPBR2ACT_TABLE : list Z := [8; 8; 8; 8].
Definition tREFI_BASE : Z := 3906.
Definition density_id (x : Z) : Z := switch_id [2048; 4096; 8192; 16384] x.

Definition refresh_timings (o : Organization) (tCK_ps : Z) (vals : list Z) : res (list Z) :=
  let i := density_id (density o) in
  x ← vget tRFCab_TABLE i; vals ← tset_ns JEDEC_rounding timings tCK_ps "nRFCab" x vals;
  x ← vget tRFCpb_TABLE i; vals ← tset_ns JEDEC_rounding timings tCK_ps "nRFCpb" x vals;
  x ← vget tPBR2PBR_TABLE i; vals ← tset_ns JEDEC_rounding timings tCK_ps "nPBR2PBR" x vals;
  x ← vget tPBR2ACT_TABLE i; vals ← tset_ns JEDEC_rounding timings tCK_ps "nPBR2ACT" x vals;
  tset_ns JEDEC_rounding timings tCK_ps "nREFI" tREFI_BASE vals.

Definition timing_vals (p : TimingParams) (o : Organization) : res (list Z) :=
  '(vals, rate, tCK_ps) ← base_timings timings timing_presets p;
  vals ← refresh_timings o tCK_ps vals;
  final_timings JEDEC_rounding timings tCK_ps p vals.

Definition read_latency (vals : list Z) : res Z :=
  cl ← tval timings vals "nCL"; bl ← tval timings vals "nBL16"; Ok (cl + bl).

(** The argument of [populate_timingcons]; [V] reads a timing value. *)
Definition timing_initializers (V : string -> Z) : list TimingConsInitializer :=
  [
   mkInit "channel" ["RD16"; "RD16A"] ["RD16"; "RD16A"] (V "nBL16") 1 false;
   mkInit "channel" ["WR16"; "WR16A"] ["WR16"; "WR16A"] (V "nBL16") 1 false;
   mkInit "rank" ["RD16"; "RD16A"] ["RD16"; "RD16A"] (V "nCCD") 1 false;
   mkInit "rank" ["WR16"; "WR16A"] ["WR16"; "WR16A"] (V "nCCD") 1 false;
   mkInit "rank" ["RD16"; "RD16A"] ["WR16"; "WR16A"] (V "nCL" + V "nBL16" + 2 - V "nCWL") 1 false;
   mkInit "rank" ["WR16"; "WR16A"] ["RD16"; "RD16A"] (V "nCWL" + V "nBL16" + V "nWTRS") 1 false;
   mkInit "rank" ["RD16"; "RD16A"] ["RD16"; "RD16A"; "WR16"; "WR16A"] (V "nBL16" + V "nCS") 1 true;
   mkInit "rank" ["WR16"; "WR16A"] ["RD16"; "RD16A"] (V "nCL" + V "nBL16" + V "nCS" - V "nCWL") 1 true;
   mkInit "rank" ["RD16"] ["PREA"] (V "nRTP") 1 false;
   mkInit "rank" ["WR16"] ["PREA"] (V "nCWL" + V "nBL16" + V "nWR") 1 false;
   mkInit "rank" ["ACT-1"] ["ACT-1"; "REFpb"] (V "nRRD") 1 false;
   mkInit "rank" ["ACT-1"] ["ACT-1"] (V "nFAW") 4 false;
   mkInit "rank" ["ACT-1"] ["PREA"] (V "nRAS") 1 false;
   mkInit "rank" ["PREA"] ["ACT-1"] (V "nRPab") 1 false;
   mkInit "rank" ["ACT-1"] ["REFab"] (V "nRC") 1 false;
   mkInit "rank" ["PRE"] ["REFab"] (V "nRPpb") 1 false;
   mkInit "rank" ["PREA"] ["REFab"] (V "nRPab") 1 false;
   mkInit "rank" ["RD16A"] ["REFab"] (V "nRPpb" + V "nRTP") 1 false;
   mkInit "rank" ["WR16A"] ["REFab"] (V "nCWL" + V "nBL16" + V "nWR" + V "nRPpb") 1 false;
   mkInit "rank" ["REFab"] ["REFab"; "ACT-1"; "REFpb"] (V "nRFCab") 1 false;
   mkInit "rank" ["ACT-1"] ["REFpb"] (V "nPBR2ACT") 1 false;
   mkInit "rank" ["REFpb"] ["REFpb"] (V "nPBR2PBR") 1 false;
   mkInit "bankgroup" ["RD16"; "RD16A"] ["RD16"; "RD16A"] (V "nCCD") 1 false;
   mkInit "bankgroup" ["WR16"; "WR16A"] ["WR16"; "WR16A"] (V "nCCD") 1 false;
   mkInit "bankgroup" ["WR16"; "WR16A"] ["RD16"; "RD16A"] (V "nCWL" + V "nBL16" + V "nWTRL") 1 false;
   mkInit "bankgroup" ["ACT-1"] ["ACT-1"] (V "nRRD") 1 false;
   mkInit "bank" ["ACT-1"] ["ACT-1"] (V "nRC") 1 false;
   mkInit "bank" ["ACT-1"] ["RD16"; "RD16A"; "WR16"; "WR16A"] (V "nRCD") 1 false;
   mkInit "bank" ["ACT-1"] ["PRE"] (V "nRAS") 1 false;
   mkInit "bank" ["PRE"] ["ACT-1"] (V "nRPpb") 1 false;
   mkInit "bank" ["RD16"] ["PRE"] (V "nRTP") 1 false;
   mkInit "bank" ["WR16"] ["PRE"] (V "nCWL" + V "nBL16" + V "nWR") 1 false;
   mkInit "bank" ["RD16A"] ["ACT-1"] (V "nRTP" + V "nRPpb") 1 false;
   mkInit "bank" ["WR16A"] ["ACT-1"] (V "nCWL" + V "nBL16" + V "nWR" + V "nRPpb") 1 false].

(** ** Actions

    The actions of a rank for CASRD, CASWR, RD16 and WR16 only set
    [m_final_synced_cycle]: see [sync] below. *)
Definition Action_Bank_ACT1 : ActionFunc := fun node cmd target_id clk =>
  let node := set_state (st "Pre-Opened") node in
  Ok (set_rows (<[target_id := st "Pre-Opened"]> (m_row_state node)) node).

Definition actions : FuncMatrix ActionFunc :=
  [(lvl "rank", cmd "PREA", Action_Rank_PREab levels states);
   (lvl "bank", cmd "ACT-1", Action_Bank_ACT1);
   (lvl "bank", cmd "ACT-2", Action_Bank_ACT states);
   (lvl "bank", cmd "PRE", Action_Bank_PRE states);
   (lvl "bank", cmd "RD16A", Action_Bank_PRE states);
   (lvl "bank", cmd "WR16A", Action_Bank_PRE states)].

(** ** Prerequisites *)

(** The loops test the banks of the pair, but the [switch] is on the state of
    the rank. *)
Definition Preq_Rank_REFpb (sizes : list Z) : PreqFunc := fun node c addr_vec clk =>
  num_banks_per_bg ← vget sizes (lvl "bank");
  b ← vget addr_vec (lvl "bank");
  let flat_ids := m_child_nodes node ≫= fun bg =>
    (fun bank => m_node_id bank + m_node_id bg * num_banks_per_bg) <$> m_child_nodes bg in
  let opened := (m_state node =? st "Pre-Opened") || (m_state node =? st "Opened") in
  Ok (if List.existsb (fun i => ((i =? b) || (i =? b + 8)) && opened) flat_ids then cmd "PRE" else c).

(** [m_row_state.find(0)]: the row of the request is not looked at.  [synced] is
    [m_final_synced_cycle] of the rank above the bank. *)
Definition Preq_Bank_RDWR (cas : string) (synced : Z) : PreqFunc := fun node c addr_vec clk =>
  if m_state node =? st "Closed" then Ok (cmd "ACT-1")
  else if m_state node =? st "Pre-Opened" then Ok (cmd "ACT-2")
  else if m_state node =? st "Opened" then
    match m_row_state node !! 0 with
    | Some _ => Ok (if synced <? clk then cmd cas else c)
    | None => Ok (cmd "PRE")
    end
  else Err (Exit (-1)).

Definition preqs (sizes : list Z) (synced : Z) : FuncMatrix PreqFunc :=
  [(lvl "rank", cmd "REFab", Preq_Rank_RequireAllBanksClosed levels commands states);
   (lvl "rank", cmd "RFMab", Preq_Rank_RequireAllBanksClosed levels commands states);
   (lvl "rank", cmd "REFpb", Preq_Rank_REFpb sizes);
   (lvl "rank", cmd "RFMpb", Preq_Rank_REFpb sizes);
   (lvl "bank", cmd "RD16", Preq_Bank_RDWR "CASRD" synced);
   (lvl "bank", cmd "WR16", Preq_Bank_RDWR "CASWR" synced)].

Definition rowhits : FuncMatrix RowFunc :=
  [(lvl "bank", cmd "RD16", RowHit_Bank_RDWR states);
   (lvl "bank", cmd "WR16", RowHit_Bank_RDWR states)].

Definition rowopens : FuncMatrix RowFunc :=
  [(lvl "bank", cmd "RD16", RowOpen_Bank_RDWR states);
   (lvl "bank", cmd "WR16", RowOpen_Bank_RDWR states)].

(** ** The device

    The tree and its operations are those of [Device]; prerequisites depend on
    the state of the rank and are installed for each query. *)
Definition std : Standard := {|
  st_levels := levels; st_commands := commands; st_states := states; st_timings := timings;
  st_requests := requests;
  st_scopes := command_scopes; st_meta := command_meta; st_translations := request_translations;
  st_init_states := init_states;
  st_organization := set_organization; st_timing_vals := timing_vals; st_read_latency := read_latency;
  st_initializers := timing_initializers;
  st_actions := actions; st_preqs := []; st_rowhits := rowhits; st_rowopens := rowopens;
  st_futures := [];
|}.

Record State : Type := mkState {
  tree : Dev.State;
  m_final_synced_cycle : list (list Z);
}.

Definition create_nodes := Dev.create_nodes std.

Definition init (po : OrgParams) (pt : TimingParams) : res (Dev.Device * State) :=
  '(d, s) ← Dev.init std po pt;
  Ok (d, mkState s (fmap (fun c => replicate (List.length (m_child_nodes c)) (-1)) (Dev.m_channels s))).

(** What the rank actions store: [m_timings["nCL"]] is the position of the name
    in the list of timings, not the value of the timing. *)
Definition synced_until (command clk : Z) : option Z :=
  let t name := def_id timings name in
  if command =? cmd "CASRD" then Some (clk + t "nCL" + t "nBL16" + 1)
  else if command =? cmd "CASWR" then Some (clk + t "nCWL" + t "nBL16" + 1)
  else if command =? cmd "RD16" then Some (clk + t "nCL" + t "nBL16")
  else if command =? cmd "WR16" then Some (clk + t "nCWL" + t "nBL16")
  else None.

(** The ranks [update_states] visits: one, or all for the address -1. *)
Definition sync (command : Z) (addr_vec : list Z) (clk : Z) (f : list (list Z)) : res (list (list Z)) :=
  match synced_until command clk with
  | None => Ok f
  | Some v =>
      ch ← vget addr_vec (lvl "channel");
      ranks ← vget f ch;
      ra ← vget addr_vec (lvl "rank");
      ranks ← (if ra =? -1 then Ok (fmap (fun _ => v) ranks) else vset ranks ra v);
      vset f ch ranks
  end.

Definition issue_command (d : Dev.Device) (command : Z) (addr_vec : list Z) (s : State) : res State :=
  t ← Dev.issue_command std d command addr_vec (tree s);
  f ← sync command addr_vec (Dev.m_clk (tree s)) (m_final_synced_cycle s);
  Ok (mkState t f).

Definition tick (d : Dev.Device) (s : State) : res State :=
  t ← Dev.tick std d (tree s); Ok (mkState t (m_final_synced_cycle s)).

Definition with_preqs (q : FuncMatrix PreqFunc) (sp : Spec) : Spec :=
  mkSpec (m_levels sp) (m_commands sp) (m_states sp) (m_command_scopes sp) (m_init_states sp) (m_organization sp)
    (m_timing_cons sp) (m_actions sp) q (m_rowhits sp) (m_rowopens sp).

(** The member of the rank on the path of the address. *)
Definition rank_synced (addr_vec : list Z) (s : State) : Z :=
  from_res (-1) (ch ← vget addr_vec (lvl "channel"); ranks ← vget (m_final_synced_cycle s) ch;
                 ra ← vget addr_vec (lvl "rank"); vget ranks ra).

Definition get_preq_command (d : Dev.Device) (command : Z) (addr_vec : list Z) (s : State) : res Z :=
  let sizes := count (m_organization (Dev.d_spec d)) in
  let sp := with_preqs (preqs sizes (rank_synced addr_vec s)) (Dev.d_spec d) in
  Dev.on_channel std (DramNode.get_preq_command sp command addr_vec (Dev.m_clk (tree s))) addr_vec (tree s).

Definition check_ready (d : Dev.Device) (command : Z) (addr_vec : list Z) (s : State) : res bool :=
  Dev.check_ready std d command addr_vec (tree s).

Definition check_rowbuffer_hit (d : Dev.Device) (command : Z) (addr_vec : list Z) (s : State) : res bool :=
  Dev.check_rowbuffer_hit std d command addr_vec (tree s).

Definition check_node_open (d : Dev.Device) (command : Z) (addr_vec : list Z) (s : State) : res bool :=
  Dev.check_node_open std d command addr_vec (tree s).

Definition dram (d : Dev.Device) : IDRAM := {|
  dev := State;
  dram_check_ready := check_ready d;
  dram_get_preq_command := get_preq_command d;
  dram_check_rowbuffer_hit := check_rowbuffer_hit d;
  dram_check_node_open := check_node_open d;
  dram_issue_command := issue_command d;
  dram_tick := tick d;
  dram_levels := levels;
  dram_count := count (m_organization (Dev.d_spec d));
  dram_commands := commands;
  dram_command_scopes := from_res [] command_scopes;
  dram_requests := requests;
  dram_request_translations := from_res [] request_translations;
  dram_command_meta := from_res [] command_meta;
  dram_read_latency := Dev.d_read_latency d;
  dram_timing := tval timings (Dev.d_timing_vals d);
|}.
End LPDDR5.
