(* ===== verification/GDDR6.v ===== *)
(** * The GDDR6 device: [dram/impl/GDDR6.cpp]

    Presets and tables of the class [GDDR6], and the computation of its timing
    parameters; the operations of the device are those of [Device]. *)
From Stdlib Require Import String Ascii.
From S2P Require Import Prelude CxxFloat Utils DramSpec DramNode DramLambdas DramConfig Device.
Local Open Scope string_scope.
Local Open Scope Z_scope.

Module GDDR6.
Definition org_presets : list (string * Organization) :=
  [
   ("GDDR6_8Gb_x8", mkOrganization (8 * 2 ^ 10) 8 [2; 4; 4; 2 ^ 14; 2 ^ 11]);
   ("GDDR6_8Gb_x16", mkOrganization (8 * 2 ^ 10) 16 [2; 4; 4; 2 ^ 14; 2 ^ 10]);
   ("GDDR6_16Gb_x8", mkOrganization (16 * 2 ^ 10) 8 [2; 4; 4; 2 ^ 15; 2 ^ 11]);
   ("GDDR6_16Gb_x16", mkOrganization (16 * 2 ^ 10) 16 [2; 4; 4; 2 ^ 14; 2 ^ 11]);
   ("GDDR6_32Gb_x8", mkOrganization (32 * 2 ^ 10) 8 [2; 4; 4; 2 ^ 16; 2 ^ 11]);
   ("GDDR6_32Gb_x16", mkOrganization (32 * 2 ^ 10) 16 [2; 4; 4; 2 ^ 15; 2 ^ 11])].

Definition timing_presets : list (string * list Z) :=
  [
   ("GDDR6_2000_1350mV_double", [2000; 8; 24; 26; 16; 26; 53; 79; 26; 4; 6; 4; 6; 7; 7; 9; 11; 28; 210; 105; 14; 3333;
               570]);
   ("GDDR6_2000_1250mV_double", [2000; 8; 24; 30; 19; 30; 60; 89; 30; 4; 6; 4; 6; 11; 11; 9; 11; 42; 210; 105; 21;
               3333; 570]);
   ("GDDR6_2000_1350mV_quad", [2000; 4; 24; 26; 16; 26; 53; 79; 26; 4; 6; 4; 6; 7; 7; 9; 11; 28; 210; 105; 14; 3333;
               570]);
   ("GDDR6_2000_1250mV_quad", [2000; 4; 24; 30; 19; 30; 60; 89; 30; 4; 6; 4; 6; 11; 11; 9; 11; 42; 210; 105; 21;
               3333; 570])].

Definition m_internal_prefetch_size : Z := 8.

Definition levels : ImplDef :=
  ["channel"; "bankgroup"; "bank"; "row"; "column"].

Definition commands : ImplDef :=
  ["ACT"; "PREA"; "PRE"; "RD"; "WR"; "RDA"; "WRA"; "REFab"; "REFpb"; "REFp2b"].

Definition command_scopes : res (list Z) :=
  LUT_def commands levels
    [("REFab", "channel"); ("REFp2b", "channel"); ("ACT", "row"); ("PREA", "bank"); ("PRE", "bank");
     ("REFpb", "bank"); ("RD", "column"); ("WR", "column"); ("RDA", "column"); ("WRA", "column")].

Definition command_meta : res (list DRAMCommandMeta) :=
  LUT commands no_meta
    [("ACT", mkMeta true false false false false);
     ("PREA", mkMeta false true false false false);
     ("PRE", mkMeta false true false false false);
     ("RD", mkMeta false false true false false);
     ("WR", mkMeta false false true false false);
     ("RDA", mkMeta false true true false false);
     ("WRA", mkMeta false true true false false);
     ("REFab", mkMeta false false false true false);
     ("REFpb", mkMeta false false false true false);
     ("REFp2b", mkMeta false false false true false)].

Definition requests : ImplDef :=
  ["read"; "write"; "all-bank-refresh"; "PREsb"].

Definition request_translations : res (list Z) :=
  LUT_def requests commands
    [("read", "RD"); ("write", "WR"); ("all-bank-refresh", "REFab"); ("PREsb", "PRE")].

Definition timings : ImplDef :=
  ["rate"; "nBL"; "nCL"; "nRCDRD"; "nRCDWD"; "nRP"; "nRAS"; "nRC"; "nWR"; "nRTP"; "nCWL"; "nCCDS";
   "nCCDL"; "nRRDS"; "nRRDL"; "nWTRS"; "nWTRL"; "nFAW"; "nRFC"; "nREFI"; "nRREFD"; "nRFCpb"; "tCK_ps"].

Definition states : ImplDef :=
  ["Opened"; "Closed"; "PowerUp"; "N/A"; "Refreshing"].

Definition init_states : res (list Z) :=
  LUT_def levels states
    [("channel", "N/A"); ("bankgroup", "N/A"); ("bank", "Closed"); ("row", "Closed");
     ("column", "N/A")].

Definition lvl (name : string) : Z := def_id levels name.
Definition cmd (name : string) : Z := def_id commands name.

(** ** Initialisation *)
Definition set_organization (p : OrgParams) : res (Z * Organization) :=
  o ← load_organization levels org_presets p;
  n0 ← vget (count o) (lvl "channel");
  n1 ← vget (count o) (lvl "bankgroup");
  n2 ← vget (count o) (lvl "bank");
  n3 ← vget (count o) (lvl "row");
  n4 ← vget (count o) (lvl "column");
  o ← check_density [n0; n1; n2; n3; n4] o;
  Ok (default 64 (org_channel_width p), o).

Definition nRRDS_TABLE : list (list Z) :=
  [[4]; [5]].
Definition nRRDL_TABLE : list (list Z) :=
  [[5]; [6]].
Definition nFAW_TABLE : list (list Z) :=
  [[20]; [28]].
Definition tRFC_TABLE : list (list Z) :=
  [[260; 360; 550]; [160; 260; 350]; [110; 160; 260]].
Definition tREFI_BASE : Z := 7800.
Definition dq_id (x : Z) : Z := switch_id [8; 16] x.
Definition rate_id (x : Z) : Z := switch_id [2000] x.
Definition density_id (x : Z) : Z := switch_id [4096; 8192; 16384] x.

Definition secondary_timings (o : Organization) (rate : Z) (vals : list Z) : res (list Z) :=
  let d := dq_id (dq o) in
  let r := rate_id rate in
  if negb (d =? -1) && negb (r =? -1) then
    x ← table2 nRRDS_TABLE d r; vals ← tset timings "nRRDS" x vals;
    x ← table2 nRRDL_TABLE d r; vals ← tset timings "nRRDL" x vals;
    x ← table2 nFAW_TABLE d r; tset timings "nFAW" x vals
  else Ok vals.

Definition refresh_timings (o : Organization) (tCK_ps : Z) (vals : list Z) : res (list Z) :=
  rfc ← table2 tRFC_TABLE 0 (density_id (density o));
  vals ← tset_ns JEDEC_rounding timings tCK_ps "nRFC" rfc vals;
  tset_ns JEDEC_rounding timings tCK_ps "nREFI" tREFI_BASE vals.

Definition timing_vals (p : TimingParams) (o : Organization) : res (list Z) :=
  '(vals, rate, tCK_ps) ← base_timings timings timing_presets p;
  vals ← secondary_timings o rate vals;
  vals ← refresh_timings o tCK_ps vals;
  final_timings JEDEC_rounding timings tCK_ps p vals.

Definition read_latency (vals : list Z) : res Z :=
  cl ← tval timings vals "nCL"; bl ← tval timings vals "nBL"; Ok (cl + bl).

(** The argument of [populate_timingcons]; [V] reads a timing value. *)
Definition timing_initializers (V : string -> Z) : list TimingConsInitializer :=
  [
   mkInit "channel" ["RD"; "RDA"] ["RD"; "RDA"] (V "nBL") 1 false;
   mkInit "channel" ["WR"; "WRA"] ["WR"; "WRA"] (V "nBL") 1 false;
   mkInit "channel" ["RD"; "RDA"] ["RD"; "RDA"] (V "nCCDS") 1 false;
   mkInit "channel" ["WR"; "WRA"] ["WR"; "WRA"] (V "nCCDS") 1 false;
   mkInit "channel" ["RD"; "RDA"] ["WR"; "WRA"] (V "nCL" + V "nBL" + 3 - V "nCWL" + 1) 1 false;
   mkInit "channel" ["WR"; "WRA"] ["RD"; "RDA"] (V "nCWL" + V "nBL" + V "nWTRS") 1 false;
   mkInit "channel" ["RD"] ["PREA"] (V "nRTP") 1 false;
   mkInit "channel" ["WR"] ["PREA"] (V "nCWL" + V "nBL" + V "nWR") 1 false;
   mkInit "channel" ["ACT"] ["ACT"] (V "nRRDS") 1 false;
   mkInit "channel" ["ACT"] ["ACT"] (V "nFAW") 4 false;
   mkInit "channel" ["ACT"] ["PRE"] (V "nRAS") 1 false;
   mkInit "channel" ["PRE"] ["ACT"] (V "nRP") 1 false;
   mkInit "channel" ["ACT"] ["REFab"] (V "nRC") 1 false;
   mkInit "channel" ["PRE"] ["REFab"] (V "nRP") 1 false;
   mkInit "channel" ["RDA"] ["REFab"] (V "nRP" + V "nRTP") 1 false;
   mkInit "channel" ["WRA"] ["REFab"] (V "nCWL" + V "nBL" + V "nWR" + V "nRP") 1 false;
   mkInit "channel" ["REFab"] ["ACT"] (V "nRFC") 1 false;
   mkInit "channel" ["ACT"] ["REFp2b"] (V "nRRDL") 1 false;
   mkInit "channel" ["PRE"] ["REFp2b"] (V "nRP") 1 false;
   mkInit "channel" ["RDA"] ["REFp2b"] (V "nRP" + V "nRTP") 1 false;
   mkInit "channel" ["WRA"] ["REFp2b"] (V "nCWL" + V "nBL" + V "nWR" + V "nRP") 1 false;
   mkInit "channel" ["REFp2b"] ["ACT"] (V "nRREFD") 1 false;
   mkInit "channel" ["ACT"] ["REFpb"] (V "nRRDL") 1 false;
   mkInit "channel" ["PRE"] ["REFpb"] (V "nRP") 1 false;
   mkInit "channel" ["RDA"] ["REFpb"] (V "nRP" + V "nRTP") 1 false;
   mkInit "channel" ["WRA"] ["REFpb"] (V "nCWL" + V "nBL" + V "nWR" + V "nRP") 1 false;
   mkInit "channel" ["REFpb"] ["ACT"] (V "nRREFD") 1 false;
   mkInit "bankgroup" ["RD"; "RDA"] ["RD"; "RDA"] (V "nCCDL") 1 false;
   mkInit "bankgroup" ["WR"; "WRA"] ["WR"; "WRA"] (V "nCCDL") 1 false;
   mkInit "bankgroup" ["WR"; "WRA"] ["RD"; "RDA"] (V "nCWL" + V "nBL" + V "nWTRL") 1 false;
   mkInit "bankgroup" ["ACT"] ["ACT"] (V "nRRDL") 1 false;
   mkInit "bank" ["ACT"] ["RD"; "RDA"] (V "nRCDRD") 1 false;
   mkInit "bank" ["ACT"] ["WR"; "WRA"] (V "nRCDWD") 1 false;
   mkInit "bank" ["ACT"] ["PRE"] (V "nRAS") 1 false;
   mkInit "bank" ["PRE"] ["ACT"] (V "nRP") 1 false;
   mkInit "bank" ["RD"] ["PRE"] (V "nRTP") 1 false;
   mkInit "bank" ["WR"] ["PRE"] (V "nCWL" + V "nBL" + V "nWR") 1 false;
   mkInit "bank" ["RDA"] ["ACT"] (V "nRTP" + V "nRP") 1 false;
   mkInit "bank" ["WRA"] ["ACT"] (V "nCWL" + V "nBL" + V "nWR" + V "nRP") 1 false;
   mkInit "bank" ["ACT"] ["REFpb"] (V "nRC") 1 false;
   mkInit "bank" ["PRE"] ["REFpb"] (V "nRP") 1 false;
   mkInit "bank" ["RDA"] ["REFpb"] (V "nRP" + V "nRTP") 1 false;
   mkInit "bank" ["WRA"] ["REFpb"] (V "nCWL" + V "nBL" + V "nWR" + V "nRP") 1 false;
   mkInit "bank" ["REFpb"] ["ACT"] (V "nRFCpb") 1 false].

Definition actions : FuncMatrix ActionFunc :=
  [(lvl "channel", cmd "PREA", Action_Channel_PREab levels states);
   (lvl "bank", cmd "ACT", Action_Bank_ACT states);
   (lvl "bank", cmd "PRE", Action_Bank_PRE states);
   (lvl "bank", cmd "RDA", Action_Bank_PRE states);
   (lvl "bank", cmd "WRA", Action_Bank_PRE states)].

Definition preqs : FuncMatrix PreqFunc :=
  [(lvl "channel", cmd "REFab", Preq_Channel_RequireAllBanksClosed levels commands states);
   (lvl "bank", cmd "RD", Preq_Bank_RequireRowOpen levels commands states);
   (lvl "bank", cmd "WR", Preq_Bank_RequireRowOpen levels commands states)].

Definition rowhits : FuncMatrix RowFunc :=
  [(lvl "bank", cmd "RD", RowHit_Bank_RDWR states);
   (lvl "bank", cmd "WR", RowHit_Bank_RDWR states)].

Definition rowopens : FuncMatrix RowFunc :=
  [(lvl "bank", cmd "RD", RowOpen_Bank_RDWR states);
   (lvl "bank", cmd "WR", RowOpen_Bank_RDWR states)].

(** Commands that end later: the command that ends them and when. *)
Definition futures : list (string * string * string) :=
  [].

(** ** The device *)
Definition std : Standard := {|
  st_levels := levels; st_commands := commands; st_states := states; st_timings := timings;
  st_requests := requests;
  st_scopes := command_scopes; st_meta := command_meta; st_translations := request_translations;
  st_init_states := init_states;
  st_organization := set_organization; st_timing_vals := timing_vals; st_read_latency := read_latency;
  st_initializers := timing_initializers;
  st_actions := actions; st_preqs := preqs; st_rowhits := rowhits; st_rowopens := rowopens;
  st_futures := futures;
|}.

Definition create_nodes := Dev.create_nodes std.
Definition init := Dev.init std.
Definition issue_command := Dev.issue_command std.
Definition tick := Dev.tick std.
Definition get_preq_command := Dev.get_preq_command std.
Definition check_ready := Dev.check_ready std.
Definition check_rowbuffer_hit := Dev.check_rowbuffer_hit std.
Definition check_node_open := Dev.check_node_open std.
End GDDR6.
