(* ===== verification/Power.v ===== *)
(** * The power model: [dram/lambdas/power.h] and the power parts of the standards

    With [drampower_enable] a device counts the commands of every rank and the
    cycles the rank is active or idle, and turns them into energies when the
    simulation ends.  The lambdas read the states of the tree and change only the
    statistics, which are kept beside the state of [Device]. *)
From Stdlib Require Import String.
From S2P Require Import Prelude CxxFloat DramSpec DramNode DramConfig Device DDR4 DDR4VRR.
From S2P Require Import DDR4RVRR DDR5 DDR5VRR DDR5RVRR.
Local Open Scope string_scope.
Local Open Scope Z_scope.

(** ** [PowerStats] of [spec.h] *)
Inductive PowerState : Type := IDLE | ACTIVE | REFRESHING.

Record PowerStats : Type := mkPowerStats {
  rank_id : Z;
  cur_power_state : PowerState;
  act_background_energy : spec_float;
  pre_background_energy : spec_float;
  total_background_energy : spec_float;
  total_cmd_energy : spec_float;
  total_energy : spec_float;
  cmd_counters : list Z;
  active_cycles : Z;
  idle_cycles : Z;
  active_start_cycle : Z;
  idle_start_cycle : Z;
}.

Definition f0 : spec_float := F64.of_Z 0.
Definition new_stats (id : Z) (counters : nat) : PowerStats :=
  mkPowerStats id IDLE f0 f0 f0 f0 f0 (replicate counters 0) 0 0 (-1) 0.

Definition set_counters (l : list Z) (p : PowerStats) : PowerStats :=
  mkPowerStats (rank_id p) (cur_power_state p) (act_background_energy p) (pre_background_energy p)
    (total_background_energy p) (total_cmd_energy p) (total_energy p) l (active_cycles p) (idle_cycles p)
    (active_start_cycle p) (idle_start_cycle p).

Definition set_cycles (st : PowerState) (act idle act_start idle_start : Z) (p : PowerStats) : PowerStats :=
  mkPowerStats (rank_id p) st (act_background_energy p) (pre_background_energy p) (total_background_energy p)
    (total_cmd_energy p) (total_energy p) (cmd_counters p) act idle act_start idle_start.

Definition set_energies (act pre bg cmd total : spec_float) (p : PowerStats) : PowerStats :=
  mkPowerStats (rank_id p) (cur_power_state p) act pre bg cmd total (cmd_counters p) (active_cycles p) (idle_cycles p)
    (active_start_cycle p) (idle_start_cycle p).

(** The steps the lambdas repeat. *)
Definition go_active (clk : Z) (p : PowerStats) : PowerStats :=
  set_cycles ACTIVE (active_cycles p) (idle_cycles p + (clk - idle_start_cycle p)) clk (idle_start_cycle p) p.
Definition go_idle (clk : Z) (p : PowerStats) : PowerStats :=
  set_cycles IDLE (active_cycles p + (clk - active_start_cycle p)) (idle_cycles p) (active_start_cycle p) clk p.
Definition start_refresh (clk : Z) (p : PowerStats) : PowerStats :=
  set_cycles REFRESHING (active_cycles p) (idle_cycles p + (clk - idle_start_cycle p)) (active_start_cycle p)
    (idle_start_cycle p) p.
Definition end_refresh (clk : Z) (p : PowerStats) : PowerStats :=
  set_cycles IDLE (active_cycles p) (idle_cycles p) (active_start_cycle p) clk p.

(** ** The lambdas

    A lambda sees its node and, through the parent pointers, the ids of the
    nodes above it, nearest first. *)
Definition PowerFunc : Type := Node -> list Z -> Z -> list Z -> Z -> list PowerStats -> res (list PowerStats).

Section Lambdas.
Context (levels states cmds_counted : ImplDef).
(** [get_level_size("rank")] *)
Context (num_ranks : Z).
Let lvl (name : string) : Z := def_id levels name.
Let st (name : string) : Z := def_id states name.

Definition on_stats (i : Z) (f : PowerStats -> res PowerStats) (stats : list PowerStats) : res (list PowerStats) :=
  p ← vget stats i; p ← f p; vset stats i p.

(** [cmd_counters[m_cmds_counted(name)] += n], a [size_t]. *)
Definition count_cmd (name : string) (n : Z) (p : PowerStats) : res PowerStats :=
  i ← def_of_name cmds_counted name;
  c ← vget (cmd_counters p) i;
  l ← vset (cmd_counters p) i (u64 (c + n));
  Ok (set_counters l p).

Definition Bank_get_flat_rank_id (above : list Z) : res Z :=
  if lvl "bank" - lvl "rank" =? 1 then ra ← vget above 0; ch ← vget above 1; Ok (ch * num_ranks + ra)
  else if lvl "bank" - lvl "rank" =? 2 then ra ← vget above 1; ch ← vget above 2; Ok (ch * num_ranks + ra)
  else Ok (-1 * num_ranks + -1).

Definition Bank_count (name : string) : PowerFunc := fun node above cmd addr_vec clk stats =>
  i ← Bank_get_flat_rank_id above; on_stats i (count_cmd name 1) stats.

Definition Bank_ACT : PowerFunc := Bank_count "ACT".
Definition Bank_PRE : PowerFunc := Bank_count "PRE".
Definition Bank_RD : PowerFunc := Bank_count "RD".
Definition Bank_WR : PowerFunc := Bank_count "WR".
Definition Bank_VRR : PowerFunc := Bank_count "VRR".
Definition Bank_RVRR : PowerFunc := Bank_count "RVRR".

Definition Rank_get_flat_rank_id (node : Node) (above : list Z) : res Z :=
  ch ← vget above 0; Ok (ch * num_ranks + m_node_id node).

Definition banks_of (node : Node) : list Node :=
  if lvl "bank" - lvl "rank" =? 1 then m_child_nodes node
  else if lvl "bank" - lvl "rank" =? 2 then m_child_nodes node ≫= m_child_nodes
  else [].

Definition count_state (s : Z) (l : list Node) : Z := Z.of_nat (List.length (filter (fun b => m_state b = s) l)).

Definition get_open_bank_count (node : Node) : Z := count_state (st "Opened") (banks_of node).
Definition get_refreshing_bank_count (node : Node) : Z := count_state (st "Refreshing") (banks_of node).

Definition is_rank_idle (node : Node) : bool :=
  (get_open_bank_count node =? 0) && (get_refreshing_bank_count node =? 0).

Definition on_rank (node : Node) (above : list Z) (f : PowerStats -> res PowerStats) (stats : list PowerStats)
    : res (list PowerStats) :=
  i ← Rank_get_flat_rank_id node above; on_stats i f stats.

Definition Rank_ACT : PowerFunc := fun node above cmd addr_vec clk =>
  on_rank node above (fun p => Ok (if is_rank_idle node then go_active clk p else p)).

Definition Rank_PRE : PowerFunc := fun node above cmd addr_vec clk =>
  on_rank node above (fun p =>
    Ok (if (get_open_bank_count node =? 1) && (get_refreshing_bank_count node =? 0) then go_idle clk p else p)).

(** The [assert] is compiled out: the build type is Release. *)
Definition Rank_PREA : PowerFunc := fun node above cmd addr_vec clk =>
  on_rank node above (fun p =>
    p ← count_cmd "PRE" (get_open_bank_count node) p;
    Ok (if is_rank_idle node then p else go_idle clk p)).

Definition Rank_REFab : PowerFunc := fun node above cmd addr_vec clk =>
  on_rank node above (fun p => p ← count_cmd "REF" 1 p; Ok (start_refresh clk p)).

Definition Rank_REFab_end : PowerFunc := fun node above cmd addr_vec clk =>
  on_rank node above (fun p => Ok (end_refresh clk p)).

Definition Rank_VRR : PowerFunc := Rank_ACT.

Definition Rank_VRR_end : PowerFunc := fun node above cmd addr_vec clk =>
  on_rank node above (fun p =>
    Ok (if (get_open_bank_count node =? 0) && (get_refreshing_bank_count node =? 1) then go_idle clk p else p)).

Definition Rank_counted_sb (name : string) : PowerFunc := fun node above cmd addr_vec clk =>
  on_rank node above (fun p =>
    p ← count_cmd name 1 p; Ok (if is_rank_idle node then go_active clk p else p)).

Definition Rank_RFMsb : PowerFunc := Rank_counted_sb "RFM".
Definition Rank_RRFMsb : PowerFunc := Rank_counted_sb "RRFM".

(** The [int] count is compared with a [size_t]. *)
Definition Rank_RFMsb_end : PowerFunc := fun node above cmd addr_vec clk =>
  on_rank node above (fun p =>
    Ok (if (get_open_bank_count node =? 0) &&
           (get_refreshing_bank_count node =? Z.of_nat (List.length (m_child_nodes node)))
        then go_idle clk p else p)).
Definition Rank_RRFMsb_end : PowerFunc := Rank_RFMsb_end.

Definition Rank_PREsb : PowerFunc := fun node above cmd addr_vec clk =>
  on_rank node above (fun p =>
    let opened := filter (fun b => m_state b = st "Opened") (m_child_nodes node ≫= m_child_nodes) in
    target ← (match opened with [] => Ok 0 | _ => vget addr_vec (lvl "bank") end);
    let targets := filter (fun b => m_node_id b = target) opened in
    p ← count_cmd "PRE" (Z.of_nat (List.length targets)) p;
    Ok (if (List.length targets =? List.length opened)%nat then go_idle clk p else p)).

Definition finalize_rank (clk : Z) (p : PowerStats) : PowerStats :=
  match cur_power_state p with
  | IDLE => set_cycles IDLE (active_cycles p) (idle_cycles p + (clk - idle_start_cycle p)) (active_start_cycle p)
              (idle_start_cycle p) p
  | ACTIVE => set_cycles ACTIVE (active_cycles p + (clk - active_start_cycle p)) (idle_cycles p) (active_start_cycle p)
                (idle_start_cycle p) p
  | REFRESHING => p
  end.
End Lambdas.

(** ** [update_powers] of [node.h] *)
Section Fold.
Context {A B : Type} (f : A -> B -> res B).
Fixpoint fold_nth (l : list A) (i : nat) (b : B) : res B :=
  match l, i with
  | [], _ => Err Undef
  | x :: _, O => f x b
  | _ :: l, S i => fold_nth l i b
  end.
Fixpoint fold_each (l : list A) (b : B) : res B :=
  match l with
  | [] => Ok b
  | x :: l => b ← f x b; fold_each l b
  end.
End Fold.

Section Update.
Context (sp : Spec) (powers : FuncMatrix PowerFunc).

Fixpoint update_powers (above : list Z) (command : Z) (addr_vec : list Z) (clk : Z) (n : Node)
    (stats : list PowerStats) : res (list PowerStats) :=
  child_id ← vget addr_vec (m_level n + 1);
  stats ← (match fget powers (m_level n) command with
           | Some f => f n above command addr_vec clk stats
           | None => Ok stats
           end);
  stop ← at_scope sp command n;
  if stop : bool then Ok stats else
  let rec := update_powers (m_node_id n :: above) command addr_vec clk in
  if child_id =? -1 then fold_each rec (m_child_nodes n) stats
  else if child_id <? 0 then Err Undef
  else fold_nth rec (m_child_nodes n) (Z.to_nat child_id) stats.
End Update.

(** ** Energies

    A term of the energy of a command: its counter, the currents of the two
    supplies, the currents subtracted from them (none for refreshes), the factor
    [num_bankgroups] if it has one, and the timing. *)
Record EnergyTerm : Type := mkTerm {
  e_cmd : string;
  e_idd : string;
  e_ipp : string;
  e_minus : option (string * string);
  e_bankgroups : bool;
  e_timing : string;
}.

(** What a standard adds for its power model. *)
Record PowerSpec : Type := mkPowerSpec {
  pw_voltages : ImplDef;
  pw_currents : ImplDef;
  pw_cmds_counted : ImplDef;
  pw_voltage_presets : list (string * list spec_float);
  pw_current_presets : list (string * list spec_float);
  pw_powers : Z -> FuncMatrix PowerFunc;
  pw_terms : list EnergyTerm;
  (** The commands whose energy and cycles are kept as statistics of their own
      ([s_total_vrr_energy], [s_total_vrr_cycles], ...). *)
  pw_extra : list string;
}.

Record PowerParams : Type := mkPowerParams {
  drampower_enable : bool;
  voltage_preset : option string;
  current_preset : option string;
}.

Record PowerConfig : Type := mkPowerConfig {
  m_drampower_enable : bool;
  m_voltage_vals : list spec_float;
  m_current_vals : list spec_float;
  m_powers : FuncMatrix PowerFunc;
}.

Section Device.
Context (σ : Standard) (π : PowerSpec).

Definition load_vals (names : ImplDef) (presets : list (string * list spec_float)) (preset : option string)
    : res (list spec_float) :=
  match preset with
  | None => Ok (replicate (List.length names) (F64.of_Z (-1)))
  | Some name =>
      match preset_get presets name with
      | Some v => Ok v
      | None => Err (Exc "Unrecognized preset")
      end
  end.

Definition set_powers (p : PowerParams) (o : Organization) : res (PowerConfig * list PowerStats) :=
  if negb (drampower_enable p) then Ok (mkPowerConfig false [] [] [], [])
  else
    v ← load_vals (pw_voltages π) (pw_voltage_presets π) (voltage_preset p);
    c ← load_vals (pw_currents π) (pw_current_presets π) (current_preset p);
    nc ← vget (count o) (def_id (st_levels σ) "channel");
    nr ← vget (count o) (def_id (st_levels σ) "rank");
    Ok (mkPowerConfig true v c (pw_powers π nr),
        (fun i => new_stats i (List.length (pw_cmds_counted π))) <$> seqZ 0 (nc * nr)).

(** ** The device with its power statistics *)
Record State : Type := mkState {
  pw_dev : Dev.State;
  m_power_stats : list PowerStats;
}.

Definition init (po : OrgParams) (pt : TimingParams) (pp : PowerParams) : res (Dev.Device * PowerConfig * State) :=
  '(d, s) ← Dev.init σ po pt;
  '(c, stats) ← set_powers pp (m_organization (Dev.d_spec d));
  Ok (d, c, mkState s stats).

Definition power_step (d : Dev.Device) (c : PowerConfig) (command : Z) (addr_vec : list Z) (dev : Dev.State)
    (stats : list PowerStats) : res (list PowerStats) :=
  if negb (m_drampower_enable c) then Ok stats
  else
    Dev.on_channel σ (fun n => update_powers (Dev.d_spec d) (m_powers c) [] command addr_vec (Dev.m_clk dev) n stats)
      addr_vec dev.

Definition issue_command (d : Dev.Device) (c : PowerConfig) (command : Z) (addr_vec : list Z) (s : State) : res State :=
  t ← Dev.upd_channel σ (update_timing (Dev.d_spec d) command addr_vec (Dev.m_clk (pw_dev s))) addr_vec (pw_dev s);
  stats ← power_step d c command addr_vec t (m_power_stats s);
  t ← Dev.upd_channel σ (update_states (Dev.d_spec d) (List.length (st_levels σ)) command addr_vec (Dev.m_clk t)) addr_vec t;
  t ← Dev.check_future_action σ d command addr_vec t;
  Ok (mkState t stats).

Definition handle_future_action (d : Dev.Device) (c : PowerConfig) (command : Z) (addr_vec : list Z) (s : State) : res State :=
  match Dev.future_of σ command with
  | Some (_, end_command, _) =>
      stats ← power_step d c (Dev.cmd σ end_command) addr_vec (pw_dev s) (m_power_stats s);
      t ← Dev.upd_channel σ (update_states (Dev.d_spec d) (List.length (st_levels σ)) (Dev.cmd σ end_command) addr_vec
             (Dev.m_clk (pw_dev s))) addr_vec (pw_dev s);
      Ok (mkState t stats)
  | None => Ok s
  end.

Fixpoint future_loop (d : Dev.Device) (c : PowerConfig) (i : nat) (s : State) : res State :=
  match i with
  | O => Ok s
  | S i =>
      match Dev.m_future_actions (pw_dev s) !! i with
      | None => Err Undef
      | Some fa =>
          if fa_clk fa =? Dev.m_clk (pw_dev s) then
            s ← handle_future_action d c (fa_cmd fa) (fa_addr_vec fa) s;
            let t := pw_dev s in
            future_loop d c i
              (mkState (Dev.mkState (Dev.m_clk t) (Dev.m_channels t) (delete i (Dev.m_future_actions t))) (m_power_stats s))
          else future_loop d c i s
      end
  end.

Definition tick (d : Dev.Device) (c : PowerConfig) (s : State) : res State :=
  let t := pw_dev s in
  let t := Dev.mkState (Dev.m_clk t + 1) (Dev.m_channels t) (Dev.m_future_actions t) in
  future_loop d c (List.length (Dev.m_future_actions t)) (mkState t (m_power_stats s)).

(** ** [finalize] and [process_rank_energy] *)
Definition fval (names : ImplDef) (vals : list spec_float) (name : string) : res spec_float :=
  i ← def_of_name names name; vget vals i.

(** The energy of a supply state over a number of cycles. *)
Definition background_energy (c : PowerConfig) (idd ipp : string) (cycles : Z) (tCK_ns : spec_float) : res spec_float :=
  vdd ← fval (pw_voltages π) (m_voltage_vals c) "VDD";
  i ← fval (pw_currents π) (m_current_vals c) idd;
  vpp ← fval (pw_voltages π) (m_voltage_vals c) "VPP";
  j ← fval (pw_currents π) (m_current_vals c) ipp;
  let power := F64.add (F64.mul vdd i) (F64.mul vpp j) in
  Ok (F64.div (F64.mul (F64.mul power (F64.of_Z cycles)) tCK_ns) (F64.of_Z 1000)).

Definition supply_current (c : PowerConfig) (name : string) (minus : option string) : res spec_float :=
  x ← fval (pw_currents π) (m_current_vals c) name;
  match minus with
  | None => Ok x
  | Some m => y ← fval (pw_currents π) (m_current_vals c) m; Ok (F64.sub x y)
  end.

Definition cmd_counter (p : PowerStats) (name : string) : res Z :=
  i ← def_of_name (pw_cmds_counted π) name; vget (cmd_counters p) i.

Definition cmd_energy (d : Dev.Device) (c : PowerConfig) (p : PowerStats) (tCK_ns : spec_float) (t : EnergyTerm) : res spec_float :=
  vdd ← fval (pw_voltages π) (m_voltage_vals c) "VDD";
  i ← supply_current c (e_idd t) (fst <$> e_minus t);
  vpp ← fval (pw_voltages π) (m_voltage_vals c) "VPP";
  j ← supply_current c (e_ipp t) (snd <$> e_minus t);
  let power := F64.add (F64.mul vdd i) (F64.mul vpp j) in
  power ← (if e_bankgroups t then
             nbg ← vget (count (m_organization (Dev.d_spec d))) (def_id (st_levels σ) "bankgroup");
             Ok (F64.mul power (F64.of_Z (u64 nbg)))
           else Ok power);
  n ← cmd_counter p (e_cmd t);
  ts ← tval (st_timings σ) (Dev.d_timing_vals d) (e_timing t);
  Ok (F64.div (F64.mul (F64.mul (F64.mul power (F64.of_Z n)) (F64.of_Z ts)) tCK_ns) (F64.of_Z 1000)).

Fixpoint cmd_energies (d : Dev.Device) (c : PowerConfig) (p : PowerStats) (tCK_ns : spec_float) (l : list EnergyTerm)
    : res (list spec_float) :=
  match l with
  | [] => Ok []
  | t :: l => e ← cmd_energy d c p tCK_ns t; es ← cmd_energies d c p tCK_ns l; Ok (e :: es)
  end.

(** A sum is associated to the left. *)
Definition fsum (l : list spec_float) : spec_float :=
  match l with [] => f0 | x :: l => foldl F64.add x l end.

Definition extra_terms : list EnergyTerm := filter (fun t => e_cmd t ∈ pw_extra π) (pw_terms π).

(** [size_t] times [int]. *)
Definition term_cycles (d : Dev.Device) (p : PowerStats) (t : EnergyTerm) : res Z :=
  n ← cmd_counter p (e_cmd t);
  ts ← tval (st_timings σ) (Dev.d_timing_vals d) (e_timing t);
  Ok (u64 (n * u64 ts)).

(** The result: the statistics of the rank, and the energies and cycles of the
    commands with statistics of their own. *)
Definition process_rank_energy (d : Dev.Device) (c : PowerConfig) (clk : Z) (p : PowerStats)
    : res (PowerStats * list spec_float * list Z) :=
  let p := finalize_rank clk p in
  ps ← tval (st_timings σ) (Dev.d_timing_vals d) "tCK_ps";
  let tCK_ns := F64.div (F64.of_Z ps) (F64.of_Z 1000) in
  act ← background_energy c "IDD3N" "IPP3N" (active_cycles p) tCK_ns;
  pre ← background_energy c "IDD2N" "IPP2N" (idle_cycles p) tCK_ns;
  es ← cmd_energies d c p tCK_ns (pw_terms π);
  let bg := F64.add act pre in
  let cmd := fsum es in
  ex ← cmd_energies d c p tCK_ns extra_terms;
  cy ← mapM (term_cycles d p) extra_terms;
  Ok (set_energies act pre bg cmd (F64.add bg cmd) p, ex, cy).

(** The totals of the device. *)
Record Totals : Type := mkTotals {
  s_total_background_energy : spec_float;
  s_total_cmd_energy : spec_float;
  s_total_energy : spec_float;
  s_extra_energies : list spec_float;
  s_extra_cycles : list (list Z);
}.

Fixpoint process_ranks (d : Dev.Device) (c : PowerConfig) (clk : Z) (l : list PowerStats) (t : Totals)
    : res (list PowerStats * Totals) :=
  match l with
  | [] => Ok ([], t)
  | p :: l =>
      '(p, ex, cy) ← process_rank_energy d c clk p;
      let t := mkTotals (F64.add (s_total_background_energy t) (total_background_energy p))
                 (F64.add (s_total_cmd_energy t) (total_cmd_energy p)) (F64.add (s_total_energy t) (total_energy p))
                 (zip_with F64.add (s_extra_energies t) ex) (s_extra_cycles t ++ [cy])%list in
      '(l, t) ← process_ranks d c clk l t;
      Ok (p :: l, t)
  end.

Definition finalize (d : Dev.Device) (c : PowerConfig) (s : State) : res (State * Totals) :=
  let t := mkTotals f0 f0 f0 (replicate (List.length extra_terms) f0) [] in
  if negb (m_drampower_enable c) then Ok (s, t)
  else
    '(l, t) ← process_ranks d c (Dev.m_clk (pw_dev s)) (m_power_stats s) t;
    Ok (mkState (pw_dev s) l, t).
End Device.

(** ** The power tables of the standards *)
(** A decimal literal with one digit after the point. *)
Definition tenths (n : Z) : spec_float := F64.div (F64.of_Z n) (F64.of_Z 10).

Module DDR4Power.
Definition voltage_presets : list (string * list spec_float) := [("Default", [tenths 12; tenths 25])].

Definition current_presets : list (string * list spec_float) :=
  [("Default", F64.of_Z <$> [60; 50; 55; 145; 145; 362; 3; 3; 3; 3; 3; 48])].

Definition m_voltages : ImplDef := ["VDD"; "VPP"].

Definition m_currents : ImplDef :=
  ["IDD0"; "IDD2N"; "IDD3N"; "IDD4R"; "IDD4W"; "IDD5B"; "IPP0"; "IPP2N"; "IPP3N"; "IPP4R"; "IPP4W"; "IPP5B"].

Definition m_cmds_counted : ImplDef := ["ACT"; "PRE"; "RD"; "WR"; "REF"].

Definition powers (nr : Z) : FuncMatrix PowerFunc :=
  let levels := DDR4.levels in
  let states := DDR4.states in
  [(DDR4.lvl "bank", DDR4.cmd "ACT", Bank_ACT levels m_cmds_counted nr);
   (DDR4.lvl "bank", DDR4.cmd "PRE", Bank_PRE levels m_cmds_counted nr);
   (DDR4.lvl "bank", DDR4.cmd "RD", Bank_RD levels m_cmds_counted nr);
   (DDR4.lvl "bank", DDR4.cmd "WR", Bank_WR levels m_cmds_counted nr);
   (DDR4.lvl "rank", DDR4.cmd "ACT", Rank_ACT levels states nr);
   (DDR4.lvl "rank", DDR4.cmd "PRE", Rank_PRE levels states nr);
   (DDR4.lvl "rank", DDR4.cmd "PREA", Rank_PREA levels states m_cmds_counted nr);
   (DDR4.lvl "rank", DDR4.cmd "REFab", Rank_REFab m_cmds_counted nr);
   (DDR4.lvl "rank", DDR4.cmd "REFab_end", Rank_REFab_end nr)].

Definition energy_terms : list EnergyTerm :=
  [mkTerm "ACT" "IDD0" "IPP0" (Some ("IDD3N", "IPP3N")) false "nRAS";
   mkTerm "PRE" "IDD0" "IPP0" (Some ("IDD2N", "IPP2N")) false "nRP";
   mkTerm "RD" "IDD4R" "IPP4R" (Some ("IDD3N", "IPP3N")) false "nBL";
   mkTerm "WR" "IDD4W" "IPP4W" (Some ("IDD3N", "IPP3N")) false "nBL";
   mkTerm "REF" "IDD5B" "IPP5B" None false "nRFC"].

Definition power : PowerSpec := {|
  pw_voltages := m_voltages; pw_currents := m_currents; pw_cmds_counted := m_cmds_counted;
  pw_voltage_presets := voltage_presets; pw_current_presets := current_presets;
  pw_powers := powers; pw_terms := energy_terms; pw_extra := [];
|}.

Section Operations.
Definition set_powers := Power.set_powers DDR4.std power.
Definition init := Power.init DDR4.std power.
Definition issue_command := Power.issue_command DDR4.std.
Definition handle_future_action := Power.handle_future_action DDR4.std.
Definition tick := Power.tick DDR4.std.
Definition process_rank_energy := Power.process_rank_energy DDR4.std power.
Definition finalize := Power.finalize DDR4.std power.
End Operations.
End DDR4Power.

Module DDR4VRRPower.
Definition voltage_presets : list (string * list spec_float) := [("Default", [tenths 12; tenths 25])].

Definition current_presets : list (string * list spec_float) :=
  [("Default", F64.of_Z <$> [60; 50; 55; 145; 145; 362; 3; 3; 3; 3; 3; 48])].

Definition m_voltages : ImplDef := ["VDD"; "VPP"].

Definition m_currents : ImplDef :=
  ["IDD0"; "IDD2N"; "IDD3N"; "IDD4R"; "IDD4W"; "IDD5B"; "IPP0"; "IPP2N"; "IPP3N"; "IPP4R"; "IPP4W"; "IPP5B"].

Definition m_cmds_counted : ImplDef := ["ACT"; "PRE"; "RD"; "WR"; "REF"; "VRR"].

Definition powers (nr : Z) : FuncMatrix PowerFunc :=
  let levels := DDR4VRR.levels in
  let states := DDR4VRR.states in
  [(DDR4VRR.lvl "bank", DDR4VRR.cmd "ACT", Bank_ACT levels m_cmds_counted nr);
   (DDR4VRR.lvl "bank", DDR4VRR.cmd "PRE", Bank_PRE levels m_cmds_counted nr);
   (DDR4VRR.lvl "bank", DDR4VRR.cmd "RD", Bank_RD levels m_cmds_counted nr);
   (DDR4VRR.lvl "bank", DDR4VRR.cmd "WR", Bank_WR levels m_cmds_counted nr);
   (DDR4VRR.lvl "bank", DDR4VRR.cmd "VRR", Bank_VRR levels m_cmds_counted nr);
   (DDR4VRR.lvl "rank", DDR4VRR.cmd "ACT", Rank_ACT levels states nr);
   (DDR4VRR.lvl "rank", DDR4VRR.cmd "PRE", Rank_PRE levels states nr);
   (DDR4VRR.lvl "rank", DDR4VRR.cmd "PREA", Rank_PREA levels states m_cmds_counted nr);
   (DDR4VRR.lvl "rank", DDR4VRR.cmd "REFab", Rank_REFab m_cmds_counted nr);
   (DDR4VRR.lvl "rank", DDR4VRR.cmd "REFab_end", Rank_REFab_end nr);
   (DDR4VRR.lvl "rank", DDR4VRR.cmd "VRR", Rank_VRR levels states nr);
   (DDR4VRR.lvl "rank", DDR4VRR.cmd "VRR_end", Rank_VRR_end levels states nr)].

Definition energy_terms : list EnergyTerm :=
  [mkTerm "ACT" "IDD0" "IPP0" (Some ("IDD3N", "IPP3N")) false "nRAS";
   mkTerm "PRE" "IDD0" "IPP0" (Some ("IDD2N", "IPP2N")) false "nRP";
   mkTerm "RD" "IDD4R" "IPP4R" (Some ("IDD3N", "IPP3N")) false "nBL";
   mkTerm "WR" "IDD4W" "IPP4W" (Some ("IDD3N", "IPP3N")) false "nBL";
   mkTerm "REF" "IDD5B" "IPP5B" None false "nRFC";
   mkTerm "VRR" "IDD0" "IPP0" (Some ("IDD3N", "IPP3N")) false "nVRR"].

Definition power : PowerSpec := {|
  pw_voltages := m_voltages; pw_currents := m_currents; pw_cmds_counted := m_cmds_counted;
  pw_voltage_presets := voltage_presets; pw_current_presets := current_presets;
  pw_powers := powers; pw_terms := energy_terms; pw_extra := ["VRR"];
|}.

Section Operations.
Context (r : Z).
Definition set_powers := Power.set_powers (DDR4VRR.std r) power.
Definition init := Power.init (DDR4VRR.std r) power.
Definition issue_command := Power.issue_command (DDR4VRR.std r).
Definition handle_future_action := Power.handle_future_action (DDR4VRR.std r).
Definition tick := Power.tick (DDR4VRR.std r).
Definition process_rank_energy := Power.process_rank_energy (DDR4VRR.std r) power.
Definition finalize := Power.finalize (DDR4VRR.std r) power.
End Operations.
End DDR4VRRPower.

Module DDR4RVRRPower.
Definition voltage_presets : list (string * list spec_float) := [("Default", [tenths 12; tenths 25])].

Definition current_presets : list (string * list spec_float) :=
  [("Default", F64.of_Z <$> [60; 50; 55; 145; 145; 362; 3; 3; 3; 3; 3; 48])].

Definition m_voltages : ImplDef := ["VDD"; "VPP"].

Definition m_currents : ImplDef :=
  ["IDD0"; "IDD2N"; "IDD3N"; "IDD4R"; "IDD4W"; "IDD5B"; "IPP0"; "IPP2N"; "IPP3N"; "IPP4R"; "IPP4W"; "IPP5B"].

Definition m_cmds_counted : ImplDef := ["ACT"; "PRE"; "RD"; "WR"; "REF"; "VRR"; "RVRR"].

Definition powers (nr : Z) : FuncMatrix PowerFunc :=
  let levels := DDR4RVRR.levels in
  let states := DDR4RVRR.states in
  [(DDR4RVRR.lvl "bank", DDR4RVRR.cmd "ACT", Bank_ACT levels m_cmds_counted nr);
   (DDR4RVRR.lvl "bank", DDR4RVRR.cmd "PRE", Bank_PRE levels m_cmds_counted nr);
   (DDR4RVRR.lvl "bank", DDR4RVRR.cmd "RD", Bank_RD levels m_cmds_counted nr);
   (DDR4RVRR.lvl "bank", DDR4RVRR.cmd "WR", Bank_WR levels m_cmds_counted nr);
   (DDR4RVRR.lvl "bank", DDR4RVRR.cmd "VRR", Bank_VRR levels m_cmds_counted nr);
   (DDR4RVRR.lvl "bank", DDR4RVRR.cmd "RVRR", Bank_RVRR levels m_cmds_counted nr);
   (DDR4RVRR.lvl "rank", DDR4RVRR.cmd "ACT", Rank_ACT levels states nr);
   (DDR4RVRR.lvl "rank", DDR4RVRR.cmd "PRE", Rank_PRE levels states nr);
   (DDR4RVRR.lvl "rank", DDR4RVRR.cmd "PREA", Rank_PREA levels states m_cmds_counted nr);
   (DDR4RVRR.lvl "rank", DDR4RVRR.cmd "REFab", Rank_REFab m_cmds_counted nr);
   (DDR4RVRR.lvl "rank", DDR4RVRR.cmd "REFab_end", Rank_REFab_end nr);
   (DDR4RVRR.lvl "rank", DDR4RVRR.cmd "VRR", Rank_VRR levels states nr);
   (DDR4RVRR.lvl "rank", DDR4RVRR.cmd "VRR_end", Rank_VRR_end levels states nr);
   (DDR4RVRR.lvl "rank", DDR4RVRR.cmd "RVRR", Rank_VRR levels states nr);
   (DDR4RVRR.lvl "rank", DDR4RVRR.cmd "RVRR_end", Rank_VRR_end levels states nr)].

Definition energy_terms : list EnergyTerm :=
  [mkTerm "ACT" "IDD0" "IPP0" (Some ("IDD3N", "IPP3N")) false "nRAS";
   mkTerm "PRE" "IDD0" "IPP0" (Some ("IDD2N", "IPP2N")) false "nRP";
   mkTerm "RD" "IDD4R" "IPP4R" (Some ("IDD3N", "IPP3N")) false "nBL";
   mkTerm "WR" "IDD4W" "IPP4W" (Some ("IDD3N", "IPP3N")) false "nBL";
   mkTerm "REF" "IDD5B" "IPP5B" None false "nRFC";
   mkTerm "VRR" "IDD0" "IPP0" (Some ("IDD3N", "IPP3N")) false "nVRR";
   mkTerm "RVRR" "IDD0" "IPP0" (Some ("IDD3N", "IPP3N")) false "nRVRR"].

Definition power : PowerSpec := {|
  pw_voltages := m_voltages; pw_currents := m_currents; pw_cmds_counted := m_cmds_counted;
  pw_voltage_presets := voltage_presets; pw_current_presets := current_presets;
  pw_powers := powers; pw_terms := energy_terms; pw_extra := ["VRR"; "RVRR"];
|}.

Section Operations.
Context (r : Z) (fv fr : spec_float).
Definition set_powers := Power.set_powers (DDR4RVRR.std r fv fr) power.
Definition init := Power.init (DDR4RVRR.std r fv fr) power.
Definition issue_command := Power.issue_command (DDR4RVRR.std r fv fr).
Definition handle_future_action := Power.handle_future_action (DDR4RVRR.std r fv fr).
Definition tick := Power.tick (DDR4RVRR.std r fv fr).
Definition process_rank_energy := Power.process_rank_energy (DDR4RVRR.std r fv fr) power.
Definition finalize := Power.finalize (DDR4RVRR.std r fv fr) power.
End Operations.
End DDR4RVRRPower.

Module DDR5Power.
Definition voltage_presets : list (string * list spec_float) := [("Default", [tenths 11; tenths 18])].

Definition current_presets : list (string * list spec_float) :=
  [("Default", F64.of_Z <$> [60; 50; 55; 145; 145; 362; 3; 3; 3; 3; 3; 48])].

Definition m_voltages : ImplDef := ["VDD"; "VPP"].

Definition m_currents : ImplDef :=
  ["IDD0"; "IDD2N"; "IDD3N"; "IDD4R"; "IDD4W"; "IDD5B"; "IPP0"; "IPP2N"; "IPP3N"; "IPP4R"; "IPP4W"; "IPP5B"].

Definition m_cmds_counted : ImplDef := ["ACT"; "PRE"; "RD"; "WR"; "REF"; "RFM"].

Definition powers (nr : Z) : FuncMatrix PowerFunc :=
  let levels := DDR5.levels in
  let states := DDR5.states in
  [(DDR5.lvl "bank", DDR5.cmd "ACT", Bank_ACT levels m_cmds_counted nr);
   (DDR5.lvl "bank", DDR5.cmd "PRE", Bank_PRE levels m_cmds_counted nr);
   (DDR5.lvl "bank", DDR5.cmd "RD", Bank_RD levels m_cmds_counted nr);
   (DDR5.lvl "bank", DDR5.cmd "WR", Bank_WR levels m_cmds_counted nr);
   (DDR5.lvl "rank", DDR5.cmd "RFMsb", Rank_RFMsb levels states m_cmds_counted nr);
   (DDR5.lvl "rank", DDR5.cmd "RFMsb_end", Rank_RFMsb_end levels states nr);
   (DDR5.lvl "rank", DDR5.cmd "ACT", Rank_ACT levels states nr);
   (DDR5.lvl "rank", DDR5.cmd "PRE", Rank_PRE levels states nr);
   (DDR5.lvl "rank", DDR5.cmd "PREA", Rank_PREA levels states m_cmds_counted nr);
   (DDR5.lvl "rank", DDR5.cmd "REFab", Rank_REFab m_cmds_counted nr);
   (DDR5.lvl "rank", DDR5.cmd "REFab_end", Rank_REFab_end nr);
   (DDR5.lvl "rank", DDR5.cmd "PREsb", Rank_PREsb levels states m_cmds_counted nr)].

Definition energy_terms : list EnergyTerm :=
  [mkTerm "ACT" "IDD0" "IPP0" (Some ("IDD3N", "IPP3N")) false "nRAS";
   mkTerm "PRE" "IDD0" "IPP0" (Some ("IDD2N", "IPP2N")) false "nRP";
   mkTerm "RD" "IDD4R" "IPP4R" (Some ("IDD3N", "IPP3N")) false "nBL";
   mkTerm "WR" "IDD4W" "IPP4W" (Some ("IDD3N", "IPP3N")) false "nBL";
   mkTerm "REF" "IDD5B" "IPP5B" None false "nRFC1";
   mkTerm "RFM" "IDD0" "IPP0" (Some ("IDD3N", "IPP3N")) true "nRFMsb"].

Definition power : PowerSpec := {|
  pw_voltages := m_voltages; pw_currents := m_currents; pw_cmds_counted := m_cmds_counted;
  pw_voltage_presets := voltage_presets; pw_current_presets := current_presets;
  pw_powers := powers; pw_terms := energy_terms; pw_extra := ["RFM"];
|}.

Section Operations.
Context (r brc : Z).
Definition set_powers := Power.set_powers (DDR5.std r brc) power.
Definition init := Power.init (DDR5.std r brc) power.
Definition issue_command := Power.issue_command (DDR5.std r brc).
Definition handle_future_action := Power.handle_future_action (DDR5.std r brc).
Definition tick := Power.tick (DDR5.std r brc).
Definition process_rank_energy := Power.process_rank_energy (DDR5.std r brc) power.
Definition finalize := Power.finalize (DDR5.std r brc) power.
End Operations.
End DDR5Power.

Module DDR5VRRPower.
Definition voltage_presets : list (string * list spec_float) := [("Default", [tenths 11; tenths 18])].

Definition current_presets : list (string * list spec_float) :=
  [("Default", F64.of_Z <$> [60; 50; 55; 145; 145; 362; 3; 3; 3; 3; 3; 48])].

Definition m_voltages : ImplDef := ["VDD"; "VPP"].

Definition m_currents : ImplDef :=
  ["IDD0"; "IDD2N"; "IDD3N"; "IDD4R"; "IDD4W"; "IDD5B"; "IPP0"; "IPP2N"; "IPP3N"; "IPP4R"; "IPP4W"; "IPP5B"].

Definition m_cmds_counted : ImplDef := ["ACT"; "PRE"; "RD"; "WR"; "REF"; "RFM"; "VRR"].

Definition powers (nr : Z) : FuncMatrix PowerFunc :=
  let levels := DDR5VRR.levels in
  let states := DDR5VRR.states in
  [(DDR5VRR.lvl "bank", DDR5VRR.cmd "ACT", Bank_ACT levels m_cmds_counted nr);
   (DDR5VRR.lvl "bank", DDR5VRR.cmd "PRE", Bank_PRE levels m_cmds_counted nr);
   (DDR5VRR.lvl "bank", DDR5VRR.cmd "RD", Bank_RD levels m_cmds_counted nr);
   (DDR5VRR.lvl "bank", DDR5VRR.cmd "WR", Bank_WR levels m_cmds_counted nr);
   (DDR5VRR.lvl "bank", DDR5VRR.cmd "VRR", Bank_VRR levels m_cmds_counted nr);
   (DDR5VRR.lvl "rank", DDR5VRR.cmd "RFMsb", Rank_RFMsb levels states m_cmds_counted nr);
   (DDR5VRR.lvl "rank", DDR5VRR.cmd "RFMsb_end", Rank_RFMsb_end levels states nr);
   (DDR5VRR.lvl "rank", DDR5VRR.cmd "ACT", Rank_ACT levels states nr);
   (DDR5VRR.lvl "rank", DDR5VRR.cmd "PRE", Rank_PRE levels states nr);
   (DDR5VRR.lvl "rank", DDR5VRR.cmd "PREA", Rank_PREA levels states m_cmds_counted nr);
   (DDR5VRR.lvl "rank", DDR5VRR.cmd "REFab", Rank_REFab m_cmds_counted nr);
   (DDR5VRR.lvl "rank", DDR5VRR.cmd "REFab_end", Rank_REFab_end nr);
   (DDR5VRR.lvl "rank", DDR5VRR.cmd "VRR", Rank_VRR levels states nr);
   (DDR5VRR.lvl "rank", DDR5VRR.cmd "VRR_end", Rank_VRR_end levels states nr);
   (DDR5VRR.lvl "rank", DDR5VRR.cmd "PREsb", Rank_PREsb levels states m_cmds_counted nr)].

Definition energy_terms : list EnergyTerm :=
  [mkTerm "ACT" "IDD0" "IPP0" (Some ("IDD3N", "IPP3N")) false "nRAS";
   mkTerm "PRE" "IDD0" "IPP0" (Some ("IDD2N", "IPP2N")) false "nRP";
   mkTerm "RD" "IDD4R" "IPP4R" (Some ("IDD3N", "IPP3N")) false "nBL";
   mkTerm "WR" "IDD4W" "IPP4W" (Some ("IDD3N", "IPP3N")) false "nBL";
   mkTerm "REF" "IDD5B" "IPP5B" None false "nRFC1";
   mkTerm "RFM" "IDD0" "IPP0" (Some ("IDD3N", "IPP3N")) true "nRFMsb";
   mkTerm "VRR" "IDD0" "IPP0" (Some ("IDD3N", "IPP3N")) false "nVRR"].

Definition power : PowerSpec := {|
  pw_voltages := m_voltages; pw_currents := m_currents; pw_cmds_counted := m_cmds_counted;
  pw_voltage_presets := voltage_presets; pw_current_presets := current_presets;
  pw_powers := powers; pw_terms := energy_terms; pw_extra := ["RFM"; "VRR"];
|}.

Section Operations.
Context (r brc tras : Z) (prac : bool).
Definition set_powers := Power.set_powers (DDR5VRR.std r brc tras prac) power.
Definition init := Power.init (DDR5VRR.std r brc tras prac) power.
Definition issue_command := Power.issue_command (DDR5VRR.std r brc tras prac).
Definition handle_future_action := Power.handle_future_action (DDR5VRR.std r brc tras prac).
Definition tick := Power.tick (DDR5VRR.std r brc tras prac).
Definition process_rank_energy := Power.process_rank_energy (DDR5VRR.std r brc tras prac) power.
Definition finalize := Power.finalize (DDR5VRR.std r brc tras prac) power.
End Operations.
End DDR5VRRPower.

Module DDR5RVRRPower.
Definition voltage_presets : list (string * list spec_float) := [("Default", [tenths 11; tenths 18])].

Definition current_presets : list (string * list spec_float) :=
  [("Default", F64.of_Z <$> [60; 50; 55; 145; 145; 362; 3; 3; 3; 3; 3; 48])].

Definition m_voltages : ImplDef := ["VDD"; "VPP"].

Definition m_currents : ImplDef :=
  ["IDD0"; "IDD2N"; "IDD3N"; "IDD4R"; "IDD4W"; "IDD5B"; "IPP0"; "IPP2N"; "IPP3N"; "IPP4R"; "IPP4W"; "IPP5B"].

Definition m_cmds_counted : ImplDef := ["ACT"; "PRE"; "RD"; "WR"; "REF"; "RFM"; "VRR"; "RRFM"; "RVRR"].

Definition powers (nr : Z) : FuncMatrix PowerFunc :=
  let levels := DDR5RVRR.levels in
  let states := DDR5RVRR.states in
  [(DDR5RVRR.lvl "bank", DDR5RVRR.cmd "ACT", Bank_ACT levels m_cmds_counted nr);
   (DDR5RVRR.lvl "bank", DDR5RVRR.cmd "PRE", Bank_PRE levels m_cmds_counted nr);
   (DDR5RVRR.lvl "bank", DDR5RVRR.cmd "RD", Bank_RD levels m_cmds_counted nr);
   (DDR5RVRR.lvl "bank", DDR5RVRR.cmd "WR", Bank_WR levels m_cmds_counted nr);
   (DDR5RVRR.lvl "bank", DDR5RVRR.cmd "VRR", Bank_VRR levels m_cmds_counted nr);
   (DDR5RVRR.lvl "bank", DDR5RVRR.cmd "RVRR", Bank_RVRR levels m_cmds_counted nr);
   (DDR5RVRR.lvl "rank", DDR5RVRR.cmd "RFMsb", Rank_RFMsb levels states m_cmds_counted nr);
   (DDR5RVRR.lvl "rank", DDR5RVRR.cmd "RFMsb_end", Rank_RFMsb_end levels states nr);
   (DDR5RVRR.lvl "rank", DDR5RVRR.cmd "RRFMsb", Rank_RRFMsb levels states m_cmds_counted nr);
   (DDR5RVRR.lvl "rank", DDR5RVRR.cmd "RRFMsb_end", Rank_RRFMsb_end levels states nr);
   (DDR5RVRR.lvl "rank", DDR5RVRR.cmd "ACT", Rank_ACT levels states nr);
   (DDR5RVRR.lvl "rank", DDR5RVRR.cmd "PRE", Rank_PRE levels states nr);
   (DDR5RVRR.lvl "rank", DDR5RVRR.cmd "PREA", Rank_PREA levels states m_cmds_counted nr);
   (DDR5RVRR.lvl "rank", DDR5RVRR.cmd "REFab", Rank_REFab m_cmds_counted nr);
   (DDR5RVRR.lvl "rank", DDR5RVRR.cmd "REFab_end", Rank_REFab_end nr);
   (DDR5RVRR.lvl "rank", DDR5RVRR.cmd "VRR", Rank_VRR levels states nr);
   (DDR5RVRR.lvl "rank", DDR5RVRR.cmd "VRR_end", Rank_VRR_end levels states nr);
   (DDR5RVRR.lvl "rank", DDR5RVRR.cmd "RVRR", Rank_VRR levels states nr);
   (DDR5RVRR.lvl "rank", DDR5RVRR.cmd "RVRR_end", Rank_VRR_end levels states nr);
   (DDR5RVRR.lvl "rank", DDR5RVRR.cmd "PREsb", Rank_PREsb levels states m_cmds_counted nr)].

Definition energy_terms : list EnergyTerm :=
  [mkTerm "ACT" "IDD0" "IPP0" (Some ("IDD3N", "IPP3N")) false "nRAS";
   mkTerm "PRE" "IDD0" "IPP0" (Some ("IDD2N", "IPP2N")) false "nRP";
   mkTerm "RD" "IDD4R" "IPP4R" (Some ("IDD3N", "IPP3N")) false "nBL";
   mkTerm "WR" "IDD4W" "IPP4W" (Some ("IDD3N", "IPP3N")) false "nBL";
   mkTerm "REF" "IDD5B" "IPP5B" None false "nRFC1";
   mkTerm "RFM" "IDD0" "IPP0" (Some ("IDD3N", "IPP3N")) true "nRFMsb";
   mkTerm "RRFM" "IDD0" "IPP0" (Some ("IDD3N", "IPP3N")) true "nRRFMsb";
   mkTerm "VRR" "IDD0" "IPP0" (Some ("IDD3N", "IPP3N")) false "nVRR";
   mkTerm "RVRR" "IDD0" "IPP0" (Some ("IDD3N", "IPP3N")) false "nRVRR"].

Definition power : PowerSpec := {|
  pw_voltages := m_voltages; pw_currents := m_currents; pw_cmds_counted := m_cmds_counted;
  pw_voltage_presets := voltage_presets; pw_current_presets := current_presets;
  pw_powers := powers; pw_terms := energy_terms; pw_extra := ["RFM"; "RRFM"; "VRR"; "RVRR"];
|}.

Section Operations.
Context (r brc : Z) (fv fr : spec_float).
Definition set_powers := Power.set_powers (DDR5RVRR.std r brc fv fr) power.
Definition init := Power.init (DDR5RVRR.std r brc fv fr) power.
Definition issue_command := Power.issue_command (DDR5RVRR.std r brc fv fr).
Definition handle_future_action := Power.handle_future_action (DDR5RVRR.std r brc fv fr).
Definition tick := Power.tick (DDR5RVRR.std r brc fv fr).
Definition process_rank_energy := Power.process_rank_energy (DDR5RVRR.std r brc fv fr) power.
Definition finalize := Power.finalize (DDR5RVRR.std r brc fv fr) power.
End Operations.
End DDR5RVRRPower.
