(* ===== verification/StandardsFacts.v ===== *)
(** * Correctness of the other DRAM standards

    The device guarantees of [DeviceFacts] hold for every standard of
    [dram/impl] modelled here; which of them enforce their whole constraint
    table, and which of their presets initialise. *)
From Stdlib Require Import String.
From S2P Require Import Prelude CxxFloat Utils DramSpec DramNode DramLambdas DramTiming DramSpecFacts.
From S2P Require Import DramConfig Device DeviceFacts.
From S2P Require Import DDR3 DDR4 DDR4VRR DDR4RVRR DDR5 DDR5VRR DDR5RVRR HBM LPDDR5 GDDR6.
Local Open Scope string_scope.
Local Open Scope Z_scope.

Lemma frame_Bank_ACT1 : frame_action LPDDR5.Action_Bank_ACT1.
Proof. intros n c t clk n' H. injection H as <-. by destruct n. Qed.
#[export] Hint Resolve frame_Bank_ACT1 : mem.

(** ** Every standard meets the conditions of [DeviceFacts] *)
Section Ok.
Context (r brc tras : Z) (prac : bool) (fv fr : spec_float).

Lemma ddr3_ok : std_ok DDR3.std.
Proof. solve_std_ok. Qed.
Lemma ddr4_std_ok : std_ok DDR4.std.
Proof. solve_std_ok. Qed.
Lemma ddr4vrr_ok : std_ok (DDR4VRR.std r).
Proof. solve_std_ok. Qed.
Lemma ddr4rvrr_ok : std_ok (DDR4RVRR.std r fv fr).
Proof. solve_std_ok. Qed.
Lemma ddr5_ok : std_ok (DDR5.std r brc).
Proof. solve_std_ok. Qed.
Lemma ddr5vrr_ok : std_ok (DDR5VRR.std r brc tras prac).
Proof. solve_std_ok. Qed.
Lemma ddr5rvrr_ok : std_ok (DDR5RVRR.std r brc fv fr).
Proof. solve_std_ok. Qed.
Lemma hbm_ok : std_ok HBM.std.
Proof. solve_std_ok. Qed.
Lemma hbm2_ok : std_ok HBM2.std.
Proof. solve_std_ok. Qed.
Lemma hbm3_ok : std_ok HBM3.std.
Proof. solve_std_ok. Qed.
Lemma lpddr5_ok : std_ok LPDDR5.std.
Proof. solve_std_ok. Qed.
Lemma gddr6_ok : std_ok GDDR6.std.
Proof. solve_std_ok. Qed.

(** The standards that enforce their whole table. *)
Definition enforcing : list Standard :=
  [DDR3.std; DDR4.std; DDR4VRR.std r; DDR4RVRR.std r fv fr; DDR5.std r brc;
   DDR5VRR.std r brc tras prac; DDR5RVRR.std r brc fv fr; HBM.std; LPDDR5.std;
   GDDR6.std].
End Ok.
#[export] Hint Resolve ddr3_ok ddr4_std_ok ddr4vrr_ok ddr4rvrr_ok ddr5_ok ddr5vrr_ok ddr5rvrr_ok
  hbm_ok hbm2_ok hbm3_ok lpddr5_ok gddr6_ok : mem.

(** ** Scopes and constraint levels

    [check_ready] descends from the channel to the scope of the command.  A
    constraint is looked at only if its level is not below the scope of the
    command it delays. *)
Definition constraint_scoped (σ : Standard) (scopes : list Z) (i : TimingConsInitializer) : bool :=
  match def_of_name (st_levels σ) (ti_level i) with
  | Ok lv => forallb (fun f => match def_of_name (st_commands σ) f ≫= vget scopes with
                               | Ok scope => lv <=? scope
                               | Err _ => false
                               end) (ti_following i)
  | Err _ => false
  end.

Definition well_scoped (σ : Standard) : Prop :=
  exists scopes, st_scopes σ = Ok scopes /\
    forall V, forallb (constraint_scoped σ scopes) (st_initializers σ V) = true.

(** All constraints of the table hold on every node of their level that the
    command addresses. *)
Definition full_table_respected (σ : Standard) (d : Dev.Device) (s0 : Dev.State) (H : list Issue) : Prop :=
  forall H1 e H2 ch p i pre post pc,
    H = (H1 ++ e :: H2)%list -> is_addr e !! 0%nat = Some ch -> has_node s0 ch p ->
    addressed (is_addr e) 1 p = true ->
    i ∈ st_initializers σ (V σ d) -> def_of_name (st_levels σ) (ti_level i) = Ok (Z.of_nat (List.length p)) ->
    pre ∈ ti_preceding i -> def_of_name (st_commands σ) pre = Ok pc ->
    post ∈ ti_following i -> def_of_name (st_commands σ) post = Ok (is_cmd e) ->
    respects (mkEntry (is_cmd e) (ti_latency i) (ti_window i) (ti_is_sibling i)) pc
      (hist_at 1 p (chan_hist ch H2)) (is_clk e).

Lemma well_scoped_enforces σ po pt d s0 s H :
  std_ok σ -> well_scoped σ -> Dev.init σ po pt = Ok (d, s0) -> reach σ true d s0 s H ->
  full_table_respected σ d s0 H.
Proof.
  intros Hσ (scopes & Hs & Hall) Hi Hr H1 e H2 ch p i pre post pc Heq Hch Hn Had Hin Hlv Hpre Hpc Hpost Hfc.
  pose proof (dok_scopes _ _ (init_device_ok _ _ _ _ _ Hi)) as Hd. rewrite Hs in Hd. injection Hd as Hd.
  specialize (Hall (V σ d)). rewrite forallb_forall in Hall.
  apply list_elem_of_In, Hall in Hin as Hc. unfold constraint_scoped in Hc. rewrite Hlv, forallb_forall in Hc.
  apply list_elem_of_In, Hc in Hpost as Hf. rewrite Hfc in Hf. cbn in Hf.
  destruct (vget scopes (is_cmd e)) as [scope|] eqn:Esc; [|done]. apply Z.leb_le in Hf.
  apply (ready_respects σ Hσ po pt d s0 s H Hi Hr H1 e H2 ch p i pre post pc scope); try done.
  - by rewrite <- Hd.
  - by apply list_elem_of_In.
  - by apply list_elem_of_In.
Qed.

Lemma enforcing_ok r brc tras prac fv fr σ : σ ∈ enforcing r brc tras prac fv fr -> std_ok σ.
Proof.
  unfold enforcing. intros Hin. repeat (apply elem_of_cons in Hin as [->|Hin]; [auto with mem|]).
  by apply not_elem_of_nil in Hin.
Qed.

Lemma enforcing_scoped r brc tras prac fv fr σ : σ ∈ enforcing r brc tras prac fv fr -> well_scoped σ.
Proof.
  unfold enforcing. intros Hin.
  repeat (apply elem_of_cons in Hin as [->|Hin]; [eexists; split; [reflexivity|intros; reflexivity]|]).
  by apply not_elem_of_nil in Hin.
Qed.

(** Property C4.  For DDR3, DDR4, DDR5 and their victim-row-refresh variants, HBM,
    GDDR6 and the tree of LPDDR5, with any parameters: in every run whose commands were issued only when
    [check_ready] accepted them, every constraint of the standard's timing table
    (every level, window and sibling rule) holds for every command of the history
    on every node of the constraint's level that the command addresses. *)
Theorem standards_enforce_their_tables r brc tras prac fv fr σ po pt d s0 s H :
  σ ∈ enforcing r brc tras prac fv fr -> Dev.init σ po pt = Ok (d, s0) -> reach σ true d s0 s H ->
  full_table_respected σ d s0 H.
Proof.
  intros Hin. apply well_scoped_enforces; [by eapply enforcing_ok|by eapply enforcing_scoped].
Qed.


(** ** The standards that the device class [Dev] simulates

    All but LPDDR5, which has a device of its own. *)
Definition simulated (r brc tras : Z) (prac : bool) (fv fr : spec_float) : list Standard :=
  [DDR3.std; DDR4.std; DDR4VRR.std r; DDR4RVRR.std r fv fr; DDR5.std r brc;
   DDR5VRR.std r brc tras prac; DDR5RVRR.std r brc fv fr; HBM.std; GDDR6.std; HBM2.std; HBM3.std].

Lemma simulated_ok r brc tras prac fv fr σ : σ ∈ simulated r brc tras prac fv fr -> std_ok σ.
Proof.
  unfold simulated. intros Hin. repeat (apply elem_of_cons in Hin as [->|Hin]; [auto with mem|]).
  by apply not_elem_of_nil in Hin.
Qed.

Lemma simulated_enforcing r brc tras prac fv fr σ :
  σ ∈ simulated r brc tras prac fv fr -> σ <> HBM2.std -> σ <> HBM3.std -> σ ∈ enforcing r brc tras prac fv fr.
Proof.
  unfold simulated, enforcing. rewrite !elem_of_cons. intros Hin H2 H3. clear -Hin H2 H3. tauto.
Qed.

(** What a run of a simulated standard guarantees: the constraints whose level is
    not below the scope of the delayed command, and, but for HBM2 and HBM3, all. *)
Lemma simulated_enforces r brc tras prac fv fr σ po pt d s0 s H :
  σ ∈ simulated r brc tras prac fv fr -> Dev.init σ po pt = Ok (d, s0) -> reach σ true d s0 s H ->
  table_respected σ d s0 H /\ (σ <> HBM2.std -> σ <> HBM3.std -> full_table_respected σ d s0 H).
Proof.
  intros Hin Hi Hr. split; [eapply ready_respects; [by eapply simulated_ok|done|done]|].
  intros H2 H3. pose proof (simulated_enforcing _ _ _ _ _ _ _ Hin H2 H3) as He.
  eapply well_scoped_enforces; [by eapply enforcing_ok|by eapply enforcing_scoped|done|done].
Qed.

Lemma ddr4_simulated r brc tras prac fv fr : DDR4.std ∈ simulated r brc tras prac fv fr.
Proof. apply list_elem_of_further, list_elem_of_here. Qed.

Lemma ddr4_not_hbm : DDR4.std <> HBM2.std /\ DDR4.std <> HBM3.std.
Proof. split; intros E; apply (f_equal (fun σ => nth 1 (st_levels σ) EmptyString)) in E; discriminate E. Qed.

(** ** Example devices *)
Definition no_device : Dev.Device * Dev.State :=
  (Dev.mkDevice (mkSpec [] [] [] [] [] (mkOrganization 0 0 []) [] [] [] [] []) [] 0 0, Dev.mkState 0 [] []).

Definition example (σ : Standard) (org timing : string) : Dev.Device * Dev.State :=
  from_res no_device (Dev.init σ (preset_org org) (preset_timing timing)).

Lemma example_init σ org timing :
  ok_b (Dev.init σ (preset_org org) (preset_timing timing)) = true ->
  Dev.init σ (preset_org org) (preset_timing timing) =
    Ok ((example σ org timing).1, (example σ org timing).2).
Proof. intros H. rewrite <- surjective_pairing. by apply from_res_Ok. Qed.

(** A row of DDR5 opened and, once [check_ready] accepts it, read. *)
Definition ddr5_demo : Dev.Device * Dev.State := example (DDR5.std 2 2) "DDR5_16Gb_x8" "DDR5_3200AN".
Definition ddr5_addr : list Z := [0; 0; 3; 1; 7; 0].
Definition ddr5_script : list Op :=
  (Issue_to (DDR5.cmd "ACT") ddr5_addr :: replicate 24 Tick ++ [Issue_to (DDR5.cmd "RD") ddr5_addr])%list.

Lemma ddr5_script_hist :
  hist_of (exec (DDR5.std 2 2) ddr5_demo.1 ddr5_script (ddr5_demo.2, [])) =
    Some [mkIssue (DDR5.cmd "RD") ddr5_addr 24; mkIssue (DDR5.cmd "ACT") ddr5_addr 0].
Proof. vm_compute. reflexivity. Qed.

Lemma standards_enforce_their_tables_witness :
  V (DDR5.std 2 2) ddr5_demo.1 "nRCD" = 24 /\
  exists s, reach (DDR5.std 2 2) true ddr5_demo.1 ddr5_demo.2 s
              [mkIssue (DDR5.cmd "RD") ddr5_addr 24; mkIssue (DDR5.cmd "ACT") ddr5_addr 0] /\
    full_table_respected (DDR5.std 2 2) ddr5_demo.1 ddr5_demo.2
      [mkIssue (DDR5.cmd "RD") ddr5_addr 24; mkIssue (DDR5.cmd "ACT") ddr5_addr 0].
Proof.
  split; [vm_compute; reflexivity|]. destruct (hist_of_Ok _ _ ddr5_script_hist) as [s Hs].
  pose proof (exec_reach0 _ _ _ _ _ _ Hs) as Hr. exists s. split; [exact Hr|].
  refine (standards_enforce_their_tables 2 2 (-1) false (F32.of_Z 1) (F32.of_Z 1) (DDR5.std 2 2)
    (preset_org "DDR5_16Gb_x8") (preset_timing "DDR5_3200AN") _ _ s _ _ _ Hr).
  - do 4 apply list_elem_of_further. apply list_elem_of_here.
  - apply example_init. vm_compute. reflexivity.
Defined.

(** ** HBM2 and HBM3 *)

(** An ACT and, two cycles later, a PREA of the whole channel. *)
Definition hbm2_script : list Op :=
  [Issue_to (HBM2.cmd "ACT") [0; 0; 0; 0; 7; 0]; Tick; Tick;
   Issue_to (HBM2.cmd "PREA") [0; -1; -1; -1; -1; -1]].
Definition hbm2_demo : Dev.Device * Dev.State := example HBM2.std "HBM2_4Gb" "HBM2_2Gbps".
Definition hbm2_hist : list Issue :=
  [mkIssue (HBM2.cmd "PREA") [0; -1; -1; -1; -1; -1] 2; mkIssue (HBM2.cmd "ACT") [0; 0; 0; 0; 7; 0] 0].

Lemma hbm2_script_hist :
  hist_of (exec HBM2.std hbm2_demo.1 hbm2_script (hbm2_demo.2, [])) = Some hbm2_hist.
Proof. vm_compute. reflexivity. Qed.

(** HBM2 does not enforce its table: the constraints that delay PREA
    and REFab are registered at the level of the pseudo-channel, below the
    channel, which is the scope of these commands, so [check_ready] never reads
    them.  A run whose commands were all reported ready precharges the channel
    two cycles after an activation, although the table asks for nRAS = 17. *)
Theorem hbm2_ignores_pseudochannel_constraints :
  exists d s0 s H,
    Dev.init HBM2.std (preset_org "HBM2_4Gb") (preset_timing "HBM2_2Gbps") = Ok (d, s0) /\
    reach HBM2.std true d s0 s H /\ V HBM2.std d "nRAS" = 17 /\
    issued (HBM2.cmd "ACT") 0 [0] H = [0] /\ issued (HBM2.cmd "PREA") 0 [0] H = [2] /\
    ~ full_table_respected HBM2.std d s0 H.
Proof.
  destruct (hist_of_Ok _ _ hbm2_script_hist) as [s Hs].
  exists hbm2_demo.1, hbm2_demo.2, s, hbm2_hist.
  assert (V HBM2.std hbm2_demo.1 "nRAS" = 17) as HV by (vm_compute; reflexivity).
  split; [apply example_init; vm_compute; reflexivity|]. split; [exact (exec_reach0 _ _ _ _ _ _ Hs)|].
  split; [exact HV|]. do 2 (split; [reflexivity|]). intros Hf.
  specialize (Hf [] (mkIssue (HBM2.cmd "PREA") [0; -1; -1; -1; -1; -1] 2)
    [mkIssue (HBM2.cmd "ACT") [0; 0; 0; 0; 7; 0] 0] 0 [0]
    (mkInit "pseudochannel" ["ACT"] ["PREA"] (V HBM2.std hbm2_demo.1 "nRAS") 1 false)
    "ACT" "PREA" (HBM2.cmd "ACT") eq_refl eq_refl).
  enough (0 + V HBM2.std hbm2_demo.1 "nRAS" <= 2) by (rewrite HV in *; lia).
  refine (respects_all (HBM2.cmd "PREA") _ (HBM2.cmd "ACT") _ _ (Hf _ eq_refl _ eq_refl _ eq_refl _ eq_refl) 0 _).
  - apply node_b_has. vm_compute. reflexivity.
  - cbn [st_initializers HBM2.std]. unfold HBM2.timing_initializers.
    do 16 apply list_elem_of_further. apply list_elem_of_here.
  - apply list_elem_of_here.
  - apply list_elem_of_here.
  - apply list_elem_of_here.
Qed.

(** ** Presets *)

(** The standards with their default parameters and their presets. *)
Definition catalogue : list (Standard * list (string * Organization) * list (string * list Z)) :=
  let one := F32.of_Z 1 in
  [(DDR3.std, DDR3.org_presets, DDR3.timing_presets);
   (DDR4.std, DDR4.org_presets, DDR4.timing_presets);
   (DDR4VRR.std 2, DDR4VRR.org_presets, DDR4VRR.timing_presets);
   (DDR4RVRR.std 2 one one, DDR4RVRR.org_presets, DDR4RVRR.timing_presets);
   (DDR5.std 2 2, DDR5.org_presets, DDR5.timing_presets);
   (DDR5VRR.std 2 2 (-1) false, DDR5VRR.org_presets, DDR5VRR.timing_presets);
   (DDR5RVRR.std 2 2 one one, DDR5RVRR.org_presets, DDR5RVRR.timing_presets);
   (HBM.std, HBM.org_presets, HBM.timing_presets);
   (HBM2.std, HBM2.org_presets, HBM2.timing_presets);
   (HBM3.std, HBM3.org_presets, HBM3.timing_presets);
   (GDDR6.std, GDDR6.org_presets, GDDR6.timing_presets)].

(** The presets that do not initialise, and how they fail. *)
Definition broken_presets : list (string * err) :=
  [("HBM_1Gb", Undef); ("HBM2_8Gb", Exc "density mismatch"); ("HBM3_8Gb", Exc "density mismatch");
   ("GDDR6_32Gb_x8", Undef); ("GDDR6_32Gb_x16", Undef)].

Definition err_eqb (a b : err) : bool :=
  match a, b with
  | Undef, Undef => true
  | Exc s, Exc s' => String.eqb s s'
  | _, _ => false
  end.

Lemma err_eqb_eq a b : err_eqb a b = true -> a = b.
Proof. destruct a, b; cbn; try done. by intros ->%String.eqb_eq. Qed.

Definition preset_outcome (σ : Standard) (on tn : string) : bool :=
  match Dev.init σ (preset_org on) (preset_timing tn) with
  | Ok (d, _) =>
      forallb (fun ts => 0 <? ti_latency ts) (st_initializers σ (V σ d)) && (0 <? Dev.d_read_latency d)
  | Err e => existsb (fun b => String.eqb on b.1 && err_eqb e b.2) broken_presets
  end.

Lemma catalogue_outcome :
  forallb (fun '(σ, os, ts) => forallb (fun o => forallb (fun t => preset_outcome σ (fst o) (fst t)) ts) os)
    catalogue = true.
Proof. vm_compute. reflexivity. Qed.

(** For each of these eleven standards and each pair of its presets: the
    device initialises, with only positive latencies in its constraint table and
    a positive read latency, except for [HBM_1Gb] and the 32 Gb presets of GDDR6,
    whose density has no entry in the refresh table (an index of -1), and [HBM2_8Gb] and [HBM3_8Gb], whose
    stated density (6 Gb) differs from the one computed from their organization. *)
Theorem standard_presets σ os ts on o tn v :
  (σ, os, ts) ∈ catalogue -> (on, o) ∈ os -> (tn, v) ∈ ts ->
  match Dev.init σ (preset_org on) (preset_timing tn) with
  | Ok (d, _) => Forall (fun i => 0 < ti_latency i) (st_initializers σ (V σ d)) /\ 0 < Dev.d_read_latency d
  | Err e => (on, e) ∈ broken_presets
  end.
Proof.
  intros Hc Ho Ht. pose proof catalogue_outcome as H. rewrite forallb_forall in H.
  apply list_elem_of_In in Hc, Ho, Ht. specialize (H _ Hc). cbn beta iota in H. rewrite forallb_forall in H.
  specialize (H _ Ho). rewrite forallb_forall in H. specialize (H _ Ht). cbn [fst] in H.
  unfold preset_outcome in H. destruct (Dev.init σ _ _) as [[d s]|e].
  - apply andb_true_iff in H as [H1 H2]. rewrite forallb_forall in H1. split; [|by apply Z.ltb_lt].
    apply List.Forall_forall. intros i Hi. by apply Z.ltb_lt, H1.
  - apply existsb_exists in H as ([n e'] & Hin & [->%String.eqb_eq ->%err_eqb_eq]%andb_true_iff).
    by apply list_elem_of_In.
Qed.

Lemma standard_presets_witness :
  Dev.init HBM.std (preset_org "HBM_1Gb") (preset_timing "HBM_2Gbps") = Err Undef /\
  ("HBM_1Gb", Undef) ∈ broken_presets.
Proof.
  assert (Dev.init HBM.std (preset_org "HBM_1Gb") (preset_timing "HBM_2Gbps") = Err Undef) as E
    by (vm_compute; reflexivity).
  split; [exact E|].
  pose proof (standard_presets HBM.std HBM.org_presets HBM.timing_presets "HBM_1Gb"
    (mkOrganization (1 * 2 ^ 10) 128 [1; 4; 2; 2 ^ 13; 2 ^ 7]) "HBM_2Gbps"
    [2000; 2; 7; 7; 7; 7; 17; 19; 8; 2; 3; 2; 1; 2; 2; 3; 3; 4; 3; 15; -1; 160; 3900; -1; 8; 1000]) as H.
  rewrite E in H. apply H.
  - do 7 apply list_elem_of_further. apply list_elem_of_here.
  - apply list_elem_of_here.
  - apply list_elem_of_here.
Defined.

(** The columns of the timing presets of GDDR6 are in another order than
    [m_timings]: the refresh interval, 3333 cycles, is taken for the time of a
    per-bank refresh, which the table gives as 105. *)
Example gddr6_presets_swapped :
  let d := (example GDDR6.std "GDDR6_8Gb_x8" "GDDR6_2000_1350mV_double").1 in
  V GDDR6.std d "nRFCpb" = 3333 /\ V GDDR6.std d "nREFI" = 7800.
Proof. vm_compute. done. Qed.
