(* ===== verification/LPDDR5Facts.v ===== *)
(** * Rows of the LPDDR5 device

    The prerequisite of a column command tests row 0 instead of the row of the
    request: what follows for the commands the device asks for. *)
From Stdlib Require Import String.
From S2P Require Import Prelude CxxFloat Utils DramSpec DramNode DramLambdas DramTiming DramSpecFacts DramConfig.
From S2P Require Import Device DeviceFacts DDR4Rows Dram LPDDR5 StandardsFacts.
Local Open Scope string_scope.
Local Open Scope Z_scope.

(** ** Trees without an open row 0 *)
Definition row0_free (n : Node) : Prop := forall p m, node_at p n = Some m -> m_row_state m !! 0 = None.

Lemma row0_free_node n : row0_free n <-> m_row_state n !! 0 = None /\ Forall row0_free (m_child_nodes n).
Proof.
  split.
  - intros H. split; [by apply (H [])|]. apply Forall_lookup. intros i x Hx p m Hm. apply (H (Z.of_nat i :: p)). cbn.
    rewrite (proj2 (Z.ltb_ge _ 0)) by lia. by rewrite Nat2Z.id, Hx.
  - intros [H0 Hc] p m Hm. destruct p as [|i p]; [by injection Hm as <-|]. cbn in Hm. destruct (i <? 0); [done|].
    destruct (m_child_nodes n !! Z.to_nat i) as [x|] eqn:E; [|done]. by apply (Forall_lookup_1 _ _ _ _ Hc E) in Hm.
Qed.

Lemma row0_free_children l n : row0_free n -> Forall row0_free l -> row0_free (set_children l n).
Proof. intros [H _]%row0_free_node Hl. apply row0_free_node. by destruct n. Qed.

Lemma row0_free_map f n : (forall x, row0_free x -> row0_free (f x)) -> row0_free n -> row0_free (map_children f n).
Proof.
  intros Hf Hn. apply row0_free_children; [done|]. apply row0_free_node in Hn as [_ Hn]. apply list.Forall_fmap.
  eapply list.Forall_impl; [exact Hn|]. intros x. apply Hf.
Qed.

Lemma row0_free_bank st rows n : rows !! 0 = None -> row0_free n -> row0_free (set_rows rows (set_state st n)).
Proof. intros Hr [_ Hc]%row0_free_node. apply row0_free_node. by destruct n. Qed.

Lemma fget_key {F} (m : FuncMatrix F) l c f : fget m l c = Some f -> (l, c, f) ∈ m.
Proof.
  unfold fget. destruct (List.find _ m) as [[[l' c'] g]|] eqn:E; [|done]. intros [= <-]. apply find_some in E as [E H].
  apply andb_true_iff in H as [<-%Z.eqb_eq <-%Z.eqb_eq]. by apply list_elem_of_In.
Qed.

(** The actions of a bank, at level 3, have a row as their target. *)
Lemma actions_row0_free level c f n t clk n' : fget LPDDR5.actions level c = Some f -> (level = 3 -> t <> 0) -> row0_free n ->
  f n c t clk = Ok n' -> row0_free n'.
Proof.
  intros Hin%fget_key Ht Hn H.
  assert (Hclose : forall x, row0_free x -> row0_free (close_bank LPDDR5.states x)) by (intros; by apply row0_free_bank).
  assert (Hopen : t <> 0 -> forall s, row0_free (set_rows (<[t := s]> (m_row_state n)) (set_state s n))).
  { intros Ht0 s. apply row0_free_bank; [|done]. rewrite lookup_insert_ne by done. by apply row0_free_node in Hn as [? _]. }
  repeat (apply elem_of_cons in Hin as [[= -> -> ->]|Hin]; [injection H as <-|]); [..|by apply not_elem_of_nil in Hin].
  - apply (row0_free_map (map_children (close_bank LPDDR5.states))); [|done]. intros x. by apply row0_free_map.
  - destruct n. by apply Hopen, Ht.
  - destruct n. by apply Hopen, Ht.
  - by apply Hclose.
  - by apply Hclose.
  - by apply Hclose.
Qed.

Lemma on_nth_all {A} (P : A -> Prop) f (l l' : list A) i : (forall x y, f x = Ok y -> P x -> P y) -> on_nth f l i = Ok l' ->
  Forall P l -> Forall P l'.
Proof.
  intros Hf. revert i l'. induction l as [|x l IH]; intros [|i] l' H HP; cbn in H; try done; apply bind_Ok in H as (y & Hy & H);
    injection H as <-; inversion HP; subst; constructor; eauto.
Qed.

Lemma on_all_all {A} (P : A -> Prop) f (l l' : list A) : (forall x y, f x = Ok y -> P x -> P y) -> on_all f l = Ok l' ->
  Forall P l -> Forall P l'.
Proof.
  intros Hf. revert l'. induction l as [|x l IH]; intros l' H HP; cbn in H; [by injection H as <-|].
  apply bind_Ok in H as (y & Hy & H). apply bind_Ok in H as (k & Hk & H). injection H as <-. inversion HP; subst. constructor; eauto.
Qed.

Section Run.
Context (d : Dev.Device) (Hd : device_ok LPDDR5.std d).

Lemma update_states_row0 depth c av clk n n' : av !! 4%nat <> Some 0 -> row0_free n ->
  update_states (Dev.d_spec d) depth c av clk n = Ok n' -> row0_free n'.
Proof.
  intros Hav. revert n n'. induction depth as [|depth IH]; [done|]. intros n n' Hn H. cbn [update_states] in H.
  apply bind_Ok in H as (t & Ht & H). apply bind_Ok in H as (n1 & H1 & H). apply bind_Ok in H as (stop & _ & H).
  assert (row0_free n1) as Hn1.
  { unfold run_action in H1. rewrite (dok_actions _ _ Hd) in H1. destruct (fget _ _ _) as [f|] eqn:Ef; [|by injection H1 as <-].
    eapply (actions_row0_free _ _ _ _ _ _ _ Ef); [|exact Hn|exact H1]. intros El ->. rewrite El in Ht. apply vget_Ok in Ht as [_ Ht]. done. }
  destruct stop; [by injection H as <-|]. apply bind_Ok in H as (chs & Hc & H). injection H as <-.
  apply row0_free_children; [done|]. apply row0_free_node in Hn1 as [_ Hn1].
  destruct (t =? -1); [by eapply on_all_all; [|exact Hc|exact Hn1]; eauto|]. destruct (t <? 0); [done|].
  eapply on_nth_all; [|exact Hc|exact Hn1]. eauto.
Qed.

Definition chans_row0_free (s : LPDDR5.State) : Prop := Forall row0_free (Dev.m_channels (LPDDR5.tree s)).

Lemma upd_channel_free f av (s s' : Dev.State) : (forall n n', f n = Ok n' -> row0_free n -> row0_free n') ->
  Dev.upd_channel LPDDR5.std f av s = Ok s' -> Forall row0_free (Dev.m_channels s) -> Forall row0_free (Dev.m_channels s').
Proof.
  intros Hf H Hs. apply (upd_channel_Ok _ lpddr5_ok) in H as (ch & n & n' & _ & Hn & Hu & ->). cbn.
  apply Forall_insert; [done|]. eapply Hf; [exact Hu|]. by apply (Forall_lookup_1 _ _ _ _ Hs Hn).
Qed.

Lemma issue_row0 c av s s' : av !! 4%nat <> Some 0 -> LPDDR5.issue_command d c av s = Ok s' -> chans_row0_free s -> chans_row0_free s'.
Proof.
  intros Hav H Hs. unfold LPDDR5.issue_command in H. apply bind_Ok in H as (t & Ht & H). apply bind_Ok in H as (f & _ & H).
  injection H as <-. unfold chans_row0_free in *. cbn. unfold Dev.issue_command in Ht. apply bind_Ok in Ht as (t1 & H1 & Ht).
  apply bind_Ok in Ht as (t2 & H2 & Ht). apply check_future_action_channels in Ht as [_ ->].
  eapply upd_channel_free; [|exact H2|]; [intros n n' Hn Hf; by eapply update_states_row0|].
  eapply upd_channel_free; [|exact H1|exact Hs]. intros n n' Hn Hf p m Hm.
  pose proof (update_timing_view _ _ _ _ p _ _ Hn) as Hv. unfold view_of in Hv. rewrite Hm in Hv.
  destruct (node_at p n) as [m0|] eqn:E; [|done]. cbn in Hv. injection Hv as _ ->. by apply (Hf p).
Qed.

(** No command of LPDDR5 has a future action. *)
Lemma lp_tick_channels s s' : LPDDR5.tick d s = Ok s' -> Dev.m_channels (LPDDR5.tree s') = Dev.m_channels (LPDDR5.tree s).
Proof.
  unfold LPDDR5.tick, Dev.tick. intros H. apply bind_Ok in H as (t & Ht & H). injection H as <-. cbn [LPDDR5.tree].
  change (Dev.m_channels (LPDDR5.tree s)) with
    (Dev.m_channels (Dev.mkState (Dev.m_clk (LPDDR5.tree s) + 1) (Dev.m_channels (LPDDR5.tree s)) (Dev.m_future_actions (LPDDR5.tree s)))).
  revert Ht. generalize (Dev.mkState (Dev.m_clk (LPDDR5.tree s) + 1) (Dev.m_channels (LPDDR5.tree s)) (Dev.m_future_actions (LPDDR5.tree s))).
  intros t0. cbv zeta. generalize (List.length (Dev.m_future_actions t0)) as k. intros k. revert t0.
  induction k as [|k IH]; cbn; intros t0 H; [by injection H as <-|]. destruct (_ !! k) as [fa|]; [|done].
  destruct (_ =? _); by apply IH in H.
Qed.

(** ** Runs *)
Inductive lp_reach (s0 : LPDDR5.State) : LPDDR5.State -> list Issue -> Prop :=
| lp_start : lp_reach s0 s0 []
| lp_tick s H s' : lp_reach s0 s H -> LPDDR5.tick d s = Ok s' -> lp_reach s0 s' H
| lp_issue s H c av s' : lp_reach s0 s H -> LPDDR5.issue_command d c av s = Ok s' ->
    lp_reach s0 s' (mkIssue c av (Dev.m_clk (LPDDR5.tree s)) :: H).

(** The tree of the device runs as that of any standard. *)
Lemma lp_reach_tree s0 s H : lp_reach s0 s H -> reach LPDDR5.std false d (LPDDR5.tree s0) (LPDDR5.tree s) H.
Proof.
  induction 1 as [|s H s' _ IH Ht|s H c av s' _ IH Hi]; [constructor|..].
  - unfold LPDDR5.tick in Ht. apply bind_Ok in Ht as (t & Ht & E). injection E as <-. by eapply reach_tick.
  - unfold LPDDR5.issue_command in Hi. apply bind_Ok in Hi as (t & Ht & E). apply bind_Ok in E as (f & _ & E). injection E as <-.
    by eapply reach_issue.
Qed.

Lemma lp_reach_row0 s0 s H : chans_row0_free s0 -> lp_reach s0 s H -> Forall (fun e => is_addr e !! 4%nat <> Some 0) H ->
  chans_row0_free s.
Proof.
  intros H0. induction 1 as [|s H s' _ IH Ht|s H c av s' _ IH Hi]; intros HF; [done|..].
  - unfold chans_row0_free. rewrite (lp_tick_channels _ _ Ht). by apply IH.
  - inversion HF; subst. eapply issue_row0; [done|exact Hi|by apply IH].
Qed.

(** ** The prerequisite of a column command *)
Section Walk.
Context (sp : Spec) (av : list Z) (c clk : Z).

Lemma lp_preq_step m x i : fget (m_preqs sp) (m_level m) c = None -> vget av (m_level m + 1) = Ok i -> 0 <= i ->
  m_child_nodes m !! Z.to_nat i = Some x ->
  DramNode.get_preq_command sp c av clk m = DramNode.get_preq_command sp c av clk x.
Proof.
  intros Hf Hav Hi Hx. destruct m as [level nid st ready hist rows chs]. cbn [m_level m_child_nodes] in *.
  cbn [DramNode.get_preq_command m_level m_child_nodes]. rewrite Hav, Hf, !bind_Ok_l. cbn [negb Z.eqb].
  destruct chs as [|c0 cs]; [done|]. rewrite (proj2 (Z.ltb_ge i 0)) by done. by apply at_nth_lookup.
Qed.
End Walk.
End Run.

Definition column_cmds : list Z := [LPDDR5.cmd "RD16"; LPDDR5.cmd "WR16"].

(** The command that synchronises the clock for a column command. *)
Definition cas_of (c : Z) : Z := if c =? LPDDR5.cmd "RD16" then LPDDR5.cmd "CASRD" else LPDDR5.cmd "CASWR".

(** What a column command needs, from the state and rows of its bank and the
    cycle up to which its rank is synchronised. *)
Definition lp_preq (c synced clk : Z) (v : Z * gmap Z Z) : res Z :=
  if v.1 =? LPDDR5.st "Closed" then Ok (LPDDR5.cmd "ACT-1")
  else if v.1 =? LPDDR5.st "Pre-Opened" then Ok (LPDDR5.cmd "ACT-2")
  else if v.1 =? LPDDR5.st "Opened" then
    match v.2 !! 0 with
    | Some _ => Ok (if synced <? clk then cas_of c else c)
    | None => Ok (LPDDR5.cmd "PRE")
    end
  else Err (Exit (-1)).

Lemma column_preq c n synced : c ∈ column_cmds ->
  exists cas, fget (LPDDR5.preqs n synced) 3 c = Some (LPDDR5.Preq_Bank_RDWR cas synced) /\ LPDDR5.cmd cas = cas_of c /\
    0 <= cas_of c /\ 0 <= c.
Proof.
  intros Hc. apply elem_of_cons in Hc as [->|Hc]; [by exists "CASRD"|].
  apply elem_of_cons in Hc as [->|Hc]; [by exists "CASWR"|by apply not_elem_of_nil in Hc].
Qed.

Lemma lp_preq_bank sp n c av clk m row synced : c ∈ column_cmds -> m_preqs sp = LPDDR5.preqs n synced -> m_level m = 3 ->
  vget av 4 = Ok row ->
  DramNode.get_preq_command sp c av clk m = lp_preq c synced clk (m_state m, m_row_state m).
Proof.
  intros Hc Hq Hl Hav. destruct (column_preq c n synced Hc) as (cas & Hf & Hcas & Hpos & Hc0).
  destruct m as [level nid st ready hist rows chs]. cbn [m_level m_state m_row_state] in *. subst level.
  cbn [DramNode.get_preq_command m_level m_child_nodes]. change (3 + 1) with 4. rewrite Hav, Hq, bind_Ok_l, Hf.
  unfold lp_preq, LPDDR5.Preq_Bank_RDWR. cbn [m_state m_row_state fst snd]. rewrite Hcas.
  destruct (st =? LPDDR5.st "Closed"); [reflexivity|]. destruct (st =? LPDDR5.st "Pre-Opened"); [reflexivity|].
  destruct (st =? LPDDR5.st "Opened"); [|reflexivity]. destruct (rows !! 0); [|reflexivity]. rewrite bind_Ok_l.
  destruct (synced <? clk); (rewrite (proj2 (Z.eqb_neq _ (-1))) by lia); reflexivity.
Qed.

Lemma lp_get_preq po pt d s0 s H c ch ra bg ba row rest v : LPDDR5.init po pt = Ok (d, s0) -> lp_reach d s0 s H ->
  c ∈ column_cmds -> bank_view (LPDDR5.tree s) ch ra bg ba = Some v ->
  let av := ch :: ra :: bg :: ba :: row :: rest in
  LPDDR5.get_preq_command d c av s = lp_preq c (LPDDR5.rank_synced av s) (Dev.m_clk (LPDDR5.tree s)) v.
Proof.
  intros Hi Hr Hc Hv av. unfold LPDDR5.init in Hi. apply bind_Ok in Hi as ([d' t0] & Hi & E). injection E as <- <-.
  pose proof (lp_reach_tree _ _ _ _ Hr) as Ht. cbn [LPDDR5.tree] in Ht.
  destruct (reach_run_inv _ lpddr5_ok _ _ _ _ _ _ _ Hi Ht) as (_ & _ & Hinv).
  unfold bank_view in Hv. destruct (Z.ltb_spec ch 0); [done|].
  destruct (Dev.m_channels (LPDDR5.tree s) !! Z.to_nat ch) as [n|] eqn:Hn; [|done]. cbn [mbind option_bind] in Hv.
  unfold view_of in Hv. destruct (node_at [ra; bg; ba] n) as [bank|] eqn:Hb; [|done]. injection Hv as <-.
  destruct (Hinv _ _ Hn) as (n0 & _ & [Hl _ Hw _ _]). destruct (node_at_path _ _ _ _ _ Hl Hw Hb) as (rank & group & Hp).
  destruct (bank_path_levels _ _ _ _ _ _ _ Hp) as (L1 & L2 & L3). pose proof Hp as [L0 _ [Hra H1] [Hbg H2] [Hba H3]].
  unfold LPDDR5.get_preq_command, Dev.on_channel.
  change (vget av (Dev.lvl LPDDR5.std "channel")) with (Ok ch). rewrite bind_Ok_l.
  rewrite (proj2 (vget_Ok _ _ _) (conj H0 Hn)), bind_Ok_l. cbv zeta.
  set (sp := LPDDR5.with_preqs _ _). assert (Hno : forall l, 0 <= l < 3 -> fget (m_preqs sp) l c = None).
  { intros l Hlt. assert (l = 0 \/ l = 1 \/ l = 2) as Hcase by lia. unfold sp. cbn [LPDDR5.with_preqs m_preqs].
    apply elem_of_cons in Hc as [->|Hc]; [|apply elem_of_cons in Hc as [->|Hc]; [|by apply not_elem_of_nil in Hc]];
      destruct Hcase as [->|[->| ->]]; reflexivity. }
  rewrite (lp_preq_step sp av c _ n rank ra), (lp_preq_step sp av c _ rank group bg), (lp_preq_step sp av c _ group bank ba)
    by (rewrite ?L0, ?L1, ?L2; try done; try (apply Hno; lia); reflexivity).
  by eapply lp_preq_bank.
Qed.

(** ** Initial states *)
Lemma lp_init_ok po pt d s0 : LPDDR5.init po pt = Ok (d, s0) -> device_ok LPDDR5.std d.
Proof. intros H. unfold LPDDR5.init in H. apply bind_Ok in H as ([d' t] & H & E). injection E as <- _. by eapply init_device_ok. Qed.

Lemma new_node_row0 sp depth level nid n : new_node sp depth level nid = Ok n -> row0_free n.
Proof.
  revert level nid n. induction depth as [|depth IH]; [done|]. intros level nid n H. cbn [new_node] in H.
  apply bind_Ok in H as (hist & _ & H). apply bind_Ok in H as (st & _ & H).
  destruct (_ =? _); [injection H as <-; apply row0_free_node; by split|].
  apply bind_Ok in H as (size & _ & H). apply bind_Ok in H as (chs & Hch & H). injection H as <-.
  apply row0_free_children; [apply row0_free_node; by split|]. clear -IH Hch. revert chs Hch. induction (seqZ 0 size) as [|i ids IHi].
  - intros chs [= <-]. constructor.
  - intros chs H. apply bind_Ok in H as (c & Hc & H). apply bind_Ok in H as (cs & Hcs & H). injection H as <-. constructor; eauto.
Qed.

Lemma lp_init_row0 po pt d s0 : LPDDR5.init po pt = Ok (d, s0) -> chans_row0_free s0.
Proof.
  intros H. unfold LPDDR5.init in H. apply bind_Ok in H as ([d' t] & H & E). injection E as _ <-. unfold chans_row0_free. cbn [LPDDR5.tree].
  unfold Dev.init in H. apply bind_Ok in H as (scopes & _ & H). apply bind_Ok in H as (inits & _ & H).
  apply bind_Ok in H as ([width o] & _ & H). apply bind_Ok in H as ([[vals lat] tc] & _ & H). apply bind_Ok in H as (chs & Hch & H).
  injection H as _ <-. cbn [Dev.m_channels]. unfold Dev.create_nodes in Hch. apply bind_Ok in Hch as (num & _ & Hch). revert chs Hch.
  induction (seqZ 0 num) as [|i ids IHi]; intros chs H; [by injection H as <-|].
  apply bind_Ok in H as (c & Hc & H). apply bind_Ok in H as (cs & Hcs & H). injection H as <-. constructor; [by eapply new_node_row0|auto].
Qed.

(** ** Property *)

(** Property C6.  The LPDDR5 device never serves a row other than row 0: in
    every run, with any commands at any times, in which no command addresses row
    0, a read or write of any row of any bank is answered with another command
    (activate or precharge) that has to be issued first, whatever the state of
    the bank.  A controller that follows the prerequisites opens and closes the
    row for ever. *)
Theorem lpddr5_never_serves_other_rows po pt d s0 s H c ch ra bg ba row rest v x :
  LPDDR5.init po pt = Ok (d, s0) -> lp_reach d s0 s H -> Forall (fun e => is_addr e !! 4%nat <> Some 0) H ->
  c ∈ column_cmds -> bank_view (LPDDR5.tree s) ch ra bg ba = Some v ->
  LPDDR5.get_preq_command d c (ch :: ra :: bg :: ba :: row :: rest) s = Ok x ->
  x = LPDDR5.cmd "ACT-1" \/ x = LPDDR5.cmd "ACT-2" \/ x = LPDDR5.cmd "PRE".
Proof.
  intros Hi Hr HF Hc Hv Hx. erewrite lp_get_preq in Hx by done.
  assert (v.2 !! 0 = None) as H0.
  { pose proof (lp_reach_row0 d (lp_init_ok _ _ _ _ Hi) _ _ _ (lp_init_row0 _ _ _ _ Hi) Hr HF) as Hs.
    unfold bank_view in Hv. destruct (ch <? 0); [done|]. destruct (_ !! _) as [n|] eqn:En; [|done].
    cbn [mbind option_bind] in Hv. unfold view_of in Hv. destruct (node_at _ n) as [m|] eqn:Em; [|done]. injection Hv as <-. by apply (Forall_lookup_1 _ _ _ _ Hs En _ _ Em). }
  unfold lp_preq in Hx. rewrite H0 in Hx.
  destruct (_ =? _); [injection Hx as <-; auto|]. destruct (_ =? _); [injection Hx as <-; auto|].
  destruct (_ =? _); [injection Hx as <-; auto|done].
Qed.

(** ** An example: row 7 is opened, and has to be closed again *)
Definition lp_example : Dev.Device * LPDDR5.State :=
  from_res (no_device.1, LPDDR5.mkState no_device.2 []) (LPDDR5.init (preset_org "LPDDR5_8Gb_x16") (preset_timing "LPDDR5_6400")).

Lemma lp_example_init : LPDDR5.init (preset_org "LPDDR5_8Gb_x16") (preset_timing "LPDDR5_6400") = Ok (lp_example.1, lp_example.2).
Proof. rewrite <- surjective_pairing. apply from_res_Ok. vm_compute. reflexivity. Qed.

Definition lp_addr (row : Z) : list Z := [0; 0; 1; 2; row; 0].

Fixpoint lp_exec (ops : list Op) (x : LPDDR5.State * list Issue) : res (LPDDR5.State * list Issue) :=
  match ops with
  | [] => Ok x
  | Tick :: ops => s ← LPDDR5.tick lp_example.1 x.1; lp_exec ops (s, x.2)
  | Issue_to c av :: ops =>
      s ← LPDDR5.issue_command lp_example.1 c av x.1;
      lp_exec ops (s, mkIssue c av (Dev.m_clk (LPDDR5.tree x.1)) :: x.2)
  end.

Lemma lp_exec_reach ops s0 s H s' H' : lp_reach lp_example.1 s0 s H -> lp_exec ops (s, H) = Ok (s', H') ->
  lp_reach lp_example.1 s0 s' H'.
Proof.
  revert s H. induction ops as [|[|c av] ops IH]; cbn [lp_exec]; intros s H Hr E; [by injection E as <- <-|..];
    apply bind_Ok in E as (s1 & H1 & E); cbn [fst snd] in *; (eapply IH; [|exact E]); [by eapply lp_tick|by eapply lp_issue].
Qed.

Definition lp_script : list Op :=
  [Issue_to (LPDDR5.cmd "ACT-1") (lp_addr 7); Tick; Issue_to (LPDDR5.cmd "ACT-2") (lp_addr 7); Tick; Tick].

Lemma lpddr5_never_serves_other_rows_witness : exists s H v,
  lp_reach lp_example.1 lp_example.2 s H /\ bank_view (LPDDR5.tree s) 0 0 1 2 = Some v /\
  LPDDR5.check_rowbuffer_hit lp_example.1 (LPDDR5.cmd "RD16") (lp_addr 7) s = Ok true /\
  exists x, LPDDR5.get_preq_command lp_example.1 (LPDDR5.cmd "RD16") (lp_addr 7) s = Ok x /\
    (x = LPDDR5.cmd "ACT-1" \/ x = LPDDR5.cmd "ACT-2" \/ x = LPDDR5.cmd "PRE").
Proof.
  assert (match lp_exec lp_script (lp_example.2, []) with
          | Ok (s, H) => forallb (fun e => negb (bool_decide (is_addr e !! 4%nat = Some 0))) H &&
                         bool_decide (is_Some (fst <$> bank_view (LPDDR5.tree s) 0 0 1 2)) &&
                         from_res false (LPDDR5.check_rowbuffer_hit lp_example.1 (LPDDR5.cmd "RD16") (lp_addr 7) s) &&
                         ok_b (LPDDR5.get_preq_command lp_example.1 (LPDDR5.cmd "RD16") (lp_addr 7) s)
          | Err _ => false end = true) as Hb by (vm_compute; reflexivity).
  destruct (lp_exec lp_script (lp_example.2, [])) as [[s H]|] eqn:E; [|discriminate Hb].
  apply andb_true_iff in Hb as [Hb Hq]. apply andb_true_iff in Hb as [Hb Hh]. apply andb_true_iff in Hb as [HF Hv%bool_decide_eq_true].
  apply fmap_is_Some in Hv as [v Hv]. pose proof (lp_exec_reach lp_script _ _ _ _ _ (lp_start _ _) E) as Hr.
  destruct (LPDDR5.check_rowbuffer_hit _ _ _ _) as [[]|] eqn:Eh; try discriminate Hh.
  destruct (LPDDR5.get_preq_command _ _ _ _) as [x|] eqn:Eq; [|discriminate Hq].
  exists s, H, v. split; [exact Hr|]. split; [exact Hv|]. split; [exact Eh|]. exists x. split; [exact Eq|].
  apply (lpddr5_never_serves_other_rows _ _ lp_example.1 lp_example.2 s H (LPDDR5.cmd "RD16") 0 0 1 2 7 [0] v x lp_example_init Hr).
  - apply Forall_forall. intros e He. rewrite forallb_forall in HF. apply HF in He.
    apply negb_true_iff, bool_decide_eq_false in He. exact He.
  - apply elem_of_cons. left. reflexivity.
  - exact Hv.
  - exact Eq.
Defined.
