(* ===== verification/PowerFacts.v ===== *)
(** * The power model only observes

    With the power model switched on a device goes through the same states as
    without it, so everything proved about the devices holds for it too. *)
From Stdlib Require Import String.
From S2P Require Import Prelude CxxFloat DramSpec DramNode DramConfig DramTiming Device DeviceFacts Power.
From S2P Require Import DDR4 StandardsFacts.
Local Open Scope string_scope.
Local Open Scope Z_scope.

Section Observer.
Context (σ : Standard) (d : Dev.Device) (c : PowerConfig).

Lemma power_issue_device cmd av s s' : Power.issue_command σ d c cmd av s = Ok s' ->
  Dev.issue_command σ d cmd av (pw_dev s) = Ok (pw_dev s').
Proof.
  unfold Power.issue_command, Dev.issue_command. intros H. apply bind_Ok in H as (t & Ht & H). apply bind_Ok in H as (stats & _ & H).
  apply bind_Ok in H as (t2 & Ht2 & H). apply bind_Ok in H as (t3 & Ht3 & H). injection H as <-.
  by rewrite Ht, bind_Ok_l, Ht2, bind_Ok_l, Ht3.
Qed.

Lemma power_future_device cmd av s s' : Power.handle_future_action σ d c cmd av s = Ok s' ->
  Dev.handle_future_action σ d cmd av (pw_dev s) = Ok (pw_dev s').
Proof.
  unfold Power.handle_future_action, Dev.handle_future_action. destruct (Dev.future_of σ cmd) as [[[? e] ?]|]; intros H; [|by injection H as <-].
  apply bind_Ok in H as (stats & _ & H). apply bind_Ok in H as (t & Ht & H). injection H as <-. done.
Qed.

Lemma power_loop_device i s s' : Power.future_loop σ d c i s = Ok s' -> Dev.future_loop σ d i (pw_dev s) = Ok (pw_dev s').
Proof.
  revert s. induction i as [|i IH]; intros s H; cbn [Power.future_loop Dev.future_loop] in *; [by injection H as <-|].
  destruct (_ !! i) as [fa|]; [|done]. destruct (_ =? _); [|by apply IH].
  apply bind_Ok in H as (s1 & H1 & H). rewrite (power_future_device _ _ _ _ H1), bind_Ok_l. by apply IH in H.
Qed.

Lemma power_tick_device s s' : Power.tick σ d c s = Ok s' -> Dev.tick σ d (pw_dev s) = Ok (pw_dev s').
Proof. intros H. by apply power_loop_device in H. Qed.

Inductive p_reach (s0 : Power.State) : Power.State -> list Issue -> Prop :=
| p_start : p_reach s0 s0 []
| p_tick s H s' : p_reach s0 s H -> Power.tick σ d c s = Ok s' -> p_reach s0 s' H
| p_issue s H cmd av s' : p_reach s0 s H -> Dev.check_ready σ d cmd av (pw_dev s) = Ok true ->
    Power.issue_command σ d c cmd av s = Ok s' -> p_reach s0 s' (mkIssue cmd av (Dev.m_clk (pw_dev s)) :: H).

Lemma p_reach_device s0 s H : p_reach s0 s H -> reach σ true d (pw_dev s0) (pw_dev s) H.
Proof.
  induction 1 as [|s H s' _ IH Ht|s H cmd av s' _ IH Hr Hi]; [constructor|..].
  - eapply reach_tick; [exact IH|by apply power_tick_device].
  - eapply reach_issue; [exact IH|done|by apply power_issue_device].
Qed.
End Observer.

(** A device with its power model switched on respects every constraint of its
    timing table. *)
Theorem powered_device_timing_safe σ π po pt pp d c s0 s H :
  std_ok σ -> well_scoped σ -> Power.init σ π po pt pp = Ok (d, c, s0) -> p_reach σ d c s0 s H ->
  full_table_respected σ d (pw_dev s0) H.
Proof.
  intros Hσ Hw Hi Hr. unfold Power.init in Hi. apply bind_Ok in Hi as ([d' t] & Hi & E). apply bind_Ok in E as ([c' stats] & _ & E).
  injection E as <- <- <-. apply p_reach_device in Hr. by eapply well_scoped_enforces.
Qed.

(** ** An example: a row of DDR4 opened, read and closed *)
Definition power_on : PowerParams := mkPowerParams true (Some "Default") (Some "Default").
Definition ddr4_powered : Dev.Device * PowerConfig * Power.State :=
  from_res (no_device.1, mkPowerConfig false [] [] [], Power.mkState no_device.2 [])
    (DDR4Power.init (preset_org "DDR4_8Gb_x8") (preset_timing "DDR4_2400R") power_on).

Definition power_script : list Op :=
  (Issue_to (DDR4.cmd "ACT") [0; 0; 1; 2; 7; 0] :: replicate 20 Tick ++ [Issue_to (DDR4.cmd "RD") [0; 0; 1; 2; 7; 0]] ++
   replicate 30 Tick ++ [Issue_to (DDR4.cmd "PRE") [0; 0; 1; 2; 7; 0]] ++ replicate 10 Tick)%list.

Fixpoint power_exec (ops : list Op) (s : Power.State) : res Power.State :=
  match ops with
  | [] => Ok s
  | Tick :: ops => s ← DDR4Power.tick ddr4_powered.1.1 ddr4_powered.1.2 s; power_exec ops s
  | Issue_to cmd av :: ops => s ← DDR4Power.issue_command ddr4_powered.1.1 ddr4_powered.1.2 cmd av s; power_exec ops s
  end.

(** 50 cycles active, 10 idle, one activation, precharge and read. *)
Example power_example :
  match s ← power_exec power_script ddr4_powered.2; DDR4Power.finalize ddr4_powered.1.1 ddr4_powered.1.2 s with
  | Ok (s, _) => (fun p => (active_cycles p, idle_cycles p, cmd_counters p)) <$> m_power_stats s
  | Err _ => []
  end = [(50, 10, [1; 1; 1; 0; 0])].
Proof. vm_compute. reflexivity. Qed.
