(* ===== verification/Plugin.v ===== *)
(** * Controller plugins: the interface [IControllerPlugin]

    [dram_controller/plugin.h].  [update] is called once per controller cycle
    with the scheduled request, if there is one.  All it can do to the
    controller is [priority_send], whose result it may use; this is a small
    program [Act], which the controller runs. *)
From S2P Require Import Prelude Request.

Inductive Act (A : Type) : Type :=
| Done (r : res A)
| PrioritySend (req : Request) (k : bool -> Act A).
Arguments Done {A} _.
Arguments PrioritySend {A} _ _.

(** Every request an update sends satisfies [P]. *)
Fixpoint Sends {A} (P : Request -> Prop) (a : Act A) : Prop :=
  match a with
  | Done _ => True
  | PrioritySend req k => P req /\ forall b, Sends P (k b)
  end.

Lemma Sends_impl {A} (P Q : Request -> Prop) (a : Act A) :
  (forall r, P r -> Q r) -> Sends P a -> Sends Q a.
Proof. intros HPQ. induction a as [r|req k IH]; cbn; [done|]. intros [? ?]. split; auto. Qed.

(** The request is addressed to the channel of the scheduled request. *)
Definition same_channel (found : option Request) (r : Request) : Prop :=
  exists q, found = Some q /\ addr_vec r !! 0%nat = addr_vec q !! 0%nat.

(** A plugin object: its class and its current state.  Plugins only send
    requests to their own channel, as a reaction to a scheduled request. *)
Record Plugin : Type := mkPlugin {
  pl_state : Type;
  pl_update : option Request -> pl_state -> Act pl_state;
  pl_sends : forall found s, Sends (same_channel found) (pl_update found s);
  pl_current : pl_state;
}.

Definition pl_set (p : Plugin) (s : pl_state p) : Plugin := mkPlugin (pl_state p) (pl_update p) (pl_sends p) s.

(** ** Updates that send several requests *)
Fixpoint act_bind {A B} (a : Act A) (k : A -> Act B) : Act B :=
  match a with
  | Done (Ok x) => k x
  | Done (Err e) => Done (Err e)
  | PrioritySend req f => PrioritySend req (fun ok => act_bind (f ok) k)
  end.

#[global] Instance act_mbind : MBind Act := fun A B k a => act_bind a k.
#[global] Instance act_mret : MRet Act := fun A x => Done (Ok x).

(** The results are ignored. *)
Fixpoint send_all (reqs : list Request) : Act unit :=
  match reqs with
  | [] => mret tt
  | r :: reqs => PrioritySend r (fun _ => send_all reqs)
  end.

(** A refused request ends the program. *)
Fixpoint send_all_or_exit (reqs : list Request) : Act unit :=
  match reqs with
  | [] => mret tt
  | r :: reqs => PrioritySend r (fun ok => if ok : bool then send_all_or_exit reqs else Done (Err (Exit 1)))
  end.

Lemma Sends_bind {A B} (P : Request -> Prop) (a : Act A) (k : A -> Act B) :
  Sends P a -> (forall x, Sends P (k x)) -> Sends P (a ≫= k).
Proof.
  intros Ha Hk. induction a as [[x|e]|req f IH]; cbn in *; [apply Hk|done|].
  destruct Ha as [Hr Hf]. split; [done|]. intros ok. by apply IH.
Qed.

Lemma Sends_all (P : Request -> Prop) reqs : Forall P reqs -> Sends P (send_all reqs).
Proof. induction 1; cbn; [done|]. by split. Qed.

Lemma Sends_all_or_exit (P : Request -> Prop) reqs : Forall P reqs -> Sends P (send_all_or_exit reqs).
Proof. induction 1; cbn; [done|]. split; [done|]. by intros []. Qed.
