(* ===== verification/Scheduler.v ===== *)
(** * Request scheduling: [IScheduler] and [FRFCFS]

    Models [dram_controller/scheduler.h] and
    [dram_controller/impl/scheduler/generic_scheduler.cpp]. *)
From S2P Require Import Prelude DramSpec DDR4 DDR4Facts Dram Request.

Section Scheduler.
Context `{D : IDRAM}.

(** [for (auto& req : buffer) req.command = get_preq_command(...)] *)
Definition with_preq (dv : dev) (r : Request) : res Request :=
  c ← dram_get_preq_command (final_command r) (addr_vec r) dv; Ok (set_command c r).

Fixpoint with_preqs (dv : dev) (l : list Request) : res (list Request) :=
  match l with
  | [] => Ok []
  | r :: l => r ← with_preq dv r; l ← with_preqs dv l; Ok (r :: l)
  end.

Definition req_ready (dv : dev) (r : Request) : res bool :=
  dram_check_ready (command r) (addr_vec r) dv.

End Scheduler.

Module FRFCFS.
Section FRFCFS.
Context `{D : IDRAM}.

(** Iterators are positions paired with the request they point at. *)
Definition compare (dv : dev) (req1 req2 : nat * Request) : res (nat * Request) :=
  ready1 ← req_ready dv req1.2;
  ready2 ← req_ready dv req2.2;
  if xorb ready1 ready2 then Ok (if ready1 : bool then req1 else req2)
  else Ok (if arrive req1.2 <=? arrive req2.2 then req1 else req2).

Fixpoint best_loop (dv : dev) (candidate : nat * Request) (next : nat) (l : list Request)
    : res (nat * Request) :=
  match l with
  | [] => Ok candidate
  | r :: l => candidate ← compare dv candidate (next, r); best_loop dv candidate (S next) l
  end.

Definition get_best_request (dv : dev) (b : ReqBuffer) : res (option nat * ReqBuffer) :=
  match buffer b with
  | [] => Ok (None, b)
  | _ =>
      l ← with_preqs dv (buffer b);
      match l with
      | [] => Err Undef
      | r :: rest =>
          '(i, _) ← best_loop dv (0%nat, r) 1 rest;
          Ok (Some i, mkReqBuffer l (max_size b))
      end
  end.
End FRFCFS.
End FRFCFS.

(** ** What the controller relies on

    A scheduler recomputes the command of every request as the prerequisite of
    its final command and points at a request of the buffer, or at [end()]
    when the buffer is empty. *)
Class IScheduler `{D : IDRAM} : Type := {
  sched_best : dev -> ReqBuffer -> res (option nat * ReqBuffer);
  sched_best_spec : forall dv b it b', sched_best dv b = Ok (it, b') ->
    max_size b' = max_size b /\
    Forall2 (fun r r' => with_preq dv r = Ok r') (buffer b) (buffer b') /\
    (forall i, it = Some i -> exists r, buffer b' !! i = Some r);
}.

Section FRFCFS_facts.
Context `{D : IDRAM}.

Lemma with_preqs_Forall2 dv l l' :
  with_preqs dv l = Ok l' -> Forall2 (fun r r' => with_preq dv r = Ok r') l l'.
Proof.
  revert l'. induction l as [|r l IH]; cbn; intros l' H; [injection H as <-; constructor|].
  apply bind_Ok in H as (r' & Hr & H). apply bind_Ok in H as (l1 & Hl & H). injection H as <-.
  constructor; auto.
Qed.

(** The order FRFCFS minimises: ready before not ready, then older, then the
    earlier position. *)
Definition precedes (ready1 ready2 : bool) (x y : nat * Request) : Prop :=
  (ready1 = true /\ ready2 = false) \/
  (ready1 = ready2 /\ (arrive x.2 < arrive y.2 \/ (arrive x.2 = arrive y.2 /\ (x.1 <= y.1)%nat))).

Definition best_among (dv : dev) (x : nat * Request) (P : nat -> Request -> Prop) : Prop :=
  exists rx, req_ready dv x.2 = Ok rx /\
  forall j y, P j y -> exists ry, req_ready dv y = Ok ry /\ precedes rx ry x (j, y).

Lemma precedes_trans r1 r2 r3 x y z :
  precedes r1 r2 x y -> precedes r2 r3 y z -> precedes r1 r3 x z.
Proof. unfold precedes. intros H1 H2. destruct r1, r2, r3; naive_solver lia. Qed.

Lemma compare_spec dv x y z :
  FRFCFS.compare dv x y = Ok z -> (x.1 < y.1)%nat ->
  exists rx ry, req_ready dv x.2 = Ok rx /\ req_ready dv y.2 = Ok ry /\
    ((z = x /\ precedes rx ry x y) \/ (z = y /\ precedes ry rx y x)).
Proof.
  unfold FRFCFS.compare. intros H Hlt. apply bind_Ok in H as (rx & Hx & H).
  apply bind_Ok in H as (ry & Hy & H). exists rx, ry. do 2 (split; [done|]).
  unfold precedes. destruct rx, ry; cbn in H; injection H as <-;
    try (destruct (Z.leb_spec (arrive x.2) (arrive y.2))); naive_solver lia.
Qed.

Lemma best_loop_spec dv cand k l z :
  FRFCFS.best_loop dv cand k l = Ok z -> (cand.1 < k)%nat ->
  forall P : nat -> Request -> Prop, best_among dv cand P -> P cand.1 cand.2 ->
  (forall j y, P j y -> (j < k)%nat) ->
  best_among dv z (fun j y => P j y \/ ((k <= j)%nat /\ l !! (j - k)%nat = Some y)) /\
  (z = cand \/ ((k <= z.1)%nat /\ l !! (z.1 - k)%nat = Some z.2)).
Proof.
  revert cand k. induction l as [|r l IH]; cbn; intros cand k H Hk P Hb Hin HP.
  { injection H as <-. split; [|by left]. destruct Hb as (rx & Hrx & Hb). exists rx. split; [done|].
    intros j y [HPj|[_ Hn]]; [by apply Hb|by rewrite lookup_nil in Hn]. }
  apply bind_Ok in H as (c & Hc & H).
  destruct (compare_spec dv cand (k, r) c Hc Hk) as (rx & ry & Hrx & Hry & Hor).
  set (P' := fun j y => P j y \/ (j = k /\ y = r)).
  assert (best_among dv c P') as Hb'.
  { destruct Hb as (rx' & Hrx' & Hb). assert (rx' = rx) as -> by congruence.
    destruct Hor as [[-> Hp]|[-> Hp]].
    - exists rx. split; [done|]. intros j y [HPj|[-> ->]]; [by apply Hb|]. by exists ry.
    - exists ry. split; [done|]. intros j y [HPj|[-> ->]].
      + destruct (Hb j y HPj) as (rj & Hrj & Hpj). exists rj. split; [done|].
        by eapply precedes_trans.
      + exists ry. split; [done|]. right. auto with lia. }
  assert (P' c.1 c.2 /\ (c.1 < S k)%nat) as [Hin' Hk'].
  { destruct Hor as [[-> _]|[-> _]]; [split; [by left|lia]|split; [by right|cbn; lia]]. }
  destruct (IH c (S k) H Hk' P' Hb' Hin') as [Hbest Hz].
  { intros j y [HPj|[-> _]]; [specialize (HP _ _ HPj)|]; lia. }
  split.
  - destruct Hbest as (rz & Hrz & Hbest). exists rz. split; [done|]. intros j y Hj. apply Hbest.
    destruct Hj as [HPj|[Hge Hl]]; [by left; left|]. destruct (decide (j = k)) as [->|Hne].
    + left. right. rewrite Nat.sub_diag in Hl. cbn in Hl. split; congruence.
    + right. split; [lia|]. replace (j - k)%nat with (S (j - S k)) in Hl by lia. done.
  - destruct Hz as [->|[Hge Hl]].
    + destruct Hor as [[-> _]|[-> _]]; [by left|right]. cbn. split; [lia|]. by rewrite Nat.sub_diag.
    + right. split; [lia|]. replace (z.1 - k)%nat with (S (z.1 - S k)) by lia. done.
Qed.

Lemma get_best_request_spec dv b it b' :
  FRFCFS.get_best_request dv b = Ok (it, b') ->
  max_size b' = max_size b /\
  Forall2 (fun r r' => with_preq dv r = Ok r') (buffer b) (buffer b') /\
  (it = None <-> buffer b = []) /\
  (forall i, it = Some i -> exists r, buffer b' !! i = Some r /\
     (forall j y, buffer b' !! j = Some y -> (1 < length (buffer b'))%nat ->
        exists rx ry, req_ready dv r = Ok rx /\ req_ready dv y = Ok ry /\
        precedes rx ry (i, r) (j, y))).
Proof.
  unfold FRFCFS.get_best_request. destruct (buffer b) as [|q l] eqn:E.
  { intros H. injection H as <- <-. rewrite E. repeat split; try done. }
  intros H. apply bind_Ok in H as (l' & Hl & H). pose proof (with_preqs_Forall2 _ _ _ Hl) as HF.
  destruct l' as [|r rest]; [done|]. apply bind_Ok in H as ([i x] & Hb & H).
  injection H as <- <-. cbn [buffer max_size]. split; [done|]. split; [done|]. split; [done|].
  intros i' [= <-]. destruct rest as [|r2 rest].
  { cbn in Hb. injection Hb as <- <-. exists r. split; [done|]. cbn. lia. }
  cbn [FRFCFS.best_loop] in Hb. pose proof Hb as Hb0. apply bind_Ok in Hb0 as (c & Hc & _).
  destruct (compare_spec _ _ _ _ Hc ltac:(cbn; lia)) as (rx & ry & Hrx & Hry & _).
  change (FRFCFS.best_loop dv (0%nat, r) 1 (r2 :: rest) = Ok (i, x)) in Hb.
  destruct (best_loop_spec dv (0%nat, r) 1 (r2 :: rest) (i, x) Hb ltac:(cbn; lia)
              (fun j y => j = 0%nat /\ y = r)) as [(rz & Hrz & Hbest) Hz].
  { exists rx. split; [done|]. intros j y [-> ->]. exists rx. split; [done|]. right. auto with lia. }
  { done. }
  { intros j y [-> _]. lia. }
  cbn [fst snd] in *. exists x. split.
  - destruct Hz as [[= -> ->]|[Hge Hx]]; [done|]. destruct i as [|i]; [lia|].
    cbn in *. by rewrite Nat.sub_0_r in Hx.
  - intros j y Hj _. assert (exists ry', req_ready dv y = Ok ry' /\ precedes rz ry' (i, x) (j, y))
      as (ry' & Hy & Hp); [|by exists rz, ry'].
    apply Hbest. destruct j as [|j]; [left; by injection Hj as ->|right].
    split; [lia|]. cbn. by rewrite Nat.sub_0_r.
Qed.
End FRFCFS_facts.

#[export] Instance FRFCFS_scheduler `{D : IDRAM} : IScheduler.
Proof.
  refine {| sched_best := FRFCFS.get_best_request |}.
  intros dv b it b' (Hm & HF & _ & Hi)%get_best_request_spec. split; [done|]. split; [done|].
  intros i Hit. destruct (Hi i Hit) as (r & Hr & _). by exists r.
Defined.

(** Property C9.  First-ready, first-come-first-served: of two or more requests,
    [get_best_request] returns a request that is ready if any is, the oldest
    among those of the same readiness, and the first of equals; a single
    request is returned as it is, and [end()] exactly for an empty buffer. *)
Theorem frfcfs_first_ready_oldest `{D : IDRAM} dv b it b' :
  FRFCFS.get_best_request dv b = Ok (it, b') ->
  Forall2 (fun r r' => with_preq dv r = Ok r') (buffer b) (buffer b') /\
  (it = None <-> buffer b = []) /\
  (forall i, it = Some i -> exists r, buffer b' !! i = Some r /\
     (forall j y, buffer b' !! j = Some y -> (1 < length (buffer b'))%nat ->
        exists rx ry, req_ready dv r = Ok rx /\ req_ready dv y = Ok ry /\
        precedes rx ry (i, r) (j, y))).
Proof. intros (_ & HF & Hn & Hi)%get_best_request_spec. done. Qed.

Definition demo_read (bg row t : Z) : Request :=
  set_arrive t (set_final_command (DDR4.cmd "RD"%string) (Request_vec_type (bank_addr bg 0 row) ReqType.Read)).

Definition demo_buffer : ReqBuffer := mkReqBuffer [demo_read 0 5 3; demo_read 1 6 1] 32.

Lemma frfcfs_first_ready_oldest_witness :
  exists b', @FRFCFS.get_best_request (DDR4_dram demo_d) demo_s demo_buffer = Ok (Some 1%nat, b') /\
    exists r, buffer b' !! 1%nat = Some r.
Proof.
  assert (match @FRFCFS.get_best_request (DDR4_dram demo_d) demo_s demo_buffer with
          | Ok (Some i, _) => Nat.eqb i 1 | _ => false end = true) as Hb by (vm_compute; reflexivity).
  destruct (@FRFCFS.get_best_request (DDR4_dram demo_d) demo_s demo_buffer) as [[[i|] b']|e] eqn:E;
    try discriminate Hb.
  apply Nat.eqb_eq in Hb as ->. exists b'. split; [reflexivity|].
  destruct (frfcfs_first_ready_oldest (D := DDR4_dram demo_d) demo_s demo_buffer _ _ E) as (_ & _ & Hi).
  destruct (Hi 1%nat eq_refl) as (r & Hr & _). exists r. exact Hr.
Defined.
