(* ===== verification/Controller.v ===== *)
(** * The memory controller: [GenericDRAMController]

    Models [dram_controller/impl/generic_dram_controller.cpp], the refresh
    manager [refresh/all_bank_refresh.cpp] and the row policies
    [rowpolicy/basic_rowpolicies.cpp], for one channel with its plugins. *)
From Stdlib Require Import String.
From S2P Require Import Prelude CxxFloat Utils DramSpec Dram Request Scheduler Plugin.
Local Open Scope string_scope.
Local Open Scope Z_scope.

(** ** State *)
Record Stats : Type := mkStats {
  s_row_hits : Z; s_row_misses : Z; s_row_conflicts : Z;
  s_read_row_hits : Z; s_read_row_misses : Z; s_read_row_conflicts : Z;
  s_write_row_hits : Z; s_write_row_misses : Z; s_write_row_conflicts : Z;
  s_read_row_hits_per_core : list Z;
  s_read_row_misses_per_core : list Z;
  s_read_row_conflicts_per_core : list Z;
}.

Record Counters : Type := mkCounters {
  s_num_read_reqs : Z; s_num_write_reqs : Z; s_num_other_reqs : Z;
  s_queue_len : Z; s_read_queue_len : Z; s_write_queue_len : Z; s_priority_queue_len : Z;
  s_read_latency : Z;
}.

(** [AllBankRefresh] *)
Record Refresh : Type := mkRefresh {
  rf_clk : Z; rf_num_ranks : Z; rf_nrefi : Z; rf_ref_req_id : Z; rf_next_refresh_cycle : Z;
}.

(** [ClosedRowPolicy] *)
Record Closed : Type := mkClosed {
  cl_PRE_req_id : Z; cl_cap : Z;
  cl_rank_level : Z; cl_bankgroup_level : Z; cl_bank_level : Z;
  cl_num_ranks : Z; cl_num_bankgroups : Z; cl_num_banks : Z;
  s_num_close_reqs : Z;
  cl_col_accesses : list Z;
}.

Inductive RowPolicy : Type :=
| OpenRowPolicy
| ClosedRowPolicy (p : Closed).

Record Ctrl : Type := mkCtrl {
  m_clk : Z;
  pending : list Request;
  m_active_buffer : ReqBuffer;
  m_priority_buffer : ReqBuffer;
  m_read_buffer : ReqBuffer;
  m_write_buffer : ReqBuffer;
  m_is_write_mode : bool;
  m_refresh : Refresh;
  m_rowpolicy : RowPolicy;
  stats : Stats;
  counters : Counters;
  m_plugins : list Plugin;
}.

(** Members that [init] and [setup] fix. *)
Record CtrlConfig : Type := mkCtrlConfig {
  m_channel_id : Z;
  m_bank_addr_idx : Z;
  m_wr_low_watermark : spec_float;
  m_wr_high_watermark : spec_float;
}.

Inductive BufId : Type := BActive | BPriority | BRead | BWrite.

Definition get_buf (b : BufId) (c : Ctrl) : ReqBuffer :=
  match b with
  | BActive => m_active_buffer c | BPriority => m_priority_buffer c
  | BRead => m_read_buffer c | BWrite => m_write_buffer c
  end.

Definition set_buf (i : BufId) (b : ReqBuffer) (c : Ctrl) : Ctrl :=
  mkCtrl (m_clk c) (pending c)
    (match i with BActive => b | _ => m_active_buffer c end)
    (match i with BPriority => b | _ => m_priority_buffer c end)
    (match i with BRead => b | _ => m_read_buffer c end)
    (match i with BWrite => b | _ => m_write_buffer c end)
    (m_is_write_mode c) (m_refresh c) (m_rowpolicy c) (stats c) (counters c) (m_plugins c).

Definition set_clk (t : Z) (c : Ctrl) : Ctrl :=
  mkCtrl t (pending c) (m_active_buffer c) (m_priority_buffer c) (m_read_buffer c)
    (m_write_buffer c) (m_is_write_mode c) (m_refresh c) (m_rowpolicy c) (stats c) (counters c) (m_plugins c).

Definition set_pending (l : list Request) (c : Ctrl) : Ctrl :=
  mkCtrl (m_clk c) l (m_active_buffer c) (m_priority_buffer c) (m_read_buffer c)
    (m_write_buffer c) (m_is_write_mode c) (m_refresh c) (m_rowpolicy c) (stats c) (counters c) (m_plugins c).

Definition set_write_mode_flag (b : bool) (c : Ctrl) : Ctrl :=
  mkCtrl (m_clk c) (pending c) (m_active_buffer c) (m_priority_buffer c) (m_read_buffer c)
    (m_write_buffer c) b (m_refresh c) (m_rowpolicy c) (stats c) (counters c) (m_plugins c).

Definition set_refresh (r : Refresh) (c : Ctrl) : Ctrl :=
  mkCtrl (m_clk c) (pending c) (m_active_buffer c) (m_priority_buffer c) (m_read_buffer c)
    (m_write_buffer c) (m_is_write_mode c) r (m_rowpolicy c) (stats c) (counters c) (m_plugins c).

Definition set_rowpolicy (p : RowPolicy) (c : Ctrl) : Ctrl :=
  mkCtrl (m_clk c) (pending c) (m_active_buffer c) (m_priority_buffer c) (m_read_buffer c)
    (m_write_buffer c) (m_is_write_mode c) (m_refresh c) p (stats c) (counters c) (m_plugins c).

Definition set_stats (s : Stats) (c : Ctrl) : Ctrl :=
  mkCtrl (m_clk c) (pending c) (m_active_buffer c) (m_priority_buffer c) (m_read_buffer c)
    (m_write_buffer c) (m_is_write_mode c) (m_refresh c) (m_rowpolicy c) s (counters c) (m_plugins c).

Definition set_counters (n : Counters) (c : Ctrl) : Ctrl :=
  mkCtrl (m_clk c) (pending c) (m_active_buffer c) (m_priority_buffer c) (m_read_buffer c)
    (m_write_buffer c) (m_is_write_mode c) (m_refresh c) (m_rowpolicy c) (stats c) n (m_plugins c).

Definition set_plugins (ps : list Plugin) (c : Ctrl) : Ctrl :=
  mkCtrl (m_clk c) (pending c) (m_active_buffer c) (m_priority_buffer c) (m_read_buffer c)
    (m_write_buffer c) (m_is_write_mode c) (m_refresh c) (m_rowpolicy c) (stats c) (counters c) ps.

Section Controller.
Context `{D : IDRAM} `{S : !IScheduler}.
Context (cf : CtrlConfig).

(** ** [setup] *)
Definition refresh_setup : res Refresh :=
  ranks ← get_level_size "rank";
  nrefi ← dram_timing "nREFI";
  req ← def_of_name dram_requests "all-bank-refresh";
  Ok (mkRefresh 0 ranks nrefi req nrefi).

Definition closed_setup (cap : option Z) : res RowPolicy :=
  rank ← def_of_name dram_levels "rank";
  bg ← def_of_name dram_levels "bankgroup";
  bank ← def_of_name dram_levels "bank";
  _ ← def_of_name dram_levels "row";
  pre ← def_of_name dram_requests "close-row";
  nr ← get_level_size "rank";
  nbg ← get_level_size "bankgroup";
  nb ← get_level_size "bank";
  Ok (ClosedRowPolicy (mkClosed pre (default 10000000 cap) rank bg bank nr nbg nb 0
        (replicate (Z.to_nat (nb * nbg * nr)) 0))).

Definition new_ctrl (num_cores : nat) (rf : Refresh) (rp : RowPolicy) (ps : list Plugin) : Ctrl :=
  let z := replicate num_cores 0 in
  mkCtrl 0 [] new_buffer (mkReqBuffer [] (512 * 3 + 32)) new_buffer new_buffer false rf rp
    (mkStats 0 0 0 0 0 0 0 0 0 z z z) (mkCounters 0 0 0 0 0 0 0 0) ps.

(** ** [send] and [priority_send] *)
Definition count_req (ty d : Z) (c : Ctrl) : Ctrl :=
  let n := counters c in
  set_counters
    (mkCounters
      (if ty =? ReqType.Read then u64 (s_num_read_reqs n + d) else s_num_read_reqs n)
      (if ty =? ReqType.Write then u64 (s_num_write_reqs n + d) else s_num_write_reqs n)
      (if (ty =? ReqType.Read) || (ty =? ReqType.Write) then s_num_other_reqs n
       else u64 (s_num_other_reqs n + d))
      (s_queue_len n) (s_read_queue_len n) (s_write_queue_len n) (s_priority_queue_len n)
      (s_read_latency n)) c.

(** The request is passed by reference: the caller sees the updated fields. *)
Definition send (req : Request) (c : Ctrl) : res (bool * Request * Ctrl) :=
  fc ← lut_get dram_request_translations (type_id req);
  let req := set_final_command fc req in
  let c := count_req (type_id req) 1 c in
  if (type_id req =? ReqType.Read) &&
     existsb (fun w => addr w =? addr req) (buffer (m_write_buffer c)) then
    let req := set_depart (m_clk c + 1) req in
    Ok (true, req, set_pending (pending c ++ [req])%list c)
  else
    let req := set_arrive (m_clk c) req in
    if type_id req =? ReqType.Read then
      let '(ok, b) := enqueue req (m_read_buffer c) in
      if ok : bool then Ok (true, req, set_buf BRead b c)
      else Ok (false, set_arrive (-1) req, count_req ReqType.Read (-1) c)
    else if type_id req =? ReqType.Write then
      let '(ok, b) := enqueue req (m_write_buffer c) in
      if ok : bool then Ok (true, req, set_buf BWrite b c)
      else Ok (false, set_arrive (-1) req, count_req ReqType.Write (-1) c)
    else Err (Exc "Invalid request type!").

Definition priority_send (req : Request) (c : Ctrl) : res (bool * Ctrl) :=
  fc ← lut_get dram_request_translations (type_id req);
  let '(ok, b) := enqueue (set_final_command fc req) (m_priority_buffer c) in
  Ok (ok, set_buf BPriority b c).

(** ** [serve_completed_reads]: the completed request, if any *)
Definition add_latency (x : Z) (c : Ctrl) : Ctrl :=
  let n := counters c in
  set_counters (mkCounters (s_num_read_reqs n) (s_num_write_reqs n) (s_num_other_reqs n)
    (s_queue_len n) (s_read_queue_len n) (s_write_queue_len n) (s_priority_queue_len n)
    (u64 (s_read_latency n + x))) c.

Definition serve_completed_reads (c : Ctrl) : res (option Request * Ctrl) :=
  match pending c with
  | [] => Ok (None, c)
  | req :: rest =>
      if depart req <=? m_clk c then
        c ← (if 1 <? depart req - arrive req then
               row ← vget core_channel_latency_matrix (source_id req);
               ch ← vget (addr_vec req) 0;
               lat ← vget row ch;
               Ok (add_latency (2 * lat) (add_latency (depart req - arrive req) c))
             else Ok c);
        Ok (Some req, set_pending rest c)
      else Ok (None, c)
  end.

(** ** [AllBankRefresh::tick] *)
Fixpoint send_refreshes (ranks : list Z) (req_id : Z) (c : Ctrl) : res Ctrl :=
  match ranks with
  | [] => Ok c
  | r :: rest =>
      let av := replicate (List.length dram_levels) (-1) in
      av ← vset av 0 (m_channel_id cf);
      av ← vset av 1 r;
      '(ok, c) ← priority_send (Request_vec_type av req_id) c;
      if ok : bool then send_refreshes rest req_id c else Err (Exc "Failed to send refresh!")
  end.

Definition refresh_tick (c : Ctrl) : res Ctrl :=
  let rf := m_refresh c in
  let clk := rf_clk rf + 1 in
  if clk =? rf_next_refresh_cycle rf then
    let rf := mkRefresh clk (rf_num_ranks rf) (rf_nrefi rf) (rf_ref_req_id rf)
                (rf_next_refresh_cycle rf + rf_nrefi rf) in
    send_refreshes (seqZ 0 (rf_num_ranks rf)) (rf_ref_req_id rf) (set_refresh rf c)
  else Ok (set_refresh (mkRefresh clk (rf_num_ranks rf) (rf_nrefi rf) (rf_ref_req_id rf)
                          (rf_next_refresh_cycle rf)) c).

(** ** [set_write_mode]: sizes are compared with watermarks in [float] *)
Definition watermark (w : spec_float) (b : ReqBuffer) : spec_float := F32.mul w (F32.of_Z (max_size b)).

Definition set_write_mode (c : Ctrl) : Ctrl :=
  let wsize := F32.of_Z (buf_size (m_write_buffer c)) in
  let no_reads := buf_size (m_read_buffer c) =? 0 in
  if negb (m_is_write_mode c) then
    if fgt wsize (watermark (m_wr_high_watermark cf) (m_write_buffer c)) || no_reads
    then set_write_mode_flag true c else c
  else
    if flt wsize (watermark (m_wr_low_watermark cf) (m_write_buffer c)) && negb no_reads
    then set_write_mode_flag false c else c.

(** ** [schedule_request] *)
Fixpoint rows_match (idx : list Z) (a b : list Z) : res bool :=
  match idx with
  | [] => Ok true
  | i :: idx =>
      x ← vget a i;
      y ← vget b i;
      if negb (x =? y) && negb (x =? -1) && negb (y =? -1) then Ok false
      else rows_match idx a b
  end.

Fixpoint any_match (l : list Request) (rowgroup : list Z) : res bool :=
  match l with
  | [] => Ok false
  | r :: l =>
      m ← rows_match (seqZ 0 (m_bank_addr_idx cf + 1)) (addr_vec r) rowgroup;
      if m : bool then Ok true else any_match l rowgroup
  end.

(** The scheduler's choice from one buffer, if its command is ready. *)
Definition try_buffer (dv : dev) (i : BufId) (c : Ctrl) : res (option (BufId * nat) * Ctrl) :=
  '(it, b) ← sched_best dv (get_buf i c);
  let c := set_buf i b c in
  match it with
  | None => Ok (None, c)
  | Some k =>
      r ← vget (buffer b) (Z.of_nat k);
      ready ← req_ready dv r;
      Ok (if ready : bool then Some (i, k) else None, c)
  end.

(** The head of the priority buffer, if its command is ready. *)
Definition try_priority (dv : dev) (r : Request) (c : Ctrl) : res (option (BufId * nat) * Ctrl) :=
  r ← with_preq dv r;
  let c := set_buf BPriority
             (buf_update 0 (set_command (command r)) (m_priority_buffer c)) c in
  ready ← req_ready dv r;
  Ok (if ready : bool then Some (BPriority, 0%nat) else None, c).

Definition find_request (dv : dev) (c : Ctrl) : res (option (BufId * nat) * Ctrl) :=
  '(found, c) ← try_buffer dv BActive c;
  match found with
  | Some x => Ok (Some x, c)
  | None =>
      match buffer (m_priority_buffer c) with
      | r :: _ => try_priority dv r c
      | [] =>
          let c := set_write_mode c in
          try_buffer dv (if m_is_write_mode c then BWrite else BRead) c
      end
  end.

Definition schedule_request (dv : dev) (c : Ctrl) : res (option (BufId * nat) * Ctrl) :=
  '(found, c) ← find_request dv c;
  match found with
  | None => Ok (None, c)
  | Some (i, k) =>
      r ← vget (buffer (get_buf i c)) (Z.of_nat k);
      meta ← lut_get dram_command_meta (command r);
      if is_closing meta then
        m ← any_match (buffer (m_active_buffer c)) (addr_vec r);
        Ok (if m : bool then None else Some (i, k), c)
      else Ok (Some (i, k), c)
  end.

(** ** Row policies *)
Definition flat_bank_id (p : Closed) (bank bg rank : Z) : Z :=
  bank + bg * cl_num_banks p + rank * cl_num_banks p * cl_num_bankgroups p.

Fixpoint clear_banks (ids : list Z) (l : list Z) : res (list Z) :=
  match ids with
  | [] => Ok l
  | i :: ids => l ← vset l i 0; clear_banks ids l
  end.

Definition set_col (p : Closed) (l : list Z) (closes : Z) : Closed :=
  mkClosed (cl_PRE_req_id p) (cl_cap p) (cl_rank_level p) (cl_bankgroup_level p) (cl_bank_level p)
    (cl_num_ranks p) (cl_num_bankgroups p) (cl_num_banks p) closes l.

Definition closed_update (p : Closed) (r : Request) (c : Ctrl) : res Ctrl :=
  meta ← lut_get dram_command_meta (command r);
  rank ← vget (addr_vec r) (cl_rank_level p);
  bg ← vget (addr_vec r) (cl_bankgroup_level p);
  bank ← vget (addr_vec r) (cl_bank_level p);
  if is_closing meta || is_refreshing meta then
    let ids :=
      if (bg =? -1) && (bank =? -1) then
        b ← seqZ 0 (cl_num_banks p); g ← seqZ 0 (cl_num_bankgroups p); [flat_bank_id p b g rank]
      else if bg =? -1 then
        g ← seqZ 0 (cl_num_bankgroups p); [flat_bank_id p bank g rank]
      else [flat_bank_id p bank bg rank] in
    col ← clear_banks ids (cl_col_accesses p);
    Ok (set_rowpolicy (ClosedRowPolicy (set_col p col (s_num_close_reqs p))) c)
  else if is_accessing meta then
    let id := flat_bank_id p bank bg rank in
    n ← vget (cl_col_accesses p) id;
    let n := u64 (n + 1) in
    if u64 (cl_cap p) <=? n then
      '(_, c) ← priority_send (Request_vec_type (addr_vec r) (cl_PRE_req_id p)) c;
      col ← vset (cl_col_accesses p) id 0;
      Ok (set_rowpolicy (ClosedRowPolicy (set_col p col (s_num_close_reqs p + 1))) c)
    else
      col ← vset (cl_col_accesses p) id n;
      Ok (set_rowpolicy (ClosedRowPolicy (set_col p col (s_num_close_reqs p))) c)
  else Ok c.

Definition rowpolicy_update (found : option (BufId * nat)) (c : Ctrl) : res Ctrl :=
  match m_rowpolicy c, found with
  | ClosedRowPolicy p, Some (i, k) =>
      r ← vget (buffer (get_buf i c)) (Z.of_nat k); closed_update p r c
  | _, _ => Ok c
  end.

(** ** Plugins, in the order of the list *)
Fixpoint run_act {A} (a : Act A) (c : Ctrl) : res (A * Ctrl) :=
  match a with
  | Done r => x ← r; Ok (x, c)
  | PrioritySend req k => '(ok, c) ← priority_send req c; run_act (k ok) c
  end.

Fixpoint update_plugins (found : option Request) (ps : list Plugin) (c : Ctrl)
    : res (list Plugin * Ctrl) :=
  match ps with
  | [] => Ok ([], c)
  | p :: ps =>
      '(s, c) ← run_act (pl_update p found (pl_current p)) c;
      '(ps, c) ← update_plugins found ps c;
      Ok (pl_set p s :: ps, c)
  end.

(** [*req_it] *)
Definition found_request (found : option (BufId * nat)) (c : Ctrl) : res (option Request) :=
  match found with
  | None => Ok None
  | Some (i, k) => r ← vget (buffer (get_buf i c)) (Z.of_nat k); Ok (Some r)
  end.

Definition plugins_update (found : option (BufId * nat)) (c : Ctrl) : res Ctrl :=
  req ← found_request found c;
  '(ps, c) ← update_plugins req (m_plugins c) c;
  Ok (set_plugins ps c).

(** ** [update_request_stats] *)
Definition bump_core (l : list Z) (core : Z) : res (list Z) :=
  if core =? -1 then Ok l else n ← vget l core; vset l core (u64 (n + 1)).

Definition update_request_stats (dv : dev) (r : Request) (s : Stats) : res Stats :=
  if type_id r =? ReqType.Read then
    hit ← dram_check_rowbuffer_hit (final_command r) (addr_vec r) dv;
    if hit : bool then
      pc ← bump_core (s_read_row_hits_per_core s) (source_id r);
      Ok (mkStats (u64 (s_row_hits s + 1)) (s_row_misses s) (s_row_conflicts s)
            (u64 (s_read_row_hits s + 1)) (s_read_row_misses s) (s_read_row_conflicts s)
            (s_write_row_hits s) (s_write_row_misses s) (s_write_row_conflicts s)
            pc (s_read_row_misses_per_core s) (s_read_row_conflicts_per_core s))
    else
      open ← dram_check_node_open (final_command r) (addr_vec r) dv;
      if open : bool then
        pc ← bump_core (s_read_row_conflicts_per_core s) (source_id r);
        Ok (mkStats (s_row_hits s) (s_row_misses s) (u64 (s_row_conflicts s + 1))
              (s_read_row_hits s) (s_read_row_misses s) (u64 (s_read_row_conflicts s + 1))
              (s_write_row_hits s) (s_write_row_misses s) (s_write_row_conflicts s)
              (s_read_row_hits_per_core s) (s_read_row_misses_per_core s) pc)
      else
        pc ← bump_core (s_read_row_misses_per_core s) (source_id r);
        Ok (mkStats (s_row_hits s) (u64 (s_row_misses s + 1)) (s_row_conflicts s)
              (s_read_row_hits s) (u64 (s_read_row_misses s + 1)) (s_read_row_conflicts s)
              (s_write_row_hits s) (s_write_row_misses s) (s_write_row_conflicts s)
              (s_read_row_hits_per_core s) pc (s_read_row_conflicts_per_core s))
  else if type_id r =? ReqType.Write then
    hit ← dram_check_rowbuffer_hit (final_command r) (addr_vec r) dv;
    open ← (if hit : bool then Ok false else dram_check_node_open (final_command r) (addr_vec r) dv);
    Ok (mkStats (if hit : bool then u64 (s_row_hits s + 1) else s_row_hits s)
          (if hit || open then s_row_misses s else u64 (s_row_misses s + 1))
          (if open : bool then u64 (s_row_conflicts s + 1) else s_row_conflicts s)
          (s_read_row_hits s) (s_read_row_misses s) (s_read_row_conflicts s)
          (if hit : bool then u64 (s_write_row_hits s + 1) else s_write_row_hits s)
          (if hit || open then s_write_row_misses s else u64 (s_write_row_misses s + 1))
          (if open : bool then u64 (s_write_row_conflicts s + 1) else s_write_row_conflicts s)
          (s_read_row_hits_per_core s) (s_read_row_misses_per_core s)
          (s_read_row_conflicts_per_core s))
  else Ok s.

(** ** Step 4 of [tick]: issue the command and move the request *)
Definition issue_found (dv : dev) (i : BufId) (k : nat) (c : Ctrl) : res (dev * Ctrl) :=
  r ← vget (buffer (get_buf i c)) (Z.of_nat k);
  st ← (if is_stat_updated r then Ok (stats c) else update_request_stats dv r (stats c));
  let r := set_stat_updated true r in
  let c := set_buf i (buf_update k (set_stat_updated true) (get_buf i c)) (set_stats st c) in
  dv ← dram_issue_command (command r) (addr_vec r) dv;
  if command r =? final_command r then
    let c := if type_id r =? ReqType.Read
             then set_pending (pending c ++ [set_depart (m_clk c + dram_read_latency) r])%list c
             else c in
    Ok (dv, set_buf i (remove k (get_buf i c)) c)
  else
    meta ← lut_get dram_command_meta (command r);
    if is_opening meta then
      let c := set_buf BActive (enqueue r (m_active_buffer c)).2 c in
      Ok (dv, set_buf i (remove k (get_buf i c)) c)
    else Ok (dv, c).

(** ** [tick]: the device, the controller and the read it completes *)
Definition count_queues (c : Ctrl) : Ctrl :=
  let n := counters c in
  let p := Z.of_nat (List.length (pending c)) in
  set_counters
    (mkCounters (s_num_read_reqs n) (s_num_write_reqs n) (s_num_other_reqs n)
      (u64 (s_queue_len n + (buf_size (m_read_buffer c) + buf_size (m_write_buffer c) +
                             buf_size (m_priority_buffer c) + p)))
      (u64 (s_read_queue_len n + (buf_size (m_read_buffer c) + p)))
      (u64 (s_write_queue_len n + buf_size (m_write_buffer c)))
      (u64 (s_priority_queue_len n + buf_size (m_priority_buffer c)))
      (s_read_latency n)) c.

Definition tick (dv : dev) (c : Ctrl) : res (option Request * dev * Ctrl) :=
  let c := count_queues (set_clk (m_clk c + 1) c) in
  '(done, c) ← serve_completed_reads c;
  c ← refresh_tick c;
  '(found, c) ← schedule_request dv c;
  c ← rowpolicy_update found c;
  c ← plugins_update found c;
  match found with
  | None => Ok (done, dv, c)
  | Some (i, k) => x ← issue_found dv i k c; Ok (done, x.1, x.2)
  end.

(** ** [finalize]: the averages, in [float], and the totals over all controllers *)
Record Averages : Type := mkAverages {
  s_avg_read_latency : spec_float;
  s_queue_len_avg : spec_float;
  s_read_queue_len_avg : spec_float;
  s_write_queue_len_avg : spec_float;
  s_priority_queue_len_avg : spec_float;
}.

Definition finalize (c : Ctrl) (overall_latency overall_request : Z) : Averages * Z * Z :=
  let n := counters c in
  let per_cycle x := F32.div (F32.of_Z x) (F32.of_Z (m_clk c)) in
  (mkAverages (F32.div (F32.of_Z (s_read_latency n)) (F32.of_Z (s_num_read_reqs n)))
     (per_cycle (s_queue_len n)) (per_cycle (s_read_queue_len n)) (per_cycle (s_write_queue_len n))
     (per_cycle (s_priority_queue_len n)),
   u64 (overall_latency + s_read_latency n), u64 (overall_request + s_num_read_reqs n)).
End Controller.
