(* ===== verification/ControllerFacts.v ===== *)
(** * Correctness of the memory controller

    A tick issues at most one command, one that the device accepts and that the
    scheduled request needs; no request is lost or duplicated. *)
From Stdlib Require Import String.
From S2P Require Import Prelude CxxFloat Utils DramSpec DDR4 DDR4Facts Dram Request Scheduler.
From S2P Require Import Plugin Controller.
Local Open Scope string_scope.
Local Open Scope Z_scope.

(** ** The identity of a request: the fields that service does not change *)
Definition rkey (r : Request) : Request := set_command 0 (set_stat_updated false (set_depart 0 r)).

Definition keys (b : ReqBuffer) : list Request := rkey <$> buffer b.

(** All requests a controller holds. *)
Definition live (c : Ctrl) : list Request :=
  ((rkey <$> pending c) ++ keys (m_active_buffer c) ++ keys (m_priority_buffer c) ++
   keys (m_read_buffer c) ++ keys (m_write_buffer c))%list.

(** Equal but for the commands of buffered requests and the write mode. *)
Record same_reqs (c c' : Ctrl) : Prop := {
  sr_clk : m_clk c' = m_clk c;
  sr_pending : pending c' = pending c;
  sr_refresh : m_refresh c' = m_refresh c;
  sr_policy : m_rowpolicy c' = m_rowpolicy c;
  sr_stats : stats c' = stats c;
  sr_counters : counters c' = counters c;
  sr_plugins : m_plugins c' = m_plugins c;
  sr_keys : forall i, keys (get_buf i c') = keys (get_buf i c);
  sr_max : forall i, max_size (get_buf i c') = max_size (get_buf i c);
}.

#[export] Instance same_reqs_refl : Reflexive same_reqs.
Proof. by constructor. Qed.

#[export] Instance same_reqs_trans : Transitive same_reqs.
Proof.
  intros a b c [] []. constructor; try congruence; intros i; etrans; eauto.
Qed.

Lemma same_reqs_live c c' : same_reqs c c' -> live c' = live c.
Proof.
  intros [_ Hp _ _ _ _ _ Hk _]. unfold live. rewrite Hp.
  pose proof (Hk BActive) as Ha. pose proof (Hk BPriority) as Hq. pose proof (Hk BRead) as Hr.
  pose proof (Hk BWrite) as Hw. cbn in Ha, Hq, Hr, Hw. by rewrite Ha, Hq, Hr, Hw.
Qed.

#[local] Instance BufId_eq_dec : EqDecision BufId.
Proof. solve_decision. Defined.

Lemma get_set_same i b c : get_buf i (set_buf i b c) = b.
Proof. by destruct i. Qed.

Lemma get_set_other i j b c : i <> j -> get_buf i (set_buf j b c) = get_buf i c.
Proof. by destruct i, j. Qed.

Lemma same_reqs_set_buf i b c :
  keys b = keys (get_buf i c) -> max_size b = max_size (get_buf i c) -> same_reqs c (set_buf i b c).
Proof.
  intros Hk Hm. constructor; try done; intros j; destruct (decide (j = i)) as [->|Hne];
    rewrite ?get_set_same, ?get_set_other by done; done.
Qed.

Section Facts.
Context `{D : IDRAM} `{Sch : !IScheduler}.
Context (cf : CtrlConfig).

(** What a scheduled request satisfies on the current device. *)
Record issuable (dv : dev) (r : Request) : Prop := {
  iss_ready : dram_check_ready (command r) (addr_vec r) dv = Ok true;
  iss_preq : dram_get_preq_command (final_command r) (addr_vec r) dv = Ok (command r);
}.

Lemma with_preq_Ok dv r r' :
  with_preq dv r = Ok r' ->
  rkey r' = rkey r /\ dram_get_preq_command (final_command r') (addr_vec r') dv = Ok (command r').
Proof.
  unfold with_preq. intros H. apply bind_Ok in H as (x & Hx & H). injection H as <-. done.
Qed.

Lemma Forall2_keys dv l l' :
  Forall2 (fun r r' => with_preq dv r = Ok r') l l' -> rkey <$> l' = rkey <$> l.
Proof.
  induction 1 as [|r r' l l' H _ IH]; [done|]. cbn. apply with_preq_Ok in H as [H _]. by rewrite H, IH.
Qed.

Lemma try_buffer_spec dv i c found c' :
  try_buffer dv i c = Ok (found, c') ->
  same_reqs c c' /\
  forall j k, found = Some (j, k) -> j = i /\
    exists r, buffer (get_buf i c') !! k = Some r /\ issuable dv r.
Proof.
  unfold try_buffer. intros H. apply bind_Ok in H as ([it b] & Hb & H).
  destruct (sched_best_spec dv _ _ _ Hb) as (Hm & HF & Hin).
  assert (same_reqs c (set_buf i b c)) as Hs by (apply same_reqs_set_buf; [by eapply Forall2_keys|done]).
  destruct it as [k|]; [|injection H as <- <-; by split].
  apply bind_Ok in H as (r & [_ Hr]%vget_Ok & H). apply bind_Ok in H as (ready & Hrd & H).
  injection H as <- <-. split; [done|]. intros j k' Heq. destruct ready; [|done]. injection Heq as <- <-.
  split; [done|]. exists r. rewrite get_set_same. rewrite Nat2Z.id in Hr. split; [done|].
  constructor; [done|].
  destruct (Forall2_lookup_r _ _ _ _ _ HF Hr) as (r0 & _ & Hw). by apply with_preq_Ok in Hw as [_ ?].
Qed.

Lemma alter_keys f k (l : list Request) :
  (forall r, rkey (f r) = rkey r) -> rkey <$> alter f k l = rkey <$> l.
Proof.
  intros Hf. revert k. induction l as [|r l IH]; intros [|k]; cbn; try done; [by rewrite Hf|].
  f_equal. apply IH.
Qed.

Lemma try_priority_spec dv r0 c found c' :
  buffer (m_priority_buffer c) !! 0%nat = Some r0 ->
  try_priority dv r0 c = Ok (found, c') ->
  same_reqs c c' /\
  forall j k, found = Some (j, k) -> exists r, buffer (get_buf j c') !! k = Some r /\ issuable dv r.
Proof.
  unfold try_priority. intros Hr0 H. apply bind_Ok in H as (r & Hr & H).
  apply bind_Ok in H as (ready & Hrd & H). injection H as <- <-. split.
  - apply same_reqs_set_buf; [|done]. by apply alter_keys.
  - intros j k Heq. destruct ready; [|done]. injection Heq as <- <-. exists r.
    rewrite get_set_same. cbn. rewrite list_lookup_alter, Hr0. cbn.
    unfold with_preq in Hr. apply bind_Ok in Hr as (x & Hx & Hr). injection Hr as <-.
    split; [done|]. by constructor.
Qed.

Lemma set_write_mode_same c : same_reqs c (set_write_mode cf c).
Proof.
  unfold set_write_mode. repeat case_match; (constructor; try done; by intros []).
Qed.

Lemma find_request_spec dv c found c' :
  find_request cf dv c = Ok (found, c') ->
  same_reqs c c' /\
  forall j k, found = Some (j, k) -> exists r, buffer (get_buf j c') !! k = Some r /\ issuable dv r.
Proof.
  unfold find_request. intros H. apply bind_Ok in H as ([f1 c1] & H1 & H).
  apply try_buffer_spec in H1 as [Hs1 Hf1]. destruct f1 as [[j1 k1]|].
  { injection H as <- <-. split; [done|]. intros j k [= <- <-].
    destruct (Hf1 _ _ eq_refl) as [-> ?]. done. }
  destruct (buffer (m_priority_buffer c1)) as [|r l] eqn:E.
  - apply try_buffer_spec in H as [Hs2 Hf2]. split.
    + etrans; [done|]. etrans; [apply set_write_mode_same|done].
    + intros j k Heq. destruct (Hf2 _ _ Heq) as [-> ?]. done.
  - eapply try_priority_spec in H as [Hs2 Hf2]; [|by rewrite E]. split; [by etrans|done].
Qed.

(** A closing command spares the banks of active requests. *)
Definition spares_active (c : Ctrl) (r : Request) : Prop :=
  forall meta, lut_get dram_command_meta (command r) = Ok meta -> is_closing meta = true ->
    any_match cf (buffer (m_active_buffer c)) (addr_vec r) = Ok false.

Lemma schedule_request_spec dv c found c' :
  schedule_request cf dv c = Ok (found, c') ->
  same_reqs c c' /\
  forall j k, found = Some (j, k) -> exists r, buffer (get_buf j c') !! k = Some r /\
    issuable dv r /\ spares_active c' r.
Proof.
  unfold schedule_request. intros H. apply bind_Ok in H as ([f1 c1] & H1 & H).
  apply find_request_spec in H1 as [Hs Hf]. destruct f1 as [[j1 k1]|]; [|injection H as <- <-; by split].
  destruct (Hf _ _ eq_refl) as (r & Hr & Hi).
  apply bind_Ok in H as (r' & [_ Hr']%vget_Ok & H). rewrite Nat2Z.id, Hr in Hr'. injection Hr' as <-.
  apply bind_Ok in H as (meta & Hm & H). destruct (is_closing meta) eqn:Hc.
  - apply bind_Ok in H as (m & Hmatch & H). injection H as <- <-. split; [done|].
    intros j k Heq. destruct m; [done|]. injection Heq as <- <-. exists r. split; [done|].
    split; [done|]. intros meta' _ _. done.
  - injection H as <- <-. split; [done|]. intros j k [= <- <-]. exists r. split; [done|].
    split; [done|]. intros meta' Hm' Hc'. congruence.
Qed.

(** ** Requests that the refresh manager and the row policy add *)
Record adds_priority (c c' : Ctrl) (l : list Request) : Prop := {
  ap_clk : m_clk c' = m_clk c;
  ap_pending : pending c' = pending c;
  ap_active : m_active_buffer c' = m_active_buffer c;
  ap_read : m_read_buffer c' = m_read_buffer c;
  ap_write : m_write_buffer c' = m_write_buffer c;
  ap_priority : buffer (m_priority_buffer c') = (buffer (m_priority_buffer c) ++ l)%list;
  ap_max : max_size (m_priority_buffer c') = max_size (m_priority_buffer c);
  ap_plugins : m_plugins c' = m_plugins c;
}.

Lemma adds_nil c c' :
  m_clk c' = m_clk c -> pending c' = pending c -> m_active_buffer c' = m_active_buffer c ->
  m_read_buffer c' = m_read_buffer c -> m_write_buffer c' = m_write_buffer c ->
  m_priority_buffer c' = m_priority_buffer c -> m_plugins c' = m_plugins c -> adds_priority c c' [].
Proof. intros. constructor; try done; rewrite ?app_nil_r; congruence. Qed.

Lemma adds_trans a b c l1 l2 :
  adds_priority a b l1 -> adds_priority b c l2 -> adds_priority a c (l1 ++ l2)%list.
Proof. intros [] []. constructor; try congruence. rewrite app_assoc. congruence. Qed.

Lemma adds_live c c' l : adds_priority c c' l -> live c' ≡ₚ (live c ++ (rkey <$> l))%list.
Proof.
  intros [_ Hp Ha Hr Hw Hq _ _]. unfold live, keys. rewrite Hp, Ha, Hr, Hw, Hq, fmap_app. solve_Permutation.
Qed.

Lemma adds_lookup c c' l i k r :
  adds_priority c c' l -> buffer (get_buf i c) !! k = Some r -> buffer (get_buf i c') !! k = Some r.
Proof.
  intros [_ _ Ha Hr Hw Hq _ _] Hk. destruct i; cbn in *; rewrite ?Ha, ?Hr, ?Hw; try done.
  rewrite Hq. by apply lookup_app_l_Some.
Qed.

Lemma priority_send_spec req c ok c' :
  priority_send req c = Ok (ok, c') ->
  exists l, adds_priority c c' l /\ Forall (fun r => exists fc, r = set_final_command fc req) l /\
    (ok = true -> length l = 1%nat) /\ m_refresh c' = m_refresh c /\ m_rowpolicy c' = m_rowpolicy c.
Proof.
  unfold priority_send. intros H. apply bind_Ok in H as (fc & _ & H).
  destruct (enqueue _ _) as [b buf] eqn:E. injection H as <- <-. destruct b.
  - apply enqueue_true in E as [-> _]. eexists [_]. split; [by constructor|].
    split; [constructor; [by eexists|constructor]|]. done.
  - apply enqueue_false in E as [-> _]. exists []. split; [apply adds_nil; done|]. by repeat split.
Qed.

Lemma sent_type req l :
  Forall (fun r => exists fc, r = set_final_command fc req) l -> Forall (fun r => type_id r = type_id req) l.
Proof. apply Forall_impl. by intros r [fc ->]. Qed.

Lemma send_refreshes_spec ranks req_id c c' :
  send_refreshes cf ranks req_id c = Ok c' ->
  exists l, adds_priority c c' l /\ Forall (fun r => type_id r = req_id) l /\
    length l = length ranks /\ m_refresh c' = m_refresh c /\ m_rowpolicy c' = m_rowpolicy c.
Proof.
  revert c. induction ranks as [|r ranks IH]; cbn; intros c H.
  { injection H as <-. exists []. split; [by apply adds_nil|]. by repeat split. }
  apply bind_Ok in H as (av & _ & H). apply bind_Ok in H as (av' & _ & H).
  apply bind_Ok in H as ([ok c1] & Hs & H). destruct ok; [|done].
  apply priority_send_spec in Hs as (l1 & Ha1 & Hf1%sent_type & Hn1 & Hr1 & Hp1).
  destruct (IH _ H) as (l2 & Ha2 & Hf2 & Hn2 & Hr2 & Hp2). exists (l1 ++ l2)%list.
  split; [by eapply adds_trans|]. split; [by apply Forall_app|].
  rewrite length_app, (Hn1 eq_refl), Hn2. split; [done|]. split; congruence.
Qed.

Lemma refresh_tick_spec c c' :
  refresh_tick cf c = Ok c' ->
  exists l, adds_priority c c' l /\ Forall (fun r => type_id r = rf_ref_req_id (m_refresh c)) l /\
    m_rowpolicy c' = m_rowpolicy c.
Proof.
  unfold refresh_tick. cbv zeta. destruct (_ =? _); intros H.
  - apply send_refreshes_spec in H as (l & Ha & Hf & _ & _ & Hp). exists l. split; [by destruct Ha|done].
  - injection H as <-. exists []. by split; [apply adds_nil|].
Qed.

Definition policy_req_id (c : Ctrl) : option Z :=
  match m_rowpolicy c with OpenRowPolicy => None | ClosedRowPolicy p => Some (cl_PRE_req_id p) end.

Lemma closed_update_spec p r c c' :
  closed_update p r c = Ok c' -> exists l, adds_priority c c' l /\ Forall (fun r => type_id r = cl_PRE_req_id p) l.
Proof.
  unfold closed_update. intros H.
  apply bind_Ok in H as (meta & _ & H). apply bind_Ok in H as (rank & _ & H).
  apply bind_Ok in H as (bg & _ & H). apply bind_Ok in H as (bank & _ & H).
  destruct (is_closing meta || is_refreshing meta).
  { apply bind_Ok in H as (col & _ & H). injection H as <-. exists []. by split; [apply adds_nil|]. }
  destruct (is_accessing meta); [|injection H as <-; exists []; by split; [apply adds_nil|]].
  apply bind_Ok in H as (n & _ & H). destruct (_ <=? _).
  - apply bind_Ok in H as ([ok c1] & Hs & H). apply bind_Ok in H as (col & _ & H). injection H as <-.
    apply priority_send_spec in Hs as (l & Ha & Hf%sent_type & _). exists l. split; [by destruct Ha|done].
  - apply bind_Ok in H as (col & _ & H). injection H as <-. exists []. by split; [apply adds_nil|].
Qed.

Lemma rowpolicy_update_spec found c c' :
  rowpolicy_update found c = Ok c' ->
  exists l, adds_priority c c' l /\ Forall (fun r => Some (type_id r) = policy_req_id c) l.
Proof.
  unfold rowpolicy_update, policy_req_id. destruct (m_rowpolicy c) as [|p] eqn:Ep, found as [[i k]|];
    try (intros H; injection H as <-; exists []; by split; [apply adds_nil|]).
  intros H. apply bind_Ok in H as (r & _ & H). apply closed_update_spec in H as (l & Ha & Hf). exists l. split; [done|].
  eapply Forall_impl; [|exact Hf]. cbn. by intros ? ->.
Qed.

(** Running a plugin adds requests to the priority buffer, and only such as its
    program sends. *)
Lemma run_act_spec {A} (P : Request -> Prop) (a : Act A) c x c' :
  (forall r fc, P r -> P (set_final_command fc r)) ->
  Sends P a -> run_act a c = Ok (x, c') -> exists l, adds_priority c c' l /\ Forall P l.
Proof.
  intros HP. revert c. induction a as [r|req k IH]; cbn [Sends run_act]; intros c Hs H.
  - apply bind_Ok in H as (y & _ & H). injection H as _ <-. exists []. by split; [apply adds_nil|].
  - destruct Hs as [Hreq Hk]. apply bind_Ok in H as ([ok c1] & H1 & H).
    apply priority_send_spec in H1 as (l1 & Ha1 & Hf1 & _). destruct (IH ok c1 (Hk ok) H) as (l2 & Ha2 & Hl2).
    exists (l1 ++ l2)%list. split; [by eapply adds_trans|]. apply Forall_app. split; [|done].
    eapply Forall_impl; [|exact Hf1]. intros r [fc ->]. by apply HP.
Qed.

Lemma update_plugins_spec (P : Request -> Prop) found ps c ps' c' :
  (forall r fc, P r -> P (set_final_command fc r)) -> (forall r, same_channel found r -> P r) ->
  update_plugins found ps c = Ok (ps', c') ->
  exists l, adds_priority c c' l /\ Forall P l /\ (ps = [] -> l = []).
Proof.
  intros HP Hf. revert c ps'. induction ps as [|p ps IH]; cbn [update_plugins]; intros c ps' H.
  { injection H as _ <-. exists []. split; [by apply adds_nil|]. by split. }
  apply bind_Ok in H as ([s c1] & H1 & H). apply bind_Ok in H as ([ps1 c2] & H2 & H). injection H as _ <-.
  eapply (run_act_spec P) in H1 as (l1 & Ha1 & Hl1); [|done|by eapply Sends_impl, pl_sends].
  apply IH in H2 as (l2 & Ha2 & Hl2 & _). exists (l1 ++ l2)%list. split; [by eapply adds_trans|].
  split; [by apply Forall_app|done].
Qed.

(** What exactly the plugins send: the requests of their programs that the
    priority buffer takes when it has [n] free places, with their commands. *)
Fixpoint accepted {A} (n : Z) (a : Act A) : list Request :=
  match a with
  | Done _ => []
  | PrioritySend req k => if 0 <? n then req :: accepted (n - 1) (k true) else accepted n (k false)
  end.

Fixpoint accepted_all (n : Z) (q : option Request) (ps : list Plugin) : list Request :=
  match ps with
  | [] => []
  | p :: ps =>
      let l := accepted n (pl_update p q (pl_current p)) in
      (l ++ accepted_all (n - Z.of_nat (List.length l)) q ps)%list
  end.

Definition places (b : ReqBuffer) : Z := max_size b + 1 - buf_size b.

Definition prioritised (r : Request) : Request :=
  set_final_command (from_res 0 (lut_get dram_request_translations (type_id r))) r.

Lemma places_adds c c' l : adds_priority c c' l ->
  places (m_priority_buffer c') = places (m_priority_buffer c) - Z.of_nat (List.length l).
Proof. intros H. unfold places, buf_size. rewrite (ap_max _ _ _ H), (ap_priority _ _ _ H), length_app. lia. Qed.

Lemma priority_send_accepted req c ok c' : priority_send req c = Ok (ok, c') ->
  ok = (0 <? places (m_priority_buffer c)) /\ adds_priority c c' (if ok then [prioritised req] else []).
Proof.
  unfold priority_send, prioritised. intros H. apply bind_Ok in H as (fc & Hfc & H). rewrite Hfc. cbn [from_res].
  unfold enqueue, places in *. destruct (Z.leb_spec (buf_size (m_priority_buffer c)) (max_size (m_priority_buffer c)));
    injection H as <- <-.
  - split; [symmetry; apply Z.ltb_lt; lia|by constructor].
  - split; [symmetry; apply Z.ltb_ge; lia|by apply adds_nil].
Qed.

Lemma run_act_accepted {A} (a : Act A) c x c' : run_act a c = Ok (x, c') ->
  adds_priority c c' (prioritised <$> accepted (places (m_priority_buffer c)) a).
Proof.
  revert c. induction a as [r|req k IH]; cbn [run_act accepted]; intros c H.
  - apply bind_Ok in H as (y & _ & H). injection H as _ <-. by apply adds_nil.
  - apply bind_Ok in H as ([ok c1] & H1 & H). apply priority_send_accepted in H1 as [-> Ha].
    pose proof (IH _ _ H) as Hr. pose proof (places_adds _ _ _ Ha) as Hp. destruct (0 <? _).
    + rewrite Hp in Hr. exact (adds_trans _ _ _ _ _ Ha Hr).
    + replace (places (m_priority_buffer c1)) with (places (m_priority_buffer c)) in Hr by (cbn in Hp; lia).
      exact (adds_trans _ _ _ _ _ Ha Hr).
Qed.

Lemma update_plugins_accepted q ps c ps' c' : update_plugins q ps c = Ok (ps', c') ->
  adds_priority c c' (prioritised <$> accepted_all (places (m_priority_buffer c)) q ps).
Proof.
  revert c ps'. induction ps as [|p ps IH]; cbn [update_plugins accepted_all]; intros c ps' H.
  { injection H as _ <-. by apply adds_nil. }
  apply bind_Ok in H as ([s c1] & H1 & H). apply bind_Ok in H as ([ps1 c2] & H2 & H). injection H as _ <-.
  apply run_act_accepted in H1. apply IH in H2. rewrite (places_adds _ _ _ H1), length_fmap in H2.
  rewrite fmap_app. by eapply adds_trans.
Qed.

Lemma plugins_update_accepted found q c c' : found_request found c = Ok q -> plugins_update found c = Ok c' ->
  exists c1, adds_priority c c1 (prioritised <$> accepted_all (places (m_priority_buffer c)) q (m_plugins c)) /\
    c' = set_plugins (m_plugins c') c1.
Proof.
  intros Hq H. unfold plugins_update in H. rewrite Hq, bind_Ok_l in H.
  apply bind_Ok in H as ([ps c1] & Hu & H). injection H as <-. exists c1. split; [|done].
  by eapply update_plugins_accepted.
Qed.

Lemma found_request_adds found q c c' l :
  adds_priority c c' l -> found_request found c = Ok q -> found_request found c' = Ok q.
Proof.
  intros Ha. unfold found_request. destruct found as [[i k]|]; [|done]. intros H.
  apply bind_Ok in H as (r & [H0 Hr]%vget_Ok & H).
  assert (vget (buffer (get_buf i c')) (Z.of_nat k) = Ok r) as ->; [|done].
  apply vget_Ok. split; [done|]. by eapply adds_lookup.
Qed.

Lemma found_request_Ok found c :
  (forall j k, found = Some (j, k) -> exists r, buffer (get_buf j c) !! k = Some r) ->
  exists q, found_request found c = Ok q /\
    match found, q with
    | None, None => True
    | Some (j, k), Some r => buffer (get_buf j c) !! k = Some r
    | _, _ => False
    end.
Proof.
  intros H. unfold found_request. destruct found as [[j k]|]; [|by exists None].
  destruct (H j k eq_refl) as [r Hr]. exists (Some r). split; [|done].
  assert (vget (buffer (get_buf j c)) (Z.of_nat k) = Ok r) as ->; [|done].
  apply vget_Ok. rewrite Nat2Z.id. split; [lia|done].
Qed.

(** The controller after its plugins but for the plugins themselves. *)
Lemma plugins_update_spec (P : Request -> Prop) found c c' :
  (forall r fc, P r -> P (set_final_command fc r)) ->
  (forall i k r q, found = Some (i, k) -> buffer (get_buf i c) !! k = Some q ->
     addr_vec r !! 0%nat = addr_vec q !! 0%nat -> P r) ->
  plugins_update found c = Ok c' ->
  exists l c1, adds_priority c c1 l /\ Forall P l /\ (m_plugins c = [] -> l = []) /\
    c' = set_plugins (m_plugins c') c1.
Proof.
  intros HP Hf H. unfold plugins_update in H. apply bind_Ok in H as (req & Hreq & H).
  apply bind_Ok in H as ([ps c1] & Hu & H). injection H as <-.
  eapply (update_plugins_spec P) in Hu as (l & Ha & Hl & Hn); [|done|].
  - exists l, c1. by split; [|split; [|split]].
  - intros r (q & -> & Hq). unfold found_request in Hreq. destruct found as [[i k]|]; [|done].
    apply bind_Ok in Hreq as (q' & [_ Hq']%vget_Ok & E). injection E as <-. rewrite Nat2Z.id in Hq'.
    by eapply Hf.
Qed.

(** ** Issuing *)
Lemma delete_keys k (l : list Request) r :
  l !! k = Some r -> rkey <$> l ≡ₚ rkey r :: (rkey <$> delete k l).
Proof. intros H. by rewrite (delete_Permutation l k r H) at 1. Qed.

(** [live] split at one buffer. *)
Definition rest_live (i : BufId) (c : Ctrl) : list Request :=
  ((rkey <$> pending c) ++
   (if decide (i = BActive) then [] else keys (m_active_buffer c)) ++
   (if decide (i = BPriority) then [] else keys (m_priority_buffer c)) ++
   (if decide (i = BRead) then [] else keys (m_read_buffer c)) ++
   (if decide (i = BWrite) then [] else keys (m_write_buffer c)))%list.

Lemma live_split i c : live c ≡ₚ (keys (get_buf i c) ++ rest_live i c)%list.
Proof. unfold live, rest_live. destruct i; cbn; solve_Permutation. Qed.

Lemma rest_live_set i b c : rest_live i (set_buf i b c) = rest_live i c.
Proof. unfold rest_live. by destruct i. Qed.

Lemma live_set i b c : live (set_buf i b c) ≡ₚ (keys b ++ rest_live i c)%list.
Proof. by rewrite (live_split i), rest_live_set, get_set_same. Qed.

Lemma live_remove i k c r :
  buffer (get_buf i c) !! k = Some r ->
  live c ≡ₚ rkey r :: live (set_buf i (remove k (get_buf i c)) c).
Proof.
  intros H. rewrite (live_split i c), live_set. unfold keys, remove. cbn.
  by rewrite (delete_keys _ _ _ H).
Qed.

Lemma live_pending l c : live (set_pending (pending c ++ l)%list c) ≡ₚ ((rkey <$> l) ++ live c)%list.
Proof. unfold live. cbn. rewrite fmap_app. solve_Permutation. Qed.

(** The request that step 4 works on, in the updated buffer. *)
Lemma stat_update_live i k c r st :
  buffer (get_buf i c) !! k = Some r ->
  let c1 := set_buf i (buf_update k (set_stat_updated true) (get_buf i c)) (set_stats st c) in
  live c1 = live c /\ buffer (get_buf i c1) !! k = Some (set_stat_updated true r).
Proof.
  intros H c1. split.
  - assert (keys (buf_update k (set_stat_updated true) (get_buf i c)) = keys (get_buf i c)) as Hk.
    { unfold keys, buf_update. cbn. by apply alter_keys. }
    unfold c1, live. destruct i; cbn in *; by rewrite Hk.
  - unfold c1. rewrite get_set_same. unfold buf_update. cbn [buffer]. by rewrite list_lookup_alter_eq, H.
Qed.

Lemma stat_update_size i k c st :
  let c1 := set_buf i (buf_update k (set_stat_updated true) (get_buf i c)) (set_stats st c) in
  buf_size (m_active_buffer c1) = buf_size (m_active_buffer c) /\
  max_size (m_active_buffer c1) = max_size (m_active_buffer c).
Proof. intros c1. unfold c1, buf_size. destruct i; try done. cbn. rewrite length_alter. done. Qed.

Lemma active_enqueue_live r c :
  buf_size (m_active_buffer c) <= max_size (m_active_buffer c) ->
  live (set_buf BActive (enqueue r (m_active_buffer c)).2 c) ≡ₚ rkey r :: live c.
Proof.
  intros Hsz. unfold enqueue. rewrite (proj2 (Z.leb_le _ _) Hsz). cbn [snd].
  rewrite live_set, (live_split BActive c). unfold keys. cbn. rewrite fmap_app. solve_Permutation.
Qed.

Lemma active_enqueue_lookup i k r q c :
  buffer (get_buf i c) !! k = Some q ->
  buffer (get_buf i (set_buf BActive (enqueue r (m_active_buffer c)).2 c)) !! k = Some q.
Proof.
  intros H. destruct i; try done. cbn in *. unfold enqueue. destruct (_ <=? _); [|done].
  by apply lookup_app_l_Some.
Qed.

(** A request leaves for good when its final command is issued, unless it is a
    read, which waits for its data. *)
Definition finished (q : option Request) : list Request :=
  match q with
  | Some r => if (command r =? final_command r) && negb (type_id r =? ReqType.Read) then [rkey r] else []
  | None => []
  end.

Lemma issue_found_spec dv i k c r dv' c' :
  buffer (get_buf i c) !! k = Some r ->
  issue_found dv i k c = Ok (dv', c') ->
  dram_issue_command (command r) (addr_vec r) dv = Ok dv' /\
  (buf_size (m_active_buffer c) <= max_size (m_active_buffer c) ->
   (live c' ++ finished (Some r))%list ≡ₚ live c).
Proof.
  intros Hr H. unfold finished. unfold issue_found in H. apply bind_Ok in H as (r0 & [_ Hr0]%vget_Ok & H).
  rewrite Nat2Z.id, Hr in Hr0. injection Hr0 as <-. apply bind_Ok in H as (st & _ & H).
  cbv zeta in H. destruct (stat_update_live i k c r st Hr) as [Hl Hk].
  set (c1 := set_buf i (buf_update k (set_stat_updated true) (get_buf i c)) (set_stats st c)) in *.
  apply bind_Ok in H as (dv1 & Hi & H).
  cbn [command addr_vec final_command type_id set_stat_updated] in *.
  assert (buf_size (m_active_buffer c1) = buf_size (m_active_buffer c) /\
          max_size (m_active_buffer c1) = max_size (m_active_buffer c)) as [Hs1 Hm1].
  { apply stat_update_size. }
  destruct (Z.eqb_spec (command r) (final_command r)) as [Hf|Hf].
  - injection H as <- <-. split; [done|]. intros _. destruct (Z.eqb_spec (type_id r) ReqType.Read); cbn [andb negb].
    + rewrite app_nil_r, <- Hl.
      set (r' := set_depart _ _). pose proof (live_pending [r'] c1) as Hp.
      set (c2 := set_pending _ c1) in *.
      assert (buffer (get_buf i c2) !! k = Some (set_stat_updated true r)) as Hk2 by (by destruct i).
      rewrite (live_remove i k c2 _ Hk2) in Hp. cbn in Hp. by apply Permutation_cons_inv in Hp.
    + rewrite <- Hl, (live_remove i k c1 _ Hk).
      symmetry. apply Permutation_cons_append.
  - apply bind_Ok in H as (meta & _ & H). destruct (is_opening meta).
    + injection H as <- <-. split; [done|]. intros Hsz. cbn [andb].
      rewrite app_nil_r, <- Hl. set (r' := set_stat_updated true r) in *.
      pose proof (active_enqueue_live r' c1 ltac:(lia)) as Hp.
      pose proof (active_enqueue_lookup i k r' r' c1 Hk) as Hk2.
      set (c2 := set_buf BActive _ c1) in *.
      rewrite (live_remove i k c2 _ Hk2) in Hp. by apply Permutation_cons_inv in Hp.
    + injection H as <- <-. split; [done|]. intros _. cbn [andb]. by rewrite app_nil_r, Hl.
Qed.

(** ** Serving reads *)
Lemma serve_completed_reads_spec c dn c' :
  serve_completed_reads c = Ok (dn, c') ->
  pending c = (option_list dn ++ pending c')%list /\
  (forall i, get_buf i c' = get_buf i c) /\
  m_clk c' = m_clk c /\ m_refresh c' = m_refresh c /\ m_rowpolicy c' = m_rowpolicy c /\
  m_plugins c' = m_plugins c /\
  match dn with
  | Some r => depart r <= m_clk c
  | None => forall r, head (pending c) = Some r -> m_clk c < depart r
  end.
Proof.
  unfold serve_completed_reads. destruct (pending c) as [|r rest] eqn:E; intros H.
  { injection H as <- <-. rewrite E. by repeat split. }
  destruct (Z.leb_spec (depart r) (m_clk c)) as [Hd|Hd].
  - apply bind_Ok in H as (c1 & H1 & H). injection H as <- <-.
    assert (m_clk c1 = m_clk c /\ m_refresh c1 = m_refresh c /\ m_rowpolicy c1 = m_rowpolicy c /\
            m_plugins c1 = m_plugins c /\ forall i, get_buf i c1 = get_buf i c) as (Hc & Hr & Hp & Hpl & Hb).
    { destruct (_ <? _); [|by injection H1 as <-]. apply bind_Ok in H1 as (row & _ & H1).
      apply bind_Ok in H1 as (ch & _ & H1). apply bind_Ok in H1 as (lat & _ & H1).
      injection H1 as <-. by repeat split. }
    cbn. by repeat split.
  - injection H as <- <-. rewrite E. repeat split. intros q [= <-]. done.
Qed.

Lemma any_match_keys l l' rg : rkey <$> l = rkey <$> l' -> any_match cf l rg = any_match cf l' rg.
Proof.
  revert l'. induction l as [|r l IH]; intros [|r' l'] H; try done.
  pose proof (f_equal (fun l => addr_vec <$> head l) H) as Ha. injection Ha as Ha.
  pose proof (f_equal tail H) as Hl. cbn in Hl |- *. by rewrite Ha, (IH _ Hl).
Qed.

(** The oldest pending read, if its data has arrived. *)
Definition completed (c : Ctrl) : option Request :=
  match pending c with
  | r :: _ => if depart r <=? m_clk c + 1 then Some r else None
  | [] => None
  end.

(** The request [q] that a tick works on is one of [l]; its command is the
    prerequisite of its final command, is ready, and is the one issued. *)
Definition scheduled (dv : dev) (l : list Request) (q : option Request) (dv' : dev) : Prop :=
  match q with
  | None => dv' = dv
  | Some r => rkey r ∈ l /\ issuable dv r /\ dram_issue_command (command r) (addr_vec r) dv = Ok dv'
  end.

(** What the plugins send when they are shown [q] and the requests [new] have
    already entered the priority buffer. *)
Definition sent_by (c : Ctrl) (q : option Request) (new : list Request) : list Request :=
  (rkey ∘ prioritised) <$>
    accepted_all (places (m_priority_buffer c) - Z.of_nat (List.length new)) q (m_plugins c).

(** The phases of a tick, for a controller [c] that holds [live c] requests. *)
Record tick_post (dv : dev) (c : Ctrl) (dn : option Request) (dv' : dev) (c' : Ctrl) : Prop := {
  tp_pending : dn = completed c;
  tp_issue : dv' = dv \/ exists r, issuable dv r /\
    dram_issue_command (command r) (addr_vec r) dv = Ok dv' /\ spares_active c r;
  tp_live : buf_size (m_active_buffer c) <= max_size (m_active_buffer c) ->
    exists q new, scheduled dv (live c ++ new)%list q dv' /\
      (live c' ++ (rkey <$> option_list dn) ++ finished q)%list ≡ₚ (live c ++ new ++ sent_by c q new)%list /\
      Forall (fun r => type_id r = rf_ref_req_id (m_refresh c) \/
                       Some (type_id r) = policy_req_id c) new;
}.

Lemma Forall_rkey_type (P : Z -> Prop) l :
  Forall (fun r => P (type_id r)) l -> Forall (fun r => P (type_id r)) (rkey <$> l).
Proof. induction 1; cbn; constructor; auto. Qed.

Lemma serve_live c dn c' :
  pending c = (option_list dn ++ pending c')%list -> (forall i, get_buf i c' = get_buf i c) ->
  live c ≡ₚ ((rkey <$> option_list dn) ++ live c')%list.
Proof.
  intros Hp Hb. pose proof (Hb BActive) as Ha. pose proof (Hb BPriority) as Hq.
  pose proof (Hb BRead) as Hr. pose proof (Hb BWrite) as Hw. cbn in Ha, Hq, Hr, Hw.
  unfold live. rewrite Hp, Ha, Hq, Hr, Hw, fmap_app. by rewrite <- app_assoc.
Qed.

Lemma same_reqs_sizes c c' :
  same_reqs c c' -> buf_size (m_active_buffer c') = buf_size (m_active_buffer c) /\
                    max_size (m_active_buffer c') = max_size (m_active_buffer c).
Proof.
  intros [_ _ _ _ _ _ _ Hk Hm]. split; [|apply (Hm BActive)]. unfold buf_size.
  pose proof (Hk BActive) as H. cbn in H. unfold keys in H. apply (f_equal (@List.length _)) in H.
  rewrite !length_fmap in H. by rewrite H.
Qed.

Lemma same_reqs_priority c c' : same_reqs c c' ->
  length (buffer (m_priority_buffer c')) = length (buffer (m_priority_buffer c)).
Proof.
  intros H. pose proof (sr_keys _ _ H BPriority) as Hk. cbn in Hk. unfold keys in Hk.
  apply (f_equal (@List.length _)) in Hk. by rewrite !length_fmap in Hk.
Qed.

(** Step 1: at most the oldest pending read leaves. *)
Record served (c : Ctrl) (dn : option Request) (c1 : Ctrl) : Prop := {
  sv_pending : pending c = (option_list dn ++ pending c1)%list;
  sv_bufs : forall i, get_buf i c1 = get_buf i c;
  sv_refresh : m_refresh c1 = m_refresh c;
  sv_policy : m_rowpolicy c1 = m_rowpolicy c;
  sv_plugins : m_plugins c1 = m_plugins c;
  sv_done : dn = completed c;
}.

(** What step 4 does with request [r] of the controller [c]. *)
Definition issued (dv : dev) (c : Ctrl) (r : Request) (dv' : dev) (c' : Ctrl) : Prop :=
  dram_issue_command (command r) (addr_vec r) dv = Ok dv' /\
  (buf_size (m_active_buffer c) <= max_size (m_active_buffer c) -> (live c' ++ finished (Some r))%list ≡ₚ live c).

Lemma elem_of_live i k r c : buffer (get_buf i c) !! k = Some r -> rkey r ∈ live c.
Proof.
  intros H. rewrite (live_split i c). apply elem_of_app. left. apply list_elem_of_fmap. exists r. split; [done|].
  by eapply list_elem_of_lookup_2.
Qed.

(** The phases of a tick put together. *)
Lemma phases_post dv c dn c1 l2 c2 (found : option (BufId * nat)) q c3 l4 c4 c5 dv' c' :
  served c dn c1 ->
  adds_priority c1 c2 l2 -> Forall (fun r => type_id r = rf_ref_req_id (m_refresh c)) l2 ->
  m_rowpolicy c2 = m_rowpolicy c1 ->
  same_reqs c2 c3 ->
  (forall j k, found = Some (j, k) -> exists r, buffer (get_buf j c3) !! k = Some r /\ issuable dv r /\ spares_active c3 r) ->
  found_request found c3 = Ok q ->
  adds_priority c3 c4 l4 -> Forall (fun r => Some (type_id r) = policy_req_id c3) l4 ->
  adds_priority c4 c5 (prioritised <$> accepted_all (places (m_priority_buffer c4)) q (m_plugins c4)) ->
  match found with
  | None => dv' = dv /\ live c' = live c5
  | Some (j, k) => forall r, buffer (get_buf j c5) !! k = Some r -> issued dv c5 r dv' c'
  end ->
  tick_post dv c dn dv' c'.
Proof.
  intros [Hp1 Hb1 Hr1 Hpol1 Hpl1 Hd1] Ha2 Hl2 Hpol2 Hs3 Hf3 Hq Ha4 Hl4 Ha5 H.
  assert (m_active_buffer c2 = m_active_buffer c) as Hact2.
  { rewrite (ap_active _ _ _ Ha2). apply (Hb1 BActive). }
  set (new := (rkey <$> (l2 ++ l4))%list).
  assert (rkey <$> (prioritised <$> accepted_all (places (m_priority_buffer c4)) q (m_plugins c4)) =
          sent_by c q new) as Hsent.
  { unfold sent_by, new. rewrite <- list_fmap_compose, length_fmap, length_app, Nat2Z.inj_add. f_equal. f_equal.
    - pose proof (places_adds _ _ _ Ha4) as Hp4. pose proof (places_adds _ _ _ Ha2) as Hp2.
      pose proof (same_reqs_priority _ _ Hs3) as Hlen. pose proof (sr_max _ _ Hs3 BPriority) as Hmax.
      pose proof (Hb1 BPriority) as Hbp. cbn [get_buf] in Hbp, Hmax. unfold places, buf_size in *. rewrite Hbp in Hp2. lia.
    - by rewrite (ap_plugins _ _ _ Ha4), (sr_plugins _ _ Hs3), (ap_plugins _ _ _ Ha2), Hpl1. }
  assert (live c5 ++ (rkey <$> option_list dn) ≡ₚ live c ++ new ++ sent_by c q new)%list as Hlive.
  { rewrite (adds_live _ _ _ Ha5), Hsent, (adds_live _ _ _ Ha4), (same_reqs_live _ _ Hs3), (adds_live _ _ _ Ha2).
    rewrite (serve_live c dn c1 Hp1 Hb1). unfold new. rewrite fmap_app. solve_Permutation. }
  assert (Forall (fun r => type_id r = rf_ref_req_id (m_refresh c) \/
                           Some (type_id r) = policy_req_id c) new) as Hnew.
  { unfold new. rewrite fmap_app. apply Forall_app.
    split; apply (Forall_rkey_type (fun t => t = rf_ref_req_id (m_refresh c) \/ Some t = policy_req_id c)).
    - eapply Forall_impl; [|exact Hl2]. cbn. auto.
    - eapply Forall_impl; [|exact Hl4]. cbn. unfold policy_req_id.
      rewrite (sr_policy _ _ Hs3), Hpol2, Hpol1. auto. }
  destruct found as [[i k]|].
  - destruct (Hf3 i k eq_refl) as (r & Hr & Hiss & Hsp).
    assert (q = Some r) as ->.
    { cbn in Hq. apply bind_Ok in Hq as (r' & [_ Hr']%vget_Ok & Hq). rewrite Nat2Z.id, Hr in Hr'. congruence. }
    destruct (H r) as [Hcmd Hl]; [eapply adds_lookup; [done|]; by eapply adds_lookup|]. constructor; [done| |].
    + right. exists r. split; [done|]. split; [done|]. intros meta Hm Hc.
      rewrite <- (Hsp meta Hm Hc), <- Hact2. apply any_match_keys.
      symmetry. apply (sr_keys _ _ Hs3 BActive).
    + intros Hsz. exists (Some r), new. split; [|split; [|done]].
      * split; [|done]. apply elem_of_live in Hr. rewrite (same_reqs_live _ _ Hs3), (adds_live _ _ _ Ha2) in Hr.
        rewrite (serve_live c dn c1 Hp1 Hb1). unfold new. rewrite fmap_app, !elem_of_app in *. tauto.
      * rewrite <- Hlive, <- Hl; [solve_Permutation|].
        rewrite (ap_active _ _ _ Ha5), (ap_active _ _ _ Ha4).
        destruct (same_reqs_sizes _ _ Hs3) as [-> ->]. by rewrite Hact2.
  - destruct H as [-> Hl]. constructor; [done|by left|]. intros _. injection Hq as <-.
    exists None, new. split; [done|]. cbn [finished]. rewrite app_nil_r, Hl. by split.
Qed.

Lemma serve_done c dn c1 : pending c = (option_list dn ++ pending c1)%list ->
  match dn with
  | Some r => depart r <= m_clk c + 1
  | None => forall r, head (pending c) = Some r -> m_clk c + 1 < depart r
  end -> dn = completed c.
Proof.
  intros Hp Hd. unfold completed. destruct dn as [r|].
  - rewrite Hp. cbn. by rewrite (proj2 (Z.leb_le _ _) Hd).
  - destruct (pending c) as [|r l]; [done|]. specialize (Hd r eq_refl). by rewrite (proj2 (Z.leb_gt _ _) Hd).
Qed.

Lemma tick_spec dv c dn dv' c' : tick cf dv c = Ok (dn, dv', c') -> tick_post dv c dn dv' c'.
Proof.
  unfold tick. cbv zeta. set (c0 := count_queues _). intros H.
  apply bind_Ok in H as ([dn1 c1] & H1 & H). apply bind_Ok in H as (c2 & H2 & H).
  apply bind_Ok in H as ([found c3] & H3 & H). apply bind_Ok in H as (c4 & H4 & H).
  apply bind_Ok in H as (c6 & H6 & H).
  apply serve_completed_reads_spec in H1 as (Hp1 & Hb1 & _ & Hr1 & Hpol1 & Hpl1 & Hd1).
  assert (served c dn1 c1) as Hsv by (split; try done; by eapply serve_done).
  apply refresh_tick_spec in H2 as (l2 & Ha2 & Hl2 & Hpol2).
  apply schedule_request_spec in H3 as [Hs3 Hf3].
  apply rowpolicy_update_spec in H4 as (l4 & Ha4 & Hl4).
  destruct (found_request_Ok found c3) as (q & Hq & _); [intros j k Hjk; destruct (Hf3 j k Hjk) as (r & Hr & _); by exists r|].
  pose proof (found_request_adds _ _ _ _ _ Ha4 Hq) as Hq4.
  apply (plugins_update_accepted _ _ _ _ Hq4) in H6 as (c5 & Ha5 & E6).
  set (ps := m_plugins c6) in E6. clearbody ps. subst c6. rewrite Hr1 in Hl2.
  assert (dn1 = dn) as <- by (destruct found as [[i k]|]; [apply bind_Ok in H as (x & _ & H)|]; by injection H as <- _ _).
  eapply (phases_post dv c dn1 c1 l2 c2 found q c3 l4 c4 c5); try done. destruct found as [[i k]|].
  - intros r Hr. apply bind_Ok in H as ([dvx cx] & Hi & H). injection H as <- <-. cbn [fst snd].
    apply (issue_found_spec dv i k (set_plugins ps c5) r) in Hi; [exact Hi|]. by destruct i.
  - by injection H as <- <-.
Qed.
End Facts.

(** ** A controller on the example device *)
Definition wr_low : spec_float := F32.div (F32.of_Z 2) (F32.of_Z 10).
Definition wr_high : spec_float := F32.div (F32.of_Z 8) (F32.of_Z 10).
Definition demo_cf : CtrlConfig := mkCtrlConfig 0 3 wr_low wr_high.
Definition demo_rf : Refresh := from_res (mkRefresh 0 0 0 0 0) (@refresh_setup (DDR4_dram demo_d)).
Definition demo_ctrl : Ctrl := new_ctrl 8 demo_rf OpenRowPolicy [].
Definition demo_req : Request :=
  set_addr_vec (bank_addr 0 0 5) (Request_addr_type_source 4096 ReqType.Read 3).
Definition demo_sent : Ctrl :=
  match @send (DDR4_dram demo_d) demo_req demo_ctrl with Ok (_, _, c) => c | Err _ => demo_ctrl end.
Definition demo_tick : res (option Request * @dev (DDR4_dram demo_d) * Ctrl) :=
  tick (S := @FRFCFS_scheduler (DDR4_dram demo_d)) demo_cf demo_s demo_sent.

Lemma demo_tick_ok : ok_b demo_tick = true.
Proof. vm_compute. reflexivity. Qed.

(** Property C8.  A tick neither loses nor duplicates a request while the active
    buffer has room ([tick] ignores the result of enqueuing there).  The oldest
    pending read is completed exactly when its data has arrived.  At most one
    request [q] is worked on: it is one the controller holds, its command is the
    prerequisite of its final command, ready, and the one the device receives.
    What the controller holds afterwards, with the completed read and with [q] if
    its final command was issued and it is not a read, is exactly what it held
    before, the new refresh and row-close requests, and the requests that the
    programs of the plugins send for [q] as far as the priority buffer takes
    them. *)
Theorem controller_conserves_requests `{D : IDRAM} `{Sch : !IScheduler} cf dv c dn dv' c' :
  tick cf dv c = Ok (dn, dv', c') ->
  buf_size (m_active_buffer c) <= max_size (m_active_buffer c) ->
  dn = completed c /\
  exists q new,
    scheduled dv (live c ++ new)%list q dv' /\
    (live c' ++ (rkey <$> option_list dn) ++ finished q)%list ≡ₚ (live c ++ new ++ sent_by c q new)%list /\
    Forall (fun r => type_id r = rf_ref_req_id (m_refresh c) \/
                     Some (type_id r) = policy_req_id c) new.
Proof. intros H Hs. apply tick_spec in H as [Hp _ Hl]. split; [done|by apply Hl]. Qed.

Lemma controller_conserves_requests_witness :
  exists dn dv' c', demo_tick = Ok (dn, dv', c') /\
    exists q new, scheduled (D := DDR4_dram demo_d) demo_s (live demo_sent ++ new)%list q dv' /\
      (live c' ++ (rkey <$> option_list dn) ++ finished q)%list ≡ₚ
        (live demo_sent ++ new ++ sent_by (D := DDR4_dram demo_d) demo_sent q new)%list.
Proof.
  destruct demo_tick as [[[dn dv'] c']|e] eqn:E;
    [|pose proof demo_tick_ok as Hb; rewrite E in Hb; discriminate Hb].
  exists dn, dv', c'. split; [reflexivity|].
  destruct (controller_conserves_requests (D := DDR4_dram demo_d) (Sch := FRFCFS_scheduler) demo_cf demo_s demo_sent dn dv' c' E) as [_ (q & new & Hq & Hl & _)].
  { vm_compute. discriminate. }
  exists q, new. split; [exact Hq|exact Hl].
Defined.

(** A tick issues at most one command.  The device accepts it at
    this cycle, it is the prerequisite of the request it serves, and if it
    closes rows no request in the active buffer waits on one of their banks. *)
Theorem controller_issues_only_ready `{D : IDRAM} `{Sch : !IScheduler} cf dv c dn dv' c' :
  tick cf dv c = Ok (dn, dv', c') ->
  dv' = dv \/
  exists r, dram_check_ready (command r) (addr_vec r) dv = Ok true /\
    dram_get_preq_command (final_command r) (addr_vec r) dv = Ok (command r) /\
    dram_issue_command (command r) (addr_vec r) dv = Ok dv' /\
    spares_active cf c r.
Proof.
  intros H. apply tick_spec in H as [_ [->|(r & [Hr Hp] & Hi & Hs)] _]; [by left|right].
  by exists r.
Qed.

Lemma controller_issues_only_ready_witness :
  exists dn dv' c', demo_tick = Ok (dn, dv', c') /\ m_clk c' = 1 /\
    (dv' = demo_s \/
     exists r, DDR4.check_ready demo_d (command r) (addr_vec r) demo_s = Ok true /\
       DDR4.issue_command demo_d (command r) (addr_vec r) demo_s = Ok dv').
Proof.
  assert (match demo_tick with Ok (_, _, c') => m_clk c' | Err _ => 0 end = 1) as Hclk
    by (vm_compute; reflexivity).
  destruct demo_tick as [[[dn dv'] c']|e] eqn:E; [|discriminate Hclk].
  exists dn, dv', c'. split; [reflexivity|]. split; [exact Hclk|].
  destruct (controller_issues_only_ready (D := DDR4_dram demo_d) (Sch := FRFCFS_scheduler) demo_cf demo_s demo_sent dn dv' c' E) as [H|(r & H1 & _ & H2 & _)];
    [left; exact H|right]. exists r. split; [exact H1|exact H2].
Defined.

(** ** Sending requests *)
Definition counters_ok (n : Counters) : Prop :=
  0 <= s_num_read_reqs n < 2 ^ 64 /\ 0 <= s_num_write_reqs n < 2 ^ 64.

Lemma count_req_undo ty c :
  ty = ReqType.Read \/ ty = ReqType.Write -> counters_ok (counters c) ->
  count_req ty (-1) (count_req ty 1 c) = c.
Proof.
  intros Ht [Hr Hw]. destruct c as [clk pd ab pb rb wb wm rf rp st n ps]. destruct n.
  unfold count_req, set_counters. cbn in *.
  assert (forall x, 0 <= x < 2 ^ 64 -> u64 (u64 (x + 1) + -1) = x) as Hu.
  { intros x Hx. unfold u64. rewrite Zplus_mod_idemp_l. replace (x + 1 + -1) with x by lia.
    by apply Z.mod_small. }
  destruct Ht as [->| ->]; cbn; by rewrite Hu.
Qed.

Lemma live_count ty x c : live (count_req ty x c) = live c.
Proof. done. Qed.

(** [send] accepts reads and writes only.  A read that hits a
    buffered write is forwarded, a request that finds room is stamped and
    enqueued: the controller then holds exactly one more request.  A request
    that finds its buffer full leaves the controller unchanged. *)
Theorem controller_send_spec `{D : IDRAM} req c fc :
  lut_get dram_request_translations (type_id req) = Ok fc -> counters_ok (counters c) ->
  (type_id req <> ReqType.Read -> type_id req <> ReqType.Write ->
   send req c = Err (Exc "Invalid request type!")) /\
  (type_id req = ReqType.Read \/ type_id req = ReqType.Write ->
   exists ok req' c', send req c = Ok (ok, req', c') /\ final_command req' = fc /\
     (ok = true -> live c' ≡ₚ rkey req' :: live c /\
        (arrive req' = m_clk c \/
         (depart req' = m_clk c + 1 /\ exists w, w ∈ buffer (m_write_buffer c) /\ addr w = addr req))) /\
     (ok = false -> c' = c /\ arrive req' = -1 /\
        exists i, i ∈ [BRead; BWrite] /\ max_size (get_buf i c) < buf_size (get_buf i c))).
Proof.
  intros Hfc Hcnt. unfold send. rewrite Hfc, bind_Ok_l. cbv zeta.
  cbn [type_id set_final_command addr set_arrive m_write_buffer m_read_buffer count_req set_counters m_clk].
  split.
  { intros H1%Z.eqb_neq H2%Z.eqb_neq. rewrite H1, H2. done. }
  intros Ht. destruct ((type_id req =? ReqType.Read) && _) eqn:Efwd.
  { apply andb_true_iff in Efwd as [Et (w & Hw & Ha%Z.eqb_eq)%existsb_exists].
    do 3 eexists. split; [reflexivity|]. split; [done|]. split; [|done]. intros _. split.
    - rewrite (live_pending [_] (count_req (type_id req) 1 c)). by rewrite live_count.
    - right. split; [done|]. exists w. by rewrite list_elem_of_In. }
  destruct Ht as [Ht|Ht]; rewrite Ht in *; cbn [Z.eqb ReqType.Read ReqType.Write].
  - destruct (enqueue _ (m_read_buffer c)) as [[] b] eqn:Ee; do 3 eexists; (split; [reflexivity|]);
      (split; [done|]); (split; [|]); try done.
    + intros _. split; [|by left]. apply enqueue_true in Ee as [-> _].
      rewrite live_set, (live_split BRead). unfold keys. cbn [buffer get_buf m_read_buffer count_req set_counters].
      rewrite fmap_app. cbn. solve_Permutation.
    + intros _. apply enqueue_false in Ee as [_ Hf]. rewrite count_req_undo by (by auto).
      split; [done|]. split; [done|]. exists BRead. split; [apply list_elem_of_here|done].
  - destruct (enqueue _ (m_write_buffer c)) as [[] b] eqn:Ee; do 3 eexists; (split; [reflexivity|]);
      (split; [done|]); (split; [|]); try done.
    + intros _. split; [|by left]. apply enqueue_true in Ee as [-> _].
      rewrite live_set, (live_split BWrite). unfold keys. cbn [buffer get_buf m_write_buffer count_req set_counters].
      rewrite fmap_app. cbn. solve_Permutation.
    + intros _. apply enqueue_false in Ee as [_ Hf]. rewrite count_req_undo by (by auto).
      split; [done|]. split; [done|]. exists BWrite. split; [|done].
      apply list_elem_of_further, list_elem_of_here.
Qed.

Lemma controller_send_spec_witness :
  exists ok req' c', @send (DDR4_dram demo_d) demo_req demo_ctrl = Ok (ok, req', c') /\
    final_command req' = DDR4.cmd "RD".
Proof.
  destruct (controller_send_spec (D := DDR4_dram demo_d) demo_req demo_ctrl (DDR4.cmd "RD")) as [_ H].
  { reflexivity. }
  { split; cbn; lia. }
  destruct (H (or_introl eq_refl)) as (ok & req' & c' & H1 & H2 & _).
  exists ok, req', c'. split; [exact H1|exact H2].
Defined.

(** A forwarded read keeps [arrive] = -1, so that when it completes
    in the next cycle [serve_completed_reads] takes it for a read that accessed
    the DRAM: the whole clock plus two is added to the read latency, and twice
    the distance of the channel. *)
Theorem forwarded_read_adds_clock `{D : IDRAM} req c req' c' lat row ch :
  type_id req = ReqType.Read -> arrive req = -1 -> pending c = [] -> 0 <= m_clk c ->
  existsb (fun w => addr w =? addr req) (buffer (m_write_buffer c)) = true ->
  vget core_channel_latency_matrix (source_id req) = Ok row ->
  vget (addr_vec req) 0 = Ok ch -> vget row ch = Ok lat ->
  send req c = Ok (true, req', c') ->
  exists c'', serve_completed_reads (set_clk (m_clk c' + 1) c') = Ok (Some req', c'') /\
    s_read_latency (counters c'') =
      u64 (u64 (s_read_latency (counters c) + (m_clk c + 2)) + 2 * lat).
Proof.
  intros Ht Ha Hp Hclk Hw Hrow Hch Hlat Hs. unfold send in Hs. apply bind_Ok in Hs as (fc & _ & Hs).
  cbv zeta in Hs. cbn [type_id set_final_command addr count_req set_counters m_write_buffer] in Hs.
  rewrite Ht, Z.eqb_refl, Hw in Hs. cbn [andb] in Hs. injection Hs as <- <-.
  unfold serve_completed_reads. cbn [pending set_clk set_pending set_counters]. rewrite Hp.
  cbn [app depart set_depart m_clk arrive set_final_command source_id addr_vec].
  rewrite Z.leb_refl, Ha. rewrite (proj2 (Z.ltb_lt 1 _)) by lia.
  rewrite Hrow, bind_Ok_l, Hch, bind_Ok_l, Hlat, !bind_Ok_l.
  eexists. split; [reflexivity|]. cbn. do 3 f_equal. lia.
Qed.

Definition demo_write : Request :=
  set_addr_vec (bank_addr 0 0 5) (Request_addr_type_source 4096 ReqType.Write 3).
Definition demo_written : Ctrl :=
  match @send (DDR4_dram demo_d) demo_write demo_ctrl with Ok (_, _, c) => c | Err _ => demo_ctrl end.

Lemma forwarded_read_adds_clock_witness :
  exists req' c' c'', @send (DDR4_dram demo_d) demo_req (set_clk 1000 demo_written) = Ok (true, req', c') /\
    serve_completed_reads (set_clk (m_clk c' + 1) c') = Ok (Some req', c'') /\
    s_read_latency (counters c'') = u64 (u64 (0 + (1000 + 2)) + 2 * 100).
Proof.
  assert (match @send (DDR4_dram demo_d) demo_req (set_clk 1000 demo_written) with
          | Ok (b, _, _) => b | Err _ => false end = true) as Hb by (vm_compute; reflexivity).
  destruct (@send (DDR4_dram demo_d) demo_req (set_clk 1000 demo_written)) as [[[[] req'] c']|e] eqn:E;
    try discriminate Hb.
  destruct (forwarded_read_adds_clock (D := DDR4_dram demo_d) demo_req (set_clk 1000 demo_written) req' c'
    100 [100; 60; 30; 20; 30; 60; 100; 130] 0) as (c'' & H1 & H2);
    [reflexivity|reflexivity|vm_compute; reflexivity|cbn; lia|vm_compute; reflexivity
    |vm_compute; reflexivity|reflexivity|reflexivity|exact E|].
  exists req', c', c''. split; [reflexivity|]. split; [exact H1|exact H2].
Defined.

(** ** Write mode *)
Definition write_mode_table : bool :=
  forallb (fun w =>
    Bool.eqb (fgt (F32.of_Z w) (F32.mul wr_high (F32.of_Z 32))) (26 <=? w) &&
    Bool.eqb (flt (F32.of_Z w) (F32.mul wr_low (F32.of_Z 32))) (w <=? 6)) (seqZ 0 34).

Lemma write_mode_table_true : write_mode_table = true.
Proof. vm_compute. reflexivity. Qed.

(** With the default watermarks and buffer size, the controller
    enters write mode when 26 writes are buffered or no read is, and leaves it
    when at most 6 writes are left and a read waits; in between it keeps its
    mode, so the mode cannot change back and forth on a single request. *)
Theorem write_mode_hysteresis cf c :
  m_wr_low_watermark cf = wr_low -> m_wr_high_watermark cf = wr_high ->
  max_size (m_write_buffer c) = 32 -> buf_size (m_write_buffer c) <= 33 ->
  let w := buf_size (m_write_buffer c) in
  let no_reads := buf_size (m_read_buffer c) =? 0 in
  m_is_write_mode (set_write_mode cf c) =
    if m_is_write_mode c then negb ((w <=? 6) && negb no_reads) else (26 <=? w) || no_reads.
Proof.
  intros Hlo Hhi Hmax Hsz w no_reads. unfold set_write_mode, watermark. rewrite Hlo, Hhi, Hmax.
  fold w no_reads. pose proof write_mode_table_true as Ht. unfold write_mode_table in Ht.
  rewrite forallb_forall in Ht. specialize (Ht w). 
  assert (In w (seqZ 0 34)) as Hin.
  { apply list_elem_of_In, elem_of_seqZ. unfold w, buf_size in *. lia. }
  specialize (Ht Hin). apply andb_true_iff in Ht as [H1%eqb_prop H2%eqb_prop]. rewrite H1, H2.
  destruct (m_is_write_mode c) eqn:Em; cbn [negb].
  - destruct ((w <=? 6) && negb no_reads); [done|by rewrite Em].
  - destruct ((26 <=? w) || no_reads); [done|by rewrite Em].
Qed.

Lemma write_mode_hysteresis_witness : m_is_write_mode (set_write_mode demo_cf demo_sent) = false.
Proof.
  rewrite (write_mode_hysteresis demo_cf demo_sent eq_refl eq_refl);
    [vm_compute; reflexivity|vm_compute; reflexivity|vm_compute; discriminate].
Defined.
