(* ===== verification/RefreshFacts.v ===== *)
(** * The refresh schedule

    [AllBankRefresh] asks for one all-bank refresh per rank in every nREFI-th
    cycle of its controller, and never for a device without ranks. *)
From Stdlib Require Import String.
From S2P Require Import Prelude CxxFloat Utils DramSpec Device DeviceFacts DDR4 DDR4Facts HBM StandardsFacts.
From S2P Require Import Dram Request Scheduler Plugin Controller ControllerFacts.
Local Open Scope string_scope.
Local Open Scope Z_scope.

Section Refresh.
Context `{D : IDRAM} `{S : !IScheduler} (cf : CtrlConfig).

(** ** Only [refresh_tick] changes the refresh manager *)
Lemma priority_send_refresh req c ok c' : priority_send req c = Ok (ok, c') -> m_refresh c' = m_refresh c.
Proof. intros (l & _ & _ & _ & H & _)%priority_send_spec. exact H. Qed.

Lemma run_act_refresh {A} (a : Act A) c x c' : run_act a c = Ok (x, c') -> m_refresh c' = m_refresh c.
Proof.
  revert c. induction a as [r|req k IH]; cbn [run_act]; intros c H.
  - apply bind_Ok in H as (y & _ & H). by injection H as _ <-.
  - apply bind_Ok in H as ([ok c1] & H1 & H). rewrite (IH _ _ H). by eapply priority_send_refresh.
Qed.

Lemma plugins_update_refresh found c c' : plugins_update found c = Ok c' -> m_refresh c' = m_refresh c.
Proof.
  intros H. unfold plugins_update in H. apply bind_Ok in H as (req & _ & H).
  apply bind_Ok in H as ([ps c1] & Hu & H). injection H as <-. cbn. clear found.
  revert Hu. generalize (m_plugins c). intros l. revert c ps. induction l as [|p l IH]; cbn [update_plugins]; intros c ps H.
  { by injection H as _ <-. }
  apply bind_Ok in H as ([s c2] & H1 & H). apply bind_Ok in H as ([ps1 c3] & H2 & H). injection H as _ <-.
  rewrite (IH _ _ H2). by eapply run_act_refresh.
Qed.

Lemma rowpolicy_update_refresh found c c' : rowpolicy_update found c = Ok c' -> m_refresh c' = m_refresh c.
Proof.
  unfold rowpolicy_update. destruct (m_rowpolicy c) as [|p], found as [[i k]|];
    try (intros H; by injection H as <-).
  intros H. apply bind_Ok in H as (r & _ & H). unfold closed_update in H.
  do 4 (apply bind_Ok in H as (? & _ & H)). destruct (_ || _).
  { apply bind_Ok in H as (col & _ & H). by injection H as <-. }
  destruct (is_accessing _); [|by injection H as <-].
  apply bind_Ok in H as (n & _ & H). destruct (_ <=? _).
  - apply bind_Ok in H as ([ok c1] & Hs & H). apply bind_Ok in H as (col & _ & H). injection H as <-.
    cbn. by eapply priority_send_refresh.
  - apply bind_Ok in H as (col & _ & H). by injection H as <-.
Qed.

Lemma set_buf_refresh i b c : m_refresh (set_buf i b c) = m_refresh c /\ m_clk (set_buf i b c) = m_clk c.
Proof. by destruct i. Qed.

Lemma issue_found_refresh dv i k c dv' c' :
  issue_found dv i k c = Ok (dv', c') -> m_refresh c' = m_refresh c /\ m_clk c' = m_clk c.
Proof.
  unfold issue_found. intros H. apply bind_Ok in H as (r & _ & H). apply bind_Ok in H as (st & _ & H).
  cbv zeta in H. apply bind_Ok in H as (dv1 & _ & H). destruct (_ =? final_command _).
  - injection H as _ <-. destruct (_ =? _); destruct i; done.
  - apply bind_Ok in H as (meta & _ & H). destruct (is_opening meta); injection H as _ <-; by destruct i.
Qed.

(** ** The schedule *)

(** The manager's clock is the controller's, and the next refresh is due at the
    next multiple of nREFI. *)
Record on_time (c : Ctrl) : Prop := {
  ot_clk : rf_clk (m_refresh c) = m_clk c;
  ot_nrefi : 0 < rf_nrefi (m_refresh c);
  ot_next : rf_next_refresh_cycle (m_refresh c) = (m_clk c / rf_nrefi (m_refresh c) + 1) * rf_nrefi (m_refresh c);
}.

(** The refresh of a rank: all lower levels are left open. *)
Definition refresh_request (id rank : Z) : Request :=
  set_final_command (from_res 0 (lut_get dram_request_translations id))
    (Request_vec_type (<[1%nat := rank]> (<[0%nat := m_channel_id cf]> (replicate (length dram_levels) (-1)))) id).

Lemma send_refreshes_requests ranks id c c' :
  send_refreshes cf ranks id c = Ok c' ->
  buffer (m_priority_buffer c') = (buffer (m_priority_buffer c) ++ (refresh_request id <$> ranks))%list.
Proof.
  revert c. induction ranks as [|r ranks IH]; cbn [send_refreshes]; intros c H.
  { injection H as <-. by rewrite app_nil_r. }
  apply bind_Ok in H as (av & [_ ->]%vset_Ok & H). apply bind_Ok in H as (av' & [_ ->]%vset_Ok & H).
  apply bind_Ok in H as ([ok c1] & Hs & H). destruct ok; [|done]. rewrite (IH _ H).
  unfold priority_send in Hs. apply bind_Ok in Hs as (fc & Hfc & Hs). cbn in Hfc.
  destruct (enqueue _ _) as [b buf] eqn:E. injection Hs as -> <-. apply enqueue_true in E as [-> _].
  cbn. rewrite <- app_assoc. cbn. unfold refresh_request. by rewrite Hfc.
Qed.

(** The requests of the round that is due, if one is. *)
Definition due (rf : Refresh) (clk : Z) : list Request :=
  if clk mod rf_nrefi rf =? 0 then refresh_request (rf_ref_req_id rf) <$> seqZ 0 (rf_num_ranks rf) else [].

Lemma next_multiple n k : 0 < n -> (k + 1 =? (k / n + 1) * n) = ((k + 1) mod n =? 0).
Proof.
  intros Hn. pose proof (Z.div_mod k n ltac:(lia)). pose proof (Z.mod_pos_bound k n Hn).
  destruct (Z.eqb_spec (k + 1) ((k / n + 1) * n)) as [E|E], (Z.eqb_spec ((k + 1) mod n) 0) as [F|F]; try done.
  - rewrite E, Z.mod_mul in F by lia. lia.
  - apply Z.mod_divide in F as [q Hq]; [|lia]. assert (q = k / n + 1) by nia. congruence.
Qed.

Lemma div_next n k :
  0 < n -> (k + 1) / n = if (k + 1) mod n =? 0 then k / n + 1 else k / n.
Proof.
  intros Hn. pose proof (Z.div_mod k n ltac:(lia)). pose proof (Z.mod_pos_bound k n Hn).
  pose proof (Z.div_mod (k + 1) n ltac:(lia)). pose proof (Z.mod_pos_bound (k + 1) n Hn).
  destruct (Z.eqb_spec ((k + 1) mod n) 0); nia.
Qed.

Lemma refresh_tick_due c c' clk :
  rf_clk (m_refresh c) = clk -> 0 < rf_nrefi (m_refresh c) ->
  rf_next_refresh_cycle (m_refresh c) = (clk / rf_nrefi (m_refresh c) + 1) * rf_nrefi (m_refresh c) ->
  refresh_tick cf c = Ok c' ->
  let rf := m_refresh c in
  m_refresh c' = mkRefresh (clk + 1) (rf_num_ranks rf) (rf_nrefi rf) (rf_ref_req_id rf)
                   (((clk + 1) / rf_nrefi rf + 1) * rf_nrefi rf) /\
  m_clk c' = m_clk c /\
  buffer (m_priority_buffer c') = (buffer (m_priority_buffer c) ++ due rf (clk + 1))%list.
Proof.
  intros Hc Hn Hx H rf. fold rf in Hc, Hn, Hx. unfold refresh_tick in H. fold rf in H. cbv zeta in H.
  unfold due. rewrite Hc, Hx, next_multiple in H by done. rewrite div_next by done.
  destruct ((clk + 1) mod rf_nrefi rf =? 0).
  - pose proof (send_refreshes_requests _ _ _ _ H) as Hb. apply send_refreshes_spec in H as (l & Ha & _ & _ & Hr & _).
    rewrite Hr. cbn. split; [f_equal; lia|]. split; [exact (ap_clk _ _ _ Ha)|exact Hb].
  - injection H as <-. cbn. rewrite app_nil_r. done.
Qed.

Lemma new_ctrl_on_time n rf rp ps :
  refresh_setup = Ok rf -> 0 < rf_nrefi rf -> on_time (new_ctrl n rf rp ps).
Proof.
  unfold refresh_setup. intros H Hn. apply bind_Ok in H as (r & _ & H). apply bind_Ok in H as (i & _ & H).
  apply bind_Ok in H as (q & _ & H). injection H as <-. constructor; cbn in *; [done|done|].
  rewrite Z.div_0_l by lia. lia.
Qed.

(** ** What becomes of the priority buffer *)
Lemma find_request_priority dv c k c' :
  find_request cf dv c = Ok (Some (BPriority, k), c') -> k = 0%nat.
Proof.
  unfold find_request. intros H. apply bind_Ok in H as ([f1 c1] & H1 & H).
  apply try_buffer_spec in H1 as [_ Hf1]. destruct f1 as [[j1 k1]|].
  { injection H as -> -> _. by destruct (Hf1 _ _ eq_refl). }
  destruct (buffer (m_priority_buffer c1)) as [|r l].
  - apply try_buffer_spec in H as [_ Hf2]. destruct (Hf2 _ _ eq_refl) as [E _]. by destruct (m_is_write_mode _).
  - unfold try_priority in H. apply bind_Ok in H as (r1 & _ & H). apply bind_Ok in H as (ok & _ & H).
    destruct ok; by injection H.
Qed.

Lemma schedule_request_priority dv c k c' :
  schedule_request cf dv c = Ok (Some (BPriority, k), c') -> k = 0%nat.
Proof.
  unfold schedule_request. intros H. apply bind_Ok in H as ([f1 c1] & H1 & H). destruct f1 as [[i j]|]; [|done].
  apply bind_Ok in H as (r & _ & H). apply bind_Ok in H as (meta & _ & H). destruct (is_closing meta).
  - apply bind_Ok in H as (m & _ & H). destruct m; [done|]. injection H as -> -> _. by eapply find_request_priority.
  - injection H as -> -> _. by eapply find_request_priority.
Qed.

(** Step 4 takes at most the head from the priority buffer. *)
Lemma issue_found_priority dv i k c r dv' c' :
  buffer (get_buf i c) !! k = Some r -> (i = BPriority -> k = 0%nat) -> issue_found dv i k c = Ok (dv', c') ->
  keys (m_priority_buffer c') = keys (m_priority_buffer c) \/
  (i = BPriority /\ keys (m_priority_buffer c) = rkey r :: keys (m_priority_buffer c')).
Proof.
  intros Hr Hk H. unfold issue_found in H. apply bind_Ok in H as (r0 & [_ Hr0]%vget_Ok & H).
  rewrite Nat2Z.id, Hr in Hr0. injection Hr0 as <-. apply bind_Ok in H as (st & _ & H).
  cbv zeta in H. apply bind_Ok in H as (dv1 & _ & H).
  assert (forall l : list Request, rkey <$> alter (set_stat_updated true) k l = rkey <$> l) as Ha by (intros; by apply alter_keys).
  assert (i = BPriority -> keys (m_priority_buffer c) =
    rkey r :: (rkey <$> delete k (alter (set_stat_updated true) k (buffer (m_priority_buffer c))))) as Hd.
  { intros ->. rewrite (Hk eq_refl) in *. cbn in Hr. unfold keys. destruct (buffer (m_priority_buffer c)); [done|].
    by injection Hr as ->. }
  destruct (_ =? final_command _).
  - injection H as _ <-. unfold keys in *. destruct (_ =? _), i; cbn; rewrite ?Ha; auto.
  - apply bind_Ok in H as (meta & _ & H). destruct (is_opening meta); injection H as _ <-;
      unfold keys in *; destruct i; cbn; rewrite ?Ha; auto.
Qed.

End Refresh.

(** The controller of the example device one cycle before its first refresh. *)
Definition last_cycle : Ctrl :=
  let n := rf_nrefi demo_rf in
  set_refresh (mkRefresh (n - 1) (rf_num_ranks demo_rf) n (rf_ref_req_id demo_rf) n) (set_clk (n - 1) demo_ctrl).

Lemma last_cycle_on_time : on_time last_cycle.
Proof. constructor; vm_compute; reflexivity. Qed.

Definition refresh_demo : res (option Request * @dev (DDR4_dram demo_d) * Ctrl) :=
  tick (S := @FRFCFS_scheduler (DDR4_dram demo_d)) demo_cf demo_s last_cycle.

Lemma refresh_demo_ok : ok_b refresh_demo = true.
Proof. vm_compute. reflexivity. Qed.


(** ** Devices without ranks *)

(** HBM has no rank level: [get_level_size] answers -1 and no round has any
    request, so a device of the standard is never refreshed. *)
Theorem hbm_is_never_refreshed d cf rf c c' :
  refresh_setup (D := std_dram HBM.std d) = Ok rf -> rf_num_ranks (m_refresh c) = rf_num_ranks rf ->
  refresh_tick (D := std_dram HBM.std d) cf c = Ok c' ->
  rf_num_ranks rf = -1 /\ m_priority_buffer c' = m_priority_buffer c /\
  rf_num_ranks (m_refresh c') = rf_num_ranks rf.
Proof.
  intros Hs Hn H. assert (rf_num_ranks rf = -1) as Hr.
  { unfold refresh_setup in Hs. apply bind_Ok in Hs as (k & Hk & Hs). apply bind_Ok in Hs as (n & _ & Hs).
    apply bind_Ok in Hs as (q & _ & Hs). injection Hs as <-. cbn in Hk. by injection Hk as <-. }
  unfold refresh_tick in H. cbv zeta in H. rewrite Hn, Hr in *. cbn [rf_num_ranks] in H.
  change (seqZ 0 (-1)) with (@nil Z) in H. cbn [send_refreshes] in H.
  destruct (_ =? _); injection H as <-; cbn; done.
Qed.
