(* ===== verification/AddrMapper.v ===== *)
(** * Address mappers: [addr_mapper/impl/linear_mappers.cpp]

    [LinearMapperBase] and the mappers ChRaBaRoCo, RoBaRaCoCh and MOP4CLXOR: a
    physical address is cut into the indices of the organization levels. *)
From Stdlib Require Import String.
From S2P Require Import Prelude Utils DramSpec Request DDR4.
Local Open Scope string_scope.
Local Open Scope Z_scope.

Record Mapper : Type := mkMapper {
  m_num_levels : Z;
  m_addr_bits : list Z;
  m_tx_offset : Z;
  m_col_bits_idx : Z;
  m_row_bits_idx : Z;
}.

(** ** [LinearMapperBase::setup] *)
Fixpoint log2_all (l : list Z) : res (list Z) :=
  match l with
  | [] => Ok []
  | c :: l => b ← calc_log2 c; r ← log2_all l; Ok (b :: r)
  end.

Definition setup (levels : ImplDef) (count : list Z) (prefetch channel_width : Z) : res Mapper :=
  let n := Z.of_nat (List.length count) in
  bits ← log2_all count;
  last ← vget bits (n - 1);
  p ← calc_log2 prefetch;
  bits ← vset bits (n - 1) (last - p);
  tx ← calc_log2 (Z.quot (prefetch * channel_width) 8);
  row ← (match spec_def_id levels "row" with
         | Ok i => Ok i
         | Err _ => Err (Exc "Organization row not found in the spec, cannot use linear mapping!")
         end);
  Ok (mkMapper n bits tx (n - 1) row).

(** [req.addr_vec.resize(n, -1)] *)
Definition resize_vec (n : Z) (v : list Z) : list Z :=
  (take (Z.to_nat n) v ++ replicate (Z.to_nat n - List.length v) (-1))%list.

(** Slices one level after the other off the low end of the address. *)
Fixpoint slice_levels (bits : list Z) (order : list Z) (a : Z) (v : list Z) : res (Z * list Z) :=
  match order with
  | [] => Ok (a, v)
  | i :: order =>
      n ← vget bits i;
      '(lbits, a) ← slice_lower_bits a n;
      v ← vset v i (i32 lbits);
      slice_levels bits order a v
  end.

Module ChRaBaRoCo.
Definition order (m : Mapper) : list Z := reverse (seqZ 0 (Z.of_nat (List.length (m_addr_bits m)))).

Definition apply (m : Mapper) (req : Request) : res Request :=
  let v := resize_vec (m_num_levels m) (addr_vec req) in
  '(_, v) ← slice_levels (m_addr_bits m) (order m) (Z.shiftr (addr req) (m_tx_offset m)) v;
  Ok (set_addr_vec v req).
End ChRaBaRoCo.

Module RoBaRaCoCh.
Definition order (m : Mapper) : list Z :=
  0 :: Z.of_nat (List.length (m_addr_bits m)) - 1 :: seqZ 1 (m_row_bits_idx m).

Definition apply (m : Mapper) (req : Request) : res Request :=
  let v := resize_vec (m_num_levels m) (addr_vec req) in
  '(_, v) ← slice_levels (m_addr_bits m) (order m) (Z.shiftr (addr req) (m_tx_offset m)) v;
  Ok (set_addr_vec v req).
End RoBaRaCoCh.

Module MOP4CLXOR.
(** The level indices are mixed with column bits.  A shift of an [int] by 32
    or more, or a mask of more than 30 bits, is undefined. *)
Fixpoint xor_levels (bits : list Z) (col : Z) (lvls : list Z) (row_xor_index : Z) (v : list Z)
    : res (list Z) :=
  match lvls with
  | [] => Ok v
  | lvl :: lvls =>
      n ← vget bits lvl;
      if 0 <? n then
        if (32 <=? row_xor_index) || (30 <? n) then Err Undef else
        x ← vget v lvl;
        let mask := Z.land (Z.shiftr col row_xor_index) (Z.shiftl 1 n - 1) in
        v ← vset v lvl (Z.lxor x mask);
        xor_levels bits col lvls (row_xor_index + n) v
      else xor_levels bits col lvls row_xor_index v
  end.

Definition slices (m : Mapper) (a : Z) (v : list Z) : res (Z * list Z) :=
  '(lo, a) ← slice_lower_bits a 2;
  v ← vset v (m_col_bits_idx m) (i32 lo);
  '(a, v) ← slice_levels (m_addr_bits m) (seqZ 0 (m_row_bits_idx m)) a v;
  cb ← vget (m_addr_bits m) (m_col_bits_idx m);
  '(hi, a) ← slice_lower_bits a (cb - 2);
  x ← vget v (m_col_bits_idx m);
  let col := i32 (x + Z.shiftl hi 2) in
  v ← vset v (m_col_bits_idx m) col;
  v ← vset v (m_row_bits_idx m) (i32 a);
  Ok (col, v).

Definition apply (m : Mapper) (req : Request) : res Request :=
  let v := resize_vec (m_num_levels m) (addr_vec req) in
  '(col, v) ← slices m (Z.shiftr (addr req) (m_tx_offset m)) v;
  v ← xor_levels (m_addr_bits m) col (seqZ 0 (m_col_bits_idx m)) 0 v;
  Ok (set_addr_vec v req).
End MOP4CLXOR.

(** ** The linear mappers are bijections *)
(** ** Mixed-radix numbers *)
Definition zn (l : list Z) (i : Z) : Z := default 0 (l !! Z.to_nat i).

(** The number of bits sliced for the levels of [order], and the number whose
    digits, lowest first, are the entries of [v] for these levels. *)
Fixpoint width (bits order : list Z) : Z :=
  match order with [] => 0 | i :: order => zn bits i + width bits order end.

Fixpoint join (bits order v : list Z) : Z :=
  match order with [] => 0 | i :: order => zn v i + 2 ^ zn bits i * join bits order v end.

Definition bits_ok (bits : list Z) : Prop := Forall (fun b => 0 <= b <= 30) bits.

Definition inside (bits : list Z) (order : list Z) : Prop :=
  NoDup order /\ Forall (fun i => 0 <= i < Z.of_nat (List.length bits)) order.

Definition digits_ok (bits order v : list Z) : Prop :=
  forall i, i ∈ order -> 0 <= zn v i < 2 ^ zn bits i.

Lemma zn_vget l i : 0 <= i < Z.of_nat (List.length l) -> vget l i = Ok (zn l i).
Proof.
  intros Hi. apply vget_Ok. split; [lia|]. unfold zn.
  destruct (lookup_lt_is_Some_2 l (Z.to_nat i)) as [x ->]; [lia|done].
Qed.

Lemma vset_inside (l : list Z) i x :
  0 <= i < Z.of_nat (List.length l) -> vset l i x = Ok (<[Z.to_nat i := x]> l).
Proof. intros. by apply vset_Ok. Qed.

Lemma zn_bits bits i : bits_ok bits -> 0 <= zn bits i <= 30.
Proof.
  intros Hb. unfold zn. destruct (bits !! Z.to_nat i) as [b|] eqn:E; cbn; [|lia].
  apply (Forall_lookup_1 _ _ _ _ Hb E).
Qed.

Lemma inside_cons bits i order :
  inside bits (i :: order) -> i ∉ order /\ 0 <= i < Z.of_nat (List.length bits) /\ inside bits order.
Proof.
  intros [Hn Hf]. apply List.Forall_cons_iff in Hf as [? ?]. apply list.NoDup_cons in Hn as [? ?].
  repeat split; done || lia.
Qed.

Lemma width_nonneg bits order : bits_ok bits -> 0 <= width bits order.
Proof.
  intros Hb. induction order as [|i order IH]; cbn; [lia|]. pose proof (zn_bits bits i Hb). lia.
Qed.

Lemma pow2_pos n : 0 <= n -> 0 < 2 ^ n.
Proof. intros. apply Z.pow_pos_nonneg; lia. Qed.

Lemma join_ext bits order v w :
  (forall i, i ∈ order -> zn v i = zn w i) -> join bits order v = join bits order w.
Proof.
  induction order as [|i order IH]; intros H; [done|]. cbn.
  rewrite IH, (H i); [done|apply list_elem_of_here|]. intros j Hj. apply H. by apply list_elem_of_further.
Qed.

Lemma join_inj bits order v w :
  bits_ok bits -> digits_ok bits order v -> digits_ok bits order w ->
  join bits order v = join bits order w -> forall i, i ∈ order -> zn v i = zn w i.
Proof.
  intros Hb. induction order as [|j order IH]; intros Hv Hw E i Hi; [by apply elem_of_nil in Hi|].
  cbn in E. assert (0 < 2 ^ zn bits j) as Hp by (apply pow2_pos; apply zn_bits, Hb).
  pose proof (Hv j ltac:(apply list_elem_of_here)). pose proof (Hw j ltac:(apply list_elem_of_here)).
  assert (zn v j = zn w j /\ join bits order v = join bits order w) as [E1 E2].
  { apply (f_equal (fun x => (x mod 2 ^ zn bits j, x / 2 ^ zn bits j))) in E. injection E as E1 E2.
    rewrite !(Z.mul_comm (2 ^ _)), !Z.mod_add, !Z.mod_small in E1 by lia.
    rewrite !(Z.mul_comm (2 ^ _)), !Z.div_add, !Z.div_small in E2 by lia. done. }
  apply elem_of_cons in Hi as [->|Hi]; [done|].
  apply IH; [| |done|done]; intros k Hk; [apply Hv|apply Hw]; by apply list_elem_of_further.
Qed.

Lemma join_range bits order v :
  bits_ok bits -> digits_ok bits order v -> 0 <= join bits order v < 2 ^ width bits order.
Proof.
  intros Hb. induction order as [|i order IH]; intros Hv; cbn; [lia|].
  pose proof (zn_bits bits i Hb). pose proof (width_nonneg bits order Hb).
  rewrite Z.pow_add_r by lia. pose proof (Hv i ltac:(apply list_elem_of_here)).
  assert (0 <= join bits order v < 2 ^ width bits order).
  { apply IH. intros k Hk. apply Hv. by apply list_elem_of_further. }
  nia.
Qed.

Lemma mod_split a n k : 0 <= n -> 0 <= k -> a mod 2 ^ (n + k) = a mod 2 ^ n + 2 ^ n * ((a / 2 ^ n) mod 2 ^ k).
Proof.
  intros. pose proof (pow2_pos n ltac:(done)). pose proof (pow2_pos k ltac:(done)).
  rewrite Z.pow_add_r by lia. by rewrite Z.rem_mul_r by lia.
Qed.

(** ** Slicing is the decomposition *)
Lemma zn_insert_eq v i x : 0 <= i < Z.of_nat (List.length v) -> zn (<[Z.to_nat i := x]> v) i = x.
Proof. intros. unfold zn. by rewrite list_lookup_insert_eq by lia. Qed.

Lemma zn_insert_ne v i j x : 0 <= i -> 0 <= j -> i <> j -> zn (<[Z.to_nat i := x]> v) j = zn v j.
Proof. intros. unfold zn. by rewrite list_lookup_insert_ne by lia. Qed.

Lemma slice_levels_spec bits order a v :
  bits_ok bits -> inside bits order -> List.length v = List.length bits ->
  exists v', slice_levels bits order a v = Ok (a / 2 ^ width bits order, v') /\
    List.length v' = List.length v /\
    (forall i, 0 <= i -> i ∉ order -> zn v' i = zn v i) /\
    digits_ok bits order v' /\ join bits order v' = a mod 2 ^ width bits order.
Proof.
  intros Hb. revert a v. induction order as [|i order IH]; intros a v Hi Hl.
  { exists v. cbn. rewrite Z.div_1_r, Z.mod_1_r. repeat split; try done; by apply elem_of_nil in H. }
  apply inside_cons in Hi as (Hni & Hir & Hi). pose proof (zn_bits bits i Hb) as Hn.
  cbn [slice_levels]. rewrite zn_vget by done. cbn [mbind res_bind].
  rewrite slice_lower_bits_Ok by lia. cbn [mbind res_bind].
  set (x := a mod 2 ^ zn bits i).
  assert (0 <= x < 2 ^ zn bits i) as Hx by (apply Z.mod_pos_bound, pow2_pos; lia).
  assert (2 ^ zn bits i <= 2 ^ 30) by (apply Z.pow_le_mono_r; lia).
  rewrite i32_small by lia. rewrite vset_inside by lia. cbn [mbind res_bind].
  destruct (IH (a / 2 ^ zn bits i) (<[Z.to_nat i := x]> v) Hi) as (v' & -> & Hl' & Hk & Hd & Hj);
    [by rewrite length_insert|].
  pose proof (width_nonneg bits order Hb). pose proof (pow2_pos (zn bits i) ltac:(lia)).
  assert (zn v' i = x) as Hvi by (rewrite Hk by (done || lia); apply zn_insert_eq; lia).
  exists v'. cbn [width join]. repeat split.
  - rewrite Z.pow_add_r, Z.div_div by lia. done.
  - by rewrite Hl', length_insert.
  - intros j Hj0 Hj'. apply not_elem_of_cons in Hj' as [? ?]. rewrite Hk by done.
    apply zn_insert_ne; lia.
  - apply elem_of_cons in H2 as [->|Hin]; [lia|]. by apply Hd.
  - apply elem_of_cons in H2 as [->|Hin]; [lia|]. by apply Hd.
  - rewrite Hj, Hvi, mod_split by lia. done.
Qed.

Lemma width_perm bits o1 o2 : o1 ≡ₚ o2 -> width bits o1 = width bits o2.
Proof. induction 1; cbn in *; lia. Qed.

Lemma width_app bits o1 o2 : width bits (o1 ++ o2) = width bits o1 + width bits o2.
Proof. induction o1 as [|i o1 IH]; cbn in *; lia. Qed.

Lemma elem_of_seqZ0 i n : i ∈ seqZ 0 n <-> 0 <= i < n.
Proof. rewrite elem_of_seqZ. lia. Qed.

Lemma seqZ_snoc a n : 0 <= n -> seqZ a (n + 1) = (seqZ a n ++ [a + n])%list.
Proof. intros. rewrite seqZ_app by lia. f_equal. Qed.

Lemma inside_perm bits o1 o2 : o1 ≡ₚ o2 -> inside bits o1 -> inside bits o2.
Proof. intros E [H1 H2]. split; [by rewrite <- E|]. by rewrite <- E. Qed.

Lemma inside_seqZ bits a n :
  0 <= a -> 0 <= n -> a + n <= Z.of_nat (List.length bits) -> inside bits (seqZ a n).
Proof.
  intros. split; [apply NoDup_seqZ|]. apply Forall_forall. intros i Hi%list_elem_of_In%elem_of_seqZ. lia.
Qed.

Lemma length_resize_vec n v : 0 <= n -> List.length (resize_vec n v) = Z.to_nat n.
Proof. intros. unfold resize_vec. rewrite length_app, length_take, length_replicate. lia. Qed.

(** Two vectors of the same length with the same entries are equal. *)
Lemma zn_ext v w n :
  List.length v = n -> List.length w = n -> (forall i, 0 <= i < Z.of_nat n -> zn v i = zn w i) -> v = w.
Proof.
  intros Hv Hw H. apply list_eq_same_length with n; [done|done|].
  intros i x y Hi Hx Hy. specialize (H (Z.of_nat i) ltac:(lia)). unfold zn in H.
  rewrite Nat2Z.id, Hx, Hy in H. done.
Qed.

(** ** Well-formed mappers and what a mapping promises *)
Record mapper_wf (m : Mapper) : Prop := {
  mw_bits : bits_ok (m_addr_bits m);
  mw_levels : m_num_levels m = Z.of_nat (List.length (m_addr_bits m));
  mw_two : 2 <= m_num_levels m;
  mw_row : m_row_bits_idx m = m_num_levels m - 2;
  mw_col : m_col_bits_idx m = m_num_levels m - 1;
  mw_tx : 0 <= m_tx_offset m;
}.

Definition all_levels (m : Mapper) : list Z := seqZ 0 (m_num_levels m).

(** The number of address bits of the memory, in transactions. *)
Definition addr_bits (m : Mapper) : Z := width (m_addr_bits m) (all_levels m).

Definition in_range (m : Mapper) (a : Z) : Prop := 0 <= a < 2 ^ (addr_bits m + m_tx_offset m).

Definition in_bounds (m : Mapper) (v : list Z) : Prop :=
  Z.of_nat (List.length v) = m_num_levels m /\ digits_ok (m_addr_bits m) (all_levels m) v.

(** [apply] only fills in the index vector; the vector is within the
    organization's bounds; two addresses with the same vector are in the same
    transaction; and every vector within bounds is reached. *)
Record bijective (m : Mapper) (apply : Request -> res Request) : Prop := {
  bij_total : forall req, in_range m (addr req) ->
    exists v, apply req = Ok (set_addr_vec v req) /\ in_bounds m v;
  bij_inj : forall r1 r2 r1' r2', in_range m (addr r1) -> in_range m (addr r2) ->
    apply r1 = Ok r1' -> apply r2 = Ok r2' -> addr_vec r1' = addr_vec r2' ->
    Z.shiftr (addr r1) (m_tx_offset m) = Z.shiftr (addr r2) (m_tx_offset m);
  bij_surj : forall v req, in_bounds m v -> exists a, in_range m a /\
    apply (set_addr a req) = Ok (set_addr_vec v (set_addr a req));
}.

Lemma in_bounds_eq m v w :
  in_bounds m v -> in_bounds m w -> (forall i, 0 <= i < m_num_levels m -> zn v i = zn w i) -> v = w.
Proof. intros [Hv _] [Hw _] H. apply (zn_ext v w (List.length v)); [done|lia|]. intros. apply H. lia. Qed.

Lemma in_range_shift m a :
  mapper_wf m -> in_range m a -> 0 <= Z.shiftr a (m_tx_offset m) < 2 ^ addr_bits m.
Proof.
  intros [] [? Ha]. rewrite Z.shiftr_div_pow2 by done.
  pose proof (width_nonneg (m_addr_bits m) (all_levels m) mw_bits0).
  pose proof (pow2_pos (m_tx_offset m) mw_tx0). rewrite Z.pow_add_r in Ha by done. split.
  - apply Z.div_pos; lia.
  - apply Z.div_lt_upper_bound; [done|]. lia.
Qed.

Lemma shift_in_range m x :
  mapper_wf m -> 0 <= x < 2 ^ addr_bits m ->
  in_range m (Z.shiftl x (m_tx_offset m)) /\ Z.shiftr (Z.shiftl x (m_tx_offset m)) (m_tx_offset m) = x.
Proof.
  intros [] Hx. pose proof (pow2_pos (m_tx_offset m) mw_tx0).
  pose proof (width_nonneg (m_addr_bits m) (all_levels m) mw_bits0). split.
  - unfold in_range. rewrite Z.shiftl_mul_pow2, Z.pow_add_r by done. nia.
  - rewrite Z.shiftr_shiftl_l by done. by rewrite Z.sub_diag, Z.shiftl_0_r.
Qed.

(** A mapping given by a decomposition [enc] of the transaction number is a
    bijection. *)
Lemma bijective_of_enc m (apply : Request -> res Request) (enc : list Z -> Z) :
  mapper_wf m ->
  (forall req, in_range m (addr req) -> exists v, apply req = Ok (set_addr_vec v req) /\
     in_bounds m v /\ enc v = Z.shiftr (addr req) (m_tx_offset m)) ->
  (forall v, in_bounds m v -> 0 <= enc v < 2 ^ addr_bits m) ->
  (forall v w, in_bounds m v -> in_bounds m w -> enc v = enc w -> v = w) ->
  bijective m apply.
Proof.
  intros Hm Htot Hran Hinj. split.
  - intros req Hr. destruct (Htot req Hr) as (v & ? & ? & _). eauto.
  - intros r1 r2 r1' r2' H1 H2 E1 E2 Ev.
    destruct (Htot r1 H1) as (v1 & E1' & _ & <-). destruct (Htot r2 H2) as (v2 & E2' & _ & <-).
    rewrite E1 in E1'. rewrite E2 in E2'. res_inv. cbn in Ev. by rewrite Ev.
  - intros v req Hv. pose proof (Hran v Hv) as Hx.
    destruct (shift_in_range m (enc v) Hm Hx) as [Hr E]. exists (Z.shiftl (enc v) (m_tx_offset m)).
    split; [done|]. destruct (Htot (set_addr (Z.shiftl (enc v) (m_tx_offset m)) req) Hr) as (w & -> & Hw & Ew).
    cbn [addr set_addr] in Ew. rewrite E in Ew. by rewrite (Hinj v w Hv Hw).
Qed.

(** ** The linear mappers *)
Definition linear (m : Mapper) (order : list Z) (req : Request) : res Request :=
  '(_, v) ← slice_levels (m_addr_bits m) order (Z.shiftr (addr req) (m_tx_offset m))
              (resize_vec (m_num_levels m) (addr_vec req));
  Ok (set_addr_vec v req).

Section Linear.
Context (m : Mapper) (order : list Z) (Hm : mapper_wf m) (Ho : order ≡ₚ all_levels m).

Lemma linear_inside : inside (m_addr_bits m) order.
Proof.
  pose proof (mw_two m Hm). pose proof (mw_levels m Hm).
  apply (inside_perm _ (all_levels m)); [done|]. apply inside_seqZ; lia.
Qed.

Lemma linear_spec req :
  exists v, linear m order req = Ok (set_addr_vec v req) /\ in_bounds m v /\
    join (m_addr_bits m) order v = Z.shiftr (addr req) (m_tx_offset m) mod 2 ^ addr_bits m.
Proof.
  pose proof (mw_two m Hm). pose proof (mw_levels m Hm).
  destruct (slice_levels_spec (m_addr_bits m) order (Z.shiftr (addr req) (m_tx_offset m))
    (resize_vec (m_num_levels m) (addr_vec req))) as (v & E & Hl & _ & Hd & Hj).
  - apply Hm.
  - apply linear_inside.
  - rewrite length_resize_vec; lia.
  - exists v. unfold linear. rewrite E. split; [done|]. split.
    + split; [rewrite Hl, length_resize_vec; lia|]. intros i Hi. apply Hd. by rewrite Ho.
    + rewrite Hj. unfold addr_bits. by rewrite (width_perm _ order (all_levels m)).
Qed.

Lemma linear_bijective : bijective m (linear m order).
Proof.
  pose proof (mw_two m Hm). pose proof (mw_levels m Hm). pose proof (mw_bits m Hm).
  assert (forall v, in_bounds m v -> digits_ok (m_addr_bits m) order v) as Hd.
  { intros v [_ Hv] i Hi. apply Hv. by rewrite <- Ho. }
  apply (bijective_of_enc m _ (join (m_addr_bits m) order) Hm).
  - intros req Hr. destruct (linear_spec req) as (v & ? & ? & E). exists v. do 2 (split; [done|]).
    rewrite E. apply Z.mod_small. by apply in_range_shift.
  - intros v Hv. unfold addr_bits. rewrite <- (width_perm _ order (all_levels m)) by done.
    apply join_range; [done|]. by apply Hd.
  - intros v w Hv Hw E. apply (in_bounds_eq m); [done|done|]. intros i Hi.
    apply (join_inj (m_addr_bits m) order); [done|by apply Hd|by apply Hd|done|].
    rewrite Ho. by apply elem_of_seqZ0.
Qed.
End Linear.

Lemma ChRaBaRoCo_order m : mapper_wf m -> ChRaBaRoCo.order m ≡ₚ all_levels m.
Proof.
  intros Hm. unfold ChRaBaRoCo.order, all_levels. rewrite <- mw_levels by done. by rewrite reverse_Permutation.
Qed.

Lemma RoBaRaCoCh_order m : mapper_wf m -> RoBaRaCoCh.order m ≡ₚ all_levels m.
Proof.
  intros Hm. pose proof (mw_two m Hm). unfold RoBaRaCoCh.order, all_levels.
  rewrite (mw_row m Hm), <- (mw_levels m Hm).
  rewrite (seqZ_cons 0) by lia. constructor.
  replace (Z.pred (m_num_levels m)) with ((m_num_levels m - 2) + 1) by lia.
  rewrite seqZ_snoc by lia. rewrite (Permutation_app_comm _ [_]). cbn [app].
  replace (Z.succ 0 + (m_num_levels m - 2)) with (m_num_levels m - 1) by lia. done.
Qed.

(** ** MOP4CLXOR *)
Lemma lxor_range a b n : 0 <= n -> 0 <= a < 2 ^ n -> 0 <= b < 2 ^ n -> 0 <= Z.lxor a b < 2 ^ n.
Proof.
  intros Hn Ha Hb. assert (0 <= Z.lxor a b) as H0 by (apply Z.lxor_nonneg; lia). split; [done|].
  destruct (decide (Z.lxor a b = 0)) as [->|]; [by apply pow2_pos|].
  apply Z.log2_lt_pow2; [lia|]. pose proof (Z.log2_lxor a b ltac:(lia) ltac:(lia)).
  assert (forall x, 0 <= x < 2 ^ n -> Z.log2 x < n \/ x = 0) as Hl.
  { intros x Hx. destruct (decide (x = 0)); [by right|]. left. apply Z.log2_lt_pow2; lia. }
  destruct (decide (n = 0)) as [->|].
  { change (2 ^ 0) with 1 in *. replace a with 0 in * by lia. replace b with 0 in * by lia. done. }
  destruct (Hl a Ha) as [|Ea], (Hl b Hb) as [|Eb]; try rewrite Ea in *; try rewrite Eb in *;
    change (Z.log2 0) with 0 in *; lia.
Qed.

Section Xor.
Context (bits : list Z) (col : Z) (Hb : bits_ok bits).

Lemma xor_levels_ok lvls k v :
  inside bits lvls -> List.length v = List.length bits -> digits_ok bits lvls v ->
  0 <= k -> lvls = [] \/ k + width bits (removelast lvls) < 32 ->
  exists v', MOP4CLXOR.xor_levels bits col lvls k v = Ok v' /\ List.length v' = List.length v /\
    (forall i, 0 <= i -> i ∉ lvls -> zn v' i = zn v i) /\ digits_ok bits lvls v'.
Proof.
  revert k v. induction lvls as [|l lvls IH]; intros k v Hi Hl Hd Hk Hw.
  { exists v. split; [done|]. repeat split; try done; by apply elem_of_nil in H. }
  apply inside_cons in Hi as (Hnl & Hlr & Hi). pose proof (zn_bits bits l Hb) as Hn.
  assert (k < 32 /\ k + zn bits l + width bits (removelast lvls) < 32 \/ lvls = [] /\ k < 32) as Hk'.
  { destruct Hw as [|Hw]; [done|].
    destruct lvls as [|l' lvls]; [right; split; [done|cbn in Hw; lia]|left].
    change (removelast (l :: l' :: lvls)) with (l :: removelast (l' :: lvls)) in Hw. cbn [width] in Hw.
    pose proof (width_nonneg bits (removelast (l' :: lvls)) Hb). lia. }
  cbn [MOP4CLXOR.xor_levels]. rewrite (zn_vget bits l Hlr). cbn [mbind res_bind].
  set (x := Z.lxor (zn v l) (Z.land (Z.shiftr col k) (Z.shiftl 1 (zn bits l) - 1))).
  assert (0 <= x < 2 ^ zn bits l) as Hx.
  { apply lxor_range; [lia| |].
    - apply Hd, list_elem_of_here.
    - rewrite land_mask by lia. apply Z.mod_pos_bound, pow2_pos. lia. }
  assert (forall u k', List.length u = List.length bits -> zn u l < 2 ^ zn bits l -> 0 <= zn u l ->
    (forall i, 0 <= i -> i <> l -> zn u i = zn v i) -> 0 <= k' -> (k' <= k + zn bits l) ->
    exists v', MOP4CLXOR.xor_levels bits col lvls k' u = Ok v' /\ List.length v' = List.length v /\
    (forall i, 0 <= i -> i ∉ l :: lvls -> zn v' i = zn v i) /\ digits_ok bits (l :: lvls) v') as Hrest.
  { intros u k' Hlu Hu1 Hu0 Hu Hk0 Hke. destruct Hi as [Hnd Hf]. destruct (IH k' u) as (v' & E & ? & Hun & Hdv).
    - done.
    - done.
    - intros i Hin. rewrite Hu; [apply Hd; by apply list_elem_of_further| |set_solver].
      by apply (proj1 (List.Forall_forall _ _) Hf), list_elem_of_In.
    - done.
    - destruct Hk' as [[_ ?]|[-> ?]]; [right; lia|by left].
    - exists v'. split; [done|]. split; [lia|]. split.
      + intros i Hi0 Hni. apply not_elem_of_cons in Hni as [? ?]. rewrite Hun by done. by apply Hu.
      + intros i Hin. apply elem_of_cons in Hin as [->|Hin]; [rewrite Hun by (done || lia); lia|by apply Hdv]. }
  destruct (0 <? zn bits l) eqn:E0.
  - rewrite (proj2 (Z.leb_gt 32 k)), (proj2 (Z.ltb_ge 30 (zn bits l))) by lia. cbn [orb].
    rewrite zn_vget by lia. cbn [mbind res_bind]. rewrite vset_inside by lia.
    cbn [mbind res_bind]. fold x. apply Hrest; [by rewrite length_insert| | | |lia|lia].
    1,2: rewrite zn_insert_eq by lia; lia.
    intros i ? ?. apply zn_insert_ne; lia.
  - apply Z.ltb_ge in E0. pose proof (Hd l ltac:(apply list_elem_of_here)).
    apply Hrest; [done|lia|lia|done|done|lia].
Qed.

Lemma xor_levels_insert lvls k v v' l x :
  inside bits lvls -> l ∉ lvls -> 0 <= l ->
  MOP4CLXOR.xor_levels bits col lvls k v = Ok v' ->
  MOP4CLXOR.xor_levels bits col lvls k (<[Z.to_nat l := x]> v) = Ok (<[Z.to_nat l := x]> v').
Proof.
  revert k v. induction lvls as [|j lvls IH]; intros k v Hi Hl H0 E.
  { cbn in *. by res_inv. }
  apply inside_cons in Hi as (? & Hj & Hi). apply not_elem_of_cons in Hl as [Hne Hl].
  cbn [MOP4CLXOR.xor_levels] in *. rewrite (zn_vget bits j Hj) in *. cbn [mbind res_bind] in *.
  destruct (0 <? zn bits j); [|by apply IH].
  destruct ((32 <=? k) || (30 <? zn bits j)); [done|]. res_inv.
  apply vget_Ok in H1 as [? Hx]. apply vset_Ok in H2 as [Hr ->].
  unfold vget. rewrite bool_decide_true by lia. rewrite list_lookup_insert_ne by lia. rewrite Hx.
  cbn [mbind res_bind]. unfold vset. rewrite bool_decide_true by (rewrite length_insert; lia).
  cbn [mbind res_bind]. rewrite list_insert_insert_ne by lia. by apply IH.
Qed.

Lemma xor_levels_frame lvls k v v' :
  inside bits lvls -> MOP4CLXOR.xor_levels bits col lvls k v = Ok v' ->
  List.length v' = List.length v /\
  (forall l, 0 <= l -> l ∉ lvls -> v' !! Z.to_nat l = v !! Z.to_nat l).
Proof.
  revert k v. induction lvls as [|l lvls IH]; intros k v Hi E; cbn [MOP4CLXOR.xor_levels] in E.
  { by res_inv. }
  apply inside_cons in Hi as (? & ? & Hi). res_inv.
  destruct (0 <? x).
  - destruct (_ || _); [done|]. res_inv. apply vset_Ok in H3 as [? ->].
    apply IH in E as [-> Hf]; [|done]. split; [by rewrite length_insert|].
    intros j ? Hj. apply not_elem_of_cons in Hj as [? ?]. rewrite Hf by done.
    apply list_lookup_insert_ne. lia.
  - apply IH in E as [-> Hf]; [|done]. split; [done|].
    intros j ? Hj. apply not_elem_of_cons in Hj as [? ?]. by apply Hf.
Qed.

(** Mixing twice with the same column gives the vector back. *)
Lemma xor_levels_involutive lvls k v v' :
  inside bits lvls ->
  MOP4CLXOR.xor_levels bits col lvls k v = Ok v' -> MOP4CLXOR.xor_levels bits col lvls k v' = Ok v.
Proof.
  revert k v v'. induction lvls as [|l lvls IH]; intros k v v' Hi E.
  { cbn in *. by res_inv. }
  apply inside_cons in Hi as (Hnl & Hlr & Hi).
  cbn [MOP4CLXOR.xor_levels] in *. rewrite (zn_vget bits l Hlr) in *. cbn [mbind res_bind] in *.
  destruct (0 <? zn bits l); [|by eapply IH].
  destruct ((32 <=? k) || (30 <? zn bits l)); [done|]. res_inv.
  apply vget_Ok in H as [? Hx]. apply vset_Ok in H0 as [Hr ->].
  set (mask := Z.land _ _) in *. destruct (xor_levels_frame _ _ _ _ Hi E) as [Hlen Hf].
  specialize (Hf l ltac:(lia) Hnl). rewrite list_lookup_insert_eq in Hf by lia.
  rewrite length_insert in Hlen.
  unfold vget, vset. rewrite !bool_decide_true by lia. rewrite Hf. cbn [mbind res_bind].
  rewrite Z.lxor_assoc, Z.lxor_nilpotent, Z.lxor_0_r.
  apply IH in E; [|done]. apply (xor_levels_insert _ _ _ _ l x) in E; [|done|done|lia].
  rewrite list_insert_insert_eq, (list_insert_id v _ x Hx) in E. done.
Qed.
End Xor.

(** The transaction number of an index vector before mixing: two column bits,
    the levels above the row, the other column bits, the row. *)
Definition mop_enc (m : Mapper) (u : list Z) : Z :=
  let w := width (m_addr_bits m) (seqZ 0 (m_row_bits_idx m)) in
  let cb := zn (m_addr_bits m) (m_col_bits_idx m) in
  zn u (m_col_bits_idx m) mod 4 +
  4 * (join (m_addr_bits m) (seqZ 0 (m_row_bits_idx m)) u +
       2 ^ w * (zn u (m_col_bits_idx m) / 4 + 2 ^ (cb - 2) * zn u (m_row_bits_idx m))).

(** The mixing index stays below the width of [int], and the column has the
    two bits taken first. *)
Record mop_wf (m : Mapper) : Prop := {
  mop_mapper : mapper_wf m;
  mop_col : 2 <= zn (m_addr_bits m) (m_col_bits_idx m);
  mop_index : width (m_addr_bits m) (seqZ 0 (m_row_bits_idx m)) < 32;
}.

Section Mop.
Context (m : Mapper) (Hmop : mop_wf m).

Notation bits := (m_addr_bits m).
Notation row := (m_row_bits_idx m).
Notation col := (m_col_bits_idx m).
Notation W := (width bits (seqZ 0 row)).

Lemma mop_bits : 0 <= W /\ 2 <= zn bits col <= 30 /\ 0 <= zn bits row <= 30 /\
  addr_bits m = W + zn bits row + zn bits col.
Proof.
  destruct Hmop as [Hm Hc _]. pose proof (mw_bits m Hm) as Hb. pose proof (mw_two m Hm).
  pose proof (zn_bits bits col Hb). pose proof (zn_bits bits row Hb).
  pose proof (width_nonneg bits (seqZ 0 row) Hb). repeat split; try lia.
  unfold addr_bits, all_levels.
  replace (m_num_levels m) with (row + 1 + 1) by (rewrite (mw_row m Hm); lia).
  rewrite !seqZ_snoc, !width_app by (rewrite ?(mw_row m Hm); lia). cbn [width].
  rewrite (mw_col m Hm), !Z.add_0_l, (mw_row m Hm).
  replace (m_num_levels m - 2 + 1) with (m_num_levels m - 1) by lia. lia.
Qed.

Lemma mop_parts a (a2 := a / 4 / 2 ^ W) :
  0 <= a < 2 ^ addr_bits m ->
  0 <= a2 mod 2 ^ (zn bits col - 2) < 2 ^ (zn bits col - 2) /\
  0 <= a2 / 2 ^ (zn bits col - 2) < 2 ^ zn bits row /\ 4 * 2 ^ (zn bits col - 2) = 2 ^ zn bits col.
Proof.
  destruct mop_bits as (HW & Hc & Hr & ->). intros Ha.
  assert (0 < 2 ^ (zn bits col - 2)) by (apply pow2_pos; lia). pose proof (pow2_pos W HW).
  split; [by apply Z.mod_pos_bound|]. split.
  - split; [subst a2; repeat apply Z.div_pos; lia|]. subst a2. rewrite !Z.div_div by lia.
    apply Z.div_lt_upper_bound; [lia|].
    eapply Z.lt_le_trans; [apply Ha|]. apply Z.eq_le_incl.
    change 4 with (2 ^ 2). rewrite <- !Z.pow_add_r by lia. f_equal. lia.
  - change 4 with (2 ^ 2). rewrite <- Z.pow_add_r by lia. f_equal. lia.
Qed.

Lemma slices_spec a v :
  0 <= a < 2 ^ addr_bits m -> Z.of_nat (List.length v) = m_num_levels m ->
  exists u, MOP4CLXOR.slices m a v = Ok (zn u col, u) /\ in_bounds m u /\ mop_enc m u = a.
Proof.
  intros Ha Hl. destruct (mop_parts a Ha) as (Hhi & Hrow & Hpow). destruct mop_bits as (HW & Hc & Hr & Ht).
  destruct Hmop as [[Hb Hlv Htwo Erow Ecol Htx] _ _].
  set (a2 := a / 4 / 2 ^ W) in *. set (hi := a2 mod _) in *. set (rw := a2 / _) in *.
  unfold MOP4CLXOR.slices. rewrite slice_lower_bits_Ok by lia. change (2 ^ 2) with 4. cbn [mbind res_bind].
  assert (0 <= a mod 4 < 4) as Hlo by (apply Z.mod_pos_bound; lia).
  rewrite i32_small by lia. rewrite vset_inside by lia. cbn [mbind res_bind].
  destruct (slice_levels_spec bits (seqZ 0 row) (a / 4) (<[Z.to_nat col := a mod 4]> v))
    as (v2 & -> & Hl2 & Hk2 & Hd2 & Hj2); [done|apply inside_seqZ; lia|rewrite length_insert; lia|].
  rewrite length_insert in Hl2. fold a2. cbn [mbind res_bind].
  assert (zn v2 col = a mod 4) as Hx by (rewrite Hk2 by (rewrite ?elem_of_seqZ; lia); apply zn_insert_eq; lia).
  rewrite (zn_vget bits col) by lia. cbn [mbind res_bind]. rewrite slice_lower_bits_Ok by lia. fold hi rw.
  cbn [mbind res_bind]. rewrite (zn_vget v2 col), Hx by lia. cbn [mbind res_bind].
  rewrite Z.shiftl_mul_pow2 by lia. change (2 ^ 2) with 4.
  assert (2 ^ zn bits col <= 2 ^ 30) by (apply Z.pow_le_mono_r; lia).
  assert (2 ^ zn bits row <= 2 ^ 30) by (apply Z.pow_le_mono_r; lia).
  rewrite (i32_small (_ + _)) by lia. rewrite (i32_small rw) by lia.
  rewrite vset_inside by lia. cbn [mbind res_bind].
  rewrite vset_inside by (rewrite ?length_insert; lia). cbn [mbind res_bind].
  set (u := <[Z.to_nat row := rw]> (<[Z.to_nat col := a mod 4 + hi * 4]> v2)).
  assert (zn u col = a mod 4 + hi * 4) as Huc.
  { subst u. rewrite zn_insert_ne, zn_insert_eq by lia. done. }
  assert (zn u row = rw) as Hur by (subst u; rewrite zn_insert_eq by (rewrite length_insert; lia); done).
  assert (forall i, 0 <= i < row -> zn u i = zn v2 i) as Hui.
  { intros i Hi. subst u. rewrite !zn_insert_ne by lia. done. }
  exists u. rewrite Huc. split; [done|]. split.
  - split; [subst u; rewrite !length_insert; lia|]. intros i Hi%elem_of_seqZ0.
    destruct (decide (i < row)); [rewrite Hui by lia; apply Hd2, elem_of_seqZ0; lia|].
    destruct (decide (i = row)) as [->|]; [rewrite Hur; lia|]. replace i with col by lia.
    rewrite Huc. lia.
  - unfold mop_enc. rewrite Huc, Hur, (join_ext _ _ u v2), Hj2.
    2: { intros i Hi%elem_of_seqZ0. by apply Hui. }
    rewrite Z.mod_add, Z.div_add, (Z.mod_small (a mod 4) 4), (Z.div_small (a mod 4) 4), Z.add_0_l by lia.
    assert (hi + 2 ^ (zn bits col - 2) * rw = a2) as ->
      by (subst hi rw; pose proof (Z.div_mod a2 (2 ^ (zn bits col - 2))); lia).
    subst a2. pose proof (Z.div_mod (a / 4) (2 ^ W)). pose proof (Z.div_mod a 4).
    pose proof (pow2_pos W HW). lia.
Qed.

Lemma mop_enc_range u : in_bounds m u -> 0 <= mop_enc m u < 2 ^ addr_bits m.
Proof.
  intros [Hl Hd]. destruct mop_bits as (HW & Hc & Hr & ->).
  destruct Hmop as [[Hb Hlv Htwo Erow Ecol Htx] _ _].
  assert (0 <= zn u col < 2 ^ zn bits col) as Huc by (apply Hd, elem_of_seqZ0; lia).
  assert (0 <= zn u row < 2 ^ zn bits row) as Hur by (apply Hd, elem_of_seqZ0; lia).
  assert (0 <= join bits (seqZ 0 row) u < 2 ^ W) as Hj.
  { apply join_range; [done|]. intros i Hi%elem_of_seqZ0. apply Hd, elem_of_seqZ0. lia. }
  unfold mop_enc. cbv zeta.
  replace (2 ^ (W + zn bits row + zn bits col)) with (4 * (2 ^ W * (2 ^ (zn bits col - 2) * 2 ^ zn bits row))).
  2: { change 4 with (2 ^ 2). rewrite <- !Z.pow_add_r by lia. f_equal. lia. }
  assert (2 ^ zn bits col = 4 * 2 ^ (zn bits col - 2)) as Ec.
  { change 4 with (2 ^ 2). rewrite <- Z.pow_add_r by lia. f_equal. lia. }
  assert (0 <= zn u col / 4 < 2 ^ (zn bits col - 2)) as Hq.
  { split; [apply Z.div_pos; lia|]. apply Z.div_lt_upper_bound; lia. }
  pose proof (Z.mod_pos_bound (zn u col) 4 ltac:(lia)).
  assert (0 <= zn u col / 4 + 2 ^ (zn bits col - 2) * zn u row < 2 ^ (zn bits col - 2) * 2 ^ zn bits row) by nia.
  set (y := zn u col / 4 + 2 ^ (zn bits col - 2) * zn u row) in *.
  set (Y := 2 ^ (zn bits col - 2) * 2 ^ zn bits row) in *.
  assert (0 <= join bits (seqZ 0 row) u + 2 ^ W * y < 2 ^ W * Y) by nia. lia.
Qed.

(** Splitting a sum at a power of two. *)
Lemma radix_eq r x y x' y' : 0 <= x < r -> 0 <= x' < r -> x + r * y = x' + r * y' -> x = x' /\ y = y'.
Proof. intros. assert (y = y') by nia. subst. lia. Qed.

Lemma mop_enc_inj u w : in_bounds m u -> in_bounds m w -> mop_enc m u = mop_enc m w -> u = w.
Proof.
  intros Hu Hw. destruct Hu as [Hl Hd] eqn:Eu; destruct Hw as [Hl' Hd'] eqn:Ew; clear Eu Ew.
  destruct mop_bits as (HW & Hc & Hr & _).
  destruct Hmop as [[Hb Hlv Htwo Erow Ecol Htx] _ _].
  assert (0 <= zn u col < 2 ^ zn bits col) as Huc by (apply Hd, elem_of_seqZ0; lia).
  assert (0 <= zn w col < 2 ^ zn bits col) as Hwc by (apply Hd', elem_of_seqZ0; lia).
  assert (2 ^ zn bits col = 4 * 2 ^ (zn bits col - 2)) as Ec.
  { change 4 with (2 ^ 2). rewrite <- Z.pow_add_r by lia. f_equal. lia. }
  assert (digits_ok bits (seqZ 0 row) u) as Du by (intros i Hi%elem_of_seqZ0; apply Hd, elem_of_seqZ0; lia).
  assert (digits_ok bits (seqZ 0 row) w) as Dw by (intros i Hi%elem_of_seqZ0; apply Hd', elem_of_seqZ0; lia).
  unfold mop_enc. intros E. apply radix_eq in E as [E1 E]; [|apply Z.mod_pos_bound; lia..].
  apply radix_eq in E as [E2 E]; [|by apply join_range..].
  apply radix_eq in E as [E3 E].
  2,3: split; [apply Z.div_pos; lia|apply Z.div_lt_upper_bound; lia].
  apply (in_bounds_eq m); [done|done|]. intros i Hi.
  destruct (decide (i < row)); [apply (join_inj bits (seqZ 0 row)); try done; apply elem_of_seqZ0; lia|].
  destruct (decide (i = row)) as [->|]; [done|]. replace i with col by lia.
  pose proof (Z.div_mod (zn u col) 4). pose proof (Z.div_mod (zn w col) 4). lia.
Qed.

(** The mixing step, as a map on vectors within bounds. *)
Lemma mop_mix u :
  in_bounds m u -> exists v, MOP4CLXOR.xor_levels bits (zn u col) (seqZ 0 col) 0 u = Ok v /\
    in_bounds m v /\ zn v col = zn u col.
Proof.
  intros [Hl Hd]. pose proof (mop_index m Hmop) as Hix.
  destruct Hmop as [[Hb Hlv Htwo Erow Ecol Htx] _ _].
  destruct (xor_levels_ok bits (zn u col) Hb (seqZ 0 col) 0 u) as (v & E & Hlv' & Hf & Hdv).
  - apply inside_seqZ; lia.
  - lia.
  - intros i Hi%elem_of_seqZ0. apply Hd, elem_of_seqZ0. lia.
  - lia.
  - right. replace col with (row + 1) by lia. rewrite seqZ_snoc, removelast_last by lia. lia.
  - exists v. split; [done|]. rewrite elem_of_seqZ in Hf || idtac.
    assert (zn v col = zn u col) as Hcol by (apply Hf; [lia|rewrite elem_of_seqZ; lia]).
    split; [|done]. split; [lia|]. intros i Hi%elem_of_seqZ0. destruct (decide (i < col)).
    + apply Hdv, elem_of_seqZ0. lia.
    + replace i with col by lia. rewrite Hcol. apply Hd, elem_of_seqZ0. lia.
Qed.

Definition mop_unmix (v : list Z) : list Z :=
  from_res [] (MOP4CLXOR.xor_levels bits (zn v col) (seqZ 0 col) 0 v).

Lemma mop_inside : inside bits (seqZ 0 col).
Proof. destruct Hmop as [[] _ _]. apply inside_seqZ; lia. Qed.

Lemma mop_unmix_mix u v :
  in_bounds m u -> MOP4CLXOR.xor_levels bits (zn u col) (seqZ 0 col) 0 u = Ok v -> mop_unmix v = u.
Proof.
  intros Hu E. destruct (mop_mix u Hu) as (v' & E' & _ & Ec). rewrite E in E'. injection E' as <-.
  unfold mop_unmix. rewrite Ec. rewrite (xor_levels_involutive bits (zn u col) _ _ _ _ mop_inside E). done.
Qed.

Lemma mop_unmix_spec v :
  in_bounds m v -> in_bounds m (mop_unmix v) /\
    MOP4CLXOR.xor_levels bits (zn (mop_unmix v) col) (seqZ 0 col) 0 (mop_unmix v) = Ok v.
Proof.
  intros Hv. destruct (mop_mix v Hv) as (u & E & Hu & Ec).
  assert (mop_unmix v = u) as -> by (unfold mop_unmix; by rewrite E). split; [done|]. rewrite Ec.
  by apply xor_levels_involutive; [apply mop_inside|].
Qed.

Lemma mop_bijective : bijective m (MOP4CLXOR.apply m).
Proof.
  apply (bijective_of_enc m _ (fun v => mop_enc m (mop_unmix v)) (mop_mapper m Hmop)).
  - intros req Hr. apply in_range_shift in Hr; [|apply Hmop].
    destruct (slices_spec (Z.shiftr (addr req) (m_tx_offset m)) (resize_vec (m_num_levels m) (addr_vec req)) Hr)
      as (u & E & Hu & Eu).
    { destruct Hmop as [[] _ _]. rewrite length_resize_vec; lia. }
    destruct (mop_mix u Hu) as (v & E' & Hv & _). exists v. unfold MOP4CLXOR.apply. rewrite E.
    cbn [mbind res_bind]. rewrite E'. split; [done|]. split; [done|]. by rewrite (mop_unmix_mix u v Hu E').
  - intros v Hv. apply mop_enc_range. by apply mop_unmix_spec.
  - intros v w Hv Hw E. destruct (mop_unmix_spec v Hv) as [Hv' Ev], (mop_unmix_spec w Hw) as [Hw' Ew].
    apply mop_enc_inj in E; [|done|done]. rewrite E in Ev. rewrite Ev in Ew. by injection Ew.
Qed.
End Mop.

(** ** Mappers built by [setup] *)
Lemma log2_all_Ok l : Forall (fun c => 0 < c < 2 ^ 31) l -> log2_all l = Ok (Z.log2 <$> l).
Proof.
  induction 1 as [|c l Hc _ IH]; [done|]. cbn [log2_all]. rewrite calc_log2_Ok by lia.
  cbn [mbind res_bind]. by rewrite IH.
Qed.

Lemma log2_int c : 0 < c < 2 ^ 31 -> 0 <= Z.log2 c <= 30.
Proof. intros. split; [apply Z.log2_nonneg|]. assert (Z.log2 c < 31); [apply Z.log2_lt_pow2; lia|lia]. Qed.

(** The organization a linear mapper is made for: positive [int] counts, the
    row and the column last, and columns for at least one burst. *)
Record linear_org (levels : ImplDef) (count : list Z) (prefetch channel_width : Z) : Prop := {
  lo_counts : Forall (fun c => 0 < c < 2 ^ 31) count;
  lo_two : (2 <= List.length count)%nat;
  lo_row : spec_def_id levels "row" = Ok (Z.of_nat (List.length count) - 2);
  lo_prefetch : 0 < prefetch <= List.last count 0;
  lo_width : 0 <= prefetch * channel_width < 2 ^ 31;
}.

(** The bits of each level: the logarithm of its count, and for the column the
    bits left after a burst. *)
Definition level_bits (count : list Z) (prefetch : Z) : list Z :=
  <[pred (List.length count) := Z.log2 (List.last count 0) - Z.log2 prefetch]> (Z.log2 <$> count).

Lemma last_lookup (l : list Z) : l <> [] -> l !! pred (List.length l) = Some (List.last l 0).
Proof.
  induction l as [|x l IH]; [done|]. intros _. destruct l as [|y l]; [done|]. cbn [List.last].
  change (pred (List.length (x :: y :: l))) with (S (pred (List.length (y :: l)))). cbn [lookup].
  by apply IH.
Qed.

Lemma setup_spec levels count prefetch channel_width :
  linear_org levels count prefetch channel_width ->
  exists tx, 0 <= tx /\ setup levels count prefetch channel_width =
    Ok (mkMapper (Z.of_nat (List.length count)) (level_bits count prefetch) tx
          (Z.of_nat (List.length count) - 1) (Z.of_nat (List.length count) - 2)).
Proof.
  intros []. set (n := List.length count) in *.
  assert (count !! pred n = Some (List.last count 0)) as Hlast
    by (apply last_lookup; intros ->; cbn in *; lia).
  assert (0 < List.last count 0 < 2 ^ 31) as Hl by apply (Forall_lookup_1 _ _ _ _ lo_counts0 Hlast).
  unfold setup. rewrite log2_all_Ok by done. cbn [mbind res_bind]. fold n.
  unfold vget. rewrite bool_decide_true by lia.
  replace (Z.to_nat (Z.of_nat n - 1)) with (pred n) by lia.
  rewrite list_lookup_fmap, Hlast. cbn [fmap option_fmap option_map mbind res_bind].
  rewrite (calc_log2_Ok prefetch) by lia. cbn [mbind res_bind].
  rewrite vset_inside by (rewrite length_fmap; lia). cbn [mbind res_bind].
  assert (0 <= Z.quot (prefetch * channel_width) 8 < 2 ^ 64).
  { rewrite Z.quot_div_nonneg by lia. split; [apply Z.div_pos; lia|apply Z.div_lt_upper_bound; lia]. }
  rewrite calc_log2_Ok by done. cbn [mbind res_bind]. rewrite lo_row0. cbn [mbind res_bind].
  eexists. split; [|unfold level_bits; fold n; replace (pred n) with (Z.to_nat (Z.of_nat n - 1)) by lia; done].
  apply Z.log2_nonneg.
Qed.

Lemma length_level_bits count prefetch : List.length (level_bits count prefetch) = List.length count.
Proof. unfold level_bits. by rewrite length_insert, length_fmap. Qed.

Lemma setup_wf levels count prefetch channel_width m :
  linear_org levels count prefetch channel_width ->
  setup levels count prefetch channel_width = Ok m -> mapper_wf m.
Proof.
  intros Ho E. destruct (setup_spec _ _ _ _ Ho) as (tx & Htx & E'). rewrite E in E'. injection E' as ->.
  destruct Ho. split; cbn; [|by rewrite length_level_bits|lia|lia|lia|done].
  apply Forall_lookup_2. intros i b Hb. unfold level_bits in Hb.
  destruct (decide (i = pred (List.length count))) as [->|Hne].
  - rewrite list_lookup_insert_eq in Hb by (rewrite length_fmap; lia). injection Hb as <-.
    assert (0 < List.last count 0 < 2 ^ 31) as Hl.
    { apply (Forall_lookup_1 _ _ _ _ lo_counts0 (last_lookup count ltac:(intros ->; cbn in *; lia))). }
    pose proof (log2_int _ Hl). pose proof (Z.log2_nonneg prefetch).
    pose proof (Z.log2_le_mono prefetch (List.last count 0)). lia.
  - rewrite list_lookup_insert_ne, list_lookup_fmap in Hb by done.
    destruct (count !! i) as [c|] eqn:E'; [|done]. injection Hb as <-.
    apply log2_int, (Forall_lookup_1 _ _ _ _ lo_counts0 E').
Qed.

(** Property C22.  For every organization with positive counts whose last two
    levels are the row and the column, the mappers ChRaBaRoCo and RoBaRaCoCh
    built by [setup] are bijections: every address of the memory gets an index
    vector within bounds and nothing else of the request changes, addresses of
    different transactions get different vectors, and every vector within
    bounds is the image of an address. *)
Theorem linear_mappers_bijective levels count prefetch channel_width m :
  linear_org levels count prefetch channel_width ->
  setup levels count prefetch channel_width = Ok m ->
  bijective m (ChRaBaRoCo.apply m) /\ bijective m (RoBaRaCoCh.apply m).
Proof.
  intros Ho E. apply (setup_wf _ _ _ _ m Ho) in E. split.
  - apply (linear_bijective m (ChRaBaRoCo.order m) E), ChRaBaRoCo_order, E.
  - apply (linear_bijective m (RoBaRaCoCh.order m) E), RoBaRaCoCh_order, E.
Qed.

(** The same holds for MOP4CLXOR, which mixes column bits into
    the other indices, when the column has at least the two bits it slices
    first and the levels above the row need fewer than 32 bits (beyond that the
    code shifts an [int] by its width). *)
Theorem mop4clxor_bijective levels count prefetch channel_width m :
  linear_org levels count prefetch channel_width ->
  setup levels count prefetch channel_width = Ok m ->
  2 <= zn (m_addr_bits m) (m_col_bits_idx m) ->
  width (m_addr_bits m) (seqZ 0 (m_row_bits_idx m)) < 32 ->
  bijective m (MOP4CLXOR.apply m).
Proof.
  intros Ho E H2 H3. apply mop_bijective. split; [|done|done]. by apply (setup_wf _ _ _ _ m Ho).
Qed.

(** The organization of the shipped configuration: 8 channels of two ranks of
    DDR4 with 4 bank groups of 4 banks, 64-bit channels, bursts of 8. *)
Definition shipped_count : list Z := [8; 2; 4; 4; 65536; 1024].
Definition shipped_mapper : Mapper := mkMapper 6 [3; 1; 2; 2; 16; 7] 6 5 4.

Lemma shipped_org : linear_org DDR4.levels shipped_count 8 64.
Proof. split; [repeat constructor|cbn; lia|reflexivity|cbn; lia|lia]. Qed.

Lemma shipped_setup : setup DDR4.levels shipped_count 8 64 = Ok shipped_mapper.
Proof. vm_compute. reflexivity. Qed.

Lemma linear_mappers_bijective_witness :
  setup DDR4.levels shipped_count 8 64 = Ok shipped_mapper /\
  bijective shipped_mapper (ChRaBaRoCo.apply shipped_mapper) /\ bijective shipped_mapper (RoBaRaCoCh.apply shipped_mapper).
Proof.
  split; [apply shipped_setup|].
  apply (linear_mappers_bijective DDR4.levels shipped_count 8 64 shipped_mapper shipped_org shipped_setup).
Defined.

Lemma mop4clxor_bijective_witness :
  setup DDR4.levels shipped_count 8 64 = Ok shipped_mapper /\ bijective shipped_mapper (MOP4CLXOR.apply shipped_mapper).
Proof.
  split; [apply shipped_setup|].
  apply (mop4clxor_bijective DDR4.levels shipped_count 8 64 shipped_mapper shipped_org shipped_setup);
    vm_compute; [discriminate|reflexivity].
Defined.
