(* ===== verification/NumaMapping.v ===== *)
(** * Page placement and address mapping together

    [Local_to_requester] puts a page into the partition of the requester's
    channel; the channel a request is sent to is the first index the address
    mapper computes.  This file relates the two. *)
From Stdlib Require Import String.
From S2P Require Import Prelude Rng CxxFloat Utils Request Numa NumaFacts LocalToRequester.
From S2P Require Import DynamicMigration DramSpec DDR4 AddrMapper.
Local Open Scope Z_scope.

Lemma join_snoc bits o i v : bits_ok bits ->
  join bits (o ++ [i]) v = join bits o v + 2 ^ width bits o * zn v i.
Proof.
  intros Hb. induction o as [|j o IH]; cbn [join width app]; [lia|].
  pose proof (zn_bits bits j Hb). pose proof (width_nonneg bits o Hb).
  rewrite IH, Z.pow_add_r by lia. lia.
Qed.

(** The bytes of one channel. *)
Definition channel_bytes (m : Mapper) : Z :=
  2 ^ (addr_bits m - zn (m_addr_bits m) 0 + m_tx_offset m).

Lemma channel_index m req :
  mapper_wf m -> in_range m (addr req) ->
  exists v, ChRaBaRoCo.apply m req = Ok (set_addr_vec v req) /\ in_bounds m v /\
    zn v 0 = addr req / channel_bytes m.
Proof.
  intros Hm Hr. pose proof (mw_two m Hm). pose proof (mw_levels m Hm) as Hl.
  pose proof (mw_bits m Hm) as Hb. pose proof (in_range_shift m _ Hm Hr) as Hs.
  destruct (linear_spec m (ChRaBaRoCo.order m) Hm (ChRaBaRoCo_order m Hm) req) as (v & E & Hv & Hj).
  exists v. split; [exact E|]. split; [done|]. rewrite Z.mod_small in Hj by done.
  unfold ChRaBaRoCo.order in Hj. rewrite <- Hl, seqZ_cons, reverse_cons, join_snoc in Hj by (done || lia).
  set (o := reverse (seqZ (Z.succ 0) (Z.pred (m_num_levels m)))) in *.
  assert (width (m_addr_bits m) o = addr_bits m - zn (m_addr_bits m) 0) as Hw.
  { unfold addr_bits, all_levels. rewrite (seqZ_cons 0) by lia. cbn [width].
    rewrite (width_perm _ o (seqZ (Z.succ 0) (Z.pred (m_num_levels m)))); [lia|apply reverse_Permutation]. }
  assert (0 <= join (m_addr_bits m) o v < 2 ^ width (m_addr_bits m) o) as Hlow.
  { apply join_range; [done|]. intros i Hi. apply Hv. unfold o in Hi.
    rewrite elem_of_reverse, elem_of_seqZ in Hi. apply elem_of_seqZ. lia. }
  pose proof (width_nonneg (m_addr_bits m) o Hb). pose proof (mw_tx m Hm).
  unfold channel_bytes. rewrite <- Hw, Z.add_comm, Z.pow_add_r, <- Z.div_div by (try apply Z.pow_nonzero; lia).
  rewrite <- (Z.shiftr_div_pow2 (addr req) (m_tx_offset m)), <- Hj by done. rewrite Z.mul_comm, Z.div_add by lia.
  rewrite Z.div_small by done. lia.
Qed.

(** Property C21.  When the channel partitions of the allocator are exactly the
    channels of the memory, a page that is first touched by a core goes to the
    channel of that core: after translation and ChRaBaRoCo mapping, the request
    carries the requester's channel as its first index. *)
Theorem first_touch_goes_to_requester_channel {RNG : Rng} c g s fuel req b req' s' m :
  cfg_ok c -> Local.reach c g s -> mapper_wf m -> 3 <= zn (m_addr_bits m) 0 ->
  pages_per_channel c * 2 ^ m_offsetbits c = channel_bytes m ->
  Local.translate fuel req s = Ok (b, req', s') ->
  global_page_table (tables s) !! (addr req / 2 ^ m_offsetbits c) = None ->
  0 <= source_id req < 8 ->
  exists v, ChRaBaRoCo.apply m req' = Ok (set_addr_vec v req') /\ v !! 0%nat = Some (source_id req).
Proof.
  intros Hc Hreach Hm H3 Hpart Ht Hnew Hsrc. apply Local.local_reach_inv in Hreach as [Hinv <-]; [|done].
  apply Local.translate_cases in Ht as (ppn & -> & -> & _ & _ & Hp); [|done].
  pose proof (cfg_bits _ Hc) as Hbits. pose proof (cfg_pos _ Hc). rewrite Z.shiftr_div_pow2 in Hp by lia.
  assert (ppn / pages_per_channel (cfg s) = source_id req) as Hch by (inversion Hp; congruence).
  pose proof (pow2_pos (m_offsetbits (cfg s)) ltac:(lia)) as Hpow.
  set (a := phys_addr (cfg s) ppn (addr req)).
  assert (a / channel_bytes m = source_id req) as Hidx.
  { subst a. rewrite phys_addr_spec, <- Hpart, (Z.mul_comm (pages_per_channel _)), <- Z.div_div by lia.
    rewrite Z.div_add_l, (Z.div_small (_ mod _)), Z.add_0_r by (try apply Z.mod_pos_bound; lia). done. }
  pose proof (mw_tx m Hm). pose proof (width_nonneg _ (all_levels m) (mw_bits m Hm)).
  assert (0 < channel_bytes m) by lia.
  assert (8 * channel_bytes m <= 2 ^ (addr_bits m + m_tx_offset m)) as Hbig.
  { unfold channel_bytes. destruct (decide (0 <= addr_bits m - zn (m_addr_bits m) 0 + m_tx_offset m)).
    - change 8 with (2 ^ 3). rewrite <- Z.pow_add_r by lia. apply Z.pow_le_mono_r; lia.
    - rewrite Z.pow_neg_r by lia. apply Z.pow_nonneg. lia. }
  assert (in_range m a) as Hr.
  { unfold in_range. pose proof (Z.div_mod a (channel_bytes m)).
    pose proof (Z.mod_pos_bound a (channel_bytes m)). nia. }
  destruct (channel_index m (set_addr a (set_virtual (Z.shiftr (addr req) (m_offsetbits (cfg s))) (addr req) req))
              Hm Hr) as (v & E & [Hl Hv] & E0).
  exists v. split; [exact E|]. cbn [addr set_addr] in E0. rewrite Hidx in E0. unfold zn in E0.
  pose proof (mw_two m Hm). destruct (lookup_lt_is_Some_2 v (Z.to_nat 0)) as [x Hx]; [lia|].
  change (Z.to_nat 0) with 0%nat in *. rewrite Hx in E0 |- *. cbn in E0. by rewrite E0.
Qed.

(** A memory of 8 channels of 16 pages each. *)
Definition small_mapper : Mapper := mkMapper 6 [3; 0; 1; 1; 4; 4] 6 5 4.
Definition small_cfg : Config := mkConfig 524288 4096 12 128 10 100 0 25 16.

Lemma small_mapper_wf : mapper_wf small_mapper.
Proof. split; cbn; try lia. repeat constructor; lia. Qed.

Lemma first_touch_goes_to_requester_channel_witness :
  exists b req' s',
    @Local.translate counter_rng 20 (demo_req 102 3) (@init_state counter_rng small_cfg 5) = Ok (b, req', s') /\
    exists v, ChRaBaRoCo.apply small_mapper req' = Ok (set_addr_vec v req') /\ v !! 0%nat = Some 3.
Proof.
  destruct (@Local.translate counter_rng 20 (demo_req 102 3) (@init_state counter_rng small_cfg 5))
    as [[[b r'] s']|e] eqn:E; [|apply (f_equal ok_b) in E; vm_compute in E; discriminate E].
  exists b, r', s'. split; [reflexivity|].
  apply (@first_touch_goes_to_requester_channel counter_rng small_cfg 5 (@init_state counter_rng small_cfg 5)
           20 (demo_req 102 3) b r' s' small_mapper); try exact E.
  - split; cbn; lia || reflexivity.
  - apply Local.reach_init.
  - apply small_mapper_wf.
  - vm_compute. discriminate.
  - vm_compute. reflexivity.
  - apply lookup_empty.
  - cbn. lia.
Defined.

(** [Dynamic_migration::init] with the parameters of the shipped
    [example_config.yaml] (the page size is the default of 4 KB). *)
Definition shipped_cfg : res Config :=
  Dynamic.init 137438953471 4 10000 1000000 10 (F64.of_Z 153).

(** With the shipped configuration ([max_addr: 137438953471],
    pages of 4 KB, 8 channels of DDR4) a partition of the allocator is one page
    smaller than a channel of the memory, so partitions and channels drift
    apart: the first [ch] pages of partition [ch] are served by channel
    [ch - 1], the others by channel [ch]. *)
Theorem shipped_partitions_are_skewed :
  exists c, shipped_cfg = Ok c /\ pages_per_channel c = 2 ^ 22 - 1 /\
  forall ch i off req, 0 <= ch < 8 -> 0 <= i < pages_per_channel c -> 0 <= off < 4096 ->
    addr req = (ch * pages_per_channel c + i) * 4096 + off ->
    exists v, ChRaBaRoCo.apply shipped_mapper req = Ok (set_addr_vec v req) /\
      v !! 0%nat = Some (if i <? ch then ch - 1 else ch).
Proof.
  destruct shipped_cfg as [c|e] eqn:E; vm_compute in E; [injection E as <-|discriminate E].
  eexists. split; [done|]. split; [reflexivity|]. cbn [pages_per_channel].
  change 4194303 with (2 ^ 22 - 1). intros ch i off req Hch Hi Hoff Ha.
  assert (mapper_wf shipped_mapper) as Hm by (split; cbn; try lia; repeat constructor; lia).
  assert (in_range shipped_mapper (addr req)) as Hr.
  { unfold in_range. change (2 ^ (addr_bits shipped_mapper + m_tx_offset shipped_mapper)) with (2 ^ 37). lia. }
  destruct (channel_index shipped_mapper req Hm Hr) as (v & Ev & [Hl Hv] & E0).
  exists v. split; [exact Ev|]. change (channel_bytes shipped_mapper) with (2 ^ 34) in E0.
  destruct (lookup_lt_is_Some_2 v 0) as [x Hx]; [change (m_num_levels shipped_mapper) with 6 in Hl; lia|].
  unfold zn in E0. change (Z.to_nat 0) with 0%nat in E0. rewrite Hx in E0. cbn in E0. rewrite Hx, E0, Ha.
  f_equal. symmetry. destruct (Z.ltb_spec i ch).
  - apply Z.div_unique with (((ch * (2 ^ 22 - 1) + i) * 4096 + off) - 2 ^ 34 * (ch - 1)); lia.
  - apply Z.div_unique with (((ch * (2 ^ 22 - 1) + i) * 4096 + off) - 2 ^ 34 * ch); lia.
Qed.

Lemma shipped_partitions_are_skewed_witness :
  exists v, ChRaBaRoCo.apply shipped_mapper (Request_addr_type (7 * (2 ^ 22 - 1) * 4096) 0) =
    Ok (set_addr_vec v (Request_addr_type (7 * (2 ^ 22 - 1) * 4096) 0)) /\ v !! 0%nat = Some 6.
Proof.
  destruct shipped_partitions_are_skewed as (c & _ & Hp & H).
  apply (H 7 0 0 (Request_addr_type (7 * (2 ^ 22 - 1) * 4096) 0)); rewrite ?Hp; cbn; lia.
Defined.
