(* ===== verification/MemorySystem.v ===== *)
(** * Memory systems

    Models [memory_system/impl/generic_DRAM_system.cpp] and
    [custom_DRAM_system.cpp]: one device shared by one controller per channel
    behind an address mapper.  The class [IAddrMapper] is what the memory
    system uses of a mapper. *)
From Stdlib Require Import String.
From S2P Require Import Prelude CxxFloat Utils Request DramSpec Dram Scheduler Controller.
From S2P Require Import AddrMapper Plugin.
Local Open Scope string_scope.
Local Open Scope Z_scope.

(** A mapper fills in the index vector and changes nothing else. *)
Class IAddrMapper : Type := {
  map_apply : Request -> res Request;
  map_apply_frame : forall req req', map_apply req = Ok req' -> exists v, req' = set_addr_vec v req;
}.

#[refine] Definition ChRaBaRoCo_mapper (m : Mapper) : IAddrMapper :=
  {| map_apply := ChRaBaRoCo.apply m |}.
Proof. unfold ChRaBaRoCo.apply. intros req req' H. res_inv. eauto. Defined.

#[refine] Definition RoBaRaCoCh_mapper (m : Mapper) : IAddrMapper :=
  {| map_apply := RoBaRaCoCh.apply m |}.
Proof. unfold RoBaRaCoCh.apply. intros req req' H. res_inv. eauto. Defined.

#[refine] Definition MOP4CLXOR_mapper (m : Mapper) : IAddrMapper :=
  {| map_apply := MOP4CLXOR.apply m |}.
Proof. unfold MOP4CLXOR.apply. intros req req' H. res_inv. eauto. Defined.

(** ** [GenericDRAMSystem] *)
Section MemorySystem.
Context `{D : IDRAM} `{S : !IScheduler} `{M : !IAddrMapper}.

(** [int] statistics: overflow is undefined. *)
Record SysStats : Type := mkSysStats {
  s_num_read_requests : Z;
  s_num_write_requests : Z;
  s_num_other_requests : Z;
}.

Record MemSys : Type := mkMemSys {
  ms_clk : Z;
  m_dram : dev;
  m_controllers : list Ctrl;
  ms_stats : SysStats;
}.

(** The parameters of the controllers and the plugins each of them starts with. *)
Record SysConfig : Type := mkSysConfig {
  sys_num_cores : nat;
  sys_bank_addr_idx : Z;
  sys_wr_low : spec_float;
  sys_wr_high : spec_float;
  sys_plugins : list Plugin;
}.

Definition ctrl_config (p : SysConfig) (channel : Z) : CtrlConfig :=
  mkCtrlConfig channel (sys_bank_addr_idx p) (sys_wr_low p) (sys_wr_high p).

(** [setup] of the controller reads the bank level from the device. *)
Definition sys_config (num_cores : nat) (low high : spec_float) (ps : list Plugin) : res SysConfig :=
  bank ← def_of_name dram_levels "bank";
  Ok (mkSysConfig num_cores bank low high ps).

Definition init (p : SysConfig) (rp : RowPolicy) (dv : dev) : res MemSys :=
  num_channels ← get_level_size "channel";
  rf ← refresh_setup;
  Ok (mkMemSys 0 dv (replicate (Z.to_nat num_channels) (new_ctrl (sys_num_cores p) rf rp (sys_plugins p)))
        (mkSysStats 0 0 0)).

Definition incr (x : Z) : res Z := if x <? 2 ^ 31 - 1 then Ok (x + 1) else Err Undef.

Definition count_request (ty : Z) (st : SysStats) : res SysStats :=
  if ty =? ReqType.Read then
    n ← incr (s_num_read_requests st);
    Ok (mkSysStats n (s_num_write_requests st) (s_num_other_requests st))
  else if ty =? ReqType.Write then
    n ← incr (s_num_write_requests st);
    Ok (mkSysStats (s_num_read_requests st) n (s_num_other_requests st))
  else
    n ← incr (s_num_other_requests st);
    Ok (mkSysStats (s_num_read_requests st) (s_num_write_requests st) n).

(** The request is passed by value: the caller keeps its copy. *)
Definition send (req : Request) (s : MemSys) : res (bool * MemSys) :=
  req ← map_apply req;
  channel_id ← vget (addr_vec req) 0;
  c ← vget (m_controllers s) channel_id;
  '(is_success, req, c) ← Controller.send req c;
  cs ← vset (m_controllers s) channel_id c;
  st ← (if is_success : bool then count_request (type_id req) (ms_stats s) else Ok (ms_stats s));
  Ok (is_success, mkMemSys (ms_clk s) (m_dram s) cs st).

(** The controllers tick in channel order and share the device; the reads they
    complete are handed to the frontend in this order. *)
Fixpoint tick_controllers (p : SysConfig) (channel : Z) (dv : dev) (cs : list Ctrl)
    : res (list Request * dev * list Ctrl) :=
  match cs with
  | [] => Ok ([], dv, [])
  | c :: cs =>
      '(dn, dv, c) ← Controller.tick (ctrl_config p channel) dv c;
      '(dns, dv, cs) ← tick_controllers p (channel + 1) dv cs;
      Ok ((option_list dn ++ dns)%list, dv, c :: cs)
  end.

Definition tick (p : SysConfig) (s : MemSys) : res (list Request * MemSys) :=
  dv ← dram_tick (m_dram s);
  '(dns, dv, cs) ← tick_controllers p 0 dv (m_controllers s);
  Ok (dns, mkMemSys (ms_clk s + 1) dv cs (ms_stats s)).

(** ** [CustomDRAMSystem]: a cache of the four most accessed pages in front *)
Record Custom : Type := mkCustom {
  cu_sys : MemSys;
  vpn_access_counts : gmap Z Z;
  top_cache : list Z;
  total_cache_req : Z;
}.

Definition is_in_top_cache (vpn : Z) (cache : list Z) : bool :=
  existsb (fun p => p =? u64 vpn) cache.

(** The entry with the smallest count; [operator[]] inserts a missing page. *)
Fixpoint min_cached (i : Z) (cache : list Z) (counts : gmap Z Z) (min_index min_count : Z)
    : Z * Z * gmap Z Z :=
  match cache with
  | [] => (min_index, min_count, counts)
  | p :: cache =>
      let count := default 0 (counts !! i64 p) in
      let counts := <[i64 p := count]> counts in
      if count <? min_count then min_cached (i + 1) cache counts i count
      else min_cached (i + 1) cache counts min_index min_count
  end.

Definition update_top_cache (vpn vpn_total_count : Z) (cache : list Z) (counts : gmap Z Z)
    : res (list Z * gmap Z Z) :=
  if is_in_top_cache vpn cache then Ok (cache, counts)
  else if Z.of_nat (List.length cache) <? 4 then Ok ((cache ++ [u64 vpn])%list, counts)
  else
    let '(min_index, min_count, counts) := min_cached 0 cache counts 0 SIZE_MAX in
    if min_count <? vpn_total_count then
      cache ← vset cache min_index (u64 vpn); Ok (cache, counts)
    else Ok (cache, counts).

Definition custom_send (req : Request) (s : Custom) : res (bool * Custom) :=
  let vpn := Z.shiftr (v_addr req) 12 in
  let n := u64 (default 0 (vpn_access_counts s !! vpn) + 1) in
  let counts := <[vpn := n]> (vpn_access_counts s) in
  if is_in_top_cache vpn (top_cache s) then
    st ← count_request (type_id req) (ms_stats (cu_sys s));
    Ok (false, mkCustom (mkMemSys (ms_clk (cu_sys s)) (m_dram (cu_sys s)) (m_controllers (cu_sys s)) st)
                 counts (top_cache s) (u64 (total_cache_req s + 1)))
  else
    '(cache, counts) ← update_top_cache vpn n (top_cache s) counts;
    '(is_success, sys) ← send req (cu_sys s);
    Ok (is_success, mkCustom sys counts cache (total_cache_req s)).

Definition custom_tick (p : SysConfig) (s : Custom) : res (list Request * Custom) :=
  '(dns, sys) ← tick p (cu_sys s);
  Ok (dns, mkCustom sys (vpn_access_counts s) (top_cache s) (total_cache_req s)).

End MemorySystem.
