(* ===== verification/MemorySystemFacts.v ===== *)
(** * The memory system as a whole

    Every run of [GenericDRAMSystem] over any standard, with any scheduler,
    address mapper and plugins, drives the device only with commands it accepts, keeps the
    clocks of the device and of the controllers in step and keeps every request
    in the controller of its channel. *)
From Stdlib Require Import String.
From S2P Require Import HBM StandardsFacts.
From S2P Require Import Prelude CxxFloat Utils Request DramSpec DramConfig DramTiming Device.
From S2P Require Import DeviceFacts DDR4 DDR4Facts Dram Scheduler Controller ControllerFacts.
From S2P Require Import AddrMapper Plugin MemorySystem.
Local Open Scope string_scope.
Local Open Scope Z_scope.

(** ** Requests stay in their channel *)
Definition at_channel (ch : Z) (r : Request) : Prop := addr_vec r !! 0%nat = Some ch.

Definition routed (ch : Z) (c : Ctrl) : Prop := forall r, r ∈ live c -> at_channel ch r.

Lemma routed_sub ch c c' : (forall r, r ∈ live c' -> r ∈ live c) -> routed ch c -> routed ch c'.
Proof. unfold routed. auto. Qed.

Lemma enqueue_sub i r c x :
  x ∈ live (set_buf i (enqueue r (get_buf i c)).2 c) -> x = rkey r \/ x ∈ live c.
Proof.
  rewrite live_set, (live_split i c). unfold enqueue, keys. destruct (_ <=? _); cbn [snd buffer];
    rewrite ?fmap_app, !elem_of_app; cbn; rewrite ?elem_of_cons, ?elem_of_nil; tauto.
Qed.

Lemma enqueue_routed ch i r c :
  at_channel ch r -> routed ch c -> routed ch (set_buf i (enqueue r (get_buf i c)).2 c).
Proof. intros Hr Hc x [->|Hx]%enqueue_sub; [exact Hr|by apply Hc]. Qed.

Lemma buffered_live i k c r : buffer (get_buf i c) !! k = Some r -> rkey r ∈ live c.
Proof.
  intros Hk. rewrite (live_split i c), elem_of_app. left. unfold keys.
  apply list_elem_of_fmap. exists r. split; [done|]. by eapply list_elem_of_lookup_2.
Qed.

Section Routing.
Context `{D : IDRAM} `{S : !IScheduler} (cf : CtrlConfig).
Notation ch := (m_channel_id cf).

Lemma send_routed x req c ok req' c' :
  Controller.send req c = Ok (ok, req', c') -> at_channel x req -> routed x c -> routed x c'.
Proof.
  unfold Controller.send. intros H Hreq Hc. apply bind_Ok in H as (fc & _ & H). cbv zeta in H.
  set (c1 := count_req _ 1 c) in H. set (req1 := set_arrive _ _) in H.
  assert (routed x c1) as Hc1 by exact Hc.
  assert (forall i b o, enqueue req1 (get_buf i c1) = (o, b) -> routed x (set_buf i b c1)) as He.
  { intros i b o E. replace b with (enqueue req1 (get_buf i c1)).2 by (by rewrite E).
    by apply enqueue_routed. }
  destruct (_ && _).
  - assert (c' = set_pending (pending c1 ++ [set_depart (m_clk c1 + 1) (set_final_command fc req)])%list c1)
      as -> by congruence.
    intros r. rewrite live_pending. cbn [fmap list_fmap app]. rewrite elem_of_cons.
    intros [->|?]; [exact Hreq|by apply Hc].
  - destruct (_ =? _); [|destruct (_ =? _); [|done]];
      destruct (enqueue _ _) as [[] b] eqn:E; injection H as <- <- <-; try exact Hc.
    + by apply (He BRead b true).
    + by apply (He BWrite b true).
Qed.

Lemma priority_send_routed x req c ok c' :
  priority_send req c = Ok (ok, c') -> at_channel x req -> routed x c -> routed x c'.
Proof.
  unfold priority_send. intros H Hreq Hc. apply bind_Ok in H as (fc & _ & H).
  destruct (enqueue _ _) as [o b] eqn:E. injection H as <- <-.
  replace b with (enqueue (set_final_command fc req) (get_buf BPriority c)).2 by (cbn [get_buf]; by rewrite E).
  apply (enqueue_routed x BPriority); [exact Hreq|exact Hc].
Qed.

Lemma send_refreshes_routed ranks req_id c c' :
  send_refreshes cf ranks req_id c = Ok c' -> routed ch c -> routed ch c'.
Proof.
  revert c. induction ranks as [|r ranks IH]; cbn [send_refreshes]; intros c H Hc; [by res_inv|].
  res_inv. destruct b; [|done]. apply (IH _ H). eapply priority_send_routed; [eassumption| |done].
  unfold at_channel. cbn. apply vset_Ok in H0 as [Hr ->]. apply vset_Ok in H1 as [_ ->].
  rewrite list_lookup_insert_ne by lia. apply list_lookup_insert_eq. lia.
Qed.

Lemma refresh_tick_routed c c' : refresh_tick cf c = Ok c' -> routed ch c -> routed ch c'.
Proof.
  unfold refresh_tick. cbv zeta. destruct (_ =? _); intros H Hc.
  - by apply send_refreshes_routed in H.
  - injection H as <-. exact Hc.
Qed.

Lemma rowpolicy_update_routed found c c' :
  rowpolicy_update found c = Ok c' -> routed ch c -> routed ch c'.
Proof.
  unfold rowpolicy_update. intros H Hc.
  destruct (m_rowpolicy c) as [|p], found as [[i k]|]; try (injection H as <-; exact Hc).
  apply bind_Ok in H as (r & [_ Hr]%vget_Ok & H). rewrite Nat2Z.id in Hr.
  assert (at_channel ch r) as Hch by (apply (Hc (rkey r)); by eapply buffered_live).
  unfold closed_update in H. res_inv. destruct (_ || _); [res_inv; subst; exact Hc|].
  destruct (is_accessing _); [|injection H as <-; exact Hc]. res_inv.
  destruct (_ <=? _); res_inv; [|exact Hc].
  lazymatch goal with
  | Hp : priority_send _ _ = Ok _ |- _ => exact (priority_send_routed ch _ _ _ _ Hp Hch Hc)
  end.
Qed.

Lemma remove_sub i k c x : x ∈ live (set_buf i (remove k (get_buf i c)) c) -> x ∈ live c.
Proof.
  rewrite live_set, (live_split i c), !elem_of_app. unfold keys, remove. cbn [buffer].
  intros [(r & -> & Hr)%list_elem_of_fmap|?]; [left|by right].
  apply list_elem_of_fmap. exists r. split; [done|]. by eapply list_elem_of_delete_inv.
Qed.

Lemma issue_found_sub dv i k c r dv' c' x :
  buffer (get_buf i c) !! k = Some r -> issue_found dv i k c = Ok (dv', c') -> x ∈ live c' -> x ∈ live c.
Proof.
  intros Hr H. unfold issue_found in H. apply bind_Ok in H as (r1 & [_ Hr1]%vget_Ok & H).
  rewrite Nat2Z.id, Hr in Hr1. injection Hr1 as <-.
  apply bind_Ok in H as (st & _ & H). cbv zeta in H.
  destruct (stat_update_live i k c r st Hr) as [Hlive Hk]. set (c1 := set_buf i _ (set_stats st c)) in *.
  apply bind_Ok in H as (dv1 & _ & H). rewrite <- Hlive.
  assert (rkey (set_stat_updated true r) ∈ live c1) as Hin by (by eapply buffered_live).
  destruct (_ =? _).
  - injection H as <- <-. intros Hx%remove_sub. destruct (_ =? _); [|done].
    change (x ∈ live (set_pending (pending c1 ++
      [set_depart (m_clk c1 + dram_read_latency) (set_stat_updated true r)])%list c1)) in Hx.
    rewrite live_pending in Hx. cbn [fmap list_fmap app] in Hx. apply elem_of_cons in Hx as [->|?]; [exact Hin|done].
  - apply bind_Ok in H as (meta & _ & H). destruct (is_opening meta); injection H as <- <-; [|done].
    intros Hx%remove_sub. apply (enqueue_sub BActive) in Hx as [->|?]; [exact Hin|done].
Qed.

(** ** The clock of a controller *)
Lemma issue_found_clk dv i k c dv' c' : issue_found dv i k c = Ok (dv', c') -> m_clk c' = m_clk c.
Proof.
  unfold issue_found. intros H. apply bind_Ok in H as (r & _ & H). apply bind_Ok in H as (st & _ & H).
  apply bind_Ok in H as (dv1 & _ & H). destruct (_ =? _).
  - injection H as <- <-. by destruct (_ =? _).
  - apply bind_Ok in H as (meta & _ & H). by destruct (is_opening meta); injection H as <- <-.
Qed.

(** The plugins: by their interface they stay in the channel. *)
Lemma plugins_update_frame found c c' :
  plugins_update found c = Ok c' ->
  m_clk c' = m_clk c /\ (routed ch c -> routed ch c') /\
  (forall i k r, buffer (get_buf i c) !! k = Some r -> buffer (get_buf i c') !! k = Some r).
Proof.
  intros H. split; [|split].
  - apply (plugins_update_spec (fun _ => True)) in H as (l & c1 & Ha & _ & _ & E); [|done|done].
    rewrite E. apply (ap_clk _ _ _ Ha).
  - intros Hc. apply (plugins_update_spec (at_channel ch)) in H as (l & c1 & Ha & Hl & _ & E).
    + rewrite E. change (routed ch c1). intros r Hr. rewrite (adds_live _ _ _ Ha), elem_of_app in Hr.
      destruct Hr as [Hr|(q & -> & Hq)%list_elem_of_fmap]; [by apply Hc|].
      by apply (proj1 (List.Forall_forall _ _) Hl q), list_elem_of_In.
    + done.
    + intros i k r q _ Hq Hv. unfold at_channel. rewrite Hv.
      apply (Hc (rkey q)). by eapply buffered_live.
  - intros i k r Hr. apply (plugins_update_spec (fun _ => True)) in H as (l & c1 & Ha & _ & _ & E); [|done|done].
    rewrite E. replace (get_buf i (set_plugins (m_plugins c') c1)) with (get_buf i c1) by (by destruct i).
    by eapply adds_lookup.
Qed.

(** What one tick of a controller does to the device, to its clock and to the
    channel of its requests. *)
Lemma tick_frame dv c dn dv' c' :
  Controller.tick cf dv c = Ok (dn, dv', c') ->
  m_clk c' = m_clk c + 1 /\ (routed ch c -> routed ch c' /\ forall r, dn = Some r -> at_channel ch r).
Proof.
  unfold Controller.tick. cbv zeta. set (c0 := count_queues _). intros H.
  apply bind_Ok in H as ([dn1 c1] & H1 & H). apply bind_Ok in H as (c2 & H2 & H).
  apply bind_Ok in H as ([found c3] & H3 & H). apply bind_Ok in H as (c4 & H4 & H).
  apply bind_Ok in H as (c5 & H5 & H). apply plugins_update_frame in H5 as (Hk5 & Hr5 & Hb5).
  apply serve_completed_reads_spec in H1 as (Hp1 & Hb1 & Hk1 & _ & _ & _).
  pose proof (refresh_tick_spec _ _ _ H2) as (l2 & Ha2 & _).
  apply schedule_request_spec in H3 as [Hs3 Hf3].
  pose proof (rowpolicy_update_spec _ _ _ H4) as (l4 & Ha4 & _).
  assert (m_clk c5 = m_clk c + 1) as Hclk.
  { rewrite Hk5, (ap_clk _ _ _ Ha4), (sr_clk _ _ Hs3), (ap_clk _ _ _ Ha2), Hk1. done. }
  assert (routed ch c -> routed ch c5 /\ forall r, dn1 = Some r -> at_channel ch r) as Hr.
  { intros Hc. pose proof (serve_live c0 dn1 c1 Hp1 Hb1) as Hl. change (live c0) with (live c) in Hl. split.
    - apply Hr5, (rowpolicy_update_routed found c3); [done|].
      apply (routed_sub ch c2); [by rewrite (same_reqs_live _ _ Hs3)|].
      apply (refresh_tick_routed c1); [done|].
      intros r Hr. apply Hc. rewrite Hl, elem_of_app. by right.
    - intros r ->. apply (Hc (rkey r)). rewrite Hl. cbn. apply list_elem_of_here. }
  destruct found as [[i k]|].
  - destruct (Hf3 i k eq_refl) as (r & Hr3 & _).
    apply bind_Ok in H as ([dvx cx] & Hi & H). injection H as <- <- <-. cbn [fst snd].
    split; [by rewrite (issue_found_clk _ _ _ _ _ _ Hi)|].
    intros Hc. destruct (Hr Hc) as [Hc4 Hdn]. split; [|done]. intros x Hx. apply Hc4.
    eapply issue_found_sub; [|exact Hi|done]. apply Hb5. by eapply adds_lookup.
  - injection H as <- <- <-. auto.
Qed.
End Routing.

(** ** The clock of the device *)
Section DeviceClock.
Context (σ : Standard).

Lemma upd_channel_clk f av s s' : Dev.upd_channel σ f av s = Ok s' -> Dev.m_clk s' = Dev.m_clk s.
Proof. unfold Dev.upd_channel. intros. by res_inv. Qed.

Lemma issue_command_clk d c av s s' :
  Dev.issue_command σ d c av s = Ok s' -> Dev.m_clk s' = Dev.m_clk s.
Proof.
  unfold Dev.issue_command. intros H. apply bind_Ok in H as (s1 & H1 & H). apply bind_Ok in H as (s2 & H2 & H).
  apply upd_channel_clk in H1, H2. apply check_future_action_channels in H as [? _]. congruence.
Qed.

Lemma future_loop_clk d i s s' : Dev.future_loop σ d i s = Ok s' -> Dev.m_clk s' = Dev.m_clk s.
Proof.
  revert s. induction i as [|i IH]; cbn [Dev.future_loop]; intros s H; [by res_inv|].
  destruct (_ !! i); [|done]. destruct (_ =? _); [|by apply IH].
  apply bind_Ok in H as (s1 & H1 & H). apply IH in H. cbn in H. rewrite H.
  unfold Dev.handle_future_action in H1. destruct (Dev.future_of σ _) as [[[? ?] ?]|];
    [by apply upd_channel_clk in H1|by res_inv].
Qed.

Lemma device_tick_clk d s s' : Dev.tick σ d s = Ok s' -> Dev.m_clk s' = Dev.m_clk s + 1.
Proof. unfold Dev.tick. intros H%future_loop_clk. exact H. Qed.

Lemma init_clk po pt d s : Dev.init σ po pt = Ok (d, s) -> Dev.m_clk s = 0.
Proof.
  unfold Dev.init. intros H. apply bind_Ok in H as (scopes & _ & H).
  apply bind_Ok in H as (inits & _ & H). apply bind_Ok in H as ([width o] & _ & H).
  apply bind_Ok in H as ([[vals lat] tc] & _ & H). apply bind_Ok in H as (chs & _ & H).
  by injection H as _ <-.
Qed.
End DeviceClock.

Section System.
Context (σ : Standard) (d : Dev.Device) `{S : !IScheduler (D := std_dram σ d)} `{M : !IAddrMapper} (p : SysConfig).
Notation Sys := (MemSys (D := std_dram σ d)).

Inductive sys_reach (init : Sys) : Sys -> Prop :=
| sys_init : sys_reach init init
| sys_send s req ok s' :
    sys_reach init s -> MemorySystem.send req s = Ok (ok, s') -> sys_reach init s'
| sys_tick s dns s' :
    sys_reach init s -> MemorySystem.tick p s = Ok (dns, s') -> sys_reach init s'.

(** The device is in a run from [s0] all of whose commands were ready, all
    clocks agree, and controller [i] holds requests of channel [i] only. *)
Record sys_ok (s0 : Dev.State) (s : Sys) : Prop := {
  so_run : exists H, DeviceFacts.reach σ true d s0 (m_dram s) H;
  so_device : Dev.m_clk (m_dram s) = ms_clk s;
  so_clocks : Forall (fun c => m_clk c = ms_clk s) (m_controllers s);
  so_routed : forall i c, m_controllers s !! i = Some c -> routed (Z.of_nat i) c;
}.

Lemma tick_controllers_spec s0 H channel dv cs dns dv' cs' :
  tick_controllers (D := std_dram σ d) p channel dv cs = Ok (dns, dv', cs') ->
  DeviceFacts.reach σ true d s0 dv H ->
  (exists H', DeviceFacts.reach σ true d s0 dv' H') /\ Dev.m_clk dv' = Dev.m_clk dv /\
  Forall2 (fun c c' => m_clk c' = m_clk c + 1) cs cs' /\
  ((forall i c, cs !! i = Some c -> routed (channel + Z.of_nat i) c) ->
   (forall i c, cs' !! i = Some c -> routed (channel + Z.of_nat i) c)).
Proof.
  revert channel dv dns cs' H. induction cs as [|c cs IH]; cbn [tick_controllers];
    intros channel dv dns cs' H E Hr.
  { injection E as <- <- <-. split; [eauto|]. split; [done|]. split; [constructor|done]. }
  apply bind_Ok in E as ([[dn dv1] c1] & E1 & E). apply bind_Ok in E as ([[dns1 dv2] cs1] & E2 & E).
  injection E as <- <- <-. pose proof (tick_frame _ _ _ _ _ _ E1) as [Hclk Hrt].
  apply tick_spec in E1 as [_ Hiss _].
  assert (exists H1, DeviceFacts.reach σ true d s0 dv1 H1 /\ Dev.m_clk dv1 = Dev.m_clk dv) as (H1 & Hr1 & Hc1).
  { destruct Hiss as [->|(r & [Hready _] & Hcmd & _)]; [eauto|].
    eexists. split; [|exact (issue_command_clk σ d _ _ _ _ Hcmd)].
    eapply DeviceFacts.reach_issue; [exact Hr|intros _; exact Hready|exact Hcmd]. }
  destruct (IH _ _ _ _ _ E2 Hr1) as (? & Hc2 & HF & Hrt2). split; [done|]. split; [by rewrite Hc2|].
  split; [by constructor|]. intros Hall [|i] x Hx; cbn in Hx.
  - injection Hx as <-. rewrite Z.add_0_r. apply Hrt. specialize (Hall 0%nat c eq_refl).
    by rewrite Z.add_0_r in Hall.
  - replace (channel + Z.of_nat (Datatypes.S i)) with (channel + 1 + Z.of_nat i) by lia.
    apply Hrt2; [|done]. intros j y Hy. specialize (Hall (Datatypes.S j) y Hy).
    replace (channel + 1 + Z.of_nat j) with (channel + Z.of_nat (Datatypes.S j)) by lia. done.
Qed.

Lemma send_clk req c ok req' c' :
  Controller.send (D := std_dram σ d) req c = Ok (ok, req', c') -> m_clk c' = m_clk c.
Proof.
  unfold Controller.send. intros H. apply bind_Ok in H as (fc & _ & H). cbv zeta in H.
  repeat case_match; simplify_eq; done.
Qed.

Lemma sys_send_ok s0 req s ok s' :
  sys_ok s0 s -> MemorySystem.send req s = Ok (ok, s') -> sys_ok s0 s'.
Proof.
  intros [Hrun Hdev Hclk Hrt] H. unfold MemorySystem.send in H.
  apply bind_Ok in H as (req1 & _ & H). apply bind_Ok in H as (ch & Hch & H).
  apply bind_Ok in H as (c & Hc & H). apply bind_Ok in H as ([[o req2] c2] & Hs & H).
  apply bind_Ok in H as (cs & Hcs & H). apply bind_Ok in H as (st & _ & H). injection H as <- <-.
  apply vget_Ok in Hch as [_ Hch]. apply vget_Ok in Hc as [H0 Hc]. apply vset_Ok in Hcs as [Hlt ->].
  constructor; cbn [m_dram ms_clk m_controllers]; [done|done| |].
  - apply Forall_insert; [done|]. rewrite (send_clk _ _ _ _ _ Hs). apply (Forall_lookup_1 _ _ _ _ Hclk Hc).
  - intros i x Hx. destruct (decide (i = Z.to_nat ch)) as [->|Hne].
    + rewrite list_lookup_insert_eq in Hx by lia. injection Hx as <-. rewrite Z2Nat.id by done.
      eapply send_routed; [exact Hs|exact Hch|]. pose proof (Hrt _ _ Hc) as Hc'. by rewrite Z2Nat.id in Hc'.
    + rewrite list_lookup_insert_ne in Hx by done. by apply Hrt.
Qed.

Lemma sys_tick_ok s0 s dns s' :
  sys_ok s0 s -> MemorySystem.tick p s = Ok (dns, s') -> sys_ok s0 s'.
Proof.
  intros [[H Hrun] Hdev Hclk Hrt] E. unfold MemorySystem.tick in E.
  apply bind_Ok in E as (dv & Hd & E). apply bind_Ok in E as ([[dn dv1] cs] & Hc & E). injection E as <- <-.
  pose proof (DeviceFacts.reach_tick _ _ _ _ _ _ _ Hrun Hd) as Hrun1.
  destruct (tick_controllers_spec s0 H _ _ _ _ _ _ Hc Hrun1) as (? & Hdc & HF & Hr).
  constructor; cbn [m_dram ms_clk m_controllers]; [done| | |].
  - rewrite Hdc, (device_tick_clk _ _ _ _ Hd), Hdev. done.
  - clear -HF Hclk. induction HF; [constructor|]. apply List.Forall_cons_iff in Hclk as [? ?].
    constructor; [lia|auto].
  - intros i c Hi. apply (Hr Hrt i c Hi).
Qed.

Lemma new_ctrl_routed n rf rp ps ch : routed ch (new_ctrl n rf rp ps).
Proof. intros r Hr. cbn in Hr. by apply elem_of_nil in Hr. Qed.

Lemma init_sys_ok rp s0 s :
  Dev.m_clk s0 = 0 -> MemorySystem.init (D := std_dram σ d) p rp s0 = Ok s -> sys_ok s0 s.
Proof.
  intros H0 H. unfold MemorySystem.init in H. res_inv. constructor; cbn.
  - exists []. apply DeviceFacts.reach_init.
  - done.
  - by apply Forall_replicate.
  - intros i c Hc. apply lookup_replicate in Hc as [-> _]. apply new_ctrl_routed.
Qed.

Lemma sys_reach_ok rp s0 s1 s :
  Dev.m_clk s0 = 0 -> MemorySystem.init (D := std_dram σ d) p rp s0 = Ok s1 -> sys_reach s1 s -> sys_ok s0 s.
Proof.
  intros H0 Hi. induction 1 as [|s req ok s' _ IH Hs|s dns s' _ IH Ht].
  - by eapply init_sys_ok.
  - by eapply sys_send_ok.
  - by eapply sys_tick_ok.
Qed.
End System.

(** ** Properties *)

(** Property C3.  End to end for DDR3, DDR4, DDR5 and their victim-row-refresh
    variants, HBM, HBM2, HBM3 and GDDR6 with any parameters, and any scheduler,
    stateless address mapper, row policy and plugins: whatever requests are sent
    to the memory system, the device only ever receives commands it reported
    ready, so that its whole history respects every constraint of the standard's
    timing table (every level, window and sibling rule) on every node that the
    command addresses; for HBM2 and HBM3, whose table has constraints below the
    scope of the commands they delay, the constraints at or above that scope.
    The clocks of the memory system, the device and all controllers are equal,
    and every request a controller holds is addressed to the controller's own
    channel. *)
Theorem memory_system_timing_safe r brc tras prac fv fr σ po pt d s0 `{Sch : !IScheduler (D := std_dram σ d)}
    `{M : !IAddrMapper} p rp s1 s :
  σ ∈ simulated r brc tras prac fv fr ->
  Dev.init σ po pt = Ok (d, s0) -> MemorySystem.init (D := std_dram σ d) p rp s0 = Ok s1 ->
  sys_reach σ d p s1 s ->
  (exists H, DeviceFacts.reach σ true d s0 (m_dram s) H /\ table_respected σ d s0 H /\
     (σ <> HBM2.std -> σ <> HBM3.std -> full_table_respected σ d s0 H)) /\
  Dev.m_clk (m_dram s) = ms_clk s /\
  (forall i c, m_controllers s !! i = Some c ->
     m_clk c = ms_clk s /\ forall r, r ∈ live c -> at_channel (Z.of_nat i) r).
Proof.
  intros Hσ Hd Hi Hr. destruct (sys_reach_ok σ d p rp s0 s1 s (init_clk _ _ _ _ _ Hd) Hi Hr)
    as [[H Hrun] Hdev Hclk Hrt].
  split; [|split; [done|]].
  - exists H. split; [done|]. by eapply simulated_enforces.
  - intros i c Hc. split; [apply (Forall_lookup_1 _ _ _ _ Hclk Hc)|by apply Hrt].
Qed.

(** A run on the example device: two reads of different rows of one bank, and
    the ticks that serve them. *)
Definition demo_params : SysConfig := mkSysConfig 8 3 wr_low wr_high [].
Definition demo_map : Mapper :=
  from_res (mkMapper 0 [] 0 0 0)
    (setup DDR4.levels (dram_count (IDRAM := DDR4_dram demo_d)) 8 64).
#[local] Instance demo_sched : IScheduler (D := DDR4_dram demo_d) := FRFCFS_scheduler.
#[local] Instance demo_mapping : IAddrMapper := ChRaBaRoCo_mapper demo_map.

Inductive SysOp : Type := OpSend (req : Request) | OpTick (n : nat).

Fixpoint ticks (n : nat) (s : MemSys (D := DDR4_dram demo_d)) : res (MemSys (D := DDR4_dram demo_d)) :=
  match n with
  | O => Ok s
  | Datatypes.S n => '(_, s) ← MemorySystem.tick demo_params s; ticks n s
  end.

Fixpoint run_ops (ops : list SysOp) (s : MemSys (D := DDR4_dram demo_d)) : res (MemSys (D := DDR4_dram demo_d)) :=
  match ops with
  | [] => Ok s
  | OpSend req :: ops => '(_, s) ← MemorySystem.send req s; run_ops ops s
  | OpTick n :: ops => s ← ticks n s; run_ops ops s
  end.

Lemma ticks_reach s1 n s s' : sys_reach DDR4.std demo_d demo_params s1 s -> ticks n s = Ok s' -> sys_reach DDR4.std demo_d demo_params s1 s'.
Proof.
  revert s. induction n as [|n IH]; cbn [ticks]; intros s Hr H; [by injection H as <-|].
  apply bind_Ok in H as ([dns s2] & Ht & H). apply (IH s2); [|done]. by eapply sys_tick.
Qed.

Lemma run_ops_reach s1 ops s s' :
  sys_reach DDR4.std demo_d demo_params s1 s -> run_ops ops s = Ok s' -> sys_reach DDR4.std demo_d demo_params s1 s'.
Proof.
  revert s. induction ops as [|[req|n] ops IH]; cbn [run_ops]; intros s Hr H; [by injection H as <-| |].
  - apply bind_Ok in H as ([ok s2] & Hs & H). apply (IH s2); [|done]. by eapply sys_send.
  - apply bind_Ok in H as (s2 & Hs & H). apply (IH s2); [|done]. by eapply ticks_reach.
Qed.

Definition demo_sys : MemSys (D := DDR4_dram demo_d) :=
  from_res (mkMemSys (D := DDR4_dram demo_d) 0 demo_s [] (mkSysStats 0 0 0))
    (MemorySystem.init (D := DDR4_dram demo_d) demo_params OpenRowPolicy demo_s).

Definition demo_script : list SysOp :=
  [OpSend (Request_addr_type_source 0 ReqType.Read 0); OpTick 5;
   OpSend (Request_addr_type_source 8192 ReqType.Read 1); OpTick 60].

Lemma demo_script_ok : ok_b (run_ops demo_script demo_sys) = true.
Proof. vm_compute. reflexivity. Qed.

Lemma memory_system_timing_safe_witness :
  exists s, run_ops demo_script demo_sys = Ok s /\ ms_clk s = 65 /\
    (exists H, DDR4Facts.reach true demo_d demo_s (m_dram s) H /\ full_table_respected DDR4.std demo_d demo_s H) /\
    DDR4.m_clk (m_dram s) = 65.
Proof.
  assert (match run_ops demo_script demo_sys with Ok s => ms_clk s | Err _ => 0 end = 65) as Hclk
    by (vm_compute; reflexivity).
  destruct (run_ops demo_script demo_sys) as [s|e] eqn:E;
    [|pose proof demo_script_ok as Hb; rewrite E in Hb; discriminate Hb].
  exists s. split; [reflexivity|]. split; [exact Hclk|].
  destruct (memory_system_timing_safe 2 2 (-1) false (F32.of_Z 1) (F32.of_Z 1) DDR4.std demo_org demo_timing demo_d demo_s
    demo_params OpenRowPolicy demo_sys s (ddr4_simulated _ _ _ _ _ _) demo_init) as ((H & Hr & _ & Hfull) & Hdev & _).
  - apply from_res_Ok. vm_compute. reflexivity.
  - apply (run_ops_reach demo_sys demo_script demo_sys s); [apply sys_init|exact E].
  - split; [exists H; split; [exact Hr|apply Hfull; apply ddr4_not_hbm]|]. by rewrite Hdev.
Defined.

(** ** The page cache of the custom memory system *)
Definition count_of (counts : gmap Z Z) (p : Z) : Z := default 0 (counts !! i64 p).

Record cache_ok (cache : list Z) : Prop := {
  cache_size : (List.length cache <= 4)%nat;
  cache_nodup : NoDup cache;
}.

(** [operator[]] on a missing page inserts the count 0: no count changes. *)
Lemma count_of_touch counts q p : count_of (<[i64 q := count_of counts q]> counts) p = count_of counts p.
Proof.
  unfold count_of. rewrite lookup_insert. case_decide as E; [|done]. by rewrite E.
Qed.

Lemma min_cached_spec i cache counts mi mc mi' mc' counts' :
  min_cached i cache counts mi mc = (mi', mc', counts') ->
  (forall p, count_of counts' p = count_of counts p) /\
  mc' <= mc /\ (forall p, p ∈ cache -> mc' <= count_of counts p) /\
  ((mi' = mi /\ mc' = mc) \/
   (i <= mi' /\ exists p, cache !! Z.to_nat (mi' - i) = Some p /\ mc' = count_of counts p)).
Proof.
  revert i counts mi mc. induction cache as [|q cache IH]; cbn [min_cached]; intros i counts mi mc H.
  { injection H as <- <- <-. split; [done|]. split; [lia|]. split; [|by left].
    intros p Hp. by apply elem_of_nil in Hp. }
  fold (count_of counts q) in H. set (counts1 := <[i64 q := count_of counts q]> counts) in H.
  assert (forall p, count_of counts1 p = count_of counts p) as Ht by apply count_of_touch.
  assert (forall mi0 mc0, min_cached (i + 1) cache counts1 mi0 mc0 = (mi', mc', counts') ->
    mc0 <= mc -> mc0 <= count_of counts q ->
    (mi0 = mi /\ mc0 = mc \/ mi0 = i /\ mc0 = count_of counts q) ->
    (forall p, count_of counts' p = count_of counts p) /\
    mc' <= mc /\ (forall p, p ∈ q :: cache -> mc' <= count_of counts p) /\
    ((mi' = mi /\ mc' = mc) \/
     (i <= mi' /\ exists p, (q :: cache) !! Z.to_nat (mi' - i) = Some p /\ mc' = count_of counts p))) as Hstep.
  { intros mi0 mc0 E H1 H2 Hor. apply IH in E as (Hc & Hle & Hall & Hpos).
    split; [intros p; by rewrite Hc, Ht|]. split; [lia|]. split.
    - intros p [->|Hp]%elem_of_cons; [lia|]. rewrite <- (Ht p). by apply Hall.
    - destruct Hpos as [[-> ->]|(Hi & p & Hp & ->)].
      + destruct Hor as [[-> ->]|[-> ->]]; [by left|]. right. split; [lia|]. exists q.
        by rewrite Z.sub_diag.
      + right. split; [lia|]. exists p. rewrite Ht. split; [|done].
        replace (Z.to_nat (mi' - i)) with (S (Z.to_nat (mi' - (i + 1)))) by lia. done. }
  destruct (Z.ltb_spec (count_of counts q) mc); apply (Hstep _ _ H); lia.
Qed.

Lemma in_top_cache_iff vpn cache : is_in_top_cache vpn cache = true <-> u64 vpn ∈ cache.
Proof.
  unfold is_in_top_cache. rewrite existsb_exists. setoid_rewrite Z.eqb_eq. split.
  - intros (x & Hx & <-). by apply list_elem_of_In.
  - intros H. exists (u64 vpn). split; [by apply list_elem_of_In|done].
Qed.

Lemma nodup_insert (cache : list Z) k v :
  NoDup cache -> v ∉ cache -> NoDup (<[k := v]> cache).
Proof.
  intros Hn Hv. destruct (decide (k < List.length cache)%nat) as [Hk|]; [|by rewrite list_insert_ge by lia].
  assert (forall i j, i <> j -> <[k := v]> cache !! i = Some v -> k = i -> <[k := v]> cache !! j = Some v ->
    False) as Hex.
  { intros i j Hij _ <- Hj. rewrite list_lookup_insert_ne in Hj by done. destruct Hv.
    by eapply list_elem_of_lookup_2. }
  apply NoDup_alt. intros i j x Hi Hj. destruct (decide (i = j)) as [|Hij]; [done|exfalso].
  destruct (decide (k = i)) as [Hki|Hki].
  - assert (x = v) as -> by (rewrite <- Hki, list_lookup_insert_eq in Hi by done; congruence).
    by apply (Hex i j).
  - destruct (decide (k = j)) as [Hkj|Hkj].
    + assert (x = v) as -> by (rewrite <- Hkj, list_lookup_insert_eq in Hj by done; congruence).
      apply (Hex j i); done.
    + rewrite list_lookup_insert_ne in Hi, Hj by done. by apply Hij, (NoDup_lookup cache i j x).
Qed.

(** The page cache of [CustomDRAMSystem] never fails, never holds
    more than four pages nor a page twice, and evicts a page only for one with
    a strictly larger access count, and then one with the smallest count of the
    cache; no access count is changed. *)
Theorem top_cache_keeps_most_accessed vpn n cache counts :
  cache_ok cache -> n <= SIZE_MAX ->
  exists cache' counts', update_top_cache vpn n cache counts = Ok (cache', counts') /\
    cache_ok cache' /\ (forall p, count_of counts' p = count_of counts p) /\
    (cache' = cache \/
     (cache' = (cache ++ [u64 vpn])%list /\ (List.length cache < 4)%nat) \/
     (exists k old, cache !! k = Some old /\ cache' = <[k := u64 vpn]> cache /\
        count_of counts old < n /\ forall q, q ∈ cache -> count_of counts old <= count_of counts q)).
Proof.
  intros [Hs Hn] Hmax. unfold update_top_cache.
  destruct (is_in_top_cache vpn cache) eqn:Ein.
  { exists cache, counts. repeat split; try done. by left. }
  assert (u64 vpn ∉ cache) as Hnew by (rewrite <- in_top_cache_iff; congruence).
  destruct (Z.ltb_spec (Z.of_nat (List.length cache)) 4).
  { exists (cache ++ [u64 vpn])%list, counts. split; [done|]. split; [split|].
    - rewrite length_app. cbn. lia.
    - apply list.NoDup_app. split; [done|]. split; [|apply NoDup_singleton].
      intros x Hx ->%list_elem_of_singleton. done.
    - split; [done|]. right. left. split; [done|lia]. }
  destruct (min_cached 0 cache counts 0 SIZE_MAX) as [[mi mc] counts'] eqn:E.
  apply min_cached_spec in E as (Hc & _ & Hall & Hpos).
  destruct (Z.ltb_spec mc n).
  - destruct Hpos as [[-> ->]|(Hmi & old & Hold & ->)]; [lia|]. rewrite Z.sub_0_r in Hold.
    pose proof (lookup_lt_Some _ _ _ Hold).
    exists (<[Z.to_nat mi := u64 vpn]> cache), counts'. rewrite vset_inside by lia.
    split; [done|]. split; [split; [by rewrite length_insert|by apply nodup_insert]|].
    split; [done|]. right. right. by exists (Z.to_nat mi), old.
  - exists cache, counts'. repeat split; try done. by left.
Qed.

Lemma top_cache_keeps_most_accessed_witness :
  cache_ok [1; 2; 3; 4] /\
  exists cache' counts', update_top_cache 5 3 [1; 2; 3; 4] {[1 := 7; 2 := 2; 3 := 9; 4 := 2]} =
    Ok (cache', counts') /\ cache_ok cache'.
Proof.
  assert (cache_ok [1; 2; 3; 4]) as Hok.
  { split; [cbn; lia|]. apply (bool_decide_unpack (NoDup [1; 2; 3; 4])). reflexivity. }
  split; [exact Hok|].
  destruct (top_cache_keeps_most_accessed 5 3 [1; 2; 3; 4] {[1 := 7; 2 := 2; 3 := 9; 4 := 2]} Hok)
    as (cache' & counts' & E & Hok' & _); [unfold SIZE_MAX; lia|].
  by exists cache', counts'.
Defined.

(** ** Requests for cached pages *)
Section Cached.
Context `{D : IDRAM} `{Sch : !IScheduler} `{M : !IAddrMapper} (p : SysConfig).

(** Resending one request, with any number of cycles after each attempt, until
    the memory system accepts it. *)
Inductive resend (req : Request) : Custom -> Custom -> Prop :=
| resend_refl s : resend req s s
| resend_send s1 s2 s3 ok :
    custom_send req s1 = Ok (ok, s2) -> resend req s2 s3 -> resend req s1 s3
| resend_tick s1 s2 s3 dns :
    custom_tick p s1 = Ok (dns, s2) -> resend req s2 s3 -> resend req s1 s3.

Definition cached (req : Request) (s : Custom) : Prop :=
  is_in_top_cache (Z.shiftr (v_addr req) 12) (top_cache s) = true.

Lemma cached_send req s ok s' :
  cached req s -> custom_send req s = Ok (ok, s') ->
  ok = false /\ cached req s' /\ m_controllers (cu_sys s') = m_controllers (cu_sys s) /\
  count_request (type_id req) (ms_stats (cu_sys s)) = Ok (ms_stats (cu_sys s')).
Proof.
  unfold cached, custom_send. intros Hc H. rewrite Hc in H. apply bind_Ok in H as (st & Hst & H).
  injection H as <- <-. done.
Qed.

Lemma cached_tick req s dns s' : cached req s -> custom_tick p s = Ok (dns, s') -> cached req s'.
Proof.
  unfold cached, custom_tick. intros Hc H. apply bind_Ok in H as ([dns' sys] & _ & H).
  by injection H as <- <-.
Qed.

Lemma cached_resend req s s' : cached req s -> resend req s s' -> cached req s'.
Proof.
  intros Hc H. induction H as [|s1 s2 s3 ok Hs _ IH|s1 s2 s3 dns Ht _ IH]; [done| |].
  - apply IH. by apply (cached_send _ _ _ _ Hc Hs).
  - apply IH. by eapply cached_tick.
Qed.
End Cached.

(** Property C38.  A request for a page of the cache is refused ([send] returns
    [false]) although it is counted among the served requests, and no
    controller sees it; resending it, however often and however long the memory
    system runs in between, is refused every time. *)
Theorem cached_page_requests_never_accepted `{D : IDRAM} `{Sch : !IScheduler} `{M : !IAddrMapper}
    p req s s1 ok s2 :
  cached req s -> resend p req s s1 -> custom_send req s1 = Ok (ok, s2) ->
  ok = false /\ m_controllers (cu_sys s2) = m_controllers (cu_sys s1) /\
  count_request (type_id req) (ms_stats (cu_sys s1)) = Ok (ms_stats (cu_sys s2)).
Proof.
  intros Hc Hr Hs. apply (cached_resend p req s s1 Hc) in Hr.
  destruct (cached_send _ _ _ _ Hr Hs) as (? & _ & ? & ?). done.
Qed.

(** The second request for a page, on the example system. *)
Definition cu_req : Request := set_virtual 0 0 (Request_addr_type_source 0 ReqType.Read 0).
Definition cu_init : Custom (D := DDR4_dram demo_d) := mkCustom demo_sys ∅ [] 0.
Definition cu_first : Custom (D := DDR4_dram demo_d) :=
  (from_res (false, cu_init) (custom_send (M := demo_mapping) cu_req cu_init)).2.

Lemma cached_page_requests_never_accepted_witness :
  ok_b (custom_send (M := demo_mapping) cu_req cu_init) = true /\
  exists s2, custom_send (M := demo_mapping) cu_req cu_first = Ok (false, s2).
Proof.
  split; [vm_compute; reflexivity|].
  assert (ok_b (custom_send (M := demo_mapping) cu_req cu_first) = true) as Hb by (vm_compute; reflexivity).
  destruct (custom_send (M := demo_mapping) cu_req cu_first) as [[ok s2]|e] eqn:E; [|discriminate Hb].
  exists s2. f_equal. f_equal.
  apply (cached_page_requests_never_accepted (Sch := demo_sched) (M := demo_mapping)
           demo_params cu_req cu_first cu_first ok s2); [|apply resend_refl|exact E].
  unfold cached. vm_compute. reflexivity.
Defined.
