(* ===== verification/Rit.v ===== *)
(** * Row indirection: [addr_mapper/impl/rit.h] and [rit.cpp]

    [LinearMapperBase_with_rit] keeps, per bank, a table of swapped rows; the
    mappers "with_rit" apply it after their linear mapping. *)
From Stdlib Require Import String.
From S2P Require Import Prelude Utils Request DramSpec AddrMapper.
Local Open Scope string_scope.
Local Open Scope Z_scope.

Record RIT_entry : Type := mkRIT { dst_row : Z; lock : bool }.

Record Rit : Type := mkRit {
  rit_mapper : Mapper;
  rit_count : list Z;
  m_rank_level : Z;
  m_bank_level : Z;
  m_row_level : Z;
  m_num_rit_entries : Z;
  m_row_indirection_table : list (gmap Z RIT_entry);
}.

Definition set_table (t : list (gmap Z RIT_entry)) (r : Rit) : Rit :=
  mkRit (rit_mapper r) (rit_count r) (m_rank_level r) (m_bank_level r) (m_row_level r)
    (m_num_rit_entries r) t.

(** Member initialisers and [setup]. *)
Definition rit_setup (levels : ImplDef) (count : list Z) (prefetch channel_width : Z) : res Rit :=
  m ← setup levels count prefetch channel_width;
  Ok (mkRit m count (-1) (-1) (-1) (-1) []).

Definition init_rit (levels : ImplDef) (num_banks num_rit_entries : Z) (r : Rit) : res Rit :=
  rank ← spec_def_id levels "rank";
  bank ← spec_def_id levels "bank";
  row ← spec_def_id levels "row";
  Ok (mkRit (rit_mapper r) (rit_count r) rank bank row num_rit_entries
        (m_row_indirection_table r ++ replicate (Z.to_nat num_banks) ∅)%list).

Definition check_rit (flat_bank_id src_row : Z) (r : Rit) : res Z :=
  b ← vget (m_row_indirection_table r) flat_bank_id;
  Ok (match b !! src_row with Some e => dst_row e | None => -1 end).

(** [size() >= m_num_rit_entries] compares a [size_t] with an [int]. *)
Definition is_rit_full (flat_bank_id : Z) (r : Rit) : res bool :=
  b ← vget (m_row_indirection_table r) flat_bank_id;
  Ok (u64 (m_num_rit_entries r) <=? Z.of_nat (size b)).

(** [operator[]] inserts a zero entry for a row that is not in the table. *)
Definition is_rit_locked (flat_bank_id src_row : Z) (r : Rit) : res (bool * Rit) :=
  b ← vget (m_row_indirection_table r) flat_bank_id;
  let e := default (mkRIT 0 false) (b !! src_row) in
  t ← vset (m_row_indirection_table r) flat_bank_id (<[src_row := e]> b);
  Ok (lock e, set_table t r).

(** The bank index of an address, counted over ranks, bank groups and banks. *)
Fixpoint flat_bank_loop (levels : list Z) (count av : list Z) (acc flat : Z) : res Z :=
  match levels with
  | [] => Ok flat
  | i :: levels =>
      n ← vget count (i + 1);
      a ← vget av i;
      let acc := acc * n in
      flat_bank_loop levels count av acc (flat + a * acc)
  end.

Definition flat_bank_id (count : list Z) (rank_level bank_level : Z) (av : list Z) : res Z :=
  b ← vget av bank_level;
  flat_bank_loop (reverse (seqZ rank_level (bank_level - rank_level))) count av 1 b.

Definition apply_indirection (req : Request) (r : Rit) : res Request :=
  if m_num_rit_entries r =? -1 then Ok req else
  fb ← flat_bank_id (rit_count r) (m_rank_level r) (m_bank_level r) (addr_vec req);
  src_row ← vget (addr_vec req) (m_row_level r);
  dst ← check_rit fb src_row r;
  if dst =? -1 then Ok req else
  v ← vset (addr_vec req) (m_row_level r) dst;
  Ok (set_addr_vec v req).

Definition rit_unlock (r : Rit) : Rit :=
  set_table (fmap (fun b : gmap Z RIT_entry => (fun e => mkRIT (dst_row e) false) <$> b)
               (m_row_indirection_table r)) r.

Definition rit_insert_entry (flat_bank_id src_row dst_row : Z) (r : Rit) : res Rit :=
  b ← vget (m_row_indirection_table r) flat_bank_id;
  let b := <[dst_row := mkRIT src_row true]> (<[src_row := mkRIT dst_row true]> b) in
  t ← vset (m_row_indirection_table r) flat_bank_id b;
  if u64 (m_num_rit_entries r) <? Z.of_nat (size b) then Err (Exit 1) else Ok (set_table t r).

Definition rit_remove_entry (flat_bank_id src_row dst_row : Z) (r : Rit) : res Rit :=
  b ← vget (m_row_indirection_table r) flat_bank_id;
  t ← vset (m_row_indirection_table r) flat_bank_id (delete dst_row (delete src_row b));
  Ok (set_table t r).

Section Unswap.
Context `{!IterOrder}.

Definition unswappable (exclusion_list : gmap Z Z) (e : Z * RIT_entry) : bool :=
  negb (lock e.2) && bool_decide (exclusion_list !! e.1 = None) &&
  bool_decide (exclusion_list !! dst_row e.2 = None).

Definition get_unswap_pair (flat_bank_id : Z) (exclusion_list : gmap Z Z) (r : Rit) : res (Z * Z) :=
  b ← vget (m_row_indirection_table r) flat_bank_id;
  match List.find (unswappable exclusion_list) (iter_order b) with
  | Some (src, e) => Ok (src, dst_row e)
  | None => Err (Exit 1)
  end.
End Unswap.

(** The three mappers. *)
Definition ChRaBaRoCo_with_rit_apply (req : Request) (r : Rit) : res Request :=
  req ← ChRaBaRoCo.apply (rit_mapper r) req; apply_indirection req r.

Definition RoBaRaCoCh_with_rit_apply (req : Request) (r : Rit) : res Request :=
  req ← RoBaRaCoCh.apply (rit_mapper r) req; apply_indirection req r.

Definition MOP4CLXOR_with_rit_apply (req : Request) (r : Rit) : res Request :=
  req ← MOP4CLXOR.apply (rit_mapper r) req; apply_indirection req r.

(** ** Swap tables *)
Definition swaps (b : gmap Z RIT_entry) : Prop :=
  forall src e, b !! src = Some e -> 0 <= src /\ exists e', b !! dst_row e = Some e' /\ dst_row e' = src.

(** The row a table sends a row to. *)
Definition redirect (b : gmap Z RIT_entry) (row : Z) : Z :=
  match b !! row with
  | Some e => if dst_row e =? -1 then row else dst_row e
  | None => row
  end.

Definition rit_ok (r : Rit) : Prop := Forall swaps (m_row_indirection_table r).

Lemma swaps_empty : swaps ∅.
Proof. intros src e H. by rewrite lookup_empty in H. Qed.

Lemma swaps_nonneg b src e : swaps b -> b !! src = Some e -> 0 <= dst_row e.
Proof. intros Hs H. destruct (Hs _ _ H) as (_ & e' & H' & _). by destruct (Hs _ _ H'). Qed.

Lemma redirect_involutive b row : swaps b -> redirect b (redirect b row) = row.
Proof.
  intros Hs. unfold redirect. destruct (b !! row) as [e|] eqn:E; [|by rewrite E].
  pose proof (swaps_nonneg b row e Hs E). destruct (Z.eqb_spec (dst_row e) (-1)); [lia|].
  destruct (Hs _ _ E) as (Hr & e' & E' & Hd). rewrite E', Hd.
  destruct (Z.eqb_spec row (-1)); [lia|done].
Qed.

Lemma swaps_insert b src dst l1 l2 :
  swaps b -> b !! src = None -> b !! dst = None -> 0 <= src -> 0 <= dst ->
  swaps (<[dst := mkRIT src l1]> (<[src := mkRIT dst l2]> b)).
Proof.
  intros Hs Hn1 Hn2 H1 H2 x e Hx.
  destruct (decide (x = dst)) as [->|Hxd].
  - rewrite lookup_insert_eq in Hx. injection Hx as <-. split; [done|]. cbn [dst_row].
    destruct (decide (src = dst)) as [->|].
    + rewrite lookup_insert_eq. eauto.
    + rewrite lookup_insert_ne, lookup_insert_eq by done. eauto.
  - rewrite lookup_insert_ne in Hx by done. destruct (decide (x = src)) as [->|Hxs].
    + rewrite lookup_insert_eq in Hx. injection Hx as <-. split; [done|]. cbn [dst_row].
      rewrite lookup_insert_eq. eauto.
    + rewrite lookup_insert_ne in Hx by done. destruct (Hs _ _ Hx) as (? & e' & He' & Hd).
      split; [done|]. exists e'. rewrite !lookup_insert_ne by congruence. done.
Qed.

Lemma swaps_delete b src e :
  swaps b -> b !! src = Some e -> swaps (delete (dst_row e) (delete src b)).
Proof.
  intros Hs E x f Hx. destruct (Hs _ _ E) as (_ & e' & E' & Hd').
  apply lookup_delete_Some in Hx as [Hx1 Hx]. apply lookup_delete_Some in Hx as [Hx2 Hx].
  destruct (Hs _ _ Hx) as (? & f' & Hf & Hdf). split; [done|]. exists f'. split; [|done].
  rewrite !lookup_delete_ne; [done| |]; intros Heq; [rewrite <- Heq in Hf|rewrite <- Heq in Hf]; congruence.
Qed.

Lemma swaps_unlock b : swaps b -> swaps ((fun e => mkRIT (dst_row e) false) <$> b).
Proof.
  intros Hs x e Hx. rewrite lookup_fmap in Hx. destruct (b !! x) as [f|] eqn:E; [|done].
  injection Hx as <-. destruct (Hs _ _ E) as (? & f' & E' & Hd). split; [done|]. cbn [dst_row].
  rewrite lookup_fmap, E'. eexists. split; [done|]. done.
Qed.

(** ** The uses of the table *)
Lemma check_rit_free r fb row b :
  rit_ok r -> m_row_indirection_table r !! Z.to_nat fb = Some b -> check_rit fb row r = Ok (-1) -> b !! row = None.
Proof.
  intros Hr Hb H. unfold check_rit in H. apply bind_Ok in H as (b' & [_ Hb']%vget_Ok & H).
  rewrite Hb in Hb'. injection Hb' as <-. destruct (b !! row) as [e|] eqn:E; [|done].
  pose proof (swaps_nonneg b row e (Forall_lookup_1 _ _ _ _ Hr Hb) E). injection H as H. lia.
Qed.

(** The operations as the row-swapping plugins use them: a pair is inserted for
    rows that [check_rit] reports free, and removed as it was stored. *)
Inductive rit_step (r : Rit) : Rit -> Prop :=
| step_insert fb src dst r' :
    0 <= src -> 0 <= dst -> check_rit fb src r = Ok (-1) -> check_rit fb dst r = Ok (-1) ->
    rit_insert_entry fb src dst r = Ok r' -> rit_step r r'
| step_remove fb src dst r' :
    dst <> -1 -> check_rit fb src r = Ok dst -> rit_remove_entry fb src dst r = Ok r' -> rit_step r r'
| step_locked fb src dst l r' :
    dst <> -1 -> check_rit fb src r = Ok dst -> is_rit_locked fb src r = Ok (l, r') -> rit_step r r'
| step_unlock : rit_step r (rit_unlock r).

Inductive rit_reach (r0 : Rit) : Rit -> Prop :=
| rit_reach_init : rit_reach r0 r0
| rit_reach_step r r' : rit_reach r0 r -> rit_step r r' -> rit_reach r0 r'.

Lemma rit_ok_set r fb b :
  rit_ok r -> swaps b -> rit_ok (set_table (<[Z.to_nat fb := b]> (m_row_indirection_table r)) r).
Proof. intros Hr Hb. unfold rit_ok. cbn. by apply Forall_insert. Qed.

Lemma check_rit_stored fb src dst r :
  check_rit fb src r = Ok dst -> dst <> -1 ->
  exists b e, 0 <= fb /\ m_row_indirection_table r !! Z.to_nat fb = Some b /\ b !! src = Some e /\ dst_row e = dst.
Proof.
  unfold check_rit. intros H Hd. apply bind_Ok in H as (b & [Hfb Hb]%vget_Ok & H).
  destruct (b !! src) as [e|] eqn:E; injection H as H; [|done]. by exists b, e.
Qed.

Lemma rit_step_ok r r' : rit_ok r -> rit_step r r' -> rit_ok r'.
Proof.
  intros Hr Hs. destruct Hs as [fb src dst r' H1 H2 Hc1 Hc2 H|fb src dst r' Hd Hc H|fb src dst l r' Hd Hc H|].
  - unfold rit_insert_entry in H. apply bind_Ok in H as (b & [_ Hb]%vget_Ok & H). cbv zeta in H.
    apply bind_Ok in H as (t & [_ ->]%vset_Ok & H). destruct (_ <? _); [done|]. injection H as <-.
    apply rit_ok_set; [done|]. apply swaps_insert; try done.
    + apply (Forall_lookup_1 _ _ _ _ Hr Hb).
    + by eapply check_rit_free.
    + by eapply check_rit_free.
  - destruct (check_rit_stored _ _ _ _ Hc Hd) as (b & e & _ & Hb & He & <-).
    unfold rit_remove_entry in H. apply bind_Ok in H as (b' & [_ Hb']%vget_Ok & H).
    rewrite Hb in Hb'. injection Hb' as <-. apply bind_Ok in H as (t & [_ ->]%vset_Ok & H). injection H as <-.
    apply rit_ok_set; [done|]. apply swaps_delete; [|done]. apply (Forall_lookup_1 _ _ _ _ Hr Hb).
  - destruct (check_rit_stored _ _ _ _ Hc Hd) as (b & e & _ & Hb & He & <-).
    unfold is_rit_locked in H. apply bind_Ok in H as (b' & [_ Hb']%vget_Ok & H).
    rewrite Hb in Hb'. injection Hb' as <-. cbv zeta in H. apply bind_Ok in H as (t & [_ ->]%vset_Ok & H).
    injection H as _ <-. apply rit_ok_set; [done|]. rewrite He. cbn [default].
    rewrite insert_id by done. apply (Forall_lookup_1 _ _ _ _ Hr Hb).
  - unfold rit_ok, rit_unlock. cbn. apply Forall_fmap. eapply Forall_impl; [|exact Hr].
    intros b. apply swaps_unlock.
Qed.

Lemma rit_reach_ok r0 r : rit_ok r0 -> rit_reach r0 r -> rit_ok r.
Proof. intros H0. induction 1; [done|]. by eapply rit_step_ok. Qed.

Lemma init_rit_ok levels nb n r r' :
  m_row_indirection_table r = [] -> init_rit levels nb n r = Ok r' -> rit_ok r'.
Proof.
  intros Ht H. unfold init_rit in H. res_inv. unfold rit_ok. cbn. rewrite Ht. cbn.
  apply Forall_replicate, swaps_empty.
Qed.

Lemma rit_reach_frame r0 r : rit_reach r0 r ->
  m_rank_level r = m_rank_level r0 /\ m_bank_level r = m_bank_level r0 /\ m_row_level r = m_row_level r0 /\
  rit_count r = rit_count r0 /\ m_num_rit_entries r = m_num_rit_entries r0.
Proof.
  induction 1 as [|r r' _ IH Hs]; [done|].
  destruct Hs as [fb src dst r' _ _ _ _ H|fb src dst r' _ _ H|fb src dst l r' _ _ H|];
    [| | |exact IH]; [unfold rit_insert_entry in H|unfold rit_remove_entry in H|unfold is_rit_locked in H];
    cbv zeta in H; repeat (apply bind_Ok in H as (? & _ & H)); try (destruct (_ <? _); [done|]);
    injection H; intros; subst; exact IH.
Qed.

(** The bank index does not depend on the row. *)
Lemma flat_bank_loop_insert levels count av acc flat row x :
  Forall (fun i => 0 <= i < row) levels ->
  flat_bank_loop levels count (<[Z.to_nat row := x]> av) acc flat = flat_bank_loop levels count av acc flat.
Proof.
  revert acc flat. induction levels as [|i levels IH]; intros acc flat Hl; [done|].
  apply List.Forall_cons_iff in Hl as [Hi Hl]. cbn [flat_bank_loop].
  destruct (vget count (i + 1)); [|done]. cbn [mbind res_bind].
  assert (vget (<[Z.to_nat row := x]> av) i = vget av i) as ->.
  { unfold vget. by rewrite list_lookup_insert_ne by lia. }
  destruct (vget av i); [|done]. cbn [mbind res_bind]. by apply IH.
Qed.

Lemma flat_bank_id_insert count rank bank av row x :
  0 <= rank -> bank < row ->
  flat_bank_id count rank bank (<[Z.to_nat row := x]> av) = flat_bank_id count rank bank av.
Proof.
  intros Hr Hb. unfold flat_bank_id.
  assert (vget (<[Z.to_nat row := x]> av) bank = vget av bank) as ->.
  { unfold vget. case_bool_decide; [|done]. by rewrite list_lookup_insert_ne by lia. }
  destruct (vget av bank); [|done]. cbn [mbind res_bind]. apply flat_bank_loop_insert.
  apply Forall_forall. intros i Hi. apply list_elem_of_In in Hi. rewrite elem_of_reverse, elem_of_seqZ in Hi. lia.
Qed.

(** What [apply_indirection] does to the index vector. *)
Lemma apply_indirection_cases req req' r :
  rit_ok r -> apply_indirection req r = Ok req' ->
  req' = req /\ (m_num_rit_entries r = -1 \/ exists fb b row,
    flat_bank_id (rit_count r) (m_rank_level r) (m_bank_level r) (addr_vec req) = Ok fb /\
    0 <= fb /\ m_row_indirection_table r !! Z.to_nat fb = Some b /\
    vget (addr_vec req) (m_row_level r) = Ok row /\ b !! row = None) \/
  m_num_rit_entries r <> -1 /\ exists fb b row e,
    flat_bank_id (rit_count r) (m_rank_level r) (m_bank_level r) (addr_vec req) = Ok fb /\
    0 <= fb /\ m_row_indirection_table r !! Z.to_nat fb = Some b /\
    vget (addr_vec req) (m_row_level r) = Ok row /\ b !! row = Some e /\
    0 <= m_row_level r < Z.of_nat (List.length (addr_vec req)) /\
    req' = set_addr_vec (<[Z.to_nat (m_row_level r) := dst_row e]> (addr_vec req)) req.
Proof.
  intros Hr H. unfold apply_indirection in H. destruct (Z.eqb_spec (m_num_rit_entries r) (-1)) as [|Hne].
  { injection H as <-. by left; split; [|left]. }
  apply bind_Ok in H as (fb & Hfb & H). apply bind_Ok in H as (row & Hrow & H).
  unfold check_rit in H. apply bind_Ok in H as (dst & Hd & H).
  apply bind_Ok in Hd as (b & [H0 Hb]%vget_Ok & Hd). injection Hd as <-.
  destruct (b !! row) as [e|] eqn:E.
  - pose proof (swaps_nonneg b row e (Forall_lookup_1 _ _ _ _ Hr Hb) E) as Hpos.
    destruct (Z.eqb_spec (dst_row e) (-1)); [lia|].
    apply bind_Ok in H as (v & [Hlt ->]%vset_Ok & H). injection H as <-. right. split; [done|].
    exists fb, b, row, e. done.
  - change (-1 =? -1) with true in H. injection H as <-. left. split; [done|]. right. by exists fb, b, row.
Qed.

Lemma set_addr_vec_id req : set_addr_vec (addr_vec req) req = req.
Proof. by destruct req. Qed.

Lemma apply_indirection_undo req req' r :
  rit_ok r -> 0 <= m_rank_level r -> m_bank_level r < m_row_level r ->
  apply_indirection req r = Ok req' -> apply_indirection req' r = Ok req.
Proof.
  intros Hr Hrank Hbr H. pose proof H as Hfwd.
  apply apply_indirection_cases in H as [[-> _]|(Hn & fb & b & row & e & Hfb & H0 & Hb & Hrow & He & Hlen & ->)];
    [done| |done].
  clear Hfwd. pose proof (Forall_lookup_1 _ _ _ _ Hr Hb) as Hsw.
  destruct (Hsw _ _ He) as (Hrow0 & e' & He' & Hd'). pose proof (swaps_nonneg _ _ _ Hsw He) as Hd0.
  unfold apply_indirection. destruct (Z.eqb_spec (m_num_rit_entries r) (-1)); [done|].
  cbn [addr_vec set_addr_vec]. rewrite flat_bank_id_insert, Hfb by done. cbn [mbind res_bind].
  unfold vget. rewrite bool_decide_true by lia. rewrite list_lookup_insert_eq by lia. cbn [mbind res_bind].
  unfold check_rit, vget. rewrite bool_decide_true, Hb by done. cbn [mbind res_bind].
  rewrite He', Hd'. destruct (Z.eqb_spec row (-1)); [lia|].
  rewrite vset_inside by (rewrite length_insert; lia). cbn [mbind res_bind].
  rewrite list_insert_insert_eq, list_insert_id by (by apply vget_Ok in Hrow as [_ ?]).
  destruct req. done.
Qed.

(** ** Properties *)

(** Whatever sequence of swaps the plugins perform on the row
    indirection table, the table stays a set of row pairs: in every bank the
    redirection of rows is an involution, so two rows are never sent to the same
    row, and mapping a redirected request again gives the original request. *)
Theorem row_indirection_roundtrip levels nb n r r0 r1 :
  m_row_indirection_table r = [] -> init_rit levels nb n r = Ok r0 -> rit_reach r0 r1 ->
  Forall (fun b => forall row, redirect b (redirect b row) = row) (m_row_indirection_table r1) /\
  (0 <= m_rank_level r0 -> m_bank_level r0 < m_row_level r0 ->
   forall req req', apply_indirection req r1 = Ok req' -> apply_indirection req' r1 = Ok req).
Proof.
  intros Ht Hi Hr. pose proof (rit_reach_ok _ _ (init_rit_ok _ _ _ _ _ Ht Hi) Hr) as Hok.
  destruct (rit_reach_frame _ _ Hr) as (E1 & E2 & E3 & _). split.
  - eapply Forall_impl; [|exact Hok]. intros b Hb row. by apply redirect_involutive.
  - intros Hrank Hlev req req' H. eapply apply_indirection_undo; [done|lia|lia|done].
Qed.

(** [get_unswap_pair] answers, for every iteration order of the
    table, with an unlocked pair that is stored in the table and has neither
    row in the exclusion list; it ends the program only when there is none. *)
Theorem get_unswap_pair_spec `{!IterOrder} fb excl r b :
  0 <= fb -> m_row_indirection_table r !! Z.to_nat fb = Some b ->
  match get_unswap_pair fb excl r with
  | Ok (src, dst) => exists e, b !! src = Some e /\ dst_row e = dst /\ lock e = false /\
      excl !! src = None /\ excl !! dst = None
  | Err e => e = Exit 1 /\ forall src x, b !! src = Some x ->
      lock x = true \/ is_Some (excl !! src) \/ is_Some (excl !! dst_row x)
  end.
Proof.
  intros H0 Hb. unfold get_unswap_pair, vget. rewrite bool_decide_true, Hb by done. cbn [mbind res_bind].
  destruct (List.find _ _) as [[src e]|] eqn:E.
  - apply List.find_some in E as [Hin Hu]. apply list_elem_of_In, iter_order_elem in Hin.
    unfold unswappable in Hu. cbn in Hu. apply andb_prop in Hu as [Hu He2]. apply andb_prop in Hu as [Hl He1].
    apply bool_decide_eq_true in He1, He2. exists e. by destruct (lock e).
  - split; [done|]. intros src x Hx. pose proof (List.find_none _ _ E (src, x)) as Hn.
    rewrite <- list_elem_of_In, iter_order_elem in Hn. specialize (Hn Hx). unfold unswappable in Hn. cbn in Hn.
    destruct (lock x); [by left|right]. cbn in Hn. apply andb_false_iff in Hn as [Hn|Hn];
      apply bool_decide_eq_false in Hn; [left|right]; by apply not_eq_None_Some.
Qed.

(** Two banks with room for four entries; rows 3 and 7 of bank 1 are swapped. *)
Definition rit_levels : ImplDef := ["channel"; "rank"; "bankgroup"; "bank"; "row"; "column"].
Definition rit_base : Rit := mkRit (mkMapper 6 [0; 0; 0; 1; 4; 4] 6 5 4) [1; 1; 1; 2; 16; 128] (-1) (-1) (-1) (-1) [].
Definition rit_start : Rit := from_res rit_base (init_rit rit_levels 2 4 rit_base).
Definition rit_swapped : Rit := from_res rit_base (rit_insert_entry 1 3 7 rit_start).

Lemma rit_swapped_reach : rit_reach rit_start rit_swapped.
Proof.
  eapply rit_reach_step; [apply rit_reach_init|]. apply (step_insert _ 1 3 7); try lia; try reflexivity.
Qed.

Lemma row_indirection_roundtrip_witness :
  exists req', apply_indirection (set_addr_vec [0; 0; 0; 1; 3; 9] (Request_addr_type 0 0)) rit_swapped = Ok req' /\
    addr_vec req' = [0; 0; 0; 1; 7; 9] /\
    apply_indirection req' rit_swapped = Ok (set_addr_vec [0; 0; 0; 1; 3; 9] (Request_addr_type 0 0)).
Proof.
  exists (set_addr_vec [0; 0; 0; 1; 7; 9] (Request_addr_type 0 0)).
  assert (apply_indirection (set_addr_vec [0; 0; 0; 1; 3; 9] (Request_addr_type 0 0)) rit_swapped =
    Ok (set_addr_vec [0; 0; 0; 1; 7; 9] (Request_addr_type 0 0))) as E by (vm_compute; reflexivity).
  split; [exact E|]. split; [reflexivity|].
  destruct (row_indirection_roundtrip rit_levels 2 4 rit_base rit_start rit_swapped) as [_ H].
  - reflexivity.
  - apply from_res_Ok. vm_compute. reflexivity.
  - apply rit_swapped_reach.
  - apply H; [vm_compute; discriminate|vm_compute; reflexivity|exact E].
Defined.

Lemma get_unswap_pair_spec_witness :
  match get_unswap_pair 1 ∅ (rit_unlock rit_swapped) with
  | Ok (src, dst) => exists (b : gmap Z RIT_entry) e, b !! src = Some e /\ dst_row e = dst /\ lock e = false
  | Err _ => False
  end.
Proof.
  destruct (m_row_indirection_table (rit_unlock rit_swapped) !! Z.to_nat 1) as [b|] eqn:Hb.
  2: { apply lookup_ge_None in Hb. vm_compute in Hb. lia. }
  - pose proof (get_unswap_pair_spec 1 ∅ (rit_unlock rit_swapped) b ltac:(lia) Hb) as H.
    assert (ok_b (get_unswap_pair 1 ∅ (rit_unlock rit_swapped)) = true) as Ho by (vm_compute; reflexivity).
    destruct (get_unswap_pair 1 ∅ (rit_unlock rit_swapped)) as [[src dst]|e]; [|discriminate Ho].
    destruct H as (e & ? & ? & ? & _). by exists b, e.
Defined.
