(* ===== verification/Translation.v ===== *)
(** * Address translations: the interface and the stock implementations

    [translation/translation.h] and [no_translation.cpp], [random_translation.cpp],
    [random_translation2.cpp] of [translation/impl].  The NUMA translations of
    [LocalToRequester] and [DynamicMigration] are instances of the same class. *)
From S2P Require Import Prelude Rng CxxFloat Utils Request Numa NumaFacts LocalToRequester.
From S2P Require Import DynamicMigration.


(** A translation updates the request it is given and may refuse it. *)
Class ITranslation : Type := {
  tr_state : Type;
  tr_translate : Request -> tr_state -> res (bool * Request * tr_state);
}.

(** ** [NoTranslation] *)
Module NoTranslation.
Record State : Type := mkState { m_max_paddr : Z }.

Definition translate (req : Request) (s : State) : res (bool * Request * State) :=
  let new_addr := addr req in
  Ok (true, set_addr new_addr req, s).
End NoTranslation.

#[export] Instance no_translation : ITranslation := {| tr_translate := NoTranslation.translate |}.

Definition local_translation {RNG : Rng} (fuel : nat) : ITranslation :=
  {| tr_translate := Local.translate fuel |}.

Definition dynamic_translation {RNG : Rng} `{!IterOrder} (fuel : nat) : ITranslation :=
  {| tr_translate := Dynamic.translate fuel |}.

(** ** What the random translations share *)
Section Random.
Context {RNG : Rng}.

Record RandomConfig : Type := mkRandomConfig {
  r_max_paddr : Z;
  r_pagesize : Z;
  r_offsetbits : Z;
  r_num_pages : Z;
}.

Definition random_config (max_addr pagesize_KB : Z) : res RandomConfig :=
  let pagesize := i64 (Z.shiftl pagesize_KB 10) in
  offsetbits ← calc_log2 pagesize;
  if pagesize =? 0 then Err Undef else
  Ok (mkRandomConfig max_addr pagesize offsetbits (u64 (Z.quot max_addr pagesize))).

(** [while (bad(ppn)) ppn = rng() % m_num_pages], after a first draw. *)
Fixpoint draw_until (fuel : nat) (n : Z) (bad : Z -> res bool) (g : rng_state) : res (Z * rng_state) :=
  match fuel with
  | O => Err OutOfFuel
  | S fuel =>
      if n =? 0 then Err Undef else
      let '(r, g) := rng_next g in
      let ppn := r mod n in
      b ← bad ppn;
      if b : bool then draw_until fuel n bad g else Ok (ppn, g)
  end.

Definition page_addr (c : RandomConfig) (ppn a : Z) : Z :=
  Z.lor (Z.shiftl ppn (r_offsetbits c)) (Z.land a (Z.shiftl 1 (r_offsetbits c) - 1)).
End Random.

(** ** [RandomTranslation]: a page table per core *)
Module RandomTranslation.
Section RandomTranslation.
Context {RNG : Rng}.

Record State : Type := mkState {
  cfg : RandomConfig;
  m_allocator_rng : rng_state;
  m_free_physical_pages : list bool;
  m_num_free_physical_pages : Z;
  m_translation : list (gmap Z Z);
  m_reserved_pages : gset Z;
  page_table : gmap Z Z;
}.

Definition init (c : RandomConfig) (num_cores : nat) (seed : rng_state) : State :=
  mkState c seed (replicate (Z.to_nat (r_num_pages c)) true) (r_num_pages c)
    (replicate num_cores ∅) ∅ ∅.

Definition reserved (s : State) (ppn : Z) : bool := bool_decide (ppn ∈ m_reserved_pages s).

Definition unusable (s : State) (ppn : Z) : res bool :=
  if reserved s ppn then Ok true
  else f ← vget (m_free_physical_pages s) ppn; Ok (negb f).

(** A page for a virtual page without translation; [page_table] is written at
    [vpn] in the first branch and at [req.vpage] in the second. *)
Definition assign (fuel : nat) (req : Request) (vpn : Z) (s : State) : res (Z * State) :=
  let n := r_num_pages (cfg s) in
  if m_num_free_physical_pages s =? 0 then
    '(ppn, g) ← draw_until fuel n (fun p => Ok (reserved s p)) (m_allocator_rng s);
    Ok (ppn, mkState (cfg s) g (m_free_physical_pages s) (m_num_free_physical_pages s)
               (m_translation s) (m_reserved_pages s) (<[u64 vpn := ppn]> (page_table s)))
  else
    '(ppn, g) ← draw_until fuel n (unusable s) (m_allocator_rng s);
    Ok (ppn, mkState (cfg s) g (m_free_physical_pages s) (u64 (m_num_free_physical_pages s - 1))
               (m_translation s) (m_reserved_pages s) (<[u64 (vpage req) := ppn]> (page_table s))).

Definition translate (fuel : nat) (req : Request) (s : State) : res (bool * Request * State) :=
  let vpn := Z.shiftr (addr req) (r_offsetbits (cfg s)) in
  core ← vget (m_translation s) (source_id req);
  match core !! vpn with
  | Some ppn => Ok (true, set_addr (page_addr (cfg s) ppn (addr req)) req, s)
  | None =>
      '(ppn, s) ← assign fuel req vpn s;
      tr ← vset (m_translation s) (source_id req) (<[vpn := ppn]> core);
      Ok (true, set_addr (page_addr (cfg s) ppn (addr req)) req,
          mkState (cfg s) (m_allocator_rng s) (m_free_physical_pages s) (m_num_free_physical_pages s)
            tr (m_reserved_pages s) (page_table s))
  end.

Definition reserve (a : Z) (s : State) : bool * State :=
  (true, mkState (cfg s) (m_allocator_rng s) (m_free_physical_pages s) (m_num_free_physical_pages s)
           (m_translation s) ({[Z.shiftr a (r_offsetbits (cfg s))]} ∪ m_reserved_pages s) (page_table s)).
End RandomTranslation.
End RandomTranslation.

(** ** [RandomTranslation2]: one page table for all cores *)
Module RandomTranslation2.
Section RandomTranslation2.
Context {RNG : Rng}.

Record State : Type := mkState {
  cfg : RandomConfig;
  m_allocator_rng : rng_state;
  m_free_physical_pages : list bool;
  m_num_free_physical_pages : Z;
  m_reserved_pages : gset Z;
  global_page_table : gmap Z Z;
}.

Definition init (c : RandomConfig) (seed : rng_state) : State :=
  mkState c seed (replicate (Z.to_nat (r_num_pages c)) true) (r_num_pages c) ∅ ∅.

Definition reserved (s : State) (ppn : Z) : bool := bool_decide (ppn ∈ m_reserved_pages s).

Definition unusable (s : State) (ppn : Z) : res bool :=
  if reserved s ppn then Ok true
  else f ← vget (m_free_physical_pages s) ppn; Ok (negb f).

Definition assign (fuel : nat) (vpn : Z) (s : State) : res (Z * State) :=
  let n := r_num_pages (cfg s) in
  if m_num_free_physical_pages s =? 0 then
    '(ppn, g) ← draw_until fuel n (fun p => Ok (reserved s p)) (m_allocator_rng s);
    Ok (ppn, mkState (cfg s) g (m_free_physical_pages s) (m_num_free_physical_pages s)
               (m_reserved_pages s) (<[vpn := ppn]> (global_page_table s)))
  else
    '(ppn, g) ← draw_until fuel n (unusable s) (m_allocator_rng s);
    free ← vset (m_free_physical_pages s) ppn false;
    Ok (ppn, mkState (cfg s) g free (u64 (m_num_free_physical_pages s - 1))
               (m_reserved_pages s) (<[vpn := ppn]> (global_page_table s))).

(** The table has [size_t] keys. *)
Definition translate (fuel : nat) (req : Request) (s : State) : res (bool * Request * State) :=
  let a := addr req in
  let vpn := Z.shiftr a (r_offsetbits (cfg s)) in
  let req := set_virtual vpn a req in
  match global_page_table s !! u64 vpn with
  | Some ppn => Ok (true, set_addr (page_addr (cfg s) ppn a) req, s)
  | None =>
      '(ppn, s) ← assign fuel (u64 vpn) s;
      Ok (true, set_addr (page_addr (cfg s) ppn a) req, s)
  end.

Definition reserve (a : Z) (s : State) : bool * State :=
  (true, mkState (cfg s) (m_allocator_rng s) (m_free_physical_pages s) (m_num_free_physical_pages s)
           ({[Z.shiftr a (r_offsetbits (cfg s))]} ∪ m_reserved_pages s) (global_page_table s)).
End RandomTranslation2.
End RandomTranslation2.

Definition random_translation {RNG : Rng} (fuel : nat) : ITranslation :=
  {| tr_translate := RandomTranslation.translate fuel |}.

Definition random_translation2 {RNG : Rng} (fuel : nat) : ITranslation :=
  {| tr_translate := RandomTranslation2.translate fuel |}.

(** ** The random translations

    [RandomTranslation2] gives every page its own frame until the pages
    outnumber the frames; it loops for ever once the frames it still counts as
    free are all reserved.  [RandomTranslation] never records an assignment, so
    it assigns one frame to several pages. *)
Section Draw.
Context {RNG : Rng}.

Lemma draw_until_spec fuel n bad g ppn g' :
  0 < n -> draw_until fuel n bad g = Ok (ppn, g') -> 0 <= ppn < n /\ bad ppn = Ok false.
Proof.
  intros Hn. revert g. induction fuel as [|fuel IH]; cbn [draw_until]; intros g H; [done|].
  destruct (n =? 0); [done|]. destruct (rng_next g) as [r g1].
  apply bind_Ok in H as (b & Hb & H). destruct b; [by apply IH in H|]. injection H as <- <-.
  split; [by apply Z.mod_pos_bound|done].
Qed.

(** A loop whose test never fails does not end. *)
Lemma draw_until_stuck fuel n bad g :
  0 < n -> (forall p, 0 <= p < n -> bad p = Ok true) -> draw_until fuel n bad g = Err OutOfFuel.
Proof.
  intros Hn Hbad. revert g. induction fuel as [|fuel IH]; cbn [draw_until]; intros g; [done|].
  destruct (Z.eqb_spec n 0); [lia|]. destruct (rng_next g) as [r g1].
  rewrite Hbad by (by apply Z.mod_pos_bound). cbn [mbind res_bind]. apply IH.
Qed.
End Draw.

Module Random2.
Import RandomTranslation2.
Section Random2.
Context {RNG : Rng}.

Inductive reach (c : RandomConfig) (seed : rng_state) : State -> Prop :=
| reach_init : reach c seed (init c seed)
| reach_translate s fuel req b req' s' :
    reach c seed s -> translate fuel req s = Ok (b, req', s') -> reach c seed s'
| reach_reserve s a : reach c seed s -> reach c seed (reserve a s).2.

Definition injective (t : gmap Z Z) : Prop :=
  forall v w p, t !! v = Some p -> t !! w = Some p -> v = w.

Record inv (c : RandomConfig) (s : State) : Prop := {
  i_cfg : cfg s = c;
  i_len : Z.of_nat (length (m_free_physical_pages s)) = r_num_pages c;
  i_num : m_num_free_physical_pages s = ntrue (m_free_physical_pages s);
  i_used : forall v p, global_page_table s !! v = Some p ->
    0 <= p < r_num_pages c /\ (0 < m_num_free_physical_pages s -> m_free_physical_pages s !! Z.to_nat p = Some false);
  i_inj : (Z.of_nat (size (global_page_table s)) = r_num_pages c - m_num_free_physical_pages s /\
           injective (global_page_table s)) \/
          (m_num_free_physical_pages s = 0 /\ r_num_pages c < Z.of_nat (size (global_page_table s)));
}.

Lemma init_inv c seed : 0 < r_num_pages c -> inv c (init c seed).
Proof.
  intros Hc. split; cbn.
  - done.
  - rewrite length_replicate. lia.
  - rewrite ntrue_replicate_true. lia.
  - intros v p H. by rewrite lookup_empty in H.
  - left. rewrite map_size_empty. split; [lia|]. intros v w p H. by rewrite lookup_empty in H.
Qed.

(** Assigning a frame to a page without one. *)
Lemma assign_inv c fuel vpn s ppn s' :
  0 < r_num_pages c < 2 ^ 64 -> inv c s -> global_page_table s !! vpn = None ->
  assign fuel vpn s = Ok (ppn, s') ->
  inv c s' /\ global_page_table s' = <[vpn := ppn]> (global_page_table s) /\
  0 <= ppn < r_num_pages c /\ ppn ∉ m_reserved_pages s.
Proof.
  intros Hc [Hcfg Hlen Hnum Hused Hinj] Hnew H. unfold assign in H. rewrite Hcfg in H.
  pose proof (ntrue_nonneg (m_free_physical_pages s)). pose proof (ntrue_le (m_free_physical_pages s)).
  destruct (Z.eqb_spec (m_num_free_physical_pages s) 0) as [Hz|Hz].
  - apply bind_Ok in H as ([p g] & Hd & H). injection H as <- <-.
    apply draw_until_spec in Hd as [Hp Hr]; [|lia]. injection Hr as Hr. apply bool_decide_eq_false in Hr.
    split; [|done]. split; cbn; [done|done|done| |].
    + intros v q Hq. split; [|lia]. destruct (decide (v = vpn)) as [->|].
      * rewrite lookup_insert_eq in Hq. by injection Hq as <-.
      * rewrite lookup_insert_ne in Hq by done. by apply (Hused v).
    + right. split; [done|]. rewrite map_size_insert_None by done.
      destruct Hinj as [[Hsz _]|[_ Hsz]]; lia.
  - apply bind_Ok in H as ([p g] & Hd & H). apply bind_Ok in H as (free & [Hlt ->]%vset_Ok & H).
    injection H as <- <-. apply draw_until_spec in Hd as [Hp Hbad]; [|lia]. unfold unusable in Hbad.
    unfold reserved in Hbad. case_bool_decide as Hr; [done|].
    apply bind_Ok in Hbad as (f & [_ Hf]%vget_Ok & Hbad). destruct f; [|done].
    assert (u64 (m_num_free_physical_pages s - 1) = m_num_free_physical_pages s - 1) as Hu
      by (apply u64_small; lia).
    split; [|done]. split; cbn.
    + done.
    + by rewrite length_insert.
    + rewrite Hu, ntrue_clear by done. lia.
    + intros v q Hq. destruct (decide (v = vpn)) as [->|].
      * rewrite lookup_insert_eq in Hq. injection Hq as <-. split; [done|]. intros _.
        apply list_lookup_insert_eq. lia.
      * rewrite lookup_insert_ne in Hq by done. destruct (Hused v q Hq) as [? Hfree]. split; [done|].
        intros _. destruct (decide (q = p)) as [->|]; [apply list_lookup_insert_eq; lia|].
        rewrite list_lookup_insert_ne by lia. apply Hfree. lia.
    + left. destruct Hinj as [[Hsz Hi]|[? _]]; [|lia]. rewrite map_size_insert_None by done.
      split; [lia|]. assert (forall v, global_page_table s !! v <> Some p) as Hnp.
      { intros v Hv. destruct (Hused v p Hv) as [_ Hfree]. rewrite Hfree in Hf by lia. done. }
      intros v w q Hv Hw.
      apply lookup_insert_Some in Hv as [[<- <-]|[Hv1 Hv]], Hw as [[Hw1 Hw]|[Hw1 Hw]].
      * congruence.
      * by destruct (Hnp w).
      * subst. by destruct (Hnp v).
      * by eapply Hi.
Qed.

Lemma reach_inv c seed s : 0 < r_num_pages c < 2 ^ 64 -> reach c seed s -> inv c s.
Proof.
  intros Hc. induction 1 as [|s fuel req b req' s' _ IH Ht|s a _ IH].
  - apply init_inv; lia.
  - unfold translate in Ht. destruct (_ !! _) eqn:E; [by injection Ht as _ _ <-|].
    apply bind_Ok in Ht as ([ppn s1] & Ha & Ht). injection Ht as _ _ <-. by eapply assign_inv.
  - destruct IH. by split.
Qed.
End Random2.
End Random2.

(** ** Properties *)

(** [RandomTranslation2] gives every virtual page its own frame as
    long as no more pages were translated than there are frames, whatever frames
    are reserved on the way; every frame handed out exists. *)
Theorem random2_pages_disjoint {RNG : Rng} c seed s :
  0 < r_num_pages c < 2 ^ 64 -> Random2.reach c seed s ->
  (forall v p, RandomTranslation2.global_page_table s !! v = Some p -> 0 <= p < r_num_pages c) /\
  (Z.of_nat (size (RandomTranslation2.global_page_table s)) <= r_num_pages c ->
   forall v w p, RandomTranslation2.global_page_table s !! v = Some p ->
                 RandomTranslation2.global_page_table s !! w = Some p -> v = w).
Proof.
  intros Hc Hr. destruct (Random2.reach_inv c seed s Hc Hr) as [_ _ _ Hused Hinj]. split.
  - intros v p Hv. by apply (Hused v).
  - intros Hsz. destruct Hinj as [[_ Hi]|[_ ?]]; [exact Hi|lia].
Qed.

(** When all frames that [RandomTranslation2] still counts as free
    are reserved, translating a new page never ends: no amount of fuel is
    enough. *)
Theorem random2_reserved_frames_block {RNG : Rng} c seed s fuel req :
  0 < r_num_pages c < 2 ^ 64 -> Random2.reach c seed s ->
  RandomTranslation2.m_num_free_physical_pages s <> 0 ->
  (forall p, 0 <= p -> RandomTranslation2.m_free_physical_pages s !! Z.to_nat p = Some true ->
             p ∈ RandomTranslation2.m_reserved_pages s) ->
  RandomTranslation2.global_page_table s !! u64 (Z.shiftr (addr req) (r_offsetbits c)) = None ->
  RandomTranslation2.translate fuel req s = Err OutOfFuel.
Proof.
  intros Hc Hr H0 Hres Hnew. destruct (Random2.reach_inv c seed s Hc Hr) as [Hcfg Hlen _ _ _].
  unfold RandomTranslation2.translate. rewrite Hcfg, Hnew. unfold RandomTranslation2.assign. rewrite Hcfg.
  destruct (Z.eqb_spec (RandomTranslation2.m_num_free_physical_pages s) 0); [done|].
  rewrite draw_until_stuck; [done|lia|]. intros p Hp. unfold RandomTranslation2.unusable, RandomTranslation2.reserved.
  case_bool_decide as Hin; [done|]. destruct (lookup_lt_is_Some_2 (RandomTranslation2.m_free_physical_pages s) (Z.to_nat p))
    as [[] Hf]; [lia|by destruct (Hin (Hres p (proj1 Hp) Hf))|].
  unfold vget. rewrite bool_decide_true, Hf by lia. done.
Qed.

(** The system of the witnesses: four frames, frame 0 reserved, three pages. *)
Definition r2_cfg : RandomConfig := mkRandomConfig 16384 4096 12 4.
Definition r2_req (vpn : Z) : Request := Request_addr_type_source (vpn * 4096) ReqType.Read 0.
Definition r2_init : @RandomTranslation2.State counter_rng :=
  (RandomTranslation2.reserve 0 (RandomTranslation2.init (RNG := counter_rng) r2_cfg 5)).2.
Definition r2_next (vpn : Z) (s : @RandomTranslation2.State counter_rng) : @RandomTranslation2.State counter_rng :=
  match RandomTranslation2.translate 20 (r2_req vpn) s with Ok (_, _, s') => s' | Err _ => s end.
Definition r2_full : @RandomTranslation2.State counter_rng := r2_next 12 (r2_next 11 (r2_next 10 r2_init)).

Lemma r2_next_reach vpn s : Random2.reach (RNG := counter_rng) r2_cfg 5 s -> Random2.reach (RNG := counter_rng) r2_cfg 5 (r2_next vpn s).
Proof.
  intros H. unfold r2_next. destruct (RandomTranslation2.translate 20 (r2_req vpn) s) as [[[b r] s']|e] eqn:E; [|done].
  by eapply Random2.reach_translate.
Qed.

Lemma r2_full_reach : Random2.reach (RNG := counter_rng) r2_cfg 5 r2_full.
Proof. do 3 apply r2_next_reach. apply Random2.reach_reserve, Random2.reach_init. Qed.

Lemma random2_pages_disjoint_witness :
  size (RandomTranslation2.global_page_table r2_full) = 3%nat /\
  forall v w p, RandomTranslation2.global_page_table r2_full !! v = Some p ->
                RandomTranslation2.global_page_table r2_full !! w = Some p -> v = w.
Proof.
  assert (size (RandomTranslation2.global_page_table r2_full) = 3%nat) as Hs by (vm_compute; reflexivity).
  split; [exact Hs|].
  destruct (random2_pages_disjoint (RNG := counter_rng) r2_cfg 5 r2_full) as [_ H];
    [cbn; lia|apply r2_full_reach|]. apply H. rewrite Hs. cbn. lia.
Defined.

Lemma random2_reserved_frames_block_witness :
  RandomTranslation2.translate 1000 (r2_req 13) r2_full = Err OutOfFuel.
Proof.
  apply (random2_reserved_frames_block (RNG := counter_rng) r2_cfg 5 r2_full 1000 (r2_req 13)).
  - cbn. lia.
  - apply r2_full_reach.
  - vm_compute. discriminate.
  - intros p H0 Hp. replace (RandomTranslation2.m_free_physical_pages r2_full) with [true; false; false; false] in Hp
      by (vm_compute; reflexivity).
    assert (Z.to_nat p = 0%nat) as E by (destruct (Z.to_nat p) as [|[|[|[|k]]]]; done).
    replace p with 0 by lia. refine (bool_decide_unpack (0 ∈ RandomTranslation2.m_reserved_pages r2_full) _). vm_compute. exact I.
  - vm_compute. reflexivity.
Defined.

(** The first eight pages of a core on a memory of 16 frames, with the engine
    and the seed of the code: the frames they get and the count of free frames. *)
Definition r1_cfg : RandomConfig := mkRandomConfig 65536 4096 12 16.
Definition r1_init : @RandomTranslation.State mt19937_64 :=
  RandomTranslation.init (RNG := mt19937_64) r1_cfg 1 (Mt19937_64.seed 123).

Fixpoint r1_frames (pages : list Z) (s : @RandomTranslation.State mt19937_64) : res (list Z * Z) :=
  match pages with
  | [] => Ok ([], RandomTranslation.m_num_free_physical_pages s)
  | v :: pages =>
      '(_, r, s) ← RandomTranslation.translate 50 (r2_req v) s;
      '(frames, n) ← r1_frames pages s;
      Ok (addr r / 4096 :: frames, n)
  end.

(** [RandomTranslation] does not record assigned frames: with the
    default seed and 16 frames, the fourth and the eighth page of one core get
    the same frame while eight frames are still counted as free. *)
Theorem random_translation_shares_frames :
  r1_frames [1; 2; 3; 4; 5; 6; 7; 8] r1_init = Ok ([0; 11; 13; 14; 12; 4; 8; 14], 8).
Proof. vm_compute. reflexivity. Qed.
