(* ===== verification/SimpleO3.v ===== *)
(** * The processor frontend [SimpleO3] and the main loop

    Models [frontend/impl/processor/simpleO3] ([core.h], [core.cpp], [llc.cpp],
    [simpleO3.cpp]) and the simulation loop of [main.cpp].  The last-level cache
    of this repository forwards every request to the memory system.  A memory
    system is used through the class [IMemory]. *)
From Stdlib Require Import String.
From S2P Require Import Prelude Utils Request Translation DramSpec Dram Scheduler Controller.
From S2P Require Import MemorySystem.
Local Open Scope string_scope.
Local Open Scope Z_scope.

(** ** What a frontend uses of a memory system

    [mem_send] also returns the request whose callback it invokes before it
    returns, if it does; [mem_tick] returns the completed requests in order. *)
Class IMemory : Type := {
  mem_state : Type;
  mem_send : Request -> mem_state -> res (bool * option Request * mem_state);
  mem_tick : mem_state -> res (list Request * mem_state);
}.

Definition generic_memory `{D : IDRAM} `{S : !IScheduler} `{M : !IAddrMapper} (p : SysConfig) : IMemory := {|
  mem_state := MemSys;
  mem_send := fun req s => '(ok, s) ← MemorySystem.send req s; Ok (ok, None, s);
  mem_tick := MemorySystem.tick p;
|}.

Definition custom_memory `{D : IDRAM} `{S : !IScheduler} `{M : !IAddrMapper} (p : SysConfig) : IMemory := {|
  mem_state := Custom;
  mem_send := fun req s => '(ok, s) ← custom_send req s; Ok (ok, None, s);
  mem_tick := custom_tick p;
|}.

(** [DummyMemorySystem]: the callback is invoked at once. *)
Definition dummy_send (req : Request) (s : unit) : res (bool * option Request * unit) :=
  Ok (true, if decide (callback req = CbNone) then None else Some req, s).

Definition dummy_memory : IMemory := {|
  mem_send := dummy_send;
  mem_tick := fun s : unit => Ok ([], s);
|}.

(** [std::vector::at] throws. *)
Definition vat {A} (l : list A) (i : Z) : res A :=
  if bool_decide (0 <= i < Z.of_nat (List.length l)) then vget l i else Err (Exc "vector::at").

Definition vat_set {A} (l : list A) (i : Z) (x : A) : res (list A) :=
  if bool_decide (0 <= i < Z.of_nat (List.length l)) then vset l i x else Err (Exc "vector::at").

(** ** The trace *)
Record Inst : Type := mkInst { bubble_count : Z; load_addr : Z; store_addr : Z }.

Definition parse_inst (line : string) : res Inst :=
  let tokens := tokenize line " " in
  let num_tokens := Z.of_nat (List.length tokens) in
  if negb (num_tokens =? 2) && negb (num_tokens =? 3) then Err (Exc "Trace format invalid!") else
  t0 ← vget tokens 0;
  let bubble_count := match stoi t0 with Ok n => n | Err _ => 5 end in
  t1 ← vget tokens 1;
  load ← stoll t1;
  if num_tokens =? 2 then Ok (mkInst bubble_count load (-1))
  else
    t2 ← vget tokens 2;
    store ← stoll t2;
    Ok (mkInst bubble_count load store).

Fixpoint parse_lines (lines : list string) : res (list Inst) :=
  match lines with
  | [] => Ok []
  | l :: lines => i ← parse_inst l; insts ← parse_lines lines; Ok (i :: insts)
  end.

(** The constructor of [Trace]: [None] is a file that does not exist or cannot
    be opened. *)
Definition load_trace (file : option (list string)) : res (list Inst) :=
  match file with
  | None => Err (Exc "Trace does not exist!")
  | Some lines => parse_lines lines
  end.

Record Trace : Type := mkTrace { m_trace : list Inst; m_curr_trace_idx : Z }.

Definition get_next_inst (t : Trace) : res (Inst * Trace) :=
  inst ← vget (m_trace t) (m_curr_trace_idx t);
  Ok (inst, mkTrace (m_trace t) ((m_curr_trace_idx t + 1) mod Z.of_nat (List.length (m_trace t)))).

(** ** The instruction window *)
Module InstWindow.
Record t : Type := mk {
  m_ipc : Z;
  m_depth : Z;
  m_load : Z;
  m_head_idx : Z;
  m_tail_idx : Z;
  m_ready_list : list bool;
  m_addr_list : list Z;
}.

Definition new (ipc depth : Z) : t :=
  mk ipc depth 0 0 0 (replicate (Z.to_nat depth) false) (replicate (Z.to_nat depth) (-1)).

Definition is_full (w : t) : bool := m_load w =? m_depth w.

Definition insert (ready : bool) (addr : Z) (w : t) : res t :=
  rl ← vat_set (m_ready_list w) (m_head_idx w) ready;
  al ← vat_set (m_addr_list w) (m_head_idx w) addr;
  if m_depth w =? 0 then Err Undef else
  Ok (mk (m_ipc w) (m_depth w) (m_load w + 1) (Z.rem (m_head_idx w + 1) (m_depth w)) (m_tail_idx w) rl al).

(** [n] instructions may still be retired. *)
Fixpoint retire_loop (n : nat) (num_retired : Z) (w : t) : res (Z * t) :=
  match n with
  | O => Ok (num_retired, w)
  | S n =>
      if 0 <? m_load w then
        r ← vat (m_ready_list w) (m_tail_idx w);
        if r : bool then
          if m_depth w =? 0 then Err Undef else
          retire_loop n (num_retired + 1)
            (mk (m_ipc w) (m_depth w) (m_load w - 1) (m_head_idx w)
               (Z.rem (m_tail_idx w + 1) (m_depth w)) (m_ready_list w) (m_addr_list w))
        else Ok (num_retired, w)
      else Ok (num_retired, w)
  end.

Definition retire (w : t) : res (Z * t) :=
  if m_load w =? 0 then Ok (0, w) else retire_loop (Z.to_nat (m_ipc w)) 0 w.

Fixpoint set_ready_loop (n : nat) (index addr : Z) (w : t) : res t :=
  match n with
  | O => Ok w
  | S n =>
      a ← vget (m_addr_list w) index;
      rl ← (if a =? addr then vset (m_ready_list w) index true else Ok (m_ready_list w));
      let w := mk (m_ipc w) (m_depth w) (m_load w) (m_head_idx w) (m_tail_idx w) rl (m_addr_list w) in
      let index := index + 1 in
      set_ready_loop n (if index =? m_depth w then 0 else index) addr w
  end.

Definition set_ready (addr : Z) (w : t) : res t :=
  if m_load w =? 0 then Ok w else set_ready_loop (Z.to_nat (m_load w)) (m_tail_idx w) addr w.
End InstWindow.

(** ** The core *)
Record Core : Type := mkCore {
  m_id : Z;
  c_clk : Z;
  c_trace : Trace;
  m_window : InstWindow.t;
  m_num_bubbles : Z;
  m_load_addr : Z;
  m_writeback_addr : Z;
  m_num_expected_insts : Z;
  m_last_mem_cycle : Z;
  reached_expected_num_insts : bool;
  s_insts_retired : Z;
  s_cycles_recorded : Z;
  s_mem_access_cycles : Z;
}.

Definition set_window (w : InstWindow.t) (c : Core) : Core :=
  mkCore (m_id c) (c_clk c) (c_trace c) w (m_num_bubbles c) (m_load_addr c) (m_writeback_addr c)
    (m_num_expected_insts c) (m_last_mem_cycle c) (reached_expected_num_insts c)
    (s_insts_retired c) (s_cycles_recorded c) (s_mem_access_cycles c).

Definition set_bubbles (n : Z) (c : Core) : Core :=
  mkCore (m_id c) (c_clk c) (c_trace c) (m_window c) n (m_load_addr c) (m_writeback_addr c)
    (m_num_expected_insts c) (m_last_mem_cycle c) (reached_expected_num_insts c)
    (s_insts_retired c) (s_cycles_recorded c) (s_mem_access_cycles c).

Definition clear_load (c : Core) : Core :=
  mkCore (m_id c) (c_clk c) (c_trace c) (m_window c) (m_num_bubbles c) (-1) (m_writeback_addr c)
    (m_num_expected_insts c) (m_last_mem_cycle c) (reached_expected_num_insts c)
    (s_insts_retired c) (s_cycles_recorded c) (s_mem_access_cycles c).

(** Fetching the next line of the trace. *)
Definition fetch (c : Core) : res Core :=
  '(inst, tr) ← get_next_inst (c_trace c);
  Ok (mkCore (m_id c) (c_clk c) tr (m_window c) (bubble_count inst) (load_addr inst) (store_addr inst)
        (m_num_expected_insts c) (m_last_mem_cycle c) (reached_expected_num_insts c)
        (s_insts_retired c) (s_cycles_recorded c) (s_mem_access_cycles c)).

Definition new_core (id ipc depth num_expected_insts : Z) (trace : list Inst) : res Core :=
  fetch (mkCore id 0 (mkTrace trace 0) (InstWindow.new ipc depth) 0 (-1) (-1) num_expected_insts 0
           false 0 0 0).

Definition core_receive (req : Request) (c : Core) : res Core :=
  w ← InstWindow.set_ready (addr req) (m_window c);
  let c := set_window w c in
  if negb (arrive req =? -1) && (m_last_mem_cycle c <? depart req) &&
     negb (reached_expected_num_insts c) then
    Ok (mkCore (m_id c) (c_clk c) (c_trace c) (m_window c) (m_num_bubbles c) (m_load_addr c)
          (m_writeback_addr c) (m_num_expected_insts c) (depart req) (reached_expected_num_insts c)
          (s_insts_retired c) (s_cycles_recorded c)
          (s_mem_access_cycles c + (depart req - Z.max (m_last_mem_cycle c) (arrive req))))
  else Ok c.

(** The clock, the retirement and its statistics. *)
Definition retire_stage (c : Core) : res Core :=
  '(n, w) ← InstWindow.retire (m_window c);
  let clk := c_clk c + 1 in
  let retired := u64 (s_insts_retired c + n) in
  let first := negb (reached_expected_num_insts c) && (m_num_expected_insts c <=? retired) in
  Ok (mkCore (m_id c) clk (c_trace c) w (m_num_bubbles c) (m_load_addr c) (m_writeback_addr c)
        (m_num_expected_insts c) (m_last_mem_cycle c) (reached_expected_num_insts c || first)
        retired (if first then u64 clk else s_cycles_recorded c) (s_mem_access_cycles c)).

(** The non-memory instructions: [Some] is the number inserted when all bubbles
    are issued, [None] that the cycle ends here. *)
Fixpoint issue_bubbles (bubbles : nat) (num_inserted : Z) (c : Core) : res (option Z * Core) :=
  match bubbles with
  | O => Ok (Some num_inserted, c)
  | S bubbles =>
      if num_inserted =? InstWindow.m_ipc (m_window c) then Ok (None, c)
      else if InstWindow.is_full (m_window c) then Ok (None, c)
      else
        w ← InstWindow.insert true (-1) (m_window c);
        issue_bubbles bubbles (num_inserted + 1) (set_bubbles (m_num_bubbles c - 1) (set_window w c))
  end.

Section Frontend.
Context `{T : ITranslation} `{M : IMemory}.

(** The cache forwards the request; a callback invoked by the memory system
    during the call reaches this core, whose request it is. *)
Definition llc_send (req : Request) (c : Core) (m : mem_state) : res (bool * Core * mem_state) :=
  '(ok, cb, m) ← mem_send req m;
  c ← match cb with Some r => core_receive r c | None => Ok c end;
  Ok (ok, c, m).

(** The flag says whether the cycle goes on. *)
Definition load_stage (num_inserted : Z) (c : Core) (t : tr_state) (m : mem_state)
    : res (bool * Core * tr_state * mem_state) :=
  if m_load_addr c =? -1 then Ok (true, c, t, m)
  else if num_inserted =? InstWindow.m_ipc (m_window c) then Ok (false, c, t, m)
  else if InstWindow.is_full (m_window c) then Ok (false, c, t, m)
  else
    let req := Request_addr_type_source_callback (m_load_addr c) ReqType.Read (m_id c) CbFrontEnd in
    '(ok, req, t) ← tr_translate req t;
    if negb ok then Ok (false, c, t, m) else
    '(sent, c, m) ← llc_send req c m;
    if sent : bool then
      w ← InstWindow.insert false (addr req) (m_window c);
      let c := clear_load (set_window w c) in
      Ok (m_writeback_addr c =? -1, c, t, m)
    else Ok (false, c, t, m).

Definition writeback_stage (c : Core) (t : tr_state) (m : mem_state)
    : res (bool * Core * tr_state * mem_state) :=
  if m_writeback_addr c =? -1 then Ok (true, c, t, m)
  else
    let req := Request_addr_type_source_callback (m_writeback_addr c) ReqType.Write (m_id c) CbFrontEnd in
    '(ok, req, t) ← tr_translate req t;
    if negb ok then Ok (false, c, t, m) else
    '(sent, c, m) ← llc_send req c m;
    Ok (sent, c, t, m).

Definition core_tick (c : Core) (t : tr_state) (m : mem_state) : res (Core * tr_state * mem_state) :=
  c ← retire_stage c;
  '(inserted, c) ← issue_bubbles (Z.to_nat (m_num_bubbles c)) 0 c;
  match inserted with
  | None => Ok (c, t, m)
  | Some n =>
      '(go, c, t, m) ← load_stage n c t m;
      if negb go then Ok (c, t, m) else
      '(go, c, t, m) ← writeback_stage c t m;
      if negb go then Ok (c, t, m) else
      c ← fetch c;
      Ok (c, t, m)
  end.

(** ** The frontend *)
Record Front : Type := mkFront {
  f_clk : Z;
  llc_clk : Z;
  m_cores : list Core;
}.

(** The geometry of the cache, which the forwarding cache does not use. *)
Record LLC : Type := mkLLC {
  m_latency : Z; m_size_bytes : Z; m_linesize_bytes : Z; m_associativity : Z; m_num_mshrs : Z;
  m_set_size : Z; m_index_mask : Z; m_index_offset : Z; m_tag_offset : Z;
}.

Definition new_llc (latency size_bytes linesize_bytes associativity num_mshrs : Z) : res LLC :=
  let ways := u64 (linesize_bytes * associativity) in
  if ways =? 0 then Err Undef else
  let set_size := i32 (u64 size_bytes / ways) in
  off ← calc_log2 (u64 linesize_bytes);
  sets ← calc_log2 set_size;
  Ok (mkLLC latency (u64 size_bytes) (u64 linesize_bytes) associativity num_mshrs set_size
        (set_size - 1) off (sets + off)).

Fixpoint new_cores (id ipc depth num_expected : Z) (traces : list (option (list string))) : res (list Core) :=
  match traces with
  | [] => Ok []
  | file :: traces =>
      tr ← load_trace file;
      c ← new_core id ipc depth num_expected tr;
      cs ← new_cores (id + 1) ipc depth num_expected traces;
      Ok (c :: cs)
  end.

Definition front_init (ipc depth num_expected : Z) (traces : list (option (list string))) : res Front :=
  cs ← new_cores 0 ipc depth num_expected traces;
  Ok (mkFront 0 0 cs).

Fixpoint tick_cores (cs : list Core) (t : tr_state) (m : mem_state)
    : res (list Core * tr_state * mem_state) :=
  match cs with
  | [] => Ok ([], t, m)
  | c :: cs =>
      '(c, t, m) ← core_tick c t m;
      '(cs, t, m) ← tick_cores cs t m;
      Ok (c :: cs, t, m)
  end.

Definition front_tick (f : Front) (t : tr_state) (m : mem_state) : res (Front * tr_state * mem_state) :=
  '(cs, t, m) ← tick_cores (m_cores f) t m;
  Ok (mkFront (f_clk f + 1) (llc_clk f + 1) cs, t, m).

Definition front_receive (req : Request) (f : Front) : res Front :=
  c ← vget (m_cores f) (source_id req);
  c ← core_receive req c;
  cs ← vset (m_cores f) (source_id req) c;
  Ok (mkFront (f_clk f) (llc_clk f) cs).

Definition is_finished (f : Front) : bool := forallb reached_expected_num_insts (m_cores f).

(** ** The main loop *)
Record Sim : Type := mkSim { front : Front; trans : tr_state; memory : mem_state }.

Fixpoint receive_all (reqs : list Request) (f : Front) : res Front :=
  match reqs with
  | [] => Ok f
  | r :: reqs => f ← (if decide (callback r = CbNone) then Ok f else front_receive r f); receive_all reqs f
  end.

Definition mem_cycle (s : Sim) : res Sim :=
  '(dns, m) ← mem_tick (memory s);
  f ← receive_all dns (front s);
  Ok (mkSim f (trans s) m).

Definition front_cycle (s : Sim) : res Sim :=
  '(f, t, m) ← front_tick (front s) (trans s) (memory s);
  Ok (mkSim f t m).

(** Whether the frontend and the memory system tick in iteration [i]. *)
Definition front_ticks (frontend_tick mem_tick i : Z) : bool :=
  (i mod (frontend_tick * mem_tick)) mod mem_tick =? 0.
Definition mem_ticks (frontend_tick mem_tick i : Z) : bool :=
  (i mod (frontend_tick * mem_tick)) mod frontend_tick =? 0.

(** One iteration, with whether the simulation is finished. *)
Definition iteration (frontend_tick mem_tick i : Z) (s : Sim) : res (bool * Sim) :=
  if frontend_tick * mem_tick =? 0 then Err Undef else
  s ← (if front_ticks frontend_tick mem_tick i then front_cycle s else Ok s);
  if is_finished (front s) then Ok (true, s)
  else
    s ← (if mem_ticks frontend_tick mem_tick i then mem_cycle s else Ok s);
    Ok (false, s).

Fixpoint simulate (fuel : nat) (frontend_tick mem_tick i : Z) (s : Sim) : res Sim :=
  match fuel with
  | O => Err OutOfFuel
  | S fuel =>
      '(finished, s) ← iteration frontend_tick mem_tick i s;
      if finished : bool then Ok s else simulate fuel frontend_tick mem_tick (i + 1) s
  end.
End Frontend.
