(* ===== verification/TraceFrontends.v ===== *)
(** * Trace-driven frontends

    Models [frontend/impl/memory_trace] ([loadstore_trace.cpp],
    [readwrite_trace.cpp], [custom_trace.cpp], [new.cpp]) and
    [frontend/impl/external_wrapper/gem5_frontend.cpp]: parsing of the trace
    files, [tick] and [is_finished].  A file that does not exist or cannot be
    opened is [None]. *)
From Stdlib Require Import String Ascii.
From S2P Require Import Prelude Utils Request Translation SimpleO3.
Local Open Scope string_scope.
Local Open Scope Z_scope.

(** ** [std::stoll(s, nullptr, 16)] *)
Definition hex_digit (c : ascii) : option Z :=
  let n := Z.of_nat (nat_of_ascii c) in
  if (48 <=? n) && (n <=? 57) then Some (n - 48)
  else if (97 <=? n) && (n <=? 102) then Some (n - 87)
  else if (65 <=? n) && (n <=? 70) then Some (n - 55)
  else None.

Fixpoint hex_digits (acc : option Z) (s : string) : option Z :=
  match s with
  | String c s' =>
      match hex_digit c with
      | Some d => hex_digits (Some (default 0 acc * 16 + d)) s'
      | None => acc
      end
  | "" => acc
  end.

(** An optional [0x] before at least one digit. *)
Definition hex_magnitude (s : string) : option Z :=
  match s with
  | String "0" (String c s') =>
      if Ascii.eqb c "x" || Ascii.eqb c "X" then
        match hex_digits None s' with Some v => Some v | None => Some 0 end
      else hex_digits None s
  | _ => hex_digits None s
  end.

Definition stoll16 (s : string) : res Z :=
  let '(neg, m) := match skip_space s with
                   | String "-" s' => (true, hex_magnitude s')
                   | String "+" s' => (false, hex_magnitude s')
                   | s' => (false, hex_magnitude s')
                   end in
  match m with
  | None => Err (Exc "invalid_argument")
  | Some v =>
      let x := if neg : bool then - v else v in
      if (- 2 ^ 63 <=? x) && (x <? 2 ^ 63) then Ok x else Err (Exc "out_of_range")
  end.

(** ** Reading a file line by line *)
Definition bad_format : err := Exc "Trace format invalid!".

Fixpoint parse_all {A} (parse : string -> res A) (lines : list string) : res (list A) :=
  match lines with
  | [] => Ok []
  | l :: lines => x ← parse l; xs ← parse_all parse lines; Ok (x :: xs)
  end.

Definition init_trace {A} (parse : string -> res A) (file : option (list string)) : res (list A) :=
  match file with
  | None => Err (Exc "Trace does not exist!")
  | Some lines => parse_all parse lines
  end.

(** The access type: the token for a read, the token for a write. *)
Definition parse_type (rd wr tok : string) : res bool :=
  if String.eqb tok rd then Ok false else if String.eqb tok wr then Ok true else Err bad_format.

Definition req_type (is_write : bool) : Z := if is_write then ReqType.Write else ReqType.Read.

(** ** [LoadStoreTrace]: sends the trace, again and again *)
Module LoadStoreTrace.
Record Trace : Type := mkTrace { is_write : bool; addr : Z }.
Record State : Type := mkState { m_trace : list Trace; m_curr_trace_idx : Z; m_trace_count : Z }.

Definition parse_line (line : string) : res Trace :=
  match tokenize line " " with
  | [t0; t1] =>
      w ← parse_type "LD" "ST" t0;
      a ← (if String.prefix "0x" t1 || String.prefix "0X" t1
           then stoll16 (substring 2 (String.length t1 - 2) t1) else stoll t1);
      Ok (mkTrace w a)
  | _ => Err bad_format
  end.

Definition init (file : option (list string)) : res State :=
  l ← init_trace parse_line file; Ok (mkState l 0 0).

Definition request (t : Trace) : Request := Request_addr_type (addr t) (req_type (is_write t)).

Definition tick `{M : IMemory} (s : State) (m : mem_state) : res (State * mem_state) :=
  t ← vget (m_trace s) (m_curr_trace_idx s);
  '(sent, _, m) ← mem_send (request t) m;
  if sent : bool then
    Ok (mkState (m_trace s) ((m_curr_trace_idx s + 1) mod Z.of_nat (List.length (m_trace s)))
          (u64 (m_trace_count s + 1)), m)
  else Ok (s, m).

Definition is_finished (s : State) : bool := Z.of_nat (List.length (m_trace s)) <=? m_trace_count s.
End LoadStoreTrace.

(** ** [ReadWriteTrace]: address vectors, whatever [send] answers *)
Module ReadWriteTrace.
Record Trace : Type := mkTrace { is_write : bool; addr_vec : list Z }.
Record State : Type := mkState { m_trace : list Trace; m_curr_trace_idx : Z }.

(** [addr_vec.push_back(std::stoll(token))] narrows to [int]. *)
Fixpoint parse_vec (tokens : list string) : res (list Z) :=
  match tokens with
  | [] => Ok []
  | t :: tokens => x ← stoll t; v ← parse_vec tokens; Ok (i32 x :: v)
  end.

Definition parse_line (line : string) : res Trace :=
  match tokenize line " " with
  | [t0; t1] => w ← parse_type "R" "W" t0; v ← parse_vec (tokenize t1 ","); Ok (mkTrace w v)
  | _ => Err bad_format
  end.

Definition init (file : option (list string)) : res State :=
  l ← init_trace parse_line file; Ok (mkState l 0).

Definition request (t : Trace) : Request := Request_vec_type (addr_vec t) (req_type (is_write t)).

Definition tick `{M : IMemory} (s : State) (m : mem_state) : res (State * mem_state) :=
  t ← vget (m_trace s) (m_curr_trace_idx s);
  '(_, _, m) ← mem_send (request t) m;
  Ok (mkState (m_trace s) ((m_curr_trace_idx s + 1) mod Z.of_nat (List.length (m_trace s))), m).

Definition is_finished (s : State) : bool := true.
End ReadWriteTrace.

(** ** [CustomTrace]: translated requests of several cores *)

(** The global [vpn_access_count] of [base/utils.h]. *)
Definition count_access (a : Z) (counts : gmap Z Z) : gmap Z Z :=
  let vpn := u64 (Z.shiftr a 12) in <[vpn := u64 (default 0 (counts !! vpn) + 1)]> counts.

Module CustomTrace.
Record Trace : Type := mkTrace { is_write : bool; addr : Z; source_id : Z }.
Record State : Type := mkState { m_trace : list Trace; m_curr_trace_idx : Z; vpn_access_count : gmap Z Z }.

Definition parse_line (line : string) : res Trace :=
  match tokenize line " " with
  | [t0; t1; t2] =>
      w ← parse_type "R" "W" t0; a ← stoll t1; src ← stoi t2; Ok (mkTrace w a src)
  | _ => Err bad_format
  end.

Definition init (file : option (list string)) : res State :=
  l ← init_trace parse_line file; Ok (mkState l 0 ∅).

Definition request (t : Trace) : Request :=
  Request_addr_type_source (addr t) (req_type (is_write t)) (source_id t).

(** The next record: after a success, or when the translation fails. *)
Definition advance (s : State) : State :=
  mkState (m_trace s) (u64 (m_curr_trace_idx s + 1)) (vpn_access_count s).

Definition tick `{T : ITranslation} `{M : IMemory} (s : State) (tr : tr_state) (m : mem_state)
    : res (State * tr_state * mem_state) :=
  t ← vget (m_trace s) (m_curr_trace_idx s);
  let req := request t in
  let s := mkState (m_trace s) (m_curr_trace_idx s) (count_access (Request.addr req) (vpn_access_count s)) in
  '(translated, req, tr) ← tr_translate req tr;
  if negb translated then Ok (advance s, tr, m)
  else
    '(sent, _, m) ← mem_send req m;
    Ok (if sent : bool then advance s else s, tr, m).

Definition is_finished (s : State) : bool := Z.of_nat (List.length (m_trace s)) <=? m_curr_trace_idx s.
End CustomTrace.

(** ** [CustomTrace2]: records with a clock cycle *)
Module CustomTrace2.
Record Trace : Type := mkTrace { t_clk : Z; is_write : bool; addr : Z; source_id : Z }.
Record State : Type := mkState {
  m_trace : list Trace; m_curr_trace_idx : Z; clk : Z; vpn_access_count : gmap Z Z;
}.

(** Every exception of a conversion becomes a configuration error. *)
Definition guarded {A} (what : string) (x : res A) : res A :=
  match x with Ok v => Ok v | Err _ => Err (Exc what) end.

Definition parse_line (line : string) : res Trace :=
  match tokenize line " " with
  | [t0; t1; t2; t3] =>
      c ← guarded "Invalid clock" (stoull t0);
      w ← guarded "Invalid access type" (parse_type "R" "W" t1);
      a ← guarded "Invalid address" (stoll t2);
      src ← guarded "Invalid source ID" (stoi t3);
      Ok (mkTrace c w a src)
  | _ => Err bad_format
  end.

Definition init (file : option (list string)) : res State :=
  l ← init_trace parse_line file; Ok (mkState l 0 0 ∅).

Definition request (t : Trace) : Request :=
  Request_addr_type_source (addr t) (req_type (is_write t)) (source_id t).

Definition set_idx (i : Z) (s : State) : State := mkState (m_trace s) i (clk s) (vpn_access_count s).
Definition next_clk (s : State) : State :=
  mkState (m_trace s) (m_curr_trace_idx s) (u64 (clk s + 1)) (vpn_access_count s).

(** After a request was sent: the clock stands still if the next record has the
    current cycle. *)
Definition after_send (s : State) : State :=
  let s := set_idx (u64 (m_curr_trace_idx s + 1)) s in
  match vget (m_trace s) (m_curr_trace_idx s) with
  | Ok t => if t_clk t =? clk s then s else next_clk s
  | Err _ => next_clk s
  end.

Definition tick `{T : ITranslation} `{M : IMemory} (s : State) (tr : tr_state) (m : mem_state)
    : res (State * tr_state * mem_state) :=
  t ← vget (m_trace s) (m_curr_trace_idx s);
  if t_clk t <? clk s then Ok (next_clk s, tr, m)
  else
    let req := request t in
    let s := mkState (m_trace s) (m_curr_trace_idx s) (clk s)
               (count_access (Request.addr req) (vpn_access_count s)) in
    '(translated, req, tr) ← tr_translate req tr;
    if negb translated then Ok (set_idx (u64 (m_curr_trace_idx s + 1)) s, tr, m)
    else
      '(sent, _, m) ← mem_send req m;
      Ok (if sent : bool then after_send s else s, tr, m).

Definition is_finished (s : State) : bool := Z.of_nat (List.length (m_trace s)) <=? m_curr_trace_idx s.
End CustomTrace2.

(** ** [GEM5]: requests come from outside *)
Module GEM5.
Definition receive_external_requests `{M : IMemory} (req_type_id addr source_id : Z) (cb : Callback)
    (m : mem_state) : res (bool * option Request * mem_state) :=
  mem_send (Request_addr_type_source_callback addr req_type_id source_id cb) m.

Definition is_finished : bool := true.
End GEM5.

(** ** Examples *)
Example parse_hex : LoadStoreTrace.parse_line "ST 0x1F40" = Ok (LoadStoreTrace.mkTrace true 8000).
Proof. reflexivity. Qed.
Example parse_vector : ReadWriteTrace.parse_line "R 0,1,2,3" = Ok (ReadWriteTrace.mkTrace false [0; 1; 2; 3]).
Proof. reflexivity. Qed.
Example parse_custom : CustomTrace.parse_line "W 4096 7" = Ok (CustomTrace.mkTrace true 4096 7).
Proof. reflexivity. Qed.
Example parse_custom2 : CustomTrace2.parse_line "12 R 4096 x" = Err (Exc "Invalid source ID").
Proof. reflexivity. Qed.
