(* ===== verification/SniperQueue.v ===== *)
(** * The queue models of Sniper

    Models [snipersim/common/performance_model/queue_model*.cc] and what they use:
    [contention_model.cc], [misc/moving_average.h], [misc/modulo_num.cc] and the
    arithmetic of [misc/subsecond_time.h].  A queue model tells a request that
    arrives at [pkt_time] and needs [processing_time] how long it waits.  Times are
    counts of femtoseconds in 64 bits, which wrap around. *)
From Stdlib Require Import String.
From S2P Require Import Prelude CxxFloat.
Local Open Scope string_scope.
Local Open Scope Z_scope.

(** ** [SubsecondTime] *)
Definition tadd (x y : Z) : Z := u64 (x + y).
Definition tsub (x y : Z) : Z := u64 (x - y).
Definition tmul (x n : Z) : Z := u64 (x * n).
Definition tdiv (x n : Z) : res Z := if n =? 0 then Err Undef else Ok (x / n).
Definition PS_1 : Z := 1000.
Definition NS_1 : Z := 1000 * 1000.
Definition US_1 : Z := NS_1 * 1000.
Definition getPS (t : Z) : Z := t / PS_1.
Definition getNS (t : Z) : Z := t / NS_1.
Definition MaxTime : Z := 2 ^ 64 - 1.

(** [LOG_ASSERT_ERROR] and [LOG_PRINT_ERROR] end the simulator. *)
Definition log_assert (b : bool) : res unit := if b then Ok tt else Err (Exit (-1)).

(** ** [ModuloNum]: numbers modulo [m_max_value] *)
Module ModuloNum.
Record t : Type := mk { m_value : Z; m_max_value : Z }.
Definition new (max : Z) : t := mk 0 max.

Definition add (a : t) (v : Z) : res t :=
  if m_max_value a =? 0 then Err Undef
  else Ok (mk (u32 (m_value a + v mod m_max_value a) mod m_max_value a) (m_max_value a)).

Definition sub (a b : t) : Z :=
  if m_value b <=? m_value a then m_value a - m_value b
  else u32 (m_max_value a - m_value b + m_value a).

Definition eqb (a b : t) : bool := (m_value a =? m_value b) && (m_max_value a =? m_max_value b).
End ModuloNum.

(** ** [MovingAverage]: the last [m_max_window_size] numbers, in a ring *)
Inductive AvgType_t : Type := ARITHMETIC_MEAN | GEOMETRIC_MEAN | MEDIAN.

Definition parseAvgType (s : string) : res AvgType_t :=
  if String.eqb s "arithmetic_mean" then Ok ARITHMETIC_MEAN
  else if String.eqb s "geometric_mean" then Ok GEOMETRIC_MEAN
  else if String.eqb s "median" then Ok MEDIAN
  else Err (Exit (-1)).

(** The library function of the geometric mean. *)
Class Pow : Type := { pow : spec_float -> spec_float -> spec_float }.

Module MovingAverage.
Record t : Type := mk {
  avg_type : AvgType_t;
  m_num_list : list Z;
  m_max_window_size : Z;
  m_curr_window_front : ModuloNum.t;
  m_curr_window_back : ModuloNum.t;
  sum : Z;
}.

Definition createAvgType (ty : AvgType_t) (max : Z) : t :=
  let size := u32 (max + 1) in
  mk ty (replicate (Z.to_nat size) 0) max (ModuloNum.new size) (ModuloNum.new size) 0.

Definition window_size (a : t) : Z := ModuloNum.sub (m_curr_window_back a) (m_curr_window_front a).

Definition addToWindow (x : Z) (a : t) : res t :=
  l ← vset (m_num_list a) (ModuloNum.m_value (m_curr_window_back a)) x;
  back ← ModuloNum.add (m_curr_window_back a) 1;
  front ← (if ModuloNum.eqb back (m_curr_window_front a) then ModuloNum.add (m_curr_window_front a) 1
           else Ok (m_curr_window_front a));
  Ok (mk (avg_type a) l (m_max_window_size a) front back (sum a)).

Definition set_sum (v : Z) (a : t) : t :=
  mk (avg_type a) (m_num_list a) (m_max_window_size a) (m_curr_window_front a) (m_curr_window_back a) v.

Definition update (x : Z) (a : t) : res t :=
  match avg_type a with
  | ARITHMETIC_MEAN =>
      a ← (if window_size a =? m_max_window_size a then
             old ← vget (m_num_list a) (ModuloNum.m_value (m_curr_window_front a));
             Ok (set_sum (tsub (sum a) old) a)
           else Ok a);
      addToWindow x (set_sum (tadd (sum a) x) a)
  | _ => addToWindow x a
  end.

(** The product of the numbers from [curr] on; the loop ends at the back of the
    window, after at most as many steps as the ring has places. *)
Fixpoint product (fuel : nat) (a : t) (curr : ModuloNum.t) (acc : Z) : res Z :=
  if ModuloNum.eqb curr (m_curr_window_back a) then Ok acc
  else match fuel with
       | O => Err OutOfFuel
       | S fuel =>
           x ← vget (m_num_list a) (ModuloNum.m_value curr);
           next ← ModuloNum.add curr 1;
           product fuel a next (tmul acc x)
       end.

Definition compute `{!Pow} (a : t) : res Z :=
  match avg_type a with
  | ARITHMETIC_MEAN => tdiv (sum a) (window_size a)
  | GEOMETRIC_MEAN =>
      p ← product (List.length (m_num_list a)) a (m_curr_window_front a) 1;
      fto_u64 (pow (F64.of_Z p) (F64.div (F64.of_Z 1) (F64.of_Z (window_size a))))
  | MEDIAN =>
      i ← ModuloNum.add (m_curr_window_front a) (window_size a / 2);
      vget (m_num_list a) (ModuloNum.m_value i)
  end.
End MovingAverage.

(** ** [QueueModelBasic] *)
Module Basic.
Record State : Type := mkState {
  m_queue_time : Z;
  m_moving_average : option MovingAverage.t;
}.

Definition new (enabled : bool) (window : Z) (ty : string) : res State :=
  if enabled then
    t ← parseAvgType ty; Ok (mkState 0 (Some (MovingAverage.createAvgType t window)))
  else Ok (mkState 0 None).

Definition computeQueueDelay `{!Pow} (pkt_time processing_time : Z) (s : State) : res (Z * State) :=
  '(ref_time, avg) ← (match m_moving_average s with
                      | Some a => a ← MovingAverage.update pkt_time a;
                                  t ← MovingAverage.compute a; Ok (t, Some a)
                      | None => Ok (pkt_time, None)
                      end);
  let queue_delay := if ref_time <? m_queue_time s then tsub (m_queue_time s) ref_time else 0 in
  Ok (queue_delay, mkState (tadd (Z.max (m_queue_time s) ref_time) processing_time) avg).
End Basic.

(** ** [QueueModelHistoryList]: a list of the free time intervals *)
Module History.
Record State : Type := mkState {
  m_min_processing_time : Z;
  m_max_free_interval_list_size : Z;
  m_free_interval_list : list (Z * Z);
  m_utilized_time : Z;
  m_total_queue_delay : Z;
  m_average_delay : MovingAverage.t;
  m_analytical_model_enabled : bool;
  m_total_requests : Z;
  m_total_requests_using_analytical_model : Z;
}.

Definition max_simulation_time : Z := 2 ^ 63.

Definition new (analytical : bool) (max_list_size min_processing_time : Z) : State :=
  mkState min_processing_time max_list_size [(0, max_simulation_time)] 0 0
    (MovingAverage.createAvgType ARITHMETIC_MEAN max_list_size) analytical 0 0.

Definition set_list (l : list (Z * Z)) (s : State) : State :=
  mkState (m_min_processing_time s) (m_max_free_interval_list_size s) l (m_utilized_time s)
    (m_total_queue_delay s) (m_average_delay s) (m_analytical_model_enabled s) (m_total_requests s)
    (m_total_requests_using_analytical_model s).
Definition set_average (a : MovingAverage.t) (s : State) : State :=
  mkState (m_min_processing_time s) (m_max_free_interval_list_size s) (m_free_interval_list s)
    (m_utilized_time s) (m_total_queue_delay s) a (m_analytical_model_enabled s) (m_total_requests s)
    (m_total_requests_using_analytical_model s).
Definition count_analytical (s : State) : State :=
  mkState (m_min_processing_time s) (m_max_free_interval_list_size s) (m_free_interval_list s)
    (m_utilized_time s) (m_total_queue_delay s) (m_average_delay s) (m_analytical_model_enabled s)
    (m_total_requests s) (u64 (m_total_requests_using_analytical_model s + 1)).
Definition count_request (delay : Z) (s : State) : State :=
  mkState (m_min_processing_time s) (m_max_free_interval_list_size s) (m_free_interval_list s)
    (m_utilized_time s) (tadd (m_total_queue_delay s) delay) (m_average_delay s)
    (m_analytical_model_enabled s) (u64 (m_total_requests s + 1))
    (m_total_requests_using_analytical_model s).
Definition updateQueueUtilization (processing_time : Z) (s : State) : State :=
  mkState (m_min_processing_time s) (m_max_free_interval_list_size s) (m_free_interval_list s)
    (tadd (m_utilized_time s) processing_time) (m_total_queue_delay s) (m_average_delay s)
    (m_analytical_model_enabled s) (m_total_requests s) (m_total_requests_using_analytical_model s).

(** What remains of an interval is kept if it is long enough. *)
Definition keep (min a b : Z) : list (Z * Z) := if min <=? tsub b a then [(a, b)] else [].

(** The loop over the free intervals: the delay and the new list. *)
Fixpoint search (min pkt_time processing_time : Z) (l : list (Z * Z)) : option (Z * list (Z * Z)) :=
  match l with
  | [] => None
  | (first, second) :: rest =>
      if (first <=? pkt_time) && (tadd pkt_time processing_time <=? second) then
        Some (0, keep min first pkt_time ++ keep min (tadd pkt_time processing_time) second ++ rest)%list
      else if pkt_time <? first then
        Some (tsub first pkt_time, keep min (tadd first processing_time) second ++ rest)%list
      else
        match search min pkt_time processing_time rest with
        | Some (delay, rest') => Some (delay, (first, second) :: rest')
        | None => None
        end
  end.

Definition computeUsingHistoryList (pkt_time processing_time : Z) (s : State) : res (Z * State) :=
  let max := m_max_free_interval_list_size s in
  _ ← log_assert (Z.of_nat (List.length (m_free_interval_list s)) <=? max);
  let '(queue_delay, l) :=
    match search (m_min_processing_time s) pkt_time processing_time (m_free_interval_list s) with
    | Some (d, l) => (d, l)
    | None => (MaxTime, m_free_interval_list s)
    end in
  _ ← log_assert (negb (queue_delay =? MaxTime));
  let l := if max <? Z.of_nat (List.length l) then tail l else l in
  Ok (queue_delay, set_list l s).

Definition updateAverageDelay (queue_delay : Z) (s : State) : res State :=
  a ← MovingAverage.update queue_delay (m_average_delay s); Ok (set_average a s).

Definition computeUsingAnalyticalModel `{!Pow} (s : State) : res Z := MovingAverage.compute (m_average_delay s).

(** Whether the packet is older than everything in the list. *)
Definition is_old (pkt_time processing_time : Z) (s : State) (oldest : Z * Z) : bool :=
  m_analytical_model_enabled s && (tadd pkt_time processing_time <=? oldest.1).

Definition computeQueueDelay `{!Pow} (pkt_time processing_time : Z) (s : State) : res (Z * State) :=
  match m_free_interval_list s with
  | [] => Err (Exit (-1))
  | oldest_interval :: _ =>
      '(queue_delay, s) ←
        (if is_old pkt_time processing_time s oldest_interval then
           d ← computeUsingAnalyticalModel (count_analytical s); Ok (d, count_analytical s)
         else
           '(d, s) ← computeUsingHistoryList pkt_time processing_time s;
           s ← updateAverageDelay d s; Ok (d, s));
      let s := updateQueueUtilization processing_time s in
      Ok (queue_delay, count_request queue_delay s)
  end.

(** [getQueueUtilization], in [float]. *)
Definition getQueueUtilization (s : State) : res spec_float :=
  match list.last (m_free_interval_list s) with
  | None => Err Undef
  | Some (total_time, _) =>
      if total_time =? 0 then _ ← log_assert (m_utilized_time s =? 0); Ok (F32.of_Z 0)
      else Ok (F32.div (F32.of_Z (m_utilized_time s)) (F32.of_Z total_time))
  end.

Definition getFracRequestsUsingAnalyticalModel (s : State) : spec_float :=
  if m_total_requests s =? 0 then F32.of_Z 0
  else F32.div (F32.of_Z (m_total_requests_using_analytical_model s)) (F32.of_Z (m_total_requests s)).
End History.

(** ** [ContentionModel]: a number of units that serve one request each *)
Module Contention.
Record State : Type := mkState {
  m_num_outstanding : Z;
  m_time : list (Z * Z);                    (* when the unit is free again, and its tag *)
  m_t_last : Z;
  m_proc_period : Z;
  m_n_requests : Z;
  m_n_barriers : Z;
  m_n_outoforder : Z;
  m_n_simultaneous : Z;
  m_n_hasfreefail : Z;
  m_total_delay : Z;
  m_total_barrier_delay : Z;
}.

Definition new (num_outstanding period : Z) : State :=
  mkState num_outstanding (replicate (Z.to_nat num_outstanding) (0, 0)) 0 period 0 0 0 0 0 0 0.

Definition count_request (s : State) : State :=
  mkState (m_num_outstanding s) (m_time s) (m_t_last s) (m_proc_period s) (u64 (m_n_requests s + 1))
    (m_n_barriers s) (m_n_outoforder s) (m_n_simultaneous s) (m_n_hasfreefail s) (m_total_delay s)
    (m_total_barrier_delay s).
Definition count_outoforder (s : State) : State :=
  mkState (m_num_outstanding s) (m_time s) (m_t_last s) (m_proc_period s) (m_n_requests s)
    (m_n_barriers s) (u64 (m_n_outoforder s + 1)) (m_n_simultaneous s) (m_n_hasfreefail s)
    (m_total_delay s) (m_total_barrier_delay s).
Definition count_simultaneous (s : State) : State :=
  mkState (m_num_outstanding s) (m_time s) (m_t_last s) (m_proc_period s) (m_n_requests s)
    (m_n_barriers s) (m_n_outoforder s) (u64 (m_n_simultaneous s + 1)) (m_n_hasfreefail s)
    (m_total_delay s) (m_total_barrier_delay s).
Definition count_hasfreefail (s : State) : State :=
  mkState (m_num_outstanding s) (m_time s) (m_t_last s) (m_proc_period s) (m_n_requests s)
    (m_n_barriers s) (m_n_outoforder s) (m_n_simultaneous s) (u64 (m_n_hasfreefail s + 1))
    (m_total_delay s) (m_total_barrier_delay s).
Definition occupy (times : list (Z * Z)) (waited now : Z) (s : State) : State :=
  mkState (m_num_outstanding s) times now (m_proc_period s) (m_n_requests s) (m_n_barriers s)
    (m_n_outoforder s) (m_n_simultaneous s) (m_n_hasfreefail s) (tadd (m_total_delay s) waited)
    (m_total_barrier_delay s).
Definition pass_barrier (times : list (Z * Z)) (waited : Z) (s : State) : State :=
  mkState (m_num_outstanding s) times (m_t_last s) (m_proc_period s) (m_n_requests s)
    (u64 (m_n_barriers s + 1)) (m_n_outoforder s) (m_n_simultaneous s) (m_n_hasfreefail s)
    (m_total_delay s) (tadd (m_total_barrier_delay s) waited).

Definition getNumUsed (t_start : Z) (s : State) : Z :=
  Z.of_nat (List.length (List.filter (fun u => t_start <? u.1) (m_time s))).

Definition getTagCompletionTime (tag : Z) (s : State) : Z :=
  match List.find (fun u => u.2 =? tag) (m_time s) with Some u => u.1 | None => MaxTime end.

Definition hasFreeSlot (t_start tag : Z) (s : State) : bool * State :=
  if existsb (fun u => (u.1 <=? t_start) || (u.2 =? tag)) (m_time s) then (true, s)
  else (false, count_hasfreefail s).

Definition hasTag (tag : Z) (s : State) : bool := existsb (fun u => u.2 =? tag) (m_time s).

Definition getBarrierCompletionTime (t_start t_delay tag : Z) (s : State) : Z * State :=
  if m_num_outstanding s =? 0 then (tadd t_start t_delay, s)
  else
    let max_time := fold_left (fun m u => if m <? u.1 then u.1 else m) (m_time s) t_start in
    let t_end := tadd max_time t_delay in
    (t_end, pass_barrier (map (fun _ => (t_end, tag)) (m_time s)) (tsub max_time t_start) s).

(** The first unit that is free at [t_start], or the unit that is free first. *)
Fixpoint find_unit (t_start : Z) (l : list (Z * Z)) (i unit : nat) (free : Z) : nat * Z :=
  match l with
  | [] => (unit, free)
  | u :: l =>
      if u.1 <=? t_start then (i, u.1)
      else if u.1 <? free then find_unit t_start l (S i) i u.1
      else find_unit t_start l (S i) unit free
  end.

(** The search starts with unit 0; there is at least one unit here. *)
Definition first_unit (t_start : Z) (times : list (Z * Z)) : nat * Z :=
  match times with
  | [] => (0%nat, 0)
  | u :: _ => find_unit t_start times 0 0 u.1
  end.

Definition getCompletionTime (t_start t_delay tag : Z) (s : State) : Z * State :=
  if m_num_outstanding s =? 0 then (tadd t_start t_delay, s)
  else if t_start =? 0 then (t_delay, count_request s)
  else if t_start <? m_t_last s then (tadd t_start t_delay, count_request (count_outoforder s))
  else
    let s := if t_start =? m_t_last s then count_simultaneous s else s in
    let '(unit, free) := first_unit t_start (m_time s) in
    let t_begin := if t_start <? free then free else t_start in
    let t_end := tadd t_begin t_delay in
    (t_end, count_request (occupy (<[unit := (t_end, tag)]> (m_time s)) (tsub t_begin t_start) t_start s)).

Definition getStartTime (t_start : Z) (s : State) : Z :=
  if m_num_outstanding s =? 0 then t_start
  else if t_start <? m_t_last s then t_start
  else let '(_, free) := first_unit t_start (m_time s) in
       if t_start <? free then free else t_start.

(** The variants that count cycles of the core ([SubsecondTimeCycleConverter]). *)
Definition cyclesToSubsecondTime (cycles : Z) (s : State) : Z := tmul (m_proc_period s) cycles.
Definition subsecondTimeToCycles (t : Z) (s : State) : res Z := tdiv t (m_proc_period s).
Definition getNumUsed_cycles (t_start : Z) (s : State) : Z := getNumUsed (cyclesToSubsecondTime t_start s) s.
Definition hasFreeSlot_cycles (t_start tag : Z) (s : State) : bool * State :=
  hasFreeSlot (cyclesToSubsecondTime t_start s) tag s.
Definition getBarrierCompletionTime_cycles (t_start t_delay tag : Z) (s : State) : res (Z * State) :=
  let '(t, s) := getBarrierCompletionTime (cyclesToSubsecondTime t_start s) (cyclesToSubsecondTime t_delay s) tag s in
  c ← subsecondTimeToCycles t s; Ok (c, s).
Definition getCompletionTime_cycles (t_start t_delay tag : Z) (s : State) : res (Z * State) :=
  let '(t, s) := getCompletionTime (cyclesToSubsecondTime t_start s) (cyclesToSubsecondTime t_delay s) tag s in
  c ← subsecondTimeToCycles t s; Ok (c, s).
Definition getStartTime_cycles (t_start : Z) (s : State) : res Z :=
  subsecondTimeToCycles (getStartTime (cyclesToSubsecondTime t_start s) s) s.

(** [QueueModelContention]; the tag is its default, 0. *)
Definition computeQueueDelay (pkt_time processing_time : Z) (s : State) : Z * State :=
  let '(t_complete, s) := getCompletionTime pkt_time processing_time 0 s in
  (tsub (tsub t_complete pkt_time) processing_time, s).
End Contention.

(** ** [QueueModelWindowedMG1]: an M/G/1 queue over a sliding window *)
Module WindowedMG1.
Record State : Type := mkState {
  m_window_size : Z;
  m_total_requests : Z;
  m_total_utilized_time : Z;
  m_total_queue_delay : Z;
  m_window : list (Z * Z);                  (* a multimap: sorted by time *)
  m_num_arrivals : Z;
  m_service_time_sum : Z;
  m_service_time_sum2 : Z;
}.

Definition new (window_ns : Z) : State := mkState (tmul NS_1 window_ns) 0 0 0 [] 0 0 0.

Fixpoint insert_item (t service : Z) (l : list (Z * Z)) : list (Z * Z) :=
  match l with
  | [] => [(t, service)]
  | x :: l => if t <? x.1 then (t, service) :: x :: l else x :: insert_item t service l
  end.

Definition addItem (pkt_time service_time : Z) (s : State) : State :=
  let ps := getPS service_time in
  mkState (m_window_size s) (m_total_requests s) (m_total_utilized_time s) (m_total_queue_delay s)
    (insert_item pkt_time service_time (m_window s)) (u64 (m_num_arrivals s + 1))
    (u64 (m_service_time_sum s + ps)) (u64 (m_service_time_sum2 s + u64 (ps * ps))).

(** The items from the front of the map on that are older than [earliest]. *)
Fixpoint remove_loop (earliest : Z) (l : list (Z * Z)) (n sum sum2 : Z) : list (Z * Z) * Z * Z * Z :=
  match l with
  | [] => ([], n, sum, sum2)
  | x :: rest =>
      if x.1 <? earliest then
        let ps := getPS x.2 in
        remove_loop earliest rest (u64 (n - 1)) (u64 (sum - ps)) (u64 (sum2 - u64 (ps * ps)))
      else (l, n, sum, sum2)
  end.

Definition removeItems (earliest : Z) (s : State) : State :=
  let '(l, n, sum, sum2) :=
    remove_loop earliest (m_window s) (m_num_arrivals s) (m_service_time_sum s) (m_service_time_sum2 s) in
  mkState (m_window_size s) (m_total_requests s) (m_total_utilized_time s) (m_total_queue_delay s) l n sum sum2.

(** The waiting time of an M/G/1 queue, in [double]; the divisor is the window in
    picoseconds. *)
Definition mg1_delay (s : State) : res Z :=
  let w := F64.of_Z (getPS (m_window_size s)) in
  let utilization := F64.div (F64.of_Z (m_service_time_sum s)) w in
  let arrival_rate := F64.div (F64.of_Z (m_num_arrivals s)) w in
  let service_time_Es2 := F64.of_Z (m_service_time_sum2 s / m_num_arrivals s) in
  let limit := F64.div (F64.of_Z 99) (F64.of_Z 100) in
  let utilization := if fgt utilization limit then limit else utilization in
  ps ← fto_u64 (F64.div (F64.mul arrival_rate service_time_Es2)
                  (F64.mul (F64.of_Z 2) (F64.sub (F64.of_Z 1) utilization)));
  let t_queue := tmul ps PS_1 in
  Ok (if m_window_size s <? t_queue then m_window_size s else t_queue).

(** How far back the window reaches: [global_time] is the time of the barrier. *)
Definition earliest_time (global_time pkt_time : Z) (s : State) : Z :=
  Z.max (tsub global_time (m_window_size s)) (tsub pkt_time (tmul (m_window_size s) 10)).

Definition count_request (processing_time t_queue : Z) (s : State) : State :=
  mkState (m_window_size s) (u64 (m_total_requests s + 1)) (tadd (m_total_utilized_time s) processing_time)
    (tadd (m_total_queue_delay s) t_queue) (m_window s) (m_num_arrivals s) (m_service_time_sum s)
    (m_service_time_sum2 s).

Definition computeQueueDelay (global_time pkt_time processing_time : Z) (s : State) : res (Z * State) :=
  let s := removeItems (earliest_time global_time pkt_time s) s in
  t_queue ← (if 1 <? m_num_arrivals s then mg1_delay s else Ok 0);
  Ok (t_queue, count_request processing_time t_queue (addItem pkt_time processing_time s)).
End WindowedMG1.

(** ** [QueueModel::create] and the virtual method *)
Record QueueConfig : Type := mkQueueConfig {
  basic_moving_avg_enabled : bool;
  basic_moving_avg_window_size : Z;
  basic_moving_avg_type : string;
  history_analytical_model_enabled : bool;
  history_max_list_size : Z;
  mg1_window_size : Z;
  core_period : Z;
}.

Inductive QueueModel : Type :=
| QBasic (s : Basic.State)
| QHistory (s : History.State)
| QContention (s : Contention.State)
| QWindowedMG1 (s : WindowedMG1.State).

Definition create (c : QueueConfig) (model_type : string) (min_processing_time : Z) : res QueueModel :=
  if String.eqb model_type "basic" then
    s ← Basic.new (basic_moving_avg_enabled c) (basic_moving_avg_window_size c) (basic_moving_avg_type c);
    Ok (QBasic s)
  else if String.eqb model_type "history_list" then
    Ok (QHistory (History.new (history_analytical_model_enabled c) (history_max_list_size c) min_processing_time))
  else if String.eqb model_type "contention" then Ok (QContention (Contention.new 1 (core_period c)))
  else if String.eqb model_type "windowed_mg1" then Ok (QWindowedMG1 (WindowedMG1.new (mg1_window_size c)))
  else Err (Exit (-1)).

Definition computeQueueDelay `{!Pow} (global_time pkt_time processing_time : Z) (q : QueueModel)
    : res (Z * QueueModel) :=
  match q with
  | QBasic s => '(d, s) ← Basic.computeQueueDelay pkt_time processing_time s; Ok (d, QBasic s)
  | QHistory s => '(d, s) ← History.computeQueueDelay pkt_time processing_time s; Ok (d, QHistory s)
  | QContention s => let '(d, s) := Contention.computeQueueDelay pkt_time processing_time s in Ok (d, QContention s)
  | QWindowedMG1 s =>
      '(d, s) ← WindowedMG1.computeQueueDelay global_time pkt_time processing_time s; Ok (d, QWindowedMG1 s)
  end.
