(* ===== verification/SniperQueueFacts.v ===== *)
(** * Guarantees of the queue models of Sniper

    The history list gives every request that it still has a record for the
    earliest free slot, and no two of them overlapping slots; the moving average
    it falls back to is the mean of the last delays.  The contention model keeps
    one request per unit.  The windowed M/G/1 model reports no delay before ten
    windows have passed, because the times are unsigned. *)
From Stdlib Require Import String.
From S2P Require Import Prelude CxxFloat SniperQueue.
Local Open Scope Z_scope.

Lemma tadd_small x y : 0 <= x + y < 2 ^ 64 -> tadd x y = x + y.
Proof. apply u64_small. Qed.

Lemma tsub_small x y : 0 <= x - y < 2 ^ 64 -> tsub x y = x - y.
Proof. apply u64_small. Qed.

(** ** The moving average *)
Definition total (l : list Z) : Z := foldr Z.add 0 l.

Lemma total_app l k : total (l ++ k) = total l + total k.
Proof.
  induction l as [|x l IH]; [done|]. change (x + total (l ++ k) = x + total l + total k). lia.
Qed.

Lemma u64_add_l x y : u64 (u64 x + y) = u64 (x + y).
Proof. unfold u64. by rewrite Zplus_mod_idemp_l. Qed.

Lemma u64_sub_l x y : u64 (u64 x - y) = u64 (x - y).
Proof. unfold u64. by rewrite Zminus_mod_idemp_l. Qed.

Section Mean.
Import MovingAverage.

(** The ring holds exactly the window [w], oldest first, and [sum] is its sum. *)
Record mean_ok (w : list Z) (a : t) : Prop := {
  mo_type : avg_type a = ARITHMETIC_MEAN;
  mo_max : 1 <= m_max_window_size a < 2 ^ 32 - 1;
  mo_len : Z.of_nat (length (m_num_list a)) = m_max_window_size a + 1;
  mo_front_max : ModuloNum.m_max_value (m_curr_window_front a) = m_max_window_size a + 1;
  mo_back_max : ModuloNum.m_max_value (m_curr_window_back a) = m_max_window_size a + 1;
  mo_front : 0 <= ModuloNum.m_value (m_curr_window_front a) <= m_max_window_size a;
  mo_back : ModuloNum.m_value (m_curr_window_back a) =
    (ModuloNum.m_value (m_curr_window_front a) + Z.of_nat (length w)) mod (m_max_window_size a + 1);
  mo_win : Z.of_nat (length w) <= m_max_window_size a;
  mo_ring : forall i x, w !! i = Some x ->
    m_num_list a !! Z.to_nat ((ModuloNum.m_value (m_curr_window_front a) + Z.of_nat i)
      mod (m_max_window_size a + 1)) = Some x;
  mo_sum : sum a = u64 (total w);
}.

Lemma mean_new max : 1 <= max < 2 ^ 32 - 1 -> mean_ok [] (createAvgType ARITHMETIC_MEAN max).
Proof.
  intros H. assert (u32 (max + 1) = max + 1) as E by (apply Z.mod_small; lia).
  split; cbn; rewrite ?E; try done; try lia.
  rewrite length_replicate. lia.
Qed.

Lemma wrap_add M v k : 0 <= v <= M -> 0 <= k <= M + 1 ->
  (v + k) mod (M + 1) = if v + k <=? M then v + k else v + k - (M + 1).
Proof.
  intros. destruct (Z.leb_spec (v + k) M); [by rewrite Z.mod_small by lia|].
  replace (v + k) with (v + k - (M + 1) + 1 * (M + 1)) at 1 by lia.
  destruct (decide (v + k - (M + 1) = M + 1)); [lia|].
  rewrite Z.mod_add by lia. rewrite Z.mod_small; lia.
Qed.

Lemma mean_window_size w a : mean_ok w a -> window_size a = Z.of_nat (length w).
Proof.
  intros []. unfold window_size, ModuloNum.sub. rewrite mo_back0, mo_back_max0, wrap_add by lia.
  destruct (Z.leb_spec (ModuloNum.m_value (m_curr_window_front a) + Z.of_nat (length w)) (m_max_window_size a));
    destruct (Z.leb_spec (ModuloNum.m_value (m_curr_window_front a))
      (ModuloNum.m_value (m_curr_window_front a) + Z.of_nat (length w))); try lia.
  - destruct (Z.leb_spec (ModuloNum.m_value (m_curr_window_front a))
      (ModuloNum.m_value (m_curr_window_front a) + Z.of_nat (length w) - (m_max_window_size a + 1))); [lia|].
    unfold u32. rewrite Z.mod_small; lia.
Qed.

Lemma modulo_succ n M : ModuloNum.m_max_value n = M + 1 -> 0 <= ModuloNum.m_value n <= M -> 1 <= M < 2 ^ 32 - 1 ->
  ModuloNum.add n 1 = Ok (ModuloNum.mk ((ModuloNum.m_value n + 1) mod (M + 1)) (M + 1)).
Proof.
  intros E Hv HM. unfold ModuloNum.add. rewrite E. rewrite (proj2 (Z.eqb_neq _ _)) by lia.
  rewrite (Z.mod_small 1) by lia. unfold u32. by rewrite (Z.mod_small (_ + 1) (2 ^ 32)) by lia.
Qed.

Definition push_window (M : Z) (w : list Z) (x : Z) : list Z :=
  (if Z.of_nat (length w) =? M then tail w else w) ++ [x].

Lemma ring_apart M v i j : 0 <= v <= M -> 0 <= i <= M -> 0 <= j <= M -> i <> j ->
  Z.to_nat ((v + i) mod (M + 1)) <> Z.to_nat ((v + j) mod (M + 1)).
Proof.
  intros. rewrite !wrap_add by lia.
  destruct (Z.leb_spec (v + i) M), (Z.leb_spec (v + j) M); lia.
Qed.

(** The place the new number is written to, and what the others hold. *)
Lemma ring_write w a x : mean_ok w a ->
  exists l, vset (m_num_list a) (ModuloNum.m_value (m_curr_window_back a)) x = Ok l /\
    length l = length (m_num_list a) /\
    forall i y, (w ++ [x]) !! i = Some y ->
      l !! Z.to_nat ((ModuloNum.m_value (m_curr_window_front a) + Z.of_nat i)
        mod (m_max_window_size a + 1)) = Some y.
Proof.
  intros []. set (v := ModuloNum.m_value (m_curr_window_front a)) in *. set (M := m_max_window_size a) in *.
  pose proof (Z.mod_pos_bound (v + Z.of_nat (length w)) (M + 1) ltac:(lia)) as Hb.
  eexists. split; [apply vset_Ok; split; [rewrite mo_back0; lia|reflexivity]|]. rewrite length_insert.
  split; [done|]. intros i y [Hy|[Hl Hy]]%lookup_app_Some; rewrite mo_back0.
  - apply lookup_lt_Some in Hy as Hlt. rewrite list_lookup_insert_ne; [by apply mo_ring0|].
    apply ring_apart; lia.
  - apply list_lookup_singleton_Some in Hy as [Hi <-]. replace i with (length w) by lia.
    apply list_lookup_insert_eq. lia.
Qed.

(** [update] drops the oldest number of a full window and appends the new one. *)
Lemma mean_update w a x : mean_ok w a ->
  exists a', update x a = Ok a' /\ mean_ok (push_window (m_max_window_size a) w x) a' /\
    m_max_window_size a' = m_max_window_size a.
Proof.
  intros Ha. pose proof (mean_window_size _ _ Ha) as Hsz. destruct (ring_write w a x Ha) as (l & Hl & Hlen & Hring).
  destruct Ha as [Hty HM Hnum Hfm Hbm Hf Hb Hw Hr Hs].
  set (v := ModuloNum.m_value (m_curr_window_front a)) in *. set (M := m_max_window_size a) in *.
  pose proof (Z.mod_pos_bound (v + Z.of_nat (length w)) (M + 1) ltac:(lia)) as Hbb.
  pose proof (modulo_succ (m_curr_window_back a) M Hbm ltac:(lia) HM) as Hback.
  pose proof (modulo_succ (m_curr_window_front a) M Hfm Hf HM) as Hfront.
  unfold update. rewrite Hty, Hsz. unfold push_window.
  assert (((v + Z.of_nat (length w)) mod (M + 1) + 1) mod (M + 1) = (v + (Z.of_nat (length w) + 1)) mod (M + 1)) as Hb1.
  { rewrite Zplus_mod_idemp_l. f_equal. lia. }
  fold M. destruct (Z.eqb_spec (Z.of_nat (length w)) M) as [Efull|Enot].
  - destruct w as [|y w]; [cbn in *; lia|]. cbn [length tail] in *.
    specialize (Hr 0%nat y eq_refl) as Hy. rewrite Z.add_0_r, Z.mod_small in Hy by lia.
    rewrite (proj2 (vget_Ok _ _ y)) by (split; [lia|exact Hy]). cbn [mbind res_bind]. unfold addToWindow. cbn.
    rewrite Hl. cbn [mbind res_bind]. rewrite Hback. cbn [mbind res_bind].
    rewrite Hb, Hb1. unfold ModuloNum.eqb. cbn [ModuloNum.m_value ModuloNum.m_max_value]. fold v.
    replace ((v + (Z.of_nat (S (length w)) + 1)) mod (M + 1)) with v
      by (rewrite wrap_add by lia; destruct (Z.leb_spec (v + (Z.of_nat (S (length w)) + 1)) M); lia).
    rewrite Z.eqb_refl, Hfm, Z.eqb_refl. cbn [andb]. rewrite Hfront. cbn [mbind res_bind].
    eexists. split; [reflexivity|]. split; [|done]. fold v.
    split; cbn; rewrite ?length_app; cbn; try done; fold M; try lia.
    + pose proof (Z.mod_pos_bound (v + 1) (M + 1)). lia.
    + rewrite Zplus_mod_idemp_l. replace (v + 1 + Z.of_nat (length w + 1)) with (v + (M + 1)) by lia.
      rewrite wrap_add by lia. destruct (Z.leb_spec (v + (M + 1)) M); lia.
    + intros i z Hz. rewrite Zplus_mod_idemp_l. specialize (Hring (S i) z). cbn in Hring.
      rewrite <- (Hring Hz). do 3 f_equal. lia.
    + unfold tsub, tadd. rewrite Hs, u64_sub_l, u64_add_l, total_app. cbn. f_equal. unfold total. lia.
  - cbn [mbind res_bind]. unfold addToWindow. cbn. rewrite Hl. cbn [mbind res_bind]. rewrite Hback. cbn [mbind res_bind].
    rewrite Hb, Hb1. unfold ModuloNum.eqb. cbn [ModuloNum.m_value ModuloNum.m_max_value]. fold v.
    rewrite (proj2 (Z.eqb_neq _ v)).
    2: { rewrite wrap_add by lia. destruct (Z.leb_spec (v + (Z.of_nat (length w) + 1)) M); lia. }
    cbn [andb mbind res_bind]. eexists. split; [reflexivity|]. split; [|done].
    split; cbn; rewrite ?length_app; cbn; try done; fold M; fold v; try lia.
    unfold tadd. rewrite Hs, u64_add_l, total_app. cbn. by rewrite Z.add_0_r.
Qed.

(** [compute] is the mean of the window, up to the overflow of the sum. *)
Lemma mean_compute `{!Pow} w a : mean_ok w a -> w <> [] ->
  compute a = Ok (u64 (total w) / Z.of_nat (length w)).
Proof.
  intros Ha Hw. pose proof (mean_window_size _ _ Ha) as Hsz. destruct Ha. unfold compute, tdiv.
  rewrite mo_type0, Hsz, mo_sum0. destruct w; [done|]. by rewrite (proj2 (Z.eqb_neq _ _)) by (cbn; lia).
Qed.
End Mean.

(** ** The history list *)
Section History.
Import History.

(** The intervals are in order, disjoint, at least [min] long and end by the
    largest time. *)
Fixpoint free_ok (min lo : Z) (l : list (Z * Z)) : Prop :=
  match l with
  | [] => True
  | (a, b) :: l => lo <= a /\ a + min <= b /\ b <= max_simulation_time /\ free_ok min b l
  end.

Lemma free_ok_weaken min lo lo' l : lo' <= lo -> free_ok min lo l -> free_ok min lo' l.
Proof. destruct l as [|[a b] l]; [done|]. cbn. intuition lia. Qed.

Lemma free_ok_tail min lo l : 0 <= min -> free_ok min lo l -> free_ok min lo (tail l).
Proof. destruct l as [|[a b] l]; [done|]. cbn. intros ? (? & ? & ? & ?). eapply free_ok_weaken; [|done]. lia. Qed.

Lemma free_ok_elem min lo l a b : 0 <= min -> free_ok min lo l -> (a, b) ∈ l ->
  lo <= a /\ a + min <= b /\ b <= max_simulation_time.
Proof.
  intros Hm. revert lo. induction l as [|[a' b'] l IH]; intros lo Hl Hin; [by apply elem_of_nil in Hin|].
  cbn in Hl. destruct Hl as (? & ? & ? & Hl). apply elem_of_cons in Hin as [[= -> ->]|Hin]; [done|].
  destruct (IH _ Hl Hin). lia.
Qed.

Definition free_at (l : list (Z * Z)) (t : Z) : Prop := exists a b, (a, b) ∈ l /\ a <= t < b.
Definition fits (l : list (Z * Z)) (t p : Z) : Prop := exists a b, (a, b) ∈ l /\ a <= t /\ t + p <= b.

Lemma keep_ok min lo a b l : 0 <= min -> lo <= a -> a <= b -> 0 <= a -> b <= max_simulation_time ->
  free_ok min b l -> free_ok min lo (keep min a b ++ l).
Proof.
  intros Hm Hlo Hab Ha Hb Hl. unfold keep, max_simulation_time in *. rewrite tsub_small by lia.
  destruct (Z.leb_spec min (b - a)); [|eapply free_ok_weaken; [|done]; lia].
  cbn. unfold max_simulation_time. repeat split; try lia. done.
Qed.

Lemma keep_elem min a b x y : (x, y) ∈ keep min a b -> x = a /\ y = b.
Proof.
  unfold keep. case_match; [|by intros ?%elem_of_nil]. by intros [= -> ->]%list_elem_of_singleton.
Qed.

(** A request that takes at most [min]: it gets the earliest slot that fits, and the
    free times that remain are free times outside of the slot. *)
Record first_fit (l : list (Z * Z)) (pkt_time p : Z) (d : Z) (l' : list (Z * Z)) : Prop := {
  ff_delay : 0 <= d;
  ff_fits : fits l (pkt_time + d) p;
  ff_earliest : forall t, pkt_time <= t -> fits l t p -> pkt_time + d <= t;
  ff_rest : forall t, free_at l' t -> free_at l t /\ ~ (pkt_time + d <= t < pkt_time + d + p);
  ff_length : (length l' <= S (length l))%nat;
}.

Lemma fits_cons l a b t p : fits ((a, b) :: l) t p <-> (a <= t /\ t + p <= b) \/ fits l t p.
Proof.
  unfold fits. split.
  - intros (x & y & [[= -> ->]|Hin]%elem_of_cons & H); [by left|]. right. eauto.
  - intros [H|(x & y & Hin & H)]; [exists a, b|exists x, y]; (split; [|done]); rewrite elem_of_cons; auto.
Qed.

Lemma free_at_cons l a b t : free_at ((a, b) :: l) t <-> a <= t < b \/ free_at l t.
Proof.
  unfold free_at. split.
  - intros (x & y & [[= -> ->]|Hin]%elem_of_cons & H); [by left|]. right. eauto.
  - intros [H|(x & y & Hin & H)]; [exists a, b|exists x, y]; (split; [|done]); rewrite elem_of_cons; auto.
Qed.

Lemma free_at_app l k t : free_at (l ++ k) t <-> free_at l t \/ free_at k t.
Proof. unfold free_at. setoid_rewrite elem_of_app. naive_solver. Qed.

Lemma free_at_keep min a b t : free_at (keep min a b) t -> a <= t < b.
Proof. intros (x & y & [-> ->]%keep_elem & H). done. Qed.

Lemma fits_after min lo l t p : 0 <= min -> free_ok min lo l -> fits l t p -> lo <= t.
Proof. intros Hm Hl (a & b & Hin & H). destruct (free_ok_elem _ _ _ _ _ Hm Hl Hin). lia. Qed.

Lemma free_after min lo l t : 0 <= min -> free_ok min lo l -> free_at l t -> lo <= t.
Proof. intros Hm Hl (a & b & Hin & H). destruct (free_ok_elem _ _ _ _ _ Hm Hl Hin). lia. Qed.

Lemma length_keep min a b : (length (keep min a b) <= 1)%nat.
Proof. unfold keep. case_match; cbn; lia. Qed.

Section Search.
Context (min pkt_time p : Z).
Hypothesis Hp : 0 < p <= min.
Hypothesis Hpkt : 0 <= pkt_time <= max_simulation_time.
Hypothesis Hmin : min < max_simulation_time.

Lemma search_first_fit l : forall lo d l', 0 <= lo -> free_ok min lo l ->
  search min pkt_time p l = Some (d, l') -> first_fit l pkt_time p d l' /\ free_ok min lo l'.
Proof.
  unfold max_simulation_time in *. assert (tadd pkt_time p = pkt_time + p) as E by (apply tadd_small; lia).
  induction l as [|[a b] l IH]; intros lo d l' Hlo Hl; [done|]. cbn [search]. rewrite E.
  cbn [free_ok] in Hl. destruct Hl as (Ha & Hab & Hb & Hl). unfold max_simulation_time in Hb.
  assert (tadd a p = a + p) as Ea by (apply tadd_small; lia). rewrite Ea.
  destruct ((a <=? pkt_time) && (pkt_time + p <=? b)) eqn:E1; [|destruct (Z.ltb_spec pkt_time a)].
  - apply andb_true_iff in E1 as [?%Z.leb_le ?%Z.leb_le]. intros [= <- <-]. split.
    + split; rewrite ?Z.add_0_r; try lia.
      * rewrite fits_cons. lia.
      * intros t. rewrite !free_at_app, free_at_cons. intros [Ht|[Ht|Ht]].
        -- apply free_at_keep in Ht. lia.
        -- apply free_at_keep in Ht. lia.
        -- pose proof (free_after min b l t ltac:(lia) Hl Ht). split; [by right|lia].
      * rewrite !length_app. pose proof (length_keep min a pkt_time).
        pose proof (length_keep min (pkt_time + p) b). cbn. lia.
    + apply keep_ok; try (unfold max_simulation_time; lia). apply keep_ok; try (unfold max_simulation_time; lia). done.
  - rewrite tsub_small by lia. intros [= <- <-]. replace (pkt_time + (a - pkt_time)) with a by lia. split.
    + split; replace (pkt_time + (a - pkt_time)) with a by lia; try lia.
      * rewrite fits_cons. lia.
      * intros t Ht. rewrite fits_cons. intros [?|Hf]; [lia|].
        pose proof (fits_after min b l t p ltac:(lia) Hl Hf). lia.
      * intros t. rewrite free_at_app, free_at_cons. intros [Ht|Ht].
        -- apply free_at_keep in Ht. lia.
        -- pose proof (free_after min b l t ltac:(lia) Hl Ht). split; [by right|lia].
      * rewrite length_app. pose proof (length_keep min (a + p) b). cbn. lia.
    + apply keep_ok; try (unfold max_simulation_time; lia). done.
  - destruct (search min pkt_time p l) as [[d' r]|]; [|done]. intros [= <- <-].
    destruct (IH b d' r ltac:(lia) Hl eq_refl) as [[] Hr].
    assert (b < pkt_time + p).
    { apply andb_false_iff in E1 as [?%Z.leb_gt|?%Z.leb_gt]; lia. }
    split; [split|]; try done.
    + rewrite fits_cons. by right.
    + intros t Ht. rewrite fits_cons. intros [?|?]; [lia|by apply ff_earliest0].
    + intros t. rewrite !free_at_cons. intros [Ht|Ht].
      * pose proof (fits_after min b l _ p ltac:(lia) Hl ff_fits0). split; [by left|lia].
      * destruct (ff_rest0 t Ht). split; [by right|done].
    + cbn. lia.
Qed.

Lemma search_none l a b : search min pkt_time p l = None -> (a, b) ∈ l -> b < pkt_time + p.
Proof.
  unfold max_simulation_time in *. assert (tadd pkt_time p = pkt_time + p) as E by (apply tadd_small; lia).
  induction l as [|[a' b'] l IH]; [by intros _ ?%elem_of_nil|]. cbn [search]. rewrite E.
  destruct ((a' <=? pkt_time) && (pkt_time + p <=? b')) eqn:E1; [done|]. destruct (Z.ltb_spec pkt_time a'); [done|].
  destruct (search min pkt_time p l) as [[d' r]|]; [done|]. intros _ [[= -> ->]|Hin]%elem_of_cons; [|by apply IH].
  apply andb_false_iff in E1 as [?%Z.leb_gt|?%Z.leb_gt]; lia.
Qed.

Lemma last_app_nonempty {A} (l k : list A) : k <> [] -> list.last (l ++ k)%list = list.last k.
Proof. intros Hk. rewrite last_app. destruct k as [|x k] using rev_ind; [done|]. by rewrite last_snoc. Qed.

(** The last interval stays the one that never ends. *)
Lemma search_last l : forall lo A d l', 0 <= lo -> free_ok min lo l ->
  list.last l = Some (A, max_simulation_time) -> Z.max A pkt_time + p + min <= max_simulation_time ->
  search min pkt_time p l = Some (d, l') ->
  exists A', list.last l' = Some (A', max_simulation_time) /\ A' <= Z.max A pkt_time + p.
Proof.
  unfold max_simulation_time in *. assert (tadd pkt_time p = pkt_time + p) as E by (apply tadd_small; lia).
  induction l as [|[a b] l IH]; intros lo A d l' Hlo Hl Hlast Hroom; [done|].
  cbn [free_ok] in Hl. destruct Hl as (Ha & Hab & Hb & Hl). unfold max_simulation_time in Hb.
  assert (tadd a p = a + p) as Ea by (apply tadd_small; lia). cbn [search]. rewrite E, Ea.
  assert (forall x, min <= 2 ^ 63 - x -> 0 <= x -> keep min x (2 ^ 63) = [(x, 2 ^ 63)]) as Hkeep.
  { intros x Hx H0. unfold keep. rewrite tsub_small by lia. by rewrite (proj2 (Z.leb_le _ _)) by lia. }
  destruct l as [|y l].
  { injection Hlast as -> ->. cbn [search].
    destruct ((A <=? pkt_time) && (pkt_time + p <=? 2 ^ 63)); [|destruct (Z.ltb_spec pkt_time A); [|done]];
      intros [= <- <-]; rewrite Hkeep, ?app_nil_r by lia.
    - rewrite last_app_nonempty by done. eexists. split; [reflexivity|]. lia.
    - eexists. split; [reflexivity|]. lia. }
  rewrite last_cons_cons in Hlast.
  destruct ((a <=? pkt_time) && (pkt_time + p <=? b)); [|destruct (Z.ltb_spec pkt_time a)].
  - intros [= <- <-]. exists A. rewrite !last_app_nonempty by (try done; by destruct (keep min (pkt_time + p) b)).
    split; [exact Hlast|lia].
  - intros [= <- <-]. exists A. rewrite last_app_nonempty by done. split; [exact Hlast|lia].
  - destruct (search min pkt_time p (y :: l)) as [[d' r]|] eqn:Es; [|done]. intros [= <- <-].
    destruct (IH b A d' r ltac:(lia) Hl Hlast Hroom eq_refl) as (A' & HA & HA'). exists A'.
    split; [|done]. destruct r; [done|]. by rewrite last_cons_cons.
Qed.
End Search.

(** ** Runs of the history list *)

(** What is recorded of a request that was served from the list. *)
Record Served : Type := mkServed { sv_arrival : Z; sv_time : Z; sv_delay : Z }.
Definition sv_start (r : Served) : Z := sv_arrival r + sv_delay r.
Definition sv_end (r : Served) : Z := sv_start r + sv_time r.
Definition apart (r1 r2 : Served) : Prop := sv_end r1 <= sv_start r2 \/ sv_end r2 <= sv_start r1.

Definition old_packet (pkt_time p : Z) (s : State) : bool :=
  match m_free_interval_list s with oldest :: _ => is_old pkt_time p s oldest | [] => false end.

Section Run.
Context `{!Pow} (analytical : bool) (max min horizon : Z).

(** The states after [n] requests that arrive by [horizon] and take at most [min],
    with the requests the list served, the newest first. *)
Inductive h_run : nat -> State -> list Served -> Prop :=
| h_start : h_run 0 (new analytical max min) []
| h_step n s log pkt_time p d s' :
    h_run n s log -> 0 <= pkt_time <= horizon -> 0 < p <= min ->
    computeQueueDelay pkt_time p s = Ok (d, s') ->
    h_run (S n) s' (if old_packet pkt_time p s then log else mkServed pkt_time p d :: log).

(** The window of the average: the last [max] delays, oldest first. *)
Definition last_delays (log : list Served) : list Z := reverse (take (Z.to_nat max) (sv_delay <$> log)).

Record h_inv (n : nat) (s : State) (log : list Served) : Prop := {
  hi_min : m_min_processing_time s = min;
  hi_max : m_max_free_interval_list_size s = max;
  hi_flag : m_analytical_model_enabled s = analytical;
  hi_free : free_ok min 0 (m_free_interval_list s);
  hi_len : Z.of_nat (length (m_free_interval_list s)) <= max;
  hi_last : exists A, list.last (m_free_interval_list s) = Some (A, max_simulation_time) /\
              A <= horizon + Z.of_nat n * min;
  hi_busy : Forall (fun r => 0 < sv_time r /\
              forall t, free_at (m_free_interval_list s) t -> ~ (sv_start r <= t < sv_end r)) log;
  hi_apart : ForallOrdPairs apart log;
  hi_mean : mean_ok (last_delays log) (m_average_delay s);
  hi_window : MovingAverage.m_max_window_size (m_average_delay s) = max;
  hi_first : log = [] -> m_free_interval_list s = [(0, max_simulation_time)];
}.

Hypothesis Hmax : 1 <= max < 2 ^ 32 - 1.
Hypothesis Hmin : 0 < min < max_simulation_time.
Hypothesis Hhor : 0 <= horizon.

Lemma last_delays_push r log : last_delays (r :: log) = push_window max (last_delays log) (sv_delay r).
Proof.
  unfold last_delays, push_window. cbn [fmap list_fmap]. set (ds := sv_delay <$> log). clearbody ds.
  destruct (Z.to_nat max) as [|M] eqn:EM; [lia|]. cbn [take]. rewrite reverse_cons. f_equal.
  rewrite length_reverse, length_take. destruct (Z.eqb_spec (Z.of_nat (Nat.min (S M) (length ds))) max).
  - destruct (lookup_lt_is_Some_2 ds M) as [x Hx]; [lia|]. by rewrite (take_S_r _ _ x Hx), reverse_snoc.
  - rewrite !take_ge by lia. done.
Qed.

Lemma h_inv_new : h_inv 0 (new analytical max min) [].
Proof.
  split; cbn; try done; try lia.
  - exists 0. split; [done|lia].
  - constructor.
  - unfold last_delays. cbn. rewrite take_nil. by apply mean_new.
Qed.

Lemma tail_last {A} (l : list A) : (1 < length l)%nat -> list.last (tail l) = list.last l.
Proof. destruct l as [|x [|y l]]; cbn [length]; intros; [lia|lia|done]. Qed.

Lemma free_at_tail l t : free_at (tail l) t -> free_at l t.
Proof. destruct l as [|[a b] l]; [done|]. cbn. rewrite free_at_cons. by right. Qed.

(** Serving a request from the list. *)
Lemma history_step n s log pkt_time p :
  h_inv n s log -> 0 <= pkt_time <= horizon -> 0 < p <= min ->
  horizon + (Z.of_nat n + 2) * min <= max_simulation_time ->
  exists d s' l', computeUsingHistoryList pkt_time p s = Ok (d, s') /\
    first_fit (m_free_interval_list s) pkt_time p d l' /\
    s' = set_list (m_free_interval_list s') s /\
    free_ok min 0 (m_free_interval_list s') /\
    Z.of_nat (length (m_free_interval_list s')) <= max /\
    (exists A, list.last (m_free_interval_list s') = Some (A, max_simulation_time) /\
       A <= horizon + Z.of_nat (S n) * min) /\
    (forall t, free_at (m_free_interval_list s') t -> free_at l' t).
Proof.
  intros [Hm HM Hfl Hf Hlen (A & HA & HAb) Hbusy Hap Hmean Hwin Hfst] Hpkt Hp Hroom.
  assert (0 <= Z.of_nat n * min) by (apply Z.mul_nonneg_nonneg; lia).
  unfold computeUsingHistoryList. rewrite Hm, HM. unfold log_assert at 1. rewrite (proj2 (Z.leb_le _ _)) by done.
  cbn [mbind res_bind].
  destruct (search min pkt_time p (m_free_interval_list s)) as [[d l']|] eqn:Es.
  2: { apply search_none with (a := A) (b := max_simulation_time) in Es; try lia.
       apply last_Some_elem_of in HA. done. }
  destruct (search_first_fit min pkt_time p Hp ltac:(lia) ltac:(lia) _ 0 _ _ ltac:(lia) Hf Es) as [Hfit Hl'].
  destruct (search_last min pkt_time p Hp ltac:(lia) ltac:(lia) _ 0 A _ _ ltac:(lia) Hf HA ltac:(lia) Es)
    as (A' & HA' & HAb').
  assert (d < MaxTime) as Hd.
  { destruct Hfit as [? (a & b & Hin & ?) _ _ _].
    destruct (free_ok_elem min 0 _ _ _ ltac:(lia) Hf Hin) as (_ & _ & ?).
    unfold MaxTime, max_simulation_time in *. lia. }
  unfold log_assert. rewrite (proj2 (Z.eqb_neq _ _)) by lia. cbn [negb mbind res_bind].
  exists d, (set_list (if max <? Z.of_nat (length l') then tail l' else l') s), l'.
  split; [done|]. split; [done|]. split; [done|]. cbn [m_free_interval_list set_list].
  destruct (Z.ltb_spec max (Z.of_nat (length l'))).
  - pose proof (ff_length _ _ _ _ _ Hfit). split; [apply free_ok_tail; [lia|done]|].
    split; [destruct l'; cbn in *; lia|]. split; [|intros t; apply free_at_tail].
    exists A'. rewrite tail_last by lia. split; [done|lia].
  - split; [done|]. split; [lia|]. split; [|done]. exists A'. split; [done|lia].
Qed.

Lemma busy_apart l r log : fits l (sv_start r) (sv_time r) -> 0 < sv_time r ->
  Forall (fun q => 0 < sv_time q /\ forall t, free_at l t -> ~ (sv_start q <= t < sv_end q)) log ->
  Forall (apart r) log.
Proof.
  intros (a & b & Hin & Hab) Hr. apply Forall_impl. intros q [Hq Hbusy]. unfold apart.
  destruct (decide (sv_end r <= sv_start q)); [by left|]. right.
  destruct (decide (sv_end q <= sv_start r)); [done|]. exfalso. unfold sv_end in *.
  apply (Hbusy (Z.max (sv_start r) (sv_start q))); [|lia]. exists a, b. split; [done|]. lia.
Qed.

(** One request: the outcome, and the invariant afterwards. *)
Lemma h_step_spec n s log pkt_time p :
  h_inv n s log -> 0 <= pkt_time <= horizon -> 0 < p <= min ->
  horizon + (Z.of_nat n + 2) * min <= max_simulation_time ->
  exists d s', computeQueueDelay pkt_time p s = Ok (d, s') /\
    (if old_packet pkt_time p s then
       log <> [] /\ d = u64 (total (last_delays log)) / Z.of_nat (length (last_delays log))
     else exists l', first_fit (m_free_interval_list s) pkt_time p d l') /\
    h_inv (S n) s' (if old_packet pkt_time p s then log else mkServed pkt_time p d :: log).
Proof.
  intros Hi Hpkt Hp Hroom. assert (0 <= Z.of_nat n * min) by (apply Z.mul_nonneg_nonneg; lia).
  pose proof (history_step n s log pkt_time p Hi Hpkt Hp Hroom) as Hh.
  destruct Hi as [Hm HM Hfl Hf Hlen (A & HA & HAb) Hbusy Hap Hmean Hwin Hfst].
  unfold computeQueueDelay, old_packet. destruct (m_free_interval_list s) as [|oldest rest] eqn:El; [done|].
  destruct (is_old pkt_time p s oldest) eqn:Eold.
  - assert (log <> []) as Hlog.
    { intros ->. specialize (Hfst eq_refl). injection Hfst as -> ->. unfold is_old in Eold.
      apply andb_true_iff in Eold as [_ Eold%Z.leb_le]. unfold max_simulation_time in *.
      rewrite tadd_small in Eold by lia. cbn in Eold. lia. }
    assert (last_delays log <> []) as Hne.
    { unfold last_delays. destruct log; [done|]. destruct (Z.to_nat max) eqn:E; [lia|]. cbn [fmap list_fmap take].
      rewrite reverse_cons. by destruct (reverse _). }
    unfold computeUsingAnalyticalModel. cbn [m_average_delay count_analytical].
    rewrite (mean_compute _ _ Hmean Hne). cbn [mbind res_bind]. do 2 eexists. split; [reflexivity|].
    split; [done|]. split; cbn; rewrite ?El; try done. exists A. split; [done|]. lia.
  - destruct Hh as (d & s' & l' & -> & Hfit & Hs' & Hf' & Hlen' & Hlast' & Hsub). cbn [mbind res_bind].
    unfold updateAverageDelay. rewrite Hs'. cbn [m_average_delay set_list].
    destruct (mean_update _ _ d Hmean) as (a' & -> & Ha' & Hwin'). cbn [mbind res_bind].
    do 2 eexists. split; [reflexivity|]. split; [by exists l'|].
    split; cbn; try done.
    + constructor; [split; [cbn; lia|]|].
      * intros t Ht%Hsub. unfold sv_end, sv_start. cbn. by apply (ff_rest _ _ _ _ _ Hfit).
      * revert Hbusy. apply Forall_impl. intros q [Hq Hb]. split; [done|].
        intros t Ht%Hsub. apply Hb. by apply (ff_rest _ _ _ _ _ Hfit).
    + constructor; [|done]. eapply (busy_apart _ (mkServed pkt_time p d)); [|cbn; lia|exact Hbusy].
      exact (ff_fits _ _ _ _ _ Hfit).
    + rewrite last_delays_push. cbn [sv_delay]. by rewrite <- Hwin.
    + by rewrite Hwin'.
Qed.

Lemma h_run_inv n s log : h_run n s log -> horizon + (Z.of_nat n + 1) * min <= max_simulation_time -> h_inv n s log.
Proof.
  induction 1 as [|n s log pkt_time p d s' Hr IH Hpkt Hp Hc]; [intros; apply h_inv_new|]. intros Hroom.
  destruct (h_step_spec n s log pkt_time p (IH ltac:(lia)) Hpkt Hp ltac:(lia)) as (d' & s'' & E & _ & Hi).
  rewrite Hc in E. by injection E as -> ->.
Qed.

(** An old packet comes only when the analytical model is on, and it would be over
    before the oldest free interval begins. *)
Lemma old_packet_spec n s log pkt_time p : h_inv n s log -> old_packet pkt_time p s = true ->
  analytical = true /\ exists first rest, m_free_interval_list s = first :: rest /\ tadd pkt_time p <= first.1.
Proof.
  intros Hi. unfold old_packet, is_old. destruct (m_free_interval_list s) as [|oldest rest]; [done|].
  rewrite (hi_flag _ _ _ Hi). intros [-> Hle%Z.leb_le]%andb_true_iff. eauto.
Qed.

(** Without the analytical model the list serves every request. *)
Lemma h_run_serves_all n s log : h_run n s log ->
  horizon + (Z.of_nat n + 1) * min <= max_simulation_time -> analytical = false -> length log = n.
Proof.
  intros Hr. induction Hr as [|n s log pkt_time p d s' Hr IH Hpkt Hp Hc]; [done|]. intros Hroom Ha.
  destruct (old_packet pkt_time p s) eqn:Eo; [|cbn; by rewrite IH by (lia || done)].
  assert (h_inv n s log) as Hi by (apply h_run_inv; [done|lia]).
  apply (old_packet_spec n s log) in Eo as [? _]; [congruence|done].
Qed.
End Run.
End History.

(** The history list queue, after any requests that arrive by
    [horizon] and take at most the shortest time it records ([min]): no two requests
    it served overlap; and the next request is answered.  A request that is older
    than all free intervals gets the mean of the last delays; any other gets the
    earliest slot that lies in a free interval, and that slot overlaps none before. *)
Theorem history_list_exclusive_slots `{!Pow} analytical max min horizon n s log pkt_time p :
  1 <= max < 2 ^ 32 - 1 -> 0 < min -> horizon + (Z.of_nat n + 2) * min <= History.max_simulation_time ->
  h_run analytical max min horizon n s log -> 0 <= pkt_time <= horizon -> 0 < p <= min ->
  ForallOrdPairs apart log /\
  exists d s', History.computeQueueDelay pkt_time p s = Ok (d, s') /\
    if old_packet pkt_time p s then
      log <> [] /\ d = u64 (total (last_delays max log)) / Z.of_nat (length (last_delays max log))
    else
      0 <= d /\ fits (History.m_free_interval_list s) (pkt_time + d) p /\
      (forall t, pkt_time <= t -> fits (History.m_free_interval_list s) t p -> pkt_time + d <= t) /\
      Forall (apart (mkServed pkt_time p d)) log.
Proof.
  intros Hmax Hmin Hroom Hr Hpkt Hp. assert (0 <= Z.of_nat n * min) by (apply Z.mul_nonneg_nonneg; lia).
  pose proof (h_run_inv analytical max min horizon Hmax ltac:(lia) ltac:(lia) n s log Hr ltac:(lia)) as Hi.
  split; [exact (hi_apart _ _ _ _ _ _ _ Hi)|].
  destruct (h_step_spec analytical max min horizon Hmax ltac:(lia) n s log pkt_time p Hi Hpkt Hp ltac:(lia))
    as (d & s' & Hc & Hd & Hi').
  exists d, s'. split; [done|]. destruct (old_packet pkt_time p s); [done|]. destruct Hd as [l' []].
  split; [done|]. split; [done|]. split; [done|]. pose proof (hi_apart _ _ _ _ _ _ _ Hi') as Ha. by inversion Ha.
Qed.

#[export] Instance no_pow : Pow := {| pow := fun x _ => x |}.

(** Two requests at the same time, the second of which waits for the first. *)
Definition one_served : History.State :=
  (from_res (0, History.new true 100 10) (History.computeQueueDelay 50 10 (History.new true 100 10))).2.

Lemma history_list_exclusive_slots_witness :
  h_run true 100 10 1000 1 one_served [mkServed 50 10 0] /\
  exists d s', History.computeQueueDelay 55 10 one_served = Ok (d, s') /\ Forall (apart (mkServed 55 10 d)) [mkServed 50 10 0].
Proof.
  assert (h_run true 100 10 1000 1 one_served [mkServed 50 10 0]) as Hr.
  { apply (h_step true 100 10 1000 0 (History.new true 100 10) [] 50 10 0 one_served); [constructor|lia|lia|].
    vm_compute. reflexivity. }
  split; [exact Hr|].
  destruct (history_list_exclusive_slots true 100 10 1000 1 one_served _ 55 10 ltac:(lia) ltac:(lia)
    ltac:(unfold History.max_simulation_time; lia) Hr ltac:(lia) ltac:(lia)) as (_ & d & s' & Hc & H).
  exists d, s'. split; [exact Hc|]. change (old_packet 55 10 one_served) with false in H. apply H.
Defined.

(** A request that takes longer than the shortest time recorded is put at the start
    of a free interval that is too short for it: the slots of the second and the
    third request overlap, and an interval that ends before it starts is kept. *)
Example history_list_long_requests_overlap :
  let step '(l, s) '(t, p) := match History.computeQueueDelay t p s with
                              | Ok (d, s) => (mkServed t p d :: l, s)
                              | Err _ => (l, s) end in
  let '(log, s) := fold_left step [(10, 5); (17, 5); (12, 5)] ([], History.new false 100 1) in
  log = [mkServed 12 5 3; mkServed 17 5 0; mkServed 10 5 0] /\
  ~ apart (mkServed 12 5 3) (mkServed 17 5 0) /\ (20, 17) ∈ History.m_free_interval_list s.
Proof.
  vm_compute. repeat split.
  - by intros [H|H].
  - right. left.
Qed.

(** ** The contention model *)
Section Contention.
Import Contention.

(** A request that occupied a unit. *)
Record Held : Type := mkHeld { hd_unit : nat; hd_begin : Z; hd_end : Z }.

Lemma find_unit_spec t l : forall pre i unit free,
  i = length pre -> fst <$> (pre ++ l)%list !! unit = Some free ->
  (forall u, u ∈ pre -> t < u.1 /\ free <= u.1) -> t < free ->
  let '(unit', free') := find_unit t l i unit free in
  fst <$> (pre ++ l)%list !! unit' = Some free' /\
  (free' <= t \/ forall u, u ∈ (pre ++ l)%list -> free' <= u.1).
Proof.
  induction l as [|u l IH]; intros pre i unit free Hi Hu Hpre Ht; cbn [find_unit].
  { split; [done|]. right. rewrite app_nil_r. intros u Hin. by apply Hpre. }
  assert (fst <$> (pre ++ u :: l)%list !! i = Some u.1) as Hui.
  { subst i. by rewrite list_lookup_middle. }
  destruct (Z.leb_spec u.1 t); [split; [done|by left]|].
  assert ((pre ++ u :: l)%list = ((pre ++ [u]) ++ l)%list) as E by by rewrite <- app_assoc.
  destruct (Z.ltb_spec u.1 free).
  - specialize (IH (pre ++ [u])%list (S i) i u.1). rewrite <- E in IH. apply IH; try done.
    + rewrite length_app. cbn. lia.
    + intros v [Hv|Hv]%elem_of_app; [|apply list_elem_of_singleton in Hv as ->; lia].
      destruct (Hpre v Hv). lia.
  - specialize (IH (pre ++ [u])%list (S i) unit free). rewrite <- E in IH. apply IH; try done.
    + rewrite length_app. cbn. lia.
    + intros v [Hv|Hv]%elem_of_app; [by apply Hpre|apply list_elem_of_singleton in Hv as ->; lia].
Qed.

(** The unit that is chosen is free at [t] if one is, and free first otherwise. *)
Lemma first_unit_spec t times : times <> [] ->
  let '(unit, free) := first_unit t times in
  fst <$> times !! unit = Some free /\ (free <= t \/ forall u, u ∈ times -> free <= u.1).
Proof.
  destruct times as [|u l]; [done|]. intros _. unfold first_unit. cbn [find_unit].
  destruct (Z.leb_spec u.1 t); [split; [done|by left]|]. rewrite Z.ltb_irrefl.
  pose proof (find_unit_spec t l [u] 1 0 u.1 eq_refl eq_refl) as H1. cbn in H1. apply H1; [|lia].
  intros v ->%list_elem_of_singleton. lia.
Qed.

(** Requests that do not start at time zero and come in the order of their times. *)
Inductive c_run (units period : Z) : State -> list Held -> Prop :=
| c_start : c_run units period (new units period) []
| c_step s log t_start t_delay tag t_end s' :
    c_run units period s log -> 0 < t_start -> m_t_last s <= t_start -> 0 <= t_delay ->
    Z.max t_start (first_unit t_start (m_time s)).2 + t_delay < 2 ^ 64 ->
    getCompletionTime t_start t_delay tag s = (t_end, s') ->
    c_run units period s' (mkHeld (first_unit t_start (m_time s)).1 (t_end - t_delay) t_end :: log).

Definition same_unit_apart (r1 r2 : Held) : Prop := hd_unit r1 = hd_unit r2 -> hd_end r2 <= hd_begin r1.

Record c_inv (units : Z) (s : State) (log : list Held) : Prop := {
  ci_units : m_num_outstanding s = units;
  ci_len : Z.of_nat (length (m_time s)) = units;
  ci_nonneg : Forall (fun u => 0 <= u.1) (m_time s);
  ci_log : Forall (fun r => exists u, m_time s !! hd_unit r = Some u /\ hd_end r <= u.1) log;
  ci_apart : ForallOrdPairs same_unit_apart log;
}.

(** One request on a unit: it begins when it arrives or when the first unit is free. *)
Lemma c_step_spec units s log t_start t_delay tag : 0 < units -> c_inv units s log ->
  0 < t_start -> m_t_last s <= t_start -> 0 <= t_delay ->
  Z.max t_start (first_unit t_start (m_time s)).2 + t_delay < 2 ^ 64 ->
  exists unit free tag', (unit, free) = first_unit t_start (m_time s) /\
    m_time s !! unit = Some (free, tag') /\ (free <= t_start \/ forall u, u ∈ m_time s -> free <= u.1) /\
    (getCompletionTime t_start t_delay tag s).1 = Z.max t_start free + t_delay /\
    m_time (getCompletionTime t_start t_delay tag s).2 = <[unit := (Z.max t_start free + t_delay, tag)]> (m_time s) /\
    m_num_outstanding (getCompletionTime t_start t_delay tag s).2 = units.
Proof.
  intros Hn [Hu Hlen Hnn _ _] Ht Hl Hd Hroom.
  pose proof (first_unit_spec t_start (m_time s)) as Hf. destruct (first_unit t_start (m_time s)) as [unit free] eqn:E.
  destruct Hf as [Hf Hmin]; [intros Hnil; rewrite Hnil in Hlen; cbn in Hlen; lia|].
  destruct (m_time s !! unit) as [[f tag']|] eqn:Eu; [|done]. injection Hf as ->.
  exists unit, free, tag'. split; [done|]. split; [done|]. split; [done|].
  assert (0 <= free) by (eapply Forall_lookup_1 in Hnn; [|exact Eu]; done). cbn [snd] in Hroom.
  unfold getCompletionTime. rewrite Hu, (proj2 (Z.eqb_neq units 0)), (proj2 (Z.eqb_neq t_start 0)) by lia.
  rewrite (proj2 (Z.ltb_ge _ _)) by lia.
  assert (m_time (if t_start =? m_t_last s then count_simultaneous s else s) = m_time s) as -> by by case_match.
  rewrite E.
  assert (tadd (if t_start <? free then free else t_start) t_delay = Z.max t_start free + t_delay) as ->.
  { rewrite tadd_small; destruct (Z.ltb_spec t_start free); lia. }
  cbn. by repeat split; case_match.
Qed.

Lemma c_run_inv units period s log : 0 < units -> c_run units period s log -> c_inv units s log.
Proof.
  intros Hn. induction 1 as [|s log t_start t_delay tag t_end s' Hr IH Ht Hl Hd Hroom Hc].
  { split; cbn; try done.
    - rewrite length_replicate. lia.
    - by apply Forall_replicate.
    - constructor. }
  destruct (c_step_spec units s log t_start t_delay tag Hn IH Ht Hl Hd Hroom)
    as (unit & free & tag' & E & Eu & Hmin & Hend & Htimes & Hunits).
  rewrite Hc in Hend, Htimes, Hunits. cbn [fst snd] in *. rewrite <- E. cbn [fst].
  apply lookup_lt_Some in Eu as Hlt. destruct IH as [Hu Hlen Hnn Hlog Hap]. split.
  - done.
  - by rewrite Htimes, length_insert.
  - rewrite Htimes. apply Forall_insert; [done|]. cbn. lia.
  - constructor.
    + exists (t_end, tag). cbn. rewrite Htimes, list_lookup_insert_eq by done. subst t_end. split; [done|]. cbn. lia.
    + revert Hlog. apply Forall_impl. intros r (u & Hru & Hre). rewrite Htimes.
      destruct (decide (hd_unit r = unit)) as [Er|Er].
      * rewrite Er, list_lookup_insert_eq by done. eexists. split; [done|]. cbn.
        rewrite Er, Eu in Hru. injection Hru as <-. cbn in Hre. lia.
      * rewrite list_lookup_insert_ne by done. eauto.
  - constructor; [|done]. revert Hlog. apply Forall_impl. intros r (u & Hru & Hre). unfold same_unit_apart. cbn.
    intros Er. rewrite <- Er, Eu in Hru. injection Hru as <-. cbn in Hre. lia.
Qed.

(** The requests in service at time [t]. *)
Definition in_service (t : Z) (log : list Held) : list Held := filter (fun r => hd_begin r <= t < hd_end r) log.

Lemma in_service_units t log : ForallOrdPairs same_unit_apart log -> NoDup (hd_unit <$> in_service t log).
Proof.
  unfold in_service. induction 1 as [|r log Hr Hlog IH]; [constructor|]. rewrite filter_cons. case_decide as Hd; [|done].
  cbn [fmap list_fmap]. constructor; [|done]. intros (q & Hq & [Hqd Hin]%list_elem_of_filter)%list_elem_of_fmap.
  rewrite list.Forall_forall in Hr. specialize (Hr q Hin Hq). lia.
Qed.
End Contention.

(** The contention model, for requests in the order of their times:
    at no time are more requests in service than there are units; and the next
    request begins when it arrives if a unit is free, otherwise at the first time a
    unit becomes free. *)
Theorem contention_units_exclusive units period s log t t_start t_delay tag :
  0 < units -> c_run units period s log ->
  0 < t_start -> Contention.m_t_last s <= t_start -> 0 <= t_delay ->
  Z.max t_start (Contention.first_unit t_start (Contention.m_time s)).2 + t_delay < 2 ^ 64 ->
  Z.of_nat (length (in_service t log)) <= units /\
  exists free, (Contention.getCompletionTime t_start t_delay tag s).1 = Z.max t_start free + t_delay /\
    (exists u, u ∈ Contention.m_time s /\ u.1 = free) /\
    (free <= t_start \/ forall u, u ∈ Contention.m_time s -> free <= u.1).
Proof.
  intros Hn Hr Ht Hl Hd Hroom. pose proof (c_run_inv _ _ _ _ Hn Hr) as Hi. split.
  - pose proof (in_service_units t log (ci_apart _ _ _ Hi)) as Hnd.
    assert (hd_unit <$> in_service t log ⊆ seq 0 (length (Contention.m_time s))) as Hsub.
    { intros u (r & -> & [_ Hin]%list_elem_of_filter)%list_elem_of_fmap. pose proof (ci_log _ _ _ Hi) as Hlog.
      rewrite list.Forall_forall in Hlog. destruct (Hlog r Hin) as (v & Hv & _). apply lookup_lt_Some in Hv.
      apply elem_of_seq. lia. }
    pose proof (submseteq_length _ _ (NoDup_submseteq _ _ Hnd Hsub)) as Hle.
    rewrite length_seq, length_fmap in Hle. pose proof (ci_len _ _ _ Hi). lia.
  - destruct (c_step_spec units s log t_start t_delay tag Hn Hi Ht Hl Hd Hroom)
      as (unit & free & tag' & _ & Eu & Hmin & Hend & _). exists free. split; [done|]. split; [|done].
    exists (free, tag'). split; [by eapply list_elem_of_lookup_2|done].
Qed.

Lemma contention_units_exclusive_witness :
  let s := (Contention.getCompletionTime 5 10 0 (Contention.new 1 1)).2 in
  c_run 1 1 s [mkHeld 0 5 15] /\ Z.of_nat (length (in_service 7 [mkHeld 0 5 15])) <= 1.
Proof.
  cbn zeta. set (s := (Contention.getCompletionTime 5 10 0 (Contention.new 1 1)).2).
  assert (c_run 1 1 s [mkHeld 0 5 15]) as Hr.
  { apply (c_step 1 1 (Contention.new 1 1) [] 5 10 0 15 s); [constructor|lia| |lia| |]; vm_compute; done. }
  split; [exact Hr|].
  apply (contention_units_exclusive 1 1 s _ 7 20 1 0); [lia|exact Hr|lia| |lia|]; vm_compute; done.
Defined.

(** ** The windowed M/G/1 model *)
Section MG1.
Import WindowedMG1.

(** Requests with the global time at which they are simulated. *)
Fixpoint mg1_delays (reqs : list (Z * Z * Z)) (s : State) : res (list Z) :=
  match reqs with
  | [] => Ok []
  | (g, pkt_time, p) :: reqs =>
      '(d, s) ← computeQueueDelay g pkt_time p s; ds ← mg1_delays reqs s; Ok (d :: ds)
  end.

(** The state between two early requests: at most the last one is in the window. *)
Definition cold (w : Z) (s : State) : Prop :=
  m_window_size s = w /\
  (m_window s = [] /\ m_num_arrivals s = 0 \/
   exists t p, m_window s = [(t, p)] /\ 0 <= t < 10 * w /\ m_num_arrivals s = 1).

Lemma cold_step w g pkt_time p s : 0 < w -> 20 * w <= 2 ^ 64 -> 0 <= pkt_time < 10 * w -> cold w s ->
  exists s', computeQueueDelay g pkt_time p s = Ok (0, s') /\ cold w s'.
Proof.
  intros Hw Hw2 Hpkt [Hsz Hc]. unfold computeQueueDelay.
  assert (10 * w <= earliest_time g pkt_time s) as He.
  { unfold earliest_time. rewrite Hsz. unfold tmul. rewrite (u64_small (w * 10)) by lia.
    assert (tsub pkt_time (w * 10) = pkt_time - w * 10 + 2 ^ 64) as ->; [|lia].
    unfold tsub, u64. rewrite <- (Z.mod_add _ 1) by lia. rewrite Z.mod_small; lia. }
  assert (m_window (removeItems (earliest_time g pkt_time s) s) = [] /\
          m_num_arrivals (removeItems (earliest_time g pkt_time s) s) = 0) as [Hwin Hnum].
  { unfold removeItems. destruct Hc as [[-> ->]|(t & q & -> & Ht & ->)]; [done|]. cbn [remove_loop fst].
    by rewrite (proj2 (Z.ltb_lt _ _)) by lia. }
  rewrite Hnum. cbn [mbind res_bind]. eexists. split; [reflexivity|]. split.
  - cbn. unfold removeItems. by case_match; repeat case_match.
  - right. exists pkt_time, p. cbn. by rewrite Hwin, Hnum.
Qed.
End MG1.

(** Whatever is sent through the windowed M/G/1 queue in the first ten
    windows, no request is ever delayed: [pkt_time - 10*m_window_size] wraps around,
    so that every request first empties the window. *)
Theorem mg1_no_delay_in_ten_windows window_ns reqs :
  0 < window_ns -> 20 * (NS_1 * window_ns) <= 2 ^ 64 ->
  Forall (fun '(_, pkt_time, _) => 0 <= pkt_time < 10 * (NS_1 * window_ns)) reqs ->
  mg1_delays reqs (WindowedMG1.new window_ns) = Ok (replicate (length reqs) 0).
Proof.
  intros Hw Hw2 Hreqs. set (w := NS_1 * window_ns) in *. assert (0 < w) by (unfold w, NS_1; lia).
  assert (cold w (WindowedMG1.new window_ns)) as Hs.
  { split; [|by left]. cbn. unfold tmul. apply u64_small. fold w. lia. }
  revert Hs. generalize (WindowedMG1.new window_ns) as s.
  induction Hreqs as [|[[g t] p] reqs Ht Hreqs IH]; intros s Hs; [done|]. cbn [mg1_delays length replicate].
  destruct (cold_step w g t p s ltac:(done) Hw2 Ht Hs) as (s' & -> & Hs'). cbn [mbind res_bind].
  by rewrite (IH s' Hs').
Qed.

(** A thousand requests of 1 ns in the same nanosecond of the second window. *)
Lemma mg1_no_delay_in_ten_windows_witness :
  mg1_delays (replicate 1000 (0, 1500000000, 1000000)) (WindowedMG1.new 1000) = Ok (replicate 1000 0).
Proof.
  apply (mg1_no_delay_in_ten_windows 1000 (replicate 1000 (0, 1500000000, 1000000)));
    [lia|unfold NS_1; lia|]. apply Forall_replicate. unfold NS_1. lia.
Defined.
