(* ===== verification/SniperTrace.v ===== *)
(** * The DRAM controller of Sniper, which records the traces

    Models [snipersim/common/core/memory_subsystem/pr_l1_pr_l2_dram_directory_msi/dram_cntlr.cc]:
    reads and writes of cache blocks and the line each access appends to
    [dram_trace.txt], one file shared by the controllers of all cores; the message handler of [dram/dram_cntlr_interface.cc]; and the
    account a message keeps of where its time went ([shmem_perf.cc]).  The latency
    model ([DramPerfModel], implemented in [SniperDram]) and the fault injector are
    abstract classes in the source and type classes here.  Times are counts of
    femtoseconds, as in [SubsecondTime]. *)
From Stdlib Require Import String Ascii.
From S2P Require Import Prelude Utils SniperQueue.
Local Open Scope string_scope.
Local Open Scope Z_scope.

(** ** [fprintf]: [%lu] and [%d] *)
Definition digit_char (d : Z) : ascii := ascii_of_nat (Z.to_nat (48 + d)).

Fixpoint print_digits (fuel : nat) (n : Z) (acc : string) : string :=
  match fuel with
  | O => acc
  | S fuel =>
      let acc := String (digit_char (n mod 10)) acc in
      if n <? 10 then acc else print_digits fuel (n / 10) acc
  end.

(** Twenty digits are enough for 64 bits. *)
Definition print_lu (n : Z) : string := print_digits 20 n "".
Definition print_d (n : Z) : string := if n <? 0 then String "-" (print_lu (- n)) else print_lu n.

(** ** [ShmemPerf]: the time a message spent, by reason *)
Module ShmemPerf.
Inductive shmem_times_type_t : Type :=
| NOC_BASE | NOC_QUEUE | TD_ACCESS | INV_IMBALANCE | REMOTE_CACHE_INV | REMOTE_CACHE_FWD
| REMOTE_CACHE_WB | PENDING_HIT | NUCA_TAGS | NUCA_QUEUE | NUCA_BUS | NUCA_DATA | DRAM_CACHE
| DRAM_CACHE_TAGS | DRAM_CACHE_QUEUE | DRAM_CACHE_BUS | DRAM_CACHE_DATA | DRAM | DRAM_QUEUE
| DRAM_BUS | DRAM_DEVICE | UNKNOWN.

(** The reasons in the order of their values. *)
Definition reasons : list shmem_times_type_t :=
  [NOC_BASE; NOC_QUEUE; TD_ACCESS; INV_IMBALANCE; REMOTE_CACHE_INV; REMOTE_CACHE_FWD;
   REMOTE_CACHE_WB; PENDING_HIT; NUCA_TAGS; NUCA_QUEUE; NUCA_BUS; NUCA_DATA; DRAM_CACHE;
   DRAM_CACHE_TAGS; DRAM_CACHE_QUEUE; DRAM_CACHE_BUS; DRAM_CACHE_DATA; DRAM; DRAM_QUEUE;
   DRAM_BUS; DRAM_DEVICE; UNKNOWN].

#[global] Instance reason_eq_dec : EqDecision shmem_times_type_t.
Proof. solve_decision. Defined.

Definition reason_id (r : shmem_times_type_t) : nat :=
  match list_find (fun x => x = r) reasons with Some (i, _) => i | None => 0 end.

Definition shmem_reason_names : list string :=
  ["noc-base"; "noc-queue"; "td-access"; "inv-imbalance"; "remote-cache-inv"; "remote-cache-fwd";
   "remote-cache-wb"; "pending-hit"; "nuca-tags"; "nuca-bus"; "nuca-queue"; "nuca-data"; "dram-cache";
   "dram-cache-tags"; "dram-cache-queue"; "dram-cache-bus"; "dram-cache-data"; "dram"; "dram-queue";
   "dram-bus"; "dram-device"; "unknown"].

Definition ShmemReasonString (r : shmem_times_type_t) : string := nth (reason_id r) shmem_reason_names "".

Record t : Type := mk {
  m_core_id : Z;
  m_time_begin : Z;
  m_time_last : Z;
  m_times : list Z;
}.

Definition new : t := mk (-1) 0 0 (replicate 22 0).
Definition disable (p : t) : t := mk (m_core_id p) (m_time_begin p) MaxTime (m_times p).
Definition reset (time core_id : Z) : t := mk core_id time time (replicate 22 0).

Definition add_time (r : shmem_times_type_t) (d : Z) (p : t) : list Z :=
  alter (fun x => tadd x d) (reason_id r) (m_times p).

Definition updateTime (time : Z) (r : shmem_times_type_t) (p : t) : t :=
  if m_time_last p <? time then
    mk (m_core_id p) (m_time_begin p) time (add_time r (tsub time (m_time_last p)) p)
  else p.

Definition updatePacket (packet_time queue_delay : Z) (p : t) : t :=
  if m_time_last p <? packet_time then
    updateTime packet_time NOC_BASE
      (mk (m_core_id p) (m_time_begin p) (tadd (m_time_last p) queue_delay) (add_time NOC_QUEUE queue_delay p))
  else p.

Definition getComponent (r : shmem_times_type_t) (p : t) : Z := nth (reason_id r) (m_times p) 0.
Definition add (q p : t) : t :=
  mk (m_core_id p) (m_time_begin p) (m_time_last p) (zip_with tadd (m_times p) (m_times q)).
End ShmemPerf.

(** ** The classes the controller calls *)
Inductive access_t : Type := READ | WRITE.

Class DramPerfModel : Type := {
  perf_state : Type;
  getAccessLatency : Z -> Z -> Z -> Z -> access_t -> ShmemPerf.t -> perf_state ->
                     res (Z * ShmemPerf.t * perf_state);
}.

Class FaultInjector : Type := {
  preRead : Z -> list Z -> Z -> list Z;
  postWrite : Z -> list Z -> Z -> list Z;
}.

(** ** [DramCntlr] *)
Module DramCntlr.

(** The trace file: [fp] is one static variable, opened when the program starts and
    shared by the controllers of all cores.  Its lines in order, or [None] when it
    could not be opened. *)
Definition TraceFile : Type := option (list string).
Definition fopen (opened : bool) : TraceFile := if opened then Some [] else None.

Section DramCntlr.
Context `{P : DramPerfModel}.

Record State : Type := mkState {
  block_size : Z;
  fault_manager : bool;                     (* Sim()->getFaultinjectionManager() *)
  m_fault_injector : option FaultInjector;
  m_data_map : gmap Z (list Z);
  m_reads : Z;
  m_writes : Z;
  m_dram_perf_model : perf_state;
  m_dummy_shmem_perf : ShmemPerf.t;
}.

Definition new (size : Z) (manager : bool) (injector : option FaultInjector) (p : perf_state) : State :=
  mkState size manager (if manager then injector else None) ∅ 0 0 p ShmemPerf.new.

Definition set_data (m : gmap Z (list Z)) (s : State) : State :=
  mkState (block_size s) (fault_manager s) (m_fault_injector s) m (m_reads s) (m_writes s)
    (m_dram_perf_model s) (m_dummy_shmem_perf s).
Definition count_read (s : State) : State :=
  mkState (block_size s) (fault_manager s) (m_fault_injector s) (m_data_map s) (u64 (m_reads s + 1))
    (m_writes s) (m_dram_perf_model s) (m_dummy_shmem_perf s).
Definition count_write (s : State) : State :=
  mkState (block_size s) (fault_manager s) (m_fault_injector s) (m_data_map s) (m_reads s)
    (u64 (m_writes s + 1)) (m_dram_perf_model s) (m_dummy_shmem_perf s).
Definition set_dummy (p : ShmemPerf.t) (s : State) : State :=
  mkState (block_size s) (fault_manager s) (m_fault_injector s) (m_data_map s) (m_reads s) (m_writes s)
    (m_dram_perf_model s) p.

Definition runDramPerfModel (requester time address : Z) (a : access_t) (perf : ShmemPerf.t) (s : State)
    : res (Z * ShmemPerf.t * State) :=
  '(latency, perf, p) ← getAccessLatency time (block_size s) requester address a perf (m_dram_perf_model s);
  Ok (latency, perf, mkState (block_size s) (fault_manager s) (m_fault_injector s) (m_data_map s) (m_reads s)
                       (m_writes s) p (m_dummy_shmem_perf s)).

(** The line without the newline, which [getline] takes off again. *)
Definition trace_line (a : access_t) (now address requester : Z) : string :=
  print_lu (getNS now) ++ (match a with READ => " R " | WRITE => " W " end)
    ++ print_lu address ++ " " ++ print_d requester.

Definition record (a : access_t) (now address requester : Z) (fp : TraceFile) : TraceFile :=
  (fun l => l ++ [trace_line a now address requester])%list <$> fp.

(** The bytes of the block when fault injection is on; the caller's buffer is not
    written otherwise. *)
Definition getDataFromDram (address requester now : Z) (perf : ShmemPerf.t) (s : State) (fp : TraceFile)
    : res (Z * option (list Z) * ShmemPerf.t * State * TraceFile) :=
  let '(data, s) :=
    if fault_manager s then
      let block := default (replicate (Z.to_nat (block_size s)) 0) (m_data_map s !! address) in
      let block := match m_fault_injector s with
                   | Some i => preRead address block now
                   | None => block
                   end in
      (Some block, set_data (<[address := block]> (m_data_map s)) s)
    else (None, s) in
  '(latency, perf, s) ← runDramPerfModel requester now address READ perf s;
  Ok (latency, data, perf, count_read s, record READ now address requester fp).

Definition putDataToDram (address requester : Z) (data_buf : list Z) (now : Z) (s : State) (fp : TraceFile)
    : res (Z * State * TraceFile) :=
  s ← (if fault_manager s then
         match m_data_map s !! address with
         | None => Err (Exit (-1))
         | Some _ =>
             let block := match m_fault_injector s with
                          | Some i => postWrite address data_buf now
                          | None => data_buf
                          end in
             Ok (set_data (<[address := block]> (m_data_map s)) s)
         end
       else Ok s);
  '(latency, dummy, s) ← runDramPerfModel requester now address WRITE (m_dummy_shmem_perf s) s;
  Ok (latency, count_write (set_dummy dummy s), record WRITE now address requester fp).

(** ** [DramCntlrInterface::handleMsgFromTagDirectory] *)
Inductive msg_t : Type := DRAM_READ_REQ | DRAM_WRITE_REQ | OTHER_MSG.

Record ShmemMsg : Type := mkMsg {
  msg_type : msg_t;
  msg_address : Z;
  msg_requester : Z;
  msg_data : list Z;
  msg_perf : ShmemPerf.t;
}.

(** The reply to the directory: who asked, where, what was read. *)
Record Reply : Type := mkReply {
  rep_requester : Z;
  rep_receiver : Z;
  rep_address : Z;
  rep_data : option (list Z);
  rep_perf : ShmemPerf.t;
}.

(** [elapsed] is the time of the simulation thread, which a read moves on. *)
Definition handleMsgFromTagDirectory (sender : Z) (m : ShmemMsg) (elapsed : Z) (s : State) (fp : TraceFile)
    : res (option Reply * Z * State * TraceFile) :=
  let perf := ShmemPerf.updateTime elapsed ShmemPerf.UNKNOWN (msg_perf m) in
  match msg_type m with
  | DRAM_READ_REQ =>
      '(latency, data, perf, s, fp) ← getDataFromDram (msg_address m) (msg_requester m) elapsed perf s fp;
      let elapsed := tadd elapsed latency in
      let perf := ShmemPerf.updateTime elapsed ShmemPerf.DRAM perf in
      Ok (Some (mkReply (msg_requester m) sender (msg_address m) data perf), elapsed, s, fp)
  | DRAM_WRITE_REQ =>
      '(_, s, fp) ← putDataToDram (msg_address m) (msg_requester m) (msg_data m) elapsed s fp;
      Ok (None, elapsed, s, fp)
  | OTHER_MSG => Err (Exit (-1))
  end.

(** A sequence of accesses and the trace they leave.  The buffer of a write has the
    size of a block. *)
Record Access : Type := mkAccess {
  kind : access_t; now : Z; address : Z; requester : Z; data : list Z; perf : ShmemPerf.t
}.

(** The latency of the access, the controller and the trace file after it. *)
Definition access (x : Access) (s : State) (fp : TraceFile) : res (Z * State * TraceFile) :=
  match kind x with
  | READ =>
      '(latency, _, _, s, fp) ← getDataFromDram (address x) (requester x) (now x) (perf x) s fp;
      Ok (latency, s, fp)
  | WRITE => putDataToDram (address x) (requester x) (data x) (now x) s fp
  end.

(** The simulated system: the controllers, by the core they sit at, and the one file
    they share. *)
Record System : Type := mkSystem {
  m_dram_cntlrs : gmap Z State;
  fp : TraceFile;
}.

(** The cores [getCoreListWithMemoryControllers] returns get a controller each. *)
Definition new_system (cores : list Z) (cntlr : Z -> State) (opened : bool) : System :=
  mkSystem (list_to_map ((fun c => (c, cntlr c)) <$> cores)) (fopen opened).

(** An access served by the controller at [core]; a core without one has no
    controller to call. *)
Definition access_at (core : Z) (x : Access) (y : System) : res (Z * System) :=
  match m_dram_cntlrs y !! core with
  | None => Err Undef
  | Some s =>
      '(latency, s, f) ← access x s (fp y);
      Ok (latency, mkSystem (<[core := s]> (m_dram_cntlrs y)) f)
  end.

(** Accesses of all controllers, interleaved in any way. *)
Fixpoint accesses (l : list (Z * Access)) (y : System) : res System :=
  match l with
  | [] => Ok y
  | (core, x) :: l => '(_, y) ← access_at core x y; accesses l y
  end.

Definition line_of (x : Access) : string := trace_line (kind x) (now x) (address x) (requester x).

(** An access is one run of the latency model and one line of the trace. *)
Lemma dram_access_spec x s f latency s' f' : access x s f = Ok (latency, s', f') ->
  block_size s' = block_size s /\
  f' = ((fun l => l ++ [line_of x])%list <$> f) /\
  exists perf0 perf', getAccessLatency (now x) (block_size s) (requester x) (address x) (kind x) perf0
    (m_dram_perf_model s) = Ok (latency, perf', m_dram_perf_model s').
Proof.
  unfold access, getDataFromDram, putDataToDram, runDramPerfModel, line_of. destruct (kind x).
  - destruct (fault_manager s); intros H; res_inv; cbn in *; eauto.
  - destruct (fault_manager s); [destruct (m_data_map s !! address x)|]; intros H; res_inv; cbn in *; eauto.
Qed.

Lemma access_at_fp core x y latency y' : access_at core x y = Ok (latency, y') ->
  fp y' = (fun l => l ++ [line_of x])%list <$> fp y.
Proof.
  unfold access_at. destruct (m_dram_cntlrs y !! core) as [s|]; [|done]. intros H.
  apply bind_Ok in H as ([[la s'] f] & Ha & [= _ <-]). by apply dram_access_spec in Ha as (_ & ? & _).
Qed.

(** Whichever controllers serve the accesses, the file gets their lines in order. *)
Lemma accesses_fp l : forall y y' file, fp y = Some file -> accesses l y = Ok y' ->
  fp y' = Some (file ++ (line_of <$> l.*2))%list.
Proof.
  induction l as [|[core x] l IH]; intros y y' file Hf; [intros [= <-]; by rewrite app_nil_r|].
  cbn. destruct (access_at core x y) as [[la y1]|] eqn:E; [|done]. intros H. apply access_at_fp in E.
  rewrite Hf in E. rewrite (IH _ _ _ E H). by rewrite <- app_assoc.
Qed.
End DramCntlr.
End DramCntlr.

(** ** What the printed numbers parse to *)
Lemma digit_char_digit d : 0 <= d < 10 -> digit (digit_char d) = Some d.
Proof.
  intros H. assert (Forall (fun d => digit (digit_char d) = Some d) (seqZ 0 10)) as HF by repeat constructor.
  apply (proj1 (list.Forall_forall _ _) HF). apply elem_of_seqZ. lia.
Qed.

Lemma digits_print fuel : forall n s, (0 < fuel)%nat -> 0 <= n < 10 ^ Z.of_nat fuel ->
  exists k, 0 <= k /\ forall a, digits a (print_digits fuel n s) = digits (Some (default 0 a * 10 ^ k + n)) s.
Proof.
  induction fuel as [|fuel IH]; intros n s Hf Hn; [lia|]. cbn [print_digits].
  rewrite Nat2Z.inj_succ, Z.pow_succ_r in Hn by lia.
  pose proof (Z.mod_pos_bound n 10 ltac:(lia)). pose proof (Z.div_mod n 10 ltac:(lia)) as Hdm.
  destruct (Z.ltb_spec n 10).
  - exists 1. split; [lia|]. intros a. cbn [digits]. rewrite digit_char_digit by lia.
    rewrite Z.mod_small by lia. by rewrite Z.pow_1_r.
  - destruct fuel as [|fuel]; [cbn in Hn; lia|].
    destruct (IH (n / 10) (String (digit_char (n mod 10)) s)) as (k & Hk & HI); [lia| |].
    { split; [apply Z.div_pos; lia|]. apply Z.div_lt_upper_bound; [lia|exact (proj2 Hn)]. }
    exists (k + 1). split; [lia|]. intros a. rewrite HI. cbn [digits]. rewrite digit_char_digit by lia.
    f_equal. unfold default. rewrite Z.pow_add_r, Z.pow_1_r, Z.mul_assoc by lia. f_equal. unfold id. lia.
Qed.

Lemma digits_print_lu n : 0 <= n < 2 ^ 64 -> digits None (print_lu n) = Some n.
Proof.
  intros Hn. destruct (digits_print 20 n "" ltac:(lia)) as (k & _ & ->); [cbn; lia|]. done.
Qed.

(** Only digits are printed, and at least one. *)
Fixpoint all_chars (p : ascii -> bool) (s : string) : bool :=
  match s with "" => true | String c s => p c && all_chars p s end.

Definition is_digit (c : ascii) : bool := match digit c with Some _ => true | None => false end.

Lemma print_digits_chars fuel : forall n s, 0 <= n -> all_chars is_digit s = true ->
  all_chars is_digit (print_digits fuel n s) = true.
Proof.
  induction fuel as [|fuel IH]; intros n s Hn Hs; [done|]. cbn [print_digits].
  pose proof (Z.mod_pos_bound n 10 ltac:(lia)).
  assert (all_chars is_digit (String (digit_char (n mod 10)) s) = true) as Hs'.
  { cbn. unfold is_digit. by rewrite digit_char_digit by lia. }
  destruct (n <? 10); [done|]. apply IH; [apply Z.div_pos; lia|done].
Qed.

Lemma print_lu_chars n : 0 <= n -> all_chars is_digit (print_lu n) = true.
Proof. intros. by apply print_digits_chars. Qed.

(** A token without the separator is kept whole by the tokeniser. *)
Lemma split_on_single c s : all_chars (fun b => negb (Ascii.eqb b c)) s = true -> split_on c s = [s].
Proof.
  induction s as [|b s IH]; [done|]. cbn. intros [->%negb_true_iff H]%andb_true_iff. by rewrite IH.
Qed.

Lemma split_on_app c s t : all_chars (fun b => negb (Ascii.eqb b c)) s = true ->
  split_on c (s ++ String c t) = s :: split_on c t.
Proof.
  induction s as [|b s IH].
  - intros _. change (split_on c (String c t) = "" :: split_on c t). cbn [split_on]. by rewrite Ascii.eqb_refl.
  - cbn [all_chars]. intros [Hb%negb_true_iff H]%andb_true_iff.
    change (split_on c (String b (s ++ String c t)) = String b s :: split_on c t). cbn [split_on].
    by rewrite Hb, IH.
Qed.

Lemma all_chars_impl (p q : ascii -> bool) s : (forall c, p c = true -> q c = true) ->
  all_chars p s = true -> all_chars q s = true.
Proof. intros Hpq. induction s as [|b s IH]; cbn; [done|]. rewrite !andb_true_iff. naive_solver. Qed.

Lemma digit_not_space c : is_digit c = true -> negb (Ascii.eqb c " ") = true.
Proof. by destruct (Ascii.eqb_spec c " ") as [->|]. Qed.

Lemma print_lu_no_space n : 0 <= n -> all_chars (fun b => negb (Ascii.eqb b " ")) (print_lu n) = true.
Proof. intros. eapply all_chars_impl; [apply digit_not_space|by apply print_lu_chars]. Qed.

Lemma print_d_no_space n : all_chars (fun b => negb (Ascii.eqb b " ")) (print_d n) = true.
Proof. unfold print_d. destruct (Z.ltb_spec n 0); cbn; apply print_lu_no_space; lia. Qed.

(** A string that starts with a digit has neither space nor sign in front. *)
Lemma strto_digits s v : all_chars is_digit s = true -> digits None s = Some v -> strto s = Some (false, v).
Proof.
  destruct s as [|c s]; [done|]. cbn [all_chars]. intros [Hc _]%andb_true_iff Hd.
  enough (strto (String c s) = pair false <$> digits None (String c s)) as -> by by rewrite Hd.
  clear Hd. unfold strto. destruct c as [[] [] [] [] [] [] [] []]; try discriminate Hc; reflexivity.
Qed.

Lemma strto_print_lu n : 0 <= n < 2 ^ 64 -> strto (print_lu n) = Some (false, n).
Proof. intros. apply strto_digits; [apply print_lu_chars; lia|by apply digits_print_lu]. Qed.

Lemma stoull_print n : 0 <= n < 2 ^ 64 -> stoull (print_lu n) = Ok n.
Proof.
  intros. unfold stoull. rewrite strto_print_lu by done. unfold SIZE_MAX.
  rewrite (proj2 (Z.leb_le _ _)) by lia. by rewrite u64_small by lia.
Qed.

Lemma stoll_print n : 0 <= n < 2 ^ 64 ->
  stoll (print_lu n) = if n <? 2 ^ 63 then Ok n else Err (Exc "out_of_range").
Proof.
  intros. unfold stoll, sto_signed. rewrite strto_print_lu by done.
  by rewrite (proj2 (Z.leb_le _ _)) by lia.
Qed.

Lemma stoi_print n : - 2 ^ 31 <= n < 2 ^ 31 -> stoi (print_d n) = Ok n.
Proof.
  intros. unfold stoi, sto_signed, print_d. destruct (Z.ltb_spec n 0).
  - change (strto (String "-" (print_lu (- n)))) with (pair true <$> digits None (print_lu (- n))).
    rewrite digits_print_lu by lia. cbn [fmap option_fmap option_map].
    rewrite Z.opp_involutive. change (32 - 1) with 31.
    by rewrite (proj2 (Z.leb_le _ _)), (proj2 (Z.ltb_lt _ _)) by lia.
  - rewrite strto_print_lu by lia. change (32 - 1) with 31.
    by rewrite (proj2 (Z.leb_le _ _)), (proj2 (Z.ltb_lt _ _)) by lia.
Qed.
