(* ===== verification/SniperDram.v ===== *)
(** * The DRAM performance models of Sniper

    Models [snipersim/common/performance_model/dram_perf_model*.cc]: the latency of an
    access is the delay of a queue model, the transfer over the data bus and the
    access cost of the device.  They implement the class [DramPerfModel] the DRAM
    controller calls.  The theorem shows what a controller with constant cost and the
    history list promises, the models [config/base.cfg] chooses. *)
From Stdlib Require Import String.
From S2P Require Import Prelude CxxFloat Utils SniperQueue SniperQueueFacts SniperTrace.
Local Open Scope string_scope.
Local Open Scope Z_scope.

(** ** Bandwidth and access cost *)

(** [ComponentBandwidth]: bits per microsecond, from bits per nanosecond. *)
Definition new_bandwidth (bw_in_bits_per_ns : spec_float) : res Z :=
  fto_u64 (F32.mul bw_in_bits_per_ns (F32.mul (F32.of_Z 1) (F32.of_Z 1000))).

Definition getRoundedLatency (bw_in_bits_per_us bits : Z) : res Z :=
  tdiv (tadd (tmul US_1 bits) (US_1 / 2)) bw_in_bits_per_us.

(** [SubsecondTime::FS() * uint64_t(NStoFS(ns))], in [float]. *)
Definition ns_cost (ns : spec_float) : res Z :=
  fto_u64 (F32.mul (F32.mul ns (F32.of_Z 1000)) (F32.of_Z 1000)).

(** The settings of [perf_model/dram]; the bandwidth is in bits per nanosecond. *)
Record DramConfig : Type := mkDramConfig {
  cfg_bandwidth : spec_float;
  cfg_latency : spec_float;
  cfg_deviation : spec_float;
  cfg_queue_enabled : bool;
  cfg_queue_type : string;
  cfg_shared : bool;
  cfg_queue : QueueConfig;
  application_cores : Z;
}.

Definition create_queue (c : DramConfig) (bandwidth cache_block_size : Z) : res (option QueueModel) :=
  if cfg_queue_enabled c then
    min ← getRoundedLatency bandwidth (u32 (8 * cache_block_size));
    q ← create (cfg_queue c) (cfg_queue_type c) min; Ok (Some q)
  else Ok None.

Section Models.
(** The time of the barrier when access number [n] is simulated. *)
Context `{!Pow} (getGlobalTime : Z -> Z).

(** The delay of the queue model, if there is one. *)
Definition queue_delay (n pkt_time processing_time : Z) (q : option QueueModel) : res (Z * option QueueModel) :=
  match q with
  | Some q => '(d, q) ← computeQueueDelay (getGlobalTime n) pkt_time processing_time q; Ok (d, Some q)
  | None => Ok (0, None)
  end.

(** Queue, bus and device, one after the other. *)
Definition account (pkt_time delay processing_time cost : Z) (perf : ShmemPerf.t) : ShmemPerf.t :=
  let t1 := tadd pkt_time delay in
  let t2 := tadd t1 processing_time in
  let t3 := tadd t2 cost in
  ShmemPerf.updateTime t3 ShmemPerf.DRAM_DEVICE
    (ShmemPerf.updateTime t2 ShmemPerf.DRAM_BUS
      (ShmemPerf.updateTime t1 ShmemPerf.DRAM_QUEUE
        (ShmemPerf.updateTime pkt_time ShmemPerf.UNKNOWN perf))).
End Models.

(** ** [DramPerfModelConstant] *)
Module Constant.
Record State : Type := mkState {
  cfg : DramConfig;
  m_enabled : bool;
  m_num_accesses : Z;
  m_queue_model : option QueueModel;
  m_dram_bandwidth : Z;
  m_dram_access_cost : Z;
  m_total_queueing_delay : Z;
  m_total_access_latency : Z;
}.

Definition new (c : DramConfig) (cache_block_size : Z) : res State :=
  bandwidth ← new_bandwidth (cfg_bandwidth c);
  cost ← ns_cost (cfg_latency c);
  q ← create_queue c bandwidth cache_block_size;
  Ok (mkState c false 0 q bandwidth cost 0 0).

Definition set_enabled (b : bool) (s : State) : State :=
  mkState (cfg s) b (m_num_accesses s) (m_queue_model s) (m_dram_bandwidth s) (m_dram_access_cost s)
    (m_total_queueing_delay s) (m_total_access_latency s).
Definition enable := set_enabled true.
Definition disable := set_enabled false.

Definition count (delay latency : Z) (q : option QueueModel) (s : State) : State :=
  mkState (cfg s) (m_enabled s) (u64 (m_num_accesses s + 1)) q (m_dram_bandwidth s) (m_dram_access_cost s)
    (tadd (m_total_queueing_delay s) delay) (tadd (m_total_access_latency s) latency).

Definition getAccessLatency `{!Pow} (getGlobalTime : Z -> Z) (pkt_time pkt_size requester address : Z)
    (a : access_t) (perf : ShmemPerf.t) (s : State) : res (Z * ShmemPerf.t * State) :=
  if negb (m_enabled s) || (application_cores (cfg s) <=? requester) then Ok (0, perf, s)
  else
    processing_time ← getRoundedLatency (m_dram_bandwidth s) (8 * pkt_size);
    '(delay, q) ← queue_delay getGlobalTime (m_num_accesses s) pkt_time processing_time (m_queue_model s);
    let access_latency := tadd (tadd delay processing_time) (m_dram_access_cost s) in
    Ok (access_latency, account pkt_time delay processing_time (m_dram_access_cost s) perf,
        count delay access_latency q s).

Definition model `{!Pow} (getGlobalTime : Z -> Z) : DramPerfModel :=
  {| perf_state := State; SniperTrace.getAccessLatency := getAccessLatency getGlobalTime |}.
End Constant.

(** ** [DramPerfModelReadWrite]: reads wait for reads only *)
Module ReadWrite.
Record State : Type := mkState {
  cfg : DramConfig;
  m_enabled : bool;
  m_num_accesses : Z;
  m_queue_model_read : option QueueModel;
  m_queue_model_write : option QueueModel;
  m_dram_bandwidth : Z;
  m_dram_access_cost : Z;
  m_shared_readwrite : bool;
  m_total_read_queueing_delay : Z;
  m_total_write_queueing_delay : Z;
  m_total_access_latency : Z;
}.

Definition new (c : DramConfig) (cache_block_size : Z) : res State :=
  bandwidth ← new_bandwidth (cfg_bandwidth c);
  cost ← ns_cost (cfg_latency c);
  qr ← create_queue c bandwidth cache_block_size;
  qw ← create_queue c bandwidth cache_block_size;
  Ok (mkState c false 0 qr qw bandwidth cost (cfg_shared c) 0 0 0).

Definition set_enabled (b : bool) (s : State) : State :=
  mkState (cfg s) b (m_num_accesses s) (m_queue_model_read s) (m_queue_model_write s) (m_dram_bandwidth s)
    (m_dram_access_cost s) (m_shared_readwrite s) (m_total_read_queueing_delay s)
    (m_total_write_queueing_delay s) (m_total_access_latency s).

Definition count (a : access_t) (delay latency : Z) (qr qw : option QueueModel) (s : State) : State :=
  mkState (cfg s) (m_enabled s) (u64 (m_num_accesses s + 1)) qr qw (m_dram_bandwidth s) (m_dram_access_cost s)
    (m_shared_readwrite s)
    (match a with READ => tadd (m_total_read_queueing_delay s) delay | WRITE => m_total_read_queueing_delay s end)
    (match a with READ => m_total_write_queueing_delay s | WRITE => tadd (m_total_write_queueing_delay s) delay end)
    (tadd (m_total_access_latency s) latency).

(** A read takes the write bus too when they share it; its delay there is not used. *)
Definition queues `{!Pow} (getGlobalTime : Z -> Z) (pkt_time processing_time : Z) (a : access_t) (s : State)
    : res (Z * option QueueModel * option QueueModel) :=
  let delay := queue_delay getGlobalTime (m_num_accesses s) pkt_time processing_time in
  match m_queue_model_read s, a with
  | None, _ => Ok (0, None, m_queue_model_write s)
  | Some _, READ =>
      '(d, qr) ← delay (m_queue_model_read s);
      qw ← (if m_shared_readwrite s then '(_, qw) ← delay (m_queue_model_write s); Ok qw
            else Ok (m_queue_model_write s));
      Ok (d, qr, qw)
  | Some _, WRITE =>
      '(d, qw) ← delay (m_queue_model_write s); Ok (d, m_queue_model_read s, qw)
  end.

Definition getAccessLatency `{!Pow} (getGlobalTime : Z -> Z) (pkt_time pkt_size requester address : Z)
    (a : access_t) (perf : ShmemPerf.t) (s : State) : res (Z * ShmemPerf.t * State) :=
  if negb (m_enabled s) || (application_cores (cfg s) <=? requester) then Ok (0, perf, s)
  else
    processing_time ← getRoundedLatency (m_dram_bandwidth s) (8 * pkt_size);
    '(delay, qr, qw) ← queues getGlobalTime pkt_time processing_time a s;
    let access_latency := tadd (tadd delay processing_time) (m_dram_access_cost s) in
    Ok (access_latency, account pkt_time delay processing_time (m_dram_access_cost s) perf,
        count a delay access_latency qr qw s).

Definition model `{!Pow} (getGlobalTime : Z -> Z) : DramPerfModel :=
  {| perf_state := State; SniperTrace.getAccessLatency := getAccessLatency getGlobalTime |}.
End ReadWrite.

(** ** [DramPerfModelNormal]: the access cost is drawn *)
Class TimeDistribution : Type := {
  dist_state : Type;
  dist_new : Z -> Z -> dist_state;
  dist_next : dist_state -> Z * dist_state;
}.

Module Normal.
Section Normal.
Context `{TD : TimeDistribution}.

Record State : Type := mkState {
  cfg : DramConfig;
  m_enabled : bool;
  m_num_accesses : Z;
  m_queue_model : option QueueModel;
  m_dram_bandwidth : Z;
  m_dram_access_cost : dist_state;
  m_total_queueing_delay : Z;
  m_total_access_latency : Z;
}.

Definition new (c : DramConfig) (cache_block_size : Z) : res State :=
  bandwidth ← new_bandwidth (cfg_bandwidth c);
  latency ← ns_cost (cfg_latency c);
  deviation ← ns_cost (cfg_deviation c);
  q ← create_queue c bandwidth cache_block_size;
  Ok (mkState c false 0 q bandwidth (dist_new latency deviation) 0 0).

Definition set_enabled (b : bool) (s : State) : State :=
  mkState (cfg s) b (m_num_accesses s) (m_queue_model s) (m_dram_bandwidth s) (m_dram_access_cost s)
    (m_total_queueing_delay s) (m_total_access_latency s).

Definition count (delay latency : Z) (q : option QueueModel) (d : dist_state) (s : State) : State :=
  mkState (cfg s) (m_enabled s) (u64 (m_num_accesses s + 1)) q (m_dram_bandwidth s) d
    (tadd (m_total_queueing_delay s) delay) (tadd (m_total_access_latency s) latency).

Definition getAccessLatency `{!Pow} (getGlobalTime : Z -> Z) (pkt_time pkt_size requester address : Z)
    (a : access_t) (perf : ShmemPerf.t) (s : State) : res (Z * ShmemPerf.t * State) :=
  if negb (m_enabled s) || (application_cores (cfg s) <=? requester) then Ok (0, perf, s)
  else
    processing_time ← getRoundedLatency (m_dram_bandwidth s) (8 * pkt_size);
    '(delay, q) ← queue_delay getGlobalTime (m_num_accesses s) pkt_time processing_time (m_queue_model s);
    let '(dram_access_cost, d) := dist_next (m_dram_access_cost s) in
    let access_latency := tadd (tadd delay processing_time) dram_access_cost in
    Ok (access_latency, account pkt_time delay processing_time dram_access_cost perf,
        count delay access_latency q d s).

Definition model `{!Pow} (getGlobalTime : Z -> Z) : DramPerfModel :=
  {| perf_state := State; SniperTrace.getAccessLatency := getAccessLatency getGlobalTime |}.
End Normal.
End Normal.

(** ** [DramPerfModel::createDramPerfModel] *)
Inductive AnyModel `{TD : TimeDistribution} : Type :=
| AnyConstant (s : Constant.State)
| AnyReadWrite (s : ReadWrite.State)
| AnyNormal (s : Normal.State).

Definition createDramPerfModel `{TD : TimeDistribution} (type : string) (c : DramConfig) (cache_block_size : Z)
    : res AnyModel :=
  if String.eqb type "constant" then s ← Constant.new c cache_block_size; Ok (AnyConstant s)
  else if String.eqb type "readwrite" then s ← ReadWrite.new c cache_block_size; Ok (AnyReadWrite s)
  else if String.eqb type "normal" then s ← Normal.new c cache_block_size; Ok (AnyNormal s)
  else Err (Exit (-1)).

Definition any_latency `{TD : TimeDistribution} `{!Pow} (getGlobalTime : Z -> Z)
    (pkt_time pkt_size requester address : Z) (a : access_t) (perf : ShmemPerf.t) (m : AnyModel)
    : res (Z * ShmemPerf.t * AnyModel) :=
  match m with
  | AnyConstant s =>
      '(l, perf, s) ← Constant.getAccessLatency getGlobalTime pkt_time pkt_size requester address a perf s;
      Ok (l, perf, AnyConstant s)
  | AnyReadWrite s =>
      '(l, perf, s) ← ReadWrite.getAccessLatency getGlobalTime pkt_time pkt_size requester address a perf s;
      Ok (l, perf, AnyReadWrite s)
  | AnyNormal s =>
      '(l, perf, s) ← Normal.getAccessLatency getGlobalTime pkt_time pkt_size requester address a perf s;
      Ok (l, perf, AnyNormal s)
  end.

(** ** The controller with the default model *)
Section Bus.
Context `{!Pow} (getGlobalTime : Z -> Z) (c : DramConfig) (block : Z).
#[local] Existing Instance Constant.model | 100.
Notation M := (Constant.model getGlobalTime).
Notation Cntlr := (DramCntlr.State (P := M)).

Definition perf (s : Cntlr) : Constant.State := DramCntlr.m_dram_perf_model s.

(** The history list behind the controller. *)
Definition history (s : Cntlr) : option History.State :=
  match Constant.m_queue_model (perf s) with Some (QHistory h) => Some h | _ => None end.

(** The controller at the start of the region of interest, without fault injection. *)
Definition start (m : Constant.State) : Cntlr := DramCntlr.new (P := M) block false None (Constant.enable m).

Definition max_list : Z := history_max_list_size (cfg_queue c).
Definition analytical : bool := history_analytical_model_enabled (cfg_queue c).

(** The states after [n] accesses of application cores that come by [horizon], with the
    times the data bus was given to an access, for those the list records.  The trace
    file is shared with other controllers, so it is any file before each access. *)
Inductive bus_run (m : Constant.State) (horizon : Z) : nat -> Cntlr -> list Served -> Prop :=
| bus_start : bus_run m horizon 0 (start m) []
| bus_step n s log x f latency s' f' h transfer :
    bus_run m horizon n s log -> 0 <= DramCntlr.now x <= horizon -> DramCntlr.requester x < application_cores c ->
    history s = Some h -> getRoundedLatency (Constant.m_dram_bandwidth m) (8 * block) = Ok transfer ->
    DramCntlr.access (P := M) x s f = Ok (latency, s', f') ->
    bus_run m horizon (S n) s'
      (if old_packet (DramCntlr.now x) transfer h then log
       else mkServed (DramCntlr.now x) transfer
              (tsub latency (tadd transfer (Constant.m_dram_access_cost m))) :: log).

Context (m : Constant.State) (transfer horizon : Z).
Hypothesis Hnew : Constant.new c block = Ok m.
Hypothesis Hqueue : cfg_queue_enabled c = true /\ cfg_queue_type c = "history_list".
Hypothesis Hblock : 0 <= 8 * block < 2 ^ 32.
Hypothesis Htransfer : getRoundedLatency (Constant.m_dram_bandwidth m) (8 * block) = Ok transfer.

Record bus_inv (n : nat) (s : Cntlr) (log : list Served) : Prop := {
  bi_block : DramCntlr.block_size s = block;
  bi_fault : DramCntlr.fault_manager s = false;
  bi_cfg : Constant.cfg (perf s) = c;
  bi_enabled : Constant.m_enabled (perf s) = true;
  bi_bandwidth : Constant.m_dram_bandwidth (perf s) = Constant.m_dram_bandwidth m;
  bi_cost : Constant.m_dram_access_cost (perf s) = Constant.m_dram_access_cost m;
  bi_run : exists h, Constant.m_queue_model (perf s) = Some (QHistory h) /\
             h_run analytical max_list transfer horizon n h log;
}.

Lemma bus_inv_start : bus_inv 0 (start m) [].
Proof.
  destruct Hqueue as [Hq Ht]. pose proof Hnew as Hn. unfold Constant.new, create_queue in Hn. rewrite Hq, Ht in Hn.
  apply bind_Ok in Hn as (bw & Hbw & Hn). apply bind_Ok in Hn as (cost & Hcost & Hn).
  apply bind_Ok in Hn as (q & Hq' & Hn). injection Hn as Hn.
  apply bind_Ok in Hq' as (min & Hmin & Hq'). unfold u32 in Hmin. rewrite Z.mod_small in Hmin by done.
  pose proof Htransfer as Htr. rewrite <- Hn in Htr. cbn in Htr. rewrite Hmin in Htr. injection Htr as ->.
  cbn in Hq'. injection Hq' as <-. split; cbn; try done; rewrite <- Hn; try done.
  eexists. split; [reflexivity|]. constructor.
Qed.

(** One access of an application core is one request to the history list. *)
Lemma access_eval n s log x f h d h' : bus_inv n s log -> DramCntlr.requester x < application_cores c ->
  Constant.m_queue_model (perf s) = Some (QHistory h) ->
  History.computeQueueDelay (DramCntlr.now x) transfer h = Ok (d, h') ->
  exists s', DramCntlr.access (P := M) x s f =
      Ok (tadd (tadd d transfer) (Constant.m_dram_access_cost m), s',
          DramCntlr.record (DramCntlr.kind x) (DramCntlr.now x) (DramCntlr.address x) (DramCntlr.requester x) f) /\
    DramCntlr.block_size s' = block /\ DramCntlr.fault_manager s' = false /\
    perf s' = Constant.count d (tadd (tadd d transfer) (Constant.m_dram_access_cost m)) (Some (QHistory h')) (perf s).
Proof.
  intros [Hb Hf Hc He Hbw Hcost _] Hreq Hq Hd.
  assert (forall a p, Constant.getAccessLatency getGlobalTime (DramCntlr.now x) block (DramCntlr.requester x)
    (DramCntlr.address x) a p (perf s) = Ok (tadd (tadd d transfer) (Constant.m_dram_access_cost m),
      account (DramCntlr.now x) d transfer (Constant.m_dram_access_cost m) p,
      Constant.count d (tadd (tadd d transfer) (Constant.m_dram_access_cost m)) (Some (QHistory h')) (perf s))) as HL.
  { intros a p. unfold Constant.getAccessLatency. rewrite He, Hc. cbn [negb orb].
    rewrite (proj2 (Z.leb_gt _ _)) by done. rewrite Hbw, Htransfer. cbn [mbind res_bind]. unfold queue_delay.
    rewrite Hq. cbn [computeQueueDelay]. rewrite Hd. cbn [mbind res_bind]. by rewrite Hcost. }
  unfold DramCntlr.access, DramCntlr.getDataFromDram, DramCntlr.putDataToDram, DramCntlr.runDramPerfModel.
  rewrite Hf. destruct (DramCntlr.kind x); cbn [mbind res_bind]; rewrite Hb;
    cbn [SniperTrace.getAccessLatency Constant.model]; fold (perf s); rewrite HL; cbn [mbind res_bind];
    eexists; (split; [reflexivity|]); cbn; rewrite ?Hf; done.
Qed.

Lemma delay_recovered d t k : 0 <= d < 2 ^ 64 -> tsub (tadd (tadd d t) k) (tadd t k) = d.
Proof.
  intros Hd. unfold tsub, tadd, u64. rewrite Zplus_mod_idemp_l, Zminus_mod_idemp_l, Zminus_mod_idemp_r.
  replace (d + t + k - (t + k)) with d by lia. by apply Z.mod_small.
Qed.

Hypothesis Hlist : 1 <= max_list < 2 ^ 32 - 1.
Hypothesis Hpos : 0 < transfer.
Hypothesis Hhor : 0 <= horizon.

(** What the history list answers to the next access. *)
Lemma bus_delay n h log now : h_run analytical max_list transfer horizon n h log ->
  0 <= now <= horizon -> horizon + (Z.of_nat n + 2) * transfer <= History.max_simulation_time ->
  exists d h', History.computeQueueDelay now transfer h = Ok (d, h') /\ 0 <= d < 2 ^ 64 /\
    (if old_packet now transfer h then
       log <> [] /\ d = u64 (total (last_delays max_list log)) / Z.of_nat (length (last_delays max_list log))
     else exists l', first_fit (History.m_free_interval_list h) now transfer d l').
Proof.
  intros Hr Hnow Hroom. assert (0 <= Z.of_nat n * transfer) by (apply Z.mul_nonneg_nonneg; lia).
  pose proof (h_run_inv analytical max_list transfer horizon Hlist ltac:(lia) Hhor n h log Hr ltac:(lia)) as Hi.
  destruct (h_step_spec analytical max_list transfer horizon Hlist ltac:(lia) n h log now transfer Hi Hnow
    ltac:(lia) ltac:(lia)) as (d & h' & Hd & Hout & _).
  exists d, h'. split; [done|]. split; [|done]. destruct (old_packet now transfer h).
  - destruct Hout as [Hlog ->]. pose proof (u64_range (total (last_delays max_list log))).
    assert (0 < Z.of_nat (length (last_delays max_list log))).
    { unfold last_delays. rewrite length_reverse, length_take, length_fmap. destruct log; [done|]. cbn. lia. }
    split; [apply Z.div_pos; lia|]. apply Z.div_lt_upper_bound; nia.
  - destruct Hout as [l' [Hd0 (a & b & Hin & Hab) _ _ _]].
    destruct (free_ok_elem transfer 0 _ _ _ ltac:(lia) (hi_free _ _ _ _ _ _ _ Hi) Hin) as (_ & _ & ?).
    unfold History.max_simulation_time in *. lia.
Qed.

Lemma bus_run_inv n s log : bus_run m horizon n s log ->
  horizon + (Z.of_nat n + 1) * transfer <= History.max_simulation_time -> bus_inv n s log.
Proof.
  induction 1 as [|n s log x f latency s' f' h t Hr IH Hnow Hreq Hh Ht Ha]; [intros; apply bus_inv_start|]. intros Hroom.
  specialize (IH ltac:(lia)). rewrite Htransfer in Ht. injection Ht as <-.
  destruct (bi_run _ _ _ IH) as (h0 & Hq & Hrun). unfold history in Hh. rewrite Hq in Hh. injection Hh as ->.
  destruct (bus_delay n h log _ Hrun Hnow ltac:(lia)) as (d & h' & Hd & Hrange & _).
  destruct (access_eval n s log x f h d h' IH Hreq Hq Hd) as (s'' & Ha' & Hb & Hf & Hp).
  rewrite Ha in Ha'. injection Ha' as -> -> ->. rewrite delay_recovered by done.
  destruct IH as [_ _ Hc He Hbw Hcost _]. split; try done; rewrite ?Hp; try done.
  exists h'. split; [done|]. by econstructor.
Qed.
End Bus.


(** [config/base.cfg]: 5 GB/s, 100 ns, history list of 100 intervals. *)
Definition base_config : DramConfig :=
  mkDramConfig (F32.of_Z 40) (F32.of_Z 100) (F32.of_Z 0) true "history_list" false
    (mkQueueConfig true 1024 "arithmetic_mean" true 100 1000 376) 4.

Definition base_model : Constant.State :=
  from_res (Constant.mkState base_config false 0 None 0 0 0 0) (Constant.new base_config 64).

Definition base_access (now address requester : Z) : DramCntlr.Access :=
  DramCntlr.mkAccess READ now address requester [] ShmemPerf.new.

Definition base_cntlr : DramCntlr.State (P := Constant.model (fun _ => 0)) := start (fun _ => 0) 64 base_model.
Definition base_read (now address requester : Z) (s : DramCntlr.State (P := Constant.model (fun _ => 0))) :=
  DramCntlr.access (P := Constant.model (fun _ => 0)) (base_access now address requester) s (DramCntlr.fopen true).
Definition after_read : DramCntlr.State (P := Constant.model (fun _ => 0)) :=
  (from_res (0, base_cntlr, None) (base_read 1000000 4096 0 base_cntlr)).1.2.

Lemma base_read_ok : base_read 1000000 4096 0 base_cntlr = Ok (112812500, after_read, Some ["1 R 4096 0"]).
Proof.
  rewrite (from_res_Ok (0, base_cntlr, None) (base_read 1000000 4096 0 base_cntlr)) by (vm_compute; reflexivity).
  unfold after_read. rewrite (surjective_pairing (from_res _ _)) at 1.
  rewrite (surjective_pairing (from_res _ _).1) at 1. do 3 f_equal.
Qed.

Definition after_history : History.State :=
  match history (fun _ => 0) after_read with Some h => h | None => History.new true 100 1 end.

