(* ===== verification/SniperCache.v ===== *)
(** * The caches of Sniper

    Models [snipersim/common/core/memory_subsystem/cache]: block infos, the address
    split ([cache_base.cc]), cache sets with their replacement policies
    ([cache_set*.cc]) and the cache ([cache.cc]); and [address_home_lookup.cc], which
    spreads the addresses over the memory controllers.  A replacement policy is an
    instance of the class [CachePolicy]; the set and the cache are generic in it. *)
From Stdlib Require Import String.
From S2P Require Import Prelude SniperQueue SniperTrace.
Local Open Scope string_scope.
Local Open Scope Z_scope.

Definition u8 (x : Z) : Z := x mod 2 ^ 8.

(** ** [floorLog2] of [misc/utils.cc] *)
Definition log2_step (mask shift : Z) (pn : Z * Z) : Z * Z :=
  if Z.land pn.2 mask =? 0 then pn else (pn.1 + shift, Z.shiftr pn.2 shift).

Definition floorLog2 (n : Z) : Z :=
  if n =? 0 then -1
  else
    let pn := log2_step 12 2 (log2_step 240 4 (log2_step 65280 8 (log2_step 4294901760 16 (0, n)))) in
    if Z.land pn.2 2 =? 0 then pn.1 else pn.1 + 1.

(** ** [rng.h]: the generator of [drand48] *)
Definition RNG_M : Z := 2 ^ 48 - 1.
Definition rng_seed (seed : Z) : Z := u64 (u64 (Z.shiftl seed 16) + 13070).
Definition rng_next_state (state : Z) : Z := Z.land (u64 (25214903917 * state + 11)) RNG_M.
Definition rng_out (state : Z) : Z := Z.shiftr state 16.

(** ** [AddressHomeLookup] *)
Module Ahl.
Record t : Type := mk {
  m_ahl_param : Z;
  m_core_list : list Z;
}.

(** The check shifts an [int]. *)
Definition new (ahl_param : Z) (core_list : list Z) (cache_block_size : Z) : res t :=
  if 32 <=? ahl_param then Err Undef
  else _ ← log_assert (i32 cache_block_size <=? i32 (Z.shiftl 1 ahl_param)); Ok (mk ahl_param core_list).

Definition m_total_modules (a : t) : Z := Z.of_nat (List.length (m_core_list a)).
Definition m_ahl_mask (a : t) : Z := Z.shiftl 1 (m_ahl_param a) - 1.

Definition module_num (a : t) (address : Z) : res Z :=
  if m_total_modules a =? 0 then Err Undef
  else Ok (Z.shiftr address (m_ahl_param a) mod m_total_modules a).

Definition getHome (a : t) (address : Z) : res Z := n ← module_num a address; vget (m_core_list a) n.

Definition getLinearBlock (a : t) (address : Z) : res Z :=
  if m_total_modules a =? 0 then Err Undef
  else Ok (Z.shiftr address (m_ahl_param a) / m_total_modules a).

Definition getLinearAddress (a : t) (address : Z) : res Z :=
  b ← getLinearBlock a address;
  Ok (Z.lor (u64 (Z.shiftl b (m_ahl_param a))) (Z.land address (m_ahl_mask a))).
End Ahl.

(** ** [CacheBase]: tags and set indices *)
Inductive hash_t : Type :=
| HASH_MASK | HASH_MOD | HASH_RNG1_MOD | HASH_RNG2_MOD | HASH_PRIME_DIS | HASH_XOR_MOD | HASH_MER_MOD.

Definition parseAddressHash (s : string) : res hash_t :=
  if String.eqb s "mask" then Ok HASH_MASK
  else if String.eqb s "mod" then Ok HASH_MOD
  else if String.eqb s "rng1_mod" then Ok HASH_RNG1_MOD
  else if String.eqb s "rng2_mod" then Ok HASH_RNG2_MOD
  else if String.eqb s "prime_dis" then Ok HASH_PRIME_DIS
  else if String.eqb s "xor_mod" then Ok HASH_XOR_MOD
  else if String.eqb s "mersenne_mod" then Ok HASH_MER_MOD
  else Err (Exit (-1)).

Record CacheBase : Type := mkBase {
  m_associativity : Z;
  m_blocksize : Z;
  m_hash : hash_t;
  m_num_sets : Z;
  m_ahl : option Ahl.t;
  m_log_blocksize : Z;
  m_log_num_sets : Z;
}.

Definition hash_eqb_mask (h : hash_t) : bool := match h with HASH_MASK => true | _ => false end.

Definition new_base (num_sets associativity cache_block_size : Z) (hash : hash_t) (ahl : option Ahl.t) : res CacheBase :=
  _ ← log_assert ((num_sets =? Z.shiftl 1 (floorLog2 num_sets)) || negb (hash_eqb_mask hash));
  Ok (mkBase associativity cache_block_size hash num_sets ahl (floorLog2 cache_block_size) (floorLog2 num_sets)).

Definition umod (x n : Z) : res Z := if n =? 0 then Err Undef else Ok (x mod n).

Definition set_index (b : CacheBase) (block_num : Z) : res Z :=
  let n := m_num_sets b in
  match m_hash b with
  | HASH_MASK => Ok (Z.land block_num (u32 (n - 1)))
  | HASH_MOD => umod block_num n
  | HASH_RNG1_MOD => umod (rng_out (rng_next_state (rng_seed block_num))) n
  | HASH_RNG2_MOD => umod (rng_out (rng_next_state (rng_next_state (rng_seed block_num)))) n
  | HASH_PRIME_DIS =>
      si ← umod block_num n; umod (u64 (u64 (3 * Z.shiftr block_num (m_log_num_sets b)) + si)) n
  | HASH_XOR_MOD =>
      si ← umod block_num n; ti ← umod (Z.shiftr block_num (m_log_num_sets b)) n; Ok (Z.lxor si ti)
  | HASH_MER_MOD => umod block_num (u32 (n - 1))
  end.

(** The tag and the set of an address. *)
Definition splitAddress (b : CacheBase) (addr : Z) : res (Z * Z) :=
  linear ← (match m_ahl b with Some a => Ahl.getLinearAddress a addr | None => Ok addr end);
  i ← set_index b (Z.shiftr linear (m_log_blocksize b));
  Ok (Z.shiftr addr (m_log_blocksize b), i).

Definition block_offset (b : CacheBase) (addr : Z) : Z := Z.land addr (u32 (m_blocksize b - 1)).
Definition tagToAddress (b : CacheBase) (tag : Z) : Z := u64 (Z.shiftl tag (m_log_blocksize b)).

(** ** [CacheBlockInfo] *)
Inductive cstate_t : Type := INVALID | SHARED | SHARED_UPGRADING | EXCLUSIVE | OWNED | MODIFIED.

Definition readable (c : cstate_t) : bool :=
  match c with MODIFIED | OWNED | SHARED | EXCLUSIVE => true | _ => false end.
Definition writable (c : cstate_t) : bool := match c with MODIFIED => true | _ => false end.

Definition no_tag : Z := 2 ^ 64 - 1.

Record CacheBlockInfo : Type := mkInfo {
  m_tag : Z;
  m_cstate : cstate_t;
  m_owner : Z;
  m_used : Z;
  m_options : Z;
}.

Definition new_info : CacheBlockInfo := mkInfo no_tag INVALID 0 0 0.
Definition isValid (b : CacheBlockInfo) : bool := negb (m_tag b =? no_tag).
Definition invalidate_info (b : CacheBlockInfo) : CacheBlockInfo :=
  mkInfo no_tag INVALID (m_owner b) (m_used b) (m_options b).
Definition setTag (tag : Z) (b : CacheBlockInfo) : CacheBlockInfo :=
  mkInfo tag (m_cstate b) (m_owner b) (m_used b) (m_options b).
Definition setCState (c : cstate_t) (b : CacheBlockInfo) : CacheBlockInfo :=
  mkInfo (m_tag b) c (m_owner b) (m_used b) (m_options b).
Definition setOwner (owner : Z) (b : CacheBlockInfo) : CacheBlockInfo :=
  mkInfo (m_tag b) (m_cstate b) owner (m_used b) (m_options b).

Inductive option_t : Type := PREFETCH | WARMUP.
Definition option_bit (o : option_t) : Z := match o with PREFETCH => 0 | WARMUP => 1 end.
Definition hasOption (o : option_t) (b : CacheBlockInfo) : bool := Z.testbit (m_options b) (option_bit o).
Definition setOption (o : option_t) (b : CacheBlockInfo) : CacheBlockInfo :=
  mkInfo (m_tag b) (m_cstate b) (m_owner b) (m_used b) (u8 (Z.lor (m_options b) (Z.shiftl 1 (option_bit o)))).
Definition clearOption (o : option_t) (b : CacheBlockInfo) : CacheBlockInfo :=
  mkInfo (m_tag b) (m_cstate b) (m_owner b) (m_used b) (u8 (Z.ldiff (m_options b) (Z.shiftl 1 (option_bit o)))).

(** [updateUsage]: one bit per eight bytes; true if a bit was not set before. *)
Definition update_used (used : Z) (b : CacheBlockInfo) : bool * CacheBlockInfo :=
  (negb (Z.ldiff used (m_used b) =? 0),
   mkInfo (m_tag b) (m_cstate b) (m_owner b) (Z.lor (m_used b) used) (m_options b)).

Definition usage_mask (offset size : Z) : res Z :=
  let first := Z.shiftr offset 3 in
  let last := Z.shiftr (u32 (offset + size - 1)) 3 in
  if (64 <=? first) || (64 <=? last + 1) then Err Undef
  else Ok (Z.ldiff (u64 (Z.shiftl 1 (last + 1) - 1)) (Z.shiftl 1 first - 1)).

Definition updateUsage (offset size : Z) (b : CacheBlockInfo) : res (bool * CacheBlockInfo) :=
  mask ← usage_mask offset size; Ok (update_used (u8 mask) b).

(** [CacheSet::isValidReplacement] *)
Definition valid_replacement (b : CacheBlockInfo) : bool :=
  match m_cstate b with SHARED_UPGRADING => false | _ => true end.
Definition isValidReplacement (blocks : list CacheBlockInfo) (i : Z) : res bool :=
  b ← vget blocks i; Ok (valid_replacement b).

(** The first line that holds no block. *)
Definition first_invalid (blocks : list CacheBlockInfo) : option Z :=
  match list_find (fun b => isValid b = false) blocks with Some (i, _) => Some (Z.of_nat i) | None => None end.

(** ** [CacheSetInfoLRU]: statistics that the sets of a cache share *)
Record SetInfo : Type := mkSetInfo {
  m_access : list Z;
  m_attempts : option (list Z);
}.

Definition new_set_info (associativity num_attempts : Z) : SetInfo :=
  mkSetInfo (replicate (Z.to_nat associativity) 0)
    (if 1 <? num_attempts then Some (replicate (Z.to_nat num_attempts) 0) else None).

Definition increment (index : Z) (s : SetInfo) : res SetInfo :=
  _ ← log_assert (index <? Z.of_nat (List.length (m_access s)));
  n ← vget (m_access s) index;
  l ← vset (m_access s) index (u64 (n + 1)); Ok (mkSetInfo l (m_attempts s)).

Definition incrementAttempt (attempt : Z) (s : SetInfo) : res SetInfo :=
  match m_attempts s with
  | Some l => n ← vget l attempt; l ← vset l attempt (u64 (n + 1)); Ok (mkSetInfo (m_access s) (Some l))
  | None => _ ← log_assert (attempt =? 0); Ok s
  end.

(** ** Replacement policies

    The class is what a set asks of its policy.  [pol_index] chooses the line to
    replace; [lower] is the controller's [isInLowerLevelCache], when there is a
    controller, and the second result counts the look-ups charged to it. *)
Class CachePolicy : Type := {
  pol_state : Type;
  pol_index : option (CacheBlockInfo -> bool) -> list CacheBlockInfo -> SetInfo -> pol_state ->
              res (Z * Z * SetInfo * pol_state);
  pol_update : Z -> SetInfo -> pol_state -> res (SetInfo * pol_state);
}.

(** [m_lru_bits[i] = i] *)
Definition initial_bits (associativity : Z) : list Z := u8 <$> seqZ 0 associativity.

(** [moveToMRU] of LRU, MRU and NMRU: younger lines age, the line is the youngest. *)
Definition moveToMRU (i : Z) (bits : list Z) : res (list Z) :=
  b ← vget bits i;
  vset (map (fun x => if x <? b then u8 (x + 1) else x) bits) i 0.

(** [CacheSetLRU], with query-based selection when there is more than one attempt. *)
Module Lru.
Record State : Type := mkState { m_num_attempts : Z; m_lru_bits : list Z }.

Definition new (associativity num_attempts : Z) : State := mkState num_attempts (initial_bits associativity).

(** The line with the most bits among those that may be replaced; line 0 if none has
    any. *)
Fixpoint oldest (l : list (Z * CacheBlockInfo)) (i index max_bits : Z) : Z :=
  match l with
  | [] => index
  | (bits, b) :: l =>
      if (max_bits <? bits) && valid_replacement b then oldest l (i + 1) i bits
      else oldest l (i + 1) index max_bits
  end.

(** The attempts that are left, with the number of the next. *)
Fixpoint attempts (fuel : nat) (num_attempts attempt : Z) (lower : option (CacheBlockInfo -> bool))
    (blocks : list CacheBlockInfo) (lookups : Z) (info : SetInfo) (bits : list Z) : res (Z * Z * SetInfo * State) :=
  match fuel with
  | O => Err (Exit (-1))
  | S fuel =>
      let index := oldest (zip bits blocks) 0 0 0 in
      qbs_reject ← (if attempt <? num_attempts - 1 then
                      match lower with
                      | Some f => b ← vget blocks index; Ok (f b)
                      | None => Err (Exit (-1))
                      end
                    else Ok false);
      bits ← moveToMRU index bits;
      if qbs_reject : bool then attempts fuel num_attempts (attempt + 1) lower blocks (lookups + 1) info bits
      else info ← incrementAttempt attempt info; Ok (index, lookups, info, mkState num_attempts bits)
  end.

Definition getReplacementIndex (lower : option (CacheBlockInfo -> bool)) (blocks : list CacheBlockInfo)
    (info : SetInfo) (s : State) : res (Z * Z * SetInfo * State) :=
  match first_invalid blocks with
  | Some i => bits ← moveToMRU i (m_lru_bits s); Ok (i, 0, info, mkState (m_num_attempts s) bits)
  | None => attempts (Z.to_nat (m_num_attempts s)) (m_num_attempts s) 0 lower blocks 0 info (m_lru_bits s)
  end.

Definition updateReplacementIndex (i : Z) (info : SetInfo) (s : State) : res (SetInfo * State) :=
  b ← vget (m_lru_bits s) i;
  info ← increment b info;
  bits ← moveToMRU i (m_lru_bits s); Ok (info, mkState (m_num_attempts s) bits).

Definition policy : CachePolicy :=
  {| pol_state := State; pol_index := getReplacementIndex; pol_update := updateReplacementIndex |}.
End Lru.

(** [CacheSetMRU] *)
Module Mru.
Definition State : Type := list Z.
Definition new (associativity : Z) : State := initial_bits associativity.

Definition find_target (target : Z) (l : list (Z * CacheBlockInfo)) : option Z :=
  match list_find (fun x => (x.1 =? target) && valid_replacement x.2 = true) l with
  | Some (i, _) => Some (Z.of_nat i)
  | None => None
  end.

Fixpoint youngest (targets : list Z) (l : list (Z * CacheBlockInfo)) : res Z :=
  match targets with
  | [] => Err (Exit (-1))
  | t :: targets => match find_target t l with Some i => Ok i | None => youngest targets l end
  end.

Definition getReplacementIndex (lower : option (CacheBlockInfo -> bool)) (blocks : list CacheBlockInfo)
    (info : SetInfo) (s : State) : res (Z * Z * SetInfo * State) :=
  i ← (match first_invalid blocks with
       | Some i => Ok i
       | None => youngest (seqZ 0 (Z.of_nat (List.length blocks))) (zip s blocks)
       end);
  s ← moveToMRU i s; Ok (i, 0, info, s).

Definition updateReplacementIndex (i : Z) (info : SetInfo) (s : State) : res (SetInfo * State) :=
  s ← moveToMRU i s; Ok (info, s).

Definition policy : CachePolicy :=
  {| pol_state := State; pol_index := getReplacementIndex; pol_update := updateReplacementIndex |}.
End Mru.

(** The search of NMRU and NRU: the first line from the pointer on that satisfies [p],
    and the pointer after it. *)
Fixpoint scan (fuel : nat) (p : Z -> CacheBlockInfo -> bool) (bits : list Z) (blocks : list CacheBlockInfo)
    (pointer : Z) : res (Z * Z) :=
  match fuel with
  | O => Err (Exit (-1))
  | S fuel =>
      x ← vget bits pointer; b ← vget blocks pointer;
      let next := u8 ((pointer + 1) mod Z.of_nat (List.length blocks)) in
      if p x b then Ok (pointer, next) else scan fuel p bits blocks next
  end.

(** [CacheSetNMRU] *)
Module Nmru.
Record State : Type := mkState { m_lru_bits : list Z; m_replacement_pointer : Z }.
Definition new (associativity : Z) : State := mkState (initial_bits associativity) 0.

Definition getReplacementIndex (lower : option (CacheBlockInfo -> bool)) (blocks : list CacheBlockInfo)
    (info : SetInfo) (s : State) : res (Z * Z * SetInfo * State) :=
  match first_invalid blocks with
  | Some i => bits ← moveToMRU i (m_lru_bits s); Ok (i, 0, info, mkState bits (m_replacement_pointer s))
  | None =>
      '(i, next) ← scan (List.length blocks) (fun x b => negb (x =? 0) && valid_replacement b)
                     (m_lru_bits s) blocks (m_replacement_pointer s);
      bits ← moveToMRU i (m_lru_bits s); Ok (i, 0, info, mkState bits next)
  end.

Definition updateReplacementIndex (i : Z) (info : SetInfo) (s : State) : res (SetInfo * State) :=
  bits ← moveToMRU i (m_lru_bits s); Ok (info, mkState bits (m_replacement_pointer s)).

Definition policy : CachePolicy :=
  {| pol_state := State; pol_index := getReplacementIndex; pol_update := updateReplacementIndex |}.
End Nmru.

(** [CacheSetNRU] *)
Module Nru.
Record State : Type := mkState { m_lru_bits : list Z; m_num_bits_set : Z; m_replacement_pointer : Z }.
Definition new (associativity : Z) : State := mkState (replicate (Z.to_nat associativity) 0) 0 0.

(** Sets the bit; the counter counts the calls, not the bits. *)
Definition touch (i : Z) (s : State) : res State :=
  bits ← vset (m_lru_bits s) i 1;
  let n := u8 (m_num_bits_set s + 1) in
  if n =? Z.of_nat (List.length bits) then Ok (mkState (map (fun _ => 0) bits) 0 (m_replacement_pointer s))
  else Ok (mkState bits n (m_replacement_pointer s)).

Definition getReplacementIndex (lower : option (CacheBlockInfo -> bool)) (blocks : list CacheBlockInfo)
    (info : SetInfo) (s : State) : res (Z * Z * SetInfo * State) :=
  match first_invalid blocks with
  | Some i => s ← touch i s; Ok (i, 0, info, s)
  | None =>
      let have_zero_bit := existsb (fun x => (x.1 =? 0) && valid_replacement x.2) (zip (m_lru_bits s) blocks) in
      '(i, next) ← scan (List.length blocks)
                     (fun x b => ((x =? 0) || negb have_zero_bit) && valid_replacement b)
                     (m_lru_bits s) blocks (m_replacement_pointer s);
      s ← touch i (mkState (m_lru_bits s) (m_num_bits_set s) next); Ok (i, 0, info, s)
  end.

Definition updateReplacementIndex (i : Z) (info : SetInfo) (s : State) : res (SetInfo * State) :=
  s ← touch i s; Ok (info, s).

Definition policy : CachePolicy :=
  {| pol_state := State; pol_index := getReplacementIndex; pol_update := updateReplacementIndex |}.
End Nru.

(** [CacheSetPLRU]: a tree of bits, for 4 and 8 ways *)
Module Plru.
Definition State : Type := list Z.
Definition new (associativity : Z) : res State :=
  _ ← log_assert ((associativity =? 4) || (associativity =? 8)); Ok (replicate 8 0).

Definition bit (s : State) (i : nat) : bool := negb (nth i s 0 =? 0).

Definition victim (associativity : Z) (s : State) : res Z :=
  if associativity =? 4 then
    Ok (if bit s 0 then (if bit s 2 then 3 else 2) else (if bit s 1 then 1 else 0))
  else if associativity =? 8 then
    Ok (if bit s 0 then
          (if bit s 4 then (if bit s 6 then 7 else 6) else (if bit s 5 then 5 else 4))
        else
          (if bit s 1 then (if bit s 3 then 3 else 2) else (if bit s 2 then 1 else 0)))
  else Err (Exit (-1)).

(** The bits on the path to a way are turned away from it. *)
Definition path (associativity i : Z) : res (list (Z * Z)) :=
  if associativity =? 4 then
    Ok (if i =? 0 then [(0, 1); (1, 1)] else if i =? 1 then [(0, 1); (1, 0)]
        else if i =? 2 then [(0, 0); (2, 1)] else if i =? 3 then [(0, 0); (2, 0)] else [])
  else if associativity =? 8 then
    Ok (if i =? 0 then [(0, 1); (1, 1); (2, 1)] else if i =? 1 then [(0, 1); (1, 1); (2, 0)]
        else if i =? 2 then [(0, 1); (1, 0); (3, 1)] else if i =? 3 then [(0, 1); (1, 0); (3, 0)]
        else if i =? 4 then [(0, 0); (4, 1); (5, 1)] else if i =? 5 then [(0, 0); (4, 1); (5, 0)]
        else if i =? 6 then [(0, 0); (4, 0); (6, 1)] else if i =? 7 then [(0, 0); (4, 0); (6, 0)] else [])
  else Err (Exit (-1)).

Definition turn (associativity i : Z) (s : State) : res State :=
  p ← path associativity i; Ok (fold_left (fun s x => <[Z.to_nat x.1 := x.2]> s) p s).

Definition getReplacementIndex (lower : option (CacheBlockInfo -> bool)) (blocks : list CacheBlockInfo)
    (info : SetInfo) (s : State) : res (Z * Z * SetInfo * State) :=
  let n := Z.of_nat (List.length blocks) in
  match first_invalid blocks with
  | Some i => s ← turn n i s; Ok (i, 0, info, s)
  | None =>
      i ← victim n s;
      v ← isValidReplacement blocks i; _ ← log_assert v;
      s ← turn n i s; Ok (i, 0, info, s)
  end.

(** The set that holds the state knows its associativity. *)
Definition updateReplacementIndex (n i : Z) (info : SetInfo) (s : State) : res (SetInfo * State) :=
  s ← turn n i s; Ok (info, s).

Definition policy (n : Z) : CachePolicy :=
  {| pol_state := State; pol_index := getReplacementIndex; pol_update := updateReplacementIndex n |}.
End Plru.

(** [CacheSetSRRIP]: re-reference interval prediction, with query-based selection *)
Module Srrip.
Record State : Type := mkState {
  m_rrip_max : Z;
  m_rrip_insert : Z;
  m_num_attempts : Z;
  m_rrip_bits : list Z;
  m_replacement_pointer : Z;
}.

Definition new (associativity numbits num_attempts : Z) : State :=
  let max := u8 (Z.shiftl 1 numbits - 1) in
  let insert := u8 (max - 1) in
  mkState max insert num_attempts (replicate (Z.to_nat associativity) insert) 0.

Definition set_bits (bits : list Z) (s : State) : State :=
  mkState (m_rrip_max s) (m_rrip_insert s) (m_num_attempts s) bits (m_replacement_pointer s).
Definition set_pointer (p : Z) (s : State) : State :=
  mkState (m_rrip_max s) (m_rrip_insert s) (m_num_attempts s) (m_rrip_bits s) p.
Definition advance (blocks : list CacheBlockInfo) (s : State) : State :=
  set_pointer (u8 ((m_replacement_pointer s + 1) mod Z.of_nat (List.length blocks))) s.

(** The answer of the controller, asked before the last attempt only. *)
Definition qbs_reject (lower : option (CacheBlockInfo -> bool)) (blocks : list CacheBlockInfo)
    (attempt index : Z) (s : State) : res bool :=
  if attempt <? m_num_attempts s - 1 then
    match lower with
    | Some f => b ← vget blocks index; Ok (f b)
    | None => Err (Exit (-1))
    end
  else Ok false.

(** One round over the lines: the chosen line, or the attempts made so far.  A
    rejected line becomes the youngest; the pointer stays on it. *)
Fixpoint round (fuel : nat) (lower : option (CacheBlockInfo -> bool)) (blocks : list CacheBlockInfo)
    (attempt lookups : Z) (info : SetInfo) (s : State) : res (option (Z * SetInfo) * Z * Z * State) :=
  match fuel with
  | O => Ok (None, attempt, lookups, s)
  | S fuel =>
      let index := m_replacement_pointer s in
      x ← vget (m_rrip_bits s) index;
      if m_rrip_max s <=? x then
        reject ← qbs_reject lower blocks attempt index s;
        if reject : bool then
          bits ← vset (m_rrip_bits s) index 0;
          round fuel lower blocks (u8 (attempt + 1)) (lookups + 1) info (set_bits bits s)
        else
          bits ← vset (m_rrip_bits s) index (m_rrip_insert s);
          info ← incrementAttempt attempt info;
          v ← isValidReplacement blocks index; _ ← log_assert v;
          Ok (Some (index, info), attempt, lookups, set_bits bits (advance blocks s))
      else round fuel lower blocks attempt lookups info (advance blocks s)
  end.

Definition age (s : State) : State :=
  set_bits (map (fun x => if x <? m_rrip_max s then u8 (x + 1) else x) (m_rrip_bits s)) s.

(** At most [m_rrip_max + 1] rounds, with all predictions raised in between. *)
Fixpoint rounds (fuel : nat) (lower : option (CacheBlockInfo -> bool)) (blocks : list CacheBlockInfo)
    (attempt lookups : Z) (info : SetInfo) (s : State) : res (Z * Z * SetInfo * State) :=
  match fuel with
  | O => Err (Exit (-1))
  | S fuel =>
      '(found, attempt, lookups, s) ← round (List.length blocks) lower blocks attempt lookups info s;
      match found with
      | Some (i, info) => Ok (i, lookups, info, s)
      | None => rounds fuel lower blocks attempt lookups info (age s)
      end
  end.

Definition getReplacementIndex (lower : option (CacheBlockInfo -> bool)) (blocks : list CacheBlockInfo)
    (info : SetInfo) (s : State) : res (Z * Z * SetInfo * State) :=
  match first_invalid blocks with
  | Some i => bits ← vset (m_rrip_bits s) i (m_rrip_insert s); Ok (i, 0, info, set_bits bits s)
  | None => rounds (S (Z.to_nat (m_rrip_max s))) lower blocks 0 0 info s
  end.

Definition updateReplacementIndex (i : Z) (info : SetInfo) (s : State) : res (SetInfo * State) :=
  x ← vget (m_rrip_bits s) i;
  info ← increment x info;
  if 0 <? x then bits ← vset (m_rrip_bits s) i (x - 1); Ok (info, set_bits bits s) else Ok (info, s).

Definition policy : CachePolicy :=
  {| pol_state := State; pol_index := getReplacementIndex; pol_update := updateReplacementIndex |}.
End Srrip.

(** [CacheSetRandom], with the generator of [misc/random.h]: the victim is drawn again
    until it may be replaced.  The recursion is bounded by [draws]. *)
Module RandomPolicy.
Definition next_seed (seed : Z) : Z := u32 (seed * 1103515245 + 12345).
Definition value (seed : Z) : Z := (seed / 65536) mod 32768.

Fixpoint draw (draws : nat) (blocks : list CacheBlockInfo) (seed : Z) : res (Z * Z) :=
  match draws with
  | O => Err OutOfFuel
  | S draws =>
      let seed := next_seed seed in
      i ← umod (value seed) (Z.of_nat (List.length blocks));
      v ← isValidReplacement blocks i;
      if v : bool then Ok (i, seed) else draw draws blocks seed
  end.

Definition getReplacementIndex (draws : nat) (lower : option (CacheBlockInfo -> bool))
    (blocks : list CacheBlockInfo) (info : SetInfo) (seed : Z) : res (Z * Z * SetInfo * Z) :=
  match first_invalid blocks with
  | Some i => Ok (i, 0, info, seed)
  | None => '(i, seed) ← draw draws blocks seed; Ok (i, 0, info, seed)
  end.

Definition policy (draws : nat) : CachePolicy :=
  {| pol_state := Z; pol_index := getReplacementIndex draws; pol_update := fun _ info s => Ok (info, s) |}.
End RandomPolicy.

(** [CacheSetRoundRobin]: the pointer moves down; whether a line may be replaced is
    asked of the line the pointer has moved to, not of the one returned.  The
    recursion passes every line once within the associativity. *)
Module RoundRobin.
Definition new (associativity : Z) : Z := associativity - 1.

Fixpoint next (fuel : nat) (blocks : list CacheBlockInfo) (pointer : Z) : res (Z * Z) :=
  match fuel with
  | O => Err OutOfFuel
  | S fuel =>
      let moved := if pointer =? 0 then Z.of_nat (List.length blocks) - 1 else pointer - 1 in
      v ← isValidReplacement blocks moved;
      if v : bool then Ok (pointer, moved) else next fuel blocks moved
  end.

Definition getReplacementIndex (lower : option (CacheBlockInfo -> bool)) (blocks : list CacheBlockInfo)
    (info : SetInfo) (pointer : Z) : res (Z * Z * SetInfo * Z) :=
  '(i, moved) ← next (List.length blocks) blocks pointer; Ok (i, 0, info, moved).

Definition policy : CachePolicy :=
  {| pol_state := Z; pol_index := getReplacementIndex; pol_update := fun _ info s => Ok (info, s) |}.
End RoundRobin.

(** ** [CacheSet] *)
Section Set_.
Context `{P : CachePolicy}.

Record CacheSet : Type := mkSet {
  m_cache_block_info_array : list CacheBlockInfo;
  m_blocks : option (list Z);               (* the data, with fault injection only *)
  m_blocksize_ : Z;
  m_policy : pol_state;
}.

Definition new_set (associativity blocksize : Z) (fault_injection : bool) (p : pol_state) : CacheSet :=
  mkSet (replicate (Z.to_nat associativity) new_info)
    (if fault_injection then Some (replicate (Z.to_nat (associativity * blocksize)) 0) else None) blocksize p.

Definition set_lines (l : list CacheBlockInfo) (s : CacheSet) : CacheSet :=
  mkSet l (m_blocks s) (m_blocksize_ s) (m_policy s).
Definition set_policy (p : pol_state) (s : CacheSet) : CacheSet :=
  mkSet (m_cache_block_info_array s) (m_blocks s) (m_blocksize_ s) p.
Definition set_data (d : option (list Z)) (s : CacheSet) : CacheSet :=
  mkSet (m_cache_block_info_array s) d (m_blocksize_ s) (m_policy s).

(** [memcpy] out of and into the data of the set. *)
Definition copy_out (s : CacheSet) (from bytes : Z) : option (list Z) :=
  (fun d => take (Z.to_nat bytes) (drop (Z.to_nat from) d)) <$> m_blocks s.
Definition copy_in (s : CacheSet) (to : Z) (buff : list Z) : CacheSet :=
  set_data ((fun d => take (Z.to_nat to) d ++ buff ++ drop (Z.to_nat to + List.length buff) d)%list <$> m_blocks s) s.

Definition touch_line (update_replacement : bool) (line : Z) (info : SetInfo) (s : CacheSet) : res (SetInfo * CacheSet) :=
  if update_replacement then '(info, p) ← pol_update line info (m_policy s); Ok (info, set_policy p s)
  else Ok (info, s).

Definition read_line (line offset bytes : Z) (update_replacement : bool) (info : SetInfo) (s : CacheSet)
    : res (option (list Z) * SetInfo * CacheSet) :=
  _ ← log_assert (offset + bytes <=? m_blocksize_ s);
  let out := copy_out s (line * m_blocksize_ s + offset) bytes in
  '(info, s) ← touch_line update_replacement line info s; Ok (out, info, s).

Definition write_line (line offset : Z) (buff : option (list Z)) (bytes : Z) (update_replacement : bool)
    (info : SetInfo) (s : CacheSet) : res (SetInfo * CacheSet) :=
  _ ← log_assert (offset + bytes <=? m_blocksize_ s);
  let s := match buff with
           | Some l => copy_in s (line * m_blocksize_ s + offset) (take (Z.to_nat bytes) l)
           | None => s
           end in
  touch_line update_replacement line info s.

(** [find] and [invalidate] search from the last line to the first. *)
Fixpoint find_last (tag : Z) (i : Z) (l : list CacheBlockInfo) : option Z :=
  match l with
  | [] => None
  | b :: l =>
      match find_last tag (i + 1) l with
      | Some j => Some j
      | None => if m_tag b =? tag then Some i else None
      end
  end.

Definition find (tag : Z) (s : CacheSet) : option Z := find_last tag 0 (m_cache_block_info_array s).

Definition invalidate (tag : Z) (s : CacheSet) : bool * CacheSet :=
  match find tag s with
  | Some i => (true, set_lines (alter invalidate_info (Z.to_nat i) (m_cache_block_info_array s)) s)
  | None => (false, s)
  end.

(** [CacheSet::insert]: the block that is evicted, with its data, the look-ups charged to the
    controller, and the new set. *)
Definition insert_block (block : CacheBlockInfo) (fill : option (list Z)) (lower : option (CacheBlockInfo -> bool))
    (info : SetInfo) (s : CacheSet) : res (option (CacheBlockInfo * option (list Z)) * Z * SetInfo * CacheSet) :=
  '(i, lookups, info, p) ← pol_index lower (m_cache_block_info_array s) info (m_policy s);
  old ← vget (m_cache_block_info_array s) i;
  let evicted := if isValid old then Some (old, copy_out s (i * m_blocksize_ s) (m_blocksize_ s)) else None in
  lines ← vset (m_cache_block_info_array s) i block;
  let s := set_lines lines (set_policy p s) in
  let s := match fill with Some l => copy_in s (i * m_blocksize_ s) (take (Z.to_nat (m_blocksize_ s)) l) | None => s end in
  Ok (evicted, lookups, info, s).

(** ** [Cache] *)
Record Cache : Type := mkCache {
  base : CacheBase;
  m_enabled : bool;
  m_num_accesses : Z;
  m_num_hits : Z;
  m_sets : list CacheSet;
  m_set_info : SetInfo;
}.

Definition new_cache (b : CacheBase) (num_attempts : Z) (fault_injection : bool) (p : pol_state) : Cache :=
  mkCache b false 0 0
    (replicate (Z.to_nat (m_num_sets b)) (new_set (m_associativity b) (m_blocksize b) fault_injection p))
    (new_set_info (m_associativity b) num_attempts).

Definition set_sets (l : list CacheSet) (info : SetInfo) (c : Cache) : Cache :=
  mkCache (base c) (m_enabled c) (m_num_accesses c) (m_num_hits c) l info.

Definition peekSingleLine (addr : Z) (c : Cache) : res (option CacheBlockInfo) :=
  '(tag, i) ← splitAddress (base c) addr;
  s ← vget (m_sets c) i;
  match find tag s with
  | Some line => b ← vget (m_cache_block_info_array s) line; Ok (Some b)
  | None => Ok None
  end.

Definition invalidateSingleLine (addr : Z) (c : Cache) : res (bool * Cache) :=
  '(tag, i) ← splitAddress (base c) addr;
  s ← vget (m_sets c) i;
  let '(found, s) := invalidate tag s in
  l ← vset (m_sets c) i s; Ok (found, set_sets l (m_set_info c) c).

Inductive cache_access_t : Type := LOAD | STORE.

(** The block that was hit and what was read; without a fault injector. *)
Definition accessSingleLine (addr : Z) (a : cache_access_t) (buff : option (list Z)) (bytes : Z)
    (update_replacement : bool) (c : Cache) : res (option (CacheBlockInfo * option (list Z)) * Cache) :=
  '(tag, i) ← splitAddress (base c) addr;
  s ← vget (m_sets c) i;
  match find tag s with
  | None => Ok (None, c)
  | Some line =>
      b ← vget (m_cache_block_info_array s) line;
      '(out, info, s) ←
        (match a with
         | LOAD => read_line line (block_offset (base c) addr) bytes update_replacement (m_set_info c) s
         | STORE =>
             '(info, s) ← write_line line (block_offset (base c) addr) buff bytes update_replacement (m_set_info c) s;
             Ok (None, info, s)
         end);
      l ← vset (m_sets c) i s; Ok (Some (b, out), set_sets l info c)
  end.

(** The address and info of the evicted block. *)
Definition insertSingleLine (addr : Z) (fill : option (list Z)) (lower : option (CacheBlockInfo -> bool)) (c : Cache)
    : res (option (Z * CacheBlockInfo * option (list Z)) * Z * Cache) :=
  '(tag, i) ← splitAddress (base c) addr;
  s ← vget (m_sets c) i;
  '(evicted, lookups, info, s) ← insert_block (setTag tag new_info) fill lower (m_set_info c) s;
  l ← vset (m_sets c) i s;
  Ok (option_map (fun e => (tagToAddress (base c) (m_tag e.1), e.1, e.2)) evicted, lookups, set_sets l info c).

Definition updateCounters (cache_hit : bool) (c : Cache) : Cache :=
  if m_enabled c then
    mkCache (base c) (m_enabled c) (u64 (m_num_accesses c + 1))
      (if cache_hit then u64 (m_num_hits c + 1) else m_num_hits c) (m_sets c) (m_set_info c)
  else c.

Definition updateHits (hits : Z) (c : Cache) : Cache :=
  if m_enabled c then
    mkCache (base c) (m_enabled c) (u64 (m_num_accesses c + hits)) (u64 (m_num_hits c + hits)) (m_sets c) (m_set_info c)
  else c.

Definition set_enabled (b : bool) (c : Cache) : Cache :=
  mkCache (base c) b (m_num_accesses c) (m_num_hits c) (m_sets c) (m_set_info c).
End Set_.

(** ** [CacheSet::createCacheSet]: the policy of a name *)
Inductive ReplacementPolicy : Type :=
| ROUND_ROBIN | LRU | LRU_QBS | NRU | MRU | NMRU | PLRU | SRRIP | SRRIP_QBS | RANDOM.

Definition parsePolicyType (s : string) : res ReplacementPolicy :=
  if String.eqb s "round_robin" then Ok ROUND_ROBIN
  else if String.eqb s "lru" then Ok LRU
  else if String.eqb s "lru_qbs" then Ok LRU_QBS
  else if String.eqb s "nru" then Ok NRU
  else if String.eqb s "mru" then Ok MRU
  else if String.eqb s "nmru" then Ok NMRU
  else if String.eqb s "plru" then Ok PLRU
  else if String.eqb s "srrip" then Ok SRRIP
  else if String.eqb s "srrip_qbs" then Ok SRRIP_QBS
  else if String.eqb s "random" then Ok RANDOM
  else Err (Exit (-1)).

(** [qbs_attempts] and [srrip_bits] are settings; [seed] is [time(NULL)]. *)
Definition getNumQBSAttempts (p : ReplacementPolicy) (qbs_attempts : Z) : Z :=
  match p with LRU_QBS | SRRIP_QBS => u8 qbs_attempts | _ => 1 end.

Definition createPolicy (p : ReplacementPolicy) (associativity qbs_attempts srrip_bits seed : Z) (draws : nat)
    : res { P : CachePolicy & pol_state } :=
  let attempts := getNumQBSAttempts p qbs_attempts in
  match p with
  | ROUND_ROBIN => Ok (existT RoundRobin.policy (RoundRobin.new associativity))
  | LRU | LRU_QBS => Ok (existT Lru.policy (Lru.new associativity attempts))
  | NRU => Ok (existT Nru.policy (Nru.new associativity))
  | MRU => Ok (existT Mru.policy (Mru.new associativity))
  | NMRU => Ok (existT Nmru.policy (Nmru.new associativity))
  | PLRU => s ← Plru.new associativity; Ok (existT (Plru.policy associativity) s)
  | SRRIP | SRRIP_QBS => Ok (existT Srrip.policy (Srrip.new associativity srrip_bits attempts))
  | RANDOM => Ok (existT (RandomPolicy.policy draws) (u32 seed))
  end.
