(* ===== verification/SniperCacheFacts.v ===== *)
(** * Guarantees of the caches of Sniper

    The home lookup is a bijection between addresses and (module, linear address);
    the set index is in range for every hash but one; the bits of LRU order the lines
    by their last use; and a cache, whatever its replacement policy, implements a set
    of blocks. *)
From Stdlib Require Import String.
From S2P Require Import Prelude SniperQueue SniperTrace SniperCache.
Local Open Scope Z_scope.

(** ** The home of an address *)
Section Home.
Import Ahl.
Context (a : t).
Notation p := (m_ahl_param a).
Notation M := (m_total_modules a).
Hypothesis Hp : 0 <= p < 64.
Hypothesis HM : 0 < M.

Lemma linear_address addr : 0 <= addr < 2 ^ 64 ->
  getLinearAddress a addr = Ok (addr / 2 ^ p / M * 2 ^ p + addr mod 2 ^ p).
Proof.
  intros Ha. unfold getLinearAddress, getLinearBlock. rewrite (proj2 (Z.eqb_neq _ _)) by lia. cbn [mbind res_bind].
  unfold m_ahl_mask. rewrite land_mask, Z.shiftr_div_pow2 by lia. do 2 f_equal.
  pose proof (Z.mod_pos_bound addr (2 ^ p) ltac:(apply Z.pow_pos_nonneg; lia)).
  rewrite u64_small; [by apply lor_disjoint; lia|]. rewrite Z.shiftl_mul_pow2 by lia.
  assert (0 < 2 ^ p) by (apply Z.pow_pos_nonneg; lia).
  assert (0 <= addr / 2 ^ p) by (apply Z.div_pos; lia).
  assert (addr / 2 ^ p / M <= addr / 2 ^ p) by (apply Z.div_le_upper_bound; nia).
  pose proof (Z.mul_div_le addr (2 ^ p) ltac:(lia)).
  assert (0 <= addr / 2 ^ p / M) by (apply Z.div_pos; lia). nia.
Qed.

(** The address that module [n] knows under a linear address. *)
Definition address_of (n linear : Z) : Z := (linear / 2 ^ p * M + n) * 2 ^ p + linear mod 2 ^ p.

Lemma split_parts q r : 0 <= r < 2 ^ p -> (q * 2 ^ p + r) / 2 ^ p = q /\ (q * 2 ^ p + r) mod 2 ^ p = r.
Proof.
  intros Hr. rewrite Z.add_comm. rewrite Z.div_add, Z.div_small, Z.mod_add, Z.mod_small by lia. lia.
Qed.
End Home.

(** The home lookup of Sniper loses nothing: the memory module of an
    address and the linear address within it determine the address, and every linear
    address of every module is the one of exactly one address.  So the address space
    is spread over the memory controllers without overlap. *)
Theorem home_lookup_roundtrip a addr n linear :
  0 <= Ahl.m_ahl_param a < 64 -> 0 < Ahl.m_total_modules a ->
  (0 <= addr < 2 ^ 64 -> Ahl.module_num a addr = Ok n -> Ahl.getLinearAddress a addr = Ok linear ->
   0 <= n < Ahl.m_total_modules a /\ address_of a n linear = addr) /\
  (0 <= n < Ahl.m_total_modules a -> 0 <= linear -> address_of a n linear < 2 ^ 64 ->
   Ahl.module_num a (address_of a n linear) = Ok n /\ Ahl.getLinearAddress a (address_of a n linear) = Ok linear).
Proof.
  intros Hp HM. assert (0 < 2 ^ Ahl.m_ahl_param a) as Hpow by (apply Z.pow_pos_nonneg; lia).
  assert (forall x, Ahl.module_num a x = Ok (x / 2 ^ Ahl.m_ahl_param a mod Ahl.m_total_modules a)) as Hn.
  { intros x. unfold Ahl.module_num. rewrite (proj2 (Z.eqb_neq _ _)) by lia. by rewrite Z.shiftr_div_pow2 by lia. }
  split.
  - intros Ha. rewrite Hn, linear_address by done. intros [= <-] [= <-]. unfold address_of.
    split; [by apply Z.mod_pos_bound|].
    destruct (split_parts a Hp (addr / 2 ^ Ahl.m_ahl_param a / Ahl.m_total_modules a) (addr mod 2 ^ Ahl.m_ahl_param a))
      as [-> ->]; [by apply Z.mod_pos_bound|].
    pose proof (Z.div_mod (addr / 2 ^ Ahl.m_ahl_param a) (Ahl.m_total_modules a) ltac:(lia)).
    pose proof (Z.div_mod addr (2 ^ Ahl.m_ahl_param a) ltac:(lia)). nia.
  - intros Hr Hl Hmax.
    pose proof (Z.mod_pos_bound linear (2 ^ Ahl.m_ahl_param a) Hpow) as Hm.
    assert (0 <= linear / 2 ^ Ahl.m_ahl_param a) by (apply Z.div_pos; lia).
    rewrite Hn, linear_address by (try done; unfold address_of in *; nia). unfold address_of.
    destruct (split_parts a Hp (linear / 2 ^ Ahl.m_ahl_param a * Ahl.m_total_modules a + n) (linear mod 2 ^ Ahl.m_ahl_param a))
      as [-> ->]; [done|].
    rewrite (Z.add_comm (_ * _) n), Z.mod_add, Z.div_add, Z.mod_small, Z.div_small by lia. split; [done|].
    f_equal. pose proof (Z.div_mod linear (2 ^ Ahl.m_ahl_param a) ltac:(lia)). lia.
Qed.

Lemma home_lookup_roundtrip_witness :
  let a := Ahl.mk 6 [0; 4; 8] in
  Ahl.module_num a 1000 = Ok 0 /\ Ahl.getLinearAddress a 1000 = Ok 360 /\ address_of a 0 360 = 1000.
Proof.
  cbn zeta. split; [reflexivity|]. split; [reflexivity|].
  apply (home_lookup_roundtrip (Ahl.mk 6 [0; 4; 8]) 1000 0 360); [cbn; lia|reflexivity|lia|reflexivity|reflexivity].
Defined.

(** ** The set index *)

(** Testing the upper half of the bits tells whether the number has any there. *)
Lemma land_upper n s : 0 <= s -> 0 <= n < 2 ^ (2 * s) ->
  Z.land n (Z.shiftl (Z.ones s) s) = Z.shiftl (Z.shiftr n s) s.
Proof.
  intros Hs Hn. apply Z.bits_inj'. intros i Hi. rewrite Z.land_spec, !Z.shiftl_spec by lia.
  destruct (decide (i < s)); [rewrite !(Z.testbit_neg_r _ (i - s)) by lia; by rewrite andb_false_r|].
  rewrite Z.shiftr_spec by lia. replace (i - s + s) with i by lia.
  rewrite Z.testbit_ones_nonneg by lia. destruct (Z.ltb_spec (i - s) s); [apply andb_true_r|].
  rewrite andb_false_r. symmetry. destruct (decide (n = 0)) as [->|]; [apply Z.bits_0|].
  apply Z.bits_above_log2; [lia|]. apply Z.log2_lt_pow2; [lia|].
  eapply Z.lt_le_trans; [exact (proj2 Hn)|]. apply Z.pow_le_mono_r; lia.
Qed.

Lemma log2_step_spec s p n : 0 < s -> 0 < n < 2 ^ (2 * s) ->
  let pn := log2_step (Z.shiftl (Z.ones s) s) s (p, n) in
  0 < pn.2 < 2 ^ s /\ pn.1 + Z.log2 pn.2 = p + Z.log2 n.
Proof.
  intros Hs Hn. unfold log2_step. cbn [fst snd]. rewrite land_upper by lia.
  assert (0 < 2 ^ s) by (apply Z.pow_pos_nonneg; lia).
  assert (0 <= Z.shiftr n s) by (apply Z.shiftr_nonneg; lia).
  rewrite Z.shiftl_mul_pow2 by lia. destruct (Z.eqb_spec (Z.shiftr n s * 2 ^ s) 0) as [E|E]; cbn [fst snd].
  - split; [|done]. assert (Z.shiftr n s = 0) as E0 by nia. rewrite Z.shiftr_div_pow2 in E0 by lia.
    apply Z.div_small_iff in E0; lia.
  - assert (0 < Z.shiftr n s) by lia. split.
    + split; [done|]. rewrite Z.shiftr_div_pow2 by lia. apply Z.div_lt_upper_bound; [lia|].
      rewrite <- Z.pow_add_r by lia. replace (s + s) with (2 * s) by lia. lia.
    + assert (2 ^ s <= n) as Hge; [|apply Z.log2_le_pow2 in Hge; [|lia]; rewrite Z.log2_shiftr by lia; lia].
      destruct (Z.le_gt_cases (2 ^ s) n); [done|].
      rewrite Z.shiftr_div_pow2, Z.div_small in E by lia. lia.
Qed.

Lemma floorLog2_spec n : 0 < n < 2 ^ 32 -> floorLog2 n = Z.log2 n.
Proof.
  intros Hn. unfold floorLog2. rewrite (proj2 (Z.eqb_neq _ _)) by lia.
  pose proof (log2_step_spec 16 0 n ltac:(lia) ltac:(lia)) as H. cbv zeta in H.
  change (Z.shiftl (Z.ones 16) 16) with 4294901760 in H. destruct (log2_step 4294901760 16 (0, n)) as [p1 n1].
  destruct H as [Hn1 Hp1]. cbn [fst snd] in Hn1, Hp1.
  pose proof (log2_step_spec 8 p1 n1 ltac:(lia) ltac:(lia)) as H. cbv zeta in H.
  change (Z.shiftl (Z.ones 8) 8) with 65280 in H. destruct (log2_step 65280 8 (p1, n1)) as [p2 n2].
  destruct H as [Hn2 Hp2]. cbn [fst snd] in Hn2, Hp2.
  pose proof (log2_step_spec 4 p2 n2 ltac:(lia) ltac:(lia)) as H. cbv zeta in H.
  change (Z.shiftl (Z.ones 4) 4) with 240 in H. destruct (log2_step 240 4 (p2, n2)) as [p3 n3].
  destruct H as [Hn3 Hp3]. cbn [fst snd] in Hn3, Hp3.
  pose proof (log2_step_spec 2 p3 n3 ltac:(lia) ltac:(lia)) as H. cbv zeta in H.
  change (Z.shiftl (Z.ones 2) 2) with 12 in H. destruct (log2_step 12 2 (p3, n3)) as [p4 n4].
  destruct H as [Hn4 Hp4]. cbn [fst snd] in Hn4, Hp4 |- *.
  assert (n4 = 1 \/ n4 = 2 \/ n4 = 3) as [-> | [-> | ->]] by lia.
  - change (Z.log2 1) with 0 in Hp4. change (Z.land 1 2 =? 0) with true. cbv iota. lia.
  - change (Z.log2 2) with 1 in Hp4. change (Z.land 2 2 =? 0) with false. cbv iota. lia.
  - change (Z.log2 3) with 1 in Hp4. change (Z.land 3 2 =? 0) with false. cbv iota. lia.
Qed.

(** The configurations in which the set index is always in range. *)
Definition index_safe (b : CacheBase) : Prop :=
  match m_hash b with
  | HASH_XOR_MOD => m_num_sets b = 2 ^ m_log_num_sets b
  | HASH_MER_MOD => 2 <= m_num_sets b
  | _ => True
  end.

Lemma umod_range x n : 0 < n -> exists r, umod x n = Ok r /\ 0 <= r < n.
Proof.
  intros. unfold umod. rewrite (proj2 (Z.eqb_neq _ _)) by lia. eexists. split; [done|]. by apply Z.mod_pos_bound.
Qed.

Lemma lxor_pow2 x y k : 0 <= k -> 0 <= x < 2 ^ k -> 0 <= y < 2 ^ k -> 0 <= Z.lxor x y < 2 ^ k.
Proof.
  intros Hk Hx Hy. split; [by apply Z.lxor_nonneg; lia|].
  destruct (decide (Z.lxor x y = 0)) as [->|]; [lia|].
  assert (0 <= Z.lxor x y) by (apply Z.lxor_nonneg; lia).
  apply Z.log2_lt_pow2; [lia|]. eapply Z.le_lt_trans; [apply Z.log2_lxor; lia|].
  destruct (decide (x = 0)) as [->|], (decide (y = 0)) as [->|]; cbn; try lia.
  - done.
  - rewrite Z.max_r by apply Z.log2_nonneg. apply Z.log2_lt_pow2; lia.
  - rewrite Z.max_l by apply Z.log2_nonneg. apply Z.log2_lt_pow2; lia.
  - apply Z.max_lub_lt; apply Z.log2_lt_pow2; lia.
Qed.

Lemma set_index_range num_sets ways size hash ahl b block_num :
  0 < num_sets < 2 ^ 32 -> new_base num_sets ways size hash ahl = Ok b -> index_safe b -> 0 <= block_num ->
  exists i, set_index b block_num = Ok i /\ 0 <= i < num_sets.
Proof.
  intros Hn Hb Hs Hbn. unfold new_base in Hb. apply bind_Ok in Hb as ([] & Hlog & Hb). injection Hb as <-.
  unfold log_assert in Hlog. case_match eqn:Ha; [|done]. unfold index_safe in Hs. cbn in Hs.
  unfold set_index. cbn [m_num_sets m_hash m_log_num_sets]. rewrite floorLog2_spec in * by lia.
  destruct hash.
  - apply orb_true_iff in Ha as [Ha%Z.eqb_eq|]; [|done]. unfold u32. rewrite Z.mod_small by lia.
    assert (num_sets - 1 = Z.shiftl 1 (Z.log2 num_sets) - 1) as -> by lia.
    rewrite land_mask by apply Z.log2_nonneg. eexists. split; [done|]. rewrite Z.shiftl_1_l in Ha.
    pose proof (Z.mod_pos_bound block_num (2 ^ Z.log2 num_sets)). lia.
  - apply umod_range. lia.
  - apply umod_range. lia.
  - apply umod_range. lia.
  - destruct (umod_range block_num num_sets) as (r & -> & _); [lia|]. cbn [mbind res_bind]. apply umod_range. lia.
  - destruct (umod_range block_num num_sets) as (r & -> & Hr); [lia|]. cbn [mbind res_bind].
    destruct (umod_range (Z.shiftr block_num (Z.log2 num_sets)) num_sets) as (q & -> & Hq); [lia|]. cbn [mbind res_bind].
    eexists. split; [done|].
    pose proof (lxor_pow2 r q (Z.log2 num_sets) (Z.log2_nonneg _) ltac:(lia) ltac:(lia)). lia.
  - unfold u32. rewrite Z.mod_small by lia. destruct (umod_range block_num (num_sets - 1)) as (r & -> & Hr); [lia|].
    eexists. split; [done|]. lia.
Qed.

(** A lookup that is set up: a shift below 64 and at least one module. *)
Definition ahl_ok (ahl : option Ahl.t) : Prop :=
  match ahl with Some a => 0 <= Ahl.m_ahl_param a < 64 /\ 0 < Ahl.m_total_modules a | None => True end.

Definition linear_of (ahl : option Ahl.t) (addr : Z) : Z :=
  match ahl with
  | Some a => addr / 2 ^ Ahl.m_ahl_param a / Ahl.m_total_modules a * 2 ^ Ahl.m_ahl_param a + addr mod 2 ^ Ahl.m_ahl_param a
  | None => addr
  end.

Lemma linear_of_nonneg ahl addr : ahl_ok ahl -> 0 <= addr -> 0 <= linear_of ahl addr.
Proof.
  destruct ahl as [a|]; [|done]. intros [Hp HM] Ha. cbn.
  assert (0 < 2 ^ Ahl.m_ahl_param a) by (apply Z.pow_pos_nonneg; lia).
  pose proof (Z.mod_pos_bound addr (2 ^ Ahl.m_ahl_param a)).
  assert (0 <= addr / 2 ^ Ahl.m_ahl_param a / Ahl.m_total_modules a) by (apply Z.div_pos; [apply Z.div_pos; lia|lia]). nia.
Qed.

Lemma splitAddress_eq b addr : ahl_ok (m_ahl b) -> 0 <= addr < 2 ^ 64 ->
  splitAddress b addr =
    (i ← set_index b (Z.shiftr (linear_of (m_ahl b) addr) (m_log_blocksize b));
     Ok (Z.shiftr addr (m_log_blocksize b), i)).
Proof.
  intros Ha Haddr. unfold splitAddress. destruct (m_ahl b) as [a|]; [|done]. destruct Ha.
  by rewrite linear_address by done.
Qed.

Lemma new_base_fields num_sets ways size hash ahl b : new_base num_sets ways size hash ahl = Ok b ->
  m_ahl b = ahl /\ m_blocksize b = size /\ m_log_blocksize b = floorLog2 size /\ m_num_sets b = num_sets /\
  m_associativity b = ways.
Proof. unfold new_base. intros H. by apply bind_Ok in H as (? & ? & [= <-]). Qed.

(** For every hash function, with or without a home lookup, an address is
    split into a tag and the index of a set that exists, and tag and offset give the
    address back; provided the number of sets is a power of two for the exclusive-or
    hash (and at least two for the Mersenne hash). *)
Theorem split_address_in_range num_sets ways k hash ahl b addr :
  0 < num_sets < 2 ^ 32 -> 0 <= k < 32 -> new_base num_sets ways (2 ^ k) hash ahl = Ok b ->
  index_safe b -> ahl_ok ahl -> 0 <= addr < 2 ^ 64 ->
  exists tag i, splitAddress b addr = Ok (tag, i) /\ 0 <= i < num_sets /\
    tagToAddress b tag + block_offset b addr = addr.
Proof.
  intros Hn Hk Hb Hs Ha Haddr. destruct (new_base_fields _ _ _ _ _ _ Hb) as (E1 & E2 & E3 & _).
  assert (2 ^ k < 2 ^ 32) by (apply Z.pow_lt_mono_r; lia).
  assert (0 < 2 ^ k) by (apply Z.pow_pos_nonneg; lia).
  rewrite floorLog2_spec, Z.log2_pow2 in E3 by lia.
  rewrite splitAddress_eq by (rewrite ?E1; done).
  destruct (set_index_range num_sets ways (2 ^ k) hash ahl b
    (Z.shiftr (linear_of (m_ahl b) addr) (m_log_blocksize b)) Hn Hb Hs) as (i & Hi & Hr).
  { apply Z.shiftr_nonneg, linear_of_nonneg; [by rewrite E1|lia]. }
  rewrite Hi. cbn [mbind res_bind]. do 2 eexists. split; [reflexivity|]. split; [done|].
  unfold tagToAddress, block_offset, u32. rewrite E2, E3, (Z.mod_small (2 ^ k - 1)) by lia.
  rewrite <- Z.shiftl_1_l, land_mask by lia. rewrite Z.shiftr_div_pow2, Z.shiftl_mul_pow2 by lia.
  pose proof (Z.div_mod addr (2 ^ k) ltac:(lia)). pose proof (Z.mod_pos_bound addr (2 ^ k) ltac:(lia)).
  assert (0 <= addr / 2 ^ k) by (apply Z.div_pos; lia). rewrite u64_small; nia.
Qed.

Lemma split_address_in_range_witness :
  exists tag i, splitAddress (mkBase 8 64 HASH_MASK 64 None 6 6) 123456789 = Ok (tag, i) /\ 0 <= i < 64 /\
    tagToAddress (mkBase 8 64 HASH_MASK 64 None 6 6) tag + block_offset (mkBase 8 64 HASH_MASK 64 None 6 6) 123456789 = 123456789.
Proof.
  apply (split_address_in_range 64 8 6 HASH_MASK None (mkBase 8 64 HASH_MASK 64 None 6 6) 123456789);
    [lia|lia|reflexivity|exact I|exact I|lia].
Defined.

(** With three sets, which the check of the constructor allows, the exclusive-or hash
    names a fourth. *)
Example xor_hash_out_of_range :
  exists b, new_base 3 8 64 HASH_XOR_MOD None = Ok b /\ splitAddress b (5 * 64) = Ok (5, 0) /\
    splitAddress b (4 * 64) = Ok (4, 3).
Proof. eexists. split; [reflexivity|]. by split; vm_compute. Qed.

(** Addresses with the same tag are in the same set. *)
Lemma split_same_tag b a1 a2 t i1 i2 k : ahl_ok (m_ahl b) -> m_log_blocksize b = k -> 0 <= k ->
  match m_ahl b with Some a => k <= Ahl.m_ahl_param a | None => True end ->
  0 <= a1 < 2 ^ 64 -> 0 <= a2 < 2 ^ 64 ->
  splitAddress b a1 = Ok (t, i1) -> splitAddress b a2 = Ok (t, i2) -> i1 = i2.
Proof.
  intros Ha Ek Hk Hp H1 H2. rewrite !splitAddress_eq by done. rewrite Ek, !Z.shiftr_div_pow2 by lia.
  enough (a1 / 2 ^ k = a2 / 2 ^ k -> linear_of (m_ahl b) a1 / 2 ^ k = linear_of (m_ahl b) a2 / 2 ^ k) as Hlin.
  { intros S1 S2. apply bind_Ok in S1 as (j1 & S1 & [= <- <-]). apply bind_Ok in S2 as (j2 & S2 & [= E <-]).
    rewrite Hlin in S1 by done. rewrite S1 in S2. by injection S2. }
  destruct (m_ahl b) as [a|]; [|done]. destruct Ha as [Hpp HM]. cbn. set (p := Ahl.m_ahl_param a) in *.
  assert (0 < 2 ^ k) by (apply Z.pow_pos_nonneg; lia).
  assert (0 < 2 ^ (p - k)) by (apply Z.pow_pos_nonneg; lia).
  assert (forall x q, (q * 2 ^ p + x mod 2 ^ p) / 2 ^ k = q * 2 ^ (p - k) + (x / 2 ^ k) mod 2 ^ (p - k)) as Hd.
  { intros x q. replace (2 ^ p) with (2 ^ (p - k) * 2 ^ k) by (rewrite <- Z.pow_add_r by lia; f_equal; lia).
    rewrite Z.mul_assoc, Z.add_comm, Z.div_add by lia. rewrite Z.add_comm. f_equal.
    rewrite (Z.mul_comm (2 ^ (p - k))). rewrite Z.rem_mul_r by lia.
    rewrite Z.add_comm, Z.mul_comm, Z.div_add_l by lia.
    rewrite (Z.div_small (x mod 2 ^ k)) by (apply Z.mod_pos_bound; lia). lia. }
  assert (forall x, x / 2 ^ p = x / 2 ^ k / 2 ^ (p - k)) as Hq.
  { intros x. rewrite Z.div_div by lia. do 2 f_equal. rewrite <- Z.pow_add_r by lia. f_equal. lia. }
  intros E. by rewrite !Hd, !Hq, E.
Qed.

(** ** LRU *)

(** [order] lists the lines from the most to the least recently used; the bits of a
    line are its place there. *)
Record lru_repr (bits order : list Z) : Prop := {
  lr_perm : order ≡ₚ seqZ 0 (Z.of_nat (length bits));
  lr_bits : forall k i, order !! k = Some i -> bits !! Z.to_nat i = Some (Z.of_nat k);
  lr_ways : Z.of_nat (length bits) <= 256;
}.

Definition use (i : Z) (order : list Z) : list Z := i :: filter (fun j => j <> i) order.

Lemma lru_range bits order i : lru_repr bits order -> i ∈ order <-> 0 <= i < Z.of_nat (length bits).
Proof. intros []. rewrite lr_perm0, elem_of_seqZ. lia. Qed.

Lemma lru_nodup bits order : lru_repr bits order -> NoDup order.
Proof. intros []. rewrite lr_perm0. apply NoDup_seqZ. Qed.

Lemma lru_new n : 0 <= n <= 256 -> lru_repr (initial_bits n) (seqZ 0 n).
Proof.
  intros Hn. unfold initial_bits. split.
  - by rewrite length_fmap, length_seqZ, Z2Nat.id by lia.
  - intros k i Hk. apply lookup_seqZ in Hk as [-> Hk]. rewrite list_lookup_fmap.
    rewrite (proj2 (lookup_seqZ 0 n (Z.to_nat (0 + Z.of_nat k)) (Z.of_nat k))) by lia. cbn.
    unfold u8. by rewrite Z.mod_small by lia.
  - rewrite length_fmap, length_seqZ. lia.
Qed.

Lemma filter_other (l : list Z) i : i ∉ l -> filter (fun j => j <> i) l = l.
Proof.
  induction l as [|x l IH]; [done|]. intros [Hx Hl]%not_elem_of_cons.
  rewrite list.filter_cons_True by done. by rewrite IH.
Qed.

Lemma use_split (l1 l2 : list Z) i : NoDup (l1 ++ i :: l2) -> use i (l1 ++ i :: l2) = i :: l1 ++ l2.
Proof.
  intros (Hn1 & Hd & [Hi _]%list.NoDup_cons)%list.NoDup_app. unfold use.
  rewrite list.filter_app, list.filter_cons_False by (intros H; by apply H). rewrite !filter_other; [done..|].
  intros H. apply (Hd _ H). left.
Qed.

Lemma moveToMRU_eq bits i b : vget bits i = Ok b ->
  moveToMRU i bits = Ok (<[Z.to_nat i := 0]> (map (fun x => if x <? b then u8 (x + 1) else x) bits)).
Proof.
  intros Hb. unfold moveToMRU. rewrite Hb. cbn [mbind res_bind]. apply vset_Ok.
  apply vget_inside in Hb. rewrite List.length_map. naive_solver.
Qed.

(** Using a line moves it to the front of the order. *)
Lemma moveToMRU_use bits order i : lru_repr bits order -> i ∈ order ->
  exists bits', moveToMRU i bits = Ok bits' /\ lru_repr bits' (use i order) /\ length bits' = length bits.
Proof.
  intros HR Hi. pose proof (lru_nodup _ _ HR) as Hnd. pose proof (proj1 (lru_range _ _ i HR) Hi) as Hri.
  destruct HR as [Hp Hb Hw]. pose proof (Permutation_length Hp) as Hlen. rewrite length_seqZ in Hlen.
  apply list_elem_of_split in Hi as (l1 & l2 & ->).
  pose proof (Hb (length l1) i ltac:(by apply list_lookup_middle)) as Hbi.
  rewrite (moveToMRU_eq _ _ (Z.of_nat (length l1))) by (apply vget_Ok; split; [lia|done]).
  eexists. split; [done|]. rewrite length_insert, List.length_map. split; [|done].
  rewrite use_split by done. rewrite length_app in Hlen. cbn [length] in Hlen. split.
  - rewrite length_insert, List.length_map, <- Hp. by apply Permutation_middle.
  - intros [|k] j Hk; cbn in Hk.
    + injection Hk as <-. rewrite list_lookup_insert_eq by (rewrite List.length_map; lia). done.
    + assert (j <> i).
      { intros ->. apply list.NoDup_app in Hnd as (_ & Hd & [Hn _]%list.NoDup_cons).
        apply list_elem_of_lookup_2, elem_of_app in Hk as [Hk|Hk]; [|done]. apply (Hd _ Hk). left. }
      assert (exists k', (l1 ++ i :: l2) !! k' = Some j /\
        ((k' = k /\ k < length l1) \/ (k' = S k /\ length l1 <= k)))%nat as (k' & Hk' & Hcase).
      { destruct (decide (k < length l1)%nat) as [Hlt|Hge].
        - exists k. rewrite lookup_app_l in Hk |- * by lia. naive_solver.
        - exists (S k). rewrite lookup_app_r in Hk |- * by lia.
          replace (S k - length l1)%nat with (S (k - length l1)) by lia. cbn. split; [done|]. right. lia. }
      assert (0 <= j) as Hj.
      { apply list_elem_of_lookup_2 in Hk'. rewrite Hp in Hk'. apply elem_of_seqZ in Hk'. lia. }
      rewrite list_lookup_insert_ne by lia.
      change (map ?f ?l) with (f <$> l). rewrite list_lookup_fmap, (Hb _ _ Hk'). cbn.
      apply lookup_lt_Some in Hk'. rewrite length_app in Hk'. cbn in Hk'.
      destruct (Z.ltb_spec (Z.of_nat k') (Z.of_nat (length l1))); [|f_equal; lia].
      unfold u8. rewrite Z.mod_small by lia. f_equal. lia.
  - by rewrite length_insert, List.length_map.
Qed.

(** What the search of LRU returns: the start value if no line that may be replaced
    has more bits, else such a line with the most bits. *)
Lemma oldest_spec l : forall i index m,
  let r := Lru.oldest l i index m in
  (r = index /\ (forall k x b, l !! k = Some (x, b) -> valid_replacement b = true -> x <= m)) \/
  (exists k x b, l !! k = Some (x, b) /\ valid_replacement b = true /\ r = i + Z.of_nat k /\ m < x /\
     forall k' x' b', l !! k' = Some (x', b') -> valid_replacement b' = true -> x' <= x).
Proof.
  induction l as [|[x b] l IH]; intros i index m; cbn [Lru.oldest]; [by left|].
  destruct (Z.ltb_spec m x) as [Hx|Hx]; cbn [andb]; [destruct (valid_replacement b) eqn:Hv|].
  - right. destruct (IH (i + 1) i x) as [[-> Hle]|(k & y & c & Hk & Hc & -> & Hy & Hle)].
    + exists O, x, b. repeat split; [done|lia|lia|]. intros [|k'] x' b' Hk' Hv'; [injection Hk' as <- <-; lia|by eapply Hle].
    + exists (S k), y, c. repeat split; [done|done|lia|lia|].
      intros [|k'] x' b' Hk' Hv'; [injection Hk' as <- <-; lia|by eapply Hle].
  - destruct (IH (i + 1) index m) as [[-> Hle]|(k & y & c & Hk & Hc & -> & Hy & Hle)].
    + left. split; [done|]. intros [|k'] x' b' Hk' Hv'; [injection Hk' as <- <-; congruence|by eapply Hle].
    + right. exists (S k), y, c. repeat split; [done|done|lia|lia|].
      intros [|k'] x' b' Hk' Hv'; [injection Hk' as <- <-; congruence|by eapply Hle].
  - destruct (IH (i + 1) index m) as [[-> Hle]|(k & y & c & Hk & Hc & -> & Hy & Hle)].
    + left. split; [done|]. intros [|k'] x' b' Hk' Hv'; [injection Hk' as <- <-; lia|by eapply Hle].
    + right. exists (S k), y, c. repeat split; [done|done|lia|lia|].
      intros [|k'] x' b' Hk' Hv'; [injection Hk' as <- <-; lia|by eapply Hle].
Qed.

(** The line [i] may be replaced. *)
Definition replaceable (blocks : list CacheBlockInfo) (i : Z) : Prop :=
  exists b, blocks !! Z.to_nat i = Some b /\ valid_replacement b = true.

(** The victim of LRU: the last line in the order that may be replaced. *)
Definition lru_victim (blocks : list CacheBlockInfo) (order : list Z) (v : Z) : Prop :=
  exists l1 l2, order = l1 ++ v :: l2 /\ replaceable blocks v /\ Forall (fun j => ~ replaceable blocks j) l2.

Lemma oldest_victim bits blocks order v : lru_repr bits order -> length blocks = length bits ->
  lru_victim blocks order v -> list.head order <> Some v -> Lru.oldest (zip bits blocks) 0 0 0 = v.
Proof.
  intros HR Hl (l1 & l2 & -> & (bv & Hbv & Hrv) & Hno) Hh.
  pose proof (lru_nodup _ _ HR) as Hnd.
  pose proof (proj1 (lru_range _ _ v HR) ltac:(set_solver)) as Hv.
  pose proof (lr_bits _ _ HR (length l1) v ltac:(by apply list_lookup_middle)) as Hbits.
  assert (0 < Z.of_nat (length l1)) by (destruct l1; [done|cbn; lia]).
  assert (zip bits blocks !! Z.to_nat v = Some (Z.of_nat (length l1), bv)) as Hz.
  { apply lookup_zip_with_Some. naive_solver. }
  destruct (oldest_spec (zip bits blocks) 0 0 0) as [[_ Hle]|(k & x & b & Hk & Hb & -> & Hx & Hle)].
  - pose proof (Hle _ _ _ Hz Hrv). lia.
  - pose proof (Hle _ _ _ Hz Hrv) as Hge. apply lookup_zip_with_Some in Hk as (x' & b' & [= <- <-] & Hkx & Hkb).
    assert (Z.of_nat k ∈ l1 ++ v :: l2) as Hin by (apply (lru_range _ _ _ HR); apply lookup_lt_Some in Hkx; lia).
    apply list_elem_of_lookup_1 in Hin as [p Hp]. pose proof (lr_bits _ _ HR _ _ Hp) as Hbk.
    rewrite Nat2Z.id, Hkx in Hbk. injection Hbk as ->.
    destruct (decide (p = length l1)) as [->|].
    + rewrite list_lookup_middle in Hp by done. injection Hp as ->. lia.
    + rewrite lookup_app_r in Hp by lia. destruct (p - length l1)%nat as [|q] eqn:E; [lia|]. cbn in Hp.
      rewrite list.Forall_forall in Hno. exfalso. apply (Hno (Z.of_nat k)); [by eapply list_elem_of_lookup_2|].
      exists b. by rewrite Nat2Z.id.
Qed.

(** A series of uses of the lines of a set. *)
Fixpoint touches (ts : list Z) (info : SetInfo) (s : Lru.State) : res (SetInfo * Lru.State) :=
  match ts with
  | [] => Ok (info, s)
  | i :: ts => '(info, s) ← Lru.updateReplacementIndex i info s; touches ts info s
  end.

(** The lines by their last use: those never used come last. *)
Definition recency (n : Z) (ts : list Z) : list Z := foldl (fun o i => use i o) (seqZ 0 n) ts.

(** The statistics of a set without query-based selection. *)
Definition plain_info (n : Z) (info : SetInfo) : Prop :=
  Z.of_nat (length (m_access info)) = n /\ m_attempts info = None.

Lemma update_use n i info s order : plain_info n info -> lru_repr (Lru.m_lru_bits s) order ->
  Z.of_nat (length (Lru.m_lru_bits s)) = n -> 0 <= i < n ->
  exists info' s', Lru.updateReplacementIndex i info s = Ok (info', s') /\ plain_info n info' /\
    lru_repr (Lru.m_lru_bits s') (use i order) /\ Z.of_nat (length (Lru.m_lru_bits s')) = n /\
    Lru.m_num_attempts s' = Lru.m_num_attempts s.
Proof.
  intros [Hi1 Hi2] HR Hl Hi. destruct (moveToMRU_use _ _ i HR) as (bits' & Hm & HR' & Hl').
  { apply (lru_range _ _ _ HR). lia. }
  pose proof (proj2 (lru_range _ _ i HR) ltac:(lia)) as [p Hp]%list_elem_of_lookup_1.
  pose proof (lr_bits _ _ HR _ _ Hp) as Hb. apply lookup_lt_Some in Hp.
  pose proof (Permutation_length (lr_perm _ _ HR)) as Hlen. rewrite length_seqZ in Hlen.
  assert (vget (Lru.m_lru_bits s) i = Ok (Z.of_nat p)) as Hg by (apply vget_Ok; split; [lia|done]).
  unfold Lru.updateReplacementIndex, increment. rewrite Hg. cbn [mbind res_bind]. unfold log_assert.
  rewrite (proj2 (Z.ltb_lt _ _)) by lia. cbn [mbind res_bind].
  destruct (vget_is_Ok (m_access info) (Z.of_nat p) ltac:(lia)) as [a Ha]. rewrite Ha. cbn [mbind res_bind].
  assert (vset (m_access info) (Z.of_nat p) (u64 (a + 1)) = Ok (<[Z.to_nat (Z.of_nat p) := u64 (a + 1)]> (m_access info))) as ->
    by (apply vset_Ok; naive_solver lia).
  cbn [mbind res_bind]. rewrite Hm. cbn [mbind res_bind]. do 2 eexists. split; [reflexivity|].
  cbn. unfold plain_info. cbn. rewrite length_insert. split; [done|]. split; [done|]. split; [lia|done].
Qed.

Lemma touches_use n ts : forall info s order, plain_info n info -> lru_repr (Lru.m_lru_bits s) order ->
  Z.of_nat (length (Lru.m_lru_bits s)) = n -> Forall (fun i => 0 <= i < n) ts ->
  exists info' s', touches ts info s = Ok (info', s') /\ plain_info n info' /\
    lru_repr (Lru.m_lru_bits s') (foldl (fun o i => use i o) order ts) /\
    Z.of_nat (length (Lru.m_lru_bits s')) = n /\ Lru.m_num_attempts s' = Lru.m_num_attempts s.
Proof.
  induction ts as [|i ts IH]; intros info s order Hi HR Hl Hts; [by do 2 eexists|].
  apply list.Forall_cons in Hts as [Hr Hts]. cbn [touches foldl].
  destruct (update_use n i info s order Hi HR Hl Hr) as (info1 & s1 & -> & Hi1 & HR1 & Hl1 & Ha1).
  cbn [mbind res_bind]. destruct (IH info1 s1 _ Hi1 HR1 Hl1 Hts) as (info2 & s2 & -> & ? & ? & ? & ?).
  do 2 eexists. split; [done|]. split; [done|]. split; [done|]. split; congruence.
Qed.

Lemma first_invalid_full blocks : Forall (fun b => isValid b = true) blocks -> first_invalid blocks = None.
Proof.
  intros H. unfold first_invalid. destruct (list_find _ _) as [[j b]|] eqn:E; [|done].
  apply list_find_Some in E as (Hj & Hf & _). rewrite list.Forall_lookup in H. specialize (H _ _ Hj). congruence.
Qed.

(** The LRU policy evicts the least recently used block: after any
    series of hits the bits order the lines by their last use, and the line chosen in
    a full set is the last one in that order that may be replaced, which then counts as
    the most recent one.  (A set in which only the most recent line may be replaced is
    the exception: there line 0 is taken, whatever its state.) *)
Theorem lru_evicts_least_recent n ts blocks lower v :
  0 < n <= 256 -> Forall (fun i => 0 <= i < n) ts ->
  Z.of_nat (length blocks) = n -> Forall (fun b => isValid b = true) blocks ->
  lru_victim blocks (recency n ts) v -> list.head (recency n ts) <> Some v ->
  exists info s s', touches ts (new_set_info n 1) (Lru.new n 1) = Ok (info, s) /\
    lru_repr (Lru.m_lru_bits s) (recency n ts) /\
    Lru.getReplacementIndex lower blocks info s = Ok (v, 0, info, s') /\
    lru_repr (Lru.m_lru_bits s') (use v (recency n ts)).
Proof.
  intros Hn Hts Hb Hvalid Hv Hh.
  destruct (touches_use n ts (new_set_info n 1) (Lru.new n 1) (seqZ 0 n)) as (info & s & Ht & [Hi1 Hi2] & HR & Hl & Ha).
  { split; cbn; [|done]. rewrite length_replicate. lia. }
  { apply lru_new. lia. }
  { cbn. unfold initial_bits. rewrite length_fmap, length_seqZ. lia. }
  { done. }
  destruct (moveToMRU_use _ _ v HR) as (bits' & Hm & HR' & _).
  { destruct Hv as (l1 & l2 & E & _). unfold recency in E. rewrite E. set_solver. }
  exists info, s, (Lru.mkState 1 bits'). split; [done|]. split; [done|]. split; [|done].
  unfold Lru.getReplacementIndex. rewrite first_invalid_full by done. rewrite Ha. cbn [Lru.new Lru.m_num_attempts].
  change (Z.to_nat 1) with 1%nat. cbn [Lru.attempts]. change (0 <? 1 - 1) with false. cbn [mbind res_bind].
  rewrite (oldest_victim _ _ (recency n ts) v HR) by (try done; lia). rewrite Hm. cbn [mbind res_bind].
  unfold incrementAttempt. rewrite Hi2. done.
Qed.

Lemma lru_evicts_least_recent_witness :
  let blocks := map (fun t => setTag t new_info) [10; 11; 12] in
  exists info s s', touches [2; 0; 2; 1] (new_set_info 3 1) (Lru.new 3 1) = Ok (info, s) /\
    lru_repr (Lru.m_lru_bits s) [1; 2; 0] /\
    Lru.getReplacementIndex None blocks info s = Ok (0, 0, info, s') /\
    lru_repr (Lru.m_lru_bits s') [0; 1; 2].
Proof.
  apply (lru_evicts_least_recent 3 [2; 0; 2; 1] (map (fun t => setTag t new_info) [10; 11; 12]) None 0);
    [lia|repeat constructor; lia|reflexivity|repeat constructor| |discriminate].
  exists [1; 2], []. split; [reflexivity|]. split; [|constructor]. by eexists.
Defined.

(** In a set whose only replaceable line is the most recent one, LRU takes line 0
    although its upgrade is in progress. *)
Example lru_evicts_upgrading_line :
  let blocks := [setCState SHARED_UPGRADING (setTag 10 new_info); setTag 11 new_info] in
  exists info s, touches [0; 1] (new_set_info 2 1) (Lru.new 2 1) = Ok (info, s) /\
    isValidReplacement blocks 0 = Ok false /\ isValidReplacement blocks 1 = Ok true /\
    Lru.getReplacementIndex None blocks info s = Ok (0, 0, info, Lru.mkState 1 [0; 1]).
Proof. do 2 eexists. split; [reflexivity|]. done. Qed.

(** Round robin asks the line behind the one it returns. *)
Example round_robin_evicts_upgrading_line :
  let blocks := [setTag 10 new_info; setCState SHARED_UPGRADING (setTag 11 new_info)] in
  RoundRobin.getReplacementIndex None blocks (new_set_info 2 1) (RoundRobin.new 2) = Ok (1, 0, new_set_info 2 1, 0).
Proof. reflexivity. Qed.

(** ** A cache is a set of blocks

    What a set needs of its policy: as long as no block is being upgraded, the policy
    names a line of the set, and it can be told of every hit. *)
Class PolicyLaws (P : CachePolicy) (ways : Z) : Type := {
  pol_inv : pol_state -> Prop;
  info_inv : SetInfo -> Prop;
  index_ok : forall lower blocks info s,
    Z.of_nat (length blocks) = ways -> Forall (fun b => valid_replacement b = true) blocks ->
    pol_inv s -> info_inv info ->
    exists i n info' s', pol_index lower blocks info s = Ok (i, n, info', s') /\
      0 <= i < ways /\ pol_inv s' /\ info_inv info';
  update_ok : forall i info s, 0 <= i < ways -> pol_inv s -> info_inv info ->
    exists info' s', pol_update i info s = Ok (info', s') /\ pol_inv s' /\ info_inv info';
}.

(** The bases whose constructor accepts them and whose set index is in range. *)
Definition base_ok (b : CacheBase) : Prop :=
  0 < m_num_sets b < 2 ^ 32 /\ index_safe b /\ ahl_ok (m_ahl b) /\
  exists k, 1 <= k < 32 /\ new_base (m_num_sets b) (m_associativity b) (2 ^ k) (m_hash b) (m_ahl b) = Ok b /\
    match m_ahl b with Some a => k <= Ahl.m_ahl_param a | None => True end.

Lemma split_total b addr : base_ok b -> 0 <= addr < 2 ^ 64 ->
  exists tag i, splitAddress b addr = Ok (tag, i) /\ 0 <= i < m_num_sets b /\ tag <> no_tag.
Proof.
  intros (Hn & Hs & Ha & k & Hk & Hb & _) Haddr. destruct (new_base_fields _ _ _ _ _ _ Hb) as (_ & E2 & E3 & _).
  assert (2 ^ k < 2 ^ 32) by (apply Z.pow_lt_mono_r; lia).
  assert (2 ^ 1 <= 2 ^ k) by (apply Z.pow_le_mono_r; lia).
  rewrite floorLog2_spec, Z.log2_pow2 in E3 by lia.
  rewrite splitAddress_eq by done.
  destruct (set_index_range _ _ _ _ _ b (Z.shiftr (linear_of (m_ahl b) addr) (m_log_blocksize b)) Hn Hb Hs) as (i & -> & Hr).
  { apply Z.shiftr_nonneg, linear_of_nonneg; [done|lia]. }
  cbn [mbind res_bind]. do 2 eexists. split; [reflexivity|]. split; [done|].
  rewrite E3, Z.shiftr_div_pow2 by lia. unfold no_tag.
  assert (addr / 2 ^ k < 2 ^ 63); [|lia]. apply Z.div_lt_upper_bound; lia.
Qed.

Lemma split_unique b a1 a2 t i1 i2 : base_ok b -> 0 <= a1 < 2 ^ 64 -> 0 <= a2 < 2 ^ 64 ->
  splitAddress b a1 = Ok (t, i1) -> splitAddress b a2 = Ok (t, i2) -> i1 = i2.
Proof.
  intros (Hn & Hs & Ha & k & Hk & Hb & Hp). destruct (new_base_fields _ _ _ _ _ _ Hb) as (_ & E2 & E3 & _).
  assert (2 ^ k < 2 ^ 32) by (apply Z.pow_lt_mono_r; lia).
  assert (0 < 2 ^ k) by (apply Z.pow_pos_nonneg; lia).
  rewrite floorLog2_spec, Z.log2_pow2 in E3 by lia. apply (split_same_tag b a1 a2 t i1 i2 k); try done; lia.
Qed.

Lemma find_last_Some t l : forall i j, find_last t i l = Some j ->
  exists k b, j = i + Z.of_nat k /\ l !! k = Some b /\ m_tag b = t.
Proof.
  induction l as [|b l IH]; intros i j; cbn; [done|]. destruct (find_last t (i + 1) l) as [j'|] eqn:E.
  - intros [= <-]. destruct (IH _ _ E) as (k & b' & -> & Hk & Hb). exists (S k), b'. split; [lia|done].
  - destruct (Z.eqb_spec (m_tag b) t); [|done]. intros [= <-]. exists O, b. split; [lia|done].
Qed.

Lemma find_last_None t l : forall i, find_last t i l = None -> forall b, b ∈ l -> m_tag b <> t.
Proof.
  induction l as [|b l IH]; intros i H b' Hb; [by apply elem_of_nil in Hb|]. cbn in H.
  destruct (find_last t (i + 1) l) eqn:E; [done|]. destruct (Z.eqb_spec (m_tag b) t); [done|].
  apply elem_of_cons in Hb as [->|Hb]; [done|by eapply IH].
Qed.

Section Blocks.
Context `{P : CachePolicy} (ways : Z) `{L : !PolicyLaws P ways}.

(** The tags in a set and in a cache. *)
Definition in_set (s : CacheSet) (t : Z) : Prop :=
  t <> no_tag /\ exists b, b ∈ m_cache_block_info_array s /\ m_tag b = t.
Definition holds (c : Cache) (t : Z) : Prop := exists i s, m_sets c !! i = Some s /\ in_set s t.

(** A set of the cache: no tag twice, and every tag in the set of its addresses. *)
Record set_ok (b : CacheBase) (i : nat) (s : CacheSet) : Prop := {
  so_ways : Z.of_nat (length (m_cache_block_info_array s)) = ways;
  so_size : m_blocksize_ s = m_blocksize b;
  so_policy : pol_inv (m_policy s);
  so_home : forall t, in_set s t -> exists addr, 0 <= addr < 2 ^ 64 /\ splitAddress b addr = Ok (t, Z.of_nat i);
  so_distinct : forall k1 k2 b1 b2, m_cache_block_info_array s !! k1 = Some b1 ->
    m_cache_block_info_array s !! k2 = Some b2 -> m_tag b1 <> no_tag -> m_tag b1 = m_tag b2 -> k1 = k2;
}.

Record cache_wf (c : Cache) : Prop := {
  cw_base : base_ok (base c);
  cw_sets : Z.of_nat (length (m_sets c)) = m_num_sets (base c);
  cw_info : info_inv (m_set_info c);
  cw_set : forall i s, m_sets c !! i = Some s -> set_ok (base c) i s;
}.

(** A tag is only in the set of its addresses. *)
Lemma holds_home c i s t : cache_wf c -> m_sets c !! i = Some s -> in_set s t ->
  forall j s', m_sets c !! j = Some s' -> in_set s' t -> j = i.
Proof.
  intros W Hi Ht j s' Hj Ht'.
  destruct (so_home _ _ _ (cw_set _ W _ _ Hi) _ Ht) as (a1 & Ha1 & S1).
  destruct (so_home _ _ _ (cw_set _ W _ _ Hj) _ Ht') as (a2 & Ha2 & S2).
  pose proof (split_unique _ _ _ _ _ _ (cw_base _ W) Ha1 Ha2 S1 S2). lia.
Qed.

(** The look-up that every operation starts with. *)
Lemma lookup_set c addr : cache_wf c -> 0 <= addr < 2 ^ 64 ->
  exists t i s, splitAddress (base c) addr = Ok (t, Z.of_nat i) /\ t <> no_tag /\ m_sets c !! i = Some s /\
    vget (m_sets c) (Z.of_nat i) = Ok s /\ set_ok (base c) i s /\ (holds c t <-> in_set s t).
Proof.
  intros W Ha. destruct (split_total _ _ (cw_base _ W) Ha) as (t & z & Hs & Hz & Ht).
  pose proof (cw_sets _ W) as Hlen. destruct (vget_is_Ok (m_sets c) z ltac:(lia)) as [s Hg].
  pose proof Hg as [_ Hg']%vget_Ok. exists t, (Z.to_nat z), s. rewrite Z2Nat.id by lia.
  pose proof (cw_set _ W _ _ Hg') as Hok. repeat (split; [done|]).
  split; [|intros; by exists (Z.to_nat z), s]. intros (j & s' & Hj & Hin).
  destruct (so_home _ _ _ (cw_set _ W _ _ Hj) _ Hin) as (a' & Ha' & S').
  assert (Z.of_nat j = z) as <- by (eapply (split_unique _ _ _ _ _ _ (cw_base _ W) Ha' Ha); eassumption).
  rewrite Nat2Z.id in Hg'. congruence.
Qed.

(** Replacing one set of the cache. *)
Lemma update_set c i s s' info (added dropped : Z -> Prop) :
  cache_wf c -> m_sets c !! i = Some s -> set_ok (base c) i s' -> info_inv info ->
  (forall t, in_set s' t <-> added t \/ (in_set s t /\ ~ dropped t)) ->
  (forall t, dropped t -> forall j sj, m_sets c !! j = Some sj -> in_set sj t -> j = i) ->
  let c' := set_sets (<[i := s']> (m_sets c)) info c in
  cache_wf c' /\ forall t, holds c' t <-> added t \/ (holds c t /\ ~ dropped t).
Proof.
  intros W Hi Hok Hinfo Hin Hd c'. pose proof (lookup_lt_Some _ _ _ Hi) as Hlt. split.
  - destruct W as [W1 W2 W3 W4]. split; cbn; [done|by rewrite length_insert|done|].
    intros j sj. rewrite list_lookup_insert. case_decide; [naive_solver|apply W4].
  - intros t. split.
    + intros (j & sj & Hj & Ht). cbn in Hj. rewrite list_lookup_insert in Hj. case_decide as E.
      * destruct E as [<- _]. injection Hj as <-. apply Hin in Ht as [|[Ht Hn]]; [by left|].
        right. split; [by exists i, s|done].
      * right. split; [by exists j, sj|]. intros Hdt. apply E. split; [|done]. symmetry. by eapply Hd.
    + intros Hc. assert (m_sets c' !! i = Some s') as Hi' by (by apply list_lookup_insert_eq).
      destruct Hc as [Hadd|[(j & sj & Hj & Ht) Hn]]; [exists i, s'; split; [done|apply Hin; by left]|].
      destruct (decide (j = i)) as [->|Hne].
      * exists i, s'. split; [done|]. apply Hin. right. split; [|done]. congruence.
      * exists j, sj. cbn. by rewrite list_lookup_insert_ne by done.
Qed.

Lemma vset_set c i (s s' : CacheSet) : m_sets c !! i = Some s -> vset (m_sets c) (Z.of_nat i) s' = Ok (<[i := s']> (m_sets c)).
Proof. intros Hi%lookup_lt_Some. apply vset_Ok. rewrite Nat2Z.id. naive_solver lia. Qed.

(** The line that [find] returns. *)
Lemma find_spec s t : t <> no_tag ->
  match find t s with
  | Some line => in_set s t /\ exists b, vget (m_cache_block_info_array s) line = Ok b /\ m_tag b = t
  | None => ~ in_set s t
  end.
Proof.
  intros Ht. unfold find. destruct (find_last t 0 _) as [j|] eqn:E.
  - destruct (find_last_Some _ _ _ _ E) as (k & b & -> & Hk & Hb). split.
    + split; [done|]. exists b. split; [by eapply list_elem_of_lookup_2|done].
    + exists b. split; [|done]. apply vget_Ok. split; [lia|]. by rewrite Z.add_0_l, Nat2Z.id.
  - intros (_ & b & Hb & Htag). by eapply find_last_None.
Qed.

Lemma peek_spec c addr : cache_wf c -> 0 <= addr < 2 ^ 64 ->
  exists t i r, splitAddress (base c) addr = Ok (t, i) /\ peekSingleLine addr c = Ok r /\
    (holds c t <-> exists b, r = Some b) /\ (forall b, r = Some b -> m_tag b = t).
Proof.
  intros W Ha. destruct (lookup_set c addr W Ha) as (t & i & s & Hs & Ht & Hi & Hg & Hok & Hh).
  exists t, (Z.of_nat i). unfold peekSingleLine. rewrite Hs. cbn [mbind res_bind]. rewrite Hg. cbn [mbind res_bind].
  pose proof (find_spec s t Ht) as Hf. destruct (find t s) as [line|].
  - destruct Hf as (Hin & b & Hb & Htag). rewrite Hb. cbn [mbind res_bind]. exists (Some b). naive_solver.
  - exists None. naive_solver.
Qed.

(** Replacing one line of a set by a block whose tag is not in the set. *)
Lemma replace_line b i s k old block d p :
  set_ok b i s -> m_cache_block_info_array s !! k = Some old -> pol_inv p ->
  (m_tag block <> no_tag -> ~ in_set s (m_tag block) /\
     exists addr, 0 <= addr < 2 ^ 64 /\ splitAddress b addr = Ok (m_tag block, Z.of_nat i)) ->
  let s' := mkSet (<[k := block]> (m_cache_block_info_array s)) d (m_blocksize_ s) p in
  set_ok b i s' /\ forall t, in_set s' t <-> (t = m_tag block /\ t <> no_tag) \/ (in_set s t /\ t <> m_tag old).
Proof.
  intros [H1 H2 H3 H4 H5] Hk Hp Hnew s'. pose proof (lookup_lt_Some _ _ _ Hk) as Hlt.
  assert (forall t, in_set s' t <-> (t = m_tag block /\ t <> no_tag) \/ (in_set s t /\ t <> m_tag old)) as Hin.
  { intros t. unfold in_set. cbn [s' m_cache_block_info_array]. split.
    - intros (Ht & b' & [j Hj]%list_elem_of_lookup_1 & <-). rewrite list_lookup_insert in Hj. case_decide as E.
      + injection Hj as <-. by left.
      + right. split; [split; [done|]; exists b'; split; [by eapply list_elem_of_lookup_2|done]|].
        intros Heq. apply E. split; [|done]. symmetry. by eapply (H5 _ _ _ _ Hj Hk).
    - intros [[-> Ht]|[(Ht & b' & [j Hj]%list_elem_of_lookup_1 & <-) Hne]]; (split; [done|]).
      + exists block. split; [|done]. eapply list_elem_of_lookup_2, list_lookup_insert_eq; done.
      + exists b'. split; [|done]. eapply (list_elem_of_lookup_2 _ j). rewrite list_lookup_insert_ne; [done|naive_solver]. }
  split; [|done]. split; cbn; [by rewrite length_insert|done|done| |].
  - intros t Ht. apply Hin in Ht as [[-> Ht]|[Ht _]]; [by apply Hnew|by apply H4].
  - assert (forall j b', m_cache_block_info_array s !! j = Some b' -> m_tag b' <> no_tag -> m_tag block <> m_tag b') as Hfresh.
    { intros j b' Hj Hv Heq. rewrite <- Heq in Hv. destruct (Hnew Hv) as [Hni _]. apply Hni. split; [done|].
      exists b'. split; [by eapply list_elem_of_lookup_2|done]. }
    intros k1 k2 b1 b2. rewrite !list_lookup_insert. do 2 case_decide; intros E1 E2 Hv Heq.
    + naive_solver.
    + injection E1 as <-. exfalso. eapply Hfresh; [exact E2|congruence|done].
    + injection E2 as <-. exfalso. eapply Hfresh; [exact E1|done|done].
    + by eapply H5.
Qed.

Lemma invalidate_spec c addr : cache_wf c -> 0 <= addr < 2 ^ 64 ->
  exists t i found c', splitAddress (base c) addr = Ok (t, i) /\ invalidateSingleLine addr c = Ok (found, c') /\
    (holds c t <-> found = true) /\ cache_wf c' /\ (forall t', holds c' t' <-> holds c t' /\ t' <> t).
Proof.
  intros W Ha. destruct (lookup_set c addr W Ha) as (t & i & s & Hs & Ht & Hi & Hg & Hok & Hh).
  exists t, (Z.of_nat i). unfold invalidateSingleLine, invalidate. rewrite Hs. cbn [mbind res_bind]. rewrite Hg.
  cbn [mbind res_bind]. pose proof (find_spec s t Ht) as Hf. destruct (find t s) as [line|].
  - destruct Hf as (Hin & b & [Hl Hb]%vget_Ok & Htag).
    set (s' := set_lines _ s). rewrite (vset_set c i s s' Hi). cbn [mbind res_bind].
    assert (s' = mkSet (<[Z.to_nat line := invalidate_info b]> (m_cache_block_info_array s)) (m_blocks s) (m_blocksize_ s) (m_policy s)) as Es.
    { unfold s', set_lines. f_equal. rewrite list_insert_alter. apply list_alter_ext; [|done]. intros x. rewrite Hb. by intros [= <-]. }
    destruct (replace_line (base c) i s (Z.to_nat line) b (invalidate_info b) (m_blocks s) (m_policy s) Hok Hb)
      as [Hok' Hin']; [by apply Hok|done|]. rewrite <- Es in Hok', Hin'.
    destruct (update_set c i s s' (m_set_info c) (fun _ => False) (fun t' => t' = t) W Hi Hok' (cw_info _ W)) as [W' Hc'].
    { intros t'. rewrite Hin', Htag. cbn. naive_solver. }
    { intros t' -> j sj Hj Hsj. by eapply (holds_home c i s t). }
    do 2 eexists. split; [done|]. split; [done|]. split; [by rewrite Hh|]. split; [done|].
    intros t'. rewrite Hc'. naive_solver.
  - rewrite (vset_set c i s s Hi). cbn [mbind res_bind]. rewrite list_insert_id by done.
    exists false, (set_sets (m_sets c) (m_set_info c) c). split; [done|]. split; [done|].
    split; [naive_solver|]. destruct c. cbn in *. split; [done|]. intros t'. split; [|naive_solver].
    intros Ht'. split; [done|]. intros ->. naive_solver.
Qed.

(** Touching a line changes neither the tags nor the shape of the set. *)
Lemma touch_spec b i s line upd info d : set_ok b i s -> 0 <= line < ways -> info_inv info ->
  exists info' s', touch_line upd line info (set_data d s) = Ok (info', s') /\ info_inv info' /\ set_ok b i s' /\
    m_cache_block_info_array s' = m_cache_block_info_array s.
Proof.
  intros [H1 H2 H3 H4 H5] Hl Hinfo. unfold touch_line. destruct upd.
  - destruct (update_ok line info (m_policy (set_data d s)) Hl H3 Hinfo) as (info' & p & -> & Hp & Hinfo').
    cbn [mbind res_bind]. do 2 eexists. split; [done|]. split; [done|]. split; [by split|done].
  - do 2 eexists. split; [done|]. split; [done|]. split; [by split|done].
Qed.

Lemma access_line_spec c addr a buff bytes upd : cache_wf c -> 0 <= addr < 2 ^ 64 ->
  block_offset (base c) addr + bytes <= m_blocksize (base c) ->
  exists t i r c', splitAddress (base c) addr = Ok (t, i) /\ accessSingleLine addr a buff bytes upd c = Ok (r, c') /\
    (holds c t <-> exists x, r = Some x) /\ (forall x, r = Some x -> m_tag x.1 = t) /\
    cache_wf c' /\ (forall t', holds c' t' <-> holds c t').
Proof.
  intros W Ha Hsize. destruct (lookup_set c addr W Ha) as (t & i & s & Hs & Ht & Hi & Hg & Hok & Hh).
  exists t, (Z.of_nat i). unfold accessSingleLine. rewrite Hs. cbn [mbind res_bind]. rewrite Hg. cbn [mbind res_bind].
  pose proof (find_spec s t Ht) as Hf. destruct (find t s) as [line|]; [|exists None, c; naive_solver].
  destruct Hf as (Hin & b & Hb & Htag). pose proof (vget_inside _ _ _ Hb) as Hline. rewrite (so_ways _ _ _ Hok) in Hline.
  rewrite Hb. cbn [mbind res_bind]. rewrite <- (so_size _ _ _ Hok) in Hsize.
  enough (exists out info s', (match a with
      | LOAD => read_line line (block_offset (base c) addr) bytes upd (m_set_info c) s
      | STORE => '(info, s) ← write_line line (block_offset (base c) addr) buff bytes upd (m_set_info c) s; Ok (None, info, s)
      end) = Ok (out, info, s') /\ info_inv info /\ set_ok (base c) i s' /\
      m_cache_block_info_array s' = m_cache_block_info_array s) as (out & info & s' & -> & Hinfo & Hok' & Hl).
  { cbn [mbind res_bind]. rewrite (vset_set c i s s' Hi). cbn [mbind res_bind].
    destruct (update_set c i s s' info (fun _ => False) (fun _ => False) W Hi Hok' Hinfo) as [W' Hc']; [|done|].
    { intros t'. unfold in_set. rewrite Hl. naive_solver. }
    do 2 eexists. split; [done|]. split; [done|]. split; [naive_solver|]. split; [naive_solver|]. split; [done|].
    intros t'. rewrite Hc'. naive_solver. }
  assert (log_assert (block_offset (base c) addr + bytes <=? m_blocksize_ s) = Ok tt) as Hassert.
  { unfold log_assert. by rewrite (proj2 (Z.leb_le _ _)) by done. }
  destruct a.
  - unfold read_line. rewrite Hassert. cbn [mbind res_bind].
    destruct (touch_spec (base c) i s line upd (m_set_info c) (m_blocks s) Hok Hline (cw_info _ W)) as (info & s' & Htl & ?).
    replace (set_data (m_blocks s) s) with s in Htl by (by destruct s). rewrite Htl. cbn [mbind res_bind].
    by do 3 eexists.
  - unfold write_line. rewrite Hassert. cbn [mbind res_bind].
    assert (exists d, match buff with
      | Some l => copy_in s (line * m_blocksize_ s + block_offset (base c) addr) (take (Z.to_nat bytes) l)
      | None => s end = set_data d s) as [d ->].
    { destruct buff as [l|]; [by eexists|exists (m_blocks s); by destruct s]. }
    destruct (touch_spec (base c) i s line upd (m_set_info c) d Hok Hline (cw_info _ W)) as (info & s' & -> & ?).
    cbn [mbind res_bind]. by do 3 eexists.
Qed.

(** No block of the cache has an upgrade in progress. *)
Definition no_upgrades (c : Cache) : Prop :=
  forall i s, m_sets c !! i = Some s -> Forall (fun b => valid_replacement b = true) (m_cache_block_info_array s).

Lemma insert_line_spec c addr fill lower : cache_wf c -> 0 <= addr < 2 ^ 64 -> no_upgrades c ->
  exists t i, splitAddress (base c) addr = Ok (t, i) /\ (~ holds c t ->
  exists r n c', insertSingleLine addr fill lower c = Ok (r, n, c') /\ cache_wf c' /\
    (forall t', holds c' t' <-> t' = t \/ (holds c t' /\ forall x, r = Some x -> m_tag x.1.2 <> t')) /\
    (forall x, r = Some x -> holds c (m_tag x.1.2) /\ x.1.1 = tagToAddress (base c) (m_tag x.1.2))).
Proof.
  intros W Ha Hup. destruct (lookup_set c addr W Ha) as (t & i & s & Hs & Ht & Hi & Hg & Hok & Hh).
  exists t, (Z.of_nat i). split; [done|]. intros Hnew.
  unfold insertSingleLine, insert_block. rewrite Hs. cbn [mbind res_bind]. rewrite Hg. cbn [mbind res_bind].
  destruct (index_ok lower (m_cache_block_info_array s) (m_set_info c) (m_policy s)) as (k & n & info & p & -> & Hk & Hp & Hinfo);
    [apply Hok|by eapply Hup|apply Hok|apply W|].
  cbn [mbind res_bind]. destruct (vget_is_Ok (m_cache_block_info_array s) k) as [old Hold]; [by rewrite (so_ways _ _ _ Hok)|].
  pose proof Hold as [_ Hold']%vget_Ok. rewrite Hold. cbn [mbind res_bind].
  assert (vset (m_cache_block_info_array s) k (setTag t new_info) =
    Ok (<[Z.to_nat k := setTag t new_info]> (m_cache_block_info_array s))) as ->.
  { apply vset_Ok. rewrite (so_ways _ _ _ Hok). naive_solver. }
  cbn [mbind res_bind].
  match goal with |- context [vset (m_sets c) _ ?x] => set (s' := x) end.
  assert (exists d, s' = mkSet (<[Z.to_nat k := setTag t new_info]> (m_cache_block_info_array s)) d (m_blocksize_ s) p) as [d Es].
  { unfold s'. destruct fill as [l|]; by eexists. }
  destruct (replace_line (base c) i s (Z.to_nat k) old (setTag t new_info) d p Hok Hold' Hp) as [Hok' Hin'].
  { intros _. cbn. split; [by rewrite <- Hh|by exists addr]. }
  rewrite <- Es in Hok', Hin'. rewrite (vset_set c i s s' Hi). cbn [mbind res_bind].
  assert (m_tag old <> no_tag -> in_set s (m_tag old)) as Hold_in.
  { intros Hv. split; [done|]. exists old. split; [by eapply list_elem_of_lookup_2|done]. }
  destruct (update_set c i s s' info (fun t' => t' = t) (fun t' => t' = m_tag old /\ t' <> no_tag) W Hi Hok' Hinfo) as [W' Hc'].
  { intros t'. rewrite Hin'. cbn. unfold in_set. naive_solver. }
  { intros t' [-> Hv] j sj Hj Hsj. eapply (holds_home c i s); eauto. }
  do 3 eexists. split; [done|]. split; [done|]. unfold isValid. destruct (Z.eqb_spec (m_tag old) no_tag) as [E|E]; cbn.
  - split; [|done]. intros t'. rewrite Hc'. naive_solver.
  - split.
    + intros t'. rewrite Hc'. split; [|naive_solver]. intros [|[H1 H2]]; [by left|].
      right. split; [done|]. intros x [= <-]. cbn. intros <-. by apply H2.
    + intros x [= <-]. cbn. split; [|done]. exists i, s. split; [done|]. by apply Hold_in.
Qed.
End Blocks.

(** The policies that keep the laws. *)
Lemma first_invalid_range blocks i : first_invalid blocks = Some i -> 0 <= i < Z.of_nat (length blocks).
Proof.
  unfold first_invalid. destruct (list_find _ _) as [[j b]|] eqn:E; [|done]. intros [= <-].
  apply list_find_Some in E as (Hj%lookup_lt_Some & _). lia.
Qed.

(** The bits of [ways] lines order them in some way. *)
Definition ordered (ways : Z) (bits : list Z) : Prop :=
  Z.of_nat (length bits) = ways /\ exists order, lru_repr bits order.

Lemma ordered_new n : 0 <= n <= 256 -> ordered n (initial_bits n).
Proof.
  intros Hn. split; [|eexists; by apply lru_new]. unfold initial_bits. rewrite length_fmap, length_seqZ. lia.
Qed.

Lemma ordered_move ways bits i : ordered ways bits -> 0 <= i < ways ->
  exists bits', moveToMRU i bits = Ok bits' /\ ordered ways bits'.
Proof.
  intros [Hl [order HR]] Hi. destruct (moveToMRU_use _ _ i HR) as (bits' & -> & HR' & Hl').
  { apply (lru_range _ _ _ HR). lia. }
  eexists. split; [done|]. split; [congruence|by eexists].
Qed.

(** In such an order exactly one line is the most recent one. *)
Lemma ordered_newest ways bits : ordered ways bits -> 0 < ways ->
  exists j, 0 <= j < ways /\ forall i x, vget bits i = Ok x -> (x = 0 <-> i = j).
Proof.
  intros [Hl [order HR]] Hw. pose proof (Permutation_length (lr_perm _ _ HR)) as Hlen. rewrite length_seqZ in Hlen.
  destruct order as [|j order]; [cbn in Hlen; lia|]. exists j.
  pose proof (proj1 (lru_range _ _ j HR) ltac:(left)) as Hj. split; [lia|]. intros i x Hx.
  pose proof (proj2 (lru_range _ _ i HR) ltac:(by eapply vget_inside)) as [p Hp]%list_elem_of_lookup_1.
  apply vget_Ok in Hx as [_ Hx]. rewrite (lr_bits _ _ HR _ _ Hp) in Hx. injection Hx as <-. split.
  - intros E. assert (p = O) as -> by lia. cbn in Hp. congruence.
  - intros ->. pose proof (NoDup_lookup _ p O j (lru_nodup _ _ HR) Hp eq_refl). lia.
Qed.

Definition lru_inv (ways : Z) (s : Lru.State) : Prop := Lru.m_num_attempts s = 1 /\ ordered ways (Lru.m_lru_bits s).

Lemma oldest_range bits blocks ways : 0 < ways -> Z.of_nat (length blocks) = ways ->
  0 <= Lru.oldest (zip bits blocks) 0 0 0 < ways.
Proof.
  intros Hw Hb. destruct (oldest_spec (zip bits blocks) 0 0 0) as [[-> _]|(k & x & b & Hk & _ & -> & _)]; [lia|].
  apply lookup_zip_with_Some in Hk as (? & ? & _ & _ & Hk%lookup_lt_Some). lia.
Qed.

Lemma lru_index_ok ways lower blocks info s : 0 < ways -> Z.of_nat (length blocks) = ways ->
  Forall (fun b => valid_replacement b = true) blocks -> lru_inv ways s -> plain_info ways info ->
  exists i n info' s', Lru.getReplacementIndex lower blocks info s = Ok (i, n, info', s') /\
    0 <= i < ways /\ lru_inv ways s' /\ plain_info ways info'.
Proof.
  intros Hw Hb _ [Ha Ho] Hi. unfold Lru.getReplacementIndex. rewrite Ha.
  destruct (first_invalid blocks) as [i|] eqn:E.
  - apply first_invalid_range in E. destruct (ordered_move _ _ i Ho ltac:(lia)) as (bits & -> & Ho').
    cbn [mbind res_bind]. do 4 eexists. split; [done|]. split; [lia|]. by split.
  - change (Z.to_nat 1) with 1%nat. cbn [Lru.attempts]. change (0 <? 1 - 1) with false. cbn [mbind res_bind].
    pose proof (oldest_range (Lru.m_lru_bits s) blocks ways Hw Hb) as Hr.
    destruct (ordered_move _ _ _ Ho Hr) as (bits & -> & Ho'). cbn [mbind res_bind].
    unfold incrementAttempt. rewrite (proj2 Hi). cbn. by do 4 eexists.
Qed.

Lemma lru_update_ok ways i info s : 0 <= i < ways -> lru_inv ways s -> plain_info ways info ->
  exists info' s', Lru.updateReplacementIndex i info s = Ok (info', s') /\ lru_inv ways s' /\ plain_info ways info'.
Proof.
  intros Hi [Ha [Hl [order HR]]] Hinfo.
  destruct (update_use ways i info s order Hinfo HR Hl Hi) as (info' & s' & -> & Hi' & HR' & Hl' & Ha').
  do 2 eexists. split; [done|]. split; [|done]. split; [congruence|]. split; [done|by eexists].
Qed.

#[export] Instance lru_laws ways (Hw : 0 < ways) : PolicyLaws Lru.policy ways :=
  Build_PolicyLaws Lru.policy ways (lru_inv ways) (plain_info ways)
    (fun lower blocks info s => lru_index_ok ways lower blocks info s Hw) (lru_update_ok ways).

Lemma mru_index_ok ways lower blocks info s : 0 < ways -> Z.of_nat (length blocks) = ways ->
  Forall (fun b => valid_replacement b = true) blocks -> ordered ways s -> plain_info ways info ->
  exists i n info' s', Mru.getReplacementIndex lower blocks info s = Ok (i, n, info', s') /\
    0 <= i < ways /\ ordered ways s' /\ plain_info ways info'.
Proof.
  intros Hw Hb Hv Ho Hi. unfold Mru.getReplacementIndex.
  enough (exists i, (match first_invalid blocks with
    | Some i => Ok i | None => Mru.youngest (seqZ 0 (Z.of_nat (length blocks))) (zip s blocks) end) = Ok i /\ 0 <= i < ways)
    as (i & -> & Hr).
  { cbn [mbind res_bind]. destruct (ordered_move _ _ i Ho Hr) as (bits & -> & Ho'). cbn. by do 4 eexists. }
  destruct (first_invalid blocks) as [i|] eqn:E; [exists i; apply first_invalid_range in E; split; [done|lia]|].
  destruct (ordered_newest _ _ Ho Hw) as (j & Hj & Hz). pose proof Ho as [Hl _].
  destruct (vget_is_Ok s j ltac:(lia)) as [x Hx]. assert (x = 0) as -> by (by apply (Hz _ _ Hx)).
  rewrite seqZ_cons by lia. cbn [Mru.youngest].
  assert (exists i, Mru.find_target 0 (zip s blocks) = Some i /\ 0 <= i < ways) as (i & -> & Hr); [|by exists i].
  unfold Mru.find_target. destruct (list_find _ _) as [[i y]|] eqn:F.
  - apply list_find_Some in F as (F%lookup_lt_Some & _). rewrite length_zip_with in F. eexists. split; [done|]. lia.
  - exfalso. rewrite list_find_None, list.Forall_lookup in F.
    destruct (lookup_lt_is_Some_2 blocks (Z.to_nat j) ltac:(lia)) as [b Hbj].
    apply (F (Z.to_nat j) (0, b)).
    + apply lookup_zip_with_Some. apply vget_Ok in Hx. naive_solver.
    + cbn. rewrite list.Forall_lookup in Hv. by apply (Hv _ _ Hbj).
Qed.

Lemma mru_update_ok ways i info s : 0 <= i < ways -> ordered ways s -> plain_info ways info ->
  exists info' s', Mru.updateReplacementIndex i info s = Ok (info', s') /\ ordered ways s' /\ plain_info ways info'.
Proof.
  intros Hi Ho Hinfo. unfold Mru.updateReplacementIndex. destruct (ordered_move _ _ i Ho Hi) as (bits & -> & Ho').
  cbn. by do 2 eexists.
Qed.

#[export] Instance mru_laws ways (Hw : 0 < ways) : PolicyLaws Mru.policy ways :=
  Build_PolicyLaws Mru.policy ways (ordered ways) (plain_info ways)
    (fun lower blocks info s => mru_index_ok ways lower blocks info s Hw) (mru_update_ok ways).

Lemma round_robin_index_ok ways lower blocks info s : 0 < ways -> Z.of_nat (length blocks) = ways ->
  Forall (fun b => valid_replacement b = true) blocks -> 0 <= s < ways -> plain_info ways info ->
  exists i n info' s', RoundRobin.getReplacementIndex lower blocks info s = Ok (i, n, info', s') /\
    0 <= i < ways /\ 0 <= s' < ways /\ plain_info ways info'.
Proof.
  intros Hw Hb Hv Hs Hi. unfold RoundRobin.getReplacementIndex.
  destruct (length blocks) as [|n] eqn:El; [lia|]. cbn [RoundRobin.next]. rewrite El.
  set (moved := if s =? 0 then _ else _).
  assert (0 <= moved < ways) as Hm by (unfold moved; destruct (Z.eqb_spec s 0); lia).
  destruct (vget_is_Ok blocks moved ltac:(lia)) as [b Hmb]. unfold isValidReplacement. rewrite Hmb. cbn [mbind res_bind].
  apply vget_Ok in Hmb as [_ Hmb]. rewrite list.Forall_lookup in Hv. rewrite (Hv _ _ Hmb). cbn [mbind res_bind].
  by do 4 eexists.
Qed.

#[export] Instance round_robin_laws ways (Hw : 0 < ways) : PolicyLaws RoundRobin.policy ways :=
  Build_PolicyLaws RoundRobin.policy ways (fun s => 0 <= s < ways) (plain_info ways)
    (fun lower blocks info s => round_robin_index_ok ways lower blocks info s Hw)
    (fun i info s _ Hs Hi => ex_intro _ info (ex_intro _ s (conj eq_refl (conj Hs Hi)))).

Lemma random_index_ok ways draws lower blocks info s : 0 < ways -> Z.of_nat (length blocks) = ways ->
  Forall (fun b => valid_replacement b = true) blocks -> True -> plain_info ways info ->
  exists i n info' s', RandomPolicy.getReplacementIndex (S draws) lower blocks info s = Ok (i, n, info', s') /\
    0 <= i < ways /\ True /\ plain_info ways info'.
Proof.
  intros Hw Hb Hv _ Hi. unfold RandomPolicy.getReplacementIndex. destruct (first_invalid blocks) as [i|] eqn:E.
  - apply first_invalid_range in E. do 4 eexists. split; [done|]. split; [lia|done].
  - cbn [RandomPolicy.draw].
    destruct (umod_range (RandomPolicy.value (RandomPolicy.next_seed s)) (Z.of_nat (length blocks))) as (r & -> & Hr); [lia|].
    cbn [mbind res_bind]. destruct (vget_is_Ok blocks r Hr) as [b Hmb]. unfold isValidReplacement. rewrite Hmb.
    cbn [mbind res_bind]. apply vget_Ok in Hmb as [_ Hmb]. rewrite list.Forall_lookup in Hv. rewrite (Hv _ _ Hmb).
    cbn [mbind res_bind]. do 4 eexists. split; [done|]. split; [lia|done].
Qed.

#[export] Instance random_laws ways draws (Hw : 0 < ways) : PolicyLaws (RandomPolicy.policy (S draws)) ways :=
  Build_PolicyLaws (RandomPolicy.policy (S draws)) ways (fun _ => True) (plain_info ways)
    (fun lower blocks info s => random_index_ok ways draws lower blocks info s Hw)
    (fun i info s _ Hs Hi => ex_intro _ info (ex_intro _ s (conj eq_refl (conj Hs Hi)))).

Definition nmru_inv (ways : Z) (s : Nmru.State) : Prop :=
  ordered ways (Nmru.m_lru_bits s) /\ 0 <= Nmru.m_replacement_pointer s < ways.

(** The pointer line, or the one behind it, is not the most recent one. *)
Lemma nmru_scan ways bits blocks pointer : 1 < ways <= 256 -> ordered ways bits -> Z.of_nat (length blocks) = ways ->
  Forall (fun b => valid_replacement b = true) blocks -> 0 <= pointer < ways ->
  exists i next, scan (length blocks) (fun x b => negb (x =? 0) && valid_replacement b) bits blocks pointer = Ok (i, next) /\
    0 <= i < ways /\ 0 <= next < ways.
Proof.
  intros Hw Ho Hb Hv Hp. destruct (ordered_newest _ _ Ho ltac:(lia)) as (j & Hj & Hz). pose proof Ho as [Hl _].
  assert (forall q, 0 <= q < ways -> exists x b, vget bits q = Ok x /\ vget blocks q = Ok b /\ valid_replacement b = true) as Hget.
  { intros q Hq. destruct (vget_is_Ok bits q ltac:(lia)) as [x Hx]. destruct (vget_is_Ok blocks q ltac:(lia)) as [b Hbq].
    exists x, b. split; [done|]. split; [done|]. rewrite list.Forall_lookup in Hv. apply vget_Ok in Hbq as [_ Hbq]. eauto. }
  assert (forall q, 0 <= u8 ((q + 1) mod ways) < ways /\ (0 <= q < ways -> u8 ((q + 1) mod ways) <> q)) as Hnext.
  { intros q. pose proof (Z.mod_pos_bound (q + 1) ways ltac:(lia)). unfold u8. rewrite Z.mod_small by lia.
    split; [done|]. intros Hq. destruct (decide (q + 1 = ways)) as [E|]; [rewrite E, Z.mod_same by lia; lia|].
    rewrite Z.mod_small by lia. lia. }
  destruct (length blocks) as [|[|n]] eqn:El; [lia|lia|]. cbn [scan]. rewrite El, Hb.
  destruct (Hget pointer Hp) as (x & b & Hx & Hbx & Hrx). rewrite Hx. cbn [mbind res_bind].
  rewrite Hbx. cbn [mbind res_bind]. rewrite Hrx, andb_true_r.
  destruct (Z.eqb_spec x 0) as [E|E]; cbn [negb].
  - destruct (Hnext pointer) as [Hn1 Hn2]. destruct (Hget _ Hn1) as (y & b' & Hy & Hby & Hry). rewrite Hy. cbn [mbind res_bind].
    rewrite Hby. cbn [mbind res_bind]. rewrite Hry, andb_true_r. apply (Hz _ _ Hx) in E as ->.
    rewrite (proj2 (Z.eqb_neq y 0)) by (rewrite (Hz _ _ Hy); by apply Hn2). cbn [negb].
    do 2 eexists. split; [done|]. split; [done|]. by apply Hnext.
  - do 2 eexists. split; [done|]. split; [done|]. by apply Hnext.
Qed.

Lemma nmru_index_ok ways lower blocks info s : 1 < ways <= 256 -> Z.of_nat (length blocks) = ways ->
  Forall (fun b => valid_replacement b = true) blocks -> nmru_inv ways s -> plain_info ways info ->
  exists i n info' s', Nmru.getReplacementIndex lower blocks info s = Ok (i, n, info', s') /\
    0 <= i < ways /\ nmru_inv ways s' /\ plain_info ways info'.
Proof.
  intros Hw Hb Hv [Ho Hp] Hi. unfold Nmru.getReplacementIndex. destruct (first_invalid blocks) as [i|] eqn:E.
  - apply first_invalid_range in E. destruct (ordered_move _ _ i Ho ltac:(lia)) as (bits & -> & Ho').
    cbn [mbind res_bind]. do 4 eexists. split; [done|]. split; [lia|]. by split.
  - destruct (nmru_scan _ _ _ _ Hw Ho Hb Hv Hp) as (i & next & -> & Hr & Hn). cbn [mbind res_bind].
    destruct (ordered_move _ _ i Ho Hr) as (bits & -> & Ho'). cbn [mbind res_bind]. by do 4 eexists.
Qed.

Lemma nmru_update_ok ways i info s : 0 <= i < ways -> nmru_inv ways s -> plain_info ways info ->
  exists info' s', Nmru.updateReplacementIndex i info s = Ok (info', s') /\ nmru_inv ways s' /\ plain_info ways info'.
Proof.
  intros Hi [Ho Hp] Hinfo. unfold Nmru.updateReplacementIndex. destruct (ordered_move _ _ i Ho Hi) as (bits & -> & Ho').
  cbn. by do 2 eexists.
Qed.

#[export] Instance nmru_laws ways (Hw : 1 < ways <= 256) : PolicyLaws Nmru.policy ways :=
  Build_PolicyLaws Nmru.policy ways (nmru_inv ways) (plain_info ways)
    (fun lower blocks info s => nmru_index_ok ways lower blocks info s Hw) (nmru_update_ok ways).

(** A scan finds a line that satisfies its condition if there is one. *)
Lemma scan_total ways p bits blocks d : forall fuel pointer,
  0 < ways <= 256 -> Z.of_nat (length bits) = ways -> Z.of_nat (length blocks) = ways -> 0 <= pointer < ways ->
  (d < fuel)%nat ->
  (forall x b, vget bits ((pointer + Z.of_nat d) mod ways) = Ok x -> vget blocks ((pointer + Z.of_nat d) mod ways) = Ok b ->
     p x b = true) ->
  exists i next, scan fuel p bits blocks pointer = Ok (i, next) /\ 0 <= i < ways /\ 0 <= next < ways.
Proof.
  induction d as [|d IH]; intros [|fuel] pointer Hw Hb Hbl Hp Hd Hq; try lia; cbn [scan];
    destruct (vget_is_Ok bits pointer ltac:(lia)) as [x Hx]; destruct (vget_is_Ok blocks pointer ltac:(lia)) as [b Hbp];
    rewrite Hx; cbn [mbind res_bind]; rewrite Hbp; cbn [mbind res_bind]; rewrite Hbl;
    pose proof (Z.mod_pos_bound (pointer + 1) ways ltac:(lia)) as Hm;
    (assert (u8 ((pointer + 1) mod ways) = (pointer + 1) mod ways) as -> by (apply Z.mod_small; lia)).
  - rewrite Z.add_0_r, Z.mod_small in Hq by lia. rewrite (Hq x b Hx Hbp). by do 2 eexists.
  - destruct (p x b); [by do 2 eexists|]. apply IH; try done; [lia|].
    intros x' b'. rewrite Z.add_mod_idemp_l by lia.
    replace (pointer + 1 + Z.of_nat d) with (pointer + Z.of_nat (S d)) by lia. apply Hq.
Qed.

(** The distance from the pointer to a line. *)
Lemma pointer_distance ways pointer q : 0 < ways -> 0 <= pointer < ways -> 0 <= q < ways ->
  exists d, (Z.of_nat d < ways) /\ (pointer + Z.of_nat d) mod ways = q.
Proof.
  intros Hw Hp Hq. pose proof (Z.mod_pos_bound (q - pointer) ways Hw).
  exists (Z.to_nat ((q - pointer) mod ways)). rewrite Z2Nat.id by lia. split; [lia|].
  rewrite Z.add_mod_idemp_r by lia. replace (pointer + (q - pointer)) with q by lia. by apply Z.mod_small.
Qed.

Definition nru_inv (ways : Z) (s : Nru.State) : Prop :=
  Z.of_nat (length (Nru.m_lru_bits s)) = ways /\ 0 <= Nru.m_replacement_pointer s < ways.

Lemma nru_touch ways i s : nru_inv ways s -> 0 <= i < ways -> exists s', Nru.touch i s = Ok s' /\ nru_inv ways s'.
Proof.
  intros [Hl Hp] Hi. unfold Nru.touch.
  assert (vset (Nru.m_lru_bits s) i 1 = Ok (<[Z.to_nat i := 1]> (Nru.m_lru_bits s))) as ->
    by (apply vset_Ok; naive_solver lia).
  cbn [mbind res_bind]. case_match; (eexists; split; [done|]; split; cbn; [|done]).
  - by rewrite List.length_map, length_insert.
  - by rewrite length_insert.
Qed.

Lemma nru_index_ok ways lower blocks info s : 0 < ways <= 256 -> Z.of_nat (length blocks) = ways ->
  Forall (fun b => valid_replacement b = true) blocks -> nru_inv ways s -> plain_info ways info ->
  exists i n info' s', Nru.getReplacementIndex lower blocks info s = Ok (i, n, info', s') /\
    0 <= i < ways /\ nru_inv ways s' /\ plain_info ways info'.
Proof.
  intros Hw Hb Hv Hs Hi. pose proof Hs as [Hl Hp]. unfold Nru.getReplacementIndex.
  destruct (first_invalid blocks) as [i|] eqn:E.
  - apply first_invalid_range in E. destruct (nru_touch ways i s Hs ltac:(lia)) as (s' & -> & Hs').
    cbn [mbind res_bind]. do 4 eexists. split; [done|]. split; [lia|done].
  - set (zero := existsb _ _).
    assert (exists q, 0 <= q < ways /\ forall x b, vget (Nru.m_lru_bits s) q = Ok x -> vget blocks q = Ok b ->
      ((x =? 0) || negb zero) && valid_replacement b = true) as (q & Hq & Hcond).
    { rewrite list.Forall_lookup in Hv. destruct zero eqn:Ez.
      - apply existsb_exists in Ez as ([x b] & Hin & Hc). apply list_elem_of_In, list_elem_of_lookup_1 in Hin as [k Hk].
        apply lookup_zip_with_Some in Hk as (x' & b' & [= <- <-] & Hkx & Hkb). exists (Z.of_nat k).
        split; [apply lookup_lt_Some in Hkx; lia|]. intros x1 b1 [_ H1]%vget_Ok [_ H2]%vget_Ok.
        rewrite Nat2Z.id in H1, H2. rewrite Hkx in H1. rewrite Hkb in H2. injection H1 as <-. injection H2 as <-.
        cbn in Hc. by rewrite orb_false_r.
      - exists 0. split; [lia|]. intros x b _ [_ H2]%vget_Ok. rewrite orb_true_r. by apply (Hv _ _ H2). }
    destruct (pointer_distance ways _ q ltac:(lia) Hp Hq) as (d & Hd & Hdq).
    destruct (scan_total ways (fun x b => ((x =? 0) || negb zero) && valid_replacement b) (Nru.m_lru_bits s) blocks d
      (length blocks) (Nru.m_replacement_pointer s)) as (i & next & -> & Hr & Hn); [lia|done|done|done|lia|by rewrite Hdq|].
    cbn [mbind res_bind].
    destruct (nru_touch ways i (Nru.mkState (Nru.m_lru_bits s) (Nru.m_num_bits_set s) next) (conj Hl Hn) Hr) as (s' & -> & Hs').
    cbn [mbind res_bind]. by do 4 eexists.
Qed.

Lemma nru_update_ok ways i info s : 0 <= i < ways -> nru_inv ways s -> plain_info ways info ->
  exists info' s', Nru.updateReplacementIndex i info s = Ok (info', s') /\ nru_inv ways s' /\ plain_info ways info'.
Proof.
  intros Hi Hs Hinfo. unfold Nru.updateReplacementIndex. destruct (nru_touch ways i s Hs Hi) as (s' & -> & Hs').
  cbn. by do 2 eexists.
Qed.

#[export] Instance nru_laws ways (Hw : 0 < ways <= 256) : PolicyLaws Nru.policy ways :=
  Build_PolicyLaws Nru.policy ways (nru_inv ways) (plain_info ways)
    (fun lower blocks info s => nru_index_ok ways lower blocks info s Hw) (nru_update_ok ways).

Lemma plru_turn ways i s : ways = 4 \/ ways = 8 -> exists s', Plru.turn ways i s = Ok s'.
Proof. intros [-> | ->]; by eexists. Qed.

Lemma plru_victim ways s : ways = 4 \/ ways = 8 -> exists v, Plru.victim ways s = Ok v /\ 0 <= v < ways.
Proof.
  intros [-> | ->]; (eexists; split; [reflexivity|]); repeat case_match; lia.
Qed.

Lemma plru_index_ok ways lower blocks info s : ways = 4 \/ ways = 8 -> Z.of_nat (length blocks) = ways ->
  Forall (fun b => valid_replacement b = true) blocks -> True -> plain_info ways info ->
  exists i n info' s', Plru.getReplacementIndex lower blocks info s = Ok (i, n, info', s') /\
    0 <= i < ways /\ True /\ plain_info ways info'.
Proof.
  intros Hw Hb Hv _ Hi. unfold Plru.getReplacementIndex. rewrite Hb. destruct (first_invalid blocks) as [i|] eqn:E.
  - apply first_invalid_range in E. destruct (plru_turn ways i s Hw) as [s' ->]. cbn [mbind res_bind].
    do 4 eexists. split; [done|]. split; [lia|done].
  - destruct (plru_victim ways s Hw) as (v & -> & Hr). cbn [mbind res_bind].
    destruct (vget_is_Ok blocks v ltac:(lia)) as [b Hbv]. unfold isValidReplacement. rewrite Hbv. cbn [mbind res_bind].
    apply vget_Ok in Hbv as [_ Hbv]. rewrite list.Forall_lookup in Hv. rewrite (Hv _ _ Hbv). cbn [log_assert mbind res_bind].
    destruct (plru_turn ways v s Hw) as [s' ->]. cbn [mbind res_bind]. by do 4 eexists.
Qed.

Lemma plru_update_ok ways i info s : ways = 4 \/ ways = 8 -> 0 <= i < ways -> True -> plain_info ways info ->
  exists info' s', Plru.updateReplacementIndex ways i info s = Ok (info', s') /\ True /\ plain_info ways info'.
Proof.
  intros Hw Hi _ Hinfo. unfold Plru.updateReplacementIndex. destruct (plru_turn ways i s Hw) as [s' ->].
  cbn. by do 2 eexists.
Qed.

#[export] Instance plru_laws ways (Hw : ways = 4 \/ ways = 8) : PolicyLaws (Plru.policy ways) ways :=
  Build_PolicyLaws (Plru.policy ways) ways (fun _ => True) (plain_info ways)
    (fun lower blocks info s => plru_index_ok ways lower blocks info s Hw)
    (fun i info s => plru_update_ok ways i info s Hw).

(** SRRIP without query-based selection; the statistics have a place for every
    prediction. *)
Record srrip_inv (ways : Z) (s : Srrip.State) : Prop := {
  sr_ways : Z.of_nat (length (Srrip.m_rrip_bits s)) = ways;
  sr_pointer : 0 <= Srrip.m_replacement_pointer s < ways;
  sr_attempts : Srrip.m_num_attempts s = 1;
  sr_max : 0 < Srrip.m_rrip_max s < Z.min ways 256;
  sr_insert : Srrip.m_rrip_insert s = Srrip.m_rrip_max s - 1;
  sr_bits : Forall (fun x => 0 <= x <= Srrip.m_rrip_max s) (Srrip.m_rrip_bits s);
}.

(** Some line is within [k] of being replaceable. *)
Definition near (k : Z) (s : Srrip.State) : Prop :=
  exists q x, vget (Srrip.m_rrip_bits s) q = Ok x /\ Srrip.m_rrip_max s - k <= x.

Lemma srrip_set_bits ways s bits : srrip_inv ways s -> length bits = length (Srrip.m_rrip_bits s) ->
  Forall (fun x => 0 <= x <= Srrip.m_rrip_max s) bits -> srrip_inv ways (Srrip.set_bits bits s).
Proof. intros [] Hl Hb. split; cbn; try done. congruence. Qed.

Lemma srrip_advance ways blocks s : srrip_inv ways s -> ways <= 256 -> Z.of_nat (length blocks) = ways ->
  srrip_inv ways (Srrip.advance blocks s) /\
  Srrip.m_replacement_pointer (Srrip.advance blocks s) = (Srrip.m_replacement_pointer s + 1) mod ways.
Proof.
  intros [] Hw Hb. unfold Srrip.advance. rewrite Hb. cbn.
  pose proof (Z.mod_pos_bound (Srrip.m_replacement_pointer s + 1) ways ltac:(lia)).
  unfold u8. rewrite (Z.mod_small _ (2 ^ 8)) by lia. split; [|done]. by split.
Qed.

Lemma srrip_write ways i v s : srrip_inv ways s -> 0 <= i < ways -> 0 <= v <= Srrip.m_rrip_max s ->
  vset (Srrip.m_rrip_bits s) i v = Ok (<[Z.to_nat i := v]> (Srrip.m_rrip_bits s)) /\
  srrip_inv ways (Srrip.set_bits (<[Z.to_nat i := v]> (Srrip.m_rrip_bits s)) s).
Proof.
  intros Hs Hi Hv. split.
  - apply vset_Ok. rewrite (sr_ways _ _ Hs). naive_solver.
  - apply srrip_set_bits; [done|by rewrite length_insert|]. apply Forall_insert; [apply Hs|done].
Qed.

(** One round chooses a line that is due if it passes one. *)
Lemma srrip_round ways lower blocks info : ways <= 256 -> Z.of_nat (length blocks) = ways ->
  Forall (fun b => valid_replacement b = true) blocks -> plain_info ways info ->
  forall fuel s, srrip_inv ways s ->
  exists found s', Srrip.round fuel lower blocks 0 0 info s = Ok (found, 0, 0, s') /\ srrip_inv ways s' /\
    match found with
    | Some (i, info') => 0 <= i < ways /\ info' = info
    | None => Srrip.m_rrip_bits s' = Srrip.m_rrip_bits s /\ Srrip.m_rrip_max s' = Srrip.m_rrip_max s /\
        forall d x, (d < fuel)%nat ->
          vget (Srrip.m_rrip_bits s) ((Srrip.m_replacement_pointer s + Z.of_nat d) mod ways) = Ok x -> x < Srrip.m_rrip_max s
    end.
Proof.
  intros Hw Hb Hv Hinfo. induction fuel as [|fuel IH]; intros s Hs; cbn [Srrip.round].
  { exists None, s. split; [done|]. split; [done|]. split; [done|]. split; [done|]. lia. }
  pose proof (sr_pointer _ _ Hs) as Hp. pose proof (sr_max _ _ Hs) as Hmax.
  destruct (vget_is_Ok (Srrip.m_rrip_bits s) (Srrip.m_replacement_pointer s)) as [x Hx]; [rewrite (sr_ways _ _ Hs); lia|].
  rewrite Hx. cbn [mbind res_bind]. destruct (srrip_advance ways blocks s Hs Hw Hb) as [Hadv Hptr].
  destruct (Z.leb_spec (Srrip.m_rrip_max s) x).
  - unfold Srrip.qbs_reject. rewrite (sr_attempts _ _ Hs). change (0 <? 1 - 1) with false. cbn [mbind res_bind].
    destruct (srrip_write ways (Srrip.m_replacement_pointer s) (Srrip.m_rrip_insert s) s Hs Hp) as [Hset _].
    { rewrite (sr_insert _ _ Hs). lia. }
    rewrite Hset. cbn [mbind res_bind]. unfold incrementAttempt. rewrite (proj2 Hinfo). cbn [Z.eqb log_assert mbind res_bind].
    destruct (vget_is_Ok blocks (Srrip.m_replacement_pointer s) ltac:(lia)) as [b Hbp].
    unfold isValidReplacement. rewrite Hbp. cbn [mbind res_bind]. apply vget_Ok in Hbp as [_ Hbp].
    rewrite list.Forall_lookup in Hv. rewrite (Hv _ _ Hbp). cbn [log_assert mbind res_bind].
    do 2 eexists. split; [done|]. split; [|by split].
    apply (srrip_write ways (Srrip.m_replacement_pointer s) (Srrip.m_rrip_insert s) (Srrip.advance blocks s) Hadv Hp).
    cbn. rewrite (sr_insert _ _ Hs). lia.
  - destruct (IH _ Hadv) as (found & s' & Hr & Hs' & Hf). do 2 eexists. split; [exact Hr|]. split; [done|].
    destruct found as [[i info']|]; [done|]. destruct Hf as (E1 & E2 & Hall). split; [done|]. split; [done|].
    intros [|d] y Hd; [rewrite Z.add_0_r, Z.mod_small by lia; congruence|]. intros Hy. apply (Hall d y); [lia|].
    rewrite Hptr, Z.add_mod_idemp_l by lia.
    replace (Srrip.m_replacement_pointer s + 1 + Z.of_nat d) with (Srrip.m_replacement_pointer s + Z.of_nat (S d)) by lia.
    exact Hy.
Qed.

Lemma srrip_age ways s : srrip_inv ways s -> srrip_inv ways (Srrip.age s).
Proof.
  intros Hs. pose proof (sr_max _ _ Hs). apply srrip_set_bits; [done|by rewrite List.length_map|].
  pose proof (sr_bits _ _ Hs) as Hb. rewrite list.Forall_lookup in Hb |- *. intros i x Hx.
  change (map ?f ?l) with (f <$> l) in Hx. rewrite list_lookup_fmap in Hx.
  destruct (Srrip.m_rrip_bits s !! i) as [y|] eqn:E; [|done]. injection Hx as <-. specialize (Hb _ _ E).
  destruct (Z.ltb_spec y (Srrip.m_rrip_max s)); [|done]. unfold u8. rewrite Z.mod_small; lia.
Qed.

Lemma srrip_near_age ways k s : srrip_inv ways s -> near (k + 1) s ->
  (forall x q, vget (Srrip.m_rrip_bits s) q = Ok x -> x < Srrip.m_rrip_max s) -> near k (Srrip.age s).
Proof.
  intros Hs (q & x & Hq & Hx) Hlt. pose proof (sr_max _ _ Hs). pose proof (Hlt _ _ Hq) as Hxl.
  pose proof Hq as [Hq0 Hq']%vget_Ok. pose proof (sr_bits _ _ Hs) as Hb. rewrite list.Forall_lookup in Hb.
  specialize (Hb _ _ Hq'). exists q, (x + 1). split; [|cbn; lia]. apply vget_Ok. split; [done|]. cbn.
  change (map ?f ?l) with (f <$> l). rewrite list_lookup_fmap, Hq'. cbn. rewrite (proj2 (Z.ltb_lt _ _)) by done.
  unfold u8. by rewrite Z.mod_small by lia.
Qed.

(** With [k] rounds of ageing to go, [k + 1] rounds are enough. *)
Lemma srrip_rounds ways lower blocks info : ways <= 256 -> Z.of_nat (length blocks) = ways ->
  Forall (fun b => valid_replacement b = true) blocks -> plain_info ways info ->
  forall k s, srrip_inv ways s -> near (Z.of_nat k) s ->
  exists i s', Srrip.rounds (S k) lower blocks 0 0 info s = Ok (i, 0, info, s') /\ 0 <= i < ways /\ srrip_inv ways s'.
Proof.
  intros Hw Hb Hv Hinfo. induction k as [|k IH]; intros s Hs Hnear; cbn [Srrip.rounds];
    destruct (srrip_round ways lower blocks info Hw Hb Hv Hinfo (length blocks) s Hs) as (found & s' & -> & Hs' & Hf);
    cbn [mbind res_bind]; (destruct found as [[i info']|]; [destruct Hf as [Hi ->]; by do 2 eexists|]);
    destruct Hf as (E1 & E2 & Hall);
    assert (forall x q, vget (Srrip.m_rrip_bits s) q = Ok x -> x < Srrip.m_rrip_max s) as Hlt.
  1, 3: intros x q Hq; pose proof (vget_inside _ _ _ Hq) as Hr; rewrite (sr_ways _ _ Hs) in Hr;
    destruct (pointer_distance ways _ q ltac:(lia) (sr_pointer _ _ Hs) Hr) as (d & Hd & Hdq);
    apply (Hall d x); [lia|by rewrite Hdq].
  - destruct Hnear as (q & x & Hq & Hx). pose proof (Hlt _ _ Hq). lia.
  - apply IH; [by apply srrip_age|]. apply (srrip_near_age ways); [done| |].
    + destruct Hnear as (q & x & Hq & Hx). exists q, x. rewrite E1, E2. split; [done|]. lia.
    + intros x q. rewrite E1, E2. apply Hlt.
Qed.

Lemma srrip_index_ok ways lower blocks info s : ways <= 256 -> Z.of_nat (length blocks) = ways ->
  Forall (fun b => valid_replacement b = true) blocks -> srrip_inv ways s -> plain_info ways info ->
  exists i n info' s', Srrip.getReplacementIndex lower blocks info s = Ok (i, n, info', s') /\
    0 <= i < ways /\ srrip_inv ways s' /\ plain_info ways info'.
Proof.
  intros Hw Hb Hv Hs Hi. pose proof (sr_max _ _ Hs) as Hmax. unfold Srrip.getReplacementIndex.
  destruct (first_invalid blocks) as [i|] eqn:E.
  - apply first_invalid_range in E. destruct (srrip_write ways i (Srrip.m_rrip_insert s) s Hs) as [-> Hs']; [lia| |].
    { rewrite (sr_insert _ _ Hs). lia. }
    cbn [mbind res_bind]. do 4 eexists. split; [done|]. split; [lia|done].
  - destruct (srrip_rounds ways lower blocks info Hw Hb Hv Hi (Z.to_nat (Srrip.m_rrip_max s)) s Hs) as (i & s' & -> & Hr & Hs');
      [|by do 4 eexists].
    destruct (vget_is_Ok (Srrip.m_rrip_bits s) 0) as [x Hx]; [rewrite (sr_ways _ _ Hs); lia|].
    exists 0, x. split; [done|]. rewrite Z2Nat.id by lia. apply vget_Ok in Hx as [_ Hx].
    pose proof (sr_bits _ _ Hs) as Hbits. rewrite list.Forall_lookup in Hbits. specialize (Hbits _ _ Hx). lia.
Qed.

Lemma increment_ok ways x info : plain_info ways info -> 0 <= x < ways ->
  exists info', increment x info = Ok info' /\ plain_info ways info'.
Proof.
  intros [Hi1 Hi2] Hx. unfold increment, log_assert. rewrite Hi1, (proj2 (Z.ltb_lt _ _)) by lia. cbn [mbind res_bind].
  destruct (vget_is_Ok (m_access info) x ltac:(lia)) as [a ->]. cbn [mbind res_bind].
  assert (vset (m_access info) x (u64 (a + 1)) = Ok (<[Z.to_nat x := u64 (a + 1)]> (m_access info))) as ->
    by (apply vset_Ok; naive_solver lia).
  cbn [mbind res_bind]. eexists. split; [done|]. split; cbn; [by rewrite length_insert|done].
Qed.

Lemma srrip_update_ok ways i info s : 0 <= i < ways -> srrip_inv ways s -> plain_info ways info ->
  exists info' s', Srrip.updateReplacementIndex i info s = Ok (info', s') /\ srrip_inv ways s' /\ plain_info ways info'.
Proof.
  intros Hi Hs Hinfo. unfold Srrip.updateReplacementIndex. pose proof (sr_max _ _ Hs) as Hmax.
  destruct (vget_is_Ok (Srrip.m_rrip_bits s) i) as [x Hx]; [by rewrite (sr_ways _ _ Hs)|]. rewrite Hx. cbn [mbind res_bind].
  apply vget_Ok in Hx as [_ Hx]. pose proof (sr_bits _ _ Hs) as Hb. rewrite list.Forall_lookup in Hb. specialize (Hb _ _ Hx).
  destruct (increment_ok ways x info Hinfo ltac:(lia)) as (info' & -> & Hi'). cbn [mbind res_bind].
  destruct (Z.ltb_spec 0 x); [|by do 2 eexists].
  destruct (srrip_write ways i (x - 1) s Hs Hi ltac:(lia)) as [-> Hs']. cbn [mbind res_bind]. by do 2 eexists.
Qed.

#[export] Instance srrip_laws ways (Hw : ways <= 256) : PolicyLaws Srrip.policy ways :=
  Build_PolicyLaws Srrip.policy ways (srrip_inv ways) (plain_info ways)
    (fun lower blocks info s => srrip_index_ok ways lower blocks info s Hw) (srrip_update_ok ways).

(** Every replacement policy without query-based selection keeps the laws: for at most
    256 ways (at least two for NMRU), and for SRRIP if a prediction fits into the
    statistics, which have one place per way. *)
Lemma policies_keep_laws p ways qbs bits seed draws :
  getNumQBSAttempts p qbs = 1 -> 0 < ways <= 256 -> (p = NMRU -> 1 < ways) ->
  (p = SRRIP \/ p = SRRIP_QBS -> 1 <= bits <= 8 /\ 2 ^ bits <= ways) ->
  match createPolicy p ways qbs bits seed (S draws) with
  | Ok (existT P s) => exists L : PolicyLaws P ways, pol_inv s /\ info_inv (new_set_info ways 1)
  | Err _ => p = PLRU /\ ways <> 4 /\ ways <> 8
  end.
Proof.
  intros Hq Hw Hn Hb. unfold createPolicy. rewrite Hq.
  assert (plain_info ways (new_set_info ways 1)) as Hi by (split; cbn; [rewrite length_replicate; lia|done]).
  assert (1 <= bits <= 8 /\ 2 ^ bits <= ways -> srrip_inv ways (Srrip.new ways bits 1)) as Hsr.
  { intros [Hb1 Hb2]. assert (2 ^ 1 <= 2 ^ bits) by (apply Z.pow_le_mono_r; lia).
    assert (u8 (Z.shiftl 1 bits - 1) = 2 ^ bits - 1) as Emax.
    { rewrite Z.shiftl_mul_pow2, Z.mul_1_l by lia. unfold u8. apply Z.mod_small. lia. }
    assert (u8 (2 ^ bits - 1 - 1) = 2 ^ bits - 2) as Eins by (unfold u8; rewrite Z.mod_small; lia).
    unfold Srrip.new. rewrite Emax, Eins. split; cbn; try lia; [rewrite length_replicate; lia|].
    apply Forall_replicate. lia. }
  destruct p.
  - exists (round_robin_laws ways ltac:(lia)). split; [|done]. unfold RoundRobin.new. cbn. lia.
  - exists (lru_laws ways ltac:(lia)). split; [|done]. split; [done|]. apply ordered_new. lia.
  - exists (lru_laws ways ltac:(lia)). split; [|done]. split; [done|]. apply ordered_new. lia.
  - exists (nru_laws ways ltac:(lia)). split; [|done]. split; cbn; [rewrite length_replicate|]; lia.
  - exists (mru_laws ways ltac:(lia)). split; [|done]. apply ordered_new. lia.
  - exists (nmru_laws ways ltac:(split; [by apply Hn|lia])). split; [|done].
    split; [apply ordered_new; lia|cbn; lia].
  - unfold Plru.new, log_assert. destruct ((ways =? 4) || (ways =? 8)) eqn:E; cbn [mbind res_bind]; [|apply orb_false_iff in E; split; [done|lia]].
    assert (ways = 4 \/ ways = 8) as H48 by (apply orb_true_iff in E as [E|E]; lia).
    by exists (plru_laws ways H48).
  - exists (srrip_laws ways ltac:(lia)). split; [|done]. apply Hsr, Hb. by left.
  - exists (srrip_laws ways ltac:(lia)). split; [|done]. apply Hsr, Hb. by right.
  - by exists (random_laws ways draws ltac:(lia)).
Qed.

(** With more predictions than ways the first hit on a new line ends the simulator: its
    prediction is used as an index into the statistics of LRU positions. *)
Example srrip_prediction_out_of_statistics :
  Srrip.updateReplacementIndex 0 (new_set_info 4 1) (Srrip.new 4 3 1) = Err (Exit (-1)).
Proof. reflexivity. Qed.

(** A new cache is well-formed and empty. *)
Lemma new_cache_wf `{P : CachePolicy} ways `{L : !PolicyLaws P ways} b attempts fi p :
  base_ok b -> m_associativity b = ways -> 0 < ways -> pol_inv p -> info_inv (new_set_info ways attempts) ->
  let c := new_cache b attempts fi p in
  cache_wf ways c /\ (forall t, ~ holds c t) /\ no_upgrades c.
Proof.
  intros Hb Ha Hw Hp Hi c.
  assert (forall i s, m_sets c !! i = Some s -> s = new_set ways (m_blocksize b) fi p) as Hsets.
  { intros i s. cbn. rewrite Ha. intros [-> _]%lookup_replicate. done. }
  assert (forall t, ~ in_set (new_set ways (m_blocksize b) fi p) t) as Hempty.
  { intros t (Ht & x & [j Hx]%list_elem_of_lookup_1 & Htag). cbn in Hx. apply lookup_replicate in Hx as [-> _]. by apply Ht. }
  split; [|split].
  - split; [done| |by cbn; rewrite Ha|].
    + cbn. rewrite length_replicate. destruct Hb as (? & _). lia.
    + intros i s ->%Hsets. split; cbn; [rewrite length_replicate; lia|done|done|intros t Ht; by apply Hempty in Ht|].
      intros k1 k2 b1 b2 [-> _]%lookup_replicate _ Hv. by cbn in Hv.
  - intros t (i & s & ->%Hsets & Ht). by apply Hempty in Ht.
  - intros i s ->%Hsets. cbn. by apply Forall_replicate.
Qed.

(** Property C23.  A well-formed cache implements a set of blocks.  Well-formed asks for a
    geometry that is safe ([base_ok]: blocks of a power of two of at least two bytes, a
    hash function that stays in range, where the mask and [xor_mod] need a power-of-two
    number of sets and the Mersenne hash at least two, and a home lookup of whole
    blocks) and for a policy that keeps the laws above ([policies_keep_laws]: any
    without query-based selection, with up to 256 ways, 4 or 8 of them for PLRU, two or
    more for NMRU, and no more predictions of SRRIP than ways).  Then, on every 64-bit
    address: a look-up finds a block iff its tag is in the set; invalidating removes
    exactly that tag and says whether it was there; an access within a block succeeds,
    finds the block iff it is there and changes no tags; and inserting a block that is
    missing, while no block of the cache is being upgraded, succeeds, adds its tag and
    removes exactly the tag of the block it reports as evicted, which was in the cache.
    The cache stays well-formed, no tag being in two lines. *)
Theorem cache_implements_block_set `{P : CachePolicy} ways `{L : !PolicyLaws P ways} c addr :
  cache_wf ways c -> 0 <= addr < 2 ^ 64 ->
  exists t i, splitAddress (base c) addr = Ok (t, i) /\
  (exists r, peekSingleLine addr c = Ok r /\ (holds c t <-> exists b, r = Some b) /\
     forall b, r = Some b -> m_tag b = t) /\
  (exists found c', invalidateSingleLine addr c = Ok (found, c') /\ (holds c t <-> found = true) /\
     cache_wf ways c' /\ forall t', holds c' t' <-> holds c t' /\ t' <> t) /\
  (forall a buff bytes upd, block_offset (base c) addr + bytes <= m_blocksize (base c) ->
     exists r c', accessSingleLine addr a buff bytes upd c = Ok (r, c') /\ (holds c t <-> exists x, r = Some x) /\
       cache_wf ways c' /\ forall t', holds c' t' <-> holds c t') /\
  (no_upgrades c -> ~ holds c t -> forall fill lower,
     exists r n c', insertSingleLine addr fill lower c = Ok (r, n, c') /\ cache_wf ways c' /\
       (forall t', holds c' t' <-> t' = t \/ (holds c t' /\ forall x, r = Some x -> m_tag x.1.2 <> t')) /\
       (forall x, r = Some x -> holds c (m_tag x.1.2) /\ x.1.1 = tagToAddress (base c) (m_tag x.1.2))).
Proof.
  intros W Ha. destruct (peek_spec ways c addr W Ha) as (t & i & r & Hs & Hpeek). exists t, i. split; [done|].
  split; [by exists r|]. split; [|split].
  - destruct (invalidate_spec ways c addr W Ha) as (t' & i' & found & c' & Hs' & H). rewrite Hs in Hs'.
    injection Hs' as <- <-. by exists found, c'.
  - intros a buff bytes upd Hsize.
    destruct (access_line_spec ways c addr a buff bytes upd W Ha Hsize) as (t' & i' & r' & c' & Hs' & H1 & H2 & _ & H3).
    rewrite Hs in Hs'. injection Hs' as <- <-. by exists r', c'.
  - intros Hup Hnew fill lower. destruct (insert_line_spec ways c addr fill lower W Ha Hup) as (t' & i' & Hs' & H).
    rewrite Hs in Hs'. injection Hs' as <- <-. by apply H.
Qed.

Definition example_base : CacheBase := mkBase 2 64 HASH_MASK 4 None 6 2.

Lemma cache_implements_block_set_witness :
  let c := @new_cache Lru.policy example_base 1 false (Lru.new 2 1) in
  exists r n c', insertSingleLine 4096 None None c = Ok (r, n, c') /\ @cache_wf Lru.policy 2 (lru_laws 2 eq_refl) c' /\
    forall t', holds c' t' <-> t' = 64 \/ (holds c t' /\ forall x, r = Some x -> m_tag x.1.2 <> t').
Proof.
  intros c. destruct (@new_cache_wf Lru.policy 2 (lru_laws 2 eq_refl) example_base 1 false (Lru.new 2 1)) as (W & He & Hup).
  - split; [cbn; lia|]. split; [exact I|]. split; [exact I|]. exists 6. split; [lia|]. split; [reflexivity|exact I].
  - reflexivity.
  - lia.
  - split; [reflexivity|]. apply ordered_new. lia.
  - split; reflexivity.
  - destruct (@cache_implements_block_set Lru.policy 2 (lru_laws 2 eq_refl) c 4096 W ltac:(lia)) as (t & i & Hs & _ & _ & _ & H).
    assert (t = 64) as -> by (unfold c in Hs; cbn -[splitAddress] in Hs; vm_compute in Hs; congruence).
    destruct (H Hup (He _) None None) as (r & n & c' & H1 & H2 & H3 & _). by exists r, n, c'.
Defined.
