(* ===== verification/SniperMemCaches.v ===== *)
(** * The memory-side caches of Sniper

    Models the NUCA cache ([parametric_dram_directory_msi/nuca_cache.cc]) with the
    functions of the directory controller that send data to it, the DRAM cache
    ([dram/dram_cache.cc]) and the simple prefetcher.  They sit between the directories
    and the DRAM controller that writes the traces: what they write back is what the
    traces contain.  The theorems tell which blocks the NUCA cache writes back, and that
    the DRAM cache cannot be used. *)
From Stdlib Require Import String.
From S2P Require Import Prelude CxxFloat SniperQueue SniperTrace SniperDram SniperCache SniperCacheFacts.
Local Open Scope string_scope.
Local Open Scope Z_scope.

Inductive hit_where : Type := MISS | NUCA_CACHE | DRAM_CACHE | DRAM.

(** A call through the pointer that [peekSingleLine] returned: it changes the line. *)
Definition modify_block `{P : CachePolicy} (addr : Z) (f : CacheBlockInfo -> CacheBlockInfo) (c : Cache) : res Cache :=
  '(tag, i) ← splitAddress (base c) addr;
  s ← vget (m_sets c) i;
  match find tag s with
  | None => Err Undef
  | Some line =>
      b ← vget (m_cache_block_info_array s) line;
      lines ← vset (m_cache_block_info_array s) line (f b);
      l ← vset (m_sets c) i (set_lines lines s); Ok (set_sets l (m_set_info c) c)
  end.

(** The delay of the queue model, if there is one; [global] is the time of the barrier. *)
Definition array_delay `{!Pow} (global t_start processing_time : Z) (q : option QueueModel) : res (Z * option QueueModel) :=
  match q with
  | Some q => '(d, q) ← computeQueueDelay global t_start processing_time q; Ok (d, Some q)
  | None => Ok (0, None)
  end.

(** ** [NucaCache] *)
Module Nuca.
Section Nuca.
Context {P : CachePolicy} {Hpow : Pow}.

Record State : Type := mkState {
  m_cache_block_size : Z;
  m_data_access_time : Z;                   (* the latencies of the period of the component *)
  m_tags_access_time : Z;
  m_data_array_bandwidth : Z;
  m_cache : Cache;
  m_queue_model : option QueueModel;
  m_reads : Z;
  m_writes : Z;
  m_read_misses : Z;
  m_write_misses : Z;
  m_dummy_shmem_perf : ShmemPerf.t;
}.

Definition new (block_size data_time tags_time bandwidth : Z) (c : Cache) (q : option QueueModel) : State :=
  mkState block_size data_time tags_time bandwidth c q 0 0 0 0 ShmemPerf.new.

Definition set_cache (c : Cache) (s : State) : State :=
  mkState (m_cache_block_size s) (m_data_access_time s) (m_tags_access_time s) (m_data_array_bandwidth s) c
    (m_queue_model s) (m_reads s) (m_writes s) (m_read_misses s) (m_write_misses s) (m_dummy_shmem_perf s).
Definition set_queue (q : option QueueModel) (s : State) : State :=
  mkState (m_cache_block_size s) (m_data_access_time s) (m_tags_access_time s) (m_data_array_bandwidth s) (m_cache s)
    q (m_reads s) (m_writes s) (m_read_misses s) (m_write_misses s) (m_dummy_shmem_perf s).
Definition set_dummy (p : ShmemPerf.t) (s : State) : State :=
  mkState (m_cache_block_size s) (m_data_access_time s) (m_tags_access_time s) (m_data_array_bandwidth s) (m_cache s)
    (m_queue_model s) (m_reads s) (m_writes s) (m_read_misses s) (m_write_misses s) p.
Definition count_read (count miss : bool) (s : State) : State :=
  if count then
    mkState (m_cache_block_size s) (m_data_access_time s) (m_tags_access_time s) (m_data_array_bandwidth s) (m_cache s)
      (m_queue_model s) (u64 (m_reads s + 1)) (m_writes s)
      (if miss then u64 (m_read_misses s + 1) else m_read_misses s) (m_write_misses s) (m_dummy_shmem_perf s)
  else s.
Definition count_write (count miss : bool) (s : State) : State :=
  if count then
    mkState (m_cache_block_size s) (m_data_access_time s) (m_tags_access_time s) (m_data_array_bandwidth s) (m_cache s)
      (m_queue_model s) (m_reads s) (u64 (m_writes s + 1)) (m_read_misses s)
      (if miss then u64 (m_write_misses s + 1) else m_write_misses s) (m_dummy_shmem_perf s)
  else s.

Definition accessDataArray (global t_start : Z) (perf : ShmemPerf.t) (s : State) : res (Z * ShmemPerf.t * State) :=
  let perf := ShmemPerf.updateTime t_start ShmemPerf.UNKNOWN perf in
  '(queue_delay, perf, s) ←
    (match m_queue_model s with
     | Some _ =>
         processing_time ← getRoundedLatency (m_data_array_bandwidth s) (u32 (8 * m_cache_block_size s));
         '(d, q) ← array_delay global t_start processing_time (m_queue_model s);
         let queue_delay := tadd processing_time d in
         let perf := ShmemPerf.updateTime (tadd t_start processing_time) ShmemPerf.NUCA_BUS perf in
         let perf := ShmemPerf.updateTime (tadd t_start queue_delay) ShmemPerf.NUCA_QUEUE perf in
         Ok (queue_delay, perf, set_queue q s)
     | None => Ok (0, perf, s)
     end);
  let perf := ShmemPerf.updateTime (tadd (tadd t_start queue_delay) (m_data_access_time s)) ShmemPerf.NUCA_DATA perf in
  Ok (tadd queue_delay (m_data_access_time s), perf, s).

Definition read (global address now : Z) (perf : ShmemPerf.t) (count : bool) (s : State)
    : res (Z * hit_where * option (list Z) * ShmemPerf.t * State) :=
  let perf := ShmemPerf.updateTime now ShmemPerf.UNKNOWN perf in
  block_info ← peekSingleLine address (m_cache s);
  let latency := m_tags_access_time s in
  let perf := ShmemPerf.updateTime (tadd now latency) ShmemPerf.NUCA_TAGS perf in
  match block_info with
  | Some _ =>
      '(r, c) ← accessSingleLine address LOAD None (m_cache_block_size s) true (m_cache s);
      '(d, perf, s) ← accessDataArray global (tadd now latency) perf (set_cache c s);
      Ok (tadd latency d, NUCA_CACHE, match r with Some x => x.2 | None => None end, perf, count_read count false s)
  | None => Ok (latency, MISS, None, perf, count_read count true s)
  end.

(** What [write] assigns to [eviction], [evict_address] and [evict_buf]: nothing when it
    hits. *)
Definition write (global address : Z) (data_buf : option (list Z)) (now : Z) (count : bool) (s : State)
    : res (Z * hit_where * option (bool * Z * option (list Z)) * State) :=
  block_info ← peekSingleLine address (m_cache s);
  let latency := m_tags_access_time s in
  match block_info with
  | Some _ =>
      c ← modify_block address (setCState MODIFIED) (m_cache s);
      '(_, c) ← accessSingleLine address STORE data_buf (m_cache_block_size s) true c;
      '(d, dummy, s) ← accessDataArray global (tadd now latency) (m_dummy_shmem_perf s) (set_cache c s);
      Ok (tadd latency d, NUCA_CACHE, None, count_write count false (set_dummy dummy s))
  | None =>
      '(evicted, _, c) ← insertSingleLine address data_buf None (m_cache s);
      let eviction :=
        match evicted with
        | Some (evict_address, info, buf) =>
            (match m_cstate info with MODIFIED => true | _ => false end, evict_address, buf)
        | None => (false, tagToAddress (base c) no_tag, None)
        end in
      Ok (latency, MISS, Some eviction, count_write count true (set_cache c s))
  end.

(** ** [DramDirectoryCntlr::sendDataToNUCA] and [sendDataToDram]

    The message to a DRAM controller: requester, receiver, address and data. *)
Record WriteReq : Type := mkWrite { w_requester : Z; w_receiver : Z; w_address : Z; w_data : option (list Z) }.

(** [eviction] has no initial value: to read it after a hit is undefined. *)
Definition sendDataToNUCA (core : Z) (homes : Ahl.t) (global address : Z) (data_buf : option (list Z))
    (elapsed : Z) (count : bool) (nuca : option State) : res (option WriteReq * option State) :=
  match nuca with
  | None => Ok (None, None)
  | Some s =>
      '(_, _, evict, s) ← write global address data_buf elapsed count s;
      match evict with
      | None => Err Undef
      | Some (true, evict_address, buf) =>
          dram_node ← Ahl.getHome homes evict_address;
          Ok (Some (mkWrite core dram_node evict_address buf), Some s)
      | Some (false, _, _) => Ok (None, Some s)
      end
  end.

Definition sendDataToDram (core : Z) (homes : Ahl.t) (global address requester : Z) (data_buf : option (list Z))
    (elapsed : Z) (nuca : option State) : res (option WriteReq * option State) :=
  match nuca with
  | Some _ => sendDataToNUCA core homes global address data_buf elapsed true nuca
  | None =>
      dram_node ← Ahl.getHome homes address;
      Ok (Some (mkWrite requester dram_node address data_buf), None)
  end.
End Nuca.
End Nuca.

(** ** Prefetchers *)
Class Prefetcher : Type := {
  pref_state : Type;
  getNextAddress : Z -> Z -> pref_state -> res (list Z * pref_state);
}.

(** [SimplePrefetcher]: the stride to the nearest of a number of flows *)
Module SimplePrefetcher.
Record State : Type := mkState {
  core_id : Z;
  n_flows : Z;
  flows_per_core : bool;
  num_prefetches : Z;
  stop_at_page : bool;
  n_flow_next : Z;
  m_prev_address : list (list Z);
}.

Definition PAGE_SIZE : Z := 4096.
Definition PAGE_MASK : Z := 2 ^ 64 - 4096.

Definition new (core shared_cores flows : Z) (per_core : bool) (prefetches : Z) (stop : bool) : State :=
  mkState core flows per_core prefetches stop 0
    (replicate (Z.to_nat (if per_core then shared_cores else 1)) (replicate (Z.to_nat flows) 0)).

(** [abs] of the difference of two [SInt64]. *)
Definition distance (a b : Z) : res Z :=
  let d := i64 a - i64 b in
  if (d <=? - 2 ^ 63) || (2 ^ 63 <=? d) then Err Undef else Ok (Z.abs d).

(** The nearest flow from flow [i] on, if it is nearer than [min_dist]. *)
Fixpoint nearest (current : Z) (l : list Z) (i n_flow min_dist : Z) : res Z :=
  match l with
  | [] => Ok n_flow
  | a :: l =>
      d ← distance current a;
      if d <? min_dist then nearest current l (i + 1) i d else nearest current l (i + 1) n_flow min_dist
  end.

Definition prefetch_list (s : State) (current stride : Z) : list Z :=
  filter (fun a => negb (stop_at_page s) || (Z.land a PAGE_MASK =? Z.land current PAGE_MASK) = true)
    ((fun i => u64 (current + u64 (i * stride))) <$> seqZ 0 (num_prefetches s)).

(** [m_prev_address.at] throws if the core has no list; no flows is a division by zero. *)
Definition getNextAddress (current core : Z) (s : State) : res (list Z * State) :=
  let idx := if flows_per_core s then core - core_id s else 0 in
  prev ← (if (0 <=? idx) && (idx <? Z.of_nat (List.length (m_prev_address s))) then vget (m_prev_address s) idx
          else Err (Exc "out_of_range"));
  next ← umod (u32 (n_flow_next s + 1)) (n_flows s);
  n_flow ← nearest current prev 0 (n_flow_next s) PAGE_SIZE;
  before ← vget prev n_flow;
  let stride := u64 (current - before) in
  prev ← vset prev n_flow current;
  all ← vset (m_prev_address s) idx prev;
  Ok (if stride =? 0 then [] else prefetch_list s current stride,
      mkState (core_id s) (n_flows s) (flows_per_core s) (num_prefetches s) (stop_at_page s) next all).

Definition prefetcher : Prefetcher := {| pref_state := State; SniperMemCaches.getNextAddress := getNextAddress |}.
End SimplePrefetcher.

(** ** [DramCache] *)

(** [DramCntlrInterface], as the DRAM cache calls it: latency and data; the pointer to the
    times of the request may be null. *)
Class DramCntlrInterface : Type := {
  cntlr_state : Type;
  cntlr_get : Z -> Z -> Z -> option ShmemPerf.t -> cntlr_state ->
              res (Z * option (list Z) * option ShmemPerf.t * cntlr_state);
  cntlr_put : Z -> Z -> option (list Z) -> Z -> cntlr_state -> res (Z * cntlr_state);
}.

Module DramCache.
Section DramCache.
Context {P : CachePolicy} {Hpow : Pow} {PF : Prefetcher} {D : DramCntlrInterface}.

Record State : Type := mkState {
  m_core_id : Z;
  m_cache_block_size : Z;
  m_data_access_time : Z;
  m_tags_access_time : Z;
  m_data_array_bandwidth : Z;
  m_dram_cntlr : cntlr_state;
  m_cache : Cache;
  m_queue_model : option QueueModel;
  m_prefetcher : option pref_state;
  m_prefetch_on_prefetch_hit : bool;
  m_prefetch_mshr : Contention.State;
  m_reads : Z;
  m_writes : Z;
  m_read_misses : Z;
  m_write_misses : Z;
  m_hits_prefetch : Z;
  m_prefetches : Z;
  m_prefetch_mshr_delay : Z;
}.

(** The set-up of the cache: its size in kilobytes must fit. *)
Definition cache_sets (cache_size associativity block_size : Z) : res Z :=
  num_sets ← (if u32 (associativity * block_size) =? 0 then Err Undef
              else Ok (u32 (1024 * cache_size) / u32 (associativity * block_size)));
  _ ← log_assert (u32 (1024 * cache_size) =? u32 (num_sets * associativity * block_size)); Ok num_sets.

Definition new (core block_size data_ns tags_ns bandwidth period : Z) (cntlr : cntlr_state) (c : Cache)
    (q : option QueueModel) (pf : option pref_state) (on_hit : bool) : State :=
  mkState core block_size (tmul NS_1 data_ns) (tmul NS_1 tags_ns) bandwidth cntlr c q pf on_hit
    (Contention.new 16 period) 0 0 0 0 0 0 0.

Definition set_dram (d : cntlr_state) (s : State) : State :=
  mkState (m_core_id s) (m_cache_block_size s) (m_data_access_time s) (m_tags_access_time s) (m_data_array_bandwidth s)
    d (m_cache s) (m_queue_model s) (m_prefetcher s) (m_prefetch_on_prefetch_hit s) (m_prefetch_mshr s) (m_reads s)
    (m_writes s) (m_read_misses s) (m_write_misses s) (m_hits_prefetch s) (m_prefetches s) (m_prefetch_mshr_delay s).
Definition set_cache (c : Cache) (s : State) : State :=
  mkState (m_core_id s) (m_cache_block_size s) (m_data_access_time s) (m_tags_access_time s) (m_data_array_bandwidth s)
    (m_dram_cntlr s) c (m_queue_model s) (m_prefetcher s) (m_prefetch_on_prefetch_hit s) (m_prefetch_mshr s) (m_reads s)
    (m_writes s) (m_read_misses s) (m_write_misses s) (m_hits_prefetch s) (m_prefetches s) (m_prefetch_mshr_delay s).
Definition set_queue (q : option QueueModel) (s : State) : State :=
  mkState (m_core_id s) (m_cache_block_size s) (m_data_access_time s) (m_tags_access_time s) (m_data_array_bandwidth s)
    (m_dram_cntlr s) (m_cache s) q (m_prefetcher s) (m_prefetch_on_prefetch_hit s) (m_prefetch_mshr s) (m_reads s)
    (m_writes s) (m_read_misses s) (m_write_misses s) (m_hits_prefetch s) (m_prefetches s) (m_prefetch_mshr_delay s).
Definition set_prefetcher (p : pref_state) (s : State) : State :=
  mkState (m_core_id s) (m_cache_block_size s) (m_data_access_time s) (m_tags_access_time s) (m_data_array_bandwidth s)
    (m_dram_cntlr s) (m_cache s) (m_queue_model s) (Some p) (m_prefetch_on_prefetch_hit s) (m_prefetch_mshr s) (m_reads s)
    (m_writes s) (m_read_misses s) (m_write_misses s) (m_hits_prefetch s) (m_prefetches s) (m_prefetch_mshr_delay s).
Definition count_prefetch (m : Contention.State) (s : State) : State :=
  mkState (m_core_id s) (m_cache_block_size s) (m_data_access_time s) (m_tags_access_time s) (m_data_array_bandwidth s)
    (m_dram_cntlr s) (m_cache s) (m_queue_model s) (m_prefetcher s) (m_prefetch_on_prefetch_hit s) m (m_reads s)
    (m_writes s) (m_read_misses s) (m_write_misses s) (m_hits_prefetch s) (u64 (m_prefetches s + 1))
    (m_prefetch_mshr_delay s).
Definition count_prefetch_hit (delay : Z) (s : State) : State :=
  mkState (m_core_id s) (m_cache_block_size s) (m_data_access_time s) (m_tags_access_time s) (m_data_array_bandwidth s)
    (m_dram_cntlr s) (m_cache s) (m_queue_model s) (m_prefetcher s) (m_prefetch_on_prefetch_hit s) (m_prefetch_mshr s)
    (m_reads s) (m_writes s) (m_read_misses s) (m_write_misses s) (u64 (m_hits_prefetch s + 1)) (m_prefetches s)
    (tadd (m_prefetch_mshr_delay s) delay).
Definition count (a : cache_access_t) (hit : bool) (s : State) : State :=
  let one b (n : Z) := if (b : bool) then u64 (n + 1) else n in
  let load := match a with LOAD => true | STORE => false end in
  mkState (m_core_id s) (m_cache_block_size s) (m_data_access_time s) (m_tags_access_time s) (m_data_array_bandwidth s)
    (m_dram_cntlr s) (m_cache s) (m_queue_model s) (m_prefetcher s) (m_prefetch_on_prefetch_hit s) (m_prefetch_mshr s)
    (one load (m_reads s)) (one (negb load) (m_writes s)) (one (load && negb hit) (m_read_misses s))
    (one (negb load && negb hit) (m_write_misses s)) (m_hits_prefetch s) (m_prefetches s) (m_prefetch_mshr_delay s).

(** [perf->updateTime]: the null pointer has no times. *)
Definition updateTime (time : Z) (r : ShmemPerf.shmem_times_type_t) (perf : option ShmemPerf.t) : res (option ShmemPerf.t) :=
  match perf with Some p => Ok (Some (ShmemPerf.updateTime time r p)) | None => Err Undef end.

Definition accessDataArray (global t_start : Z) (perf : option ShmemPerf.t) (s : State)
    : res (Z * option ShmemPerf.t * State) :=
  processing_time ← getRoundedLatency (m_data_array_bandwidth s) (u32 (8 * m_cache_block_size s));
  '(queue_delay, q) ← array_delay global t_start processing_time (m_queue_model s);
  let t1 := tadd t_start queue_delay in
  let t2 := tadd t1 processing_time in
  perf ← updateTime t_start ShmemPerf.UNKNOWN perf;
  perf ← updateTime t1 ShmemPerf.DRAM_CACHE_QUEUE perf;
  perf ← updateTime t2 ShmemPerf.DRAM_CACHE_BUS perf;
  perf ← updateTime (tadd t2 (m_data_access_time s)) ShmemPerf.DRAM_CACHE_DATA perf;
  Ok (tadd (tadd queue_delay processing_time) (m_data_access_time s), perf, set_queue q s).

(** The block that is written back is sent with the data of the new one. *)
Definition insertLine (global : Z) (a : cache_access_t) (address requester : Z) (data_buf : option (list Z))
    (now : Z) (s : State) : res State :=
  '(evicted, _, c) ← insertSingleLine address data_buf None (m_cache s);
  c ← modify_block address (setCState (match a with STORE => MODIFIED | LOAD => SHARED end)) c;
  '(_, _, s) ← accessDataArray global now None (set_cache c s);
  match evicted with
  | Some (evict_address, info, _) =>
      match m_cstate info with
      | MODIFIED => '(_, d) ← cntlr_put evict_address requester data_buf now (m_dram_cntlr s); Ok (set_dram d s)
      | _ => Ok s
      end
  | None => Ok s
  end.

Fixpoint prefetch (global t_issue : Z) (l : list Z) (s : State) : res State :=
  match l with
  | [] => Ok s
  | address :: l =>
      b ← peekSingleLine address (m_cache s);
      match b with
      | Some _ => prefetch global t_issue l s
      | None =>
          '(dram_latency, data_buf, _, d) ← cntlr_get address (m_core_id s) t_issue None (m_dram_cntlr s);
          s ← insertLine global LOAD address (m_core_id s) data_buf (tadd t_issue dram_latency) (set_dram d s);
          c ← modify_block address (setOption PREFETCH) (m_cache s);
          let '(_, m) := Contention.getCompletionTime t_issue dram_latency address (m_prefetch_mshr s) in
          prefetch global t_issue l (count_prefetch m (set_cache c s))
      end
  end.

(** The core is [INVALID_CORE_ID]. *)
Definition callPrefetcher (global train_address : Z) (cache_hit prefetch_hit : bool) (t_issue : Z) (p : pref_state)
    (s : State) : res State :=
  '(l, p) ← getNextAddress train_address (-1) p;
  let s := set_prefetcher p s in
  if negb cache_hit || (m_prefetch_on_prefetch_hit s && prefetch_hit) then prefetch global t_issue l s else Ok s.

(** A hit on a line that the prefetcher brought in: the latency so far, and whether it
    was one. *)
Definition prefetched (address now latency : Z) (b : CacheBlockInfo) (s : State) : res (Z * bool * State) :=
  if hasOption PREFETCH b then
    c ← modify_block address (clearOption PREFETCH) (m_cache s);
    let t_completed := Contention.getTagCompletionTime address (m_prefetch_mshr s) in
    if negb (t_completed =? MaxTime) && (tadd now latency <? t_completed) then
      Ok (tsub t_completed now, true, count_prefetch_hit (tsub t_completed (tadd now latency)) (set_cache c s))
    else Ok (latency, true, count_prefetch_hit 0 (set_cache c s))
  else Ok (latency, false, s).

Definition doAccess (global : Z) (a : cache_access_t) (address requester : Z) (data_buf : option (list Z)) (now : Z)
    (perf : option ShmemPerf.t) (s : State) : res (bool * Z * option (list Z) * option ShmemPerf.t * State) :=
  block_info ← peekSingleLine address (m_cache s);
  let latency := m_tags_access_time s in
  perf ← updateTime now ShmemPerf.UNKNOWN perf;
  perf ← updateTime (tadd now latency) ShmemPerf.DRAM_CACHE_TAGS perf;
  '(latency, prefetch_hit, data, perf, s) ←
    (match block_info with
     | Some b =>
         '(latency, prefetch_hit, s) ← prefetched address now latency b s;
         '(r, c) ← accessSingleLine address a data_buf (m_cache_block_size s) true (m_cache s);
         '(d, perf, s) ← accessDataArray global (tadd now latency) perf (set_cache c s);
         c ← (match a with STORE => modify_block address (setCState MODIFIED) (m_cache s) | LOAD => Ok (m_cache s) end);
         Ok (tadd latency d, prefetch_hit, match r with Some x => x.2 | None => None end, perf, set_cache c s)
     | None =>
         '(latency, data, perf, s) ←
           (match a with
            | LOAD =>
                '(dram_latency, data, perf, d) ← cntlr_get address requester (tadd now latency) perf (m_dram_cntlr s);
                Ok (tadd latency dram_latency, data, perf, set_dram d s)
            | STORE => Ok (latency, data_buf, perf, s)
            end);
         s ← insertLine global a address requester data (tadd now latency) s;
         Ok (latency, false, data, perf, s)
     end);
  let hit := match block_info with Some _ => true | None => false end in
  s ← (match m_prefetcher s with
       | Some p => callPrefetcher global address hit prefetch_hit (tadd now latency) p s
       | None => Ok s
       end);
  Ok (hit, latency, data, perf, s).

Definition where_hit (hit : bool) : hit_where := if hit then DRAM_CACHE else DRAM.

Definition getDataFromDram (global address requester now : Z) (perf : option ShmemPerf.t) (s : State)
    : res (Z * hit_where * option (list Z) * option ShmemPerf.t * State) :=
  '(hit, latency, data, perf, s) ← doAccess global LOAD address requester None now perf s;
  Ok (latency, where_hit hit, data, perf, count LOAD hit s).

Definition putDataToDram (global address requester : Z) (data_buf : option (list Z)) (now : Z) (s : State)
    : res (Z * hit_where * State) :=
  '(hit, latency, _, _, s) ← doAccess global STORE address requester data_buf now None s;
  Ok (latency, where_hit hit, count STORE hit s).
End DramCache.
End DramCache.

(** ** The blocks of a cache, with their infos *)
Section Stored.
Context `{P : CachePolicy} (ways : Z) `{L : !PolicyLaws P ways}.

Definition inset (s : CacheSet) (t : Z) (b : CacheBlockInfo) : Prop :=
  t <> no_tag /\ b ∈ m_cache_block_info_array s /\ m_tag b = t.
Definition stored (c : Cache) (t : Z) (b : CacheBlockInfo) : Prop := exists i s, m_sets c !! i = Some s /\ inset s t b.

Lemma holds_stored c t : holds c t <-> exists b, stored c t b.
Proof. unfold holds, stored, in_set, inset. naive_solver. Qed.

Lemma inset_replace b i s k old block d p : set_ok ways b i s -> m_cache_block_info_array s !! k = Some old ->
  forall t b', inset (mkSet (<[k := block]> (m_cache_block_info_array s)) d (m_blocksize_ s) p) t b' <->
    (t = m_tag block /\ t <> no_tag /\ b' = block) \/ (inset s t b' /\ t <> m_tag old).
Proof.
  intros Hs Hk t b'. pose proof (lookup_lt_Some _ _ _ Hk) as Hlt. unfold inset. cbn [m_cache_block_info_array]. split.
  - intros (Ht & [j Hj]%list_elem_of_lookup_1 & <-). rewrite list_lookup_insert in Hj. case_decide as E.
    + injection Hj as <-. by left.
    + right. split; [split; [done|]; split; [by eapply list_elem_of_lookup_2|done]|].
      intros Heq. apply E. split; [|done]. symmetry. by eapply (so_distinct _ _ _ _ Hs _ _ _ _ Hj Hk).
  - intros [(-> & Ht & ->)|[(Ht & [j Hj]%list_elem_of_lookup_1 & <-) Hne]]; (split; [done|]; split; [|done]).
    + eapply list_elem_of_lookup_2, list_lookup_insert_eq; done.
    + eapply (list_elem_of_lookup_2 _ j). rewrite list_lookup_insert_ne; [done|naive_solver].
Qed.

Lemma stored_blocks_update c i s s' info (added : Z -> CacheBlockInfo -> Prop) (dropped : Z -> Prop) :
  cache_wf ways c -> m_sets c !! i = Some s ->
  (forall t b, inset s' t b <-> added t b \/ (inset s t b /\ ~ dropped t)) ->
  (forall t, dropped t -> forall j sj, m_sets c !! j = Some sj -> in_set sj t -> j = i) ->
  forall t b, stored (set_sets (<[i := s']> (m_sets c)) info c) t b <-> added t b \/ (stored c t b /\ ~ dropped t).
Proof.
  intros W Hi Hin Hd t b. pose proof (lookup_lt_Some _ _ _ Hi) as Hlt. split.
  - intros (j & sj & Hj & Ht). cbn in Hj. rewrite list_lookup_insert in Hj. case_decide as E.
    + destruct E as [<- _]. injection Hj as <-. apply Hin in Ht as [|[Ht Hn]]; [by left|].
      right. split; [by exists i, s|done].
    + right. split; [by exists j, sj|]. intros Hdt. apply E. split; [|done]. symmetry.
      apply (Hd t Hdt j sj Hj). destruct Ht as (? & ? & ?). split; [done|by eexists].
  - intros Hc. assert ((<[i := s']> (m_sets c)) !! i = Some s') as Hi' by (by apply list_lookup_insert_eq).
    destruct Hc as [Hadd|[(j & sj & Hj & Ht) Hn]]; [exists i, s'; split; [done|apply Hin; by left]|].
    destruct (decide (j = i)) as [->|Hne].
    + exists i, s'. split; [done|]. apply Hin. right. split; [|done]. congruence.
    + exists j, sj. cbn. by rewrite list_lookup_insert_ne by done.
Qed.

(** A change of a block that keeps its tag. *)
Lemma set_ok_same_tag b i s k old block d : set_ok ways b i s -> m_cache_block_info_array s !! k = Some old ->
  m_tag block = m_tag old -> set_ok ways b i (mkSet (<[k := block]> (m_cache_block_info_array s)) d (m_blocksize_ s) (m_policy s)).
Proof.
  intros [H1 H2 H3 H4 H5] Hk Htag. split; cbn; [by rewrite length_insert|done|done| |].
  - intros t (Ht & b' & [j Hj]%list_elem_of_lookup_1 & <-). cbn in Hj. apply H4. split; [done|].
    rewrite list_lookup_insert in Hj. case_decide.
    + injection Hj as <-. exists old. split; [by eapply list_elem_of_lookup_2|done].
    + exists b'. split; [by eapply list_elem_of_lookup_2|done].
  - assert (forall j bj, (<[k := block]> (m_cache_block_info_array s)) !! j = Some bj ->
      exists bj', m_cache_block_info_array s !! j = Some bj' /\ m_tag bj' = m_tag bj) as Hold.
    { intros j bj. rewrite list_lookup_insert. case_decide as E; [destruct E as [<- _]|]; naive_solver. }
    intros k1 k2 b1 b2 (b1' & E1 & T1)%Hold (b2' & E2 & T2)%Hold Hv Heq.
    apply (H5 _ _ _ _ E1 E2); congruence.
Qed.

Lemma modify_spec c addr f t i : cache_wf ways c -> 0 <= addr < 2 ^ 64 -> splitAddress (base c) addr = Ok (t, i) ->
  holds c t -> (forall b, m_tag (f b) = m_tag b) ->
  exists c', modify_block addr f c = Ok c' /\ cache_wf ways c' /\ base c' = base c /\
    (forall t' b', stored c' t' b' <-> (t' = t /\ exists b, stored c t b /\ b' = f b) \/ (stored c t' b' /\ t' <> t)).
Proof.
  intros W Ha Hsplit Hholds Hf. destruct (lookup_set ways c addr W Ha) as (t1 & j & s & Hs & Ht & Hj & Hg & Hok & Hh).
  rewrite Hsplit in Hs. injection Hs as <- ->. unfold modify_block. rewrite Hsplit. cbn [mbind res_bind]. rewrite Hg.
  cbn [mbind res_bind]. pose proof (find_spec s t Ht) as Hfind. destruct (find t s) as [line|]; [|by apply Hh in Hholds].
  destruct Hfind as (Hin & b & Hb & Htag). pose proof Hb as [_ Hb']%vget_Ok. pose proof (vget_inside _ _ _ Hb) as Hr.
  rewrite Hb. cbn [mbind res_bind].
  assert (vset (m_cache_block_info_array s) line (f b) = Ok (<[Z.to_nat line := f b]> (m_cache_block_info_array s))) as ->
    by (apply vset_Ok; naive_solver).
  cbn [mbind res_bind]. rewrite (vset_set c j s _ Hj). cbn [mbind res_bind]. eexists. split; [done|].
  pose proof (set_ok_same_tag (base c) j s _ b (f b) (m_blocks s) Hok Hb' (Hf b)) as Hok'.
  assert (forall b', stored c t b' -> b' = b) as Honly.
  { intros b' (j' & s' & Hj' & (_ & Hel & Ht')). assert (j' = j) as ->.
    { eapply (holds_home ways c j s t W Hj Hin); [done|]. split; [done|by eexists]. }
    rewrite Hj in Hj'. injection Hj' as <-. apply list_elem_of_lookup_1 in Hel as [k2 Hk2].
    assert (k2 = Z.to_nat line) as -> by (eapply (so_distinct _ _ _ _ Hok _ _ _ _ Hk2 Hb'); congruence). congruence. }
  assert (stored c t b) as Hst by (exists j, s; split; [done|]; split; [done|]; split; [by eapply list_elem_of_lookup_2|done]).
  split; [|split; [done|]].
  - destruct W as [W1 W2 W3 W4]. split; cbn; [done|by rewrite length_insert|done|].
    intros j' sj. rewrite list_lookup_insert. case_decide as E; [destruct E as [<- _]; intros [= <-]; exact Hok'|apply W4].
  - intros t' b'. unfold set_lines.
    rewrite (stored_blocks_update c j s _ (m_set_info c) (fun t' b' => t' = t /\ b' = f b) (fun t' => t' = t) W Hj).
    + naive_solver.
    + intros t2 b2. rewrite (inset_replace (base c) j s _ b (f b) _ _ Hok Hb'), Hf, Htag. naive_solver.
    + intros t2 -> j' sj Hj' Hsj. by eapply (holds_home ways c j s t).
Qed.

(** What an access does to the cache: nothing, or a set gets a new policy state or new
    data. *)
Lemma access_sets c addr a buff bytes upd r c' : accessSingleLine addr a buff bytes upd c = Ok (r, c') ->
  c' = c \/ exists i s s' info, c' = set_sets (<[i := s']> (m_sets c)) info c /\ m_sets c !! i = Some s /\
    m_cache_block_info_array s' = m_cache_block_info_array s.
Proof.
  assert (forall line info s info' s', touch_line upd line info s = Ok (info', s') ->
    m_cache_block_info_array s' = m_cache_block_info_array s) as Htouch.
  { intros line info s info' s'. unfold touch_line. destruct upd; intros H; [|by injection H as <- <-].
    apply bind_Ok in H as ([] & _ & [= <- <-]). done. }
  unfold accessSingleLine. intros H. apply bind_Ok in H as ([t i] & _ & H). apply bind_Ok in H as (s & [Hi0 Hi]%vget_Ok & H).
  destruct (find t s) as [line|]; [|injection H as <- <-; by left].
  apply bind_Ok in H as (b & _ & H). apply bind_Ok in H as ([[out info] s'] & Hop & H).
  apply bind_Ok in H as (l & [_ ->]%vset_Ok & [= <- <-]). right. exists (Z.to_nat i), s, s', info. split; [done|]. split; [done|].
  destruct a.
  - unfold read_line in Hop. apply bind_Ok in Hop as ([] & _ & Hop). apply bind_Ok in Hop as ([info2 s2] & Ht & [= <- <- <-]).
    by eapply Htouch.
  - apply bind_Ok in Hop as ([info2 s2] & Hw & [= <- <- <-]). unfold write_line in Hw.
    apply bind_Ok in Hw as ([] & _ & Hw). apply Htouch in Hw. rewrite Hw. by destruct buff.
Qed.

Lemma access_stored c addr a buff bytes upd r c' : accessSingleLine addr a buff bytes upd c = Ok (r, c') ->
  base c' = base c /\ forall t b, stored c' t b <-> stored c t b.
Proof.
  intros H. destruct (access_sets _ _ _ _ _ _ _ _ H) as [->|(i & s & s' & info & -> & Hi & Hl)]; [done|].
  split; [done|]. intros t' b'. pose proof (lookup_lt_Some _ _ _ Hi). unfold stored, inset. cbn. split.
  - intros (j & sj & Hj & Hin). rewrite list_lookup_insert in Hj. case_decide as E; [|by exists j, sj].
    destruct E as [<- _]. injection Hj as <-. rewrite Hl in Hin. by exists i, s.
  - intros (j & sj & Hj & Hin). destruct (decide (j = i)) as [->|].
    + exists i, s'. rewrite list_lookup_insert_eq by done. split; [done|]. rewrite Hl. congruence.
    + exists j, sj. by rewrite list_lookup_insert_ne by done.
Qed.

Lemma insert_stored c addr fill lower t i r n c' : cache_wf ways c -> 0 <= addr < 2 ^ 64 ->
  splitAddress (base c) addr = Ok (t, i) -> ~ holds c t -> insertSingleLine addr fill lower c = Ok (r, n, c') ->
  base c' = base c /\
  (forall t' b', stored c' t' b' <->
     (t' = t /\ b' = setTag t new_info) \/ (stored c t' b' /\ forall x, r = Some x -> m_tag x.1.2 <> t')) /\
  (forall x, r = Some x -> stored c (m_tag x.1.2) x.1.2 /\ x.1.1 = tagToAddress (base c) (m_tag x.1.2)).
Proof.
  intros W Ha Hsplit Hnew H. destruct (lookup_set ways c addr W Ha) as (t1 & j & s & Hs & Ht & Hj & Hg & Hok & Hh).
  rewrite Hsplit in Hs. injection Hs as <- ->. unfold insertSingleLine, insert_block in H. rewrite Hsplit in H.
  cbn [mbind res_bind] in H. rewrite Hg in H. cbn [mbind res_bind] in H.
  apply bind_Ok in H as ([[[ev lk] info] s'] & Hins & H).
  apply bind_Ok in Hins as ([[[k lk'] info'] p] & _ & Hins). apply bind_Ok in Hins as (old & [Hk0 Hold]%vget_Ok & Hins).
  apply bind_Ok in Hins as (lines & [_ ->]%vset_Ok & [= <- <- <- Es]). rewrite (vset_set c j s _ Hj) in H.
  injection H as <- <- <-. split; [done|].
  assert (exists d, s' = mkSet (<[Z.to_nat k := setTag t new_info]> (m_cache_block_info_array s)) d (m_blocksize_ s) p) as [d ->].
  { rewrite <- Es. destruct fill as [l|]; by eexists. }
  assert (m_tag old <> no_tag -> inset s (m_tag old) old) as Hold_in.
  { intros Hv. split; [done|]. split; [by eapply list_elem_of_lookup_2|done]. }
  assert (forall t' b', stored (set_sets (<[j := mkSet (<[Z.to_nat k := setTag t new_info]> (m_cache_block_info_array s)) d
      (m_blocksize_ s) p]> (m_sets c)) info' c) t' b' <->
    (t' = t /\ b' = setTag t new_info) \/ (stored c t' b' /\ ~ (t' = m_tag old /\ t' <> no_tag))) as Hst.
  { apply (stored_blocks_update c j s); [done|done| |].
    - intros t' b'. rewrite (inset_replace (base c) j s _ old _ _ _ Hok Hold). cbn. unfold inset. naive_solver.
    - intros t' [-> Hv] j' sj Hj' Hsj. eapply (holds_home ways c j s); eauto.
      destruct (Hold_in Hv) as (? & ? & ?). split; [done|by eexists]. }
  unfold isValid. destruct (Z.eqb_spec (m_tag old) no_tag) as [E|E]; cbn.
  - split; [|done]. intros t' b'. rewrite Hst. split; [naive_solver|]. intros [|[Hb _]]; [by left|]. right. split; [done|].
    intros [-> Hv]. by apply Hv.
  - split.
    + intros t' b'. rewrite Hst. split.
      * intros [|[Hb Hd]]; [by left|]. right. split; [done|]. intros x [= <-]. cbn. intros <-. by apply Hd.
      * intros [|[Hb Hd]]; [by left|]. right. split; [done|]. intros [-> _]. by apply (Hd _ eq_refl).
    + intros x [= <-]. cbn. split; [|done]. exists j, s. split; [done|]. by apply Hold_in.
Qed.

(** The infos of all lines, also of those without a block. *)
Definition line_of (c : Cache) (b : CacheBlockInfo) : Prop :=
  exists i s, m_sets c !! i = Some s /\ b ∈ m_cache_block_info_array s.

Lemma line_update c i s s' info k x : m_sets c !! i = Some s ->
  m_cache_block_info_array s' = <[k := x]> (m_cache_block_info_array s) ->
  forall b, line_of (set_sets (<[i := s']> (m_sets c)) info c) b -> line_of c b \/ b = x.
Proof.
  intros Hi Hl b (j & sj & Hj & Hb). cbn in Hj. rewrite list_lookup_insert in Hj. case_decide as E.
  - destruct E as [<- _]. injection Hj as <-. rewrite Hl in Hb. apply list_elem_of_lookup_1 in Hb as [q Hq].
    rewrite list_lookup_insert in Hq. case_decide; [right; congruence|].
    left. exists i, s. split; [done|]. by eapply list_elem_of_lookup_2.
  - left. by exists j, sj.
Qed.

Lemma modify_lines addr f c c' : modify_block addr f c = Ok c' ->
  forall b, line_of c' b -> line_of c b \/ exists b0, b = f b0.
Proof.
  unfold modify_block. intros H. apply bind_Ok in H as ([t i] & _ & H). apply bind_Ok in H as (s & [_ Hi]%vget_Ok & H).
  destruct (find t s) as [line|]; [|done]. apply bind_Ok in H as (b0 & _ & H). apply bind_Ok in H as (l & [_ ->]%vset_Ok & H).
  apply bind_Ok in H as (ss & [_ ->]%vset_Ok & [= <-]). intros b Hb.
  eapply line_update in Hb as [|]; [by left|right; by eexists|exact Hi|reflexivity].
Qed.

Lemma insert_lines addr fill lower c r n c' : insertSingleLine addr fill lower c = Ok (r, n, c') ->
  forall b, line_of c' b -> line_of c b \/ exists t, b = setTag t new_info.
Proof.
  unfold insertSingleLine, insert_block. intros H. apply bind_Ok in H as ([t i] & _ & H).
  apply bind_Ok in H as (s & [_ Hi]%vget_Ok & H). apply bind_Ok in H as ([[[ev lk] info] s'] & Hins & H).
  apply bind_Ok in Hins as ([[[k lk'] info'] p] & _ & Hins). apply bind_Ok in Hins as (old & _ & Hins).
  apply bind_Ok in Hins as (lines & [_ ->]%vset_Ok & [= <- <- <- Es]). apply bind_Ok in H as (ss & [_ ->]%vset_Ok & [= <- <- <-]).
  intros b Hb. eapply line_update in Hb as [|]; [by left|right; by eexists|exact Hi|].
  rewrite <- Es. by destruct fill.
Qed.

Lemma access_lines c addr a buff bytes upd r c' : accessSingleLine addr a buff bytes upd c = Ok (r, c') ->
  forall b, line_of c' b -> line_of c b.
Proof.
  intros H. destruct (access_sets _ _ _ _ _ _ _ _ H) as [Hb|(i & s & s' & info & -> & Hi & Hl)]; [by subst|].
  intros b (j & sj & Hj & Hin). cbn in Hj. rewrite list_lookup_insert in Hj. case_decide as E; [|by exists j, sj].
  destruct E as [<- _]. injection Hj as <-. exists i, s. split; [done|]. by rewrite <- Hl.
Qed.
End Stored.

(** ** What the NUCA cache writes back *)
Inductive event : Type := Rewritten (t : Z) | Inserted (t : Z).

(** Whether the block was hit by a write since it was inserted; the last event is first. *)
Fixpoint rewritten (log : list event) (t : Z) : bool :=
  match log with
  | [] => false
  | Rewritten t' :: log => (t' =? t) || rewritten log t
  | Inserted t' :: log => if t' =? t then false else rewritten log t
  end.

Section NucaFacts.
Context {P : CachePolicy} {Hpow : Pow} (ways : Z) {L : PolicyLaws P ways}.
Notation State := (Nuca.State (P := P)).

(** The states that reads and writes of any blocks lead to, with the log of the writes. *)
Inductive nuca_run (s0 : State) : State -> list event -> Prop :=
| run_start : nuca_run s0 s0 []
| run_read s log global address now perf count latency hit data perf' s' :
    nuca_run s0 s log -> 0 <= address < 2 ^ 64 ->
    Nuca.read global address now perf count s = Ok (latency, hit, data, perf', s') ->
    nuca_run s0 s' log
| run_write s log global address data now count latency hit evict s' t i :
    nuca_run s0 s log -> 0 <= address < 2 ^ 64 -> splitAddress (base (Nuca.m_cache s)) address = Ok (t, i) ->
    Nuca.write global address data now count s = Ok (latency, hit, evict, s') ->
    nuca_run s0 s' ((match hit with MISS => Inserted t | _ => Rewritten t end) :: log).

Record nuca_inv (s : State) (log : list event) : Prop := {
  ni_cache : cache_wf ways (Nuca.m_cache s);
  ni_state : forall t b, stored (Nuca.m_cache s) t b -> m_cstate b = if rewritten log t then MODIFIED else INVALID;
  ni_lines : forall b, line_of (Nuca.m_cache s) b -> m_cstate b = INVALID \/ m_cstate b = MODIFIED;
}.

Lemma array_cache global t_start perf (s s' : State) d perf' :
  Nuca.accessDataArray global t_start perf s = Ok (d, perf', s') -> Nuca.m_cache s' = Nuca.m_cache s.
Proof.
  unfold Nuca.accessDataArray. intros H. apply bind_Ok in H as ([[qd p] s1] & H1 & [= <- <- <-]).
  destruct (Nuca.m_queue_model s); [|by injection H1 as <- <- <-].
  apply bind_Ok in H1 as (pt & _ & H1). apply bind_Ok in H1 as ([d' q'] & _ & [= <- <- <-]). done.
Qed.

Lemma count_read_cache count miss (s : State) : Nuca.m_cache (Nuca.count_read count miss s) = Nuca.m_cache s.
Proof. by destruct count. Qed.
Lemma count_write_cache count miss (s : State) : Nuca.m_cache (Nuca.count_write count miss s) = Nuca.m_cache s.
Proof. by destruct count. Qed.

(** A hit leaves the blocks as they are and the cache well-formed. *)
Lemma access_keeps c addr a buff bytes upd r c' : cache_wf ways c -> 0 <= addr < 2 ^ 64 ->
  accessSingleLine addr a buff bytes upd c = Ok (r, c') -> cache_wf ways c' /\ forall t b, stored c' t b <-> stored c t b.
Proof.
  intros W Ha H. destruct (access_stored _ _ _ _ _ _ _ _ H) as [_ Hst]. split; [|done].
  destruct (lookup_set ways c addr W Ha) as (t & i & s & Hs & Ht & Hi & Hg & Hok & Hh).
  destruct (decide (block_offset (base c) addr + bytes <= m_blocksize (base c))) as [Hsize|Hsize].
  - destruct (access_line_spec ways c addr a buff bytes upd W Ha Hsize) as (t' & i' & r' & c2 & _ & H' & _ & _ & W' & _).
    rewrite H in H'. by injection H' as <- <-.
  - unfold accessSingleLine in H. rewrite Hs in H. cbn [mbind res_bind] in H. rewrite Hg in H.
    cbn [mbind res_bind] in H. pose proof (find_spec s t Ht) as Hf. destruct (find t s) as [line|].
    + destruct Hf as (_ & b & Hb & _). rewrite Hb in H. cbn [mbind res_bind] in H.
      unfold read_line, write_line, log_assert in H. rewrite (so_size _ _ _ _ Hok) in H.
      rewrite (proj2 (Z.leb_gt _ _)) in H by lia. by destruct a.
    + by injection H as <- <-.
Qed.

Lemma inv_no_upgrades s log : nuca_inv s log -> no_upgrades (Nuca.m_cache s).
Proof.
  intros [W Hst Hl] i se Hi. rewrite list.Forall_forall. intros b Hb. unfold valid_replacement.
  destruct (Hl b) as [-> | ->]; [|done..]. by exists i, se.
Qed.

Lemma read_keeps s log global address now perf count latency hit data perf' s' :
  nuca_inv s log -> 0 <= address < 2 ^ 64 ->
  Nuca.read global address now perf count s = Ok (latency, hit, data, perf', s') ->
  nuca_inv s' log /\ base (Nuca.m_cache s') = base (Nuca.m_cache s).
Proof.
  intros [W Hst Hl] Ha H. unfold Nuca.read in H. apply bind_Ok in H as (b & _ & H). destruct b as [b|].
  - apply bind_Ok in H as ([r c] & Hacc & H). apply bind_Ok in H as ([[d p] s1] & Harr & [= <- <- <- <- <-]).
    apply array_cache in Harr. cbn in Harr. destruct (access_keeps _ _ _ _ _ _ _ _ W Ha Hacc) as [W' Hst'].
    destruct (access_stored _ _ _ _ _ _ _ _ Hacc) as [Hbase _].
    rewrite count_read_cache, Harr. split; [|done]. split; rewrite ?count_read_cache, ?Harr; [done| |].
    + intros t b'. rewrite Hst'. apply Hst.
    + intros b' Hb'. apply Hl. by eapply access_lines.
  - injection H as <- <- <- <- <-. rewrite count_read_cache. split; [|done]. by split; rewrite ?count_read_cache.
Qed.

(** The two cases of a write. *)
Lemma write_hit s log global address data now count latency hit evict s' t i :
  nuca_inv s log -> 0 <= address < 2 ^ 64 -> splitAddress (base (Nuca.m_cache s)) address = Ok (t, i) ->
  holds (Nuca.m_cache s) t -> Nuca.write global address data now count s = Ok (latency, hit, evict, s') ->
  hit = NUCA_CACHE /\ evict = None /\ nuca_inv s' (Rewritten t :: log) /\ base (Nuca.m_cache s') = base (Nuca.m_cache s).
Proof.
  intros [W Hst Hl] Ha Hs Hh H. unfold Nuca.write in H.
  destruct (peek_spec ways _ _ W Ha) as (t1 & i1 & r & Hs1 & Hp & Hr & _). rewrite Hs in Hs1. injection Hs1 as <- <-.
  apply Hr in Hh as Hb. destruct Hb as [b ->]. rewrite Hp in H. cbn [mbind res_bind] in H.
  destruct (modify_spec ways _ _ (setCState MODIFIED) t i W Ha Hs Hh) as (c1 & Hm & W1 & Hb1 & Hst1); [done|].
  rewrite Hm in H. cbn [mbind res_bind] in H. apply bind_Ok in H as ([r2 c2] & Hacc & H).
  apply bind_Ok in H as ([[d p] s1] & Harr & [= <- <- <- <-]). apply array_cache in Harr. cbn in Harr.
  destruct (access_keeps _ _ _ _ _ _ _ _ W1 Ha Hacc) as [W2 Hst2].
  destruct (access_stored _ _ _ _ _ _ _ _ Hacc) as [Hbase _].
  split; [done|]. split; [done|]. rewrite count_write_cache. cbn. rewrite Harr. split; [|congruence].
  split; rewrite ?count_write_cache; cbn [Nuca.set_dummy Nuca.m_cache]; rewrite ?Harr; [done| |].
  - intros t' b'. rewrite Hst2, Hst1. cbn [rewritten]. intros [[-> (b0 & _ & ->)]|[Hb Hne]].
    + by rewrite Z.eqb_refl.
    + rewrite (proj2 (Z.eqb_neq _ _)) by congruence. by apply Hst.
  - intros b' Hb'. apply (access_lines _ _ _ _ _ _ _ _ Hacc) in Hb'.
    destruct (modify_lines _ _ _ _ Hm _ Hb') as [|[b0 ->]]; [by apply Hl|by right].
Qed.

Lemma write_miss s log global address data now count t i :
  nuca_inv s log -> 0 <= address < 2 ^ 64 -> splitAddress (base (Nuca.m_cache s)) address = Ok (t, i) ->
  ~ holds (Nuca.m_cache s) t ->
  exists evict s', Nuca.write global address data now count s = Ok (Nuca.m_tags_access_time s, MISS, Some evict, s') /\
    nuca_inv s' (Inserted t :: log) /\ base (Nuca.m_cache s') = base (Nuca.m_cache s) /\ holds (Nuca.m_cache s') t /\
    (forall t', holds (Nuca.m_cache s) t' -> ~ holds (Nuca.m_cache s') t' ->
       evict.1.1 = rewritten log t' /\ evict.1.2 = tagToAddress (base (Nuca.m_cache s)) t') /\
    (evict.1.1 = true -> exists t', holds (Nuca.m_cache s) t' /\ ~ holds (Nuca.m_cache s') t' /\ rewritten log t' = true).
Proof.
  intros Hinv Ha Hs Hn. pose proof Hinv as [W Hst Hl]. unfold Nuca.write.
  destruct (peek_spec ways _ _ W Ha) as (t1 & i1 & r & Hs1 & Hp & Hr & _). rewrite Hs in Hs1. injection Hs1 as <- <-.
  destruct r as [b|]; [exfalso; apply Hn, Hr; by eexists|]. rewrite Hp. cbn [mbind res_bind].
  destruct (insert_line_spec ways _ _ data None W Ha (inv_no_upgrades _ _ Hinv)) as (t2 & i2 & Hs2 & Hins).
  rewrite Hs in Hs2. injection Hs2 as <- <-. destruct (Hins Hn) as (ev & n & c & Hi & W' & _). rewrite Hi. cbn [mbind res_bind].
  destruct (insert_stored ways _ _ _ _ _ _ _ _ _ W Ha Hs Hn Hi) as (Hbase & Hst' & Hev).
  do 2 eexists. split; [done|]. rewrite count_write_cache. cbn [Nuca.set_cache Nuca.m_cache].
  assert (forall t', holds (Nuca.m_cache s) t' -> ~ holds c t' -> exists x, ev = Some x /\ m_tag x.1.2 = t') as Hgone.
  { intros t' [b Hb]%holds_stored Hno. destruct ev as [x|].
    - exists x. split; [done|]. destruct (decide (m_tag x.1.2 = t')) as [|Hne]; [done|]. exfalso. apply Hno, holds_stored.
      exists b. apply Hst'. right. split; [done|]. by intros y [= <-].
    - exfalso. apply Hno, holds_stored. exists b. apply Hst'. by right. }
  split; [|split; [done|split; [apply holds_stored; eexists; apply Hst'; by left|split]]].
  - split; rewrite ?count_write_cache; cbn [Nuca.set_cache Nuca.m_cache]; [done| |].
    + intros t' b' [[-> ->]|[Hb _]]%Hst'; cbn [rewritten]; [by rewrite Z.eqb_refl|].
      rewrite (proj2 (Z.eqb_neq _ _)); [by apply Hst|]. intros <-. apply Hn, holds_stored. by eexists.
    + intros b' Hb'. destruct (insert_lines _ _ _ _ _ _ _ Hi _ Hb') as [|[t' ->]]; [by apply Hl|by left].
  - intros t' Hh Hno. destruct (Hgone t' Hh Hno) as ([[a e] buf] & -> & <-). destruct (Hev _ eq_refl) as [He Haddr].
    cbn in *. rewrite (Hst _ _ He). split; [by destruct (rewritten log (m_tag e))|done].
  - destruct ev as [[[a e] buf]|]; [|done]. cbn. intros Hmod. destruct (Hev _ eq_refl) as [He _]. cbn in He.
    exists (m_tag e). split; [apply holds_stored; by eexists|]. rewrite (Hst _ _ He) in Hmod. split.
    + rewrite holds_stored. intros [b' [[Ht ->]|[_ Hne]]%Hst'].
      * apply Hn. rewrite <- Ht. apply holds_stored. by eexists.
      * by apply (Hne _ eq_refl).
    + by destruct (rewritten log (m_tag e)).
Qed.
End NucaFacts.

Lemma nuca_run_inv {P : CachePolicy} {Hpow : Pow} ways {L : PolicyLaws P ways} s0 s log :
  nuca_inv ways s0 [] -> nuca_run s0 s log -> nuca_inv ways s log /\ base (Nuca.m_cache s) = base (Nuca.m_cache s0).
Proof.
  intros H0 Hrun. induction Hrun as [|s log g a now perf cnt la hit data perf' s' _ [IH IHb] Ha Hread
    |s log g a data now cnt la hit ev s' t i _ [IH IHb] Ha Hs Hw]; [done| |].
  - destruct (read_keeps ways _ _ _ _ _ _ _ _ _ _ _ _ IH Ha Hread). split; [done|congruence].
  - destruct (peek_spec ways _ _ (ni_cache _ _ _ IH) Ha) as (t1 & i1 & r & Hs1 & _ & Hr & _).
    rewrite Hs in Hs1. injection Hs1 as <- <-. destruct r as [b|].
    + destruct (write_hit ways _ _ _ _ _ _ _ _ _ _ _ t i IH Ha Hs (proj2 Hr ltac:(by eexists)) Hw) as (-> & _ & ? & ?).
      split; [done|congruence].
    + assert (~ holds (Nuca.m_cache s) t) as Hn by (intros H; apply Hr in H as [? ?]; done).
      destruct (write_miss ways _ _ g _ data now cnt t i IH Ha Hs Hn) as (ev' & s2 & Hw' & ? & ? & _).
      rewrite Hw in Hw'. injection Hw' as -> -> -> ->. split; [done|congruence].
Qed.

Lemma nuca_new_inv {P : CachePolicy} {Hpow : Pow} ways {L : PolicyLaws P ways} b attempts p size dt tt bw q :
  base_ok b -> m_associativity b = ways -> 0 < ways -> pol_inv p -> info_inv (new_set_info ways attempts) ->
  nuca_inv ways (Nuca.new size dt tt bw (new_cache b attempts false p) q) [].
Proof.
  intros Hb Ha Hw Hp Hi. destruct (new_cache_wf ways b attempts false p Hb Ha Hw Hp Hi) as (W & He & _).
  split; [done| |].
  - intros t b' Hst. exfalso. apply (He t). apply holds_stored. by eexists.
  - intros b' (i & s & Hs & Hin). cbn in Hs. apply lookup_replicate in Hs as [-> _]. cbn in Hin.
    apply list_elem_of_lookup_1 in Hin as [k Hk]. apply lookup_replicate in Hk as [-> _]. by left.
Qed.

(** The NUCA cache, with a policy that keeps the laws and a safe hash function, writes a
    block back iff a write has hit it: after any reads and writes, a write that misses
    succeeds, and it reports its victim for writing to DRAM exactly if a second write
    reached that block after the one that brought it in.  Data that were written once are dropped when they are evicted,
    although the directory sends them there to be "written to DRAM on eviction". *)
Theorem nuca_writes_back_rewritten_only {P : CachePolicy} {Hpow : Pow} ways {L : PolicyLaws P ways}
    b attempts p size dt tt bw q s log global address data now count t i :
  base_ok b -> m_associativity b = ways -> 0 < ways -> pol_inv p -> info_inv (new_set_info ways attempts) ->
  nuca_run (Nuca.new size dt tt bw (new_cache b attempts false p) q) s log ->
  0 <= address < 2 ^ 64 -> splitAddress b address = Ok (t, i) -> ~ holds (Nuca.m_cache s) t ->
  exists evict s', Nuca.write global address data now count s = Ok (Nuca.m_tags_access_time s, MISS, Some evict, s') /\
    holds (Nuca.m_cache s') t /\
    (forall t', holds (Nuca.m_cache s) t' -> ~ holds (Nuca.m_cache s') t' ->
       evict.1.1 = rewritten log t' /\ evict.1.2 = tagToAddress b t') /\
    (evict.1.1 = true -> exists t', holds (Nuca.m_cache s) t' /\ ~ holds (Nuca.m_cache s') t' /\ rewritten log t' = true).
Proof.
  intros Hb Ha Hw Hp Hi Hrun Haddr Hs Hn.
  destruct (nuca_run_inv ways _ _ _ (nuca_new_inv ways b attempts p size dt tt bw q Hb Ha Hw Hp Hi) Hrun) as [Hinv Hbase].
  cbn in Hbase. assert (splitAddress (base (Nuca.m_cache s)) address = Ok (t, i)) as Hs' by (by rewrite Hbase).
  destruct (write_miss ways s log global address data now count t i Hinv Haddr Hs' Hn) as (ev & s' & Hwr & _ & _ & Hin & H1 & H2).
  exists ev, s'. by rewrite Hbase in H1.
Qed.

(** One line in all: the second block evicts the first, whose data are dropped. *)
Definition one_line : CacheBase := mkBase 1 64 HASH_MASK 1 None 6 0.
Definition one_line_nuca : Nuca.State (P := Lru.policy) :=
  Nuca.new 64 8 3 1000 (new_cache (P := Lru.policy) one_line 1 false (Lru.new 1 1)) None.

Definition no_pow : Pow := {| pow := fun x _ => x |}.

(** The state after the first write. *)
Definition after_first : Nuca.State (P := Lru.policy) :=
  match Nuca.write (Hpow := no_pow) 0 0 None 0 true one_line_nuca with Ok (_, _, _, s) => s | Err _ => one_line_nuca end.

Lemma nuca_writes_back_rewritten_only_witness :
  exists evict s', nuca_run (Hpow := no_pow) one_line_nuca after_first [Inserted 0] /\
    Nuca.write (Hpow := no_pow) 0 64 None 100 true after_first = Ok (3, MISS, Some evict, s') /\ evict.1.1 = false.
Proof.
  assert (nuca_run (Hpow := no_pow) one_line_nuca after_first [Inserted 0]) as Hrun.
  { refine (@run_write Lru.policy no_pow one_line_nuca one_line_nuca [] 0 0 None 0 true 3 MISS
      (Some (false, tagToAddress one_line no_tag, None)) after_first 0 0 (run_start one_line_nuca) _ eq_refl _); [lia|].
    reflexivity. }
  assert (~ holds (Nuca.m_cache after_first) 1) as Hn.
  { assert (m_sets (Nuca.m_cache after_first) = [@mkSet Lru.policy [setTag 0 new_info] None 64 (Lru.mkState 1 [0])]) as Hm by reflexivity.
    intros (i & se & Hi & (_ & b & Hb & Htag)). rewrite Hm in Hi. destruct i as [|i]; [|discriminate Hi].
    injection Hi as <-. cbn in Hb. apply list_elem_of_singleton in Hb as ->. discriminate Htag. }
  destruct (@nuca_writes_back_rewritten_only Lru.policy no_pow 1 (lru_laws 1 eq_refl) one_line 1 (Lru.new 1 1) 64 8 3 1000 None
    after_first [Inserted 0] 0 64 None 100 true 1 0) as (evict & s' & Hw & _ & _ & Hev).
  - split; [cbn; lia|]. split; [exact I|]. split; [exact I|]. exists 6. split; [lia|]. split; [reflexivity|exact I].
  - reflexivity.
  - lia.
  - split; [reflexivity|]. apply ordered_new. lia.
  - split; reflexivity.
  - exact Hrun.
  - lia.
  - reflexivity.
  - exact Hn.
  - exists evict, s'. split; [exact Hrun|]. split; [exact Hw|].
    destruct evict.1.1; [|reflexivity]. destruct (Hev eq_refl) as (t' & _ & _ & Hr). cbn in Hr.
    destruct t'; discriminate Hr.
Defined.

(** The directory reads [eviction] although a hit does not assign it. *)
Lemma nuca_hit_eviction_unset {P : CachePolicy} {Hpow : Pow} ways {L : PolicyLaws P ways} core homes global address data
    elapsed count s log t i :
  nuca_inv ways s log -> 0 <= address < 2 ^ 64 -> splitAddress (base (Nuca.m_cache s)) address = Ok (t, i) ->
  holds (Nuca.m_cache s) t ->
  forall r, Nuca.sendDataToNUCA core homes global address data elapsed count (Some s) <> Ok r.
Proof.
  intros Hinv Ha Hs Hh r H. unfold Nuca.sendDataToNUCA in H. apply bind_Ok in H as ([[[la hit] ev] s'] & Hw & H).
  destruct (write_hit ways _ _ _ _ _ _ _ _ _ _ _ t i Hinv Ha Hs Hh Hw) as (_ & -> & _). done.
Qed.

(** ** The DRAM cache *)
Section DramCacheFacts.
Import DramCache.
Context {P : CachePolicy} {Hpow : Pow} {PF : Prefetcher} {D : DramCntlrInterface}.
Notation State := (DramCache.State (P := P) (PF := PF) (D := D)).

Lemma null_array global t_start (s : State) r : accessDataArray global t_start None s <> Ok r.
Proof.
  unfold accessDataArray. intros H. apply bind_Ok in H as (pt & _ & H). apply bind_Ok in H as ([d q] & _ & H).
  apply bind_Ok in H as (p & Hp & _). done.
Qed.

Lemma insertLine_fails global a address requester data now (s : State) r :
  insertLine global a address requester data now s <> Ok r.
Proof.
  unfold insertLine. intros H. apply bind_Ok in H as ([[ev n] c] & _ & H). apply bind_Ok in H as (c' & _ & H).
  apply bind_Ok in H as ([[d p] s'] & Harr & _). by apply null_array in Harr.
Qed.

Lemma load_needs_hit global address requester now perf (s : State) r :
  getDataFromDram global address requester now perf s = Ok r -> exists b, peekSingleLine address (m_cache s) = Ok (Some b).
Proof.
  unfold getDataFromDram, doAccess. intros H. apply bind_Ok in H as (x & H & _). apply bind_Ok in H as (b & Hb & H).
  destruct b as [b|]; [by exists b|]. exfalso. apply bind_Ok in H as (p1 & _ & H). apply bind_Ok in H as (p2 & _ & H).
  apply bind_Ok in H as (y & H & _). apply bind_Ok in H as ([[[la d] pf] s1] & _ & H).
  apply bind_Ok in H as (s2 & Hins & _). by apply insertLine_fails in Hins.
Qed.
End DramCacheFacts.

Lemma peek_new {P : CachePolicy} b attempts fi p addr r : base_ok b -> 0 <= addr < 2 ^ 64 ->
  peekSingleLine addr (new_cache b attempts fi p) = Ok r -> r = None.
Proof.
  intros Hb Ha H. destruct (split_total b addr Hb Ha) as (t & i & Hs & Hi & Ht). unfold peekSingleLine in H. cbn in H.
  rewrite Hs in H. cbn [mbind res_bind] in H. apply bind_Ok in H as (s & [_ Hg]%vget_Ok & H).
  apply lookup_replicate in Hg as [-> _]. pose proof (find_spec (new_set (m_associativity b) (m_blocksize b) fi p) t Ht) as Hf.
  destruct (find t _) as [line|]; [|by injection H as <-]. destruct Hf as ((_ & x & Hx & Htag) & _). exfalso.
  cbn in Hx. apply list_elem_of_lookup_1 in Hx as [k Hk]. apply lookup_replicate in Hk as [-> _]. by apply Ht.
Qed.

(** Property C39.  The DRAM cache cannot be used: a write never completes, because it
    passes a null pointer for the times of the request and follows it at once; a read
    completes only if its block is in the cache already, because to insert a block
    follows a null pointer, too.  So no access of a new cache completes, whatever the
    controller behind it, its prefetcher and its replacement policy. *)
Theorem dram_cache_never_completes {P : CachePolicy} {Hpow : Pow} {PF : Prefetcher} {D : DramCntlrInterface}
    global address requester data now perf s :
  (forall r, DramCache.putDataToDram (PF := PF) (D := D) global address requester data now s <> Ok r) /\
  (forall r, DramCache.getDataFromDram (PF := PF) (D := D) global address requester now perf s = Ok r ->
     exists b, peekSingleLine address (DramCache.m_cache s) = Ok (Some b)) /\
  (forall core size dt tgt bw period cntlr b attempts p q pf on_hit r, base_ok b -> 0 <= address < 2 ^ 64 ->
     DramCache.getDataFromDram (PF := PF) (D := D) global address requester now perf
       (DramCache.new core size dt tgt bw period cntlr (new_cache b attempts false p) q pf on_hit) <> Ok r).
Proof.
  split; [|split].
  - intros r. unfold DramCache.putDataToDram, DramCache.doAccess. intros H. apply bind_Ok in H as (x & H & _).
    apply bind_Ok in H as (b & _ & H). apply bind_Ok in H as (y & H & _). done.
  - intros r. apply load_needs_hit.
  - intros core size dt tgt bw period cntlr b attempts p q pf on_hit r Hb Ha H.
    apply load_needs_hit in H as [x Hx]. by apply peek_new in Hx.
Qed.

(** A controller that answers after 50 ns, to have one. *)
Definition fixed_cntlr : DramCntlrInterface :=
  {| cntlr_state := unit; cntlr_get := fun _ _ _ perf s => Ok (50 * NS_1, None, perf, s);
     cntlr_put := fun _ _ _ _ s => Ok (50 * NS_1, s) |}.

Definition new_dram_cache : DramCache.State (P := Lru.policy) (PF := SimplePrefetcher.prefetcher) (D := fixed_cntlr) :=
  DramCache.new (PF := SimplePrefetcher.prefetcher) (D := fixed_cntlr) 0 64 10 2 1000 1000000 tt
    (new_cache (P := Lru.policy) one_line 1 false (Lru.new 1 1)) None None false.

Lemma dram_cache_never_completes_witness :
  match DramCache.getDataFromDram (Hpow := no_pow) 0 4096 0 100 (Some ShmemPerf.new) new_dram_cache with
  | Ok _ => False
  | Err _ => True
  end.
Proof.
  destruct (DramCache.getDataFromDram _ _ _ _ _ _) as [r|] eqn:E; [|exact I].
  refine (proj2 (proj2 (@dram_cache_never_completes Lru.policy no_pow SimplePrefetcher.prefetcher fixed_cntlr 0 4096 0 None
    100 (Some ShmemPerf.new) new_dram_cache)) 0 64 10 2 1000 1000000 tt one_line 1 (Lru.new 1 1) None None false r _ _ E); [|lia].
  split; [cbn; lia|]. split; [exact I|]. split; [exact I|]. exists 6. split; [lia|]. split; [reflexivity|exact I].
Defined.

(** The simple prefetcher starts with the address it was asked for, which is in the cache. *)
Example simple_prefetcher_starts_at_zero :
  let s := SimplePrefetcher.new 0 1 1 false 3 false in
  match SimplePrefetcher.getNextAddress 64 0 s with Ok (l, _) => l = [64; 128; 192] | Err _ => False end.
Proof. reflexivity. Qed.

(** With flows per core, the DRAM cache's call with an invalid core throws. *)
Example simple_prefetcher_invalid_core :
  SimplePrefetcher.getNextAddress 64 (-1) (SimplePrefetcher.new 0 1 1 true 3 false) = Err (Exc "out_of_range").
Proof. reflexivity. Qed.
