(* ===== verification/TraceFacts.v ===== *)
(** * What the trace frontends send

    The records of a trace reach the memory system in order and once each; the
    cycle stamped on a record does not delay it; the lines Sniper's DRAM controller
    writes are the records the frontend reads. *)
From Stdlib Require Import String Ascii Sorted.
From S2P Require Import Prelude Utils Request Translation SimpleO3 TraceFrontends SniperQueue SniperTrace.
Local Open Scope string_scope.
Local Open Scope Z_scope.

(** A translation changes addresses, not what a request is or whose it is. *)
Definition ids (req : Request) : Z * Z := (type_id req, source_id req).

Class KeepsIds (T : ITranslation) : Prop :=
  tr_keeps_ids : forall req tr b req' tr', tr_translate req tr = Ok (b, req', tr') -> ids req' = ids req.

#[export] Instance no_translation_keeps_ids : KeepsIds no_translation.
Proof. intros req tr b req' tr'. cbn. unfold NoTranslation.translate. by intros [= _ <- _]. Qed.

(** A memory system that also says which requests it accepted. *)
Definition logged (M : IMemory) : IMemory := {|
  mem_state := list Request * mem_state;
  mem_send := fun req '(log, m) =>
    '(ok, x, m) ← mem_send req m; Ok (ok, x, ((if ok : bool then log ++ [req] else log)%list, m));
  mem_tick := fun '(log, m) => '(done, m) ← mem_tick m; Ok (done, (log, m));
|}.

(** ** [CustomTrace] *)
Section Custom.
Context {T : ITranslation} {M : IMemory}.

(** The frontend ticks and memory ticks in any interleaving: the requests that
    were accepted and the records each frontend tick tried. *)
Inductive custom_run (l : list CustomTrace.Trace) (tr0 : tr_state) (m0 : mem_state) :
    list Request -> list CustomTrace.Trace -> CustomTrace.State -> tr_state -> mem_state -> Prop :=
| custom_run_start : custom_run l tr0 m0 [] [] (CustomTrace.mkState l 0 ∅) tr0 m0
| custom_run_tick log tried s tr m t s' tr' m' sent :
    custom_run l tr0 m0 log tried s tr m ->
    vget (CustomTrace.m_trace s) (CustomTrace.m_curr_trace_idx s) = Ok t ->
    CustomTrace.tick (M := logged M) s tr ([], m) = Ok (s', tr', (sent, m')) ->
    custom_run l tr0 m0 (log ++ sent)%list (tried ++ [t])%list s' tr' m'
| custom_run_memory log tried s tr m done m' :
    custom_run l tr0 m0 log tried s tr m -> mem_tick m = Ok (done, m') ->
    custom_run l tr0 m0 log tried s tr m'.

Definition trace_ids (t : CustomTrace.Trace) : Z * Z := (req_type (CustomTrace.is_write t), CustomTrace.source_id t).
Definition page_of (t : CustomTrace.Trace) : Z := u64 (Z.shiftr (CustomTrace.addr t) 12).

(** What one tick does with the record at the index. *)
Lemma custom_tick_cases `{!KeepsIds T} s tr m t s' tr' sent m' :
  vget (CustomTrace.m_trace s) (CustomTrace.m_curr_trace_idx s) = Ok t ->
  Z.of_nat (length (CustomTrace.m_trace s)) < 2 ^ 64 ->
  CustomTrace.tick (M := logged M) s tr ([], m) = Ok (s', tr', (sent, m')) ->
  CustomTrace.m_trace s' = CustomTrace.m_trace s /\
  CustomTrace.vpn_access_count s' = count_access (CustomTrace.addr t) (CustomTrace.vpn_access_count s) /\
  ((CustomTrace.m_curr_trace_idx s' = CustomTrace.m_curr_trace_idx s /\ sent = []) \/
   (CustomTrace.m_curr_trace_idx s' = CustomTrace.m_curr_trace_idx s + 1 /\
    (ids <$> sent = [trace_ids t] \/
     sent = [] /\ exists req tr1 req' tr2, tr_translate req tr1 = Ok (false, req', tr2)))).
Proof.
  intros Ht Hl. unfold CustomTrace.tick. rewrite Ht. cbn [mbind res_bind].
  pose proof (vget_inside _ _ _ Ht) as Hi.
  destruct (tr_translate _ tr) as [[[b req'] tr1]|] eqn:E; [|done]. cbn [mbind res_bind].
  pose proof (tr_keeps_ids _ _ _ _ _ E) as Hk.
  destruct b; cbn [negb].
  - cbn. destruct (mem_send req' m) as [[[[] x] m1]|] eqn:Es; cbn; [| |done];
      intros [= <- <- <- <-]; cbn; (split; [done|]); (split; [done|]).
    + right. rewrite u64_small by lia. split; [done|]. left. by rewrite Hk.
    + by left.
  - intros [= <- <- <- <-]; cbn. split; [done|]. split; [done|]. right. rewrite u64_small by lia.
    split; [done|]. right. split; [done|]. eauto.
Qed.

(** Pages counted modulo 2^64. *)
Lemma count_access_lookup a c v :
  default 0 (count_access a c !! v) =
  if decide (u64 (Z.shiftr a 12) = v) then u64 (default 0 (c !! v) + 1) else default 0 (c !! v).
Proof.
  unfold count_access. destruct (decide _) as [->|Hne]; [by rewrite lookup_insert_eq|].
  by rewrite lookup_insert_ne.
Qed.

(** For every translation that keeps the type and the source of a
    request, every memory system and every interleaving of frontend and memory
    ticks, the requests that [CustomTrace] got accepted are, by type and core, a
    subsequence of the records before the current index: they are sent in trace
    order and none twice, and if the translation never fails exactly these records
    have been accepted.  The counter of a page is the number of ticks that tried a
    record of it, retries of refused requests included. *)
Theorem custom_trace_in_order `{!KeepsIds T} l tr0 m0 log tried s tr m :
  Z.of_nat (length l) < 2 ^ 64 ->
  custom_run l tr0 m0 log tried s tr m ->
  let idx := CustomTrace.m_curr_trace_idx s in
  CustomTrace.m_trace s = l /\ 0 <= idx <= Z.of_nat (length l) /\
  sublist (ids <$> log) (trace_ids <$> take (Z.to_nat idx) l) /\
  ((forall req tr1 b req' tr2, tr_translate req tr1 = Ok (b, req', tr2) -> b = true) ->
   ids <$> log = trace_ids <$> take (Z.to_nat idx) l) /\
  forall v, default 0 (CustomTrace.vpn_access_count s !! v) =
            u64 (Z.of_nat (length (filter (fun t => page_of t = v) tried))).
Proof.
  intros Hl. induction 1 as [|log tried s tr m t s' tr' m' sent _ IH Ht Hs|log tried s tr m d m' _ IH _];
    cbn zeta in *; [| |done].
  { cbn. split_and!; try done; lia. }
  destruct IH as (Hm & Hi & Hsub & Heq & Hc).
  pose proof (vget_inside _ _ _ Ht) as Hin. pose proof (proj1 (vget_Ok _ _ _) Ht) as [_ Hlk].
  destruct (custom_tick_cases _ _ _ _ _ _ _ _ Ht ltac:(by rewrite Hm) Hs) as (Hm' & Hcnt & Hcase).
  rewrite Hm in *. rewrite Hm', Hcnt, fmap_app.
  assert (take (Z.to_nat (CustomTrace.m_curr_trace_idx s + 1)) l =
          (take (Z.to_nat (CustomTrace.m_curr_trace_idx s)) l ++ [t])%list) as Htake.
  { replace (Z.to_nat (CustomTrace.m_curr_trace_idx s + 1)) with (S (Z.to_nat (CustomTrace.m_curr_trace_idx s))) by lia.
    by apply take_S_r. }
  split; [done|]. split; [destruct Hcase as [[-> _]|[-> _]]; lia|]. split_and!.
  - destruct Hcase as [[-> ->]|[-> [->|[-> _]]]]; rewrite ?Htake, ?fmap_app, ?app_nil_r; [done|by apply sublist_app|].
    by apply sublist_inserts_r.
  - intros Hok. rewrite (Heq Hok).
    destruct Hcase as [[-> ->]|[-> [->|[_ (r & u & r' & u' & E)]]]]; rewrite ?Htake, ?fmap_app, ?app_nil_r; [done|done|].
    by apply Hok in E.
  - intros v. rewrite count_access_lookup, Hc. fold (page_of t). rewrite list.filter_app, length_app.
    destruct (decide (page_of t = v)) as [Hv|Hv].
    + rewrite filter_cons_True by done. cbn. unfold u64. rewrite Zplus_mod_idemp_l. f_equal. lia.
    + rewrite filter_cons_False by done. cbn. f_equal. lia.
Qed.
End Custom.

(** ** [CustomTrace2] *)
Section Custom2.
Context {T : ITranslation} {M : IMemory}.
Import CustomTrace2.

Inductive custom2_reach (l : list Trace) (tr0 : tr_state) (m0 : mem_state) :
    State -> tr_state -> mem_state -> Prop :=
| custom2_start : custom2_reach l tr0 m0 (mkState l 0 0 ∅) tr0 m0
| custom2_tick s tr m s' tr' m' :
    custom2_reach l tr0 m0 s tr m -> tick s tr m = Ok (s', tr', m') -> custom2_reach l tr0 m0 s' tr' m'
| custom2_memory s tr m d m' :
    custom2_reach l tr0 m0 s tr m -> mem_tick m = Ok (d, m') -> custom2_reach l tr0 m0 s tr m'.

Fixpoint ticks (n : nat) (s : State) (tr : tr_state) (m : mem_state) : res (State * tr_state * mem_state) :=
  match n with
  | O => Ok (s, tr, m)
  | S n => '(s, tr, m) ← tick s tr m; ticks n s tr m
  end.

(** The clock never passes the cycle of the record at the index. *)
Record on_time (l : list Trace) (s : State) : Prop := {
  ot_trace : m_trace s = l;
  ot_idx : 0 <= m_curr_trace_idx s <= Z.of_nat (length l);
  ot_clk : 0 <= clk s <= m_curr_trace_idx s;
  ot_next : forall t, l !! Z.to_nat (m_curr_trace_idx s) = Some t -> clk s <= t_clk t;
}.

Definition sorted (l : list Trace) : Prop := Sorted Z.le (t_clk <$> l) /\ Forall (fun t => 0 <= t_clk t) l.

Lemma sorted_next l i t t' : sorted l -> l !! i = Some t -> l !! S i = Some t' -> t_clk t <= t_clk t'.
Proof.
  intros [Hs _]. revert l Hs. induction i as [|i IH]; intros [|a [|b l]] Hs; cbn; try done.
  - intros [= ->] [= ->]. inversion Hs as [|? ? _ Hd]; subst. by inversion Hd.
  - intros Hi Hj. inversion Hs; subst. by apply (IH (b :: l)).
Qed.

Lemma tick_attempt s tr m s' tr' m' t :
  vget (m_trace s) (m_curr_trace_idx s) = Ok t -> clk s <= t_clk t -> tick s tr m = Ok (s', tr', m') ->
  let s1 := mkState (m_trace s) (m_curr_trace_idx s) (clk s) (count_access (addr t) (vpn_access_count s)) in
  s' = s1 \/ s' = set_idx (u64 (m_curr_trace_idx s + 1)) s1 \/ s' = after_send s1.
Proof.
  intros Ht Hc. unfold tick. rewrite Ht. cbn [mbind res_bind]. rewrite (proj2 (Z.ltb_ge _ _)) by done.
  destruct (tr_translate _ tr) as [[[[] req'] tr1]|]; cbn; [| |done].
  - destruct (mem_send req' m) as [[[[] x] m1]|]; cbn; [| |done]; intros [= <- _ _]; auto.
  - intros [= <- _ _]. auto.
Qed.

Lemma on_time_tick l s tr m s' tr' m' : Z.of_nat (length l) < 2 ^ 64 -> sorted l ->
  on_time l s -> tick s tr m = Ok (s', tr', m') -> on_time l s'.
Proof.
  intros Hl Hs [Hm Hi Hc Hn] H.
  destruct (vget (m_trace s) (m_curr_trace_idx s)) as [t|] eqn:Ht; [|unfold tick in H; by rewrite Ht in H].
  rewrite Hm in Ht. pose proof (vget_inside _ _ _ Ht) as Hin. pose proof (proj1 (vget_Ok _ _ _) Ht) as [_ Hlk].
  assert (forall t', l !! Z.to_nat (m_curr_trace_idx s + 1) = Some t' -> clk s <= t_clk t') as Hnext.
  { intros t' Ht'. rewrite Z2Nat.inj_add in Ht' by lia. rewrite Nat.add_1_r in Ht'.
    pose proof (sorted_next _ _ _ _ Hs Hlk Ht'). pose proof (Hn _ Hlk). lia. }
  rewrite <- Hm in Ht.
  destruct (tick_attempt _ _ _ _ _ _ _ Ht (Hn _ Hlk) H) as [->|[->| ->]]; clear H.
  - by constructor.
  - cbn. rewrite u64_small by lia. constructor; cbn; [done|lia|lia|done].
  - unfold after_send. cbn. rewrite u64_small by lia. rewrite Hm.
    destruct (vget l (m_curr_trace_idx s + 1)) as [t'|] eqn:Ht'.
    + apply vget_Ok in Ht' as [_ Ht']. pose proof (Hnext _ Ht').
      destruct (Z.eqb_spec (t_clk t') (clk s)); constructor; cbn; rewrite ?u64_small by lia; try done; try lia.
      intros u Hu. simplify_eq. lia.
    + constructor; cbn; rewrite ?u64_small by lia; try done; try lia.
      intros u Hu. assert (vget l (m_curr_trace_idx s + 1) = Ok u) by (apply vget_Ok; split; [lia|done]). congruence.
Qed.

Lemma ticks_stuck n : forall s tr m t, vget (m_trace s) (m_curr_trace_idx s) = Ok t ->
  0 <= t_clk t < clk s -> clk s + Z.of_nat n < 2 ^ 64 ->
  ticks n s tr m = Ok (mkState (m_trace s) (m_curr_trace_idx s) (clk s + Z.of_nat n) (vpn_access_count s), tr, m).
Proof.
  induction n as [|n IH]; intros s tr m t Ht Hc Hn; cbn [ticks].
  { rewrite Z.add_0_r. by destruct s. }
  unfold tick. rewrite Ht. cbn [mbind res_bind]. rewrite (proj2 (Z.ltb_lt _ _)) by lia. cbn [mbind res_bind].
  rewrite (IH _ tr m t); unfold next_clk; cbn; [|done| |]; rewrite ?u64_small by lia; [|lia|lia].
  do 4 f_equal. lia.
Qed.

(** If the cycles of the trace do not decrease, [CustomTrace2] never
    waits: in every reachable state the clock is at most the cycle of the next
    record and at most the number of records passed, so every tick tries the next
    record at once, however far in the future its cycle lies.  A record whose cycle
    the clock has passed is what makes it wait, and it waits for good: no number of
    ticks up to the wrap-around of the 64-bit clock moves the index. *)
Theorem custom_trace2_schedule l tr0 m0 s tr m t :
  Z.of_nat (length l) < 2 ^ 64 -> Forall (fun t => 0 <= t_clk t) l ->
  custom2_reach l tr0 m0 s tr m -> vget (m_trace s) (m_curr_trace_idx s) = Ok t ->
  (Sorted Z.le (t_clk <$> l) ->
   clk s <= t_clk t /\ clk s <= m_curr_trace_idx s /\
   forall s' tr' m', tick s tr m = Ok (s', tr', m') ->
     vpn_access_count s' = count_access (addr t) (vpn_access_count s)) /\
  (0 <= t_clk t < clk s -> forall n, clk s + Z.of_nat n < 2 ^ 64 ->
   exists s', ticks n s tr m = Ok (s', tr, m) /\ m_curr_trace_idx s' = m_curr_trace_idx s).
Proof.
  intros Hl Hpos Hr Ht. split.
  - intros Hs. assert (on_time l s) as Hot.
    { clear Ht. induction Hr; [|by eapply on_time_tick|done].
      constructor; cbn; try done; try lia. intros u Hu. rewrite list.Forall_lookup in Hpos. eauto. }
    pose proof (proj1 (vget_Ok _ _ _) Ht) as [_ Hlk]. rewrite (ot_trace _ _ Hot) in Hlk.
    pose proof (ot_next _ _ Hot _ Hlk) as Hc. split; [done|]. split; [apply Hot|]. intros s' tr' m' Htick.
    destruct (tick_attempt _ _ _ _ _ _ _ Ht Hc Htick) as [->|[->| ->]]; [done..|].
    unfold after_send. cbn. repeat case_match; done.
  - intros Hc n Hn. eexists. split; [by eapply ticks_stuck|done].
Qed.
End Custom2.

(** ** From Sniper to Ramulator *)
Record access_ok (x : DramCntlr.Access) : Prop := {
  ok_now : 0 <= DramCntlr.now x < 2 ^ 64;
  ok_address : 0 <= DramCntlr.address x < 2 ^ 64;
  ok_requester : - 2 ^ 31 <= DramCntlr.requester x < 2 ^ 31;
}.

Definition is_write_of (a : access_t) : bool := match a with READ => false | WRITE => true end.

Definition to_trace (x : DramCntlr.Access) : CustomTrace2.Trace :=
  CustomTrace2.mkTrace (getNS (DramCntlr.now x)) (is_write_of (DramCntlr.kind x))
    (DramCntlr.address x) (DramCntlr.requester x).

Definition fits_addr (x : DramCntlr.Access) : bool := DramCntlr.address x <? 2 ^ 63.

Lemma tokenize_space s : tokenize s " " = split_on " " s.
Proof. unfold tokenize. apply tokenize_loop_split. lia. Qed.

Lemma trace_line_tokens a now address requester : 0 <= now -> 0 <= address ->
  tokenize (DramCntlr.trace_line a now address requester) " " =
  [print_lu (getNS now); if is_write_of a then "W" else "R"; print_lu address; print_d requester].
Proof.
  intros Hn Ha. rewrite tokenize_space. unfold DramCntlr.trace_line.
  assert (0 <= getNS now) by (unfold getNS, NS_1; apply Z.div_pos; lia).
  destruct a; cbn [is_write_of].
  - change (" R " ++ ?x) with (String " " ("R" ++ String " " x)).
    rewrite split_on_app, split_on_app by (done || by apply print_lu_no_space).
    change (" " ++ ?x) with (String " " x).
    rewrite split_on_app, split_on_single by (apply print_d_no_space || by apply print_lu_no_space). done.
  - change (" W " ++ ?x) with (String " " ("W" ++ String " " x)).
    rewrite split_on_app, split_on_app by (done || by apply print_lu_no_space).
    change (" " ++ ?x) with (String " " x).
    rewrite split_on_app, split_on_single by (apply print_d_no_space || by apply print_lu_no_space). done.
Qed.

Lemma parse_trace_line x : access_ok x ->
  CustomTrace2.parse_line (DramCntlr.line_of x) =
  if fits_addr x then Ok (to_trace x) else Err (Exc "Invalid address").
Proof.
  intros [Hn Ha Hr]. unfold CustomTrace2.parse_line, DramCntlr.line_of. rewrite trace_line_tokens by lia.
  assert (0 <= getNS (DramCntlr.now x) < 2 ^ 64).
  { unfold getNS, NS_1. split; [apply Z.div_pos; lia|]. apply Z.div_lt_upper_bound; lia. }
  rewrite stoull_print, stoll_print, stoi_print by done. unfold fits_addr, to_trace.
  destruct (DramCntlr.kind x), (_ <? _); reflexivity.
Qed.

Lemma parse_all_lines xs : Forall access_ok xs ->
  parse_all CustomTrace2.parse_line (DramCntlr.line_of <$> xs) =
  if forallb fits_addr xs then Ok (to_trace <$> xs) else Err (Exc "Invalid address").
Proof.
  induction 1 as [|x xs Hx _ IH]; [done|]. cbn [fmap list_fmap parse_all forallb].
  rewrite parse_trace_line, IH by done. destruct (fits_addr x); [|done]. by destruct (forallb fits_addr xs).
Qed.

(** Property C35.  The trace file is one for all DRAM controllers of Sniper.  Whatever
    reads and writes they serve, interleaved in any way, with any latency model and
    fault injector, [CustomTrace2] reads the file they leave back as exactly these
    accesses in the order in which they were served: the time truncated to whole
    nanoseconds, the direction, the address and the core.  The exception is an address
    of 2^63 or more, which Sniper prints as an unsigned number: the frontend then
    rejects the whole file. *)
Theorem sniper_trace_roundtrip `{P : DramPerfModel} xs cores cntlr y :
  Forall access_ok xs.*2 -> DramCntlr.accesses xs (DramCntlr.new_system cores cntlr true) = Ok y ->
  CustomTrace2.init (DramCntlr.fp y) =
  if forallb fits_addr xs.*2 then Ok (CustomTrace2.mkState (to_trace <$> xs.*2) 0 0 ∅)
  else Err (Exc "Invalid address").
Proof.
  intros Hx H. rewrite (DramCntlr.accesses_fp xs (DramCntlr.new_system cores cntlr true) y []) by done.
  unfold CustomTrace2.init, init_trace.
  rewrite app_nil_l, parse_all_lines by done. by destruct (forallb fits_addr xs.*2).
Qed.

(** ** Witnesses *)

(** A memory system that refuses every other request. *)
Definition flaky_memory : IMemory := {|
  mem_state := bool;
  mem_send := fun _ b => Ok (b, None, negb b);
  mem_tick := fun b => Ok ([], b);
|}.

Definition demo_records : list CustomTrace.Trace :=
  [CustomTrace.mkTrace false 4096 0; CustomTrace.mkTrace true 8192 1].

Lemma custom_trace_in_order_witness : exists log tried s tr m,
  custom_run (T := no_translation) (M := flaky_memory) demo_records
    (NoTranslation.mkState 0) false log tried s tr m /\
  CustomTrace.m_curr_trace_idx s = 1 /\ ids <$> log = [(0, 0)] /\
  default 0 (CustomTrace.vpn_access_count s !! 1) = 2.
Proof.
  assert (exists log tried s tr m,
    custom_run (T := no_translation) (M := flaky_memory) demo_records
      (NoTranslation.mkState 0) false log tried s tr m /\ CustomTrace.m_curr_trace_idx s = 1 /\
      tried = [CustomTrace.mkTrace false 4096 0; CustomTrace.mkTrace false 4096 0])
    as (log & tried & s & tr & m & Hr & Hi & Ht).
  { do 5 eexists. split.
    - eapply (custom_run_tick (T := no_translation) (M := flaky_memory));
        [eapply (custom_run_tick (T := no_translation) (M := flaky_memory));
           [apply custom_run_start| |]| |]; reflexivity.
    - split; reflexivity. }
  destruct (custom_trace_in_order (T := no_translation) (M := flaky_memory) demo_records _ _ log tried s tr m ltac:(cbn; lia) Hr)
    as (_ & _ & _ & Heq & Hc).
  exists log, tried, s, tr, m. split; [done|]. split; [done|]. split.
  - rewrite Heq; [by rewrite Hi|]. intros req u b req' u'. cbn. unfold NoTranslation.translate. by intros [= <- _ _].
  - rewrite Hc, Ht. reflexivity.
Defined.

Definition demo_late : list CustomTrace2.Trace :=
  [CustomTrace2.mkTrace 7 false 4096 0; CustomTrace2.mkTrace 9 false 4096 0; CustomTrace2.mkTrace 0 true 8192 1].

Definition late_state : CustomTrace2.State :=
  CustomTrace2.mkState demo_late 2 2 (count_access 4096 (count_access 4096 (count_access 4096 ∅))).

(** The first two records are sent in cycles 0 and 1 although their cycles are 7
    and 9, and the third is never sent: a billion further ticks leave the index
    where it is. *)
Lemma custom_trace2_schedule_witness : exists s',
  ticks (T := no_translation) (M := flaky_memory) (Z.to_nat (10 ^ 9)) late_state (NoTranslation.mkState 0) false =
    Ok (s', NoTranslation.mkState 0, false) /\ CustomTrace2.m_curr_trace_idx s' = 2.
Proof.
  apply (custom_trace2_schedule (T := no_translation) (M := flaky_memory) demo_late
           (NoTranslation.mkState 0) true late_state (NoTranslation.mkState 0) false
           (CustomTrace2.mkTrace 0 true 8192 1)).
  - cbn. lia.
  - repeat constructor; cbn; lia.
  - pose proof (custom2_start (T := no_translation) (M := flaky_memory) demo_late (NoTranslation.mkState 0) true) as H.
    do 3 (eapply (custom2_tick (T := no_translation) (M := flaky_memory)) in H; [|reflexivity]). exact H.
  - reflexivity.
  - cbn. lia.
  - rewrite Z2Nat.id by lia. cbn. lia.
Defined.

Definition constant_latency : DramPerfModel := {|
  perf_state := unit;
  getAccessLatency := fun _ _ _ _ _ perf u => Ok (45 * NS_1, perf, u);
|}.

(** Two cores with a controller each; the second serves an access between two of the
    first. *)
Definition demo_accesses : list (Z * DramCntlr.Access) :=
  [(0, DramCntlr.mkAccess READ (5 * NS_1) 4096 3 [] ShmemPerf.new);
   (1, DramCntlr.mkAccess WRITE (9 * NS_1 + 1) (2 ^ 40) (-1) [] ShmemPerf.new);
   (0, DramCntlr.mkAccess READ (7 * NS_1) 8192 1 [] ShmemPerf.new)].

Definition demo_cntlr (core : Z) : DramCntlr.State (P := constant_latency) :=
  DramCntlr.new (P := constant_latency) 64 false None tt.

Definition demo_system : DramCntlr.System (P := constant_latency) :=
  DramCntlr.new_system (P := constant_latency) [0; 1] demo_cntlr true.

Lemma sniper_trace_roundtrip_witness :
  DramCntlr.fp (P := constant_latency) (from_res demo_system (DramCntlr.accesses demo_accesses demo_system)) =
    Some ["5 R 4096 3"; "9 W 1099511627776 -1"; "7 R 8192 1"] /\
  CustomTrace2.init (Some ["5 R 4096 3"; "9 W 1099511627776 -1"; "7 R 8192 1"]) =
  Ok (CustomTrace2.mkState
        [CustomTrace2.mkTrace 5 false 4096 3; CustomTrace2.mkTrace 9 true (2 ^ 40) (-1);
         CustomTrace2.mkTrace 7 false 8192 1] 0 0 ∅).
Proof.
  split; [reflexivity|].
  refine (sniper_trace_roundtrip (P := constant_latency) demo_accesses [0; 1] demo_cntlr
            (from_res demo_system (DramCntlr.accesses demo_accesses demo_system)) _ _).
  - repeat constructor; cbn; unfold NS_1; lia.
  - reflexivity.
Defined.
