(* ===== verification/WindowFacts.v ===== *)
(** * The instruction window is a bounded queue

    The ring buffer of [InstWindow] refines the list of its instructions in
    program order. *)
From Stdlib Require Import String.
From S2P Require Import Prelude Utils Request SimpleO3 AddrMapper.
Local Open Scope Z_scope.

Module Window.
Import InstWindow.

Record wf (w : t) : Prop := {
  wf_depth : 0 < m_depth w;
  wf_ready : Z.of_nat (length (m_ready_list w)) = m_depth w;
  wf_addr : Z.of_nat (length (m_addr_list w)) = m_depth w;
  wf_load : 0 <= m_load w <= m_depth w;
  wf_tail : 0 <= m_tail_idx w < m_depth w;
  wf_head : m_head_idx w = (m_tail_idx w + m_load w) mod m_depth w;
}.

(** The [k]-th instruction from the tail and the instructions in order. *)
Definition slot (w : t) (k : Z) : nat := Z.to_nat ((m_tail_idx w + k) mod m_depth w).

Definition entry (w : t) (k : Z) : bool * Z :=
  (default false (m_ready_list w !! slot w k), default (-1) (m_addr_list w !! slot w k)).

Definition entries (w : t) : list (bool * Z) := entry w <$> seqZ 0 (m_load w).

(** The abstract queue: what each operation means for the list. *)
Definition mark (addr : Z) (e : bool * Z) : bool * Z := (if e.2 =? addr then true else e.1, e.2).

Fixpoint retirable (n : nat) (l : list (bool * Z)) : nat :=
  match n, l with
  | S n, (true, _) :: l => S (retirable n l)
  | _, _ => O
  end.

Lemma slot_range w k : wf w -> (slot w k < length (m_ready_list w))%nat /\ (slot w k < length (m_addr_list w))%nat.
Proof.
  intros []. unfold slot. pose proof (Z.mod_pos_bound (m_tail_idx w + k) (m_depth w) wf_depth0). lia.
Qed.

Lemma mod_inj d x y : 0 < d -> 0 <= x - y < d -> x mod d = y mod d -> x = y.
Proof.
  intros Hd Hxy E. pose proof (Z.div_mod x d ltac:(lia)). pose proof (Z.div_mod y d ltac:(lia)).
  assert (x - y = d * (x / d - y / d)) by lia. set (q := x / d - y / d) in *.
  assert (q = 0) by nia. lia.
Qed.

Lemma slot_inj w j k : wf w -> 0 <= j < m_depth w -> 0 <= k < m_depth w -> slot w j = slot w k -> j = k.
Proof.
  intros [] Hj Hk E. unfold slot in E.
  pose proof (Z.mod_pos_bound (m_tail_idx w + j) (m_depth w) wf_depth0).
  pose proof (Z.mod_pos_bound (m_tail_idx w + k) (m_depth w) wf_depth0).
  apply Z2Nat.inj in E; [|lia|lia]. destruct (Z.le_ge_cases k j).
  - assert (m_tail_idx w + j = m_tail_idx w + k); [|lia]. apply (mod_inj (m_depth w)); lia.
  - assert (m_tail_idx w + k = m_tail_idx w + j); [|lia]. apply (mod_inj (m_depth w)); [lia|lia|done].
Qed.

Lemma length_entries w : wf w -> Z.of_nat (length (entries w)) = m_load w.
Proof. intros []. unfold entries. rewrite length_fmap, length_seqZ. lia. Qed.

Lemma new_wf ipc depth : 0 < depth -> wf (new ipc depth).
Proof.
  intros Hd. split; cbn; rewrite ?length_replicate; try lia. by rewrite Z.add_0_r, Z.mod_0_l by lia.
Qed.

Lemma new_entries ipc depth : entries (new ipc depth) = [].
Proof. done. Qed.

Lemma insert_spec ready addr w :
  wf w -> is_full w = false ->
  exists w', insert ready addr w = Ok w' /\ wf w' /\ m_ipc w' = m_ipc w /\ m_depth w' = m_depth w /\
    m_load w' = m_load w + 1 /\ entries w' = (entries w ++ [(ready, addr)])%list.
Proof.
  intros Hw Hf. pose proof Hw as []. apply Z.eqb_neq in Hf.
  pose proof (Z.mod_pos_bound (m_tail_idx w + m_load w) (m_depth w) wf_depth0) as Hh.
  unfold insert, vat_set. rewrite !bool_decide_true by lia. unfold vset.
  rewrite !bool_decide_true by lia. cbn [mbind res_bind].
  destruct (Z.eqb_spec (m_depth w) 0); [lia|]. rewrite Z.rem_mod_nonneg by lia.
  eexists. split; [done|].
  set (w' := mk _ _ _ _ _ _ _).
  assert (forall k, slot w' k = slot w k) as Hs by done.
  assert (Z.to_nat (m_head_idx w) = slot w (m_load w)) as Hhead by (unfold slot; by rewrite wf_head0).
  assert (wf w') as Hw'.
  { split; cbn; rewrite ?length_insert; try lia.
    rewrite wf_head0, Z.add_mod_idemp_l by lia. f_equal. lia. }
  repeat split; try done; try apply Hw'.
  unfold entries. change (m_load w') with (m_load w + 1). rewrite seqZ_snoc, fmap_app by lia. f_equal.
  - apply list_fmap_ext. intros i k Hk. apply list_elem_of_lookup_2, elem_of_seqZ in Hk.
    unfold entry. rewrite Hs. cbn [m_ready_list m_addr_list w']. rewrite Hhead.
    assert (slot w (m_load w) <> slot w k) by (intros E; apply slot_inj in E; [lia|done|lia|lia]).
    by rewrite !list_lookup_insert_ne by done.
  - cbn [fmap list_fmap]. rewrite Z.add_0_l. unfold entry. rewrite Hs. cbn [m_ready_list m_addr_list w'].
    rewrite Hhead. pose proof (slot_range w (m_load w) Hw) as [? ?]. by rewrite !list_lookup_insert_eq.
Qed.

(** The window without its first instruction. *)
Definition pop (w : t) : t :=
  mk (m_ipc w) (m_depth w) (m_load w - 1) (m_head_idx w) (Z.rem (m_tail_idx w + 1) (m_depth w))
    (m_ready_list w) (m_addr_list w).

Lemma pop_spec w : wf w -> 0 < m_load w -> wf (pop w) /\ entries w = entry w 0 :: entries (pop w).
Proof.
  intros Hw Hl. pose proof Hw as []. pose proof (Z.mod_pos_bound (m_tail_idx w + 1) (m_depth w) wf_depth0).
  assert (Z.rem (m_tail_idx w + 1) (m_depth w) = (m_tail_idx w + 1) mod m_depth w) as Er
    by (apply Z.rem_mod_nonneg; lia).
  split.
  - split; cbn; try done; [lia|by rewrite Er|]. rewrite Er, wf_head0, Z.add_mod_idemp_l by lia. f_equal. lia.
  - unfold entries. rewrite seqZ_cons by lia. cbn [fmap list_fmap]. f_equal.
    cbn [m_load pop]. change (Z.pred (m_load w)) with (m_load w - 1). change (Z.succ 0) with 1.
    replace (seqZ 1 (m_load w - 1)) with (Z.add 1 <$> seqZ 0 (m_load w - 1)) by (by rewrite fmap_add_seqZ).
    rewrite <- list_fmap_compose. apply list_fmap_ext.
    intros i k _. unfold compose, entry, slot. cbn [m_tail_idx m_depth m_ready_list m_addr_list pop].
    rewrite Er, Z.add_mod_idemp_l by lia. by rewrite Z.add_assoc.
Qed.

Lemma retire_loop_spec n k w :
  wf w -> exists w', retire_loop n k w = Ok (k + Z.of_nat (retirable n (entries w)), w') /\ wf w' /\
    m_ipc w' = m_ipc w /\ m_depth w' = m_depth w /\ entries w' = drop (retirable n (entries w)) (entries w).
Proof.
  revert k w. induction n as [|n IH]; intros k w Hw; cbn [retire_loop retirable].
  { exists w. by rewrite Z.add_0_r. }
  destruct (Z.ltb_spec 0 (m_load w)) as [Hl|Hl].
  - destruct (pop_spec w Hw Hl) as [Hp E]. pose proof Hw as [].
    destruct (slot_range w 0 Hw) as [Hs _]. destruct (lookup_lt_is_Some_2 _ _ Hs) as [r Hr].
    assert (slot w 0 = Z.to_nat (m_tail_idx w)) as H0.
    { unfold slot. by rewrite Z.add_0_r, Z.mod_small by lia. }
    unfold vat, vget. rewrite !bool_decide_true, <- H0, Hr by lia. cbn [mbind res_bind].
    assert (entry w 0 = (r, (entry w 0).2)) as Ee by (unfold entry at 1; by rewrite Hr).
    rewrite E, Ee. destruct r.
    + destruct (Z.eqb_spec (m_depth w) 0); [lia|]. fold (pop w).
      destruct (IH (k + 1) (pop w) Hp) as (w' & -> & Hw' & ? & ? & Ew). exists w'.
      split; [do 2 f_equal; lia|]. cbn [drop]. done.
    + exists w. rewrite Z.add_0_r. cbn [drop]. rewrite E, Ee. done.
  - assert (entries w = []) as -> by (apply length_zero_iff_nil; pose proof (length_entries w Hw); lia).
    exists w. rewrite Z.add_0_r. pose proof (length_entries w Hw). split; [done|]. split; [done|].
    split; [done|]. split; [done|]. apply length_zero_iff_nil. pose proof (wf_load w Hw). lia.
Qed.

Lemma retire_spec w :
  wf w -> exists w', retire w = Ok (Z.of_nat (retirable (Z.to_nat (m_ipc w)) (entries w)), w') /\ wf w' /\
    m_ipc w' = m_ipc w /\ m_depth w' = m_depth w /\
    entries w' = drop (retirable (Z.to_nat (m_ipc w)) (entries w)) (entries w).
Proof.
  intros Hw. unfold retire. destruct (Z.eqb_spec (m_load w) 0) as [E|_].
  - assert (entries w = []) as H0 by (apply length_zero_iff_nil; pose proof (length_entries w Hw); lia).
    exists w. rewrite H0. destruct (Z.to_nat (m_ipc w)); done.
  - by apply (retire_loop_spec (Z.to_nat (m_ipc w)) 0).
Qed.

(** [set_ready_loop] from the [i]-th instruction on. *)
Lemma set_ready_loop_spec addr n i w :
  wf w -> 0 <= i -> i + Z.of_nat n = m_load w ->
  exists w', set_ready_loop n ((m_tail_idx w + i) mod m_depth w) addr w = Ok w' /\ wf w' /\
    m_ipc w' = m_ipc w /\ m_depth w' = m_depth w /\ m_load w' = m_load w /\ m_tail_idx w' = m_tail_idx w /\
    forall k, 0 <= k < m_load w -> entry w' k = if i <=? k then mark addr (entry w k) else entry w k.
Proof.
  revert i w. induction n as [|n IH]; intros i w Hw Hi Hn; cbn [set_ready_loop].
  { exists w. repeat split; try done; try apply Hw. intros k Hk. destruct (Z.leb_spec i k); [lia|done]. }
  pose proof Hw as []. pose proof (Z.mod_pos_bound (m_tail_idx w + i) (m_depth w) wf_depth0) as Hm.
  set (x := (m_tail_idx w + i) mod m_depth w) in *.
  assert (Z.to_nat x = slot w i) as Hx by done.
  rewrite zn_vget by lia. cbn [mbind res_bind].
  assert (exists rl, (if zn (m_addr_list w) x =? addr then vset (m_ready_list w) x true else Ok (m_ready_list w)) = Ok rl /\
    length rl = length (m_ready_list w) /\
    forall j, default false (rl !! j) = if bool_decide (j = slot w i) && (zn (m_addr_list w) x =? addr)
                                        then true else default false (m_ready_list w !! j)) as (rl & -> & Hlrl & Hrl).
  { destruct (zn (m_addr_list w) x =? addr).
    - exists (<[Z.to_nat x := true]> (m_ready_list w)). unfold vset. rewrite bool_decide_true by lia.
      split; [done|]. split; [by rewrite length_insert|]. intros j. case_bool_decide as Hj.
      + subst j. rewrite <- Hx, list_lookup_insert_eq by lia. done.
      + by rewrite list_lookup_insert_ne by congruence.
    - exists (m_ready_list w). repeat split; try done. intros j. by rewrite andb_false_r. }
  cbn [mbind res_bind]. set (w1 := mk _ _ _ _ _ _ _).
  assert (wf w1) as Hw1 by (split; cbn; try done; lia).
  assert ((if x + 1 =? m_depth w1 then 0 else x + 1) = (m_tail_idx w1 + (i + 1)) mod m_depth w1) as ->.
  { change (m_depth w1) with (m_depth w). change (m_tail_idx w1) with (m_tail_idx w).
    rewrite Z.add_assoc, <- Z.add_mod_idemp_l by lia. fold x. destruct (Z.eqb_spec (x + 1) (m_depth w)) as [->|].
    - by rewrite Z.mod_same by lia.
    - rewrite Z.mod_small; lia. }
  destruct (IH (i + 1) w1 Hw1) as (w' & -> & Hw' & ? & ? & Hl' & Ht' & Hent); [lia|cbn; lia|].
  exists w'. repeat split; try done; try apply Hw'. intros k Hk. rewrite Hent by done.
  assert (entry w1 k = if bool_decide (k = i) then mark addr (entry w k) else entry w k) as E1.
  { unfold entry, mark. change (slot w1 k) with (slot w k). cbn [m_ready_list m_addr_list w1 fst snd].
    rewrite Hrl. destruct (decide (k = i)) as [->|Ek].
    - rewrite !bool_decide_true by done. unfold zn. rewrite Hx. cbn [andb].
      destruct (lookup_lt_is_Some_2 _ _ (proj2 (slot_range w i Hw))) as [a Ha]. by rewrite Ha.
    - rewrite !bool_decide_false; [done|done|]. intros Es. apply Ek, (slot_inj w); try done; lia. }
  rewrite E1. case_bool_decide as Ek.
  - subst k. destruct (Z.leb_spec (i + 1) i); [lia|]. destruct (Z.leb_spec i i); [done|lia].
  - destruct (Z.leb_spec (i + 1) k), (Z.leb_spec i k); try done; lia.
Qed.

Lemma set_ready_spec addr w :
  wf w -> exists w', set_ready addr w = Ok w' /\ wf w' /\ m_ipc w' = m_ipc w /\ m_depth w' = m_depth w /\
    m_load w' = m_load w /\ entries w' = mark addr <$> entries w.
Proof.
  intros Hw. unfold set_ready. pose proof (wf_load w Hw). pose proof (wf_tail w Hw).
  destruct (Z.eqb_spec (m_load w) 0) as [E|_].
  - assert (entries w = []) as H0' by (apply length_zero_iff_nil; pose proof (length_entries w Hw); lia).
    exists w. by rewrite H0'.
  - destruct (set_ready_loop_spec addr (Z.to_nat (m_load w)) 0 w Hw) as (w' & Ew & Hw' & ? & ? & Hl & ? & Hent);
      [lia|lia|]. rewrite Z.add_0_r, Z.mod_small in Ew by lia. exists w'. rewrite Ew.
    repeat split; try done; try apply Hw'. unfold entries. rewrite Hl, <- list_fmap_compose.
    apply list_fmap_ext. intros i k Hk. apply list_elem_of_lookup_2, elem_of_seqZ in Hk. rewrite Hent by lia.
    destruct (Z.leb_spec 0 k); [done|lia].
Qed.
End Window.

(** ** Properties *)

(** Property C26.  Refinement: on every well-formed window the ring buffer behaves
    like a queue in program order.  [insert] appends, unless the window is full;
    [retire] removes the longest prefix of ready instructions of at most [m_ipc];
    [set_ready] marks exactly the instructions of the given address.  No
    operation indexes outside its vectors and each keeps the window
    well-formed. *)
Theorem window_refines_queue w :
  Window.wf w ->
  (forall ready addr, InstWindow.is_full w = false -> exists w', InstWindow.insert ready addr w = Ok w' /\
     Window.wf w' /\ Window.entries w' = (Window.entries w ++ [(ready, addr)])%list) /\
  (exists n w', InstWindow.retire w = Ok (Z.of_nat n, w') /\ Window.wf w' /\
     n = Window.retirable (Z.to_nat (InstWindow.m_ipc w)) (Window.entries w) /\
     Window.entries w' = drop n (Window.entries w)) /\
  (forall addr, exists w', InstWindow.set_ready addr w = Ok w' /\ Window.wf w' /\
     Window.entries w' = Window.mark addr <$> Window.entries w) /\
  (InstWindow.is_full w = true <-> Z.of_nat (List.length (Window.entries w)) = InstWindow.m_depth w).
Proof.
  intros Hw. split; [|split; [|split]].
  - intros ready addr Hf. destruct (Window.insert_spec ready addr w Hw Hf) as (w' & ? & ? & _ & _ & _ & ?). eauto.
  - destruct (Window.retire_spec w Hw) as (w' & ? & ? & _ & _ & ?). by eexists _, w'.
  - intros addr. destruct (Window.set_ready_spec addr w Hw) as (w' & ? & ? & _ & _ & _ & ?). eauto.
  - rewrite Window.length_entries by done. apply Z.eqb_eq.
Qed.

(** A window of three slots that has wrapped around. *)
Definition demo_window : InstWindow.t :=
  InstWindow.mk 2 3 3 2 2 [false; true; true] [64; 128; -1].

Lemma demo_window_wf : Window.wf demo_window.
Proof. by split; cbn. Qed.

Lemma window_refines_queue_witness :
  Window.entries demo_window = [(true, -1); (false, 64); (true, 128)] /\
  exists n w', InstWindow.retire demo_window = Ok (Z.of_nat n, w') /\ n = 1%nat /\
    Window.entries w' = [(false, 64); (true, 128)].
Proof.
  split; [reflexivity|].
  destruct (window_refines_queue demo_window demo_window_wf) as (_ & (n & w' & E & _ & Hn & Ee) & _).
  exists n, w'. split; [exact E|]. split; [rewrite Hn; reflexivity|]. rewrite Ee, Hn. reflexivity.
Defined.
