(* ===== verification/FrontendFacts.v ===== *)
(** * The frontend: cores, the main loop and the whole simulation *)
From Stdlib Require Import String.
From S2P Require Import Prelude Utils Request Translation DramSpec Dram Scheduler Controller.
From S2P Require Import MemorySystem SimpleO3 WindowFacts.
Local Open Scope Z_scope.

Import InstWindow.

(** ** Invariant of a core *)
Record core_wf (c : Core) : Prop := {
  cw_window : Window.wf (m_window c);
  cw_ipc : 0 <= m_ipc (m_window c);
  cw_trace : 0 <= m_curr_trace_idx (c_trace c) < Z.of_nat (List.length (m_trace (c_trace c)));
}.

Definition queue (c : Core) : list (bool * Z) := Window.entries (m_window c).
Definition addrs (c : Core) : list Z := (queue c).*2.

(** What the stages after retirement leave alone. *)
Record keeps (c c' : Core) : Prop := {
  k_id : m_id c' = m_id c;
  k_clk : c_clk c' = c_clk c;
  k_ipc : m_ipc (m_window c') = m_ipc (m_window c);
  k_retired : s_insts_retired c' = s_insts_retired c;
  k_reached : reached_expected_num_insts c' = reached_expected_num_insts c;
}.

Lemma keeps_refl c : keeps c c.
Proof. by split. Qed.

Lemma keeps_trans a b c : keeps a b -> keeps b c -> keeps a c.
Proof. intros [] []. split; congruence. Qed.

Lemma retirable_le n l : (Window.retirable n l <= n)%nat.
Proof. revert l. induction n as [|n IH]; intros [|[[] a] l]; cbn; try lia. specialize (IH l). lia. Qed.

Lemma retire_stage_spec c (n := Window.retirable (Z.to_nat (m_ipc (m_window c))) (queue c)) :
  core_wf c -> exists c', retire_stage c = Ok c' /\ core_wf c' /\ queue c' = drop n (queue c) /\
    m_id c' = m_id c /\ c_clk c' = c_clk c + 1 /\ m_ipc (m_window c') = m_ipc (m_window c) /\
    s_insts_retired c' = u64 (s_insts_retired c + Z.of_nat n) /\
    reached_expected_num_insts c' = reached_expected_num_insts c ||
      (m_num_expected_insts c <=? s_insts_retired c').
Proof.
  intros [Hw Hi Ht]. destruct (Window.retire_spec _ Hw) as (w & E & Hw' & Hipc & _ & Ee).
  unfold retire_stage. rewrite E. cbn [mbind res_bind]. eexists. split; [done|]. cbn.
  split; [split; cbn; [done|by rewrite Hipc|done]|]. split; [done|]. do 4 (split; [done|]).
  by destruct (reached_expected_num_insts c).
Qed.

Lemma issue_bubbles_spec bubbles k c :
  core_wf c -> 0 <= k <= m_ipc (m_window c) ->
  exists o c' b, issue_bubbles bubbles k c = Ok (o, c') /\ core_wf c' /\ keeps c c' /\
    queue c' = (queue c ++ replicate b (true, -1))%list /\ k + Z.of_nat b <= m_ipc (m_window c) /\
    (forall x, o = Some x -> x = k + Z.of_nat b).
Proof.
  revert k c. induction bubbles as [|bubbles IH]; intros k c Hc Hk; cbn [issue_bubbles].
  { exists (Some k), c, 0%nat. rewrite app_nil_r. split; [done|]. split; [done|]. split; [apply keeps_refl|].
    split; [done|]. split; [lia|]. intros x [=]. lia. }
  assert (forall c', c' = c -> exists o c2 b, Ok (None : option Z, c') = Ok (o, c2) /\ core_wf c2 /\ keeps c c2 /\
    queue c2 = (queue c ++ replicate b (true, -1))%list /\ k + Z.of_nat b <= m_ipc (m_window c) /\
    (forall x, o = Some x -> x = k + Z.of_nat b)) as Hstop.
  { intros c' ->. exists None, c, 0%nat. rewrite app_nil_r. split; [done|]. split; [done|].
    split; [apply keeps_refl|]. split; [done|]. split; [lia|done]. }
  destruct (Z.eqb_spec k (m_ipc (m_window c))); [by apply Hstop|].
  destruct (is_full (m_window c)) eqn:Ef; [by apply Hstop|].
  pose proof Hc as [Hw Hi Ht].
  destruct (Window.insert_spec true (-1) _ Hw Ef) as (w & -> & Hw' & Hipc & _ & _ & Ee). cbn [mbind res_bind].
  set (c1 := set_bubbles _ _).
  destruct (IH (k + 1) c1) as (o & c' & b & -> & Hc' & Hk' & Eq & Hb & Ho);
    [split; cbn; [done|by rewrite Hipc|done]|cbn; rewrite Hipc; lia|].
  exists o, c', (S b). split; [done|]. split; [done|].
  split; [apply (keeps_trans c c1); [by split|done]|]. split.
  - rewrite Eq. unfold queue at 1. cbn [m_window c1 set_bubbles set_window]. rewrite Ee, <- app_assoc. done.
  - cbn [m_window c1 set_bubbles set_window] in Hb. rewrite Hipc in Hb. split; [lia|]. intros x Hx. apply Ho in Hx. lia.
Qed.

Lemma mark_snd a l : (Window.mark a <$> l).*2 = l.*2.
Proof. induction l as [|[r b] l IH]; [done|]. cbn. by rewrite IH. Qed.

Lemma core_receive_spec req c :
  core_wf c -> exists c', core_receive req c = Ok c' /\ core_wf c' /\ keeps c c' /\
    queue c' = Window.mark (addr req) <$> queue c /\
    m_load_addr c' = m_load_addr c /\ m_writeback_addr c' = m_writeback_addr c /\
    Window.entries (m_window c') = Window.mark (addr req) <$> queue c /\
    InstWindow.is_full (m_window c') = InstWindow.is_full (m_window c).
Proof.
  intros [Hw Hi Ht]. destruct (Window.set_ready_spec (addr req) _ Hw) as (w & E & Hw' & Hipc & Hd & Hl & Ee).
  unfold core_receive. rewrite E. cbn [mbind res_bind].
  assert (is_full w = is_full (m_window c)) as Hf by (unfold is_full; congruence).
  destruct (_ && _); eexists; (split; [done|]); cbn;
    (split; [split; cbn; [done|by rewrite Hipc|done]|]); (split; [by split|]); done.
Qed.

Lemma fetch_spec c :
  core_wf c -> exists c', fetch c = Ok c' /\ core_wf c' /\ keeps c c' /\ queue c' = queue c.
Proof.
  intros [Hw Hi Ht]. unfold fetch, get_next_inst, vget. rewrite bool_decide_true by lia.
  destruct (lookup_lt_is_Some_2 (m_trace (c_trace c)) (Z.to_nat (m_curr_trace_idx (c_trace c)))) as [i ->]; [lia|].
  cbn [mbind res_bind]. eexists. split; [done|]. split; [|by split].
  split; cbn; [done|done|]. apply Z.mod_pos_bound. lia.
Qed.

Section Frontend.
Context `{T : ITranslation} `{M : IMemory}.

Lemma llc_send_spec req c m ok c' m' :
  core_wf c -> llc_send req c m = Ok (ok, c', m') ->
  (exists cb, mem_send req m = Ok (ok, cb, m')) /\ core_wf c' /\ keeps c c' /\ addrs c' = addrs c /\
  m_load_addr c' = m_load_addr c /\ m_writeback_addr c' = m_writeback_addr c /\
  is_full (m_window c') = is_full (m_window c).
Proof.
  intros Hc H. unfold llc_send in H. apply bind_Ok in H as ([[o cb] m1] & Hs & H).
  apply bind_Ok in H as (c1 & Hr & H). injection H as <- <- <-.
  split; [by exists cb|]. destruct cb as [r|].
  - destruct (core_receive_spec r c Hc) as (c2 & E & ? & ? & Eq & ? & ? & _ & ?). rewrite E in Hr. injection Hr as <-.
    repeat split; try done; try apply H; try apply H0. unfold addrs. by rewrite Eq, mark_snd.
  - injection Hr as <-. split; [done|]. split; [apply keeps_refl|done].
Qed.

(** The instructions a stage appends. *)
Definition appends (c c' : Core) (l : list Z) : Prop :=
  core_wf c' /\ keeps c c' /\ addrs c' = (addrs c ++ l)%list.

Lemma appends_nil c c' : core_wf c' -> keeps c c' -> addrs c' = addrs c -> appends c c' [].
Proof. intros. split; [done|]. split; [done|]. by rewrite app_nil_r. Qed.

Lemma appends_trans a b c l1 l2 : appends a b l1 -> appends b c l2 -> appends a c (l1 ++ l2)%list.
Proof.
  intros (_ & K1 & E1) (W & K2 & E2). split; [done|]. split; [by eapply keeps_trans|]. by rewrite E2, E1, app_assoc.
Qed.

Lemma load_stage_spec n c t m go c' t' m' :
  core_wf c -> load_stage n c t m = Ok (go, c', t', m') ->
  exists l, appends c c' l /\
    (l = [] \/ n <> m_ipc (m_window c) /\ exists req0 req cb,
       l = [addr req] /\ tr_translate req0 t = Ok (true, req, t') /\ mem_send req m = Ok (true, cb, m')).
Proof.
  intros Hc H. unfold load_stage in H.
  assert (appends c c []) as H0 by (apply appends_nil; [done|apply keeps_refl|done]).
  destruct (_ =? -1); [injection H as <- <- <- <-; eauto|].
  destruct (Z.eqb_spec n (m_ipc (m_window c))) as [|Hn]; [injection H as <- <- <- <-; eauto|].
  destruct (is_full (m_window c)) eqn:Ef; [injection H as <- <- <- <-; eauto|].
  apply bind_Ok in H as ([[ok req] t1] & Ht & H). destruct ok; [|injection H as <- <- <- <-; eauto].
  cbn [negb] in H. apply bind_Ok in H as ([[sent c1] m1] & Hs & H).
  destruct (llc_send_spec _ _ _ _ _ _ Hc Hs) as ([cb Hm] & Hc1 & K1 & E1 & Hla & Hwb & Hf1).
  destruct sent; [|injection H as <- <- <- <-; exists []; split; [by apply appends_nil|by left]].
  destruct Hc1 as [Hw Hi Htr]. rewrite Ef in Hf1.
  destruct (Window.insert_spec false (addr req) _ Hw Hf1) as (w & Ew & Hw' & Hipc & _ & _ & Ee).
  rewrite Ew in H. cbn [mbind res_bind] in H. injection H as <- <- <- <-.
  exists [addr req]. split; [split; [split; cbn; [done|by rewrite Hipc|done]|]|].
  - split; [apply (keeps_trans c c1); [done|by split]|]. unfold addrs, queue. cbn [m_window clear_load set_window].
    rewrite Ee, fmap_app. cbn. unfold addrs, queue in E1. by rewrite E1.
  - right. split; [done|].
    by exists (Request_addr_type_source_callback (m_load_addr c) ReqType.Read (m_id c) CbFrontEnd), req, cb.
Qed.

Lemma writeback_stage_spec c t m go c' t' m' :
  core_wf c -> writeback_stage c t m = Ok (go, c', t', m') -> appends c c' [].
Proof.
  intros Hc H. unfold writeback_stage in H.
  assert (appends c c []) as H0 by (apply appends_nil; [done|apply keeps_refl|done]).
  destruct (_ =? -1); [injection H as <- <- <- <-; done|].
  apply bind_Ok in H as ([[ok req] t1] & Ht & H). destruct ok; [|injection H as <- <- <- <-; done].
  cbn [negb] in H. apply bind_Ok in H as ([[sent c1] m1] & Hs & H). injection H as <- <- <- <-.
  destruct (llc_send_spec _ _ _ _ _ _ Hc Hs) as (_ & ? & ? & ? & _). by apply appends_nil.
Qed.

(** One cycle of a core: [n] instructions retire in order, [b] bubbles and at
    most one load are appended. *)
Lemma core_tick_spec c t m c' t' m' (n := Window.retirable (Z.to_nat (m_ipc (m_window c))) (queue c)) :
  core_wf c -> core_tick c t m = Ok (c', t', m') ->
  core_wf c' /\ m_id c' = m_id c /\ c_clk c' = c_clk c + 1 /\ m_ipc (m_window c') = m_ipc (m_window c) /\
  s_insts_retired c' = u64 (s_insts_retired c + Z.of_nat n) /\
  exists b loads, addrs c' = (drop n (addrs c) ++ replicate b (-1) ++ loads)%list /\
    (List.length loads <= 1)%nat /\ Z.of_nat (b + List.length loads) <= m_ipc (m_window c).
Proof.
  intros Hc H. unfold core_tick in H. pose proof (cw_ipc c Hc) as Hipc0.
  destruct (retire_stage_spec c Hc) as (c1 & E1 & Hc1 & Eq1 & Hid1 & Hk1 & Hi1 & Hr1 & _).
  fold n in Eq1, Hr1. rewrite E1 in H. cbn [mbind res_bind] in H.
  destruct (issue_bubbles_spec (Z.to_nat (m_num_bubbles c1)) 0 c1 Hc1) as (o & c2 & b & E2 & Hc2 & K2 & Eq2 & Hb & Ho);
    [rewrite Hi1; lia|]. rewrite E2 in H. cbn [mbind res_bind] in H. rewrite Hi1 in Hb.
  assert (forall c3 l, appends c2 c3 l -> (List.length l <= 1)%nat -> Z.of_nat (b + List.length l) <= m_ipc (m_window c) ->
    core_wf c3 /\ m_id c3 = m_id c /\ c_clk c3 = c_clk c + 1 /\ m_ipc (m_window c3) = m_ipc (m_window c) /\
    s_insts_retired c3 = u64 (s_insts_retired c + Z.of_nat n) /\
    exists b loads, addrs c3 = (drop n (addrs c) ++ replicate b (-1) ++ loads)%list /\
      (List.length loads <= 1)%nat /\ Z.of_nat (b + List.length loads) <= m_ipc (m_window c)) as Hfin.
  { intros c3 l (Hc3 & K3 & E3) Hl Hbl. destruct K2, K3. split; [done|]. split; [congruence|]. split; [congruence|].
    split; [congruence|]. split; [congruence|]. exists b, l. split; [|done].
    rewrite E3. unfold addrs. rewrite Eq2, fmap_app, fmap_replicate, Eq1, fmap_drop, <- app_assoc. done. }
  destruct o as [k|].
  2: { injection H as <- <- <-. apply (Hfin c2 []); [by apply appends_nil; [|apply keeps_refl|]|cbn; lia|cbn; lia]. }
  pose proof (Ho k eq_refl) as Hk. apply bind_Ok in H as ([[[go c3] t3] m3] & H3 & H).
  destruct (load_stage_spec _ _ _ _ _ _ _ _ Hc2 H3) as (l & A3 & Hl).
  assert ((List.length l <= 1)%nat /\ Z.of_nat (b + List.length l) <= m_ipc (m_window c)) as [Hl1 Hl2].
  { destruct Hl as [->|(Hne & req0 & req & cb & -> & _)]; cbn; [lia|].
    rewrite (k_ipc _ _ K2), Hi1 in Hne. lia. }
  destruct go; [|injection H as <- <- <-; by apply (Hfin c3 l)]. cbn [negb] in H.
  apply bind_Ok in H as ([[[go c4] t4] m4] & H4 & H).
  apply writeback_stage_spec in H4; [|apply A3].
  pose proof (appends_trans _ _ _ _ _ A3 H4) as A4. rewrite app_nil_r in A4.
  destruct go; [|injection H as <- <- <-; by apply (Hfin c4 l)]. cbn [negb] in H.
  destruct (fetch_spec c4) as (c5 & E5 & Hc5 & K5 & Eq5); [apply A4|]. rewrite E5 in H. injection H as <- <- <-.
  apply (Hfin c5 l); [|done|done]. rewrite <- (app_nil_r l). apply (appends_trans _ c4); [done|].
  apply appends_nil; [done|done|]. unfold addrs. by rewrite Eq5.
Qed.

(** A core fails only when the translation or the memory system does. *)
Lemma core_tick_total c t m :
  (forall req t, is_Ok (tr_translate req t)) -> (forall req m, is_Ok (mem_send req m)) ->
  core_wf c -> is_Ok (core_tick c t m).
Proof.
  intros Htr Hms Hc.
  assert (forall req c m, core_wf c -> is_Ok (llc_send req c m)) as Hllc.
  { intros req c0 m0 Hc0. unfold llc_send. destruct (Hms req m0) as [[[ok cb] m1] ->]. cbn [mbind res_bind].
    destruct cb as [r|]; [|by eexists]. destruct (core_receive_spec r c0 Hc0) as (c1 & -> & _). by eexists. }
  unfold core_tick. destruct (retire_stage_spec c Hc) as (c1 & -> & Hc1 & _ & _ & _ & Hi1 & _). cbn [mbind res_bind].
  pose proof (cw_ipc c Hc). destruct (issue_bubbles_spec (Z.to_nat (m_num_bubbles c1)) 0 c1 Hc1)
    as (o & c2 & b & -> & Hc2 & _); [rewrite Hi1; lia|]. cbn [mbind res_bind].
  destruct o as [k|]; [|by eexists].
  assert (is_Ok (load_stage k c2 t m)) as [[[[go c3] t3] m3] E3].
  { unfold load_stage. repeat (case_match; [by eexists|]).
    destruct (Htr (Request_addr_type_source_callback (m_load_addr c2) ReqType.Read (m_id c2) CbFrontEnd) t)
      as [[[ok req] t1] ->]. cbn [mbind res_bind]. destruct ok; [|by eexists]. cbn [negb].
    destruct (Hllc req c2 m Hc2) as [[[sent c3] m1] E]. rewrite E. cbn [mbind res_bind].
    destruct sent; [|by eexists]. destruct (llc_send_spec _ _ _ _ _ _ Hc2 E) as (_ & Hc3 & _ & _ & _ & _ & Hf).
    destruct (Window.insert_spec false (addr req) (m_window c3) (cw_window _ Hc3)) as (w & -> & _);
      [congruence|by eexists]. }
  destruct (load_stage_spec _ _ _ _ _ _ _ _ Hc2 E3) as (l & [Hc3 _] & _). rewrite E3. cbn [mbind res_bind].
  destruct go; [|by eexists]. cbn [negb].
  assert (is_Ok (writeback_stage c3 t3 m3)) as [[[[go c4] t4] m4] E4].
  { unfold writeback_stage. case_match; [by eexists|].
    destruct (Htr (Request_addr_type_source_callback (m_writeback_addr c3) ReqType.Write (m_id c3) CbFrontEnd) t3)
      as [[[ok req] t1] ->]. cbn [mbind res_bind]. destruct ok; [|by eexists]. cbn [negb].
    destruct (Hllc req c3 m3 Hc3) as [[[sent c4] m1] ->]. by eexists. }
  destruct (writeback_stage_spec _ _ _ _ _ _ _ Hc3 E4) as [Hc4 _]. rewrite E4. cbn [mbind res_bind].
  destruct go; [|by eexists]. cbn [negb]. destruct (fetch_spec c4 Hc4) as (c5 & -> & _). by eexists.
Qed.
End Frontend.

(** ** The main loop *)
Definition count_ticks (f : Z -> bool) (n : Z) : Z := Z.of_nat (List.length (List.filter f (seqZ 0 n))).

Lemma filter_none (f : Z -> bool) l : (forall x, x ∈ l -> f x = false) -> List.filter f l = [].
Proof.
  induction l as [|x l IH]; intros H; [done|]. cbn. rewrite H by apply list_elem_of_here.
  apply IH. intros y Hy. apply H. by apply list_elem_of_further.
Qed.

Lemma count_multiples b n (f : Z -> bool) :
  0 < b -> 0 <= n -> (forall i, f i = (i mod b =? 0)) -> count_ticks f (n * b) = n.
Proof.
  intros Hb Hn Hf. unfold count_ticks. revert n Hn. apply natlike_ind; [done|].
  intros n Hn IH. replace (Z.succ n * b) with (n * b + b) by lia. rewrite seqZ_app, filter_app, length_app by nia.
  assert (List.filter f (seqZ (0 + n * b) b) = [n * b]) as ->.
  { rewrite seqZ_cons by done. cbn [List.filter]. rewrite Hf, Z.add_0_l, Z.mod_mul by lia. cbn [Z.eqb]. f_equal.
    apply filter_none. intros x Hx%elem_of_seqZ. rewrite Hf. apply Z.eqb_neq.
    replace x with ((x - n * b) + n * b) by lia. rewrite Z.mod_add by lia.
    rewrite Z.mod_small; lia. }
  cbn [List.length]. lia.
Qed.

Lemma mod_mod_mult i a b : 0 < a -> 0 < b -> (i mod (a * b)) mod b = i mod b.
Proof.
  intros. rewrite (Z.mul_comm a b), Z.rem_mul_r by lia.
  rewrite Z.mul_comm, Z.mod_add, Z.mod_mod by lia. done.
Qed.

(** The main loop keeps the clock ratio: in every
    [k * frontend_tick * mem_tick] iterations the frontend ticks
    [k * frontend_tick] times and the memory system [k * mem_tick] times. *)
Theorem main_loop_clock_ratio a b k :
  0 < a -> 0 < b -> 0 <= k ->
  count_ticks (front_ticks a b) (k * (a * b)) = k * a /\
  count_ticks (mem_ticks a b) (k * (a * b)) = k * b.
Proof.
  intros Ha Hb Hk. split.
  - replace (k * (a * b)) with (k * a * b) by lia. apply count_multiples; [done|nia|].
    intros i. unfold front_ticks. by rewrite mod_mod_mult.
  - replace (k * (a * b)) with (k * b * a) by lia. apply count_multiples; [done|nia|].
    intros i. unfold mem_ticks. rewrite (Z.mul_comm a b). by rewrite mod_mod_mult.
Qed.

Lemma main_loop_clock_ratio_witness :
  count_ticks (front_ticks 8 3) (5 * (8 * 3)) = 40 /\ count_ticks (mem_ticks 8 3) (5 * (8 * 3)) = 15.
Proof. apply (main_loop_clock_ratio 8 3 5); lia. Defined.

(** ** The whole simulation *)
Section Simulation.
Context `{T : ITranslation} `{M : IMemory}.

(** What the memory system goes through in a simulation is a sequence of sends
    and ticks; everything these preserve holds throughout. *)
Context (P : mem_state -> Prop).
Hypothesis P_send : forall req m ok cb m', P m -> mem_send req m = Ok (ok, cb, m') -> P m'.
Hypothesis P_tick : forall m dns m', P m -> mem_tick m = Ok (dns, m') -> P m'.

Lemma llc_send_frame req c m ok c' m' : P m -> llc_send req c m = Ok (ok, c', m') -> P m'.
Proof.
  intros Hm H. unfold llc_send in H. apply bind_Ok in H as ([[o cb] m1] & Hs & H).
  apply bind_Ok in H as (c1 & _ & H). injection H as _ _ <-. by eapply P_send.
Qed.

Lemma core_tick_frame c t m c' t' m' : P m -> core_tick c t m = Ok (c', t', m') -> P m'.
Proof.
  intros Hm H. unfold core_tick in H. apply bind_Ok in H as (c1 & _ & H).
  apply bind_Ok in H as ([o c2] & _ & H). destruct o as [k|]; [|by injection H as _ _ <-].
  apply bind_Ok in H as ([[[go c3] t3] m3] & H3 & H).
  assert (P m3) as Hm3.
  { unfold load_stage in H3. destruct (_ =? -1); [by injection H3 as _ _ _ <-|].
    destruct (_ =? _); [by injection H3 as _ _ _ <-|].
    destruct (InstWindow.is_full _); [by injection H3 as _ _ _ <-|].
    apply bind_Ok in H3 as ([[ok req] t1] & _ & H3). destruct ok; [|by injection H3 as _ _ _ <-].
    apply bind_Ok in H3 as ([[sent c4] m4] & Hs & H3). apply llc_send_frame in Hs; [|done].
    destruct sent; [|by injection H3 as _ _ _ <-]. apply bind_Ok in H3 as (w & _ & H3). by injection H3 as _ _ _ <-. }
  destruct go; [|by injection H as _ _ <-]. cbn [negb] in H.
  apply bind_Ok in H as ([[[go c4] t4] m4] & H4 & H).
  assert (P m4) as Hm4.
  { unfold writeback_stage in H4. destruct (_ =? -1); [by injection H4 as _ _ _ <-|].
    apply bind_Ok in H4 as ([[ok req] t1] & _ & H4). destruct ok; [|by injection H4 as _ _ _ <-].
    apply bind_Ok in H4 as ([[sent c5] m5] & Hs & H4). apply llc_send_frame in Hs; [|done].
    by injection H4 as _ _ _ <-. }
  destruct go; [|by injection H as _ _ <-]. cbn [negb] in H.
  apply bind_Ok in H as (c5 & _ & H). by injection H as _ _ <-.
Qed.

Record sim_ok (s : Sim) : Prop := {
  so_mem : P (memory s);
  so_cores : Forall core_wf (m_cores (front s));
  so_ids : forall i c, m_cores (front s) !! i = Some c -> m_id c = Z.of_nat i;
}.

Lemma tick_cores_ok cs t m cs' t' m' :
  P m -> Forall core_wf cs -> tick_cores cs t m = Ok (cs', t', m') ->
  P m' /\ Forall core_wf cs' /\ m_id <$> cs' = m_id <$> cs.
Proof.
  revert t m cs' t' m'. induction cs as [|c cs IH]; cbn [tick_cores]; intros t m cs' t' m' Hm Hcs H.
  { by injection H as <- _ <-. }
  apply List.Forall_cons_iff in Hcs as [Hc Hcs].
  apply bind_Ok in H as ([[c1 t1] m1] & H1 & H). apply bind_Ok in H as ([[cs1 t2] m2] & H2 & H).
  injection H as <- _ <-. pose proof (core_tick_frame _ _ _ _ _ _ Hm H1) as Hm1.
  apply core_tick_spec in H1 as (Hc1 & Hid & _); [|done].
  destruct (IH _ _ _ _ _ Hm1 Hcs H2) as (? & ? & Hids). split; [done|]. split; [by constructor|]. cbn. by rewrite Hid, Hids.
Qed.

Lemma ids_of (cs cs' : list Core) : m_id <$> cs' = m_id <$> cs ->
  (forall i c, cs !! i = Some c -> m_id c = Z.of_nat i) -> (forall i c, cs' !! i = Some c -> m_id c = Z.of_nat i).
Proof.
  intros E H i c Hc. pose proof (f_equal (fun l => l !! i) E) as Ei. cbn in Ei.
  rewrite !list_lookup_fmap, Hc in Ei. destruct (cs !! i) as [d|] eqn:Ed; [|done].
  injection Ei as ->. by apply H.
Qed.

Lemma front_cycle_ok s s' : sim_ok s -> front_cycle s = Ok s' -> sim_ok s'.
Proof.
  intros [Hm Hc Hi] H. unfold front_cycle, front_tick in H. apply bind_Ok in H as ([[f t] m] & H1 & H).
  injection H as <-. apply bind_Ok in H1 as ([[cs t1] m1] & H1 & H2). injection H2 as <- <- <-.
  destruct (tick_cores_ok _ _ _ _ _ _ Hm Hc H1) as (? & ? & Hids). split; cbn; [done|done|by eapply ids_of].
Qed.

Lemma receive_all_ok reqs f f' :
  Forall core_wf (m_cores f) -> receive_all reqs f = Ok f' ->
  Forall core_wf (m_cores f') /\ m_id <$> m_cores f' = m_id <$> m_cores f.
Proof.
  revert f. induction reqs as [|r reqs IH]; cbn [receive_all]; intros f Hf H; [by injection H as <-|].
  apply bind_Ok in H as (f1 & H1 & H). case_decide; [injection H1 as <-; by apply IH|].
  unfold front_receive in H1. apply bind_Ok in H1 as (c & [Hs Hc]%vget_Ok & H1).
  apply bind_Ok in H1 as (c1 & Hr & H1). apply bind_Ok in H1 as (cs & [_ ->]%vset_Ok & H1). injection H1 as <-.
  pose proof (Forall_lookup_1 _ _ _ _ Hf Hc) as Hcw.
  destruct (core_receive_spec r c Hcw) as (c2 & E & Hc2 & K & _). rewrite Hr in E. injection E as <-.
  apply IH in H as [? Hids]; [|cbn; by apply Forall_insert]. split; [done|]. rewrite Hids. cbn.
  rewrite list_fmap_insert. apply (list_insert_id (m_id <$> m_cores f)).
  rewrite list_lookup_fmap, Hc. cbn. by rewrite (k_id _ _ K).
Qed.

Lemma mem_cycle_ok s s' : sim_ok s -> mem_cycle s = Ok s' -> sim_ok s'.
Proof.
  intros [Hm Hc Hi] H. unfold mem_cycle in H. apply bind_Ok in H as ([dns m] & Ht & H).
  apply bind_Ok in H as (f & Hr & H). injection H as <-.
  destruct (receive_all_ok _ _ _ Hc Hr) as [? Hids]. split; cbn; [by eapply P_tick|done|by eapply ids_of].
Qed.

Lemma simulate_ok fuel a b i s s' : sim_ok s -> simulate fuel a b i s = Ok s' -> sim_ok s'.
Proof.
  revert i s. induction fuel as [|fuel IH]; cbn [simulate]; intros i s Hs H; [done|].
  apply bind_Ok in H as ([fin s1] & H1 & H).
  assert (sim_ok s1) as Hs1.
  { unfold iteration in H1. destruct (_ =? 0); [done|]. apply bind_Ok in H1 as (s2 & H2 & H1).
    assert (sim_ok s2) by (destruct (front_ticks a b i); [by eapply front_cycle_ok|by injection H2 as <-]).
    destruct (is_finished (front s2)); [by injection H1 as _ <-|]. apply bind_Ok in H1 as (s3 & H3 & H1).
    injection H1 as _ <-. destruct (mem_ticks a b i); [by eapply mem_cycle_ok|by injection H3 as <-]. }
  destruct fin; [by injection H as <-|by eapply IH].
Qed.
End Simulation.
