(* ===== verification/SimulationFacts.v ===== *)
(** * The whole simulation

    The cores, the translation and the memory system in the main loop of
    [main.cpp]. *)
From Stdlib Require Import String.
From S2P Require Import HBM StandardsFacts.
From S2P Require Import Prelude CxxFloat Utils Request Translation DramSpec DramTiming Device DeviceFacts DDR4 DDR4Facts.
From S2P Require Import Dram Scheduler Controller ControllerFacts AddrMapper MemorySystem.
From S2P Require Import MemorySystemFacts SimpleO3 WindowFacts FrontendFacts.
Local Open Scope string_scope.
Local Open Scope Z_scope.

(** ** The states of a simulation *)
Section Reach.
Context `{T : ITranslation} `{M : IMemory}.

(** [sim_reach a b s0 i s]: [i] iterations of the main loop lead from [s0] to [s]. *)
Inductive sim_reach (a b : Z) (s0 : Sim) : Z -> Sim -> Prop :=
| sim_start : sim_reach a b s0 0 s0
| sim_next i s fin s' :
    sim_reach a b s0 i s -> iteration a b i s = Ok (fin, s') -> sim_reach a b s0 (i + 1) s'.

Lemma iteration_ok (P : mem_state -> Prop) :
  (forall req m ok cb m', P m -> mem_send req m = Ok (ok, cb, m') -> P m') ->
  (forall m dns m', P m -> mem_tick m = Ok (dns, m') -> P m') ->
  forall a b i s fin s', sim_ok P s -> iteration a b i s = Ok (fin, s') -> sim_ok P s'.
Proof.
  intros Ps Pt a b i s fin s' Hs H. unfold iteration in H. destruct (_ =? 0); [done|].
  apply bind_Ok in H as (s2 & H2 & H).
  assert (sim_ok P s2) by (destruct (front_ticks a b i); [by eapply front_cycle_ok|by injection H2 as <-]).
  destruct (is_finished (front s2)); [by injection H as _ <-|]. apply bind_Ok in H as (s3 & H3 & H).
  injection H as _ <-. destruct (mem_ticks a b i); [by eapply mem_cycle_ok|by injection H3 as <-].
Qed.

Lemma sim_reach_ok (P : mem_state -> Prop) a b s0 i s :
  (forall req m ok cb m', P m -> mem_send req m = Ok (ok, cb, m') -> P m') ->
  (forall m dns m', P m -> mem_tick m = Ok (dns, m') -> P m') ->
  sim_ok P s0 -> sim_reach a b s0 i s -> sim_ok P s.
Proof. intros Ps Pt H0. induction 1; [done|]. by eapply iteration_ok. Qed.

Lemma simulate_reach fuel a b s0 i s s' :
  sim_reach a b s0 i s -> simulate fuel a b i s = Ok s' ->
  exists j, sim_reach a b s0 j s' /\ is_finished (front s') = true.
Proof.
  revert i s. induction fuel as [|fuel IH]; cbn [simulate]; intros i s Hr H; [done|].
  apply bind_Ok in H as ([fin s1] & H1 & H). pose proof (sim_next _ _ _ _ _ _ _ Hr H1) as Hr1.
  destruct fin; [|by apply (IH (i + 1) s1)]. injection H as <-. exists (i + 1). split; [done|].
  unfold iteration in H1. destruct (_ =? 0); [done|]. apply bind_Ok in H1 as (s2 & _ & H1).
  destruct (is_finished (front s2)) eqn:E; [by injection H1 as <-|]. by apply bind_Ok in H1 as (s3 & _ & H1).
Qed.
End Reach.

(** ** Start-up *)
Lemma new_core_spec id ipc depth n trace c :
  0 < depth -> 0 <= ipc -> new_core id ipc depth n trace = Ok c -> core_wf c /\ m_id c = id.
Proof.
  intros Hd Hi H. unfold new_core, fetch in H. apply bind_Ok in H as ([inst tr] & Hg & H). injection H as <-.
  split; [|done]. unfold get_next_inst in Hg. cbn in Hg. apply bind_Ok in Hg as (x & [_ Hx]%vget_Ok & Hg).
  injection Hg as <- <-. apply lookup_lt_Some in Hx.
  split; cbn; [by apply Window.new_wf|done|]. apply Z.mod_pos_bound. lia.
Qed.

Lemma new_cores_spec ipc depth n traces :
  0 < depth -> 0 <= ipc -> forall id cs, new_cores id ipc depth n traces = Ok cs ->
  Forall core_wf cs /\ (forall i c, cs !! i = Some c -> m_id c = id + Z.of_nat i).
Proof.
  intros Hd Hi. induction traces as [|f traces IH]; cbn [new_cores]; intros id cs H.
  { injection H as <-. split; [constructor|done]. }
  apply bind_Ok in H as (tr & _ & H). apply bind_Ok in H as (c & Hc & H). apply bind_Ok in H as (cs1 & Hcs & H).
  injection H as <-. apply new_core_spec in Hc as [? Hid]; [|done|done]. apply IH in Hcs as [? Hids].
  split; [by constructor|]. intros [|i] x Hx; cbn in Hx; [injection Hx as <-; lia|].
  apply Hids in Hx. lia.
Qed.

Lemma front_init_ok `{T : ITranslation} `{M : IMemory} (P : mem_state -> Prop) ipc depth n traces f t m :
  0 < depth -> 0 <= ipc -> front_init ipc depth n traces = Ok f -> P m -> sim_ok P (mkSim f t m).
Proof.
  intros Hd Hi H Hm. unfold front_init in H. apply bind_Ok in H as (cs & Hcs & H). injection H as <-.
  destruct (new_cores_spec _ _ _ _ Hd Hi _ _ Hcs) as [? Hids]. by split.
Qed.

(** ** Properties *)

(** Property C25.  A cycle of a core never fails on its own account: if the
    translation and the memory system return, the cycle does, and it retires
    exactly the ready instructions at the head of the window, in program order
    and at most [ipc] of them, counts them, and appends at most [ipc]
    instructions: non-memory ones first and then at most one load. *)
Theorem core_tick_in_order `{T : ITranslation} `{M : IMemory} c t m
    (n := Window.retirable (Z.to_nat (InstWindow.m_ipc (m_window c))) (queue c)) :
  (forall req t, is_Ok (tr_translate req t)) -> (forall req m, is_Ok (mem_send req m)) -> core_wf c ->
  exists c' t' m', core_tick c t m = Ok (c', t', m') /\ core_wf c' /\ m_id c' = m_id c /\
    c_clk c' = c_clk c + 1 /\ Z.of_nat n <= InstWindow.m_ipc (m_window c) /\
    s_insts_retired c' = u64 (s_insts_retired c + Z.of_nat n) /\
    exists b loads, addrs c' = (drop n (addrs c) ++ replicate b (-1) ++ loads)%list /\
      (List.length loads <= 1)%nat /\ Z.of_nat (b + List.length loads) <= InstWindow.m_ipc (m_window c).
Proof.
  intros Ht Hm Hc. destruct (core_tick_total c t m Ht Hm Hc) as [[[c' t'] m'] E]. exists c', t', m'.
  destruct (core_tick_spec _ _ _ _ _ _ Hc E) as (? & ? & ? & _ & ? & ?). split; [done|].
  do 3 (split; [done|]). split; [|done].
  pose proof (retirable_le (Z.to_nat (InstWindow.m_ipc (m_window c))) (queue c)).
  pose proof (cw_ipc c Hc). unfold n. lia.
Qed.

Definition demo_core : Core :=
  from_res (mkCore 0 0 (mkTrace [] 0) (InstWindow.new 1 1) 0 0 0 0 0 false 0 0 0)
    (new_core 0 4 8 100 [mkInst 2 4096 (-1); mkInst 9 8192 64]).

Lemma demo_core_wf : core_wf demo_core.
Proof.
  apply (new_core_spec 0 4 8 100 [mkInst 2 4096 (-1); mkInst 9 8192 64]); [lia|lia|].
  apply from_res_Ok. vm_compute. reflexivity.
Qed.

Lemma core_tick_in_order_witness :
  exists c' t' m', core_tick (T := no_translation) (M := dummy_memory) demo_core (NoTranslation.mkState 0) tt = Ok (c', t', m') /\
    addrs c' = [-1; -1; 4096].
Proof.
  destruct (core_tick_in_order (T := no_translation) (M := dummy_memory) demo_core (NoTranslation.mkState 0) tt)
    as (c' & t' & m' & E & _).
  - intros req t. eexists. reflexivity.
  - intros req m. eexists. reflexivity.
  - apply demo_core_wf.
  - exists c', t', m'. split; [exact E|]. vm_compute in E. injection E as <- <- <-. vm_compute. reflexivity.
Defined.

(** Property C1.  End to end, from the traces to the device, for DDR3, DDR4, DDR5
    and their victim-row-refresh variants, HBM, HBM2, HBM3 and GDDR6 with any
    parameters: in every state of every simulation, with any translation,
    stateless address mapper, scheduler, row policy and plugins, the device has
    only received commands it reported ready, and its history respects every
    constraint of the standard's timing table (every level, window and sibling
    rule) on every node that the command addresses; for HBM2 and HBM3, whose
    table has constraints below the scope of the commands they delay, the
    constraints at or above that scope.  The clocks agree, requests are in the
    controller of their channel, and the cores satisfy their invariant and keep
    their numbers. *)
Theorem simulation_timing_safe `{T : ITranslation} r brc tras prac fv fr σ po pt d s0
    `{Sch : !IScheduler (D := std_dram σ d)} `{Mp : !IAddrMapper} p rp s1 ipc depth num traces f t a b i
    (s : Sim (M := generic_memory (D := std_dram σ d) p)) :
  σ ∈ simulated r brc tras prac fv fr ->
  Dev.init σ po pt = Ok (d, s0) -> MemorySystem.init (D := std_dram σ d) p rp s0 = Ok s1 ->
  0 < depth -> 0 <= ipc -> front_init ipc depth num traces = Ok f ->
  sim_reach (M := generic_memory (D := std_dram σ d) p) a b
    (mkSim (M := generic_memory (D := std_dram σ d) p) f t s1) i s ->
  (exists H, DeviceFacts.reach σ true d s0 (m_dram (memory s)) H /\ table_respected σ d s0 H /\
     (σ <> HBM2.std -> σ <> HBM3.std -> full_table_respected σ d s0 H)) /\
  Dev.m_clk (m_dram (memory s)) = ms_clk (memory s) /\
  (forall j c, m_controllers (memory s) !! j = Some c ->
     m_clk c = ms_clk (memory s) /\ forall r, r ∈ live c -> at_channel (Z.of_nat j) r) /\
  (forall j c, m_cores (front s) !! j = Some c -> core_wf c /\ m_id c = Z.of_nat j).
Proof.
  intros Hσ Hd Hi Hdp Hipc Hf Hr.
  eapply (sim_reach_ok (M := generic_memory (D := std_dram σ d) p) (sys_ok σ d s0)) in Hr
    as [[[H Hrun] Hdev Hclk Hrt] Hc Hid].
  - split; [exists H; split; [done|]; by eapply simulated_enforces|]. split; [done|]. split.
    + intros j c Hj. split; [apply (Forall_lookup_1 _ _ _ _ Hclk Hj)|by apply Hrt].
    + intros j c Hj. split; [apply (Forall_lookup_1 _ _ _ _ Hc Hj)|by apply Hid].
  - intros req m ok cb m' Hm Hs. cbn in Hs. apply bind_Ok in Hs as ([o m2] & Hs & E). injection E as _ _ <-.
    eapply sys_send_ok; [exact Hm|exact Hs].
  - intros m dns m2 Hm Ht. eapply sys_tick_ok; [exact Hm|exact Ht].
  - eapply front_init_ok; [done|done|exact Hf|]. eapply init_sys_ok; [by eapply init_clk|exact Hi].
Qed.

(** Two cores with a two-line trace each on the example device, until both have
    retired twenty instructions. *)
Definition demo_memory : IMemory :=
  generic_memory (D := DDR4_dram demo_d) (S := FRFCFS_scheduler (D := DDR4_dram demo_d))
    (M := ChRaBaRoCo_mapper demo_map) demo_params.

Definition demo_traces : list (option (list string)) :=
  [Some ["3 4096"; "2 8192 64"]; Some ["1 1048576"; "6 128"]].

Definition demo_front : Front := from_res (mkFront 0 0 []) (front_init 4 8 20 demo_traces).

Definition demo_start : Sim (T := no_translation) (M := demo_memory) :=
  mkSim (T := no_translation) (M := demo_memory) demo_front (NoTranslation.mkState 0) demo_sys.

Definition demo_result : res Sim := simulate (T := no_translation) (M := demo_memory) 1000 2 1 0 demo_start.

Lemma demo_result_reach s :
  demo_result = Ok s -> exists j, sim_reach (T := no_translation) (M := demo_memory) 2 1 demo_start j s.
Proof.
  unfold demo_result. intros E.
  destruct (simulate_reach (T := no_translation) (M := demo_memory) 1000 2 1 demo_start 0 demo_start s
    (sim_start (T := no_translation) (M := demo_memory) 2 1 demo_start) E) as (j & Hr & _). by exists j.
Qed.

Lemma simulation_timing_safe_witness :
  exists s, demo_result = Ok s /\ DDR4.m_clk (m_dram (memory s)) = 285 /\
    exists H, DeviceFacts.reach DDR4.std true demo_d demo_s (m_dram (memory s)) H /\
      full_table_respected DDR4.std demo_d demo_s H.
Proof.
  assert (match demo_result with Ok s => (ms_clk (memory s) : Z) | Err _ => -1 end = 285) as Hclk
    by (vm_compute; reflexivity).
  destruct demo_result as [s|e] eqn:E; [|discriminate Hclk]. exists s. split; [reflexivity|].
  destruct (demo_result_reach s E) as (j & Hr).
  destruct (simulation_timing_safe (T := no_translation) 2 2 (-1) false (F32.of_Z 1) (F32.of_Z 1) DDR4.std demo_org demo_timing demo_d demo_s
    (Sch := FRFCFS_scheduler (D := DDR4_dram demo_d)) (Mp := ChRaBaRoCo_mapper demo_map) demo_params OpenRowPolicy
    demo_sys 4 8 20 demo_traces demo_front (NoTranslation.mkState 0) 2 1 j s
    (ddr4_simulated _ _ _ _ _ _) demo_init) as ((H & HH & _ & Hfull) & Hdev & _).
  - apply from_res_Ok. vm_compute. reflexivity.
  - lia.
  - lia.
  - apply from_res_Ok. vm_compute. reflexivity.
  - exact Hr.
  - split; [exact (eq_trans Hdev Hclk)|]. exists H. split; [exact HH|]. apply Hfull; apply ddr4_not_hbm.
Defined.

(** ** A full window stalls its core *)

(** The core has a further instruction to insert, its window is full and the
    oldest instruction waits for memory. *)
Record blocked (c : Core) : Prop := {
  bl_wf : core_wf c;
  bl_more : 0 < m_num_bubbles c \/ m_load_addr c <> -1;
  bl_full : InstWindow.is_full (m_window c) = true;
  bl_oldest : exists a l, queue c = (false, a) :: l;
}.

Lemma retire_blocked w a l :
  Window.wf w -> Window.entries w = (false, a) :: l -> InstWindow.retire w = Ok (0, w).
Proof.
  intros Hw E. unfold InstWindow.retire. pose proof (Window.length_entries w Hw) as Hl. rewrite E in Hl. cbn in Hl.
  destruct (Z.eqb_spec (InstWindow.m_load w) 0); [lia|].
  destruct (Z.to_nat (InstWindow.m_ipc w)) as [|n']; [done|]. cbn [InstWindow.retire_loop].
  destruct (Z.ltb_spec 0 (InstWindow.m_load w)) as [Hp|]; [|lia].
  destruct (Window.pop_spec w Hw Hp) as [_ Ep]. rewrite E in Ep. apply (f_equal head) in Ep. cbn [head] in Ep. assert (Window.entry w 0 = (false, a)) as Ee by congruence.
  pose proof Hw as []. destruct (Window.slot_range w 0 Hw) as [Hs _].
  destruct (lookup_lt_is_Some_2 _ _ Hs) as [r Hr].
  assert (Window.slot w 0 = Z.to_nat (InstWindow.m_tail_idx w)) as H0
    by (unfold Window.slot; by rewrite Z.add_0_r, Z.mod_small by lia).
  unfold vat, vget. rewrite !bool_decide_true, <- H0, Hr by lia. cbn [mbind res_bind].
  apply (f_equal fst) in Ee. unfold Window.entry in Ee. rewrite Hr in Ee. cbn in Ee. by subst r.
Qed.

Lemma blocked_tick `{T : ITranslation} `{M : IMemory} c t m :
  blocked c -> 0 <= s_insts_retired c < m_num_expected_insts c -> m_num_expected_insts c < 2 ^ 64 ->
  reached_expected_num_insts c = false ->
  exists c', core_tick c t m = Ok (c', t, m) /\ blocked c' /\ s_insts_retired c' = s_insts_retired c /\
    m_num_expected_insts c' = m_num_expected_insts c /\ reached_expected_num_insts c' = false.
Proof.
  intros [Hc Hmore Hfull (a & l & Hq)] Hr Hn Hreach. unfold core_tick, retire_stage.
  rewrite (retire_blocked _ _ _ (cw_window c Hc) Hq). cbn [mbind res_bind].
  rewrite Z.add_0_r, Hreach. assert (u64 (s_insts_retired c) = s_insts_retired c) as ->
    by (unfold u64; apply Z.mod_small; lia).
  destruct (Z.leb_spec (m_num_expected_insts c) (s_insts_retired c)); [lia|]. cbn [negb andb orb].
  set (c1 := mkCore _ _ _ _ _ _ _ _ _ _ _ _ _). exists c1.
  assert (core_wf c1) as Hc1 by (destruct Hc; by split).
  assert (blocked c1) as Hb1 by (split; [done|done|done|by exists a, l]).
  split; [|done]. destruct (Z.to_nat (m_num_bubbles c1)) as [|k] eqn:Ek; cbn [issue_bubbles].
  - cbn [mbind res_bind]. unfold load_stage. destruct Hmore as [|Hload]; [cbn in Ek; lia|].
    destruct (Z.eqb_spec (m_load_addr c1) (-1)); [done|]. destruct (_ =? _); [done|].
    change (InstWindow.is_full (m_window c1)) with (InstWindow.is_full (m_window c)). by rewrite Hfull.
  - destruct (_ =? _); [done|].
    change (InstWindow.is_full (m_window c1)) with (InstWindow.is_full (m_window c)). by rewrite Hfull.
Qed.

(** A simulation of one blocked core whose memory system completes nothing. *)
Lemma blocked_forever `{T : ITranslation} fuel c t a b i clk clk' :
  0 < a -> 0 < b -> blocked c -> 0 <= s_insts_retired c < m_num_expected_insts c ->
  m_num_expected_insts c < 2 ^ 64 -> reached_expected_num_insts c = false ->
  simulate (M := dummy_memory) fuel a b i (mkSim (M := dummy_memory) (mkFront clk clk' [c]) t tt) = Err OutOfFuel.
Proof.
  intros Ha Hb. revert c i clk clk'. induction fuel as [|fuel IH]; intros c i clk clk' Hc Hr Hn Hf; [done|].
  cbn [simulate]. unfold iteration. destruct (Z.eqb_spec (a * b) 0); [nia|].
  destruct (front_ticks a b i).
  - unfold front_cycle, front_tick. cbn [front m_cores trans memory tick_cores].
    destruct (blocked_tick (M := dummy_memory) c t tt Hc Hr Hn Hf) as (c' & -> & Hb' & Hr' & He' & Hf').
    cbn [mbind res_bind is_finished forallb m_cores front]. rewrite Hf'. cbn [andb].
    destruct (mem_ticks a b i); cbn; (apply IH; [done|lia|lia|done]).
  - cbn [mbind res_bind is_finished forallb m_cores front]. rewrite Hf. cbn [andb].
    destruct (mem_ticks a b i); cbn; (apply IH; [done|lia|lia|done]).
Qed.

(** A core of width 4 and depth 2 with three loads of different lines. *)
Definition dead_core : Core :=
  from_res (mkCore 0 0 (mkTrace [] 0) (InstWindow.new 1 1) 0 0 0 0 0 false 0 0 0)
    (new_core 0 4 2 100 [mkInst 0 64 (-1); mkInst 0 128 (-1); mkInst 0 192 (-1)]).

Definition dead_start : Sim (T := no_translation) (M := dummy_memory) :=
  mkSim (T := no_translation) (M := dummy_memory) (mkFront 0 0 [dead_core]) (NoTranslation.mkState 0) tt.

(** The core after two iterations. *)
Definition dead_later : Core :=
  mkCore 0 2 (mkTrace [mkInst 0 64 (-1); mkInst 0 128 (-1); mkInst 0 192 (-1)] 0)
    (InstWindow.mk 4 2 2 0 0 [false; false] [64; 128]) 0 192 (-1) 100 0 false 0 0 0.

Lemma dead_later_blocked : blocked dead_later.
Proof.
  split; [|by right|done|by eexists _, _].
  split; [|cbn; lia|cbn; lia]. split; cbn; try lia; done.
Qed.

(** With the memory system that calls back at once, the callback
    of a load runs before the load is inserted into the window, so that the load
    is never marked ready: three loads of different lines in a window of two
    block the core for good, and no number of iterations finishes the
    simulation. *)
Theorem dummy_memory_deadlock fuel :
  simulate (T := no_translation) (M := dummy_memory) fuel 1 1 0 dead_start = Err OutOfFuel.
Proof.
  do 2 (destruct fuel as [|fuel]; [reflexivity|]).
  change (simulate (T := no_translation) (M := dummy_memory) fuel 1 1 2
    (mkSim (T := no_translation) (M := dummy_memory) (mkFront 2 2 [dead_later]) (NoTranslation.mkState 0) tt)
    = Err OutOfFuel).
  apply blocked_forever; [done|done|apply dead_later_blocked|cbn; lia|cbn; lia|done].
Qed.
