(* ===== verification/RowHammer.v ===== *)
(** * Controller plugins: row-hammer defences and observers

    [dram_controller/impl/plugin]: [para.cpp], [oracle_rh.cpp], [twice.cpp],
    [rfm_manager.cpp], [cmd_counter.cpp] and [trace_recorder.cpp], each with its
    [setup] and [update].  [graphene.cpp] has its own file. *)
From Stdlib Require Import String.
From S2P Require Import Prelude CxxFloat DramSpec Request Dram Plugin Rit.
Local Open Scope string_scope.
Local Open Scope Z_scope.

(** ** What the plugins read of the device *)
Section Device.
Context `{D : IDRAM}.

Record Geometry : Type := mkGeometry {
  g_rank_level : Z;
  g_bank_level : Z;
  g_row_level : Z;
  g_num_ranks : Z;
  g_num_banks_per_rank : Z;
  g_num_rows_per_bank : Z;
}.

Definition geometry : res Geometry :=
  rank ← def_of_name dram_levels "rank";
  bank ← def_of_name dram_levels "bank";
  row ← def_of_name dram_levels "row";
  nr ← get_level_size "rank";
  nbg ← get_level_size "bankgroup";
  nb ← get_level_size "bank";
  nrow ← get_level_size "row";
  Ok (mkGeometry rank bank row nr (if nbg =? -1 then nb else nbg * nb) nrow).

(** The command opens a row. *)
Definition is_row_open (row_level : Z) (r : Request) : res bool :=
  meta ← lut_get dram_command_meta (command r);
  if is_opening meta then
    scope ← lut_get dram_command_scopes (command r); Ok (scope =? row_level)
  else Ok false.

(** The command refreshes a rank. *)
Definition is_rank_refresh (g : Geometry) (r : Request) : res bool :=
  meta ← lut_get dram_command_meta (command r);
  if is_refreshing meta then
    scope ← lut_get dram_command_scopes (command r); Ok (scope =? g_rank_level g)
  else Ok false.

(** The bank of a request, counted over ranks, bank groups and banks. *)
Definition flat_bank (g : Geometry) (r : Request) : res Z :=
  flat_bank_id dram_count (g_rank_level g) (g_bank_level g) (addr_vec r).

Definition vrr_setup : res Z :=
  if bool_decide ("VRR" ∈ dram_commands) then def_of_name dram_requests "victim-row-refresh"
  else Err (Exc "not compatible with the DRAM implementation that does not have Victim-Row-Refresh").
End Device.

(** An update that sends at most one request and ignores the result. *)
Definition send_if {S} (x : res (option Request * S)) : Act S :=
  match x with
  | Err e => Done (Err e)
  | Ok (None, s) => Done (Ok s)
  | Ok (Some req, s) => PrioritySend req (fun _ => Done (Ok s))
  end.

Lemma Sends_send_if {S} (P : Request -> Prop) (x : res (option Request * S)) :
  (forall req s, x = Ok (Some req, s) -> P req) -> Sends P (send_if x).
Proof. intros H. destruct x as [[[req|] s]|e]; cbn; [|done..]. split; [by eapply H|done]. Qed.

(** The request that refreshes the neighbours of the row just opened. *)
Definition vrr_request (id : Z) (r : Request) : Request := Request_vec_type (addr_vec r) id.

Lemma vrr_same_channel id r : same_channel (Some r) (vrr_request id r).
Proof. by exists r. Qed.

(** ** [PARA] *)
Module PARA.
Section PARA.
Context `{D : IDRAM}.

(** [m_distribution(m_generator)]: a float of [0, 1) and the next generator. *)
Context (gen : Type) (draw : gen -> spec_float * gen).

Record Config : Type := mkConfig {
  m_pr_threshold : spec_float; m_VRR_req_id : Z; m_bank_level : Z; m_row_level : Z;
}.

Definition setup (threshold : spec_float) : res Config :=
  if SFleb threshold (F32.of_Z 0) || SFleb (F32.of_Z 1) threshold
  then Err (Exc "Invalid probability threshold for PARA!")
  else
    id ← vrr_setup;
    bank ← def_of_name dram_levels "bank";
    row ← def_of_name dram_levels "row";
    Ok (mkConfig threshold id bank row).

Definition step (p : Config) (found : option Request) (s : gen) : res (option Request * gen) :=
  match found with
  | None => Ok (None, s)
  | Some r =>
      act ← is_row_open (m_row_level p) r;
      if act : bool then
        let '(x, s) := draw s in
        if flt x (m_pr_threshold p) then Ok (Some (vrr_request (m_VRR_req_id p) r), s) else Ok (None, s)
      else Ok (None, s)
  end.

Definition update (p : Config) (found : option Request) (s : gen) : Act gen := send_if (step p found s).

#[refine] Definition plugin (p : Config) (s : gen) : Plugin :=
  {| pl_update := update p; pl_current := s |}.
Proof.
  intros found s'. apply Sends_send_if. unfold step. intros req s1 H. destruct found as [r|]; [|done].
  apply bind_Ok in H as (act & _ & H). destruct act; [|done]. destruct (draw s') as [x s2].
  destruct (flt x _); [|done]. injection H as <- <-. apply vrr_same_channel.
Defined.
End PARA.
End PARA.

(** ** [OracleRH]: an exact activation counter per row *)
Module OracleRH.
Section OracleRH.
Context `{D : IDRAM}.

Record Config : Type := mkConfig { m_RH_threshold : Z; m_VRR_req_id : Z; m_geo : Geometry }.
Definition State : Type := list (gmap Z Z).

Definition setup (tRH : Z) : res (Config * State) :=
  id ← vrr_setup;
  g ← geometry;
  Ok (mkConfig tRH id g, replicate (Z.to_nat (g_num_banks_per_rank g * g_num_ranks g)) ∅).

Fixpoint clear_banks (banks : list Z) (t : State) : res State :=
  match banks with
  | [] => Ok t
  | b :: banks => t ← vset t b ∅; clear_banks banks t
  end.

Definition activate (p : Config) (r : Request) (t : State) : res (option Request * State) :=
  b ← flat_bank (m_geo p) r;
  row ← vget (addr_vec r) (g_row_level (m_geo p));
  m ← vget t b;
  match m !! row with
  | Some n =>
      let n := n + 1 in
      if m_RH_threshold p <=? n then
        t ← vset t b (<[row := 0]> m); Ok (Some (vrr_request (m_VRR_req_id p) r), t)
      else t ← vset t b (<[row := n]> m); Ok (None, t)
  | None => t ← vset t b (<[row := 1]> m); Ok (None, t)
  end.

Definition refresh (p : Config) (r : Request) (t : State) : res State :=
  rank ← vget (addr_vec r) (g_rank_level (m_geo p));
  let n := g_num_banks_per_rank (m_geo p) in
  clear_banks (seqZ (rank * n) n) t.

Definition step (p : Config) (found : option Request) (t : State) : res (option Request * State) :=
  match found with
  | None => Ok (None, t)
  | Some r =>
      act ← is_row_open (g_row_level (m_geo p)) r;
      if act : bool then activate p r t
      else
        ref ← is_rank_refresh (m_geo p) r;
        if ref : bool then t ← refresh p r t; Ok (None, t) else Ok (None, t)
  end.

Definition update (p : Config) (found : option Request) (t : State) : Act State := send_if (step p found t).

#[refine] Definition plugin (p : Config) (t : State) : Plugin :=
  {| pl_update := update p; pl_current := t |}.
Proof.
  intros found t'. apply Sends_send_if. unfold step. intros req s1 H. destruct found as [r|]; [|done].
  apply bind_Ok in H as (act & _ & H). destruct act.
  - unfold activate in H. res_inv. destruct (_ !! _); [case_match|]; res_inv; try done.
    subst. apply vrr_same_channel.
  - apply bind_Ok in H as (ref & _ & H). destruct ref; res_inv; done.
Defined.
End OracleRH.
End OracleRH.

(** ** [TWiCeIdeal]: counters with a life time, pruned at every rank refresh *)
Module TWiCe.
Section TWiCe.
Context `{D : IDRAM}.

Record TwiCeEntry : Type := mkEntry { act_count : Z; life : Z }.
Record Config : Type := mkConfig {
  m_twice_rh_threshold : Z;
  m_twice_pruning_interval_threshold : spec_float;
  m_VRR_req_id : Z;
  m_geo : Geometry;
}.
Record State : Type := mkState { m_clk : Z; m_twice_table : list (gmap Z TwiCeEntry) }.

Definition setup (rh : Z) (pruning : spec_float) : res (Config * State) :=
  id ← vrr_setup;
  g ← geometry;
  Ok (mkConfig rh pruning id g, mkState 0 (replicate (Z.to_nat (g_num_ranks g * g_num_banks_per_rank g)) ∅)).

(** The life of an entry that is kept grows; [int] times [float] is a [float]. *)
Definition prune (p : Config) (e : TwiCeEntry) : option TwiCeEntry :=
  if flt (F32.of_Z (act_count e)) (F32.mul (F32.of_Z (life e)) (m_twice_pruning_interval_threshold p))
  then None else Some (mkEntry (act_count e) (life e + 1)).

Definition activate (p : Config) (r : Request) (s : State) : res (option Request * State) :=
  b ← flat_bank (m_geo p) r;
  row ← vget (addr_vec r) (g_row_level (m_geo p));
  m ← vget (m_twice_table s) b;
  let put m req := t ← vset (m_twice_table s) b m; Ok (req, mkState (m_clk s) t) in
  match m !! row with
  | None => put (<[row := mkEntry 1 0]> m) None
  | Some e =>
      if m_twice_rh_threshold p <=? act_count e + 1
      then put (delete row m) (Some (vrr_request (m_VRR_req_id p) r))
      else put (<[row := mkEntry (act_count e + 1) (life e)]> m) None
  end.

Definition step (p : Config) (found : option Request) (s : State) : res (option Request * State) :=
  let s := mkState (m_clk s + 1) (m_twice_table s) in
  match found with
  | None => Ok (None, s)
  | Some r =>
      ref ← is_rank_refresh (m_geo p) r;
      if ref : bool then
        Ok (None, mkState (m_clk s) (fmap (fun m : gmap Z TwiCeEntry => omap (prune p) m) (m_twice_table s)))
      else
        act ← is_row_open (g_row_level (m_geo p)) r;
        if act : bool then activate p r s else Ok (None, s)
  end.

Definition update (p : Config) (found : option Request) (s : State) : Act State := send_if (step p found s).

#[refine] Definition plugin (p : Config) (s : State) : Plugin :=
  {| pl_update := update p; pl_current := s |}.
Proof.
  intros found s'. apply Sends_send_if. unfold step. intros req s1 H. destruct found as [r|]; [|done].
  apply bind_Ok in H as (ref & _ & H). destruct ref; [done|].
  apply bind_Ok in H as (act & _ & H). destruct act; [|done]. unfold activate in H. cbv zeta in H.
  res_inv. destruct (_ !! _); [case_match|]; res_inv; try done. subst. apply vrr_same_channel.
Defined.
End TWiCe.
End TWiCe.

(** ** [RFMManager]: a refresh-management command when a bank is hot *)
Module RFM.
Section RFM.
Context `{D : IDRAM}.

Record Config : Type := mkConfig {
  m_rfm_thresh : Z;
  m_rfm_req_id : Z;
  m_bankgroup_level : Z;
  m_geo : Geometry;
}.
Record State : Type := mkState { m_clk : Z; m_bank_ctrs : list Z; s_rfm_counter : Z }.

Definition setup (rfm_thresh : Z) : res (Config * State) :=
  if negb (bool_decide ("rfm" ∈ dram_requests)) then Err (Exit 0)
  else
    id ← def_of_name dram_requests "rfm";
    g ← geometry;
    bg ← def_of_name dram_levels "bankgroup";
    _ ← def_of_name dram_levels "column";
    Ok (mkConfig rfm_thresh id bg g,
        mkState 0 (replicate (Z.to_nat (g_num_ranks g * g_num_banks_per_rank g)) 0) 0).

(** A refused request ends the program. *)
Definition send_rfm (rfm : Request) (s : State) : Act State :=
  PrioritySend rfm (fun ok =>
    Done (if ok : bool then Ok (mkState (m_clk s) (m_bank_ctrs s) (s_rfm_counter s + 1)) else Err (Exit 0))).

Definition step (p : Config) (found : option Request) (s : State) : res (option Request * State) :=
  let s := mkState (m_clk s + 1) (m_bank_ctrs s) (s_rfm_counter s) in
  match found with
  | None => Ok (None, s)
  | Some r =>
      act ← is_row_open (g_row_level (m_geo p)) r;
      if act : bool then
        b ← flat_bank (m_geo p) r;
        n ← vget (m_bank_ctrs s) b;
        ctrs ← vset (m_bank_ctrs s) b (n + 1);
        if n + 1 <? m_rfm_thresh p then Ok (None, mkState (m_clk s) ctrs (s_rfm_counter s))
        else
          v ← vset (addr_vec r) (m_bankgroup_level p) (-1);
          v ← vset v (g_bank_level (m_geo p)) (-1);
          Ok (Some (Request_vec_type v (m_rfm_req_id p)),
              mkState (m_clk s) (fmap (fun _ => 0) ctrs) (s_rfm_counter s))
      else Ok (None, s)
  end.

Definition update (p : Config) (found : option Request) (s : State) : Act State :=
  match step p found s with
  | Err e => Done (Err e)
  | Ok (None, s) => Done (Ok s)
  | Ok (Some rfm, s) => send_rfm rfm s
  end.

#[refine] Definition plugin (p : Config) (Hbg : 0 < m_bankgroup_level p) (Hb : 0 < g_bank_level (m_geo p))
    (s : State) : Plugin := {| pl_update := update p; pl_current := s |}.
Proof.
  intros found s'. unfold update. destruct (step p found s') as [[[rfm|] s1]|e] eqn:E; cbn; [|done..].
  split; [|done]. unfold step in E. destruct found as [r|]; [|done].
  apply bind_Ok in E as (act & _ & E). destruct act; [|done].
  apply bind_Ok in E as (b & _ & E). apply bind_Ok in E as (n & _ & E). apply bind_Ok in E as (ctrs & _ & E).
  destruct (_ <? _); [done|]. apply bind_Ok in E as (v1 & [_ ->]%vset_Ok & E).
  apply bind_Ok in E as (v2 & [_ ->]%vset_Ok & E). injection E as <- <-.
  exists r. split; [done|]. cbn [addr_vec Request_vec_type set_addr_vec].
  rewrite !list_lookup_insert_ne by lia. done.
Defined.
End RFM.
End RFM.

(** ** [CommandCounter]: counts every issued command *)
Module CommandCounter.
Section CommandCounter.
Context `{D : IDRAM}.

Definition State : Type := gmap Z Z.

Fixpoint setup (commands_to_count : list string) (s : State) : res State :=
  match commands_to_count with
  | [] => Ok s
  | name :: names =>
      if bool_decide (name ∈ dram_commands) then
        id ← def_of_name dram_commands name; setup names (<[id := 0]> s)
      else Err (Exc "Command does not exist in the DRAM standard!")
  end.

Definition step (found : option Request) (s : State) : State :=
  match found with
  | None => s
  | Some r => <[command r := default 0 (s !! command r) + 1]> s
  end.

Definition update (found : option Request) (s : State) : Act State := Done (Ok (step found s)).

#[refine] Definition plugin (s : State) : Plugin := {| pl_update := update; pl_current := s |}.
Proof. done. Defined.
End CommandCounter.
End CommandCounter.

(** ** [TraceRecorder]: the lines of the trace file, newest first *)
Module TraceRecorder.
Section TraceRecorder.
Context `{D : IDRAM}.

Record State : Type := mkState { m_clk : Z; lines : list (Z * string * list Z) }.

Definition step (found : option Request) (s : State) : res State :=
  let clk := m_clk s + 1 in
  match found with
  | None => Ok (mkState clk (lines s))
  | Some r => name ← name_of_id dram_commands (command r); Ok (mkState clk ((clk, name, addr_vec r) :: lines s))
  end.

Definition update (found : option Request) (s : State) : Act State := Done (step found s).

#[refine] Definition plugin (s : State) : Plugin := {| pl_update := update; pl_current := s |}.
Proof. done. Defined.
End TraceRecorder.
End TraceRecorder.
