(* ===== verification/PluginFacts.v ===== *)
(** * Guarantees of the row-hammer plugins

    What a plugin saw and sent, and the exposure of rows and banks this bounds:
    [OracleRH] counts exactly, [RFMManager] bounds the activations of a bank
    between two refresh-management requests. *)
From Stdlib Require Import String.
From S2P Require Import Prelude CxxFloat DramSpec DramConfig Device DeviceFacts DDR4VRR DDR5 StandardsFacts.
From S2P Require Import Request Dram Plugin RowHammer.
Local Open Scope string_scope.
Local Open Scope Z_scope.

(** ** Outcomes of an update, whatever [priority_send] answers *)
Inductive outcome {A} : Act A -> list Request -> A -> Prop :=
| out_done x : outcome (Done (Ok x)) [] x
| out_send req k b l x : outcome (k b) l x -> outcome (PrioritySend req k) (req :: l) x.

Lemma outcome_send_if {S} (x : res (option Request * S)) l s :
  outcome (send_if x) l s -> exists o, x = Ok (o, s) /\ l = option_list o.
Proof.
  destruct x as [[[req|] s1]|e]; cbn; intros H; inversion H as [|? ? ? ? ? H1]; subst; [|by exists None].
  inversion H1; subst. by exists (Some req).
Qed.

Lemma outcome_bind {A B} (a : Act A) (k : A -> Act B) l y :
  outcome (a ≫= k) l y -> exists l1 l2 x, outcome a l1 x /\ outcome (k x) l2 y /\ l = (l1 ++ l2)%list.
Proof.
  revert l. induction a as [[x|e]|req f IH]; cbn; intros l H.
  - exists [], l, x. split; [constructor|done].
  - inversion H.
  - inversion H as [|? ? ok l' ? H']; subst. destruct (IH _ _ H') as (l1 & l2 & x & H1 & H2 & ->).
    exists (req :: l1), l2, x. split; [by econstructor|done].
Qed.

Lemma outcome_send_all reqs l x : outcome (send_all reqs) l x -> l = reqs.
Proof.
  revert l. induction reqs as [|r reqs IH]; cbn; intros l H; inversion H as [|? ? ok l' ? H']; subst; [done|].
  f_equal. by apply IH.
Qed.

Lemma outcome_send_all_or_exit reqs l x : outcome (send_all_or_exit reqs) l x -> l = reqs.
Proof.
  revert l. induction reqs as [|r reqs IH]; cbn; intros l H; inversion H as [|? ? ok l' ? H']; subst; [done|].
  f_equal. destruct ok; [by apply IH|inversion H'].
Qed.

Lemma outcome_done {A} (x : res A) l y : outcome (Done x) l y -> x = Ok y /\ l = [].
Proof. intros H. inversion H; subst. done. Qed.

(** ** Histories: what each update saw and what it sent, newest first *)
Definition Event : Type := option Request * list Request.

Section History.
Context `{D : IDRAM} (g : Geometry).

(** The bank and row the update saw opened. *)
Definition opened (e : Event) : option (Z * Z) :=
  match e.1 with
  | None => None
  | Some r =>
      match is_row_open (g_row_level g) r, flat_bank g r, vget (addr_vec r) (g_row_level g) with
      | Ok true, Ok b, Ok row => Some (b, row)
      | _, _, _ => None
      end
  end.

(** The update asked for the refresh of the neighbours of the row it saw opened:
    a request of type [id] for the bank and row of the scheduled request. *)
Definition protects (id : Z) (e : Event) : bool :=
  match e.1 with Some r => bool_decide (vrr_request id r ∈ e.2) | None => false end.

(** Activations of a bank, and of a row since the last refresh of its
    neighbours was requested. *)
Definition activations (b : Z) (ep : list Event) : Z :=
  Z.of_nat (length (filter (fun e => fst <$> opened e = Some b) ep)).

Fixpoint unprotected (id b row : Z) (ep : list Event) : Z :=
  match ep with
  | [] => 0
  | e :: ep =>
      if decide (opened e = Some (b, row))
      then if protects id e then 0 else 1 + unprotected id b row ep
      else unprotected id b row ep
  end.

Lemma protects_sent id r o : protects id (Some r, option_list o) = bool_decide (o = Some (vrr_request id r)).
Proof.
  unfold protects. cbn [fst snd]. apply bool_decide_ext. destruct o; cbn; rewrite ?list_elem_of_singleton.
  - split; congruence.
  - split; [by intros ?%not_elem_of_nil|done].
Qed.

Lemma protects_none id r : protects id (Some r, []) = false.
Proof. unfold protects. cbn. apply bool_decide_false, not_elem_of_nil. Qed.

Lemma protects_vrr id r : protects id (Some r, [vrr_request id r]) = true.
Proof. unfold protects. cbn. by apply bool_decide_true, list_elem_of_singleton. Qed.

Lemma activations_hit b row e ep : opened e = Some (b, row) -> activations b (e :: ep) = activations b ep + 1.
Proof. intros H. unfold activations. rewrite filter_cons, H. cbn. case_decide; [cbn; lia|done]. Qed.

Lemma activations_miss b e ep : fst <$> opened e <> Some b -> activations b (e :: ep) = activations b ep.
Proof. intros H. unfold activations. rewrite filter_cons. by case_decide. Qed.

Lemma unprotected_miss id b row e ep :
  opened e <> Some (b, row) -> unprotected id b row (e :: ep) = unprotected id b row ep.
Proof. intros H. cbn. by case_decide. Qed.

Lemma opened_None e : opened e = None -> forall id b row ep,
  activations b (e :: ep) = activations b ep /\ unprotected id b row (e :: ep) = unprotected id b row ep.
Proof. intros H id b row ep. split; [apply activations_miss|apply unprotected_miss]; by rewrite H. Qed.
End History.

(** Runs of a plugin from its initial state. *)
Inductive runs {S} (upd : option Request -> S -> Act S) (s0 : S) : S -> list Event -> Prop :=
| runs_start : runs upd s0 s0 []
| runs_update s ep found sent s' :
    runs upd s0 s ep -> outcome (upd found s) sent s' -> runs upd s0 s' ((found, sent) :: ep).

(** Concrete runs of a plugin that sends at most one request per update. *)
Fixpoint replay {S} (step : option Request -> S -> res (option Request * S))
    (fs : list (option Request)) (x : S * list Event) : res (S * list Event) :=
  match fs with
  | [] => Ok x
  | f :: fs => '(o, s) ← step f x.1; replay step fs (s, (f, option_list o) :: x.2)
  end.

Definition events_of {S} (x : res (S * list Event)) : option (list Event) :=
  match x with Ok (_, ep) => Some ep | Err _ => None end.

Lemma outcome_of_step {S} (x : res (option Request * S)) o s :
  x = Ok (o, s) -> outcome (send_if x) (option_list o) s.
Proof. intros ->. destruct o; cbn; [apply (out_send _ _ true)|]; constructor. Qed.

Lemma replay_runs {S} step (s0 : S) fs s ep s' ep' :
  runs (fun f s => send_if (step f s)) s0 s ep -> replay step fs (s, ep) = Ok (s', ep') ->
  runs (fun f s => send_if (step f s)) s0 s' ep'.
Proof.
  revert s ep. induction fs as [|f fs IH]; cbn; intros s ep Hr H; [by injection H as <- <-|].
  apply bind_Ok in H as ([o s1] & H1 & H). eapply IH; [|exact H]. econstructor; [exact Hr|].
  by apply outcome_of_step.
Qed.

Lemma events_of_Ok {S} (x : res (S * list Event)) ep : events_of x = Some ep -> exists s, x = Ok (s, ep).
Proof. destruct x as [[s l]|]; [|done]. intros [= ->]. by exists s. Qed.

(** ** [OracleRH] *)
Section Oracle.
Context `{D : IDRAM} (p : OracleRH.Config).
Notation g := (OracleRH.m_geo p).
Notation T := (OracleRH.m_RH_threshold p).

(** The update saw a refresh of the rank that holds the bank. *)
Definition refreshed (b : Z) (e : Event) : bool :=
  match e.1 with
  | None => false
  | Some r =>
      match is_row_open (g_row_level g) r, is_rank_refresh g r, vget (addr_vec r) (g_rank_level g) with
      | Ok false, Ok true, Ok rank =>
          (rank * g_num_banks_per_rank g <=? b) &&
          (b <? rank * g_num_banks_per_rank g + g_num_banks_per_rank g)
      | _, _, _ => false
      end
  end.

(** Activations of a row since it was last protected: by the request to refresh
    its neighbours, or by a refresh of its rank. *)
Fixpoint exposure (b row : Z) (ep : list Event) : Z :=
  match ep with
  | [] => 0
  | e :: ep =>
      if decide (opened g e = Some (b, row))
      then if protects (OracleRH.m_VRR_req_id p) e then 0 else 1 + exposure b row ep
      else if refreshed b e then 0 else exposure b row ep
  end.

Definition oracle_inv (t : list (gmap Z Z)) (ep : list Event) : Prop :=
  forall b m row, t !! b = Some m ->
    default 0 (m !! row) = exposure (Z.of_nat b) row ep /\ exposure (Z.of_nat b) row ep < T.

Lemma clear_banks_lookup banks (t t' : list (gmap Z Z)) b :
  OracleRH.clear_banks banks t = Ok t' ->
  t' !! b = if decide (Z.of_nat b ∈ banks) then (fun _ => ∅) <$> t !! b else t !! b.
Proof.
  revert t. induction banks as [|x banks IH]; cbn; intros t H.
  { injection H as <-. rewrite decide_False by set_solver. done. }
  apply bind_Ok in H as (t1 & [[H0 H1] ->]%vset_Ok & H). rewrite (IH _ H).
  destruct (decide (b = Z.to_nat x)) as [->|Hne].
  - rewrite list_lookup_insert_eq by lia. rewrite Z2Nat.id by lia.
    rewrite (decide_True (P := x ∈ x :: banks)) by set_solver.
    destruct (lookup_lt_is_Some_2 t (Z.to_nat x)) as [m ->]; [lia|]. by destruct (decide (x ∈ banks)).
  - rewrite list_lookup_insert_ne by done. destruct (decide (Z.of_nat b ∈ banks)).
    + by rewrite decide_True by set_solver.
    + rewrite decide_False; [done|]. intros [?|?]%elem_of_cons; [lia|done].
Qed.

Lemma oracle_activate_inv (t : list (gmap Z Z)) ep r o (t' : list (gmap Z Z)) :
  2 <= T -> oracle_inv t ep -> is_row_open (g_row_level g) r = Ok true -> OracleRH.activate p r t = Ok (o, t') ->
  oracle_inv t' ((Some r, option_list o) :: ep).
Proof.
  intros HT Hi Hact H. unfold OracleRH.activate in H. apply bind_Ok in H as (b0 & Hb & H).
  apply bind_Ok in H as (row0 & Hrow & H). apply bind_Ok in H as (m0 & [H0 Hm]%vget_Ok & H).
  assert (forall l, opened g (Some r, l) = Some (b0, row0)) as He
    by (intros l; unfold opened; cbn; by rewrite Hact, Hb, Hrow).
  assert (forall b l, refreshed b (Some r, l) = false) as Hnr by (intros; unfold refreshed; cbn; by rewrite Hact).
  assert (forall n o, t' = <[Z.to_nat b0 := <[row0 := n]> m0]> t -> 
    n = (if protects (OracleRH.m_VRR_req_id p) (Some r, option_list o) then 0 else 1 + default 0 (m0 !! row0)) -> n < T ->
    oracle_inv t' ((Some r, option_list o) :: ep)) as Hput.
  { intros n o' -> Hn Hlt b m row Hbm. cbn [exposure snd]. rewrite Hnr.
    destruct (decide (b = Z.to_nat b0)) as [->|Hne].
    - rewrite list_lookup_insert_eq in Hbm by (by eapply lookup_lt_Some). injection Hbm as <-.
      rewrite Z2Nat.id by done. rewrite He. destruct (Hi _ _ row Hm) as [H1 H2]. rewrite Z2Nat.id in H1, H2 by done.
      destruct (decide (row0 = row)) as [->|Hrne].
      + rewrite lookup_insert_eq. destruct (decide (Some (b0, row) = Some (b0, row))); [|done].
        rewrite H1 in Hn. destruct (protects _ _); cbn; lia.
      + rewrite lookup_insert_ne by done. rewrite decide_False by congruence. done.
    - rewrite list_lookup_insert_ne in Hbm by done. rewrite He, decide_False; [by apply Hi|].
      intros [= ? _]. lia. }
  destruct (Hi _ _ row0 Hm) as [Hc Hlt]. destruct (m0 !! row0) as [n|] eqn:En; cbn in Hc.
  - destruct (Z.leb_spec T (n + 1)); apply bind_Ok in H as (t1 & [_ ->]%vset_Ok & H); injection H as <- <-;
      (eapply Hput; [reflexivity|rewrite protects_sent; case_bool_decide; cbn; done || lia|lia]).
  - apply bind_Ok in H as (t1 & [_ ->]%vset_Ok & H); injection H as <- <-. (eapply Hput; [reflexivity|rewrite protects_sent; case_bool_decide; cbn; done || lia|lia]).
Qed.

Lemma oracle_update_inv (t : list (gmap Z Z)) ep found sent (t' : list (gmap Z Z)) :
  2 <= T -> oracle_inv t ep -> outcome (OracleRH.update p found t) sent t' ->
  oracle_inv t' ((found, sent) :: ep).
Proof.
  intros HT Hi (o & H & ->)%outcome_send_if. unfold OracleRH.step in H.
  destruct found as [r|]; [|injection H as <- <-; exact Hi].
  apply bind_Ok in H as (act & Ha & H). destruct act; [by eapply oracle_activate_inv|].
  apply bind_Ok in H as (ref & Hr & H).
  assert (opened g (Some r, option_list o) = None) as He by (unfold opened; cbn; by rewrite Ha).
  destruct ref.
  - apply bind_Ok in H as (t1 & Ht & H). injection H as <- <-. unfold OracleRH.refresh in Ht.
    apply bind_Ok in Ht as (rank & Hrank & Ht). intros b m row Hb. cbn [exposure]. rewrite He.
    rewrite (clear_banks_lookup _ _ _ _ Ht) in Hb. unfold refreshed. cbn. rewrite Ha, Hr, Hrank.
    rewrite decide_False by done. destruct (decide (Z.of_nat b ∈ _)) as [Hin|Hin].
    + apply elem_of_seqZ in Hin. rewrite (proj2 (Z.leb_le _ _)), (proj2 (Z.ltb_lt _ _)) by lia. cbn.
      destruct (t !! b); [|done]. injection Hb as <-. rewrite lookup_empty. cbn. lia.
    + rewrite elem_of_seqZ in Hin.
      destruct (Z.leb_spec (rank * g_num_banks_per_rank g) (Z.of_nat b)),
        (Z.ltb_spec (Z.of_nat b) (rank * g_num_banks_per_rank g + g_num_banks_per_rank g));
        cbn; try lia; by apply Hi.
  - injection H as <- <-. intros b m row Hb. cbn [exposure]. rewrite He, decide_False by done.
    unfold refreshed. cbn. rewrite Ha, Hr. by apply Hi.
Qed.
End Oracle.

(** Property C15.  [OracleRH] counts exactly: after any sequence of updates the
    counter of every row is the number of times the row was opened since its
    victim-row refresh was last requested or its rank was last refreshed, and for a
    threshold of two or more this exposure never reaches the threshold, whatever
    the access pattern.  (With a threshold of one the first activation of a row
    already reaches it.) *)
Theorem oracle_exposure_exact `{D : IDRAM} tRH p t0 t ep b m row :
  OracleRH.setup tRH = Ok (p, t0) -> 2 <= tRH -> runs (OracleRH.update p) t0 t ep ->
  t !! b = Some m ->
  default 0 (m !! row) = exposure p (Z.of_nat b) row ep /\ exposure p (Z.of_nat b) row ep < tRH.
Proof.
  intros Hs HT Hr. unfold OracleRH.setup in Hs. apply bind_Ok in Hs as (id & _ & Hs).
  apply bind_Ok in Hs as (g & _ & Hs). injection Hs as <- <-.
  enough (oracle_inv (OracleRH.mkConfig tRH id g) t ep) as Hi by apply Hi.
  induction Hr as [|t ep found sent t' _ IH Ho]; [|by eapply oracle_update_inv].
  intros b' m' row' [-> _]%lookup_replicate. rewrite lookup_empty. cbn. lia.
Qed.

(** ** [RFMManager] *)
Section RFM.
Context `{D : IDRAM} (p : RFM.Config).
Notation g := (RFM.m_geo p).
Notation T := (RFM.m_rfm_thresh p).

(** The bank in which the update saw a row opened. *)
Definition opened_bank (e : Event) : option Z :=
  match e.1 with
  | None => None
  | Some r => match is_row_open (g_row_level g) r, flat_bank g r with Ok true, Ok b => Some b | _, _ => None end
  end.

(** The refresh-management request for all banks of the rank of request [r]. *)
Definition rank_rfm (r : Request) : Request :=
  Request_vec_type (<[Z.to_nat (g_bank_level g) := -1]> (<[Z.to_nat (RFM.m_bankgroup_level p) := -1]> (addr_vec r)))
    (RFM.m_rfm_req_id p).

(** The update asked for the refresh management of the rank in which it saw a
    row opened. *)
Definition manages (e : Event) : bool :=
  match e.1 with Some r => bool_decide (rank_rfm r ∈ e.2) | None => false end.

(** Activations of a bank since the last refresh-management request, and the
    number of these requests. *)
Fixpoint since_rfm (b : Z) (ep : list Event) : Z :=
  match ep with
  | [] => 0
  | e :: ep => if manages e then 0 else (if decide (opened_bank e = Some b) then 1 else 0) + since_rfm b ep
  end.

Fixpoint rfms (ep : list Event) : Z :=
  match ep with [] => 0 | e :: ep => (if manages e then 1 else 0) + rfms ep end.

(** Nothing but such requests is sent, and only for a row just opened. *)
Definition only_rfm (e : Event) : Prop :=
  e.2 = [] \/ exists r b, e.1 = Some r /\ opened_bank e = Some b /\ e.2 = [rank_rfm r].

Record rfm_inv (s : RFM.State) (ep : list Event) : Prop := {
  ri_count : forall b n, RFM.m_bank_ctrs s !! b = Some n -> n = since_rfm (Z.of_nat b) ep /\ n < T;
  ri_rfms : RFM.s_rfm_counter s = rfms ep;
  ri_only : Forall only_rfm ep;
}.

(** The request, if one is sent, is sent with success. *)
Lemma rfm_outcome found s sent s' :
  outcome (RFM.update p found s) sent s' ->
  exists o s1, RFM.step p found s = Ok (o, s1) /\ sent = option_list o /\
    RFM.m_bank_ctrs s' = RFM.m_bank_ctrs s1 /\
    RFM.s_rfm_counter s' = RFM.s_rfm_counter s1 + Z.of_nat (length sent).
Proof.
  unfold RFM.update. destruct (RFM.step p found s) as [[[rfm|] s1]|e]; cbn; intros H.
  - exists (Some rfm), s1. unfold RFM.send_rfm in H. inversion H as [|? ? b ? ? H1]; subst.
    destruct b; inversion H1; subst. cbn. auto.
  - exists None, s1. inversion H; subst. cbn. split; [done|]. split; [done|]. split; [done|lia].
  - inversion H.
Qed.

Lemma manages_none f : manages (f, []) = false.
Proof. destruct f as [r|]; [|done]. apply bool_decide_false, not_elem_of_nil. Qed.

Lemma rfm_update_inv s ep found sent s' :
  0 < T -> rfm_inv s ep -> outcome (RFM.update p found s) sent s' -> rfm_inv s' ((found, sent) :: ep).
Proof.
  intros HT [Hc Hr Hof] (o & s1 & H & -> & Hctrs & Hcnt)%rfm_outcome. unfold RFM.step in H.
  destruct found as [r|].
  2: { injection H as <- <-. cbn [option_list length RFM.s_rfm_counter] in *. split; cbn [since_rfm rfms]; rewrite ?manages_none.
       - intros b n Hb. rewrite Hctrs in Hb. by apply Hc.
       - rewrite Hcnt, Hr. cbn. lia.
       - constructor; [by left|done]. }
  apply bind_Ok in H as (act & Ha & H). destruct act.
  2: { injection H as <- <-. cbn [option_list length RFM.s_rfm_counter] in *. split; cbn [since_rfm rfms]; rewrite ?manages_none.
       - intros b n Hb. rewrite Hctrs in Hb. unfold opened_bank. cbn. rewrite Ha. by apply Hc.
       - rewrite Hcnt, Hr. cbn. lia.
       - constructor; [by left|done]. }
  apply bind_Ok in H as (b0 & Hb0 & H). apply bind_Ok in H as (n0 & [H0 Hn0]%vget_Ok & H).
  apply bind_Ok in H as (ctrs & [_ ->]%vset_Ok & H). cbn in Hn0.
  assert (forall l, opened_bank (Some r, l) = Some b0) as Ho
    by (intros l; unfold opened_bank; cbn; by rewrite Ha, Hb0).
  destruct (Z.ltb_spec (n0 + 1) T).
  - injection H as <- <-. cbn in Hctrs, Hcnt.
    split; cbn [since_rfm rfms option_list]; rewrite ?manages_none; [|rewrite Hcnt, Hr; cbn; lia|constructor; [by left|done]].
    intros b n Hb. rewrite Hctrs in Hb. rewrite Ho.
    destruct (decide (b = Z.to_nat b0)) as [->|Hne].
    + rewrite list_lookup_insert_eq in Hb by (by eapply lookup_lt_Some). injection Hb as <-.
      rewrite Z2Nat.id by done. rewrite decide_True by done. destruct (Hc _ _ Hn0) as [Hn _].
      rewrite Z2Nat.id in Hn by done. lia.
    + rewrite list_lookup_insert_ne in Hb by done. rewrite decide_False by (intros [= ?]; lia).
      by apply Hc.
  - apply bind_Ok in H as (v1 & [_ ->]%vset_Ok & H). apply bind_Ok in H as (v2 & [_ ->]%vset_Ok & H). injection H as <- <-.
    cbn in Hctrs, Hcnt. change (option_list _) with [rank_rfm r].
    assert (manages (Some r, [rank_rfm r]) = true) as Hm by (apply bool_decide_true, list_elem_of_singleton; done).
    split; cbn [since_rfm rfms option_list]; rewrite ?Hm; [|rewrite Hcnt, Hr; cbn; lia|constructor; [right; eauto|done]].
    intros b n Hb. rewrite Hctrs in Hb. apply list_lookup_fmap_Some in Hb as (x & -> & _). lia.
Qed.
End RFM.

(** Property C16.  [RFMManager] with a positive threshold: after any sequence of
    updates that returned, the counter of every bank is the number of activations
    the bank saw since the last refresh-management request of any rank, which
    stays below the threshold; the plugin has sent nothing but such requests, each
    of the type [rfm], for all banks of the rank of the row just opened, and the
    statistic is their number, all of them accepted (a refused one ends the
    program).  The counters of all ranks restart with the request of one rank. *)
Theorem rfm_bounds_bank_activations `{D : IDRAM} thresh p s0 s ep b n :
  RFM.setup thresh = Ok (p, s0) -> 0 < thresh -> runs (RFM.update p) s0 s ep ->
  RFM.m_bank_ctrs s !! b = Some n ->
  n = since_rfm p (Z.of_nat b) ep /\ since_rfm p (Z.of_nat b) ep < thresh /\ RFM.s_rfm_counter s = rfms p ep /\
  Forall (only_rfm p) ep.
Proof.
  intros Hs HT Hr Hb. unfold RFM.setup in Hs. destruct (negb _); [done|].
  apply bind_Ok in Hs as (id & _ & Hs). apply bind_Ok in Hs as (g & _ & Hs).
  apply bind_Ok in Hs as (bg & _ & Hs). apply bind_Ok in Hs as (co & _ & Hs). injection Hs as <- <-.
  enough (rfm_inv (RFM.mkConfig thresh id bg g) s ep) as [Hc Hf Hof].
  { destruct (Hc _ _ Hb) as [Hn ?]. cbn in *. split; [done|]. split; [lia|]. by split. }
  clear Hb. induction Hr as [|s ep found sent s' _ IH Ho]; [|by eapply rfm_update_inv].
  split; cbn; [|done|constructor]. by intros b' n' [-> _]%lookup_replicate.
Qed.

(** ** Example runs *)
Definition vrr_dev : Dev.Device := (example (DDR4VRR.std 2) "DDR4_8Gb_x8" "DDR4_2400R").1.
#[local] Instance vrr_dram : IDRAM := std_dram (DDR4VRR.std 2) vrr_dev.

(** A request about to be served with an ACT of a row of bank 0. *)
Definition act_row (row : Z) : option Request :=
  Some (set_command (DDR4VRR.cmd "ACT") (Request_vec_type [0; 0; 0; 0; row; 0] 0)).

Definition oracle_demo : OracleRH.Config * OracleRH.State :=
  from_res (OracleRH.mkConfig 0 0 (mkGeometry 0 0 0 0 0 0), []) (OracleRH.setup 3).

Lemma oracle_demo_setup : OracleRH.setup 3 = Ok (oracle_demo.1, oracle_demo.2).
Proof. rewrite <- surjective_pairing. apply from_res_Ok. vm_compute. reflexivity. Qed.

Definition hammer : list (option Request) := [act_row 7; None; act_row 7; act_row 9; act_row 7; act_row 7].

Definition vrr_of (row : Z) : Request := Request_vec_type [0; 0; 0; 0; row; 0] 3.

Definition hammer_events : list Event :=
  [(act_row 7, []); (act_row 7, [vrr_of 7]); (act_row 9, []); (act_row 7, []); (None, []); (act_row 7, [])].

Lemma oracle_demo_events :
  events_of (replay (OracleRH.step oracle_demo.1) hammer (oracle_demo.2, [])) = Some hammer_events.
Proof. vm_compute. reflexivity. Qed.

Lemma oracle_exposure_exact_witness :
  exists t m, runs (OracleRH.update oracle_demo.1) oracle_demo.2 t hammer_events /\ t !! 0%nat = Some m /\
    default 0 (m !! 7) = 1 /\ exposure oracle_demo.1 0 7 hammer_events = 1.
Proof.
  destruct (events_of_Ok _ _ oracle_demo_events) as [t Ht].
  pose proof (replay_runs _ _ _ _ _ _ _ (runs_start _ oracle_demo.2) Ht) as Hr.
  assert (match replay (OracleRH.step oracle_demo.1) hammer (oracle_demo.2, []) with
          | Ok (t, _) => match t !! 0%nat with Some _ => true | None => false end
          | Err _ => false end = true) as Hm by (vm_compute; reflexivity).
  rewrite Ht in Hm. destruct (t !! 0%nat) as [m|] eqn:Em; [|discriminate Hm].
  assert (exposure oracle_demo.1 0 7 hammer_events = 1) as He by (vm_compute; reflexivity).
  exists t, m. split; [exact Hr|]. split; [exact Em|]. split; [|exact He].
  destruct (oracle_exposure_exact 3 oracle_demo.1 oracle_demo.2 t hammer_events 0%nat m 7
    oracle_demo_setup ltac:(lia) Hr Em) as [H _].
  rewrite H. exact He.
Defined.

Definition rfm_dev : Dev.Device := (example (DDR5.std 2 2) "DDR5_16Gb_x8" "DDR5_3200AN").1.
Definition rfm_dram : IDRAM := std_dram (DDR5.std 2 2) rfm_dev.

Definition rfm_demo : RFM.Config * RFM.State :=
  from_res (RFM.mkConfig 0 0 0 (mkGeometry 0 0 0 0 0 0), RFM.mkState 0 [] 0) (RFM.setup (D := rfm_dram) 2).

Lemma rfm_demo_setup : RFM.setup (D := rfm_dram) 2 = Ok (rfm_demo.1, rfm_demo.2).
Proof. rewrite <- surjective_pairing. apply from_res_Ok. vm_compute. reflexivity. Qed.

(** Two activations of bank 5 reach the threshold. *)
Definition act_bank5 : option Request :=
  Some (set_command (DDR5.cmd "ACT") (Request_vec_type [0; 0; 1; 1; 7; 0] 0)).
Definition rfm_request : Request := Request_vec_type [0; 0; -1; -1; 7; 0] 4.
Definition rfm_final : RFM.State := RFM.mkState 3 (<[5%nat := 1]> (replicate 32 0)) 1.
Definition rfm_events : list Event := [(act_bank5, []); (act_bank5, [rfm_request]); (act_bank5, [])].

Lemma rfm_demo_runs : runs (RFM.update (D := rfm_dram) rfm_demo.1) rfm_demo.2 rfm_final rfm_events.
Proof.
  eapply (runs_update _ _ (RFM.mkState 2 (replicate 32 0) 1)).
  - eapply (runs_update _ _ (RFM.mkState 1 (<[5%nat := 1]> (replicate 32 0)) 0)).
    + eapply runs_update; [apply runs_start|].
      assert (RFM.update (D := rfm_dram) rfm_demo.1 act_bank5 rfm_demo.2 =
              Done (Ok (RFM.mkState 1 (<[5%nat := 1]> (replicate 32 0)) 0))) as -> by (vm_compute; reflexivity).
      constructor.
    + assert (RFM.step (D := rfm_dram) rfm_demo.1 act_bank5 (RFM.mkState 1 (<[5%nat := 1]> (replicate 32 0)) 0) =
              Ok (Some rfm_request, RFM.mkState 2 (replicate 32 0) 0)) as E by (vm_compute; reflexivity).
      unfold RFM.update. rewrite E. apply (out_send _ _ true). constructor.
  - assert (RFM.update (D := rfm_dram) rfm_demo.1 act_bank5 (RFM.mkState 2 (replicate 32 0) 1) =
            Done (Ok rfm_final)) as -> by (vm_compute; reflexivity).
    constructor.
Qed.

Lemma rfm_bounds_bank_activations_witness :
  RFM.m_bank_ctrs rfm_final !! 5%nat = Some 1 /\
  1 = since_rfm (D := rfm_dram) rfm_demo.1 5 rfm_events /\
  rfms rfm_demo.1 rfm_events = 1.
Proof.
  split; [reflexivity|].
  destruct (rfm_bounds_bank_activations (D := rfm_dram) 2 rfm_demo.1 rfm_demo.2 rfm_final rfm_events 5%nat 1
    rfm_demo_setup ltac:(lia) rfm_demo_runs eq_refl) as (H & _ & Hc & _).
  split; [exact H|]. symmetry. exact Hc.
Defined.
