(* ===== verification/Graphene.v ===== *)
(** * The Graphene plugin: [dram_controller/impl/plugin/graphene.cpp]

    A Misra-Gries summary of the activations of each bank: the rows in the table
    have a counter each, all others share the spill-over counter.  A row whose
    counter reaches the threshold has its neighbours refreshed. *)
From Stdlib Require Import String.
From S2P Require Import Prelude CxxFloat DramSpec Request Dram Plugin RowHammer PluginFacts.
Local Open Scope string_scope.
Local Open Scope Z_scope.

Module Graphene.
Section Graphene.
Context `{D : IDRAM} `{IO : !IterOrder}.

Record Config : Type := mkConfig {
  m_num_table_entries : Z;
  m_activation_threshold : Z;
  m_reset_period_clk : Z;
  m_VRR_req_id : Z;
  m_geo : Geometry;
}.

Record State : Type := mkState {
  m_clk : Z;
  m_activation_count_table : list (gmap Z Z);
  m_spillover_counter : list Z;
}.

(** Placeholder rows with negative numbers fill the table. *)
Definition initial_table (entries rows : Z) : gmap Z Z :=
  list_to_map ((fun j => (j, 0)) <$> seqZ (- rows) entries).

(** [m_reset_period_ns / ((float) tCK_ps / 1000.0f)], truncated to an [int]. *)
Definition reset_period_clk (ns tCK_ps : Z) : res Z :=
  fto_i32 (F32.div (F32.of_Z ns) (F32.div (F32.of_Z tCK_ps) (F32.of_Z 1000))).

Definition setup (entries threshold reset_period_ns : Z) : res (Config * State) :=
  id ← vrr_setup;
  tCK ← dram_timing "tCK_ps";
  period ← reset_period_clk reset_period_ns tCK;
  g ← geometry;
  let n := Z.to_nat (g_num_banks_per_rank g * g_num_ranks g) in
  Ok (mkConfig entries threshold period id g,
      mkState (-1) (replicate n (initial_table entries (g_num_rows_per_bank g))) (replicate n 0)).

(** [m_clk] is an [int].  The reset runs over all banks. *)
Definition tick (p : Config) (s : State) : res State :=
  if 2 ^ 31 - 1 <=? m_clk s then Err Undef
  else if m_reset_period_clk p =? 0 then Err Undef
  else
    let clk := m_clk s + 1 in
    if Z.rem clk (m_reset_period_clk p) =? 0 then
      Ok (mkState clk (fmap (fun t : gmap Z Z => (fun _ : Z => 0) <$> t) (m_activation_count_table s))
            (fmap (fun _ => 0) (m_spillover_counter s)))
    else Ok (mkState clk (m_activation_count_table s) (m_spillover_counter s)).

(** The first entry, in iteration order, whose count is the spill-over value. *)
Definition find_spill (spill : Z) (t : gmap Z Z) : option (Z * Z) :=
  List.find (fun e => e.2 =? spill) (iter_order t).

Definition activate (p : Config) (r : Request) (s : State) : res (option Request * State) :=
  b ← flat_bank (m_geo p) r;
  row ← vget (addr_vec r) (g_row_level (m_geo p));
  t ← vget (m_activation_count_table s) b;
  spill ← vget (m_spillover_counter s) b;
  let put t req := ts ← vset (m_activation_count_table s) b t; Ok (req, mkState (m_clk s) ts (m_spillover_counter s)) in
  match t !! row with
  | None =>
      match find_spill spill t with
      | Some (to_remove, spillover_value) => put (<[row := spillover_value + 1]> (delete to_remove t)) None
      | None => sp ← vset (m_spillover_counter s) b (spill + 1);
                Ok (None, mkState (m_clk s) (m_activation_count_table s) sp)
      end
  | Some n =>
      if m_activation_threshold p <=? n + 1
      then put (<[row := spill]> t) (Some (vrr_request (m_VRR_req_id p) r))
      else put (<[row := n + 1]> t) None
  end.

Definition step (p : Config) (found : option Request) (s : State) : res (option Request * State) :=
  s ← tick p s;
  match found with
  | None => Ok (None, s)
  | Some r =>
      act ← is_row_open (g_row_level (m_geo p)) r;
      if act : bool then activate p r s else Ok (None, s)
  end.

Definition update (p : Config) (found : option Request) (s : State) : Act State := send_if (step p found s).

#[refine] Definition plugin (p : Config) (s : State) : Plugin :=
  {| pl_update := update p; pl_current := s |}.
Proof.
  intros found s'. apply Sends_send_if. unfold step. intros req s1 H. apply bind_Ok in H as (s2 & _ & H).
  destruct found as [r|]; [|done]. apply bind_Ok in H as (act & _ & H). destruct act; [|done].
  unfold activate in H. cbv zeta in H. res_inv.
  destruct (_ !! _); [destruct (_ <=? _)|destruct (find_spill _ _) as [[]|]]; res_inv; try done.
  subst. apply vrr_same_channel.
Defined.
End Graphene.
End Graphene.

(** ** The guarantee of Graphene *)
(** ** Sums over a table *)
Definition total (t : gmap Z Z) : Z := map_fold (fun _ n acc => n + acc) 0 t.

Lemma total_insert t k n : t !! k = None -> total (<[k := n]> t) = n + total t.
Proof. intros H. unfold total. apply map_fold_insert_L; [intros; lia|done]. Qed.

Lemma total_delete t k n : t !! k = Some n -> total (delete k t) = total t - n.
Proof. intros H. unfold total. rewrite (map_fold_delete_L _ 0 k n t) by (intros; lia || done). lia. Qed.

Lemma total_update t k n m : t !! k = Some n -> total (<[k := m]> t) = total t - n + m.
Proof.
  intros H. rewrite <- insert_delete_eq, total_insert by apply lookup_delete_eq. rewrite (total_delete t k n) by done. lia.
Qed.

Lemma total_ge t c : (forall k n, t !! k = Some n -> c <= n) -> Z.of_nat (size t) * c <= total t.
Proof.
  induction t as [|k n t Hk IH] using map_ind; intros H; [done|].
  rewrite total_insert, map_size_insert_None by done.
  pose proof (H k n (lookup_insert_eq t k n)).
  assert (Z.of_nat (size t) * c <= total t); [|lia]. apply IH. intros j m Hj. apply (H j).
  rewrite lookup_insert_ne; [done|congruence].
Qed.

Lemma total_zero (t : gmap Z Z) : total ((fun _ : Z => 0) <$> t) = 0.
Proof.
  induction t as [|k n t Hk IH] using map_ind; [done|].
  rewrite fmap_insert, total_insert; [lia|]. by rewrite lookup_fmap, Hk.
Qed.

(** ** The invariant of a bank *)
Section Guarantee.
Context `{D : IDRAM} `{IO : !IterOrder} (p : Graphene.Config).
Notation g := (Graphene.m_geo p).
Notation T := (Graphene.m_activation_threshold p).
Notation V := (Graphene.m_VRR_req_id p).

Record bank_ok (k b : Z) (t : gmap Z Z) (spill : Z) (ep : list Event) : Prop := {
  bk_spill : 0 <= spill;
  bk_size : Z.of_nat (size t) = k;
  bk_in : forall row n, t !! row = Some n ->
    spill <= n /\ unprotected g V b row ep <= n /\ (n < T \/ n <= spill + 1);
  bk_out : forall row, t !! row = None -> unprotected g V b row ep <= spill;
  bk_total : total t + spill <= activations g b ep;
}.

(** An event elsewhere changes nothing. *)
Lemma bank_ok_miss k b t spill ep e :
  fst <$> opened g e <> Some b -> bank_ok k b t spill ep -> bank_ok k b t spill (e :: ep).
Proof.
  intros He [Hs Hk Hi Ho Ht].
  assert (forall row, unprotected g V b row (e :: ep) = unprotected g V b row ep) as Hu.
  { intros row. apply unprotected_miss. intros E. by rewrite E in He. }
  constructor; [done|done| | |by rewrite activations_miss].
  - intros row n Hn. rewrite Hu. by apply Hi.
  - intros row Hn. rewrite Hu. by apply Ho.
Qed.

(** The three ways the table absorbs an activation of [row]. *)
Lemma bank_ok_evict k b t spill ep e row old :
  opened g e = Some (b, row) -> protects V e = false -> t !! row = None -> t !! old = Some spill ->
  bank_ok k b t spill ep -> bank_ok k b (<[row := spill + 1]> (delete old t)) spill (e :: ep).
Proof.
  intros He Hs2 Hrow Hold [Hs Hk Hi Ho Ht]. assert (row <> old) by congruence.
  assert (forall r, r <> row -> unprotected g V b r (e :: ep) = unprotected g V b r ep) as Hu
    by (intros r Hr; apply unprotected_miss; congruence).
  assert (unprotected g V b row (e :: ep) = 1 + unprotected g V b row ep) as Hur
    by (cbn; rewrite decide_True, Hs2 by done; done).
  constructor; [done| | | |].
  - rewrite map_size_insert_None by (by rewrite lookup_delete_ne).
    pose proof (map_size_delete_Some old t (mk_is_Some _ _ Hold)).
    assert (size t <> 0%nat) by (intros E; apply map_size_empty_inv in E; subst t; done). lia.
  - intros r n Hn. destruct (decide (r = row)) as [->|Hr].
    + rewrite lookup_insert_eq in Hn. injection Hn as <-. pose proof (Ho row Hrow). rewrite Hur. lia.
    + rewrite lookup_insert_ne in Hn by done. rewrite Hu by done. apply Hi.
      by apply lookup_delete_Some in Hn as [_ ?].
  - intros r Hr. apply lookup_insert_None in Hr as [Hr Hne]. rewrite Hu by done.
    destruct (decide (r = old)) as [->|Ho']; [by apply (Hi old spill)|].
    apply Ho. by rewrite lookup_delete_ne in Hr.
  - rewrite (activations_hit _ _ _ _ _ He), total_insert by (by rewrite lookup_delete_ne).
    rewrite (total_delete t old spill) by done. lia.
Qed.

Lemma bank_ok_spill k b t spill ep e row :
  opened g e = Some (b, row) -> protects V e = false -> t !! row = None ->
  (forall r n, t !! r = Some n -> n <> spill) ->
  bank_ok k b t spill ep -> bank_ok k b t (spill + 1) (e :: ep).
Proof.
  intros He Hs2 Hrow Hno [Hs Hk Hi Ho Ht].
  assert (unprotected g V b row (e :: ep) = 1 + unprotected g V b row ep) as Hur
    by (cbn; rewrite decide_True, Hs2 by done; done).
  constructor; [lia|done| | |].
  - intros r n Hn. rewrite unprotected_miss by congruence.
    destruct (Hi r n Hn) as (? & ? & ?). pose proof (Hno r n Hn). lia.
  - intros r Hr. pose proof (Ho r Hr). destruct (decide (r = row)) as [->|Hne]; [lia|].
    rewrite unprotected_miss by congruence. lia.
  - rewrite (activations_hit _ _ _ _ _ He). lia.
Qed.

Lemma bank_ok_count k b t spill ep e row n m :
  opened g e = Some (b, row) -> t !! row = Some n ->
  (protects V e = false /\ m = n + 1 /\ m < T) \/ (protects V e = true /\ m = spill) ->
  bank_ok k b t spill ep -> bank_ok k b (<[row := m]> t) spill (e :: ep).
Proof.
  intros He Hrow Hm [Hs Hk Hi Ho Ht]. destruct (Hi row n Hrow) as (Hn1 & Hn2 & Hn3).
  assert (unprotected g V b row (e :: ep) <= m) as Hur.
  { cbn. rewrite decide_True by done. destruct Hm as [(-> & -> & _)|[-> ->]]; lia. }
  constructor; [done| | | |].
  - by rewrite (map_size_insert_Some row m t) by (by exists n).
  - intros r x Hx. destruct (decide (r = row)) as [->|Hr].
    + rewrite lookup_insert_eq in Hx. injection Hx as <-. lia.
    + rewrite lookup_insert_ne in Hx by done. rewrite unprotected_miss by congruence. by apply Hi.
  - intros r Hr. apply lookup_insert_None in Hr as [Hr Hne]. rewrite unprotected_miss by congruence. by apply Ho.
  - rewrite (activations_hit _ _ _ _ _ He), (total_update t row n) by done. lia.
Qed.

Lemma find_spill_Some spill t old v : Graphene.find_spill spill t = Some (old, v) -> v = spill /\ t !! old = Some spill.
Proof.
  unfold Graphene.find_spill. intros [Hin Hv%Z.eqb_eq]%find_some. cbn in Hv. subst v. split; [done|].
  by apply iter_order_elem, list_elem_of_In.
Qed.

Lemma find_spill_None spill t : Graphene.find_spill spill t = None -> forall r n, t !! r = Some n -> n <> spill.
Proof.
  unfold Graphene.find_spill. intros H r n Hr ->. apply iter_order_elem, list_elem_of_In in Hr.
  eapply find_none in H; [|exact Hr]. cbn in H. by rewrite Z.eqb_refl in H.
Qed.

(** ** The invariant of the plugin *)
Record inv (k : Z) (s : Graphene.State) (ep : list Event) : Prop := {
  iv_length : length (Graphene.m_spillover_counter s) = length (Graphene.m_activation_count_table s);
  iv_banks : forall b t spill, Graphene.m_activation_count_table s !! b = Some t ->
    Graphene.m_spillover_counter s !! b = Some spill -> bank_ok k (Z.of_nat b) t spill ep;
}.

(** The updates since the last reset. *)
Inductive run (s0 : Graphene.State) : Graphene.State -> list Event -> Prop :=
| run_start : run s0 s0 []
| run_update s ep found sent s' :
    run s0 s ep -> outcome (Graphene.update p found s) sent s' ->
    run s0 s' ((found, sent) ::
               if Z.rem (Graphene.m_clk s') (Graphene.m_reset_period_clk p) =? 0 then [] else ep).

Lemma tick_inv k s ep s' :
  inv k s ep -> Graphene.tick p s = Ok s' ->
  inv k s' (if Z.rem (Graphene.m_clk s') (Graphene.m_reset_period_clk p) =? 0 then [] else ep).
Proof.
  intros [Hl Hb] H. unfold Graphene.tick in H. destruct (_ <=? _); [done|]. destruct (_ =? 0); [done|].
  destruct (Z.rem _ _ =? 0) eqn:E; injection H as <-; cbn [Graphene.m_clk]; rewrite E; [|by split].
  split; cbn [Graphene.m_spillover_counter Graphene.m_activation_count_table]; [by rewrite !length_fmap|].
  intros b t spill Ht Hs.
  rewrite list_lookup_fmap in Ht. rewrite list_lookup_fmap in Hs. destruct (Graphene.m_activation_count_table s !! b) as [t0|] eqn:Et; [|done].
  destruct (Graphene.m_spillover_counter s !! b) as [s1|] eqn:Es; [|done]. injection Ht as <-. injection Hs as <-.
  destruct (Hb b t0 s1 Et Es) as [_ Hk _ _ _].
  constructor; cbn; [done| | |done|by rewrite total_zero].
  - by rewrite map_size_fmap.
  - intros row n Hn. rewrite lookup_fmap in Hn. destruct (t0 !! row); [|done]. injection Hn as <-. lia.
Qed.

(** An activation of bank [b0] with the new table and counter of that bank. *)
Lemma inv_put k s ep e b0 row t spill t' spill' ts sps :
  inv k s ep -> opened g e = Some (b0, row) -> 0 <= b0 ->
  Graphene.m_activation_count_table s !! Z.to_nat b0 = Some t ->
  Graphene.m_spillover_counter s !! Z.to_nat b0 = Some spill ->
  (bank_ok k b0 t spill ep -> bank_ok k b0 t' spill' (e :: ep)) ->
  ts = <[Z.to_nat b0 := t']> (Graphene.m_activation_count_table s) ->
  sps = <[Z.to_nat b0 := spill']> (Graphene.m_spillover_counter s) ->
  inv k (Graphene.mkState (Graphene.m_clk s) ts sps) (e :: ep).
Proof.
  intros [Hl Hb] He H0 Ht Hs Hok -> ->. split; cbn; [by rewrite !length_insert|]. intros b x y Hx Hy.
  destruct (decide (b = Z.to_nat b0)) as [->|Hne].
  - rewrite list_lookup_insert_eq in Hx by (by eapply lookup_lt_Some). injection Hx as <-.
    rewrite list_lookup_insert_eq in Hy by (by eapply lookup_lt_Some). injection Hy as <-.
    rewrite Z2Nat.id by done. apply Hok. specialize (Hb _ _ _ Ht Hs). by rewrite Z2Nat.id in Hb.
  - rewrite list_lookup_insert_ne in Hx by done. rewrite list_lookup_insert_ne in Hy by done. apply bank_ok_miss; [|by apply Hb].
    rewrite He. cbn. intros [= E]. lia.
Qed.

Lemma activate_inv k s ep r o s' :
  inv k s ep -> is_row_open (g_row_level g) r = Ok true -> Graphene.activate p r s = Ok (o, s') ->
  inv k s' ((Some r, option_list o) :: ep).
Proof.
  intros Hi Hact H. unfold Graphene.activate in H. apply bind_Ok in H as (b & Hb & H).
  apply bind_Ok in H as (row & Hrow & H). apply bind_Ok in H as (t & [H0 Ht]%vget_Ok & H).
  apply bind_Ok in H as (spill & [_ Hs]%vget_Ok & H). cbv zeta in H.
  assert (forall l, opened g (Some r, l) = Some (b, row)) as He by (intros l; unfold opened; cbn; by rewrite Hact, Hb, Hrow).
  assert (<[Z.to_nat b := spill]> (Graphene.m_spillover_counter s) = Graphene.m_spillover_counter s) as Hsp
    by (by apply list_insert_id).
  destruct (t !! row) as [n|] eqn:En.
  - destruct (Z.leb_spec T (n + 1)); apply bind_Ok in H as (ts & [_ ->]%vset_Ok & H); injection H as <- <-.
    + eapply inv_put; try done. apply (bank_ok_count _ _ _ _ _ _ _ n); [apply He|done|right; by rewrite protects_vrr].
    + eapply inv_put; try done. apply (bank_ok_count _ _ _ _ _ _ _ n); [apply He|done|left; by rewrite protects_none].
  - destruct (Graphene.find_spill spill t) as [[old v]|] eqn:Ef.
    + apply find_spill_Some in Ef as [-> Hold]. apply bind_Ok in H as (ts & [_ ->]%vset_Ok & H). injection H as <- <-.
      eapply inv_put; try done. by apply bank_ok_evict; [apply He|apply protects_none|..].
    + apply bind_Ok in H as (sp & [_ ->]%vset_Ok & H). injection H as <- <-.
      eapply (inv_put k s ep _ b row t spill t (spill + 1)); try done.
      * apply (bank_ok_spill _ _ _ _ _ _ row); [apply He|apply protects_none|done|by apply find_spill_None].
      * symmetry. by apply list_insert_id.
Qed.

Lemma inv_miss k s ep e : opened g e = None -> inv k s ep -> inv k s (e :: ep).
Proof. intros He [Hl Hb]. split; [done|]. intros. apply bank_ok_miss; [by rewrite He|by apply Hb]. Qed.

Lemma update_inv k s ep found sent s' :
  inv k s ep -> outcome (Graphene.update p found s) sent s' ->
  inv k s' ((found, sent) ::
            if Z.rem (Graphene.m_clk s') (Graphene.m_reset_period_clk p) =? 0 then [] else ep).
Proof.
  intros Hi (o & H & ->)%outcome_send_if. unfold Graphene.step in H.
  apply bind_Ok in H as (s1 & H1 & H). apply (tick_inv k s ep) in H1; [|done].
  destruct found as [r|]; [|injection H as <- <-; by apply inv_miss].
  apply bind_Ok in H as (act & Ha & H). destruct act.
  - assert (Graphene.m_clk s' = Graphene.m_clk s1) as ->.
    { unfold Graphene.activate in H. cbv zeta in H. res_inv.
      destruct (_ !! _); [destruct (_ <=? _)|destruct (Graphene.find_spill _ _) as [[]|]]; res_inv; by subst. }
    eapply activate_inv; [exact H1|exact Ha|exact H].
  - injection H as <- <-. apply inv_miss; [|done]. unfold opened. cbn. by rewrite Ha.
Qed.

Lemma run_inv k s0 s ep : inv k s0 [] -> run s0 s ep -> inv k s ep.
Proof. intros H0. induction 1 as [|s ep found sent s' _ IH Ho]; [done|]. by eapply update_inv. Qed.
End Guarantee.

(** ** Start-up *)
Lemma initial_table_spec entries rows :
  0 <= entries -> Z.of_nat (size (Graphene.initial_table entries rows)) = entries /\
  (forall k n, Graphene.initial_table entries rows !! k = Some n -> n = 0) /\
  total (Graphene.initial_table entries rows) = 0.
Proof.
  intros He. unfold Graphene.initial_table. set (l := _ <$> _).
  assert (forall k n, (list_to_map l : gmap Z Z) !! k = Some n -> n = 0) as Hz.
  { intros k n H%elem_of_list_to_map_2. unfold l in H. apply list_elem_of_fmap in H as (j & [= -> ->] & _). done. }
  assert (l.*1 = seqZ (- rows) entries) as Hl.
  { unfold l. rewrite <- list_fmap_compose. apply list_fmap_id. }
  split; [|split; [done|]].
  - rewrite map_size_list_to_map by (rewrite Hl; apply NoDup_seqZ).
    unfold l. rewrite length_fmap, length_seqZ. lia.
  - replace (list_to_map l : gmap Z Z) with ((fun _ : Z => 0) <$> (list_to_map l : gmap Z Z)); [apply total_zero|].
    apply map_eq. intros i. rewrite lookup_fmap. destruct (_ !! i) eqn:E; cbn; [|done]. by rewrite (Hz i z E).
Qed.

Lemma setup_inv `{D : IDRAM} `{IO : !IterOrder} entries threshold ns p s0 :
  Graphene.setup entries threshold ns = Ok (p, s0) -> 0 <= entries ->
  inv p entries s0 [] /\ Graphene.m_activation_threshold p = threshold.
Proof.
  intros H He. unfold Graphene.setup in H. apply bind_Ok in H as (id & _ & H).
  apply bind_Ok in H as (tck & _ & H). apply bind_Ok in H as (per & _ & H). apply bind_Ok in H as (g & _ & H).
  injection H as <- <-. split; [|done]. split; cbn; [by rewrite !length_replicate|].
  intros b t spill [-> _]%lookup_replicate [-> _]%lookup_replicate.
  destruct (initial_table_spec entries (g_num_rows_per_bank g) He) as (Hk & Hz & Ht).
  constructor; cbn; [done|done| |done|by rewrite Ht].
  intros row n Hn. rewrite (Hz _ _ Hn). lia.
Qed.

(** ** Property *)

(** Property C11.  The guarantee of Graphene, for every iteration order of the
    table: since the last reset, no row has been opened
    [m_activation_threshold] times without the victim-row refresh of that very
    row being requested, provided that its bank has seen fewer than
    [(entries + 1) * (threshold - 1)] activations. *)
Theorem graphene_bounds_activations `{D : IDRAM} `{IO : !IterOrder} entries threshold ns p s0 s ep b row :
  Graphene.setup entries threshold ns = Ok (p, s0) -> 0 <= entries -> run p s0 s ep ->
  0 <= b < Z.of_nat (length (Graphene.m_activation_count_table s)) ->
  activations (Graphene.m_geo p) b ep < (entries + 1) * (threshold - 1) ->
  unprotected (Graphene.m_geo p) (Graphene.m_VRR_req_id p) b row ep < threshold.
Proof.
  intros Hs He Hr Hb Hacts. destruct (setup_inv _ _ _ _ _ Hs He) as [H0 HT].
  apply (run_inv p entries s0) in Hr as [Hl Hbanks]; [|done].
  destruct (lookup_lt_is_Some_2 (Graphene.m_activation_count_table s) (Z.to_nat b)) as [t Ht]; [lia|].
  destruct (lookup_lt_is_Some_2 (Graphene.m_spillover_counter s) (Z.to_nat b)) as [sp Hsp]; [lia|].
  destruct (Hbanks _ _ _ Ht Hsp) as [Hpos Hk Hin Hout Htot]. rewrite Z2Nat.id in Hin, Hout, Htot by lia.
  assert (Z.of_nat (size t) * sp <= total t) by (apply total_ge; intros r n Hn; apply (Hin r n Hn)).
  assert (sp < threshold - 1) as Hlt by nia.
  destruct (t !! row) as [n|] eqn:En.
  - destruct (Hin row n En) as (_ & ? & ?). lia.
  - specialize (Hout row En). lia.
Qed.

(** ** An example: threshold 3 and a table of two rows *)
#[local] Instance graphene_dram : IDRAM := vrr_dram.

Definition demo : Graphene.Config * Graphene.State :=
  from_res (Graphene.mkConfig 0 0 0 0 (mkGeometry 0 0 0 0 0 0), Graphene.mkState 0 [] [])
    (Graphene.setup 2 3 64000000).

Lemma demo_setup : Graphene.setup 2 3 64000000 = Ok (demo.1, demo.2).
Proof. rewrite <- surjective_pairing. apply from_res_Ok. vm_compute. reflexivity. Qed.

(** Concrete runs. *)
Fixpoint replay_epoch (p : Graphene.Config) (fs : list (option Request)) (x : Graphene.State * list Event)
    : res (Graphene.State * list Event) :=
  match fs with
  | [] => Ok x
  | f :: fs =>
      '(o, s) ← Graphene.step p f x.1;
      replay_epoch p fs (s, (f, option_list o) ::
        if Z.rem (Graphene.m_clk s) (Graphene.m_reset_period_clk p) =? 0 then [] else x.2)
  end.

Lemma replay_run p s0 fs s ep s' ep' :
  run p s0 s ep -> replay_epoch p fs (s, ep) = Ok (s', ep') -> run p s0 s' ep'.
Proof.
  revert s ep. induction fs as [|f fs IH]; cbn [replay_epoch]; intros s ep Hr H; [by injection H as <- <-|].
  apply bind_Ok in H as ([o s1] & H1 & H). eapply IH; [|exact H].
  apply (run_update _ _ _ _ _ _ _ Hr), outcome_of_step, H1.
Qed.

Lemma demo_events : events_of (replay_epoch demo.1 hammer (demo.2, [])) = Some hammer_events.
Proof. vm_compute. reflexivity. Qed.

Lemma graphene_bounds_activations_witness :
  activations (Graphene.m_geo demo.1) 0 hammer_events = 5 /\
  unprotected (Graphene.m_geo demo.1) (Graphene.m_VRR_req_id demo.1) 0 7 hammer_events = 1 /\
  unprotected (Graphene.m_geo demo.1) (Graphene.m_VRR_req_id demo.1) 0 7 hammer_events < 3.
Proof.
  assert (activations (Graphene.m_geo demo.1) 0 hammer_events = 5) as Ha by (vm_compute; reflexivity).
  split; [exact Ha|]. split; [vm_compute; reflexivity|].
  destruct (events_of_Ok _ _ demo_events) as [s Hs].
  assert (match replay_epoch demo.1 hammer (demo.2, []) with
          | Ok (s, _) => Z.of_nat (length (Graphene.m_activation_count_table s))
          | Err _ => 0 end = 16) as Hl by (vm_compute; reflexivity).
  rewrite Hs in Hl.
  apply (graphene_bounds_activations 2 3 64000000 demo.1 demo.2 s hammer_events 0 7 demo_setup).
  - lia.
  - exact (replay_run _ _ _ _ _ _ _ (run_start _ _) Hs).
  - rewrite Hl. lia.
  - rewrite Ha. lia.
Defined.
