(* ===== verification/Prac.v ===== *)
(** * Per-row activation counting: [dram_controller/impl/plugin/prac]

    [device_config.cpp], [prac.h] and [prac.cpp]: the counters of each bank, the
    alert back-off (ABO) state machine and the cycles a command needs before a
    recovery; and the scheduler [impl/scheduler/prac_scheduler.cpp] that uses
    them. *)
From Stdlib Require Import String.
From S2P Require Import Prelude CxxFloat DramSpec Request Dram Plugin Rit Scheduler Graphene.
Local Open Scope string_scope.
Local Open Scope Z_scope.

(** ** [DeviceConfig] *)
Module DeviceConfig.
Section DeviceConfig.
Context `{D : IDRAM}.

Record t : Type := mk {
  m_rank_level : Z; m_bank_level : Z; m_bankgroup_level : Z; m_row_level : Z; m_col_level : Z;
  m_num_ranks : Z; m_num_bankgroups : Z; m_num_banks_per_bankgroup : Z; m_num_banks_per_rank : Z;
  m_num_rows_per_bank : Z; m_num_cls : Z; m_num_banks : Z;
}.

Definition set_device : res t :=
  rank ← def_of_name dram_levels "rank";
  bank ← def_of_name dram_levels "bank";
  bankgroup ← def_of_name dram_levels "bankgroup";
  row ← def_of_name dram_levels "row";
  col ← def_of_name dram_levels "column";
  nr ← get_level_size "rank";
  nbg ← get_level_size "bankgroup";
  nb ← get_level_size "bank";
  nrow ← get_level_size "row";
  ncol ← get_level_size "column";
  let per_rank := if nbg <? 0 then nb else nbg * nb in
  Ok (mk rank bank bankgroup row col nr nbg (if nbg <? 0 then 0 else nb) per_rank nrow
        (Z.quot ncol 8) (nr * per_rank)).

Definition get_flat_bank_id (g : t) (r : Request) : res Z :=
  flat_bank_id dram_count (m_rank_level g) (m_bank_level g) (addr_vec r).
End DeviceConfig.
End DeviceConfig.

Module PRAC.
Inductive ABOState : Type := NORMAL | PRE_RECOVERY | RECOVERY | DELAY.

#[global] Instance ABOState_eq_dec : EqDecision ABOState.
Proof. solve_decision. Defined.

(** [std::numeric_limits<Clk_t>::max()] *)
Definition CLK_MAX : Z := 2 ^ 63 - 1.

(** ** [PerBankCounters] *)
Record Bank : Type := mkBank { m_counters : gmap Z Z; m_critical_rows : gmap Z Z }.

Definition is_critical (b : Bank) : bool := negb (Nat.eqb (size (m_critical_rows b)) 0).

(** The counter is a [uint32_t]; the [int] threshold is converted for the comparison. *)
Definition process_act (thresh row : Z) (b : Bank) : bool * Bank :=
  let n := u32 (default 0 (m_counters b !! row) + 1) in
  let counters := <[row := n]> (m_counters b) in
  if u32 thresh <=? n then (true, mkBank counters (<[row := n]> (m_critical_rows b)))
  else (false, mkBank counters (m_critical_rows b)).

(** [std::max_element]: the first of the largest. *)
Fixpoint max_element (best : Z * Z) (l : list (Z * Z)) : Z * Z :=
  match l with
  | [] => best
  | x :: l => max_element (if best.2 <? x.2 then x else best) l
  end.

Definition process_rfm `{!IterOrder} (b : Bank) : Bank :=
  match iter_order (m_counters b) with
  | [] => b
  | x :: l =>
      let row := (max_element x l).1 in
      mkBank (<[row := 0]> (m_counters b)) (delete row (m_critical_rows b))
  end.

(** ** The plugin *)
Record Config : Type := mkConfig {
  m_cfg : DeviceConfig.t;
  m_abo_recovery_refs : Z;
  m_abo_delay_acts : Z;
  m_abo_thresh : Z;
  m_abo_act_cycles : Z;
  cmd_act : Z; cmd_rfmab : Z; cmd_rfmsb : Z;
  cmd_to_min_cycles : gmap Z Z;
}.

Record State : Type := mkState {
  m_bank_counters : list Bank;
  m_clk : Z;
  m_state : ABOState;
  m_abo_recovery_start : Z;
  m_abo_recov_rem_refs : Z;
  m_abo_delay_rem_acts : Z;
  m_is_abo_needed : bool;
  s_num_recovery : Z;
}.

Section PRAC.
Context `{D : IDRAM} `{!IterOrder}.

(** [IPRAC::init_dram_params] *)
Definition init_dram_params : res (gmap Z Z) :=
  cwl ← dram_timing "nCWL"; bl ← dram_timing "nBL"; wr ← dram_timing "nWR";
  ras ← dram_timing "nRAS"; rtp ← dram_timing "nRTP"; rp ← dram_timing "nRP";
  let write_to_pre := cwl + bl + wr in
  act ← def_of_name dram_commands "ACT"; rd ← def_of_name dram_commands "RD";
  wrc ← def_of_name dram_commands "WR";
  rfmsb ← def_of_name dram_commands "RFMsb"; nrfmsb ← dram_timing "nRFMsb";
  rfmab ← def_of_name dram_commands "RFMab"; nrfm1 ← dram_timing "nRFM1";
  refsb ← def_of_name dram_commands "REFsb"; nrfcsb ← dram_timing "nRFCsb";
  refab ← def_of_name dram_commands "REFab"; nrfc1 ← dram_timing "nRFC1";
  Ok (<[refab := nrfc1]> (<[refsb := nrfcsb]> (<[rfmab := nrfm1]> (<[rfmsb := nrfmsb]>
       (<[wrc := write_to_pre + rp]> (<[rd := rtp + rp]> (<[act := ras + write_to_pre + rp]> ∅))))))).

Definition min_cycles_with_preall (p : Config) (r : Request) : Z :=
  default 0 (cmd_to_min_cycles p !! command r).

(** A bank has handlers for ACT, RFMab and RFMsb; the plugin exits without them. *)
Definition setup (refs acts act_ns thresh : Z) : res (Config * State) :=
  g ← DeviceConfig.set_device;
  mins ← init_dram_params;
  tCK ← dram_timing "tCK_ps";
  cycles ← Graphene.reset_period_clk act_ns tCK;
  act ← def_of_name dram_commands "ACT";
  rfmab ← def_of_name dram_commands "RFMab";
  rfmsb ← def_of_name dram_commands "RFMsb";
  Ok (mkConfig g refs acts thresh cycles act rfmab rfmsb mins,
      mkState (replicate (Z.to_nat (DeviceConfig.m_num_banks g)) (mkBank ∅ ∅)) 0 NORMAL CLK_MAX
        (2 ^ 32 - 1) (2 ^ 32 - 1) false 0).

Definition set_machine (st : ABOState) (start refs acts : Z) (need : bool) (recs : Z) (s : State) : State :=
  mkState (m_bank_counters s) (m_clk s) st start refs acts need recs.

Definition update_state_machine (p : Config) (found : option Request) (s : State) : State :=
  let issued c := match found with Some r => command r =? c | None => false end in
  match m_state s with
  | NORMAL =>
      if m_is_abo_needed s then
        set_machine PRE_RECOVERY (m_clk s + m_abo_act_cycles p) (m_abo_recov_rem_refs s)
          (m_abo_delay_rem_acts s) (m_is_abo_needed s) (u64 (s_num_recovery s + 1)) s
      else s
  | PRE_RECOVERY =>
      if m_clk s =? m_abo_recovery_start s then
        set_machine RECOVERY CLK_MAX (u32 (m_abo_recovery_refs p * DeviceConfig.m_num_ranks (m_cfg p)))
          (m_abo_delay_rem_acts s) (m_is_abo_needed s) (s_num_recovery s) s
      else s
  | RECOVERY =>
      if issued (cmd_rfmab p) || issued (cmd_rfmsb p) then
        let refs := u32 (m_abo_recov_rem_refs s - 1) in
        if refs =? 0 then
          set_machine DELAY (m_abo_recovery_start s) refs (u32 (m_abo_delay_acts p))
            (m_is_abo_needed s) (s_num_recovery s) s
        else set_machine RECOVERY (m_abo_recovery_start s) refs (m_abo_delay_rem_acts s)
               (m_is_abo_needed s) (s_num_recovery s) s
      else s
  | DELAY =>
      if issued (cmd_act p) then
        let acts := u32 (m_abo_delay_rem_acts s - 1) in
        if acts =? 0 then
          set_machine NORMAL (m_abo_recovery_start s) (m_abo_recov_rem_refs s) acts
            (existsb is_critical (m_bank_counters s)) (s_num_recovery s) s
        else set_machine DELAY (m_abo_recovery_start s) (m_abo_recov_rem_refs s) acts
               (m_is_abo_needed s) (s_num_recovery s) s
      else s
  end.

(** [on_request] of one bank: a handler may raise the alert. *)
Definition on_request (p : Config) (r : Request) (b : Bank) : res (bool * Bank) :=
  if command r =? cmd_act p then
    row ← vget (addr_vec r) (DeviceConfig.m_row_level (m_cfg p));
    Ok (process_act (m_abo_thresh p) row b)
  else if (command r =? cmd_rfmab p) || (command r =? cmd_rfmsb p) then Ok (false, process_rfm b)
  else Ok (false, b).

Fixpoint on_banks (p : Config) (r : Request) (ids : list Z) (need : bool) (banks : list Bank)
    : res (bool * list Bank) :=
  match ids with
  | [] => Ok (need, banks)
  | i :: ids =>
      b ← vget banks i;
      '(alert, b) ← on_request p r b;
      banks ← vset banks i b;
      on_banks p r ids (need || alert) banks
  end.

(** The banks a request addresses, wildcards of bank group and bank included. *)
Definition target_banks (g : DeviceConfig.t) (r : Request) : res (list Z) :=
  bank ← vget (addr_vec r) (DeviceConfig.m_bank_level g);
  bg ← vget (addr_vec r) (DeviceConfig.m_bankgroup_level g);
  if (bg =? -1) && (bank =? -1) then
    rank ← vget (addr_vec r) (DeviceConfig.m_rank_level g);
    Ok ((fun i => rank * DeviceConfig.m_num_banks_per_rank g + i) <$> seqZ 0 (DeviceConfig.m_num_banks_per_rank g))
  else if bg =? -1 then
    rank ← vget (addr_vec r) (DeviceConfig.m_rank_level g);
    Ok ((fun i => rank * DeviceConfig.m_num_banks_per_rank g + i * DeviceConfig.m_num_banks_per_bankgroup g + bank)
          <$> seqZ 0 (DeviceConfig.m_num_bankgroups g))
  else if bank =? -1 then
    rank ← vget (addr_vec r) (DeviceConfig.m_rank_level g);
    Ok ((fun i => rank * DeviceConfig.m_num_banks_per_rank g + bg * DeviceConfig.m_num_banks_per_bankgroup g + i)
          <$> seqZ 0 (DeviceConfig.m_num_banks_per_bankgroup g))
  else
    b ← DeviceConfig.get_flat_bank_id g r; Ok [b].

Definition next_clk (s : State) : State :=
  mkState (m_bank_counters s) (m_clk s + 1) (m_state s) (m_abo_recovery_start s) (m_abo_recov_rem_refs s)
    (m_abo_delay_rem_acts s) (m_is_abo_needed s) (s_num_recovery s).

Definition count_request (p : Config) (r : Request) (s : State) : res State :=
  _ ← lut_get dram_command_meta (command r);
  _ ← lut_get dram_command_scopes (command r);
  ids ← target_banks (m_cfg p) r;
  '(need, banks) ← on_banks p r ids (m_is_abo_needed s) (m_bank_counters s);
  Ok (mkState banks (m_clk s) (m_state s) (m_abo_recovery_start s) (m_abo_recov_rem_refs s)
        (m_abo_delay_rem_acts s) need (s_num_recovery s)).

Definition step (p : Config) (found : option Request) (s : State) : res State :=
  let s := update_state_machine p found (next_clk s) in
  match found with
  | None => Ok s
  | Some r => count_request p r s
  end.

Definition update (p : Config) (found : option Request) (s : State) : Act State := Done (step p found s).

#[refine] Definition plugin (p : Config) (s : State) : Plugin :=
  {| pl_update := update p; pl_current := s |}.
Proof. done. Defined.

(** The accessors of [IPRAC]. *)
Definition next_recovery_cycle (s : State) : Z := m_abo_recovery_start s.
Definition get_num_abo_recovery_refs (p : Config) : Z := m_abo_recovery_refs p.
Definition get_state (s : State) : ABOState := m_state s.
End PRAC.
End PRAC.
