(* ===== verification/PracFacts.v ===== *)
(** * The alert back-off protocol of PRAC

    The state machine of the plugin implements the four phases of the protocol,
    and no row reaches the threshold without the alert being raised. *)
From Stdlib Require Import String.
From S2P Require Import Prelude DramSpec Request Device DeviceFacts DDR5 StandardsFacts Dram Plugin Scheduler Graphene Prac.
Local Open Scope string_scope.
Local Open Scope Z_scope.
Import PRAC.

(** ** The protocol: countdowns in cycles, refreshes and activations *)
Inductive Phase : Type :=
| Quiet
| Alert (cycles : Z)
| Recover (refs : Z)
| Backoff (acts : Z).

Section Protocol.
Context (p : Config).

Definition recovery_refs : Z := m_abo_recovery_refs p * DeviceConfig.m_num_ranks (m_cfg p).

Definition is_rfm (c : option Z) : bool := bool_decide (c = Some (cmd_rfmab p) \/ c = Some (cmd_rfmsb p)).
Definition is_act (c : option Z) : bool := bool_decide (c = Some (cmd_act p)).

(** One controller cycle with the command it issues. *)
Definition phase_step (alert : bool) (c : option Z) (ph : Phase) : Phase :=
  match ph with
  | Quiet => if alert then Alert (m_abo_act_cycles p) else Quiet
  | Alert n => if n =? 1 then Recover recovery_refs else Alert (n - 1)
  | Recover n => if is_rfm c then if n =? 1 then Backoff (m_abo_delay_acts p) else Recover (n - 1) else Recover n
  | Backoff n => if is_act c then if n =? 1 then Quiet else Backoff (n - 1) else Backoff n
  end.

(** The countdowns are kept as a cycle to come and as unsigned members. *)
Inductive in_phase (s : State) : Phase -> Prop :=
| in_quiet : m_state s = NORMAL -> m_abo_recovery_start s = CLK_MAX -> in_phase s Quiet
| in_alert n : m_state s = PRE_RECOVERY -> m_abo_recovery_start s = m_clk s + n -> 0 < n -> in_phase s (Alert n)
| in_recover n : m_state s = RECOVERY -> m_abo_recovery_start s = CLK_MAX ->
    m_abo_recov_rem_refs s = n -> 0 < n < 2 ^ 32 -> in_phase s (Recover n)
| in_backoff n : m_state s = DELAY -> m_abo_recovery_start s = CLK_MAX ->
    m_abo_delay_rem_acts s = n -> 0 < n < 2 ^ 32 -> in_phase s (Backoff n).

(** The protocol makes sense: at least one cycle, refresh and activation. *)
Record config_ok : Prop := {
  ok_cycles : 0 < m_abo_act_cycles p;
  ok_refs : 0 < recovery_refs < 2 ^ 32;
  ok_acts : 0 < m_abo_delay_acts p < 2 ^ 32;
}.

Lemma u32_small x : 0 <= x < 2 ^ 32 -> u32 x = x.
Proof. apply Z.mod_small. Qed.

Lemma issued_is_rfm found :
  match found with Some r => command r =? cmd_rfmab p | None => false end
  || match found with Some r => command r =? cmd_rfmsb p | None => false end = is_rfm (command <$> found).
Proof.
  unfold is_rfm. destruct found as [r|]; cbn; symmetry; [|apply bool_decide_eq_false; intuition congruence].
  destruct (Z.eqb_spec (command r) (cmd_rfmab p)), (Z.eqb_spec (command r) (cmd_rfmsb p)); cbn;
    first [apply bool_decide_eq_true; intuition congruence|apply bool_decide_eq_false; intuition congruence].
Qed.

Lemma issued_is_act found :
  match found with Some r => command r =? cmd_act p | None => false end = is_act (command <$> found).
Proof.
  unfold is_act. destruct found as [r|]; cbn; symmetry; [|by apply bool_decide_eq_false].
  destruct (Z.eqb_spec (command r) (cmd_act p)); [apply bool_decide_eq_true|apply bool_decide_eq_false]; congruence.
Qed.

Lemma machine_step found s ph : config_ok -> in_phase s ph ->
  in_phase (update_state_machine p found (next_clk s)) (phase_step (m_is_abo_needed s) (command <$> found) ph).
Proof.
  intros [Hcy Hrf Hac] H. unfold update_state_machine. rewrite issued_is_rfm, issued_is_act.
  destruct H as [Hs Hr|n Hs Hr Hn|n Hs Hr Hm Hn|n Hs Hr Hm Hn]; cbn; rewrite Hs.
  - destruct (m_is_abo_needed s); [by constructor|by constructor].
  - rewrite Hr. destruct (Z.eqb_spec n 1) as [->|].
    + rewrite Z.eqb_refl. fold recovery_refs. rewrite u32_small by lia. by constructor.
    + rewrite (proj2 (Z.eqb_neq _ _)) by lia. constructor; cbn; [done|lia|lia].
  - rewrite Hm. destruct (is_rfm _); [|by constructor].
    rewrite u32_small by lia. destruct (Z.eqb_spec (n - 1) 0), (Z.eqb_spec n 1); try lia.
    + rewrite u32_small by lia. by constructor.
    + constructor; cbn; [done..|lia].
  - rewrite Hm. destruct (is_act _); [|by constructor].
    rewrite u32_small by lia. destruct (Z.eqb_spec (n - 1) 0), (Z.eqb_spec n 1); try lia.
    + by constructor.
    + constructor; cbn; [done..|lia].
Qed.

Context `{D : IDRAM} `{!IterOrder}.

Lemma count_request_machine r s s' ph : count_request p r s = Ok s' -> in_phase s ph -> in_phase s' ph.
Proof.
  unfold count_request. intros (m & _ & E)%bind_Ok. apply bind_Ok in E as (sc & _ & E).
  apply bind_Ok in E as (ids & _ & E). apply bind_Ok in E as ([need banks] & _ & E).
  injection E as <-. intros Hp. destruct Hp; by constructor.
Qed.

Lemma step_phase found s s' ph : config_ok -> in_phase s ph -> step p found s = Ok s' ->
  in_phase s' (phase_step (m_is_abo_needed s) (command <$> found) ph).
Proof.
  intros Hok Hp. unfold step. pose proof (machine_step found s ph Hok Hp) as Hm.
  destruct found as [r|]; [|by intros [= <-]]. intros Hc. by eapply count_request_machine.
Qed.
End Protocol.

(** ** Runs of the plugin *)
Section Runs.
Context `{D : IDRAM} `{!IterOrder}.

Fixpoint prac_run (p : Config) (fs : list (option Request)) (s : State) : res State :=
  match fs with
  | [] => Ok s
  | f :: fs => s ← step p f s; prac_run p fs s
  end.

(** The phases along a run; the alerts are those of the plugin. *)
Fixpoint phases (p : Config) (fs : list (option Request)) (s : State) (ph : Phase) : Phase :=
  match fs with
  | [] => ph
  | f :: fs =>
      match step p f s with
      | Ok s' => phases p fs s' (phase_step p (m_is_abo_needed s) (command <$> f) ph)
      | Err _ => ph
      end
  end.

(** Property C29.  The plugin implements the alert back-off protocol: from its set-up
    on, and whatever commands are issued, its state is the one of the protocol.  An
    alert is followed by exactly [m_abo_act_cycles] cycles before the recovery; the
    recovery ends with the last of [m_abo_recovery_refs] refresh-management
    commands per rank, and the next alert can only come [m_abo_delay_acts]
    activations later.  A recovery cycle is announced to the controller exactly
    while the alert phase lasts. *)
Theorem prac_refines_abo refs acts ns thresh p s0 fs s :
  setup refs acts ns thresh = Ok (p, s0) -> config_ok p ->
  prac_run p fs s0 = Ok s ->
  in_phase s (phases p fs s0 Quiet) /\
  (m_abo_recovery_start s <> CLK_MAX -> exists n, phases p fs s0 Quiet = Alert n /\
     next_recovery_cycle s = m_clk s + n).
Proof.
  intros Hsetup Hok Hrun. assert (in_phase s0 Quiet) as H0.
  { unfold setup in Hsetup. repeat (apply bind_Ok in Hsetup as (? & _ & Hsetup)).
    injection Hsetup as _ <-. by constructor. }
  clear Hsetup. assert (in_phase s (phases p fs s0 Quiet)) as Hp.
  { revert s0 Hrun H0. generalize Quiet. induction fs as [|f fs IH]; cbn; intros ph s0 Hrun H0; [by injection Hrun as <-|].
    apply bind_Ok in Hrun as (s1 & Hs & Hrun). rewrite Hs. apply IH; [done|]. by eapply step_phase. }
  split; [done|]. intros Hne. destruct Hp as [|n|n|n]; try done. by exists n.
Qed.
End Runs.

(** ** Counters and alerts *)

(** A row at the threshold is critical. *)
Definition bank_ok (thresh : Z) (b : Bank) : Prop :=
  forall row n, m_counters b !! row = Some n -> thresh <= n -> is_Some (m_critical_rows b !! row).

Lemma is_critical_true b row : is_Some (m_critical_rows b !! row) -> is_critical b = true.
Proof.
  intros [n Hn]. unfold is_critical. apply negb_true_iff, Nat.eqb_neq. intros Hz.
  apply map_size_empty_inv in Hz. by rewrite Hz, lookup_empty in Hn.
Qed.

Lemma process_act_ok thresh row b : 0 < thresh < 2 ^ 32 -> bank_ok thresh b ->
  bank_ok thresh (process_act thresh row b).2 /\
  (is_critical (process_act thresh row b).2 = true -> is_critical b = true \/ (process_act thresh row b).1 = true).
Proof.
  intros Ht Hb. unfold process_act. rewrite (u32_small thresh) by lia.
  destruct (Z.leb_spec thresh (u32 (default 0 (m_counters b !! row) + 1))) as [Hle|Hlt]; cbn; (split; [|by auto]);
    intros row' n; destruct (decide (row = row')) as [<-|Hne]; cbn;
    rewrite ?lookup_insert_eq, ?lookup_insert_ne by done; try apply Hb.
  - done.
  - intros [= <-]. lia.
Qed.

Lemma process_rfm_ok `{!IterOrder} thresh b : 0 < thresh -> bank_ok thresh b -> bank_ok thresh (process_rfm b).
Proof.
  intros Ht Hb. unfold process_rfm. destruct (iter_order (m_counters b)) as [|x l]; [done|].
  generalize (max_element x l).1. intros row row' n. cbn. destruct (decide (row = row')) as [<-|Hne].
  - rewrite lookup_insert_eq. intros [= <-]. lia.
  - rewrite lookup_insert_ne, lookup_delete_ne by done. apply Hb.
Qed.

Lemma process_rfm_critical `{!IterOrder} b : is_critical (process_rfm b) = true -> is_critical b = true.
Proof.
  unfold process_rfm. destruct (iter_order (m_counters b)) as [|x l]; [done|].
  unfold is_critical. cbn. rewrite !negb_true_iff, !Nat.eqb_neq. intros Hne Hz. apply Hne.
  apply map_size_empty_inv in Hz. by rewrite Hz, delete_empty, map_size_empty.
Qed.

Section Alerts.
Context `{D : IDRAM} `{!IterOrder}.
Context (p : Config) (Ht : 0 < m_abo_thresh p < 2 ^ 32).

(** Every row at the threshold is critical, and a critical row keeps the alert up. *)
Record alerts_ok (need : bool) (banks : list Bank) : Prop := {
  ao_banks : Forall (bank_ok (m_abo_thresh p)) banks;
  ao_need : existsb is_critical banks = true -> need = true;
}.

Lemma on_request_ok r b alert b' : on_request p r b = Ok (alert, b') -> bank_ok (m_abo_thresh p) b ->
  bank_ok (m_abo_thresh p) b' /\ (is_critical b' = true -> is_critical b = true \/ alert = true).
Proof.
  unfold on_request. destruct (command r =? cmd_act p).
  - intros (row & _ & E)%bind_Ok Hb. injection E as E. destruct (process_act_ok _ row b Ht Hb) as [H1 H2].
    rewrite E in H1, H2. done.
  - destruct (_ || _); intros [= <- <-] Hb; [|auto].
    split; [apply process_rfm_ok; [lia|done]|]. intros. left. by apply process_rfm_critical.
Qed.

Lemma existsb_insert (l : list Bank) i b b' need : l !! i = Some b ->
  (existsb is_critical l = true -> need = true) -> (is_critical b' = true -> is_critical b = true \/ need = true) ->
  existsb is_critical (<[i := b']> l) = true -> need = true.
Proof.
  intros Hi Hl Hb. rewrite !existsb_exists in *. intros (x & Hx & Hc). apply list_elem_of_In in Hx.
  apply list_elem_of_lookup in Hx as [j Hj]. apply list_lookup_insert_Some in Hj as [(<- & <- & _)|[_ Hj]].
  - destruct (Hb Hc) as [Hcb|]; [|done]. apply Hl. exists b. split; [|done].
    apply list_elem_of_In, list_elem_of_lookup. eauto.
  - apply Hl. exists x. split; [|done]. apply list_elem_of_In, list_elem_of_lookup. eauto.
Qed.

Lemma on_banks_ok r ids : forall need banks need' banks',
  on_banks p r ids need banks = Ok (need', banks') -> alerts_ok need banks -> alerts_ok need' banks'.
Proof.
  induction ids as [|i ids IH]; cbn; intros need banks need' banks' E [Hb Hn]; [by injection E as <- <-|].
  apply bind_Ok in E as (b & Hi & E). apply bind_Ok in E as ([alert b'] & Hr & E).
  apply bind_Ok in E as (banks1 & Hset & E). apply vget_Ok in Hi as [_ Hi]. apply vset_Ok in Hset as [_ ->].
  pose proof (proj1 (list.Forall_lookup _ _) Hb _ _ Hi) as Hbi. destruct (on_request_ok _ _ _ _ Hr Hbi) as [H1 H2].
  eapply IH; [exact E|]. constructor; [by apply list.Forall_insert|].
  intros Hc. apply orb_true_iff. destruct need; [by left|right].
  eapply (existsb_insert banks); [exact Hi| | |exact Hc].
  - intros Hx. by specialize (Hn Hx).
  - intros Hx. destruct (H2 Hx); auto.
Qed.

Definition state_ok (s : State) : Prop := alerts_ok (m_is_abo_needed s) (m_bank_counters s).

Lemma machine_ok found s : state_ok s -> state_ok (update_state_machine p found s).
Proof.
  intros [Hb Hn]. unfold update_state_machine.
  repeat case_match; constructor; cbn; try done; intros; try congruence; auto.
  match goal with H : existsb _ _ = true |- _ => discriminate (Hn H) end.
Qed.

Lemma step_ok found s s' : state_ok s -> step p found s = Ok s' -> state_ok s'.
Proof.
  intros Hs. unfold step. assert (state_ok (update_state_machine p found (next_clk s))) as H1.
  { apply machine_ok. destruct Hs. by constructor. }
  destruct found as [r|]; [|by intros [= <-]]. unfold count_request. generalize dependent (update_state_machine p (Some r) (next_clk s)).
  intros s1 H1 (m & _ & E)%bind_Ok. apply bind_Ok in E as (sc & _ & E). apply bind_Ok in E as (ids & _ & E).
  apply bind_Ok in E as ([need banks] & Eb & E). injection E as <-. by eapply on_banks_ok.
Qed.
End Alerts.

Lemma setup_Ok `{D : IDRAM} refs acts ns thresh p s0 : setup refs acts ns thresh = Ok (p, s0) ->
  m_abo_thresh p = thresh /\ exists n, m_bank_counters s0 = replicate n (mkBank ∅ ∅).
Proof.
  unfold setup. intros H. repeat (apply bind_Ok in H as (? & _ & H)). injection H as <- <-. cbn. eauto.
Qed.

Lemma run_state_ok `{D : IDRAM} `{!IterOrder} refs acts ns thresh p s0 fs s :
  setup refs acts ns thresh = Ok (p, s0) -> 0 < thresh < 2 ^ 32 -> prac_run p fs s0 = Ok s -> state_ok p s.
Proof.
  intros (Hth & n & Hn)%setup_Ok Ht. assert (state_ok p s0) as H0.
  { constructor; rewrite Hn.
    - apply Forall_replicate. intros row v Hv. cbn in Hv. by rewrite lookup_empty in Hv.
    - intros (x & Hx & Hc)%existsb_exists. apply list_elem_of_In, elem_of_replicate in Hx as [-> _]. by vm_compute in Hc. }
  clear Hn. revert s0 H0. induction fs as [|f fs IH]; cbn; intros s0 H0 E; [by injection E as <-|].
  apply bind_Ok in E as (s1 & Hs & E). eapply IH; [|exact E]. eapply step_ok; [by rewrite Hth| |]; done.
Qed.

(** Property C28.  No row is overlooked: in every state of every run, whatever commands
    were issued, a row whose counter has reached the threshold has the alert raised,
    and if the protocol is idle the very next cycle starts the alert phase. *)
Theorem prac_alert_complete `{D : IDRAM} `{!IterOrder} refs acts ns thresh p s0 fs s i b row n :
  setup refs acts ns thresh = Ok (p, s0) -> 0 < thresh < 2 ^ 32 -> prac_run p fs s0 = Ok s ->
  m_bank_counters s !! i = Some b -> m_counters b !! row = Some n -> thresh <= n ->
  m_is_abo_needed s = true /\
  (m_state s = NORMAL -> forall found s', step p found s = Ok s' ->
     m_state s' = PRE_RECOVERY /\ next_recovery_cycle s' = m_clk s + 1 + m_abo_act_cycles p).
Proof.
  intros Hsetup Ht Hrun Hi Hrow Hn. pose proof (run_state_ok _ _ _ _ _ _ _ _ Hsetup Ht Hrun) as [Hb Hneed].
  destruct (setup_Ok _ _ _ _ _ _ Hsetup) as [Hth _]. rewrite Hth in Hb.
  assert (m_is_abo_needed s = true) as Hal.
  { apply Hneed, existsb_exists. exists b. split; [apply list_elem_of_In, list_elem_of_lookup; eauto|].
    eapply is_critical_true. eapply (proj1 (list.Forall_lookup _ _) Hb); eauto. }
  split; [done|]. intros Hst found s'. unfold step, update_state_machine. cbn. rewrite Hst, Hal.
  destruct found as [r|]; [|by intros [= <-]]. unfold count_request.
  intros (m & _ & E)%bind_Ok. apply bind_Ok in E as (sc & _ & E). apply bind_Ok in E as (ids & _ & E).
  apply bind_Ok in E as ([need banks] & _ & E). by injection E as <-.
Qed.

(** ** What a refresh-management command resets *)
Lemma max_element_spec l : forall best,
  (max_element best l = best \/ max_element best l ∈ l) /\ best.2 <= (max_element best l).2 /\
  forall x, x ∈ l -> x.2 <= (max_element best l).2.
Proof.
  induction l as [|x l IH]; intros best; cbn.
  { split_and!; [by left|lia|]. intros x Hx. by apply not_elem_of_nil in Hx. }
  destruct (IH (if best.2 <? x.2 then x else best)) as (Hin & Hle & Hall).
  destruct (Z.ltb_spec best.2 x.2); (split_and!;
    [destruct Hin as [->|Hin]; [|right; by right]|lia|intros y [->|Hy]%elem_of_cons; [lia|auto]]).
  - right. by left.
  - by left.
Qed.

(** A refresh-management command resets, in each bank it reaches, a row
    with the largest counter and no other: whichever row the iteration order of the
    hash table picks among equals, no row of the bank was activated more often, the
    others keep their counters, and the reset row stops being critical. *)
Theorem prac_rfm_resets_largest `{!IterOrder} b row0 n0 :
  m_counters b !! row0 = Some n0 ->
  exists row n, m_counters b !! row = Some n /\
    (forall row' n', m_counters b !! row' = Some n' -> n' <= n) /\
    m_counters (process_rfm b) = <[row := 0]> (m_counters b) /\
    m_critical_rows (process_rfm b) = delete row (m_critical_rows b).
Proof.
  intros H0. unfold process_rfm. pose proof (fun k v => iter_order_elem (m_counters b) k v) as Hel.
  destruct (iter_order (m_counters b)) as [|x l] eqn:E.
  { apply Hel in H0. by apply not_elem_of_nil in H0. }
  destruct (max_element_spec l x) as (Hin & Hle & Hall). destruct (max_element x l) as [row n] eqn:Em.
  exists row, n. split; [|split; [|done]].
  - apply Hel. destruct Hin as [Hx|Hin]; [rewrite Hx; by left|by right].
  - intros row' n' Hn'%Hel. apply elem_of_cons in Hn' as [<-|Hn']; [exact Hle|exact (Hall _ Hn')].
Qed.

(** ** Witnesses: a DDR5 device with a threshold of two activations *)
Definition prac_dev : Dev.Device := (example (DDR5.std 2 2) "DDR5_16Gb_x8" "DDR5_3200AN").1.
Definition prac_dram : IDRAM := std_dram (DDR5.std 2 2) prac_dev.

Definition no_config : Config := mkConfig (DeviceConfig.mk 0 0 0 0 0 0 0 0 0 0 0 0) 0 0 0 0 0 0 0 ∅.
Definition no_state : State := mkState [] 0 NORMAL 0 0 0 false 0.

(** One refresh, one activation of delay and three cycles of warning. *)
Definition prac_demo : Config * State := from_res (no_config, no_state) (setup (D := prac_dram) 1 1 2 2).

Lemma prac_demo_setup : setup (D := prac_dram) 1 1 2 2 = Ok (prac_demo.1, prac_demo.2).
Proof. rewrite <- surjective_pairing. apply from_res_Ok. vm_compute. reflexivity. Qed.

Lemma prac_demo_ok : config_ok prac_demo.1.
Proof. constructor; vm_compute; done. Qed.

Definition prac_act (row : Z) : option Request :=
  Some (set_command (cmd_act prac_demo.1) (Request_vec_type [0; 0; 1; 1; row; 0] 0)).
Definition prac_rfm : option Request :=
  Some (set_command (cmd_rfmab prac_demo.1) (Request_vec_type [0; 0; -1; -1; 0; 0] 0)).

(** Row 7 is activated twice; the alert follows and, three cycles later, the recovery. *)
Definition hammer_cycles : list (option Request) := [prac_act 7; prac_act 7; None; None; None; None].

Lemma prac_refines_abo_witness : exists s,
  prac_run (D := prac_dram) prac_demo.1 hammer_cycles prac_demo.2 = Ok s /\ in_phase s (Recover 1) /\
  in_phase (from_res no_state (prac_run (D := prac_dram) prac_demo.1 (hammer_cycles ++ [prac_rfm; prac_act 3]) prac_demo.2)) Quiet.
Proof.
  destruct (prac_run (D := prac_dram) prac_demo.1 hammer_cycles prac_demo.2) as [s|] eqn:E;
    [|exfalso; assert (ok_b (prac_run (D := prac_dram) prac_demo.1 hammer_cycles prac_demo.2) = true) as Hk
        by (vm_compute; reflexivity); by rewrite E in Hk].
  exists s. split; [done|]. split.
  - destruct (prac_refines_abo (D := prac_dram) _ _ _ _ _ _ _ _ prac_demo_setup prac_demo_ok E) as [H _].
    assert (phases (D := prac_dram) prac_demo.1 hammer_cycles prac_demo.2 Quiet = Recover 1) as Hph
      by (vm_compute; reflexivity). by rewrite Hph in H.
  - set (fs := (hammer_cycles ++ [prac_rfm; prac_act 3])%list).
    assert (prac_run (D := prac_dram) prac_demo.1 fs prac_demo.2 =
            Ok (from_res no_state (prac_run (D := prac_dram) prac_demo.1 fs prac_demo.2))) as E2
      by (apply from_res_Ok; vm_compute; reflexivity).
    destruct (prac_refines_abo (D := prac_dram) _ _ _ _ _ _ _ _ prac_demo_setup prac_demo_ok E2) as [H _].
    assert (phases (D := prac_dram) prac_demo.1 fs prac_demo.2 Quiet = Quiet) as Hph
      by (vm_compute; reflexivity). by rewrite Hph in H.
Defined.

Definition hammered : State := from_res no_state (prac_run (D := prac_dram) prac_demo.1 [prac_act 7; prac_act 7] prac_demo.2).
Definition hammered_bank : Bank := default (mkBank ∅ ∅) (m_bank_counters hammered !! 5%nat).

Lemma prac_alert_complete_witness :
  m_counters hammered_bank !! 7 = Some 2 /\ m_is_abo_needed hammered = true.
Proof.
  assert (m_counters hammered_bank !! 7 = Some 2) as Hc by (vm_compute; reflexivity).
  split; [exact Hc|].
  refine (proj1 (prac_alert_complete (D := prac_dram) 1 1 2 2 prac_demo.1 prac_demo.2 [prac_act 7; prac_act 7] hammered
                   5 hammered_bank 7 2 prac_demo_setup _ _ _ Hc _)).
  - lia.
  - apply from_res_Ok. vm_compute. reflexivity.
  - assert (bool_decide (is_Some (m_bank_counters hammered !! 5%nat)) = true) as Hs by (vm_compute; reflexivity).
    apply bool_decide_eq_true in Hs as [b Hb]. unfold hammered_bank. by rewrite Hb.
  - lia.
Defined.

Lemma prac_rfm_resets_largest_witness : exists row n,
  m_counters hammered_bank !! row = Some n /\ 2 <= n /\
  m_counters (process_rfm hammered_bank) = <[row := 0]> (m_counters hammered_bank).
Proof.
  assert (m_counters hammered_bank !! 7 = Some 2) as Hc by (vm_compute; reflexivity).
  destruct (prac_rfm_resets_largest hammered_bank 7 2 Hc) as (row & n & Hrow & Hmax & Heq & _).
  exists row, n. split; [exact Hrow|]. split; [exact (Hmax _ _ Hc)|exact Heq].
Defined.
