(* ===== verification/Bliss.v ===== *)
(** * Schedulers of the BH controllers, and the BLISS plugin

    [impl/scheduler]: [bh_scheduler.cpp], [prac_scheduler.cpp],
    [bliss_scheduler.cpp]; and [impl/plugin/bliss/bliss.cpp], which blacklists a
    core that has too many requests served in a row.  The schedulers of PRAC and
    BLISS note two flags in the scratchpad of each request and choose by them. *)
From Stdlib Require Import String.
From S2P Require Import Prelude DramSpec Request Dram Plugin Scheduler Prac Device DeviceFacts.
From S2P Require Import DDR5 StandardsFacts PracFacts.
Local Open Scope string_scope.
Local Open Scope Z_scope.

(** ** Choice by flags *)

(** [bool x = req->scratchpad[i]], in an array of four. *)
Definition flag (i : nat) (r : Request) : bool := negb (nth i (scratchpad r) 0 =? 0).

Definition set_flag (i : nat) (b : bool) (r : Request) : Request :=
  set_scratchpad (<[i := if b then 1 else 0]> (scratchpad r)) r.

Definition compare_flags (req1 req2 : nat * Request) : nat * Request :=
  let first1 := flag 0 req1.2 in
  let first2 := flag 0 req2.2 in
  if xorb first1 first2 then if first1 then req1 else req2
  else
    let ready1 := flag 1 req1.2 in
    let ready2 := flag 1 req2.2 in
    if xorb ready1 ready2 then if ready1 then req1 else req2
    else if arrive req1.2 <=? arrive req2.2 then req1 else req2.

Fixpoint best_of (candidate : nat * Request) (next : nat) (l : list Request) : nat * Request :=
  match l with
  | [] => candidate
  | r :: l => best_of (compare_flags candidate (next, r)) (S next) l
  end.

Section Flags.
Context `{D : IDRAM}.

(** The loop over the buffer that recomputes commands and flags. *)
Fixpoint annotate (first : Request -> res bool) (dv : dev) (l : list Request) : res (list Request) :=
  match l with
  | [] => Ok []
  | r :: l =>
      r ← with_preq dv r;
      f ← first r;
      ready ← req_ready dv r;
      l ← annotate first dv l;
      Ok (set_flag 1 ready (set_flag 0 f r) :: l)
  end.

Definition best_by_flags (first : Request -> res bool) (dv : dev) (b : ReqBuffer) : res (option nat * ReqBuffer) :=
  match buffer b with
  | [] => Ok (None, b)
  | _ =>
      l ← annotate first dv (buffer b);
      match l with
      | [] => Err Undef
      | r :: rest => Ok (Some (best_of (0%nat, r) 1 rest).1, mkReqBuffer l (max_size b))
      end
  end.
End Flags.

(** ** [BHScheduler]: the code of [FRFCFS] *)
Module BHScheduler.
Section BHScheduler.
Context `{D : IDRAM}.
Definition compare : dev -> nat * Request -> nat * Request -> res (nat * Request) := FRFCFS.compare.
Definition get_best_request : dev -> ReqBuffer -> res (option nat * ReqBuffer) := FRFCFS.get_best_request.
End BHScheduler.
End BHScheduler.

(** ** [PRACScheduler]: requests that fit before the recovery first *)
Module PRACScheduler.
Section PRACScheduler.
Context `{D : IDRAM}.

Definition fits (p : PRAC.Config) (s : PRAC.State) (clk : Z) (r : Request) : bool :=
  clk + PRAC.min_cycles_with_preall p r <? PRAC.next_recovery_cycle s.

Definition compare : nat * Request -> nat * Request -> nat * Request := compare_flags.

Definition get_best_request (p : PRAC.Config) (s : PRAC.State) (clk : Z)
    : dev -> ReqBuffer -> res (option nat * ReqBuffer) :=
  best_by_flags (fun r => Ok (fits p s clk r)).
End PRACScheduler.
End PRACScheduler.

(** ** The plugin [BLISS] *)
Module BLISS.
Record Config : Type := mkConfig { m_blacklist_thresh : Z; m_unblacklist_cycles : Z }.

Record State : Type := mkState {
  m_blacklist_info : list bool;
  m_prev_src_id : Z;
  m_consequtive_src_id : Z;
  m_clk : Z;
  s_blacklist_count : Z;
}.

Definition setup (num_cores : nat) : State := mkState (replicate num_cores false) (-1) 0 0 0.

(** [x++] of an [int]. *)
Definition int_incr (x : Z) : res Z := if x <? 2 ^ 31 - 1 then Ok (x + 1) else Err Undef.

Definition serve (p : Config) (src : Z) (s : State) : res State :=
  n ← int_incr (m_consequtive_src_id s);
  let '(prev, n) := if src =? m_prev_src_id s then (m_prev_src_id s, n) else (src, 0) in
  if m_blacklist_thresh p <=? n then
    l ← vset (m_blacklist_info s) src true;
    k ← int_incr (s_blacklist_count s);
    Ok (mkState l prev n (m_clk s) k)
  else Ok (mkState (m_blacklist_info s) prev n (m_clk s) (s_blacklist_count s)).

(** [m_unblacklist_cycles] is converted to an unsigned number by the modulo. *)
Definition step (p : Config) (found : option Request) (s : State) : res State :=
  let clk := u64 (m_clk s + 1) in
  let cycles := u64 (m_unblacklist_cycles p) in
  if cycles =? 0 then Err Undef
  else
    let l := if clk mod cycles =? 0 then (fun _ => false) <$> m_blacklist_info s else m_blacklist_info s in
    let s := mkState l (m_prev_src_id s) (m_consequtive_src_id s) clk (s_blacklist_count s) in
    match found with
    | Some r => if source_id r <? 0 then Ok s else serve p (source_id r) s
    | None => Ok s
    end.

Definition update (p : Config) (found : option Request) (s : State) : Act State := Done (step p found s).

#[refine] Definition plugin (p : Config) (s : State) : Plugin :=
  {| pl_update := update p; pl_current := s |}.
Proof. done. Defined.

Definition is_blacklisted (src : Z) (s : State) : res bool :=
  if src <? 0 then Ok true else vget (m_blacklist_info s) src.
End BLISS.

(** ** [BLISSScheduler]: requests of cores that are not blacklisted first *)
Module BLISSScheduler.
Section BLISSScheduler.
Context `{D : IDRAM}.

Definition safe (s : BLISS.State) (r : Request) : res bool :=
  blisted ← BLISS.is_blacklisted (source_id r) s;
  rd ← def_of_name dram_requests "read";
  wr ← def_of_name dram_requests "write";
  Ok (negb ((type_id r =? rd) || (type_id r =? wr)) || negb blisted).

Definition compare : nat * Request -> nat * Request -> nat * Request := compare_flags.

Definition get_best_request (s : BLISS.State) : dev -> ReqBuffer -> res (option nat * ReqBuffer) :=
  best_by_flags (safe s).
End BLISSScheduler.
End BLISSScheduler.

(** ** What the choice by flags guarantees *)

(** First flag, second flag, age, position. *)
Definition rank (x : nat * Request) : (Z * Z) * (Z * Z) :=
  ((if flag 0 x.2 then 0 else 1, if flag 1 x.2 then 0 else 1), (arrive x.2, Z.of_nat x.1)).

Definition preferred (x y : nat * Request) : Prop :=
  let '((a, b), (c, d)) := rank x in
  let '((a', b'), (c', d')) := rank y in
  a < a' \/ (a = a' /\ (b < b' \/ (b = b' /\ (c < c' \/ (c = c' /\ d <= d'))))).

Lemma preferred_refl x : preferred x x.
Proof. unfold preferred, rank. lia. Qed.

Lemma preferred_trans x y z : preferred x y -> preferred y z -> preferred x z.
Proof. unfold preferred, rank. lia. Qed.

Lemma compare_flags_spec x y : (x.1 < y.1)%nat ->
  (compare_flags x y = x \/ compare_flags x y = y) /\
  preferred (compare_flags x y) x /\ preferred (compare_flags x y) y.
Proof.
  intros Hlt. unfold compare_flags. destruct (flag 0 x.2) eqn:E1, (flag 0 y.2) eqn:E2, (flag 1 x.2) eqn:E3, (flag 1 y.2) eqn:E4;
    cbn; try destruct (Z.leb_spec (arrive x.2) (arrive y.2));
    (split; [by auto|]); unfold preferred, rank; rewrite ?E1, ?E2, ?E3, ?E4; lia.
Qed.

Lemma best_of_spec l : forall c k, (c.1 < k)%nat ->
  let z := best_of c k l in
  (z = c \/ (k <= z.1)%nat /\ l !! (z.1 - k)%nat = Some z.2) /\ preferred z c /\
  forall j y, l !! j = Some y -> preferred z ((k + j)%nat, y).
Proof.
  induction l as [|r l IH]; intros c k Hk; cbn [best_of].
  { split; [by left|]. split; [apply preferred_refl|]. intros j y. by rewrite lookup_nil. }
  destruct (compare_flags_spec c (k, r) Hk) as (Hsel & Hc & Hr).
  set (c' := compare_flags c (k, r)) in *. assert (c'.1 < S k)%nat as Hk'.
  { destruct Hsel as [->| ->]; cbn; lia. }
  destruct (IH c' (S k) Hk') as (Hz & Hzc & Hzl). set (z := best_of c' (S k) l) in *. split_and!.
  - destruct Hz as [Hz|[Hle Hz]].
    + rewrite Hz. destruct Hsel as [->| ->]; [by left|right]. cbn. rewrite Nat.sub_diag. split; [lia|done].
    + right. split; [lia|]. by replace (z.1 - k)%nat with (S (z.1 - S k)) by lia.
  - by eapply preferred_trans.
  - intros [|j] y Hy; cbn in Hy.
    + injection Hy as ->. rewrite Nat.add_0_r. by eapply preferred_trans.
    + rewrite Nat.add_succ_r, <- Nat.add_succ_l. by apply Hzl.
Qed.

(** What the loop over the buffer leaves in the scratchpad. *)
Definition annotated `{D : IDRAM} (first : Request -> res bool) (dv : dev) (r r' : Request) : Prop :=
  exists r1 f ready, with_preq dv r = Ok r1 /\ first r1 = Ok f /\ req_ready dv r1 = Ok ready /\
    r' = set_flag 1 ready (set_flag 0 f r1).

Lemma annotate_Forall2 `{D : IDRAM} first dv l l' :
  annotate first dv l = Ok l' -> Forall2 (annotated first dv) l l'.
Proof.
  revert l'. induction l as [|r l IH]; cbn; intros l' H; [injection H as <-; constructor|].
  apply bind_Ok in H as (r1 & Hr & H). apply bind_Ok in H as (f & Hf & H).
  apply bind_Ok in H as (ready & Hy & H). apply bind_Ok in H as (l1 & Hl & H). injection H as <-.
  constructor; [|auto]. by exists r1, f, ready.
Qed.

Lemma best_by_flags_spec `{D : IDRAM} first dv b it b' :
  best_by_flags first dv b = Ok (it, b') ->
  Forall2 (annotated first dv) (buffer b) (buffer b') /\ max_size b' = max_size b /\
  (it = None <-> buffer b = []) /\
  (forall i, it = Some i -> exists r, buffer b' !! i = Some r /\
     forall j y, buffer b' !! j = Some y -> preferred (i, r) (j, y)).
Proof.
  unfold best_by_flags. destruct (buffer b) as [|q l] eqn:E.
  { intros [= <- <-]. rewrite E. by repeat split. }
  intros H. apply bind_Ok in H as (l' & Hl & H). pose proof (annotate_Forall2 _ _ _ _ Hl) as HF.
  destruct l' as [|r rest]; [done|]. injection H as <- <-. cbn [buffer max_size].
  split; [done|]. split; [done|]. split; [done|]. intros i [= <-].
  destruct (best_of_spec rest (0%nat, r) 1 ltac:(cbn; lia)) as (Hz & Hzc & Hzl).
  destruct (best_of (0%nat, r) 1 rest) as [i x]. cbn [fst snd] in *. exists x. split.
  - destruct Hz as [[= -> ->]|[Hle Hx]]; [done|]. destruct i as [|i]; [lia|]. cbn in *. by rewrite Nat.sub_0_r in Hx.
  - intros [|j] y Hy; [injection Hy as ->; done|]. apply (Hzl j y Hy).
Qed.

(** ** Guarantees of BLISS and of the schedulers *)
(** ** The order of the schedulers *)

(** First the requests with the property, then the ready ones, then the oldest, then
    the first of the buffer. *)
Definition before (f1 r1 : bool) (i1 : nat) (q1 : Request) (f2 r2 : bool) (i2 : nat) (q2 : Request) : Prop :=
  (f1 = true /\ f2 = false) \/
  (f1 = f2 /\ ((r1 = true /\ r2 = false) \/
    (r1 = r2 /\ (arrive q1 < arrive q2 \/ (arrive q1 = arrive q2 /\ (i1 <= i2)%nat))))).

Section Order.
Context `{D : IDRAM}.
Context (first : Request -> res bool) (first_flag : forall i b r, first (set_flag i b r) = first r).

Definition array4 (r : Request) : Prop := length (scratchpad r) = 4%nat.

Lemma annotated_flags dv r r' : array4 r -> annotated first dv r r' ->
  first r' = Ok (flag 0 r') /\ req_ready dv r' = Ok (flag 1 r').
Proof.
  intros Ha (r1 & f & ready & Hr & Hf & Hy & ->). unfold with_preq in Hr. apply bind_Ok in Hr as (c & _ & Hr).
  injection Hr as <-. rewrite !first_flag, Hf. unfold req_ready in *. cbn in *. rewrite Hy.
  unfold flag. cbn. unfold array4 in Ha. destruct (scratchpad r) as [|a [|b l]]; try done. cbn.
  destruct f, ready; done.
Qed.

Lemma best_by_flags_order dv b i b' : Forall array4 (buffer b) -> best_by_flags first dv b = Ok (Some i, b') ->
  exists r f ready, buffer b' !! i = Some r /\ first r = Ok f /\ req_ready dv r = Ok ready /\
    forall j y, buffer b' !! j = Some y -> exists f' ready', first y = Ok f' /\ req_ready dv y = Ok ready' /\
      before f ready i r f' ready' j y.
Proof.
  intros Ha (HF & _ & _ & Hi)%best_by_flags_spec. destruct (Hi i eq_refl) as (r & Hr & Hbest).
  assert (forall j y, buffer b' !! j = Some y -> first y = Ok (flag 0 y) /\ req_ready dv y = Ok (flag 1 y)) as Hfl.
  { intros j y Hy. destruct (Forall2_lookup_r _ _ _ _ _ HF Hy) as (q & Hq & Hann).
    eapply annotated_flags; [|exact Hann]. by eapply (proj1 (list.Forall_lookup _ _) Ha). }
  destruct (Hfl _ _ Hr) as [Hf1 Hf2]. exists r, (flag 0 r), (flag 1 r). split_and!; try done.
  intros j y Hy. destruct (Hfl _ _ Hy) as [Hy1 Hy2]. exists (flag 0 y), (flag 1 y). split_and!; try done.
  specialize (Hbest _ _ Hy). unfold preferred, rank, before in *. cbn in Hbest.
  destruct (flag 0 r), (flag 0 y), (flag 1 r), (flag 1 y); cbn in *; try naive_solver lia.
Qed.
End Order.

(** [PRACScheduler] returns a request that fits before the recovery if any does; of
    those a ready one if any is; of those the oldest. *)
Theorem prac_scheduler_order `{D : IDRAM} p s clk dv b i b' :
  Forall array4 (buffer b) -> PRACScheduler.get_best_request p s clk dv b = Ok (Some i, b') ->
  exists r ready, buffer b' !! i = Some r /\ req_ready dv r = Ok ready /\
    forall j y, buffer b' !! j = Some y -> exists ready', req_ready dv y = Ok ready' /\
      before (PRACScheduler.fits p s clk r) ready i r (PRACScheduler.fits p s clk y) ready' j y.
Proof.
  intros Ha Hb. destruct (best_by_flags_order (fun r => Ok (PRACScheduler.fits p s clk r)) (fun _ _ _ => eq_refl)
    dv b i b' Ha Hb) as (r & f & ready & Hr & [= <-] & Hready & Hall).
  exists r, ready. split_and!; try done. intros j y Hy. destruct (Hall j y Hy) as (f' & ready' & [= <-] & Hy' & Hbef).
  by exists ready'.
Qed.

(** ** The blacklist *)
Section Blacklist.
Context (p : BLISS.Config).

(** What the plugin sees: the core of the scheduled request, newest first. *)
Definition source_of (found : option Request) : option Z :=
  match found with Some r => if source_id r <? 0 then None else Some (source_id r) | None => None end.

(** The number of requests of one core that were served last in a row. *)
Fixpoint streak (h : list Z) : Z :=
  match h with
  | [] => 0
  | x :: h => if bool_decide (head h = Some x) then streak h + 1 else 1
  end.

(** Blacklisted since the list was last cleared. *)
Fixpoint blacklisted (src : Z) (h : list (option Z)) : bool :=
  match h with
  | [] => false
  | e :: h' =>
      (match e with Some x => (x =? src) && (BLISS.m_blacklist_thresh p <? streak (omap id h)) | None => false end)
      || (if Z.of_nat (length h) mod BLISS.m_unblacklist_cycles p =? 0 then false else blacklisted src h')
  end.

Inductive bliss_run (cores : nat) : BLISS.State -> list (option Z) -> Prop :=
| bliss_start : bliss_run cores (BLISS.setup cores) []
| bliss_update s h found s' : bliss_run cores s h -> BLISS.step p found s = Ok s' ->
    bliss_run cores s' (source_of found :: h).

Record bliss_inv (cores : nat) (s : BLISS.State) (h : list (option Z)) : Prop := {
  bi_clk : Z.of_nat (length h) < 2 ^ 64 -> BLISS.m_clk s = Z.of_nat (length h);
  bi_cores : length (BLISS.m_blacklist_info s) = cores;
  bi_prev : BLISS.m_prev_src_id s = default (-1) (head (omap id h));
  bi_streak : BLISS.m_consequtive_src_id s = Z.max 0 (streak (omap id h) - 1);
  bi_list : Z.of_nat (length h) < 2 ^ 64 -> forall src b, 0 <= src -> BLISS.m_blacklist_info s !! Z.to_nat src = Some b ->
    b = blacklisted src h;
  bi_sources : Forall (fun x => 0 <= x) (omap id h);
}.

Lemma streak_nonneg h : 0 <= streak h.
Proof. induction h as [|x h IH]; cbn [streak]; [lia|]. case_bool_decide; lia. Qed.

Lemma streak_pos x h : 1 <= streak (x :: h).
Proof. cbn [streak]. pose proof (streak_nonneg h). case_bool_decide; lia. Qed.

Lemma head_nonneg h x : Forall (fun x => 0 <= x) h -> default (-1) (head h) = x -> 0 <= x -> head h = Some x.
Proof. destruct h as [|y h]; cbn; [lia|]. by intros _ ->. Qed.

(** The streak after a request of core [x]. *)
Lemma streak_cons x h : Forall (fun x => 0 <= x) h -> 0 <= x ->
  streak (x :: h) - 1 = if x =? default (-1) (head h) then Z.max 0 (streak h - 1) + 1 else 0.
Proof.
  intros Hh Hx. cbn [streak]. destruct (Z.eqb_spec x (default (-1) (head h))) as [He|He].
  - pose proof (head_nonneg h x Hh (eq_sym He) Hx) as Hd. rewrite bool_decide_true by done.
    destruct h as [|y h]; [done|]. pose proof (streak_pos y h). lia.
  - rewrite bool_decide_false; [lia|]. intros Hd. by rewrite Hd in He.
Qed.

Context (Hcycles : 0 < BLISS.m_unblacklist_cycles p < 2 ^ 31).

Lemma bliss_serve_inv cores l s src s' h : 0 <= src ->
  bliss_inv cores s h -> Z.of_nat (length h) + 1 < 2 ^ 64 ->
  BLISS.serve p src (BLISS.mkState l (BLISS.m_prev_src_id s) (BLISS.m_consequtive_src_id s)
                       (Z.of_nat (length h) + 1) (BLISS.s_blacklist_count s)) = Ok s' ->
  length l = cores ->
  (forall src b, 0 <= src -> l !! Z.to_nat src = Some b ->
     b = if (Z.of_nat (length h) + 1) mod BLISS.m_unblacklist_cycles p =? 0 then false else blacklisted src h) ->
  bliss_inv cores s' (Some src :: h).
Proof.
  intros Hsrc [_ _ Hprev Hst _ Hpos] Hlen Hs Hcl Hl. unfold BLISS.serve in Hs. cbn in Hs.
  apply bind_Ok in Hs as (n & Hn & Hs). unfold BLISS.int_incr in Hn. destruct (_ <? _); [|done]. injection Hn as <-.
  pose proof (streak_cons src (omap id h) Hpos Hsrc) as Hk. rewrite <- Hprev, <- Hst in Hk.
  assert ((if src =? BLISS.m_prev_src_id s then (BLISS.m_prev_src_id s, BLISS.m_consequtive_src_id s + 1) else (src, 0)) =
          (src, streak (src :: omap id h) - 1)) as Hp.
  { rewrite Hk. destruct (Z.eqb_spec src (BLISS.m_prev_src_id s)) as [->|]; done. }
  rewrite Hp in Hs. pose proof (streak_pos src (omap id h)) as Hge.
  assert (streak (omap id (Some src :: h)) = streak (src :: omap id h)) as Ho by done.
  clear Hk Hp. remember (streak (src :: omap id h)) as k eqn:Ek. clear Ek.
  assert (Z.of_nat (length (Some src :: h)) = Z.of_nat (length h) + 1) as Hlc by (cbn [length]; lia).
  destruct (Z.leb_spec (BLISS.m_blacklist_thresh p) (k - 1)) as [Hle|Hgt].
  - apply bind_Ok in Hs as (l' & Hset & Hs). apply bind_Ok in Hs as (cnt & _ & Hs). injection Hs as <-.
    apply vset_Ok in Hset as [Hin ->]. constructor; cbn [BLISS.m_clk BLISS.m_blacklist_info BLISS.m_prev_src_id BLISS.m_consequtive_src_id].
    + by rewrite Hlc.
    + by rewrite length_insert.
    + done.
    + rewrite Ho. lia.
    + intros _ x b Hx Hb. cbn [blacklisted]. rewrite Ho, Hlc.
      apply list_lookup_insert_Some in Hb as [(He & <- & _)|[Hne Hb]].
      * assert (x = src) as -> by lia. rewrite Z.eqb_refl, (proj2 (Z.ltb_lt _ _)) by lia. done.
      * rewrite (proj2 (Z.eqb_neq src x)) by lia. cbn. by apply Hl.
    + change (omap id (Some src :: h)) with (src :: omap id h). by constructor.
  - injection Hs as <-. constructor; cbn [BLISS.m_clk BLISS.m_blacklist_info BLISS.m_prev_src_id BLISS.m_consequtive_src_id].
    + by rewrite Hlc.
    + done.
    + done.
    + rewrite Ho. lia.
    + intros _ x b Hx Hb. cbn [blacklisted]. rewrite Ho, Hlc.
      rewrite (proj2 (Z.ltb_ge _ _)) by lia. rewrite andb_false_r. by apply Hl.
    + change (omap id (Some src :: h)) with (src :: omap id h). by constructor.
Qed.

Lemma bliss_step_inv cores s h found s' : Z.of_nat (length h) + 1 < 2 ^ 64 ->
  bliss_inv cores s h -> BLISS.step p found s = Ok s' -> bliss_inv cores s' (source_of found :: h).
Proof.
  intros Hlen Hinv. pose proof Hinv as [Hclk Hcor Hprev Hst Hlist Hpos]. unfold BLISS.step.
  rewrite Hclk by lia. rewrite !u64_small by lia. rewrite (proj2 (Z.eqb_neq _ _)) by lia.
  set (l := if _ =? 0 then _ else _). intros Hs.
  assert (length l = cores) as Hcl by (unfold l; destruct (_ =? 0); [rewrite length_fmap|]; done).
  assert (forall src b, 0 <= src -> l !! Z.to_nat src = Some b ->
     b = if (Z.of_nat (length h) + 1) mod BLISS.m_unblacklist_cycles p =? 0 then false else blacklisted src h) as Hl.
  { intros src b Hsrc. unfold l. destruct (_ =? 0).
    - rewrite list_lookup_fmap. intros Hb. destruct (BLISS.m_blacklist_info s !! Z.to_nat src); cbn in Hb; congruence.
    - apply Hlist; lia. }
  assert (source_of found = None -> s' = BLISS.mkState l (BLISS.m_prev_src_id s) (BLISS.m_consequtive_src_id s)
            (Z.of_nat (length h) + 1) (BLISS.s_blacklist_count s) -> bliss_inv cores s' (source_of found :: h)) as Hquiet.
  { intros -> ->. assert (Z.of_nat (length (None :: h)) = Z.of_nat (length h) + 1) as Hlc by (cbn [length]; lia).
    constructor; cbn [BLISS.m_clk BLISS.m_blacklist_info BLISS.m_prev_src_id BLISS.m_consequtive_src_id]; try done.
    intros _ x b Hx Hb. cbn [blacklisted orb]. rewrite Hlc. by apply Hl. }
  unfold source_of in *. destruct found as [r|]; [|injection Hs as <-; by apply Hquiet].
  destruct (Z.ltb_spec (source_id r) 0); [injection Hs as <-; by apply Hquiet|].
  by eapply bliss_serve_inv.
Qed.
End Blacklist.

(** After every sequence of cycles, [is_blacklisted] answers for a core
    whether, since the list was last cleared, a request of it was served that was at
    least the [m_blacklist_thresh + 1]-th of this core in a row.  The blacklist is
    cleared in every cycle that is a multiple of [m_unblacklist_cycles]; a streak
    survives the clearing; requests without a core count as blacklisted and do not
    interrupt a streak. *)
Theorem bliss_blacklist_exact p cores s h src b :
  0 < BLISS.m_unblacklist_cycles p < 2 ^ 31 -> Z.of_nat (length h) < 2 ^ 64 ->
  bliss_run p cores s h -> BLISS.is_blacklisted src s = Ok b ->
  b = if src <? 0 then true else blacklisted p src h.
Proof.
  intros Hc Hlen Hrun. assert (bliss_inv p cores s h) as Hinv.
  { revert Hlen. induction Hrun as [|s h found s' _ IH Hs]; intros Hlen.
    - constructor; cbn; try done; [by rewrite length_replicate|].
      intros _ x y Hx [-> _]%lookup_replicate. done.
    - cbn [length] in Hlen. eapply bliss_step_inv; [done|lia|apply IH; lia|done]. }
  unfold BLISS.is_blacklisted. destruct (Z.ltb_spec src 0); [by intros [= <-]|].
  intros [_ Hb]%vget_Ok. by eapply bi_list.
Qed.

(** ** Witnesses *)
Definition bliss_demo : BLISS.Config := BLISS.mkConfig 2 100.
Definition from_core (c : Z) : option Request := Some (set_ids 0 c blank_request).

Lemma bliss_blacklist_exact_witness : exists s h,
  bliss_run bliss_demo 4 s h /\ h = [Some 1; None; Some 1; Some 1; Some 0] /\
  BLISS.is_blacklisted 1 s = Ok (blacklisted bliss_demo 1 h) /\ blacklisted bliss_demo 1 h = true /\
  BLISS.is_blacklisted 0 s = Ok false.
Proof.
  pose proof (bliss_start bliss_demo 4) as H.
  eapply (bliss_update _ _ _ _ (from_core 0)) in H; [|vm_compute; reflexivity].
  eapply (bliss_update _ _ _ _ (from_core 1)) in H; [|vm_compute; reflexivity].
  eapply (bliss_update _ _ _ _ (from_core 1)) in H; [|vm_compute; reflexivity].
  eapply (bliss_update _ _ _ _ None) in H; [|vm_compute; reflexivity].
  eapply (bliss_update _ _ _ _ (from_core 1)) in H; [|vm_compute; reflexivity].
  unshelve epose proof (bliss_blacklist_exact bliss_demo 4 _ _ 1 true _ _ H _) as Hx;
    [cbn; lia|cbn; lia|vm_compute; reflexivity|].
  eexists _, _. split; [exact H|]. split; [vm_compute; reflexivity|]. split; [|split; vm_compute; reflexivity].
  transitivity (Ok true); [vm_compute; reflexivity|]. exact (f_equal Ok Hx).
Defined.
