(* ===== verification/BlockHammer.v ===== *)
(** * BlockHammer: [dram_controller/impl/plugin/blockhammer]

    [blockhammer_util.h] (counting Bloom filters that take turns, and a history of
    recent activations), [blockhammer_throttler.h], the plugin [blockhammer.cpp] and
    the scheduler [impl/scheduler/blocking_scheduler.cpp] that holds back
    activations the plugin calls unsafe. *)
From Stdlib Require Import String.
From S2P Require Import Prelude CxxFloat DramSpec Request Dram Plugin Rit Scheduler RowHammer Graphene.
Local Open Scope string_scope.
Local Open Scope Z_scope.

(** ** [CountingBloomFilter] *)
Module CBF.
Definition u16 (x : Z) : Z := x mod 2 ^ 16.

Record t : Type := mk {
  m_num_counters : Z;
  m_ctr_thresh : Z;
  m_saturate : bool;
  m_counters : list Z;
  m_hash_functions : list (Z -> Z);
}.

Definition set_counters (l : list Z) (f : t) : t :=
  mk (m_num_counters f) (m_ctr_thresh f) (m_saturate f) l (m_hash_functions f).

Definition reset (f : t) : t := set_counters ((fun _ => 0) <$> m_counters f) f.

(** The constructor assigns [m_saturate] to itself: its value is whatever the memory
    held, an argument here. *)
Definition new (num_counters ctr_thresh : Z) (m_saturate : bool) (hashes : list (Z -> Z)) : t :=
  reset (mk num_counters ctr_thresh m_saturate (replicate (Z.to_nat num_counters) 0) hashes).

(** [uint32_t % int]: the divisor is converted. *)
Definition index (f : t) (h : Z -> Z) (elem : Z) : res Z :=
  if u32 (m_num_counters f) =? 0 then Err Undef
  else Ok (u32 (h (u32 elem)) mod u32 (m_num_counters f)).

Fixpoint insert_loop (elem : Z) (hashes : list (Z -> Z)) (f : t) : res t :=
  match hashes with
  | [] => Ok f
  | h :: hashes =>
      idx ← index f h elem;
      n ← vget (m_counters f) idx;
      l ← (if negb (m_saturate f) || (n <? m_ctr_thresh f) then vset (m_counters f) idx (u16 (n + 1))
           else Ok (m_counters f));
      insert_loop elem hashes (set_counters l f)
  end.

Definition insert (elem : Z) (f : t) : res t := insert_loop elem (m_hash_functions f) f.

Fixpoint test_loop (elem : Z) (hashes : list (Z -> Z)) (f : t) : res bool :=
  match hashes with
  | [] => Ok true
  | h :: hashes =>
      idx ← index f h elem;
      n ← vget (m_counters f) idx;
      pass ← test_loop elem hashes f;
      Ok ((m_ctr_thresh f <=? n) && pass)
  end.

Definition test (elem : Z) (f : t) : res bool := test_loop elem (m_hash_functions f) f.
End CBF.

(** ** [UnifiedBloomFilter]: the filters are reset in turn, one per epoch *)
Module UBF.
Record t : Type := mk { m_len_epoch : Z; m_filters : list CBF.t; m_tick : Z; m_test_idx : Z }.

Definition new (filters : list CBF.t) (len_epoch : Z) : t := mk len_epoch filters 0 0.

(** [m_tick] is unsigned and [m_len_epoch] an [int]. *)
Definition update (f : t) : res t :=
  let tick := u64 (m_tick f + 1) in
  if u64 (m_len_epoch f) <=? tick then
    x ← vget (m_filters f) (m_test_idx f);
    l ← vset (m_filters f) (m_test_idx f) (CBF.reset x);
    Ok (mk (m_len_epoch f) l 0 ((m_test_idx f + 1) mod Z.of_nat (length (m_filters f))))
  else Ok (mk (m_len_epoch f) (m_filters f) tick (m_test_idx f)).

Fixpoint insert_all (elem : Z) (l : list CBF.t) : res (list CBF.t) :=
  match l with
  | [] => Ok []
  | x :: l => x ← CBF.insert elem x; l ← insert_all elem l; Ok (x :: l)
  end.

Definition insert (elem : Z) (f : t) : res t :=
  l ← insert_all elem (m_filters f); Ok (mk (m_len_epoch f) l (m_tick f) (m_test_idx f)).

Definition test (elem : Z) (f : t) : res bool := x ← vget (m_filters f) (m_test_idx f); CBF.test elem x.

Definition reset (f : t) : t := mk (m_len_epoch f) (CBF.reset <$> m_filters f) (m_tick f) (m_test_idx f).
End UBF.

(** ** [HistoryBuffer]: a ring of the elements of the last [m_size] ticks *)
Module HistoryBuffer.
Record t : Type := mk {
  m_tick : Z; m_size : Z; m_max_freq : Z;
  history : list (Z * Z);
  elem_counter : gmap Z Z;
}.

Definition new (size max_freq : Z) : t :=
  mk 0 (u32 size) (u32 max_freq) (replicate (Z.to_nat (u32 size)) (-1, 2 ^ 64 - 1)) ∅.

Definition exists_elem (elem : Z) (h : t) : bool := bool_decide (is_Some (elem_counter h !! elem)).
Definition exceeds (elem : Z) (h : t) : bool := m_max_freq h <=? default 0 (elem_counter h !! elem).
Definition search (elem : Z) (h : t) : bool := exists_elem elem h && exceeds elem h.

Definition slot (h : t) : res Z := if m_size h =? 0 then Err Undef else Ok (m_tick h mod m_size h).

Definition insert (elem : Z) (h : t) : res t :=
  i ← slot h;
  l ← vset (history h) i (elem, m_tick h);
  Ok (mk (m_tick h) (m_size h) (m_max_freq h) l
        (<[elem := u32 (default 0 (elem_counter h !! elem) + 1)]> (elem_counter h))).

Definition update (h : t) : res t :=
  let h := mk (u64 (m_tick h + 1)) (m_size h) (m_max_freq h) (history h) (elem_counter h) in
  i ← slot h;
  '(elem, _) ← vget (history h) i;
  match elem_counter h !! elem with
  | None => Ok h
  | Some n =>
      let n := u32 (n - 1) in
      Ok (mk (m_tick h) (m_size h) (m_max_freq h) (history h)
            (if n =? 0 then delete elem (elem_counter h) else <[elem := n]> (elem_counter h)))
  end.
End HistoryBuffer.

(** ** [AttackThrottler] *)
Module Throttler.
Record t : Type := mk {
  m_clk : Z; m_n_rh : Z; m_n_bl : Z; m_t_cbf : Z; m_t_refw : Z; m_n_ctrs : Z; m_active_idx : Z;
  m_act_counters : list (gmap Z Z);
}.

Definition new (n_rh n_bl t_cbf t_refw n_ctrs : Z) : t :=
  mk (-1) n_rh n_bl t_cbf t_refw n_ctrs 0 (replicate (Z.to_nat n_ctrs) ∅).

Definition update (a : t) : res t :=
  let clk := m_clk a + 1 in
  if m_t_cbf a <=? clk then
    _ ← vget (m_act_counters a) (m_active_idx a);
    l ← vset (m_act_counters a) (m_active_idx a) ∅;
    Ok (mk 0 (m_n_rh a) (m_n_bl a) (m_t_cbf a) (m_t_refw a) (m_n_ctrs a)
          ((m_active_idx a + 1) mod m_n_ctrs a) l)
  else Ok (mk clk (m_n_rh a) (m_n_bl a) (m_t_cbf a) (m_t_refw a) (m_n_ctrs a) (m_active_idx a) (m_act_counters a)).

Definition hash (thread_id bank_id : Z) : Z := thread_id * 100000 + bank_id.

Definition insert (thread_id bank_id : Z) (a : t) : t :=
  let key := hash thread_id bank_id in
  mk (m_clk a) (m_n_rh a) (m_n_bl a) (m_t_cbf a) (m_t_refw a) (m_n_ctrs a) (m_active_idx a)
    ((fun m : gmap Z Z => <[key := default 0 (m !! key) + 1]> m) <$> m_act_counters a).

Definition get_rhli (thread_id bank_id : Z) (a : t) : res spec_float :=
  if thread_id <? 0 then Ok (F32.of_Z 0)
  else
    m ← vget (m_act_counters a) (m_active_idx a);
    Ok (match m !! hash thread_id bank_id with
        | None => F32.of_Z 0
        | Some n =>
            F32.div (F32.of_Z n)
              (F32.sub (F32.div (F32.mul (F32.of_Z (m_n_rh a)) (F32.of_Z (m_t_cbf a))) (F32.of_Z (m_t_refw a)))
                 (F32.of_Z (m_n_bl a)))
        end).
End Throttler.

(** ** The plugin *)
Module BlockHammer.
Section BlockHammer.
Context `{D : IDRAM}.

Record Params : Type := mkParams {
  bf_num_filters : Z; bf_len_epoch : Z; bf_ctr_count : Z; bf_ctr_thresh : Z; bf_num_hashes : Z;
  bf_num_rh : Z; bf_trefw : Z; bf_trc : Z; bf_hist_max_freq : Z;
}.

Definition default_params : Params := mkParams 2 64000000 1024 128 4 16384 64000000 75 1.

Record Config : Type := mkConfig { m_geo : Geometry; m_num_mshr_per_core : Z }.

Record State : Type := mkState {
  m_filters : list UBF.t;
  m_histbufs : list HistoryBuffer.t;
  m_attack_throttler : Throttler.t;
  m_clk : Z;
}.

(** What the plugin tells the last-level cache. *)
Inductive LLCAction : Type :=
| AddBlacklist (source_id : Z)
| SetBlacklistMaxMshrs (source_id max_mshr : Z).

(** The [i]-th hash function for [size] counters; literals above 2^31 are 64-bit. *)
Definition hash_function (size i : Z) (key : Z) : Z :=
  let hash1 := u32 (key * 2654435761) in
  u32 (hash1 + i * (Z.rem (key * 2246822519) (u32 (size - 1)) + 1)).

(** Cycles of a time given in nanoseconds. *)
Definition clocks (ns : spec_float) (tCK_ps : Z) : res Z :=
  fto_i32 (F32.div ns (F32.div (F32.of_Z tCK_ps) (F32.of_Z 1000))).

Definition hist_size (p : Params) (tCK_ps : Z) : res Z :=
  if bf_trefw p =? 0 then Err Undef
  else
    let tDelay := F32.of_Z (bf_len_epoch p - bf_ctr_thresh p * bf_trc p) in
    let tDelay := F32.div tDelay
      (F32.sub (F32.mul (F32.of_Z (Z.quot (bf_len_epoch p) (bf_trefw p))) (F32.of_Z (bf_num_rh p)))
         (F32.of_Z (bf_ctr_thresh p))) in
    clocks tDelay tCK_ps.

Definition setup (p : Params) (saturate : bool) (mshrs : Z) : res (Config * State) :=
  _ ← def_of_name dram_levels "bankgroup";
  g ← geometry;
  tCK ← dram_timing "tCK_ps";
  epoch ← clocks (F32.of_Z (bf_len_epoch p)) tCK;
  size ← hist_size p tCK;
  if size <? 0 then Err (Exit 0)
  else
    let hashes := hash_function (bf_ctr_count p) <$> seqZ 0 (bf_num_hashes p) in
    let sub := CBF.new (bf_ctr_count p) (bf_ctr_thresh p) saturate hashes in
    let filter := UBF.new (replicate (Z.to_nat (bf_num_filters p)) sub) epoch in
    let banks := g_num_ranks g * g_num_banks_per_rank g in
    let filters := replicate (Z.to_nat banks) filter in
    last ← vget filters (banks - 1);
    last ← (if (u32 (bf_ctr_count p - 1) =? 0) && (0 <? bf_num_hashes p) then Err Undef else UBF.insert 0 last);
    filters ← vset filters (banks - 1) (UBF.reset last);
    Ok (mkConfig g mshrs,
        mkState filters (replicate (Z.to_nat (g_num_ranks g)) (HistoryBuffer.new size (bf_hist_max_freq p)))
          (Throttler.new (bf_num_rh p) (bf_ctr_thresh p) epoch (bf_trefw p) (bf_num_filters p)) (-1)).

Fixpoint update_all {A} (f : A -> res A) (l : list A) : res (list A) :=
  match l with
  | [] => Ok []
  | x :: l => x ← f x; l ← update_all f l; Ok (x :: l)
  end.

(** The components that age every cycle. *)
Definition age (s : State) : res State :=
  h ← update_all HistoryBuffer.update (m_histbufs s);
  f ← update_all UBF.update (m_filters s);
  a ← Throttler.update (m_attack_throttler s);
  Ok (mkState f h a (m_clk s + 1)).

Definition on_activation (p : Config) (r : Request) (s : State) : res (list LLCAction * State) :=
  rank ← vget (addr_vec r) (g_rank_level (m_geo p));
  row ← vget (addr_vec r) (g_row_level (m_geo p));
  h ← vget (m_histbufs s) rank;
  h ← HistoryBuffer.insert row h;
  hs ← vset (m_histbufs s) rank h;
  bank ← flat_bank (m_geo p) r;
  f ← vget (m_filters s) bank;
  f ← UBF.insert row f;
  fs ← vset (m_filters s) bank f;
  hot ← UBF.test row f;
  if hot && (0 <=? source_id r) then
    let a := Throttler.insert (source_id r) bank (m_attack_throttler s) in
    rhli ← Throttler.get_rhli (source_id r) bank a;
    max ← fto_i32 (F32.mul (F32.of_Z (m_num_mshr_per_core p)) (F32.sub (F32.of_Z 1) rhli));
    Ok ([AddBlacklist (source_id r); SetBlacklistMaxMshrs (source_id r) max], mkState fs hs a (m_clk s))
  else Ok ([], mkState fs hs (m_attack_throttler s) (m_clk s)).

Definition update (p : Config) (found : option Request) (s : State) : res (list LLCAction * State) :=
  s ← age s;
  match found with
  | None => Ok ([], s)
  | Some r =>
      act ← is_row_open (g_row_level (m_geo p)) r;
      if act : bool then on_activation p r s else Ok ([], s)
  end.

Definition is_act_safe (p : Config) (s : State) (r : Request) : res bool :=
  act ← is_row_open (g_row_level (m_geo p)) r;
  if act : bool then
    rank ← vget (addr_vec r) (g_rank_level (m_geo p));
    row ← vget (addr_vec r) (g_row_level (m_geo p));
    bank ← flat_bank (m_geo p) r;
    f ← vget (m_filters s) bank;
    filter_test ← UBF.test row f;
    h ← vget (m_histbufs s) rank;
    Ok (negb filter_test || negb (HistoryBuffer.search row h))
  else Ok true.
End BlockHammer.
End BlockHammer.

(** ** [BlockingScheduler] *)
Module BlockingScheduler.
Section BlockingScheduler.
Context `{D : IDRAM} (is_act_safe : Request -> res bool).

Definition compare : dev -> nat * Request -> nat * Request -> res (nat * Request) := FRFCFS.compare.

(** The first safe request. *)
Fixpoint first_safe (i : nat) (l : list Request) : res (option (nat * Request)) :=
  match l with
  | [] => Ok None
  | r :: l => safe ← is_act_safe r; if safe : bool then Ok (Some (i, r)) else first_safe (S i) l
  end.

Fixpoint best_loop (dv : dev) (candidate : nat * Request) (next : nat) (l : list Request) : res (nat * Request) :=
  match l with
  | [] => Ok candidate
  | r :: l =>
      safe ← is_act_safe r;
      candidate ← (if safe : bool then compare dv candidate (next, r) else Ok candidate);
      best_loop dv candidate (S next) l
  end.

Definition get_best_request (dv : dev) (b : ReqBuffer) : res (option nat * ReqBuffer) :=
  match buffer b with
  | [] => Ok (None, b)
  | _ =>
      l ← with_preqs dv (buffer b);
      c ← first_safe 0 l;
      match c with
      | None => Ok (None, mkReqBuffer l (max_size b))
      | Some c =>
          '(i, _) ← best_loop dv c 1 (tail l);
          Ok (Some i, mkReqBuffer l (max_size b))
      end
  end.
End BlockingScheduler.
End BlockingScheduler.
