(* ===== verification/BlockHammerFacts.v ===== *)
(** * What BlockHammer guarantees, and what its history buffer loses

    The filters never overlook a row that was activated often enough in the window
    they cover; the history buffer forgets an activation after one tick when a stale
    entry of the same row comes round; the blocking scheduler only returns
    activations that the plugin calls safe. *)
From Stdlib Require Import String.
From S2P Require Import Prelude DramSpec Request DDR4 DDR4Facts Dram Plugin Scheduler BlockHammer.
Local Open Scope string_scope.
Local Open Scope Z_scope.

(** ** Counting Bloom filters *)
Definition occ (x : Z) (xs : list Z) : Z := Z.of_nat (length (filter (fun y => y = x) xs)).

Lemma occ_cons x y xs : occ x (y :: xs) = occ x xs + (if decide (y = x) then 1 else 0).
Proof. unfold occ. rewrite filter_cons. destruct (decide (y = x)); cbn [length]; lia. Qed.

Lemma occ_nonneg x xs : 0 <= occ x xs.
Proof. unfold occ. lia. Qed.

Section Cbf.
Import CBF.

(** A filter that keeps its parameters. *)
Definition same_params (f f' : t) : Prop :=
  m_num_counters f' = m_num_counters f /\ m_ctr_thresh f' = m_ctr_thresh f /\
  m_saturate f' = m_saturate f /\ m_hash_functions f' = m_hash_functions f.

Lemma index_params f f' h x : same_params f f' -> index f' h x = index f h x.
Proof. unfold same_params, index. by intros [-> _]. Qed.

(** One insertion raises the counters of the element and lowers none. *)
Record inserted (x : Z) (hs : list (Z -> Z)) (f f' : t) : Prop := {
  in_params : same_params f f';
  in_length : length (m_counters f') = length (m_counters f);
  in_grow : forall i n, m_counters f !! i = Some n ->
    exists n', m_counters f' !! i = Some n' /\ n <= n' <= n + Z.of_nat (length hs);
  in_hit : forall h i n n', h ∈ hs -> index f h x = Ok (Z.of_nat i) ->
    m_counters f !! i = Some n -> m_counters f' !! i = Some n' -> n + 1 <= n' \/ m_ctr_thresh f <= n';
}.

Lemma insert_loop_spec x hs : forall f f', insert_loop x hs f = Ok f' ->
  (forall i n, m_counters f !! i = Some n -> 0 <= n /\ n + Z.of_nat (length hs) < 2 ^ 16) ->
  inserted x hs f f'.
Proof.
  induction hs as [|h hs IH]; intros f f' H Hb.
  { injection H as <-. constructor; [done|done| |].
    - intros i n Hn. exists n. split; [done|]. cbn [length]. lia.
    - intros h i n n' Hh. by apply not_elem_of_nil in Hh. }
  cbn [insert_loop] in H. apply bind_Ok in H as (idx & Hidx & H). apply bind_Ok in H as (c & Hc & H).
  apply bind_Ok in H as (l & Hl & H). apply vget_Ok in Hc as [H0 Hc].
  assert (exists c', l = <[Z.to_nat idx := c']> (m_counters f) /\ c <= c' <= c + 1 /\ (c + 1 <= c' \/ m_ctr_thresh f <= c')) as (c' & -> & Hc1 & Hc2).
  { destruct (negb (m_saturate f) || (c <? m_ctr_thresh f)) eqn:E.
    - apply vset_Ok in Hl as [_ ->]. exists (u16 (c + 1)). destruct (Hb _ _ Hc) as [Hc0 Hc1]. cbn [length] in Hc1.
      unfold u16. rewrite Z.mod_small by lia. split; [done|]. lia.
    - injection Hl as <-. apply orb_false_iff in E as [_ E%Z.ltb_ge]. exists c. rewrite list_insert_id by done. split; [done|lia]. }
  assert (forall i n, <[Z.to_nat idx := c']> (m_counters f) !! i = Some n ->
            exists n0, m_counters f !! i = Some n0 /\ n0 <= n <= n0 + 1) as Hback.
  { intros i n. intros [(<- & <- & _)|[_ Hi]]%list_lookup_insert_Some; [exists c; split; [done|lia]|exists n; split; [done|lia]]. }
  assert (forall i n, m_counters f !! i = Some n -> exists n1, <[Z.to_nat idx := c']> (m_counters f) !! i = Some n1 /\ n <= n1 <= n + 1) as Hfwd.
  { intros i n Hi. destruct (decide (i = Z.to_nat idx)) as [->|Hne].
    - exists c'. rewrite list_lookup_insert_eq by (by eapply lookup_lt_Some). split; [done|]. assert (n = c) by congruence. lia.
    - exists n. rewrite list_lookup_insert_ne by done. split; [done|lia]. }
  apply IH in H; [|cbn; intros i n Hi; destruct (Hback i n Hi) as (n0 & Hn0 & ?); destruct (Hb _ _ Hn0); cbn [length] in *; lia].
  destruct H as [Hp Hlen Hgrow Hhit]. constructor.
  - done.
  - rewrite Hlen. cbn. by rewrite length_insert.
  - intros i n Hi. destruct (Hfwd i n Hi) as (n1 & Hn1 & ?). destruct (Hgrow i n1 Hn1) as (n' & Hn' & ?).
    exists n'. split; [done|]. cbn [length]. lia.
  - intros k i n n' Hk Hki Hi Hi'. destruct (Hfwd i n Hi) as (n1 & Hn1 & Hn1'). destruct (Hgrow i n1 Hn1) as (n'' & Hn'' & ?).
    assert (n'' = n') as -> by congruence. apply elem_of_cons in Hk as [->|Hk].
    + rewrite Hki in Hidx. injection Hidx as <-. rewrite Nat2Z.id in *. assert (n = c) as -> by congruence.
      assert (n1 = c') as ->; [|lia]. rewrite list_lookup_insert_eq in Hn1 by (by eapply lookup_lt_Some). congruence.
    + destruct (Hhit k i n1 n' Hk Hki Hn1 Hi') as [?|?]; [left; lia|right; done].
Qed.

(** The counters of every element cover its insertions since the last reset, as long
    as the 16-bit counters cannot have wrapped. *)
Record covers (f : t) (xs : list Z) : Prop := {
  cv_range : forall i n, m_counters f !! i = Some n ->
    0 <= n <= Z.of_nat (length xs) * Z.of_nat (length (m_hash_functions f));
  cv_count : forall x h i n, h ∈ m_hash_functions f -> index f h x = Ok (Z.of_nat i) ->
    m_counters f !! i = Some n -> Z.min (m_ctr_thresh f) (occ x xs) <= n;
}.

Definition fits16 (f : t) (xs : list Z) : Prop :=
  (Z.of_nat (length xs) + 1) * Z.of_nat (length (m_hash_functions f)) < 2 ^ 16.

Lemma covers_reset f : covers (reset f) [].
Proof.
  constructor; cbn.
  - intros i n. rewrite list_lookup_fmap. intros Hn. destruct (m_counters f !! i); cbn in Hn; [|done].
    injection Hn as <-. lia.
  - intros x h i n _ _. rewrite list_lookup_fmap. intros Hn. destruct (m_counters f !! i); cbn in Hn; [|done].
    injection Hn as <-. unfold occ. cbn. lia.
Qed.

Lemma covers_insert x f f' xs : fits16 f xs -> covers f xs -> insert x f = Ok f' -> covers f' (x :: xs).
Proof.
  unfold fits16. intros Hfit [Hr Hc] H. apply insert_loop_spec in H.
  2:{ intros i n Hn. destruct (Hr i n Hn). split; [done|]. nia. }
  destruct H as [(Hp1 & Hp2 & Hp3 & Hp4) Hlen Hgrow Hhit]. constructor.
  - intros i n' Hn'. destruct (lookup_lt_is_Some_2 (m_counters f) i) as [n Hn].
    { rewrite <- Hlen. by eapply lookup_lt_Some. }
    destruct (Hgrow i n Hn) as (n'' & Hn'' & ?). assert (n'' = n') as -> by congruence.
    destruct (Hr i n Hn). rewrite Hp4. cbn [length]. lia.
  - intros y h i n' Hh Hi Hn'. rewrite Hp4 in Hh. rewrite (index_params f f') in Hi by done. rewrite Hp2.
    destruct (lookup_lt_is_Some_2 (m_counters f) i) as [n Hn].
    { rewrite <- Hlen. by eapply lookup_lt_Some. }
    destruct (Hgrow i n Hn) as (n'' & Hn'' & ?). assert (n'' = n') as -> by congruence.
    specialize (Hc y h i n Hh Hi Hn). rewrite occ_cons. destruct (decide (x = y)) as [->|]; [|lia].
    destruct (Hhit h i n n' Hh Hi Hn Hn'); lia.
Qed.

(** The arrays are as long as the number of counters, so no access is out of range. *)
Definition sized (f : t) : Prop :=
  0 < m_num_counters f < 2 ^ 31 /\ length (m_counters f) = Z.to_nat (m_num_counters f).

Lemma index_sized f h x : sized f -> exists i n, index f h x = Ok (Z.of_nat i) /\ m_counters f !! i = Some n.
Proof.
  intros [Hn Hl]. unfold index. assert (u32 (m_num_counters f) = m_num_counters f) as -> by (apply Z.mod_small; lia).
  rewrite (proj2 (Z.eqb_neq _ _)) by lia. pose proof (Z.mod_pos_bound (u32 (h (u32 x))) (m_num_counters f) ltac:(lia)).
  destruct (lookup_lt_is_Some_2 (m_counters f) (Z.to_nat (u32 (h (u32 x)) mod m_num_counters f))) as [n Hi]; [lia|].
  eexists _, n. split; [|exact Hi]. by rewrite Z2Nat.id by lia.
Qed.

Lemma covers_test x f xs : sized f -> covers f xs -> m_ctr_thresh f <= occ x xs -> test x f = Ok true.
Proof.
  intros Hs [_ Hc] Hocc. unfold test. assert (forall hs, (forall h, h ∈ hs -> h ∈ m_hash_functions f) -> test_loop x hs f = Ok true) as Hl;
    [|by apply Hl].
  induction hs as [|h hs IH]; intros Hsub; cbn [test_loop]; [done|].
  destruct (index_sized f h x Hs) as (i & n & Hi & Hn). rewrite Hi. cbn [mbind res_bind].
  assert (vget (m_counters f) (Z.of_nat i) = Ok n) as -> by (apply vget_Ok; split; [lia|by rewrite Nat2Z.id]).
  cbn [mbind res_bind]. rewrite IH by (intros k Hk; apply Hsub; by right). cbn [mbind res_bind].
  specialize (Hc x h i n ltac:(apply Hsub; by left) Hi Hn). by rewrite (proj2 (Z.leb_le _ _)) by lia.
Qed.
End Cbf.

(** ** The filters in turn *)
Inductive FilterOp : Type := Insert (x : Z) | Tick.

Fixpoint ticks_in (h : list FilterOp) : Z :=
  match h with
  | [] => 0
  | Insert _ :: h => ticks_in h
  | Tick :: h => ticks_in h + 1
  end.

(** The insertions after the [k]-th most recent end of an epoch ([k > 0]), newest
    first: those of the running epoch and of the [k - 1] epochs before it. *)
Fixpoint recent (len : Z) (k : nat) (h : list FilterOp) : list Z :=
  match h with
  | [] => []
  | Insert x :: h => x :: recent len k h
  | Tick :: h' =>
      if ticks_in h mod len =? 0 then
        match k with S (S k') => recent len (S k') h' | _ => [] end
      else recent len k h'
  end.

Section Ubf.
Import UBF.

Definition filter_op (o : FilterOp) (f : t) : res t :=
  match o with Insert x => insert x f | Tick => update f end.

Inductive filter_run (f0 : t) : t -> list FilterOp -> Prop :=
| filter_start : filter_run f0 f0 []
| filter_step f h o f' : filter_run f0 f h -> filter_op o f = Ok f' -> filter_run f0 f' (o :: h).

(** [num_hashes] hash functions, [thresh] and [len] for all filters. *)
Context (nh : nat) (thresh len : Z) (n : nat).
Context (Hlen : 0 < len < 2 ^ 31) (Hn : (0 < n)%nat).

Definition cbf_ok (f : CBF.t) (xs : list Z) : Prop :=
  sized f /\ CBF.m_ctr_thresh f = thresh /\ length (CBF.m_hash_functions f) = nh /\
  (Z.of_nat (length xs) * Z.of_nat nh < 2 ^ 16 -> covers f xs).

(** The filter that is asked has seen the last [n] epochs, the next one [n - 1], and
    so on around the ring. *)
Record ubf_inv (f : t) (h : list FilterOp) : Prop := {
  ui_len : m_len_epoch f = len;
  ui_count : length (m_filters f) = n;
  ui_tick : m_tick f = ticks_in h mod len;
  ui_idx : 0 <= m_test_idx f < Z.of_nat n;
  ui_filters : forall j, (j < n)%nat ->
    exists x, m_filters f !! ((Z.to_nat (m_test_idx f) + j) mod n)%nat = Some x /\ cbf_ok x (recent len (n - j) h);
}.

Lemma cbf_ok_reset f xs : cbf_ok f xs -> cbf_ok (CBF.reset f) [].
Proof.
  intros ([Hs1 Hs2] & Ht & Hh & _). split_and!; try done.
  - split; [done|]. cbn. by rewrite length_fmap.
  - intros _. apply covers_reset.
Qed.

Lemma insert_frame x f f' : CBF.insert x f = Ok f' ->
  same_params f f' /\ length (CBF.m_counters f') = length (CBF.m_counters f).
Proof.
  unfold CBF.insert. generalize (CBF.m_hash_functions f). intros hs. revert f.
  induction hs as [|h hs IH]; intros f H; [injection H as <-; done|]. cbn [CBF.insert_loop] in H.
  apply bind_Ok in H as (idx & _ & H). apply bind_Ok in H as (c & _ & H). apply bind_Ok in H as (l & Hl & H).
  apply IH in H as [(H1 & H2 & H3 & H4) H5]. split; [done|]. rewrite H5. cbn.
  destruct (_ || _); [|by injection Hl as <-]. apply vset_Ok in Hl as [_ ->]. by rewrite length_insert.
Qed.

Lemma cbf_ok_insert x f f' xs : cbf_ok f xs -> CBF.insert x f = Ok f' -> cbf_ok f' (x :: xs).
Proof.
  intros ([Hs1 Hs2] & Ht & Hh & Hc) H. destruct (insert_frame x f f' H) as [(H1 & H2 & H3 & H4) H5].
  split_and!; [split; congruence|congruence|congruence|]. cbn [length]. intros Hb.
  eapply covers_insert; [|apply Hc; nia|exact H]. unfold fits16. rewrite Hh. lia.
Qed.

Lemma insert_all_lookup x l : forall l', insert_all x l = Ok l' -> length l' = length l /\
  forall i f, l !! i = Some f -> exists f', l' !! i = Some f' /\ CBF.insert x f = Ok f'.
Proof.
  induction l as [|f l IH]; intros l' H; cbn [insert_all] in H; [by injection H as <-|].
  apply bind_Ok in H as (f' & Hf & H). apply bind_Ok in H as (l1 & Hl & H). injection H as <-.
  destruct (IH _ Hl) as [H1 H2]. split; [cbn; lia|]. intros [|i] g Hg; cbn in *; [|by apply H2].
  injection Hg as <-. eauto.
Qed.

Lemma ubf_insert_inv x f h f' : ubf_inv f h -> insert x f = Ok f' -> ubf_inv f' (Insert x :: h).
Proof.
  intros [H1 H2 H3 H4 H5] H. unfold insert in H. apply bind_Ok in H as (l & Hl & H). injection H as <-.
  apply insert_all_lookup in Hl as [Hlen' Hl]. constructor; cbn; try done; [congruence|].
  intros j Hj. destruct (H5 j Hj) as (g & Hg & Hok). destruct (Hl _ _ Hg) as (g' & Hg' & Hi).
  exists g'. split; [done|]. by eapply cbf_ok_insert.
Qed.

Lemma ubf_tick_inv f h f' : ubf_inv f h -> update f = Ok f' -> ubf_inv f' (Tick :: h).
Proof.
  intros [H1 H2 H3 H4 H5] H. unfold update in H.
  pose proof (Z.mod_pos_bound (ticks_in h) len ltac:(lia)) as Hm.
  rewrite H1, H3, !u64_small in H by lia.
  assert (ticks_in (Tick :: h) mod len = if ticks_in h mod len + 1 =? len then 0 else ticks_in h mod len + 1) as Ht.
  { cbn [ticks_in]. rewrite <- Zplus_mod_idemp_l. destruct (Z.eqb_spec (ticks_in h mod len + 1) len) as [->|].
    - apply Z.mod_same. lia.
    - apply Z.mod_small. lia. }
  destruct (Z.leb_spec len (ticks_in h mod len + 1)).
  - rewrite (proj2 (Z.eqb_eq _ _)) in Ht by lia.
    apply bind_Ok in H as (x & Hx & H). apply bind_Ok in H as (l & Hl & H). injection H as <-.
    apply vget_Ok in Hx as [_ Hx]. apply vset_Ok in Hl as [_ ->].
    assert (Z.to_nat ((m_test_idx f + 1) mod Z.of_nat n) = ((Z.to_nat (m_test_idx f) + 1) mod n)%nat) as Hidx.
    { rewrite Z2Nat.inj_mod, Z2Nat.inj_add, Nat2Z.id by lia. done. }
    constructor; cbn [m_len_epoch m_filters m_tick m_test_idx]; rewrite ?length_insert, ?H2; try done.
    + apply Z.mod_pos_bound. lia.
    + intros j Hj. rewrite Hidx, Nat.Div0.add_mod_idemp_l. cbn [recent]. rewrite Ht, Z.eqb_refl.
      destruct (decide (j = n - 1)%nat) as [->|Hne].
      * replace ((Z.to_nat (m_test_idx f) + 1 + (n - 1)) mod n)%nat with (Z.to_nat (m_test_idx f)).
        2:{ replace (Z.to_nat (m_test_idx f) + 1 + (n - 1))%nat with (Z.to_nat (m_test_idx f) + 1 * n)%nat by lia.
            rewrite Nat.Div0.mod_add, Nat.mod_small by lia. done. }
        exists (CBF.reset x). rewrite list_lookup_insert_eq by (by eapply lookup_lt_Some). split; [done|].
        replace (n - (n - 1))%nat with 1%nat by lia. destruct (H5 0%nat Hn) as (y & Hy & Hok).
        rewrite Nat.add_0_r, Nat.mod_small in Hy by lia. assert (y = x) as -> by congruence. by eapply cbf_ok_reset.
      * destruct (H5 (S j) ltac:(lia)) as (y & Hy & Hok). exists y.
        replace (Z.to_nat (m_test_idx f) + 1 + j)%nat with (Z.to_nat (m_test_idx f) + S j)%nat by lia. split.
        -- rewrite list_lookup_insert_ne; [done|]. intros He.
           assert (Z.to_nat (m_test_idx f) < n)%nat as Hlt by lia.
           pose proof (Nat.Div0.div_mod (Z.to_nat (m_test_idx f) + S j) n) as Hdm. rewrite <- He in Hdm.
           assert (S j = n * ((Z.to_nat (m_test_idx f) + S j) / n))%nat as Hsj by lia.
           destruct ((Z.to_nat (m_test_idx f) + S j) / n)%nat as [|q]; [lia|nia].
        -- replace (n - j)%nat with (S (S (n - S j - 1))) by lia.
           replace (n - S j)%nat with (S (n - S j - 1)) in Hok by lia. done.
  - rewrite (proj2 (Z.eqb_neq _ _)) in Ht by lia. injection H as <-.
    constructor; cbn [m_len_epoch m_filters m_tick m_test_idx]; try done.
    intros j Hj. cbn [recent]. rewrite Ht, (proj2 (Z.eqb_neq _ _)) by lia. by apply H5.
Qed.

Lemma ubf_test f h x : ubf_inv f h -> Z.of_nat (length (recent len n h)) * Z.of_nat nh < 2 ^ 16 ->
  thresh <= occ x (recent len n h) -> test x f = Ok true.
Proof.
  intros [H1 H2 H3 H4 H5] Hb Hocc. destruct (H5 0%nat Hn) as (y & Hy & Hs & Ht & Hh & Hc).
  rewrite Nat.add_0_r, Nat.mod_small in Hy by lia. rewrite Nat.sub_0_r in Hc. unfold test.
  assert (vget (m_filters f) (m_test_idx f) = Ok y) as -> by (apply vget_Ok; split; [lia|done]).
  cbn [mbind res_bind]. eapply covers_test; [done|by apply Hc|by rewrite Ht].
Qed.
End Ubf.

(** A bank filter as [setup] builds it. *)
Definition bank_filter (count thresh : Z) (saturate : bool) (hashes : list (Z -> Z)) (n : nat) (len : Z) : UBF.t :=
  UBF.new (replicate n (CBF.new count thresh saturate hashes)) len.

Lemma bank_filter_inv count thresh saturate hashes n len : 0 < count < 2 ^ 31 -> 0 < len < 2 ^ 31 -> (0 < n)%nat ->
  ubf_inv (length hashes) thresh len n (bank_filter count thresh saturate hashes n len) [].
Proof.
  intros Hc Hl Hn. constructor; cbn; rewrite ?length_replicate; try done; try lia.
  intros j Hj. exists (CBF.new count thresh saturate hashes).
  rewrite (Nat.mod_small j) by lia. split; [by apply lookup_replicate|]. split_and!; try done.
  - split; [done|]. cbn. by rewrite length_fmap, length_replicate.
  - intros _. apply covers_reset.
Qed.

(** Property C31.  BlockHammer's filters have no false negatives: with any hash functions
    and any number [n] of filters, a row that was activated at least [thresh] times
    within the running epoch and the [n - 1] epochs before it is reported, whatever
    else was activated and whether or not counters saturate, as long as the 16-bit
    counters cannot wrap in this window. *)
Theorem blockhammer_filter_complete count thresh saturate hashes n len f h x :
  0 < count < 2 ^ 31 -> 0 < len < 2 ^ 31 -> (0 < n)%nat ->
  filter_run (bank_filter count thresh saturate hashes n len) f h ->
  Z.of_nat (length (recent len n h)) * Z.of_nat (length hashes) < 2 ^ 16 ->
  thresh <= occ x (recent len n h) ->
  UBF.test x f = Ok true.
Proof.
  intros Hc Hl Hn Hrun. apply ubf_test; try done.
  induction Hrun as [|f h o f' _ IH Ho]; [by apply bank_filter_inv|].
  destruct o; cbn in Ho; [by eapply ubf_insert_inv|by eapply ubf_tick_inv].
Qed.

(** ** The history buffer *)
Section History.
Import HistoryBuffer.

Fixpoint updates (k : nat) (h : t) : res t :=
  match k with O => Ok h | S k => h ← update h; updates k h end.

(** Updates that meet no element in the counters only advance the clock. *)
Lemma updates_idle k : forall tick size freq l c, 0 < size -> 0 <= tick -> tick + Z.of_nat k < 2 ^ 64 ->
  length l = Z.to_nat size ->
  (forall j, tick < j <= tick + Z.of_nat k -> forall e s, l !! Z.to_nat (j mod size) = Some (e, s) -> c !! e = None) ->
  updates k (mk tick size freq l c) = Ok (mk (tick + Z.of_nat k) size freq l c).
Proof.
  induction k as [|k IH]; intros tick size freq l c Hs Ht Hk Hl Hidle; cbn [updates].
  { by rewrite Z.add_0_r. }
  unfold update. cbn. rewrite u64_small by lia. unfold slot. cbn. rewrite (proj2 (Z.eqb_neq _ _)) by lia. cbn.
  pose proof (Z.mod_pos_bound (tick + 1) size ltac:(lia)).
  destruct (lookup_lt_is_Some_2 l (Z.to_nat ((tick + 1) mod size))) as [[e s] He]; [lia|].
  assert (vget l ((tick + 1) mod size) = Ok (e, s)) as -> by (apply vget_Ok; split; [lia|done]). cbn.
  rewrite (Hidle (tick + 1) ltac:(lia) e s He). cbn. rewrite IH; try done; try lia.
  - f_equal. f_equal. lia.
  - intros j Hj. apply Hidle. lia.
Qed.

(** The counter of an element that is met is taken off the counters at zero. *)
Lemma update_expire tick size freq l x s : 0 < size -> 0 <= tick -> tick + 1 < 2 ^ 64 ->
  l !! Z.to_nat ((tick + 1) mod size) = Some (x, s) ->
  update (mk tick size freq l {[x := 1]}) = Ok (mk (tick + 1) size freq l ∅).
Proof.
  intros Hs Ht Hk Hl. unfold update. cbn. rewrite u64_small by lia. unfold slot. cbn.
  rewrite (proj2 (Z.eqb_neq _ _)) by lia. cbn. pose proof (Z.mod_pos_bound (tick + 1) size ltac:(lia)).
  assert (vget l ((tick + 1) mod size) = Ok (x, s)) as -> by (apply vget_Ok; split; [lia|done]). cbn.
  rewrite lookup_singleton_eq. cbn. by rewrite delete_singleton_eq.
Qed.

Lemma updates_app a b h : updates (a + b) h = (h ← updates a h; updates b h).
Proof.
  revert h. induction a as [|a IH]; intros h; [done|]. cbn. destruct (update h); cbn; [apply IH|done].
Qed.

(** An activation can be forgotten after one tick: expired entries stay in
    the ring, so that an entry from two rounds ago takes the counter of a new activation of
    the same row away.  For every size [n >= 2] and every row, the row activated in
    tick 0 and again in tick [2n - 1] is reported as recent at that moment and no
    longer one tick later, although the buffer is meant to remember it for [n] ticks. *)
Theorem blockhammer_history_forgets n x : 2 <= n < 2 ^ 31 -> 0 <= x ->
  exists h1 h2 h3 h4,
    insert x (new n 1) = Ok h1 /\ updates (Z.to_nat (2 * n - 1)) h1 = Ok h2 /\ insert x h2 = Ok h3 /\
    search x h3 = true /\ update h3 = Ok h4 /\ search x h4 = false.
Proof.
  intros Hn Hx. set (l0 := replicate (Z.to_nat n) (-1, 2 ^ 64 - 1) : list (Z * Z)).
  set (l1 := <[0%nat := (x, 0)]> l0).
  assert (length l1 = Z.to_nat n) as Hl1 by (unfold l1, l0; by rewrite length_insert, length_replicate).
  assert (forall j, 0 < j < n -> forall e s, l1 !! Z.to_nat j = Some (e, s) -> e = -1) as Hold.
  { intros j Hj e s. unfold l1. rewrite list_lookup_insert_ne by lia. intros [[= -> _] _]%lookup_replicate. done. }
  assert (l1 !! 0%nat = Some (x, 0)) as Hx0.
  { unfold l1. apply list_lookup_insert_eq. unfold l0. rewrite length_replicate. lia. }
  (* tick 0 *)
  assert (insert x (new n 1) = Ok (mk 0 n 1 l1 {[x := 1]})) as H1.
  { unfold new, insert, slot. cbn. assert (u32 n = n) as -> by (apply Z.mod_small; lia).
    rewrite (proj2 (Z.eqb_neq _ _)) by lia. cbn [mbind res_bind]. rewrite Z.mod_0_l by lia. fold l0.
    assert (vset l0 0 (x, 0) = Ok l1) as -> by (apply vset_Ok; unfold l0; rewrite length_replicate; split; [lia|done]).
    cbn. by rewrite lookup_empty. }
  (* the first round: the entry expires in tick n; the second round meets nothing *)
  assert (updates (Z.to_nat (2 * n - 1)) (mk 0 n 1 l1 {[x := 1]}) = Ok (mk (2 * n - 1) n 1 l1 ∅)) as H2.
  { replace (Z.to_nat (2 * n - 1)) with (Z.to_nat (n - 1) + (1 + Z.to_nat (n - 1)))%nat by lia.
    rewrite updates_app, updates_idle; try lia.
    2:{ intros j Hj e s. rewrite Z.mod_small by lia. intros He. rewrite (Hold j ltac:(lia) e s He).
        apply lookup_singleton_ne. lia. }
    cbn [mbind res_bind]. rewrite updates_app. cbn [updates]. rewrite (update_expire _ _ _ _ x 0); try lia.
    2:{ replace (0 + Z.of_nat (Z.to_nat (n - 1)) + 1) with n by lia. by rewrite Z.mod_same by lia. }
    cbn [mbind res_bind]. rewrite updates_idle; try lia.
    - do 2 f_equal. lia.
    - intros j Hj e s _. apply lookup_empty. }
  set (l2 := <[Z.to_nat (n - 1) := (x, 2 * n - 1)]> l1).
  assert (insert x (mk (2 * n - 1) n 1 l1 ∅) = Ok (mk (2 * n - 1) n 1 l2 {[x := 1]})) as H3.
  { unfold insert, slot. cbn. rewrite (proj2 (Z.eqb_neq _ _)) by lia. cbn.
    replace ((2 * n - 1) mod n) with (n - 1) by (apply Z.mod_unique with 1; lia).
    assert (vset l1 (n - 1) (x, 2 * n - 1) = Ok l2) as -> by (apply vset_Ok; rewrite Hl1; split; [lia|done]).
    cbn. by rewrite lookup_empty. }
  assert (update (mk (2 * n - 1) n 1 l2 {[x := 1]}) = Ok (mk (2 * n) n 1 l2 ∅)) as H4.
  { rewrite (update_expire _ _ _ _ x 0); try lia.
    - do 2 f_equal. lia.
    - replace (2 * n - 1 + 1) with (2 * n) by lia. rewrite Z.mod_mul by lia. unfold l2.
      by rewrite list_lookup_insert_ne by lia. }
  do 4 eexists. split; [exact H1|]. split; [exact H2|]. split; [exact H3|].
  split; [|split; [exact H4|]]; unfold search, exists_elem, exceeds; cbn.
  - rewrite lookup_singleton_eq. done.
  - rewrite lookup_empty. done.
Qed.

Lemma blockhammer_history_forgets_witness : exists h1 h2 h3 h4,
  insert 7 (new 16 1) = Ok h1 /\ updates 31 h1 = Ok h2 /\ insert 7 h2 = Ok h3 /\
  search 7 h3 = true /\ update h3 = Ok h4 /\ search 7 h4 = false.
Proof. apply (blockhammer_history_forgets 16 7); lia. Defined.
End History.

(** ** The blocking scheduler *)
Section Blocking.
Context `{D : IDRAM} (is_act_safe : Request -> res bool).
Import BlockingScheduler.

(** No request of [P] other than [x] itself comes before [x]. *)
Definition leads (dv : dev) (x : nat * Request) (P : nat -> Request -> Prop) : Prop :=
  forall j y, P j y -> (j, y) = x \/
    exists rx ry, req_ready dv x.2 = Ok rx /\ req_ready dv y = Ok ry /\ precedes rx ry x (j, y).

Lemma leads_compare dv x k r z P : FRFCFS.compare dv x (k, r) = Ok z -> (x.1 < k)%nat ->
  leads dv x P -> leads dv z (fun j y => P j y \/ (j, y) = x \/ (j, y) = (k, r)) /\ (z = x \/ z = (k, r)).
Proof.
  intros Hc Hk Hl. destruct (compare_spec dv x (k, r) z Hc Hk) as (rx & ry & Hrx & Hry & Hor). cbn in Hry.
  destruct Hor as [[-> Hp]|[-> Hp]]; (split; [|by auto]); intros j y [HP|[Hx|[= -> ->]]].
  - by apply Hl.
  - by left.
  - right. exists rx, ry. done.
  - destruct (Hl j y HP) as [<-|(rx' & ry' & Hrx' & Hry' & Hp')].
    + right. exists ry, rx. done.
    + right. exists ry, ry'. split_and!; try done. assert (rx' = rx) as -> by congruence. by eapply precedes_trans.
  - right. exists ry, rx. by subst x.
  - by left.
Qed.

Lemma leads_weaken dv x (P Q : nat -> Request -> Prop) : (forall j y, Q j y -> P j y) -> leads dv x P -> leads dv x Q.
Proof. intros HQ Hl j y Hj. apply Hl. auto. Qed.

(** From a candidate that lies before the rest of the buffer. *)
Lemma best_loop_after dv l : forall cand k z P, best_loop is_act_safe dv cand k l = Ok z -> (cand.1 < k)%nat ->
  leads dv cand P -> P cand.1 cand.2 ->
  leads dv z (fun j y => P j y \/ ((k <= j)%nat /\ l !! (j - k)%nat = Some y /\ is_act_safe y = Ok true)) /\
  (z = cand \/ ((k <= z.1)%nat /\ l !! (z.1 - k)%nat = Some z.2 /\ is_act_safe z.2 = Ok true)).
Proof.
  induction l as [|r l IH]; intros cand k z P H Hk Hl HP; cbn [best_loop] in H.
  { injection H as <-. split; [|by left]. intros j y [Hj|(_ & Hj & _)]; [by apply Hl|by rewrite lookup_nil in Hj]. }
  apply bind_Ok in H as (safe & Hs & H). apply bind_Ok in H as (c & Hc & H).
  assert (forall j y (Q : nat -> Request -> Prop), ((k <= j)%nat /\ (r :: l) !! (j - k)%nat = Some y /\ is_act_safe y = Ok true) ->
    (safe = true -> Q k r) -> (((S k <= j)%nat /\ l !! (j - S k)%nat = Some y /\ is_act_safe y = Ok true) -> Q j y) -> Q j y) as Hsplit.
  { intros j y Q (Hle & Hy & Hsy) Hq1 Hq2. destruct (decide (j = k)) as [->|Hne].
    - rewrite Nat.sub_diag in Hy. injection Hy as <-. apply Hq1. congruence.
    - apply Hq2. split; [lia|]. replace (j - k)%nat with (S (j - S k)) in Hy by lia. done. }
  assert (forall w : nat * Request, (S k <= w.1)%nat /\ l !! (w.1 - S k)%nat = Some w.2 /\ is_act_safe w.2 = Ok true ->
    (k <= w.1)%nat /\ (r :: l) !! (w.1 - k)%nat = Some w.2 /\ is_act_safe w.2 = Ok true) as Hlift.
  { intros w (Hle & Hw & Hsw). split; [lia|]. split; [|done]. by replace (w.1 - k)%nat with (S (w.1 - S k)) by lia. }
  destruct safe.
  - destruct (leads_compare _ _ _ _ _ _ Hc Hk Hl) as [Hlc Hor].
    destruct (IH c (S k) z _ H ltac:(destruct Hor as [->| ->]; cbn; lia) Hlc) as [Hlz Hz].
    { destruct Hor as [->| ->]; right; [left|right]; [by destruct cand|done]. }
    split.
    + intros j y [Hj|Hj]; [apply Hlz; by left; left|]. apply Hlz.
      pattern j, y. apply (Hsplit j y _ Hj); [intros _; left; right; by right|intros Hj'; by right].
    + destruct Hz as [->|Hz]; [|right; by apply Hlift]. destruct Hor as [->| ->]; [by left|right].
      cbn. rewrite Nat.sub_diag. done.
  - injection Hc as <-. destruct (IH cand (S k) z P H ltac:(lia) Hl HP) as [Hlz Hz]. split.
    + intros j y [Hj|Hj]; [apply Hlz; by left|]. apply Hlz. pattern j, y. apply (Hsplit j y _ Hj); [done|intros Hj'; by right].
    + destruct Hz as [->|Hz]; [by left|right; by apply Hlift].
Qed.

Lemma first_safe_spec l : forall i c, first_safe is_act_safe i l = Ok c ->
  match c with
  | None => Forall (fun r => is_act_safe r = Ok false) l
  | Some (k, r) => (i <= k)%nat /\ l !! (k - i)%nat = Some r /\ is_act_safe r = Ok true /\
      forall j y, (j < k - i)%nat -> l !! j = Some y -> is_act_safe y = Ok false
  end.
Proof.
  induction l as [|r l IH]; intros i c H; cbn [first_safe] in H; [injection H as <-; constructor|].
  apply bind_Ok in H as (safe & Hs & H). destruct safe.
  { injection H as <-. rewrite Nat.sub_diag. split_and!; try done. intros j y Hj. lia. }
  specialize (IH (S i) c H). destruct c as [[k q]|]; [|by constructor].
  destruct IH as (Hle & Hq & Hsq & Hall). split_and!; [lia| |done|].
  - by replace (k - i)%nat with (S (k - S i)) by lia.
  - intros [|j] y Hj Hy; cbn in Hy; [by injection Hy as <-|]. apply (Hall j y); [lia|done].
Qed.

Lemma compare_self dv x z : FRFCFS.compare dv x x = Ok z -> z = x.
Proof.
  unfold FRFCFS.compare. intros (r1 & H1 & H)%bind_Ok. apply bind_Ok in H as (r2 & H2 & H).
  rewrite xorb_nilpotent in H || (assert (r1 = r2) as -> by congruence; rewrite xorb_nilpotent in H).
  rewrite Z.leb_refl in H. by injection H as <-.
Qed.

(** The loop starts behind the head and passes over the unsafe requests before the
    candidate and the candidate itself. *)
Lemma best_loop_skip dv c z l : forall k, (k <= c.1)%nat -> l !! (c.1 - k)%nat = Some c.2 ->
  is_act_safe c.2 = Ok true -> (forall j y, (j < c.1 - k)%nat -> l !! j = Some y -> is_act_safe y = Ok false) ->
  best_loop is_act_safe dv c k l = Ok z -> best_loop is_act_safe dv c (S c.1) (drop (S (c.1 - k)) l) = Ok z.
Proof.
  induction l as [|r l IH]; intros k Hk Hc Hs Hall H; [by rewrite lookup_nil in Hc|]. cbn [best_loop] in H.
  apply bind_Ok in H as (safe & Hr & H). apply bind_Ok in H as (c1 & Hc1 & H).
  destruct (decide (k = c.1)) as [->|Hne].
  - rewrite Nat.sub_diag in *. injection Hc as ->. rewrite Hs in Hr. injection Hr as <-.
    rewrite <- surjective_pairing in Hc1. apply compare_self in Hc1 as ->. cbn. by rewrite drop_0.
  - replace (c.1 - k)%nat with (S (c.1 - S k)) in * by lia. cbn in Hc.
    assert (is_act_safe r = Ok false) as Hr' by (apply (Hall 0%nat r); [lia|done]).
    rewrite Hr' in Hr. injection Hr as <-. injection Hc1 as <-. cbn [drop].
    apply (IH (S k)); try done; [lia|]. intros j y Hj Hy. apply (Hall (S j) y); [lia|done].
Qed.

(** The blocking scheduler holds back exactly the unsafe requests: it returns
    [end()] only if every request of the buffer is unsafe, and otherwise a safe one
    that is, among the safe requests, ready if any is, the oldest of those and the
    first of equals. *)
Theorem blocking_scheduler_safe dv b it b' :
  get_best_request is_act_safe dv b = Ok (it, b') ->
  Forall2 (fun r r' => with_preq dv r = Ok r') (buffer b) (buffer b') /\
  (it = None -> Forall (fun r => is_act_safe r = Ok false) (buffer b')) /\
  (forall i, it = Some i -> exists r, buffer b' !! i = Some r /\ is_act_safe r = Ok true /\
     forall j y, buffer b' !! j = Some y -> is_act_safe y = Ok true -> (j, y) = (i, r) \/
       exists rx ry, req_ready dv r = Ok rx /\ req_ready dv y = Ok ry /\ precedes rx ry (i, r) (j, y)).
Proof.
  unfold get_best_request. destruct (buffer b) as [|q0 l0] eqn:Eb.
  { intros [= <- <-]. rewrite Eb. repeat split; [constructor|constructor|done]. }
  intros H. apply bind_Ok in H as (l & Hl & H). pose proof (with_preqs_Forall2 _ _ _ Hl) as HF.
  apply bind_Ok in H as (c & Hc & H). apply first_safe_spec in Hc. destruct c as [[k r]|].
  2:{ injection H as <- <-. done. }
  destruct Hc as (_ & Hk & Hsk & Hunsafe). rewrite Nat.sub_0_r in Hk, Hunsafe.
  apply bind_Ok in H as ([i x] & Hb & H). injection H as <- <-. cbn [buffer]. split; [done|]. split; [done|].
  intros i' [= <-].
  assert (best_loop is_act_safe dv (k, r) (S k) (drop (S k) l) = Ok (i, x)) as Hafter.
  { destruct k as [|k]; [by destruct l|]. destruct l as [|q l]; [done|].
    replace (drop (S (S k)) (q :: l)) with (drop (S (S k - 1)) l) by (cbn; by rewrite Nat.sub_0_r).
    apply (best_loop_skip dv (S k, r) (i, x) l 1); cbn; try done; rewrite ?Nat.sub_0_r; [lia|done|].
    intros j y Hj Hy. apply (Hunsafe (S j) y); [lia|done]. }
  destruct (best_loop_after dv (drop (S k) l) (k, r) (S k) (i, x) (fun j y => (j, y) = (k, r)) Hafter) as [Hlead Hz];
    [cbn; lia|intros j y ->; by left|done|]. cbn [fst snd] in *.
  exists x. assert (l !! i = Some x /\ is_act_safe x = Ok true) as [Hx Hsx].
  { destruct Hz as [[= -> ->]|(Hle & Hx & Hsx)]; [done|]. rewrite lookup_drop in Hx.
    by replace (S k + (i - S k))%nat with i in Hx by lia. }
  split_and!; try done. intros j y Hy Hsy. apply (Hlead j y).
  destruct (decide (j < k)%nat) as [Hlt|Hge].
  { rewrite (Hunsafe j y Hlt Hy) in Hsy. done. }
  destruct (decide (j = k)) as [->|Hne]; [left; congruence|right]. split; [lia|]. split; [|done].
  rewrite lookup_drop. by replace (S k + (j - S k))%nat with j by lia.
Qed.
End Blocking.

(** ** Witnesses *)

(** Two filters of eight counters, epochs of three ticks: the second activation of row 5
    is counted in the epoch after the first. *)
Definition demo_filter : UBF.t :=
  bank_filter 8 2 false (BlockHammer.hash_function 8 <$> [0; 1]) 2 3.

Definition apply_op (f : UBF.t) (o : FilterOp) : UBF.t := from_res f (filter_op o f).
Definition demo_ops : list FilterOp := [Insert 5; Tick; Tick; Tick; Insert 9; Insert 5].

Lemma blockhammer_filter_complete_witness : exists f,
  filter_run demo_filter f (rev demo_ops) /\ UBF.m_test_idx f = 1 /\ UBF.test 5 f = Ok true.
Proof.
  assert (filter_run demo_filter (fold_left apply_op demo_ops demo_filter) (rev demo_ops)) as Hrun.
  { cbn [demo_ops rev app fold_left].
    repeat (eapply filter_step; [|apply from_res_Ok; vm_compute; reflexivity]). apply filter_start. }
  exists (fold_left apply_op demo_ops demo_filter). split; [exact Hrun|]. split; [vm_compute; reflexivity|].
  apply (blockhammer_filter_complete 8 2 false (BlockHammer.hash_function 8 <$> [0; 1]) 2 3 _ _ 5 ltac:(lia) ltac:(lia) ltac:(lia) Hrun);
    vm_compute; done.
Defined.

(** The older request opens a row in a bank group that is held back. *)
Definition hold_group1 (r : Request) : res bool := Ok (negb (nth 2 (addr_vec r) 0 =? 1)).

Lemma blocking_scheduler_safe_witness :
  exists b' r, BlockingScheduler.get_best_request (D := DDR4_dram demo_d) hold_group1 demo_s demo_buffer = Ok (Some 0%nat, b') /\
    buffer b' !! 0%nat = Some r /\ hold_group1 r = Ok true.
Proof.
  assert (match BlockingScheduler.get_best_request (D := DDR4_dram demo_d) hold_group1 demo_s demo_buffer with
          | Ok (Some i, _) => Nat.eqb i 0 | _ => false end = true) as Hb by (vm_compute; reflexivity).
  destruct (BlockingScheduler.get_best_request (D := DDR4_dram demo_d) hold_group1 demo_s demo_buffer) as [[[i|] b']|e] eqn:E;
    try discriminate Hb.
  apply Nat.eqb_eq in Hb as ->. exists b'.
  destruct (blocking_scheduler_safe (D := DDR4_dram demo_d) hold_group1 demo_s demo_buffer _ _ E) as (_ & _ & Hi).
  destruct (Hi 0%nat eq_refl) as (r & Hr & Hs & _). exists r. split; [reflexivity|]. split; [exact Hr|exact Hs].
Defined.
