(* ===== verification/BhLlc.v ===== *)
(** * The last-level cache of the BH processor: [BHO3LLC]

    Models [frontend/impl/processor/bhO3/bhllc.h] and [bhllc.cpp]: sets kept as
    recency lists, miss status holding registers (MSHRs) that point into the
    lists, the two latency queues, the limits on the MSHRs of blacklisted
    cores, and the checkpoint of the cache in a file. *)
From Stdlib Require Import String Ascii.
From S2P Require Import Prelude Utils DramSpec Dram Request SniperTrace.
Local Open Scope string_scope.
Local Open Scope Z_scope.

(** ** What the cache uses of the memory system

    A request is accepted or refused; the reads a cycle completes are returned
    in the order of their callbacks. *)
Class IBHMemory : Type := {
  bh_state : Type;
  bh_send : Request -> bh_state -> res (bool * bh_state);
  bh_tick : bh_state -> res (list Request * bh_state);
}.

Module BHO3LLC.

(** A line of the cache.  [l_node] is the identity of its [std::list] node,
    which iterators refer to. *)
Record Line : Type := mkLine {
  l_addr : Z;
  l_tag : Z;
  l_dirty : bool;
  l_ready : bool;
  l_node : nat;
}.

(** Members that the constructor fixes. *)
Record Config : Type := mkConfig {
  m_latency : Z;
  m_size_bytes : Z;
  m_linesize_bytes : Z;
  m_associativity : Z;
  m_num_mshrs : Z;
  m_set_size : Z;
  m_index_mask : Z;
  m_index_offset : Z;
  m_tag_offset : Z;
  m_mshr_per_core : Z;
}.

Record Stats : Type := mkStats {
  s_llc_read_access : Z;
  s_llc_write_access : Z;
  s_llc_read_misses : Z;
  s_llc_write_misses : Z;
  s_llc_eviction : Z;
  s_llc_mshr_unavailable : Z;
  s_llc_mshr_blacklisted : Z;
}.

(** An MSHR: the address of the first request and the iterator to its line,
    which is the index of the set and the node in the set's list. *)
Definition MSHREntry : Type := Z * (Z * nat).

Record t : Type := mk {
  m_clk : Z;
  m_cache_sets : gmap Z (list Line);
  m_mshrs : list MSHREntry;
  m_receive_requests : gmap Z (list Request);
  m_miss_list : list (Z * Request);
  m_hit_list : list (Z * Request);
  m_allocated_mshrs : list Z;
  m_blacklist_max_mshrs : list Z;
  m_blacklist_status : list bool;
  stats : Stats;
  next_node : nat;
}.

(** ** Construction *)
Definition new_config (latency size_bytes linesize_bytes associativity num_mshrs num_cores : Z) : res Config :=
  let ways := u64 (u64 linesize_bytes * u64 associativity) in
  if (ways =? 0) || (num_cores =? 0) then Err Undef else
  let set_size := i32 (u64 size_bytes / ways) in
  off ← calc_log2 (u64 linesize_bytes);
  sets ← calc_log2 set_size;
  Ok (mkConfig latency (u64 size_bytes) (u64 linesize_bytes) associativity num_mshrs set_size
        (set_size - 1) off (sets + off) (Z.quot num_mshrs num_cores)).

Definition new (num_cores : nat) : t :=
  mk 0 ∅ [] ∅ [] [] (replicate num_cores 0) (replicate num_cores 0) (replicate num_cores false)
    (mkStats 0 0 0 0 0 0 0) 0.

(** [connect_memory_system]: the organisation of the device. *)
Record Organization : Type := mkOrganization {
  m_rank_level : Z; m_bank_group_level : Z; m_bank_level : Z; m_row_level : Z;
  m_num_ranks : Z; m_num_banks_per_rank : Z; m_num_rows_per_bank : Z;
}.

Definition connect_memory_system `{D : IDRAM} : res Organization :=
  rank ← def_of_name dram_levels "rank";
  bg ← def_of_name dram_levels "bankgroup";
  bank ← def_of_name dram_levels "bank";
  row ← def_of_name dram_levels "row";
  nr ← get_level_size "rank";
  nbg ← get_level_size "bankgroup";
  nb ← get_level_size "bank";
  nrow ← get_level_size "row";
  Ok (mkOrganization rank bg bank row nr (if nbg =? -1 then nb else nbg * nb) nrow).

(** ** Field updates *)
Definition set_sets (m : gmap Z (list Line)) (s : t) : t :=
  mk (m_clk s) m (m_mshrs s) (m_receive_requests s) (m_miss_list s) (m_hit_list s)
    (m_allocated_mshrs s) (m_blacklist_max_mshrs s) (m_blacklist_status s) (stats s) (next_node s).
Definition set_mshrs (l : list MSHREntry) (s : t) : t :=
  mk (m_clk s) (m_cache_sets s) l (m_receive_requests s) (m_miss_list s) (m_hit_list s)
    (m_allocated_mshrs s) (m_blacklist_max_mshrs s) (m_blacklist_status s) (stats s) (next_node s).
Definition set_receive (m : gmap Z (list Request)) (s : t) : t :=
  mk (m_clk s) (m_cache_sets s) (m_mshrs s) m (m_miss_list s) (m_hit_list s)
    (m_allocated_mshrs s) (m_blacklist_max_mshrs s) (m_blacklist_status s) (stats s) (next_node s).
Definition set_lists (clk : Z) (miss hit : list (Z * Request)) (s : t) : t :=
  mk clk (m_cache_sets s) (m_mshrs s) (m_receive_requests s) miss hit
    (m_allocated_mshrs s) (m_blacklist_max_mshrs s) (m_blacklist_status s) (stats s) (next_node s).
Definition set_allocated (l : list Z) (s : t) : t :=
  mk (m_clk s) (m_cache_sets s) (m_mshrs s) (m_receive_requests s) (m_miss_list s) (m_hit_list s)
    l (m_blacklist_max_mshrs s) (m_blacklist_status s) (stats s) (next_node s).
Definition set_blacklist (maxs : list Z) (status : list bool) (s : t) : t :=
  mk (m_clk s) (m_cache_sets s) (m_mshrs s) (m_receive_requests s) (m_miss_list s) (m_hit_list s)
    (m_allocated_mshrs s) maxs status (stats s) (next_node s).
Definition set_stats (st : Stats) (s : t) : t :=
  mk (m_clk s) (m_cache_sets s) (m_mshrs s) (m_receive_requests s) (m_miss_list s) (m_hit_list s)
    (m_allocated_mshrs s) (m_blacklist_max_mshrs s) (m_blacklist_status s) st (next_node s).
Definition bump_node (s : t) : t :=
  mk (m_clk s) (m_cache_sets s) (m_mshrs s) (m_receive_requests s) (m_miss_list s) (m_hit_list s)
    (m_allocated_mshrs s) (m_blacklist_max_mshrs s) (m_blacklist_status s) (stats s) (S (next_node s)).

(** ** Statistics *)
Definition count_access (ty : Z) (s : t) : t :=
  let st := stats s in
  set_stats (mkStats
    (if ty =? ReqType.Read then s_llc_read_access st + 1 else s_llc_read_access st)
    (if ty =? ReqType.Write then s_llc_write_access st + 1 else s_llc_write_access st)
    (s_llc_read_misses st) (s_llc_write_misses st) (s_llc_eviction st)
    (s_llc_mshr_unavailable st) (s_llc_mshr_blacklisted st)) s.
Definition count_miss (ty : Z) (s : t) : t :=
  let st := stats s in
  set_stats (mkStats (s_llc_read_access st) (s_llc_write_access st)
    (if ty =? ReqType.Read then s_llc_read_misses st + 1 else s_llc_read_misses st)
    (if ty =? ReqType.Write then s_llc_write_misses st + 1 else s_llc_write_misses st)
    (s_llc_eviction st) (s_llc_mshr_unavailable st) (s_llc_mshr_blacklisted st)) s.
Definition count_eviction (s : t) : t :=
  let st := stats s in
  set_stats (mkStats (s_llc_read_access st) (s_llc_write_access st) (s_llc_read_misses st)
    (s_llc_write_misses st) (s_llc_eviction st + 1) (s_llc_mshr_unavailable st)
    (s_llc_mshr_blacklisted st)) s.
Definition count_unavailable (s : t) : t :=
  let st := stats s in
  set_stats (mkStats (s_llc_read_access st) (s_llc_write_access st) (s_llc_read_misses st)
    (s_llc_write_misses st) (s_llc_eviction st) (s_llc_mshr_unavailable st + 1)
    (s_llc_mshr_blacklisted st)) s.
Definition count_blacklisted (s : t) : t :=
  let st := stats s in
  set_stats (mkStats (s_llc_read_access st) (s_llc_write_access st) (s_llc_read_misses st)
    (s_llc_write_misses st) (s_llc_eviction st) (s_llc_mshr_unavailable st)
    (s_llc_mshr_blacklisted st + 1)) s.

Section Cache.
Context (cf : Config).

(** ** Address slicing *)
Definition get_index (addr : Z) : Z := i32 (Z.land (Z.shiftr addr (m_index_offset cf)) (m_index_mask cf)).
Definition get_tag (addr : Z) : Z := Z.shiftr addr (m_tag_offset cf).
Definition align (addr : Z) : Z := i64 (Z.land addr (Z.lnot (u64 (m_linesize_bytes cf - 1)))).

(** ** Sets: [get_set] creates the set of an index at its first use. *)
Definition set_of (i : Z) (s : t) : list Line := default [] (m_cache_sets s !! i).
Definition put_set (i : Z) (set : list Line) (s : t) : t := set_sets (<[i := set]> (m_cache_sets s)) s.
Definition get_set (addr : Z) (s : t) : Z * t :=
  let i := get_index addr in (i, put_set i (set_of i s) s).

(** The position of the line that holds the address, if it is ready. *)
Definition check_set_hit (set : list Line) (addr : Z) : option (nat * Line) :=
  match list_find (fun l => l_tag l = get_tag addr) set with
  | Some (k, l) => if l_ready l then Some (k, l) else None
  | None => None
  end.

Definition check_mshr_hit (addr : Z) (s : t) : option (nat * MSHREntry) :=
  list_find (fun e : MSHREntry => align e.1 = align addr) (m_mshrs s).

(** Dereferencing the iterator of an MSHR: it must still point at a line. *)
Definition line_at (it : Z * nat) (s : t) : res (nat * Line) :=
  match list_find (fun l => l_node l = it.2) (set_of it.1 s) with
  | Some x => Ok x
  | None => Err Undef
  end.

Definition update_line (it : Z * nat) (f : Line -> Line) (s : t) : res t :=
  '(k, l) ← line_at it s;
  Ok (put_set it.1 (<[k := f l]> (set_of it.1 s)) s).

Definition set_dirty (b : bool) (l : Line) : Line := mkLine (l_addr l) (l_tag l) b (l_ready l) (l_node l).
Definition set_ready (l : Line) : Line := mkLine (l_addr l) (l_tag l) (l_dirty l) true (l_node l).

(** [size() < m_associativity] converts the [int] to [size_t]. *)
Definition has_room (set : list Line) : bool := Z.of_nat (List.length set) <? u64 (m_associativity cf).

(** ** Eviction and allocation *)
Definition evict_line (i : Z) (k : nat) (l : Line) (s : t) : t :=
  let s := count_eviction s in
  let s := if l_dirty l
           then set_lists (m_clk s)
                  (m_miss_list s ++ [(m_clk s + m_latency cf, Request_addr_type (l_addr l) ReqType.Write)])%list
                  (m_hit_list s) s
           else s in
  put_set i (delete k (set_of i s)) s.

(** The assertion is taken as enabled. *)
Definition need_eviction (set : list Line) (addr : Z) : res bool :=
  match list_find (fun l => l_tag l = get_tag addr) set with
  | Some _ => Err (Exc "assertion failed")
  | None => Ok (negb (has_room set))
  end.

Definition push_line (i addr : Z) (dirty ready : bool) (s : t) : t :=
  bump_node (put_set i (set_of i s ++ [mkLine addr (get_tag addr) dirty ready (next_node s)])%list s).

(** The iterator to the new line; [None] is [set.end()]. *)
Definition allocate_line (i addr : Z) (s : t) : res (option nat * t) :=
  evict ← need_eviction (set_of i s) addr;
  if evict : bool then
    match list_find (fun l => l_ready l = true) (set_of i s) with
    | None => Ok (None, s)
    | Some (k, l) =>
        let s := evict_line i k l s in
        Ok (Some (next_node s), push_line i addr false false s)
    end
  else Ok (Some (next_node s), push_line i addr false false s).

(** ** [send]: whether the request is accepted, and the request itself, which is
    passed by reference *)
Definition send_hit (i : Z) (k : nat) (l : Line) (req : Request) (s : t) : t :=
  let s := push_line i (addr req) (l_dirty l || (type_id req =? ReqType.Write)) true s in
  let s := put_set i (delete k (set_of i s)) s in
  set_lists (m_clk s) (m_miss_list s) (m_hit_list s ++ [(m_clk s + m_latency cf, req)])%list s.

Definition send_mshr_hit (e : MSHREntry) (dirty : bool) (req : Request) (s : t) : res t :=
  let waiting := default [] (m_receive_requests s !! e.1) in
  let s := set_receive (<[e.1 := (waiting ++ [req])%list]> (m_receive_requests s)) s in
  update_line e.2 (fun l => set_dirty (dirty || l_dirty l) l) s.

Definition is_blacklisted (src : Z) (s : t) : res bool :=
  if 0 <=? src then
    st ← vget (m_blacklist_status s) src;
    if st : bool then
      n ← vget (m_allocated_mshrs s) src;
      max ← vget (m_blacklist_max_mshrs s) src;
      Ok (max <=? n)
    else Ok false
  else Ok false.

Definition add_allocated (src d : Z) (s : t) : res t :=
  if 0 <=? src then
    n ← vget (m_allocated_mshrs s) src;
    l ← vset (m_allocated_mshrs s) src (n + d);
    Ok (set_allocated l s)
  else Ok s.

Definition send_new_miss (i : Z) (dirty : bool) (req : Request) (s : t) : res (bool * t) :=
  if Z.of_nat (List.length (m_mshrs s)) =? u64 (m_num_mshrs cf) then Ok (false, count_unavailable s)
  else if negb (has_room (set_of i s)) && negb (existsb l_ready (set_of i s)) then Ok (false, s)
  else
    '(newline, s) ← allocate_line i (addr req) s;
    match newline with
    | None => Err (Exc "Failed to allocate new line when there is available entry.")
    | Some n =>
        s ← update_line (i, n) (set_dirty dirty) s;
        let s := set_mshrs (m_mshrs s ++ [(addr req, (i, n))])%list s in
        let s := set_receive (<[addr req := [req]]> (m_receive_requests s)) s in
        let s := set_lists (m_clk s) (m_miss_list s ++ [(m_clk s + m_latency cf, req)])%list (m_hit_list s) s in
        s ← add_allocated (source_id req) 1 s;
        Ok (true, s)
    end.

Definition send_miss (i : Z) (req : Request) (s : t) : res (bool * Request * t) :=
  let s := count_miss (type_id req) s in
  let dirty := type_id req =? ReqType.Write in
  let req := if type_id req =? ReqType.Write then set_ids ReqType.Read (source_id req) req else req in
  match check_mshr_hit (addr req) s with
  | Some (_, e) => s ← send_mshr_hit e dirty req s; Ok (true, req, s)
  | None =>
      refused ← is_blacklisted (source_id req) s;
      if refused : bool then Ok (false, req, count_blacklisted s)
      else '(ok, s) ← send_new_miss i dirty req s; Ok (ok, req, s)
  end.

Definition send (req : Request) (s : t) : res (bool * Request * t) :=
  let '(i, s) := get_set (addr req) s in
  let s := count_access (type_id req) s in
  match check_set_hit (set_of i s) (addr req) with
  | Some (k, l) => Ok (true, req, send_hit i k l req s)
  | None => send_miss i req s
  end.

(** ** [receive] *)
Definition receive (req : Request) (s : t) : res t :=
  match check_mshr_hit (addr req) s with
  | None => Ok s
  | Some (k, e) =>
      s ← update_line e.2 set_ready s;
      let s := set_mshrs (delete k (m_mshrs s)) s in
      add_allocated (source_id req) (-1) s
  end.

(** ** [clflush] *)
Definition clflush (addr : Z) (s : t) : t :=
  let '(i, s) := get_set addr s in
  match check_set_hit (set_of i s) addr with
  | Some (k, l) => evict_line i k l s
  | None => s
  end.

(** ** [tick]

    The requests of the miss list that are due and that the memory system
    accepts leave it. *)
Fixpoint miss_loop `{M : IBHMemory} (clk : Z) (l : list (Z * Request)) (m : bh_state)
    : res (list (Z * Request) * bh_state) :=
  match l with
  | [] => Ok ([], m)
  | (due, req) :: l =>
      if due <=? clk then
        '(ok, m) ← bh_send req m;
        '(kept, m) ← miss_loop clk l m;
        Ok (if ok : bool then kept else (due, req) :: kept, m)
      else
        '(kept, m) ← miss_loop clk l m;
        Ok ((due, req) :: kept, m)
  end.

(** The hits that are due: each becomes the only waiting request of its address
    and its callback is invoked.  The callback [cb] belongs to the processor;
    it may change the cache but never the hit list. *)
Fixpoint hit_loop {X} (cb : Request -> t * X -> res (t * X)) (clk : Z) (l : list (Z * Request)) (sx : t * X)
    : res (list (Z * Request) * (t * X)) :=
  match l with
  | [] => Ok ([], sx)
  | (due, req) :: l =>
      if due <=? clk then
        sx ← cb req (set_receive (<[addr req := [req]]> (m_receive_requests sx.1)) sx.1, sx.2);
        hit_loop cb clk l sx
      else
        '(kept, sx) ← hit_loop cb clk l sx;
        Ok ((due, req) :: kept, sx)
  end.

Definition tick `{M : IBHMemory} {X} (cb : Request -> t * X -> res (t * X)) (s : t) (x : X) (m : bh_state)
    : res (t * X * bh_state) :=
  let clk := m_clk s + 1 in
  '(miss, m) ← miss_loop clk (m_miss_list s) m;
  '(hit, (s, x)) ← hit_loop cb clk (m_hit_list s) (set_lists clk miss (m_hit_list s) s, x);
  Ok (set_lists (m_clk s) (m_miss_list s) hit s, x, m).

(** ** The blacklist *)
Definition get_mshrs_per_core : Z := m_mshr_per_core cf.
Definition get_blacklist_max_mshrs (src : Z) (s : t) : res Z := vget (m_blacklist_max_mshrs s) src.
Definition set_blacklist_max_mshrs (src max_mshr : Z) (s : t) : res t :=
  l ← vset (m_blacklist_max_mshrs s) src max_mshr; Ok (set_blacklist l (m_blacklist_status s) s).
Definition add_blacklist (src : Z) (s : t) : res t :=
  l ← vset (m_blacklist_status s) src true; Ok (set_blacklist (m_blacklist_max_mshrs s) l s).
Definition erase_blacklist (src : Z) (s : t) : res t :=
  l ← vset (m_blacklist_status s) src false; Ok (set_blacklist (m_blacklist_max_mshrs s) l s).
End Cache.

(** ** The checkpoint file, as the list of its lines *)
Definition print_bool (b : bool) : string := if b then "1" else "0".
Definition print_line (i : Z) (l : Line) : string :=
  print_d i ++ "," ++ print_d (l_addr l) ++ "," ++ print_d (l_tag l) ++ "," ++ print_bool (l_dirty l).

Definition serialize `{IterOrder} (s : t) : list string :=
  "index,addr,tag,dirty" :: ('(i, set) ← iter_order (m_cache_sets s); print_line i <$> set).

(** [dump_llc] prints the ready bit as well. *)
Definition dump_llc `{IterOrder} (s : t) : list string :=
  "Dumping LLC" :: "index,addr,tag,dirty,ready" ::
  ('(i, set) ← iter_order (m_cache_sets s);
   (fun l => print_line i l ++ "," ++ print_bool (l_ready l)) <$> set).

(** [substr(0, find(","))] and [substr(find(",") + 1)]: without a comma [find]
    is [npos], the first is the whole string and so is the second. *)
Fixpoint before_comma (s : string) : string :=
  match s with
  | "" => ""
  | String c s' => if Ascii.eqb c "," then "" else String c (before_comma s')
  end.

Fixpoint find_comma (s : string) : option string :=
  match s with
  | "" => None
  | String c s' => if Ascii.eqb c "," then Some s' else find_comma s'
  end.
Definition after_comma (s : string) : string := default s (find_comma s).

Definition parse_line (line : string) : res (Z * (nat -> Line)) :=
  let index_str := before_comma line in
  let line := after_comma line in
  let addr_str := before_comma line in
  let line := after_comma line in
  let tag_str := before_comma line in
  let line := after_comma line in
  let dirty_str := before_comma line in
  index ← stoi index_str;
  addr ← stoll addr_str;
  tag ← stoll tag_str;
  dirty ← stoi dirty_str;
  Ok (index, mkLine addr tag (negb (dirty =? 0)) true).

Fixpoint load_lines (lines : list string) (s : t) : res t :=
  match lines with
  | [] => Ok s
  | line :: lines =>
      '(i, l) ← parse_line line;
      load_lines lines (bump_node (put_set i (set_of i s ++ [l (next_node s)])%list s))
  end.

Definition deserialize (file : list string) (s : t) : res t := load_lines (List.tl file) s.
End BHO3LLC.
