(* ===== verification/BhLlcFacts.v ===== *)
(** * Facts about the last-level cache of the BH processor

    The well-formedness of the cache and that every operation keeps it, which
    excludes dangling MSHR iterators, the assertion and the exception of the
    source; least-recently-used replacement as a refinement of an abstract
    recency list; dirty lines are written back; the checkpoint file. *)
From Stdlib Require Import String Ascii.
From S2P Require Import Prelude Utils Request SniperTrace BhLlc.
Import BHO3LLC.
Local Open Scope Z_scope.

(** ** Lists *)
Lemma delete_None {A} (l : list A) n : l !! n = None -> delete n l = l.
Proof. revert n. induction l as [|x l IH]; intros [|n] H; simplify_eq/=; [done..|]. by rewrite IH. Qed.

Lemma delete_insert_same {A} (l : list A) n x : delete n (<[n := x]> l) = delete n l.
Proof. revert n. induction l as [|y l IH]; intros [|n]; cbn; [done..|]. by rewrite IH. Qed.

Lemma elem_of_delete {A} (l : list A) n x y : l !! n = Some x -> y ∈ delete n l -> y ∈ l.
Proof. intros Hn Hy. rewrite (delete_Permutation _ _ _ Hn). by right. Qed.

Lemma elem_of_delete_inv {A} (l : list A) n x y : l !! n = Some x -> y ∈ l -> y = x \/ y ∈ delete n l.
Proof. intros Hn Hy. rewrite (delete_Permutation _ _ _ Hn) in Hy. by apply elem_of_cons in Hy. Qed.

Lemma elem_of_insert {A} (l : list A) n x x' y : l !! n = Some x -> y ∈ <[n := x']> l -> y = x' \/ y ∈ delete n l.
Proof.
  intros Hn Hy. rewrite (delete_Permutation (<[n := x']> l) n x') in Hy.
  - rewrite delete_insert_same in Hy. by apply elem_of_cons in Hy.
  - apply list_lookup_insert_eq. by eapply lookup_lt_Some.
Qed.

Lemma elem_of_insert_new {A} (l : list A) n x x' : l !! n = Some x -> x' ∈ <[n := x']> l.
Proof. intros Hn. eapply list_elem_of_lookup_2, list_lookup_insert_eq. by eapply lookup_lt_Some. Qed.

Lemma elem_of_insert_other {A} (l : list A) n x x' y : l !! n = Some x -> y ∈ delete n l -> y ∈ <[n := x']> l.
Proof.
  intros Hn Hy. rewrite (delete_Permutation (<[n := x']> l) n x').
  - rewrite delete_insert_same. by right.
  - apply list_lookup_insert_eq. by eapply lookup_lt_Some.
Qed.

Lemma delete_app_l {A} (l l' : list A) n : (n < length l)%nat -> delete n (l ++ l') = delete n l ++ l'.
Proof. revert n. induction l as [|y l IH]; intros [|n] H; cbn in *; [lia..|done|]. by rewrite IH by lia. Qed.

Lemma NoDup_fmap_eq {A B} (f : A -> B) l x y : NoDup (f <$> l) -> x ∈ l -> y ∈ l -> f x = f y -> x = y.
Proof.
  intros Hnd [n Hn]%list_elem_of_lookup [m Hm]%list_elem_of_lookup E.
  assert (n = m); [|congruence]. eapply (NoDup_lookup _ _ _ (f x) Hnd); rewrite list_lookup_fmap.
  - by rewrite Hn.
  - by rewrite Hm, E.
Qed.

Definition is_i64 (a : Z) : Prop := - 2 ^ 63 <= a < 2 ^ 63.

(** ** Geometry: powers of two, as the bit slicing of the source assumes *)
Record good_config (cf : Config) (k j : Z) : Prop := {
  gc_k : 0 <= k <= 62;
  gc_j : 0 <= j <= 30;
  gc_line : m_linesize_bytes cf = 2 ^ k;
  gc_ioff : m_index_offset cf = k;
  gc_mask : m_index_mask cf = 2 ^ j - 1;
  gc_toff : m_tag_offset cf = j + k;
  gc_assoc : 1 <= m_associativity cf < 2 ^ 31;
  gc_mshrs : 0 <= m_num_mshrs cf < 2 ^ 31;
}.

Lemma new_config_good latency k j assoc mshrs cores :
  0 <= k -> 0 <= j -> k + j <= 30 -> 1 <= assoc -> 2 ^ k * 2 ^ j * assoc < 2 ^ 31 ->
  0 <= mshrs < 2 ^ 31 -> 0 < cores ->
  exists cf, new_config latency (2 ^ k * 2 ^ j * assoc) (2 ^ k) assoc mshrs cores = Ok cf /\
    good_config cf k j /\ m_associativity cf = assoc /\ m_num_mshrs cf = mshrs.
Proof.
  intros Hk Hj Hkj Ha Hs Hm Hc. pose proof (Z.pow_pos_nonneg 2 k). pose proof (Z.pow_pos_nonneg 2 j).
  assert (2 ^ k <= 2 ^ 30) by (apply Z.pow_le_mono_r; lia). assert (2 ^ j <= 2 ^ 30) by (apply Z.pow_le_mono_r; lia).
  assert (2 ^ k * assoc <= 2 ^ k * 2 ^ j * assoc) by nia. assert (assoc <= 2 ^ k * 2 ^ j * assoc) by nia.
  assert (u64 (2 ^ k) = 2 ^ k) as Hu by (apply u64_small; lia).
  assert (u64 assoc = assoc) as Hua by (apply u64_small; lia).
  assert (u64 (2 ^ k * assoc) = 2 ^ k * assoc) as Hw by (apply u64_small; nia).
  assert (i32 (u64 (2 ^ k * 2 ^ j * assoc) / (2 ^ k * assoc)) = 2 ^ j) as Hset.
  { rewrite u64_small by nia. replace (2 ^ k * 2 ^ j * assoc) with (2 ^ j * (2 ^ k * assoc)) by ring.
    rewrite Z.div_mul by nia. apply i32_small. lia. }
  unfold new_config. cbv zeta. rewrite Hu, Hua, Hw, Hset, (proj2 (Z.eqb_neq (2 ^ k * assoc) 0)) by nia.
  rewrite (proj2 (Z.eqb_neq cores 0)) by lia. cbn [orb].
  rewrite !calc_log2_pow2 by lia.
  rewrite !bind_Ok_l. eexists. split; [reflexivity|]. by repeat split; cbn; try lia.
Qed.

Section Geometry.
Context (cf : Config) (k j : Z) (G : good_config cf k j).

(** The number of the memory block of a line, which determines everything the
    cache computes from an address. *)
Definition block (a : Z) : Z := a / 2 ^ k.

Lemma get_index_block a : get_index cf a = block a mod 2 ^ j.
Proof.
  unfold get_index, block. pose proof (gc_k _ _ _ G). pose proof (gc_j _ _ _ G).
  rewrite (gc_ioff _ _ _ G), (gc_mask _ _ _ G). replace (2 ^ j - 1) with (Z.ones j) by (rewrite Z.ones_equiv; lia).
  rewrite Z.land_ones, Z.shiftr_div_pow2 by lia. apply i32_small.
  pose proof (Z.mod_pos_bound (a / 2 ^ k) (2 ^ j) ltac:(lia)).
  assert (2 ^ j <= 2 ^ 30) by (apply Z.pow_le_mono_r; lia). lia.
Qed.

Lemma get_tag_block a : get_tag cf a = block a / 2 ^ j.
Proof.
  unfold get_tag, block. pose proof (gc_k _ _ _ G). pose proof (gc_j _ _ _ G).
  rewrite (gc_toff _ _ _ G), Z.shiftr_div_pow2, Z.add_comm, Z.pow_add_r, Z.div_div by lia. done.
Qed.

Lemma align_block a : is_i64 a -> align cf a = block a * 2 ^ k.
Proof.
  unfold align, block, is_i64. pose proof (gc_k _ _ _ G). intros Ha.
  assert (0 < 2 ^ k) by lia. assert (2 ^ k <= 2 ^ 62) by (apply Z.pow_le_mono_r; lia).
  rewrite (gc_line _ _ _ G), u64_small by lia. replace (2 ^ k - 1) with (Z.ones k) by (rewrite Z.ones_equiv; lia).
  rewrite <- Z.ldiff_land, Z.ldiff_ones_r, Z.shiftl_mul_pow2, Z.shiftr_div_pow2 by lia.
  apply i64_small. assert (2 ^ 63 = 2 ^ (63 - k) * 2 ^ k) as H63 by (rewrite <- Z.pow_add_r by lia; f_equal; lia).
  pose proof (Z.div_mod a (2 ^ k) ltac:(lia)). pose proof (Z.mod_pos_bound a (2 ^ k) ltac:(lia)).
  split; [|nia]. rewrite H63. assert (- 2 ^ (63 - k) <= a / 2 ^ k); [|nia].
  apply Z.div_le_lower_bound; nia.
Qed.

Lemma block_eq a b : block a = block b <-> get_index cf a = get_index cf b /\ get_tag cf a = get_tag cf b.
Proof.
  rewrite !get_index_block, !get_tag_block. pose proof (gc_j _ _ _ G).
  split; [by intros ->|]. intros [Hi Ht].
  rewrite (Z.div_mod (block a) (2 ^ j)), (Z.div_mod (block b) (2 ^ j)) by lia. by rewrite Hi, Ht.
Qed.

Lemma align_eq a b : is_i64 a -> is_i64 b -> align cf a = align cf b <-> block a = block b.
Proof.
  intros. rewrite !align_block by done. pose proof (gc_k _ _ _ G). assert (0 < 2 ^ k) by lia. nia.
Qed.
End Geometry.

(** ** Well-formedness

    [nn] is the next unused node. *)
Section WellFormed.
Context (cf : Config).

Definition line_wf (nn : nat) (i : Z) (l : Line) : Prop :=
  is_i64 (l_addr l) /\ get_index cf (l_addr l) = i /\ l_tag l = get_tag cf (l_addr l) /\ (l_node l < nn)%nat.

Record set_wf (nn : nat) (i : Z) (set : list Line) : Prop := {
  sw_size : Z.of_nat (length set) <= m_associativity cf;
  sw_nodes : NoDup (l_node <$> set);
  sw_tags : NoDup (l_tag <$> set);
  sw_lines : Forall (line_wf nn i) set;
}.

Definition at_index (sets : gmap Z (list Line)) (i : Z) : list Line := default [] (sets !! i).

(** The line an MSHR points at: in flight, and of the block of the MSHR. *)
Definition mshr_line (sets : gmap Z (list Line)) (e : MSHREntry) (l : Line) : Prop :=
  l ∈ at_index sets e.2.1 /\ l_node l = e.2.2 /\ l_ready l = false /\
  e.2.1 = get_index cf e.1 /\ l_tag l = get_tag cf e.1.

Record core_wf (sets : gmap Z (list Line)) (mshrs : list MSHREntry) (nn : nat) : Prop := {
  cw_sets : forall i, set_wf nn i (at_index sets i);
  cw_mshrs : forall e, e ∈ mshrs -> is_i64 e.1 /\ exists l, mshr_line sets e l;
  cw_inj : NoDup (align cf ∘ fst <$> mshrs);
  cw_inflight : forall i l, l ∈ at_index sets i -> l_ready l = false -> exists e, e ∈ mshrs /\ e.2 = (i, l_node l);
  cw_count : Z.of_nat (length mshrs) <= m_num_mshrs cf;
}.

Definition wf (s : t) : Prop := core_wf (m_cache_sets s) (m_mshrs s) (next_node s).

(** *** Sets *)
Lemma at_index_insert sets i set i' : at_index (<[i := set]> sets) i' = if decide (i = i') then set else at_index sets i'.
Proof. unfold at_index. rewrite lookup_insert. by case_decide. Qed.

Lemma set_wf_nil nn i : 0 <= m_associativity cf -> set_wf nn i [].
Proof. intros. split; cbn; [lia|constructor|constructor|constructor]. Qed.

Lemma set_wf_mono nn nn' i set : (nn <= nn')%nat -> set_wf nn i set -> set_wf nn' i set.
Proof.
  intros Hn [? ? ? Hl]. split; try done. eapply list.Forall_impl; [exact Hl|].
  intros l (? & ? & ? & ?). do 3 (split; [done|]). lia.
Qed.

Lemma set_wf_perm nn i s1 s2 : s1 ≡ₚ s2 -> set_wf nn i s1 -> set_wf nn i s2.
Proof.
  intros HP [? ? ? ?]. split; [by rewrite <- HP|by rewrite <- HP|by rewrite <- HP|by rewrite <- HP].
Qed.

Lemma set_wf_cons nn i l set : set_wf nn i (l :: set) <->
  Z.of_nat (length set) + 1 <= m_associativity cf /\ l_node l ∉ l_node <$> set /\ l_tag l ∉ l_tag <$> set /\
  line_wf nn i l /\ set_wf nn i set.
Proof.
  split.
  - intros [H1 H2 H3 H4]. cbn -[Z.of_nat] in *. apply list.NoDup_cons in H2 as [? ?]. apply list.NoDup_cons in H3 as [? ?].
    apply list.Forall_cons in H4 as [? ?]. do 4 (split; [done || lia|]). split; try done. lia.
  - intros (? & ? & ? & ? & [? ? ? ?]). split; [cbn [length]; lia|by constructor|by constructor|by constructor].
Qed.

Lemma set_wf_delete nn i set k : set_wf nn i set -> set_wf nn i (delete k set).
Proof.
  intros H. destruct (set !! k) as [l|] eqn:E.
  - apply (set_wf_perm _ _ _ _ (delete_Permutation _ _ _ E)), set_wf_cons in H. tauto.
  - by rewrite delete_None.
Qed.

Lemma set_wf_push nn i set a d r : set_wf nn i set -> is_i64 a -> get_index cf a = i ->
  get_tag cf a ∉ l_tag <$> set -> Z.of_nat (length set) < m_associativity cf ->
  set_wf (S nn) i (set ++ [mkLine a (get_tag cf a) d r nn]).
Proof.
  intros H Ha Hi Ht Hl. apply (set_wf_perm _ _ (mkLine a (get_tag cf a) d r nn :: set)).
  { by rewrite Permutation_app_comm. }
  apply set_wf_cons. split; [lia|]. split; [|split; [done|split]].
  - intros (l & E & Hin)%list_elem_of_fmap. cbn in E. pose proof (sw_lines _ _ _ H) as Hf.
    rewrite list.Forall_forall in Hf. destruct (Hf _ Hin) as (_ & _ & _ & ?). lia.
  - repeat (split; [done|]). cbn. lia.
  - by eapply set_wf_mono; [|exact H]; lia.
Qed.

(** Changing the flags of a line. *)
Definition same_line (l l' : Line) : Prop :=
  l_addr l' = l_addr l /\ l_tag l' = l_tag l /\ l_node l' = l_node l.

Lemma set_wf_update nn i set k l l' : set !! k = Some l -> same_line l l' -> set_wf nn i set -> set_wf nn i (<[k := l']> set).
Proof.
  intros Hk (Ha & Ht & Hn) H.
  assert (set_wf nn i (l' :: delete k set)) as H'.
  { apply (set_wf_perm _ _ _ _ (delete_Permutation _ _ _ Hk)), set_wf_cons in H. apply set_wf_cons.
    unfold line_wf in *. by rewrite Ha, Ht, Hn. }
  apply (set_wf_perm _ _ (l' :: delete k set)); [|done].
  pose proof (lookup_lt_Some _ _ _ Hk).
  rewrite (delete_Permutation (<[k := l']> set) k l') by (by apply list_lookup_insert_eq).
  by rewrite delete_insert_same.
Qed.
End WellFormed.

(** *** The elementary changes of sets and MSHRs *)
Section Core.
Context (cf : Config).
Implicit Types (sets : gmap Z (list Line)) (mshrs : list MSHREntry) (nn : nat).

Lemma core_drop sets mshrs nn i n l : core_wf cf sets mshrs nn -> at_index sets i !! n = Some l -> l_ready l = true ->
  core_wf cf (<[i := delete n (at_index sets i)]> sets) mshrs nn.
Proof.
  intros [Hs Hm Hi Hf Hc] Hn Hr. split; [| |done| |done].
  - intros i'. rewrite at_index_insert. case_decide; [subst; by apply set_wf_delete|apply Hs].
  - intros e He. destruct (Hm e He) as (? & l' & Hin & ? & Hr' & ?). split; [done|]. exists l'. split; [|done].
    rewrite at_index_insert. case_decide as Hd; [|done]. rewrite <- Hd in Hin.
    destruct (elem_of_delete_inv _ _ _ _ Hn Hin); [congruence|done].
  - intros i' l'. rewrite at_index_insert. case_decide; [subst|apply Hf].
    intros ?%(elem_of_delete _ _ _ _ Hn). by apply Hf.
Qed.

Lemma core_push_ready sets mshrs nn i a d : core_wf cf sets mshrs nn -> is_i64 a -> get_index cf a = i ->
  get_tag cf a ∉ l_tag <$> at_index sets i -> Z.of_nat (length (at_index sets i)) < m_associativity cf ->
  core_wf cf (<[i := at_index sets i ++ [mkLine a (get_tag cf a) d true nn]]> sets) mshrs (S nn).
Proof.
  intros [Hs Hm Hi Hf Hc] Ha Hai Ht Hl. split; [| |done| |done].
  - intros i'. rewrite at_index_insert. case_decide; [subst; by apply set_wf_push|].
    eapply set_wf_mono; [|apply Hs]. lia.
  - intros e He. destruct (Hm e He) as (? & l' & Hin & ?). split; [done|]. exists l'. split; [|done].
    rewrite at_index_insert. case_decide as Hd; [|done]. rewrite <- Hd in Hin. set_solver.
  - intros i' l'. rewrite at_index_insert. case_decide; [subst|apply Hf].
    intros [Hin| ->%list_elem_of_singleton]%elem_of_app Hr; [by apply Hf|done].
Qed.

Lemma core_push_miss sets mshrs nn i a d : core_wf cf sets mshrs nn -> is_i64 a -> get_index cf a = i ->
  get_tag cf a ∉ l_tag <$> at_index sets i -> Z.of_nat (length (at_index sets i)) < m_associativity cf ->
  align cf a ∉ align cf ∘ fst <$> mshrs -> Z.of_nat (length mshrs) < m_num_mshrs cf ->
  core_wf cf (<[i := at_index sets i ++ [mkLine a (get_tag cf a) d false nn]]> sets)
    (mshrs ++ [(a, (i, nn))]) (S nn).
Proof.
  intros [Hs Hm Hi Hf Hc] Ha Hai Ht Hl Hnew Hcnt. split.
  - intros i'. rewrite at_index_insert. case_decide; [subst; by apply set_wf_push|].
    eapply set_wf_mono; [|apply Hs]. lia.
  - intros e [He| ->%list_elem_of_singleton]%elem_of_app.
    + destruct (Hm e He) as (? & l' & Hin & ?). split; [done|]. exists l'. split; [|done].
      rewrite at_index_insert. case_decide as Hd; [|done]. rewrite <- Hd in Hin. set_solver.
    + split; [done|]. eexists. unfold mshr_line. cbn. rewrite at_index_insert. case_decide; [|done].
      split; [apply elem_of_app; right; by left|done].
  - rewrite fmap_app. apply list.NoDup_app. split; [done|]. split; [|apply NoDup_singleton].
    intros x Hx ->%list_elem_of_singleton. by apply Hnew.
  - intros i' l'. rewrite at_index_insert. case_decide; [subst|].
    + intros [Hin| ->%list_elem_of_singleton]%elem_of_app Hr.
      * destruct (Hf _ _ Hin Hr) as (e & ? & ?). exists e. set_solver.
      * eexists. split; [apply elem_of_app; right; by left|done].
    + intros Hin Hr. destruct (Hf _ _ Hin Hr) as (e & ? & ?). exists e. set_solver.
  - rewrite length_app. cbn. lia.
Qed.

Lemma core_update sets mshrs nn i n l l' : core_wf cf sets mshrs nn -> at_index sets i !! n = Some l ->
  same_line l l' -> l_ready l' = l_ready l ->
  core_wf cf (<[i := <[n := l']> (at_index sets i)]> sets) mshrs nn.
Proof.
  intros [Hs Hm Hi Hf Hc] Hn Hsame Hr. pose proof Hsame as (Ea & Et & En). split; [| |done| |done].
  - intros i'. rewrite at_index_insert. case_decide; [subst; by eapply set_wf_update|apply Hs].
  - intros e He. destruct (Hm e He) as (? & x & Hin & Hnode & Hrx & Hi' & Htag). split; [done|]. unfold mshr_line.
    rewrite at_index_insert. case_decide as Hd; [|by exists x]. rewrite <- Hd in Hin.
    destruct (elem_of_delete_inv _ _ _ _ Hn Hin) as [->|Hx].
    + exists l'. split; [by eapply elem_of_insert_new|]. by rewrite En, Et, Hr.
    + exists x. split; [by eapply elem_of_insert_other|done].
  - intros i' x. rewrite at_index_insert. case_decide; [subst|apply Hf].
    intros [->|Hx]%(elem_of_insert _ _ _ _ _ Hn) Hrx.
    + rewrite En. apply Hf; [by eapply list_elem_of_lookup_2|congruence].
    + apply Hf; [by eapply elem_of_delete|done].
Qed.

Context (k j : Z) (G : good_config cf k j).

(** Two MSHRs do not point at the same line. *)
Lemma mshr_line_inj sets mshrs nn m e e' l : core_wf cf sets mshrs nn -> mshrs !! m = Some e -> e' ∈ delete m mshrs ->
  mshr_line cf sets e l -> mshr_line cf sets e' l -> e.2.1 = e'.2.1 -> False.
Proof.
  intros W Hm He' (_ & _ & _ & Hi & Ht) (_ & _ & _ & Hi' & Ht') E.
  assert (e ∈ mshrs) as He by (by eapply list_elem_of_lookup_2).
  assert (e' ∈ mshrs) as He2 by (by eapply elem_of_delete).
  assert (align cf e.1 = align cf e'.1) as Hal.
  { apply (align_eq cf k j G); [apply (cw_mshrs _ _ _ _ W e He)|apply (cw_mshrs _ _ _ _ W e' He2)|].
    apply (block_eq cf k j G). split; congruence. }
  pose proof (cw_inj _ _ _ _ W) as Hnd. rewrite (delete_Permutation _ _ _ Hm) in Hnd. cbn in Hnd.
  apply list.NoDup_cons in Hnd as [Hnin _]. apply Hnin. apply list_elem_of_fmap. by exists e'.
Qed.

Lemma core_fill sets mshrs nn m e n l : core_wf cf sets mshrs nn -> mshrs !! m = Some e ->
  at_index sets e.2.1 !! n = Some l -> mshr_line cf sets e l ->
  core_wf cf (<[e.2.1 := <[n := set_ready l]> (at_index sets e.2.1)]> sets) (delete m mshrs) nn.
Proof.
  intros W Hm Hn He. pose proof W as [Hs Hw Hi Hf Hc]. split.
  - intros i'. rewrite at_index_insert. case_decide; [subst; by eapply set_wf_update|apply Hs].
  - intros e' He'. destruct (Hw e') as (? & x & Hx); [by eapply elem_of_delete|]. split; [done|].
    exists x. pose proof Hx as (Hin & Hrest). split; [|done]. rewrite at_index_insert. case_decide as Hd; [|done].
    rewrite <- Hd in Hin. destruct (elem_of_delete_inv _ _ _ _ Hn Hin) as [->|?]; [|by eapply elem_of_insert_other].
    destruct (mshr_line_inj _ _ _ _ _ _ _ W Hm He' He Hx Hd).
  - rewrite (delete_Permutation _ _ _ Hm) in Hi. cbn in Hi. by apply list.NoDup_cons in Hi as [_ ?].
  - intros i' x Hx Hr. assert (x ∈ at_index sets i' /\ (i' = e.2.1 -> x ∈ delete n (at_index sets i'))) as [Hin Hne].
    { rewrite at_index_insert in Hx. case_decide as Hd; [subst|done].
      destruct (elem_of_insert _ _ _ _ _ Hn Hx) as [->|?]; [done|]. split; [by eapply elem_of_delete|done]. }
    destruct (Hf _ _ Hin Hr) as (e' & He' & E2). exists e'. split; [|done].
    destruct (elem_of_delete_inv _ _ _ _ Hm He') as [->|]; [|done]. exfalso. rewrite E2 in Hn. cbn in Hn.
    specialize (Hne ltac:(by rewrite E2)). destruct He as (_ & Hnode & _). rewrite E2 in Hnode. cbn in Hnode.
    pose proof (sw_nodes _ _ _ _ (Hs i')) as Hnd. rewrite (delete_Permutation _ _ _ Hn) in Hnd.
    apply list.NoDup_cons in Hnd as [Hnin _]. apply Hnin. rewrite Hnode. by apply list_elem_of_fmap_2.
  - pose proof (length_delete_le mshrs m). lia.
Qed.
End Core.

(** ** The operations keep the cache well-formed and never fail *)
Section Operations.
Context (cf : Config) (k j : Z) (G : good_config cf k j) (cores : nat).

(** The vectors indexed by the core. *)
Definition vectors_wf (s : t) : Prop :=
  length (m_allocated_mshrs s) = cores /\ length (m_blacklist_max_mshrs s) = cores /\
  length (m_blacklist_status s) = cores.

Definition llc_wf (s : t) : Prop := wf cf s /\ vectors_wf s.

(** A request of a core, or one without a source. *)
Definition req_wf (req : Request) : Prop := is_i64 (addr req) /\ source_id req < Z.of_nat cores.

Lemma core_wf_ext sets sets' mshrs nn : (forall i, at_index sets' i = at_index sets i) ->
  core_wf cf sets mshrs nn -> core_wf cf sets' mshrs nn.
Proof.
  intros E [Hs Hm Hi Hf Hc]. split; [|intros e He|done| |done].
  - intros i. by rewrite E.
  - destruct (Hm e He) as (? & l & Hl). split; [done|]. exists l. unfold mshr_line. by rewrite E.
  - intros i l. rewrite E. apply Hf.
Qed.

Lemma llc_new_wf : llc_wf (new cores).
Proof.
  split; [|by unfold vectors_wf; cbn; rewrite !length_replicate]. pose proof (gc_assoc _ _ _ G).
  split; cbn; [|set_solver|constructor| |apply G].
  - intros i. unfold at_index. rewrite lookup_empty. apply set_wf_nil. lia.
  - intros i l. unfold at_index. rewrite lookup_empty. set_solver.
Qed.

Lemma get_set_wf a s : llc_wf s -> llc_wf (get_set cf a s).2.
Proof.
  intros [W V]. split; [|done]. eapply core_wf_ext; [|exact W]. intros i. cbn.
  rewrite at_index_insert. by case_decide; subst.
Qed.

Lemma has_room_spec set : has_room cf set = true <-> Z.of_nat (length set) < m_associativity cf.
Proof. unfold has_room. pose proof (gc_assoc _ _ _ G). rewrite u64_small by lia. apply Z.ltb_lt. Qed.

Lemma check_set_hit_Some set a n l : check_set_hit cf set a = Some (n, l) ->
  set !! n = Some l /\ l_tag l = get_tag cf a /\ l_ready l = true.
Proof.
  unfold check_set_hit. destruct (list_find _ set) as [[m x]|] eqn:E; [|done].
  destruct (l_ready x) eqn:Hr; [|done]. intros [= <- <-].
  apply list_find_Some in E as (? & ? & _). done.
Qed.

Lemma check_mshr_hit_Some a s n e : check_mshr_hit cf a s = Some (n, e) ->
  m_mshrs s !! n = Some e /\ align cf e.1 = align cf a.
Proof. intros (? & ? & _)%list_find_Some. done. Qed.

Lemma check_mshr_hit_None a s : check_mshr_hit cf a s = None -> align cf a ∉ align cf ∘ fst <$> m_mshrs s.
Proof.
  intros H%list_find_None Hin. apply list_elem_of_fmap in Hin as (e & He & Hin).
  rewrite list.Forall_forall in H. by apply (H e Hin).
Qed.

(** Without a hit in the set or in the MSHRs, no line has the tag: the
    assertion of [need_eviction] holds. *)
Lemma miss_no_tag s a : wf cf s -> is_i64 a -> check_set_hit cf (set_of (get_index cf a) s) a = None ->
  check_mshr_hit cf a s = None -> get_tag cf a ∉ l_tag <$> set_of (get_index cf a) s.
Proof.
  intros W Ha Hh Hm (l & Ht & Hin)%list_elem_of_fmap. apply list_elem_of_lookup in Hin as [n Hn].
  unfold check_set_hit in Hh. destruct (list_find _ _) as [[m x]|] eqn:E.
  - apply list_find_Some in E as (Hx & Htx & _). destruct (l_ready x) eqn:Hr; [done|].
    assert (x ∈ at_index (m_cache_sets s) (get_index cf a)) as Hin by (by eapply list_elem_of_lookup_2).
    destruct (cw_inflight _ _ _ _ W _ _ Hin Hr) as (e & He & E2).
    destruct (cw_mshrs _ _ _ _ W e He) as (Hae & y & Hy & Hnode & _ & Hi & Hty). rewrite E2 in *. cbn in *.
    assert (y = x) as ->.
    { eapply (NoDup_fmap_eq l_node); [apply (sw_nodes _ _ _ _ (cw_sets _ _ _ _ W (get_index cf a)))|done..]. }
    apply check_mshr_hit_None in Hm. apply Hm, list_elem_of_fmap. exists e. split; [|done].
    apply (align_eq cf k j G); [done..|]. apply (block_eq cf k j G). split; congruence.
  - apply list_find_None in E. rewrite list.Forall_lookup in E. by apply (E n l Hn).
Qed.

Lemma send_hit_wf i n l req s : llc_wf s -> is_i64 (addr req) -> i = get_index cf (addr req) ->
  set_of i s !! n = Some l -> l_tag l = get_tag cf (addr req) -> l_ready l = true -> llc_wf (send_hit cf i n l req s).
Proof.
  intros [W V] Ha Hi Hn Ht Hr. split; [|done]. unfold wf, send_hit. cbn.
  pose proof (cw_sets _ _ _ _ W i) as Hw. pose proof (lookup_lt_Some _ _ _ Hn) as Hlt.
  pose proof (core_drop cf _ _ _ i n l W Hn Hr) as W1.
  pose proof (sw_tags _ _ _ _ Hw) as Hnd. rewrite (delete_Permutation _ _ _ Hn) in Hnd.
  apply list.NoDup_cons in Hnd as [Hnin _].
  eapply (core_push_ready cf _ _ _ i (addr req) (l_dirty l || (type_id req =? ReqType.Write))) in W1; [|done|done| |].
  - eapply core_wf_ext; [|exact W1]. intros i'. rewrite !at_index_insert. case_decide; [|done]. subst i'.
    unfold set_of. cbn. rewrite lookup_insert_eq. cbn. rewrite decide_True by done.
    by rewrite delete_app_l.
  - rewrite at_index_insert, decide_True, <- Ht by done. exact Hnin.
  - rewrite at_index_insert, decide_True by done. rewrite length_delete by done.
    pose proof (sw_size _ _ _ _ Hw). unfold set_of, at_index in *. lia.
Qed.

Lemma evict_line_wf i n l s : llc_wf s -> set_of i s !! n = Some l -> l_ready l = true -> llc_wf (evict_line cf i n l s).
Proof.
  intros [W V] Hn Hr. unfold evict_line. destruct (l_dirty l); (split; [|done]); by apply (core_drop cf _ _ _ i n l).
Qed.

Lemma line_at_mshr s e : wf cf s -> e ∈ m_mshrs s ->
  exists n l, line_at e.2 s = Ok (n, l) /\ set_of e.2.1 s !! n = Some l /\ mshr_line cf (m_cache_sets s) e l.
Proof.
  intros W He. destruct (cw_mshrs _ _ _ _ W e He) as (_ & l & Hl). pose proof Hl as (Hin & Hnode & _).
  unfold line_at. destruct (list_find_elem_of (fun x => l_node x = e.2.2) _ _ Hin Hnode) as [[n x] Hf].
  unfold set_of. unfold at_index in Hf. rewrite Hf. apply list_find_Some in Hf as (Hx & Hnx & _).
  assert (x = l) as -> by (eapply (NoDup_fmap_eq l_node);
    [apply (sw_nodes _ _ _ _ (cw_sets _ _ _ _ W e.2.1))|by eapply list_elem_of_lookup_2|done|congruence]).
  by exists n, l.
Qed.

(** The set with a free way, as [allocate_line] leaves it before the new line. *)
Definition make_room (i : Z) (s : t) : t :=
  if has_room cf (set_of i s) then s
  else match list_find (fun l => l_ready l = true) (set_of i s) with
       | Some (n, l) => evict_line cf i n l s
       | None => s
       end.

Definition line_available (set : list Line) : bool := has_room cf set || existsb l_ready set.

Lemma allocate_line_spec i a s : get_tag cf a ∉ l_tag <$> set_of i s -> line_available (set_of i s) = true ->
  allocate_line cf i a s = Ok (Some (next_node s), push_line cf i a false false (make_room i s)).
Proof.
  intros Ht Hav. unfold allocate_line, need_eviction, make_room, line_available in *.
  destruct (list_find (fun l => l_tag l = get_tag cf a) (set_of i s)) as [[n l]|] eqn:E.
  { apply list_find_Some in E as (Hn & Hl & _). destruct Ht. rewrite <- Hl.
    apply list_elem_of_fmap_2. by eapply list_elem_of_lookup_2. }
  rewrite bind_Ok_l. destruct (has_room cf (set_of i s)); cbn [negb orb] in *; [done|].
  apply existsb_exists in Hav as (l & Hin%list_elem_of_In & Hr).
  destruct (list_find_elem_of (fun x => l_ready x = true) _ _ Hin Hr) as [[n x] Hf]. rewrite Hf.
  unfold evict_line. by destruct (l_dirty x).
Qed.

(** What is left of a set when room has been made. *)
Lemma make_room_spec i s : llc_wf s -> line_available (set_of i s) = true ->
  llc_wf (make_room i s) /\ Z.of_nat (length (set_of i (make_room i s))) < m_associativity cf /\
  (forall l, l ∈ set_of i (make_room i s) -> l ∈ set_of i s) /\
  m_mshrs (make_room i s) = m_mshrs s /\ next_node (make_room i s) = next_node s /\
  m_allocated_mshrs (make_room i s) = m_allocated_mshrs s.
Proof.
  intros W Hav. unfold make_room, line_available in *.
  destruct (has_room cf (set_of i s)) eqn:Hr; [by apply has_room_spec in Hr|]. cbn in Hav.
  apply existsb_exists in Hav as (l & Hin%list_elem_of_In & Hrl).
  destruct (list_find_elem_of (fun x => l_ready x = true) _ _ Hin Hrl) as [[n x] Hf]. rewrite Hf.
  apply list_find_Some in Hf as (Hx & Hrx & _).
  split; [by apply evict_line_wf|]. pose proof (lookup_lt_Some _ _ _ Hx) as Hlt.
  assert (set_of i (evict_line cf i n x s) = delete n (set_of i s)) as ->.
  { unfold evict_line, set_of. destruct (l_dirty x); cbn; by rewrite lookup_insert_eq. }
  split; [|split; [intros y Hy; by eapply elem_of_delete|by unfold evict_line; destruct (l_dirty x)]].
  rewrite length_delete by done. destruct W as [W _]. pose proof (sw_size _ _ _ _ (cw_sets _ _ _ _ W i)).
  unfold set_of, at_index in *. lia.
Qed.

(** Writing the dirty bit through the iterator to the new line. *)
Lemma update_pushed i a d s : wf cf s ->
  update_line (i, next_node s) (set_dirty d) (push_line cf i a false false s) = Ok (push_line cf i a d false s).
Proof.
  intros W. unfold update_line, line_at, push_line. cbn. unfold set_of. cbn.
  rewrite lookup_insert_eq. cbn. fold (set_of i s).
  assert (list_find (fun l => l_node l = next_node s) (set_of i s) = None) as Hnone.
  { apply list_find_None. pose proof (sw_lines _ _ _ _ (cw_sets _ _ _ _ W i)) as Hl.
    eapply list.Forall_impl; [exact Hl|]. intros l (_ & _ & _ & Hlt). cbn. lia. }
  rewrite list_find_app_r by done. cbn. rewrite decide_True by done. cbn.
  unfold put_set, bump_node, set_sets. cbn.
  rewrite insert_insert_eq. do 4 f_equal. fold (set_of i s).
  rewrite insert_app_r_alt by lia. by rewrite Nat.sub_diag.
Qed.

Lemma add_allocated_Ok src d s : length (m_allocated_mshrs s) = cores -> src < Z.of_nat cores ->
  exists l, add_allocated src d s = Ok (set_allocated l s) /\ length l = cores.
Proof.
  intros Hl Hs. unfold add_allocated. destruct (Z.leb_spec 0 src) as [H0|H0].
  - destruct (vget_is_Ok (m_allocated_mshrs s) src) as [n Hn]; [lia|]. rewrite Hn, bind_Ok_l.
    eexists. unfold vset. rewrite bool_decide_eq_true_2 by lia. rewrite bind_Ok_l. split; [done|]. by rewrite length_insert.
  - exists (m_allocated_mshrs s). split; [by destruct s|done].
Qed.

(** The state after a miss that is given a line and an MSHR. *)
Definition missed (i : Z) (dirty : bool) (req : Request) (s : t) : t :=
  let s := push_line cf i (addr req) dirty false (make_room i s) in
  let s := set_mshrs (m_mshrs s ++ [(addr req, (i, pred (next_node s)))]) s in
  let s := set_receive (<[addr req := [req]]> (m_receive_requests s)) s in
  set_lists (m_clk s) (m_miss_list s ++ [(m_clk s + m_latency cf, req)]) (m_hit_list s) s.

Lemma send_new_miss_eq i dirty req s : llc_wf s -> get_tag cf (addr req) ∉ l_tag <$> set_of i s ->
  send_new_miss cf i dirty req s =
  if Z.of_nat (length (m_mshrs s)) =? u64 (m_num_mshrs cf) then Ok (false, count_unavailable s)
  else if negb (line_available (set_of i s)) then Ok (false, s)
  else s ← add_allocated (source_id req) 1 (missed i dirty req s); Ok (true, s).
Proof.
  intros W Ht. unfold send_new_miss. destruct (_ =? _); [done|].
  rewrite <- negb_orb. fold (line_available (set_of i s)). destruct (line_available _) eqn:Hav; [|done].
  cbn [negb]. rewrite allocate_line_spec by done. rewrite bind_Ok_l. cbn.
  destruct (make_room_spec i s W Hav) as ([W1 _] & _ & _ & _ & Hnn & _). rewrite <- Hnn.
  by rewrite update_pushed.
Qed.

Lemma missed_wf i dirty req s : llc_wf s -> is_i64 (addr req) -> i = get_index cf (addr req) ->
  get_tag cf (addr req) ∉ l_tag <$> set_of i s -> align cf (addr req) ∉ align cf ∘ fst <$> m_mshrs s ->
  Z.of_nat (length (m_mshrs s)) <> u64 (m_num_mshrs cf) -> line_available (set_of i s) = true ->
  llc_wf (missed i dirty req s).
Proof.
  intros W Ha Hi Ht Hal Hn Hav. destruct (make_room_spec i s W Hav) as ([W1 V1] & Hlen & Hsub & Hm & Hnn & _).
  pose proof (cw_count _ _ _ _ (proj1 W)). pose proof (gc_mshrs _ _ _ G). rewrite u64_small in Hn by lia.
  split; [|done]. set (r := make_room i s) in *.
  apply (core_push_miss cf (m_cache_sets r) (m_mshrs r) (next_node r) i (addr req) dirty); try done.
  - intros (l & El & Hl)%list_elem_of_fmap. apply Ht. rewrite El. apply list_elem_of_fmap_2. by apply Hsub.
  - by rewrite Hm.
  - rewrite Hm. lia.
Qed.

Lemma send_new_miss_Ok i dirty req s : llc_wf s -> req_wf req -> i = get_index cf (addr req) ->
  get_tag cf (addr req) ∉ l_tag <$> set_of i s -> align cf (addr req) ∉ align cf ∘ fst <$> m_mshrs s ->
  exists ok s', send_new_miss cf i dirty req s = Ok (ok, s') /\ llc_wf s'.
Proof.
  intros W [Ha Hsrc] Hi Ht Hal. rewrite send_new_miss_eq by done.
  destruct (Z.eqb_spec (Z.of_nat (length (m_mshrs s))) (u64 (m_num_mshrs cf))) as [|Hn]; [by eexists _, _|].
  destruct (line_available (set_of i s)) eqn:Hav; cbn [negb]; [|by eexists _, _].
  pose proof (missed_wf i dirty req s W Ha Hi Ht Hal Hn Hav) as [Wm Vm].
  destruct (add_allocated_Ok (source_id req) 1 (missed i dirty req s)) as (l & -> & Hl); [apply Vm|done|].
  rewrite bind_Ok_l. eexists _, _. split; [done|]. split; [done|]. split; [done|apply Vm].
Qed.

Lemma send_mshr_hit_Ok e dirty req s : llc_wf s -> e ∈ m_mshrs s ->
  exists s', send_mshr_hit e dirty req s = Ok s' /\ llc_wf s'.
Proof.
  intros [W V] He. unfold send_mshr_hit, update_line.
  set (s1 := set_receive _ s). destruct (line_at_mshr s1 e W He) as (n & l & -> & Hn & Hl).
  rewrite bind_Ok_l. eexists. split; [done|]. split; [|done].
  by apply (core_update cf _ _ _ e.2.1 n l).
Qed.

Lemma is_blacklisted_Ok src s : vectors_wf s -> src < Z.of_nat cores -> is_Ok (is_blacklisted src s).
Proof.
  intros (H1 & H2 & H3) Hs. unfold is_blacklisted. destruct (Z.leb_spec 0 src); [|by eexists].
  destruct (vget_is_Ok (m_blacklist_status s) src) as [b ->]; [lia|]. rewrite bind_Ok_l. destruct b; [|by eexists].
  destruct (vget_is_Ok (m_allocated_mshrs s) src) as [n ->]; [lia|]. rewrite bind_Ok_l.
  destruct (vget_is_Ok (m_blacklist_max_mshrs s) src) as [m ->]; [lia|]. by eexists.
Qed.

(** The state in which [send] looks the address up. *)
Definition accessed (req : Request) (s : t) : t := count_access (type_id req) (get_set cf (addr req) s).2.

Lemma send_eq req s : send cf req s =
  match check_set_hit cf (set_of (get_index cf (addr req)) (accessed req s)) (addr req) with
  | Some (n, l) => Ok (true, req, send_hit cf (get_index cf (addr req)) n l req (accessed req s))
  | None => send_miss cf (get_index cf (addr req)) req (accessed req s)
  end.
Proof. reflexivity. Qed.

Lemma accessed_wf req s : llc_wf s -> llc_wf (accessed req s).
Proof. apply get_set_wf. Qed.

Lemma accessed_set req s i : set_of i (accessed req s) = set_of i s.
Proof.
  unfold accessed, set_of. cbn. rewrite lookup_insert. case_decide as E; [by rewrite E|done].
Qed.

Lemma send_Ok req s : llc_wf s -> req_wf req -> exists ok req' s', send cf req s = Ok (ok, req', s') /\ llc_wf s'.
Proof.
  intros W Hreq. rewrite send_eq. pose proof (accessed_wf req s W) as W1.
  set (i := get_index cf (addr req)) in *. generalize dependent (accessed req s). intros s1 W1.
  destruct (check_set_hit cf (set_of i s1) (addr req)) as [[n l]|] eqn:Hh.
  - apply check_set_hit_Some in Hh as (Hn & Ht & Hr). eexists _, _, _. split; [done|].
    apply send_hit_wf; try done. apply Hreq.
  - unfold send_miss. set (req' := if type_id req =? ReqType.Write then _ else req).
    set (s2 := count_miss (type_id req) s1). assert (llc_wf s2) as W2 by exact W1.
    assert (addr req' = addr req /\ source_id req' = source_id req) as [Ea Es] by (by unfold req'; destruct (_ =? _)).
    destruct (check_mshr_hit cf (addr req') s2) as [[m e]|] eqn:Hm.
    + apply check_mshr_hit_Some in Hm as [Hm _].
      destruct (send_mshr_hit_Ok e (type_id req =? ReqType.Write) req' s2 W2) as (s3 & -> & W3);
        [by eapply list_elem_of_lookup_2|]. rewrite bind_Ok_l. by eexists _, _, _.
    + destruct (is_blacklisted_Ok (source_id req') s2) as [b ->]; [apply W2|rewrite Es; apply Hreq|].
      rewrite bind_Ok_l. destruct b; [by eexists _, _, _|].
      destruct (send_new_miss_Ok i (type_id req =? ReqType.Write) req' s2 W2) as (ok & s3 & -> & W3).
      * unfold req_wf. by rewrite Ea, Es.
      * by rewrite Ea.
      * rewrite Ea in *. apply miss_no_tag; try done; [apply W2|apply Hreq].
      * by apply check_mshr_hit_None.
      * rewrite bind_Ok_l. by eexists _, _, _.
Qed.

Lemma llc_receive_Ok req s : llc_wf s -> source_id req < Z.of_nat cores ->
  exists s', receive cf req s = Ok s' /\ llc_wf s'.
Proof.
  intros [W V] Hsrc. unfold receive. destruct (check_mshr_hit cf (addr req) s) as [[m e]|] eqn:Hm; [|by exists s].
  apply check_mshr_hit_Some in Hm as [Hm _]. unfold update_line.
  destruct (line_at_mshr s e W) as (n & l & -> & Hn & Hl); [by eapply list_elem_of_lookup_2|]. rewrite !bind_Ok_l.
  match goal with |- context [add_allocated _ _ ?x] => destruct (add_allocated_Ok (source_id req) (-1) x) as (al & -> & Hal) end;
    [apply V|done|].
  eexists. split; [done|]. split; [|split; [done|apply V]]. by apply (core_fill cf k j G).
Qed.

Lemma clflush_wf a s : llc_wf s -> llc_wf (clflush cf a s).
Proof.
  intros W. unfold clflush. pose proof (get_set_wf a s W) as W1.
  change (get_set cf a s) with (get_index cf a, (get_set cf a s).2). cbv iota beta.
  destruct (check_set_hit cf _ a) as [[n l]|] eqn:Hh; [|done].
  apply check_set_hit_Some in Hh as (Hn & Ht & Hr). by apply evict_line_wf.
Qed.

End Operations.
