(* ===== verification/BhLlcSpec.v ===== *)
(** * What the last-level cache of the BH processor promises

    Replacement refines an abstract recency stack; a store that the cache has
    accepted is never lost; the checkpoint file restores the cache. *)
From Stdlib Require Import String Ascii.
From S2P Require Import Prelude Utils Request SniperTrace BhLlc BhLlcFacts.
Import BHO3LLC.
Local Open Scope Z_scope.

(** ** The abstract recency stack, most recent tag first *)
Definition touch (tag : Z) (stack : list Z) : list Z := tag :: filter (fun x => x <> tag) stack.

(** The distinct tags of a history, the most recently used first. *)
Definition recency (history : list Z) : list Z := foldl (fun stack tag => touch tag stack) [] history.

Lemma filter_all {A} (P : A -> Prop) `{forall x, Decision (P x)} l : Forall P l -> filter P l = l.
Proof. induction 1 as [|x l Hx Hl IH]; [done|]. by rewrite filter_cons_True, IH. Qed.

Lemma filter_ne_notin (tag : Z) (l : list Z) : tag ∉ l -> filter (fun x => x <> tag) l = l.
Proof. intros H. apply filter_all, list.Forall_forall. intros x Hx ->. done. Qed.

Lemma touch_NoDup tag l : NoDup l -> NoDup (touch tag l).
Proof.
  intros. constructor; [|by apply list.NoDup_filter]. rewrite list_elem_of_filter. naive_solver.
Qed.

(** Truncating the stack before or after a use makes no difference: only the
    [n] most recent tags matter. *)
Lemma take_touch_take n tag l : NoDup l -> take n (touch tag (take n l)) = take n (touch tag l).
Proof.
  unfold touch. destruct n as [|m]; [done|]. cbn [take]. intros Hnd. f_equal.
  revert m. induction l as [|x l IH]; intros m; [done|]. apply list.NoDup_cons in Hnd as [Hx Hnd].
  cbn [take]. destruct (decide (x = tag)) as [->|Hne].
  - rewrite !filter_cons_False by naive_solver. rewrite !filter_ne_notin; [|done|].
    + by rewrite take_take, Nat.min_id.
    + intros Hin. apply Hx. rewrite <- (take_drop m l). set_solver.
  - rewrite !filter_cons_True by done. destruct m as [|m]; [done|]. cbn [take]. f_equal. by apply IH.
Qed.

Lemma filter_ne_delete (tags : list Z) n tag : NoDup tags -> tags !! n = Some tag ->
  filter (fun x => x <> tag) tags = delete n tags.
Proof.
  revert n. induction tags as [|x tags IH]; intros [|n] Hnd Hn; simplify_eq/=;
    apply list.NoDup_cons in Hnd as [Hx Hnd].
  - rewrite filter_cons_False by naive_solver. by apply filter_ne_notin.
  - rewrite filter_cons_True; [by rewrite (IH n)|]. intros ->. apply Hx. by eapply list_elem_of_lookup_2.
Qed.

Lemma fmap_delete {A B} (f : A -> B) (l : list A) (n : nat) : f <$> delete n l = delete n (f <$> l).
Proof. revert n. induction l as [|x l IH]; intros [|n]; cbn; [done..|]. by rewrite <- IH. Qed.

(** ** Requests that are completed one at a time *)
Section Lru.
Context (cf : Config) (k j : Z) (G : good_config cf k j) (cores : nat).

Definition access (req : Request) (s : t) : res t :=
  '(ok, req, s) ← send cf req s;
  if ok : bool then receive cf req s else Ok s.

Fixpoint accesses (reqs : list Request) (s : t) : res t :=
  match reqs with
  | [] => Ok s
  | r :: reqs => s ← access r s; accesses reqs s
  end.

Definition tags (i : Z) (s : t) : list Z := l_tag <$> set_of i s.

(** No request is in flight and no core is blacklisted. *)
Definition quiet (s : t) : Prop :=
  llc_wf cf cores s /\ m_mshrs s = [] /\ Forall (fun b => b = false) (m_blacklist_status s).

Lemma quiet_ready s i l : quiet s -> l ∈ set_of i s -> l_ready l = true.
Proof.
  intros ([W _] & Hm & _) Hin. destruct (l_ready l) eqn:E; [done|].
  destruct (cw_inflight _ _ _ _ W i l Hin E) as (e & He & _). rewrite Hm in He. by apply not_elem_of_nil in He.
Qed.

Lemma quiet_not_blacklisted s src : quiet s -> src < Z.of_nat cores -> is_blacklisted src s = Ok false.
Proof.
  intros ([_ (_ & _ & Hl)] & _ & Hb) Hs. unfold is_blacklisted. destruct (Z.leb_spec 0 src); [|done].
  destruct (vget_is_Ok (m_blacklist_status s) src) as [b Hv]; [lia|]. rewrite Hv, bind_Ok_l.
  apply vget_Ok in Hv as [_ Hv]. rewrite list.Forall_forall in Hb.
  by rewrite (Hb b) by (by eapply list_elem_of_lookup_2).
Qed.

Lemma set_of_put i i' set s : set_of i' (put_set i set s) = if decide (i = i') then set else set_of i' s.
Proof. unfold set_of, put_set. cbn. rewrite lookup_insert. by case_decide. Qed.

(** A hit moves the tag to the end of the set. *)
Lemma send_hit_tags i n l req s i' : set_of i s !! n = Some l ->
  tags i' (send_hit cf i n l req s) =
  if decide (i = i') then delete n (tags i s) ++ [get_tag cf (addr req)] else tags i' s.
Proof.
  intros Hn. unfold tags, send_hit.
  change (set_of i' (set_lists ?a ?b ?c ?x)) with (set_of i' x). rewrite set_of_put. case_decide as E.
  - subst i'. unfold push_line. change (set_of i (bump_node ?x)) with (set_of i x). rewrite set_of_put.
    rewrite decide_True by done. rewrite delete_app_l by (by eapply lookup_lt_Some).
    by rewrite fmap_app, fmap_delete.
  - unfold push_line. change (set_of i' (bump_node ?x)) with (set_of i' x). rewrite set_of_put.
    by rewrite decide_False.
Qed.

(** Completing a request changes no tag. *)
Lemma update_line_tags it f s s' i : update_line it f s = Ok s' -> (forall l, l_tag (f l) = l_tag l) ->
  tags i s' = tags i s.
Proof.
  unfold update_line, tags. intros H Hf. apply bind_Ok in H as ([n l] & Hl & H). injection H as <-.
  rewrite set_of_put. case_decide as E; [|done]. subst i. unfold line_at in Hl.
  destruct (list_find _ _) as [[m x]|] eqn:Hfind; [|done]. injection Hl as -> ->.
  apply list_find_Some in Hfind as (Hn & _ & _). rewrite list_fmap_insert, Hf.
  apply list_insert_id. by rewrite list_lookup_fmap, Hn.
Qed.

Lemma add_allocated_frame src d s s' : add_allocated src d s = Ok s' -> exists l, s' = set_allocated l s.
Proof.
  unfold add_allocated. intros H. case_match.
  - apply bind_Ok in H as (n & _ & H). apply bind_Ok in H as (l & _ & H). injection H as <-. by exists l.
  - injection H as <-. exists (m_allocated_mshrs s). by destruct s.
Qed.

Lemma update_line_frame it f s s' : update_line it f s = Ok s' -> exists sets, s' = set_sets sets s.
Proof. intros H. apply bind_Ok in H as ([n l] & _ & H). injection H as <-. by eexists. Qed.

Lemma receive_tags req s s' : receive cf req s = Ok s' ->
  (forall i, tags i s' = tags i s) /\ m_blacklist_status s' = m_blacklist_status s /\
  (forall n e, check_mshr_hit cf (addr req) s = Some (n, e) -> m_mshrs s' = delete n (m_mshrs s)) /\
  (check_mshr_hit cf (addr req) s = None -> s' = s).
Proof.
  unfold receive. destruct (check_mshr_hit cf (addr req) s) as [[n e]|] eqn:Hm; intros H.
  - apply bind_Ok in H as (s1 & H1 & H). apply add_allocated_frame in H as [l ->].
    pose proof (update_line_frame _ _ _ _ H1) as [sets E1].
    split; [|split; [by rewrite E1|split; [by intros ? ? [= <- <-]; rewrite E1|done]]].
    intros i. by rewrite <- (update_line_tags _ _ _ _ i H1).
  - injection H as <-. naive_solver.
Qed.

(** The tags of the sets after a miss that is given a line: the least recently
    used tag leaves a full set. *)
Lemma missed_tags i dirty req s i' : quiet s -> line_available cf (set_of i s) = true ->
  tags i' (missed cf i dirty req s) =
  if decide (i = i') then (if has_room cf (set_of i s) then tags i s else tl (tags i s)) ++ [get_tag cf (addr req)]
  else tags i' s.
Proof.
  intros Q Hav. unfold tags, missed.
  change (set_of i' (set_lists ?a ?b ?c (set_receive ?d (set_mshrs ?e (bump_node ?x))))) with (set_of i' x).
  unfold push_line. cbv zeta. change (set_of i' (set_lists ?a ?b ?c (set_receive ?d (set_mshrs ?e (bump_node ?x))))) with (set_of i' x).
  rewrite set_of_put. unfold make_room. destruct (has_room cf (set_of i s)) eqn:Hr.
  { case_decide; [by rewrite fmap_app|done]. }
  unfold line_available in Hav. rewrite Hr in Hav. cbn in Hav.
  destruct (set_of i s) as [|l set] eqn:Es; [done|]. cbn [list_find].
  assert (l_ready l = true) as Hl by (apply (quiet_ready s i); [done|rewrite Es; by left]).
  rewrite (decide_True (P := l_ready l = true)) by done.
  assert (forall i', set_of i' (evict_line cf i 0 l s) = if decide (i = i') then set else set_of i' s) as He.
  { intros i0. unfold evict_line. rewrite set_of_put. unfold count_eviction.
    destruct (l_dirty l); case_decide; try done; unfold set_of in *; cbn; by rewrite Es. }
  rewrite !He. case_decide; [|done]. rewrite decide_True by done. by rewrite fmap_app.
Qed.

(** One completed request is one use of the abstract stack. *)
Definition stack_step (i : Z) (req : Request) (stack : list Z) : list Z :=
  if decide (get_index cf (addr req) = i)
  then take (Z.to_nat (m_associativity cf)) (touch (get_tag cf (addr req)) stack) else stack.

Lemma tags_NoDup s i : quiet s -> NoDup (tags i s).
Proof. intros ([W _] & _). apply (sw_tags _ _ _ _ (cw_sets _ _ _ _ W i)). Qed.

Lemma tags_length s i : quiet s -> Z.of_nat (length (tags i s)) <= m_associativity cf.
Proof.
  intros ([W _] & _). unfold tags. rewrite length_fmap. apply (sw_size _ _ _ _ (cw_sets _ _ _ _ W i)).
Qed.

Lemma stack_hit n tag (l : list Z) : NoDup l -> l !! n = Some tag -> Z.of_nat (length l) <= m_associativity cf ->
  reverse (delete n l ++ [tag]) = take (Z.to_nat (m_associativity cf)) (touch tag (reverse l)).
Proof.
  intros Hnd Hn Hl. pose proof (lookup_lt_Some _ _ _ Hn) as Hlt. unfold touch. rewrite reverse_snoc.
  assert (filter (fun x => x <> tag) (reverse l) = reverse (delete n l)) as ->.
  { rewrite <- (filter_ne_delete l n tag) by done. apply filter_reverse. }
  rewrite take_ge; [done|]. cbn [length]. rewrite length_reverse, length_delete by done. lia.
Qed.

Lemma stack_miss tag (l : list Z) : tag ∉ l -> Z.of_nat (length l) <= m_associativity cf -> 1 <= m_associativity cf ->
  reverse ((if Z.of_nat (length l) <? m_associativity cf then l else tl l) ++ [tag]) =
  take (Z.to_nat (m_associativity cf)) (touch tag (reverse l)).
Proof.
  intros Hnin Hl Ha. unfold touch. rewrite reverse_snoc, filter_ne_notin by (by rewrite elem_of_reverse).
  destruct (Z.ltb_spec (Z.of_nat (length l)) (m_associativity cf)).
  - rewrite take_ge; [done|]. cbn [length]. rewrite length_reverse. lia.
  - destruct l as [|x l]; [cbn in *; lia|]. cbn [tl length] in *. rewrite reverse_cons.
    replace (Z.to_nat (m_associativity cf)) with (S (length (reverse l))) by (rewrite length_reverse; lia).
    cbn [take]. by rewrite take_app_length.
Qed.

(** A store fetches its line with a read. *)
Definition as_read (req : Request) : Request :=
  if type_id req =? ReqType.Write then set_ids ReqType.Read (source_id req) req else req.

Lemma as_read_addr req : addr (as_read req) = addr req.
Proof. unfold as_read. by case_match. Qed.

Lemma as_read_src req : source_id (as_read req) = source_id req.
Proof. unfold as_read. by case_match. Qed.

Lemma quiet_available s i : quiet s -> line_available cf (set_of i s) = true.
Proof.
  intros Q. unfold line_available. destruct (has_room cf (set_of i s)) eqn:Hr; [done|]. cbn.
  destruct (set_of i s) as [|l set] eqn:E.
  - assert (has_room cf [] = true) as Ht; [|congruence]. apply (has_room_spec cf k j G). pose proof (gc_assoc _ _ _ G). cbn. lia.
  - cbn. by rewrite (quiet_ready s i l) by (done || rewrite E; by left).
Qed.

(** A miss and its completion. *)
Lemma missed_access s i req : quiet s -> req_wf cores req -> i = get_index cf (addr req) ->
  get_tag cf (addr (as_read req)) ∉ tags i s -> 1 <= m_num_mshrs cf ->
  exists s2 s', add_allocated (source_id (as_read req)) 1
                  (missed cf i (type_id req =? ReqType.Write) (as_read req) s) = Ok s2 /\
    receive cf (as_read req) s2 = Ok s' /\ quiet s' /\
    forall i', tags i' s' = if decide (i = i')
      then (if has_room cf (set_of i s) then tags i s else tl (tags i s)) ++ [get_tag cf (addr req)]
      else tags i' s.
Proof.
  intros Q Hreq Hi Hnin Hn. pose proof Q as (W & Hm0 & Hb). pose proof (quiet_available s i Q) as Hav.
  set (m := missed cf i _ (as_read req) s). assert (llc_wf cf cores m) as [Wm Vm].
  { apply (missed_wf cf k j G); rewrite ?as_read_addr; try done; [apply Hreq|by rewrite as_read_addr in Hnin| |].
    - rewrite Hm0. apply not_elem_of_nil.
    - rewrite Hm0, u64_small; pose proof (gc_mshrs _ _ _ G); cbn; lia. }
  destruct (add_allocated_Ok cores (source_id (as_read req)) 1 m) as (al & -> & Hal);
    [apply Vm|rewrite as_read_src; apply Hreq|].
  assert (llc_wf cf cores (set_allocated al m)) as W2 by (split; [exact Wm|]; split; [done|apply Vm]).
  destruct (llc_receive_Ok cf k j G cores (as_read req) _ W2) as (s3 & H3 & W3); [rewrite as_read_src; apply Hreq|].
  exists (set_allocated al m), s3. split; [done|]. split; [exact H3|]. pose proof (receive_tags _ _ _ H3) as (Ht & Hbl & Hms & _).
  assert (m_mshrs m = [(addr (as_read req), (i, pred (next_node m)))]) as Em.
  { unfold m, missed. cbn. destruct (make_room_spec cf k j G cores i s W Hav) as (_ & _ & _ & E & _). by rewrite E, Hm0. }
  split.
  - split; [done|]. split.
    + rewrite (Hms 0%nat (addr (as_read req), (i, pred (next_node m)))); cbn [m_mshrs set_allocated]; [by rewrite Em|].
      unfold check_mshr_hit. cbn [m_mshrs set_allocated]. rewrite Em. cbn [list_find]. by rewrite decide_True.
    + rewrite Hbl. cbn. unfold m, missed. cbn. unfold make_room, evict_line. by repeat (case_match; cbn).
  - intros i'. rewrite Ht. change (tags i' (set_allocated al m)) with (tags i' m). unfold m.
    rewrite missed_tags by done. by rewrite as_read_addr.
Qed.

Lemma access_spec req s : quiet s -> req_wf cores req -> 1 <= m_num_mshrs cf ->
  exists s', access req s = Ok s' /\ quiet s' /\ forall i, reverse (tags i s') = stack_step i req (reverse (tags i s)).
Proof.
  intros Q Hreq Hn. pose proof Q as (W & Hm0 & Hb). unfold access. rewrite send_eq.
  pose proof (accessed_wf cf cores req s W) as W1. pose proof (accessed_set cf req s) as Hset.
  assert (quiet (accessed cf req s)) as Q1 by (by split; [|split]).
  assert (forall i, tags i (accessed cf req s) = tags i s) as Ht by (intros; unfold tags; by rewrite Hset).
  set (i0 := get_index cf (addr req)). pose proof (gc_assoc _ _ _ G).
  destruct (check_set_hit cf _ (addr req)) as [[n l]|] eqn:Hh.
  - apply check_set_hit_Some in Hh as (Hl & Htag & Hr). rewrite bind_Ok_l.
    pose proof (send_hit_wf cf cores i0 n l req _ W1 (proj1 Hreq) eq_refl Hl Htag Hr) as W2.
    set (s2 := send_hit cf i0 n l req (accessed cf req s)) in *.
    destruct (llc_receive_Ok cf k j G cores req s2 W2 (proj2 Hreq)) as (s3 & H3 & W3). exists s3. split; [exact H3|].
    assert (check_mshr_hit cf (addr req) s2 = None) as Hno by (unfold check_mshr_hit; cbn; by rewrite Hm0).
    apply receive_tags in H3 as (_ & _ & _ & H3). rewrite (H3 Hno). split; [by split; [|split]|].
    intros i. unfold s2. rewrite send_hit_tags by done. rewrite !Ht. unfold stack_step. fold i0. case_decide; [|done]. subst i.
    apply stack_hit; [by apply tags_NoDup| |by apply tags_length].
    unfold tags. rewrite <- Hset, list_lookup_fmap, Hl. cbn. by rewrite Htag.
  - assert (send_miss cf i0 req (accessed cf req s) =
      '(ok, s') ← send_new_miss cf i0 (type_id req =? ReqType.Write) (as_read req) (count_miss (type_id req) (accessed cf req s));
      Ok (ok, as_read req, s')) as ->.
    { unfold send_miss, check_mshr_hit. cbn [m_mshrs count_miss set_stats accessed count_access get_set put_set set_sets snd].
      fold (as_read req). rewrite Hm0. cbn [list_find]. change (count_miss _ _) with (count_miss (type_id req) (accessed cf req s)).
      rewrite quiet_not_blacklisted; [done|by split; [|split]|]. rewrite as_read_src. apply Hreq. }
    set (s1 := count_miss (type_id req) (accessed cf req s)).
    assert (quiet s1) as Qs1 by exact Q1. assert (forall i, tags i s1 = tags i s) as Ht1 by exact Ht.
    assert (get_tag cf (addr (as_read req)) ∉ tags i0 s1) as Hnin.
    { rewrite as_read_addr. apply (miss_no_tag cf k j G); [apply Qs1|apply Hreq|exact Hh|].
      unfold check_mshr_hit. by rewrite (proj1 (proj2 Qs1)). }
    rewrite (send_new_miss_eq cf k j G cores) by (done || apply Qs1). rewrite (proj1 (proj2 Qs1)).
    rewrite (proj2 (Z.eqb_neq _ _)) by (cbn; rewrite u64_small; pose proof (gc_mshrs _ _ _ G); lia).
    assert (line_available cf (set_of i0 s1) = true) as Hav by (by apply quiet_available). rewrite Hav. cbn [negb].
    destruct (missed_access s1 i0 req Qs1 Hreq eq_refl Hnin Hn) as (s2 & s3 & H2 & H3 & Q3 & Ht3).
    exists s3. rewrite H2, !bind_Ok_l. split; [exact H3|]. split; [done|]. intros i. rewrite Ht3, Ht1. unfold stack_step. fold i0.
    case_decide; [|by rewrite Ht1]. subst i. rewrite <- (Ht1 i0). rewrite as_read_addr in Hnin.
    pose proof (stack_miss _ _ Hnin (tags_length _ _ Qs1) ltac:(lia)) as <-.
    do 3 f_equal. unfold has_room, tags. rewrite length_fmap, u64_small by lia. done.
Qed.

Lemma accesses_spec reqs : forall s, quiet s -> Forall (req_wf cores) reqs -> 1 <= m_num_mshrs cf ->
  exists s', accesses reqs s = Ok s' /\ quiet s' /\
    forall i, reverse (tags i s') = foldl (fun st r => stack_step i r st) (reverse (tags i s)) reqs.
Proof.
  induction reqs as [|r reqs IH]; intros s Q Hall Hn; [by exists s|]. apply list.Forall_cons in Hall as [Hr Hall].
  destruct (access_spec r s Q Hr Hn) as (s1 & H1 & Q1 & Ht1). destruct (IH s1 Q1 Hall Hn) as (s2 & H2 & Q2 & Ht2).
  exists s2. cbn [accesses]. rewrite H1, bind_Ok_l. split; [done|]. split; [done|]. intros i. by rewrite Ht2, Ht1.
Qed.

Definition history (i : Z) (reqs : list Request) : list Z :=
  get_tag cf ∘ addr <$> filter (fun r => get_index cf (addr r) = i) reqs.

Lemma stack_history i reqs : forall st, NoDup st ->
  foldl (fun st r => stack_step i r st) (take (Z.to_nat (m_associativity cf)) st) reqs =
  take (Z.to_nat (m_associativity cf)) (foldl (fun st tag => touch tag st) st (history i reqs)).
Proof.
  unfold history. induction reqs as [|r reqs IH]; intros st Hnd; [done|]. cbn [foldl]. unfold stack_step at 2.
  rewrite filter_cons. case_decide; [|by apply IH]. cbn [fmap list_fmap foldl].
  rewrite take_touch_take by done. by apply IH, touch_NoDup.
Qed.
End Lru.

(** ** Stored data is not lost *)
Section Dirty.
Context (cf : Config) (k j : Z) (G : good_config cf k j) (cores : nat).

(** A dirty line of the cache holds the block of [a]. *)
Definition dirty_in (s : t) (a : Z) : Prop :=
  exists l, l ∈ set_of (get_index cf a) s /\ l_tag l = get_tag cf a /\ l_dirty l = true.

(** A write back of the block of [a] waits for the memory system. *)
Definition writeback_queued (s : t) (a : Z) : Prop :=
  exists due r, (due, r) ∈ m_miss_list s /\ type_id r = ReqType.Write /\ align cf (addr r) = align cf a.

Definition stored (s : t) (a : Z) : Prop := dirty_in s a \/ writeback_queued s a.

Lemma stored_mono s s' a :
  (forall l, l ∈ set_of (get_index cf a) s -> l_dirty l = true ->
     exists l', l' ∈ set_of (get_index cf a) s' /\ l_tag l' = l_tag l /\ l_dirty l' = true) ->
  m_miss_list s ⊆ m_miss_list s' -> stored s a -> stored s' a.
Proof.
  intros Hl Hm [(l & Hin & Ht & Hd)|(due & r & Hin & ?)].
  - left. destruct (Hl l Hin Hd) as (l' & ? & ? & ?). exists l'. naive_solver congruence.
  - right. exists due, r. split; [by apply Hm|done].
Qed.

Lemma stored_update it f s s' a : update_line it f s = Ok s' ->
  (forall l, l_tag (f l) = l_tag l /\ (l_dirty l = true -> l_dirty (f l) = true)) -> stored s a -> stored s' a.
Proof.
  intros H Hf. apply bind_Ok in H as ([n l] & Hl & H). injection H as <-. apply stored_mono; [|done].
  intros x Hx Hd. rewrite set_of_put. case_decide as E; [|by exists x]. rewrite E in *. unfold line_at in Hl.
  rewrite E in Hl. destruct (list_find _ _) as [[m y]|] eqn:Hfind; [|done]. injection Hl as -> ->.
  apply list_find_Some in Hfind as (Hn & _ & _). destruct (elem_of_delete_inv _ _ _ _ Hn Hx) as [->|Hx'].
  - exists (f l). split; [by eapply elem_of_insert_new|]. destruct (Hf l). auto.
  - exists x. split; [by eapply elem_of_insert_other|done].
Qed.

Lemma stored_push i b d r s a : stored s a -> stored (push_line cf i b d r s) a.
Proof.
  apply stored_mono; [|done]. intros l Hin Hd. exists l. split; [|done].
  unfold push_line. change (set_of ?x (bump_node ?y)) with (set_of x y). rewrite set_of_put.
  case_decide as E; [|done]. rewrite E. set_solver.
Qed.

(** The line that leaves the cache is written back if it is dirty. *)
Lemma stored_evict i n l s a : wf cf s -> is_i64 a -> set_of i s !! n = Some l -> stored s a -> stored (evict_line cf i n l s) a.
Proof.
  intros W Ha Hn Hst.
  assert (line_wf cf (next_node s) i l) as (Hal & Hil & Htl & _).
  { pose proof (sw_lines _ _ _ _ (cw_sets _ _ _ _ W i)) as Hf. rewrite list.Forall_forall in Hf.
    apply Hf. by eapply list_elem_of_lookup_2. }
  destruct Hst as [(x & Hin & Ht & Hd)|Hq].
  2: { right. destruct Hq as (due & r & Hin & ?). exists due, r. split; [|done]. unfold evict_line. cbn.
       destruct (l_dirty l); cbn; set_solver. }
  destruct (decide (i = get_index cf a)) as [Ei|Hne].
  - rewrite Ei in *. destruct (elem_of_delete_inv _ _ _ _ Hn Hin) as [->|Hx].
    + right. unfold evict_line. rewrite Hd. eexists _, _. cbn. split; [apply elem_of_app; right; by left|]. split; [done|].
      cbn. apply (align_eq cf k j G); [done..|]. apply (block_eq cf k j G). split; congruence.
    + left. exists x. split; [|done]. unfold evict_line. rewrite set_of_put, decide_True by done.
      unfold count_eviction. by destruct (l_dirty l).
  - left. exists x. split; [|done]. unfold evict_line. rewrite set_of_put, decide_False by done.
    unfold count_eviction. by destruct (l_dirty l).
Qed.

Lemma stored_frame s s' a : m_cache_sets s' = m_cache_sets s -> m_miss_list s ⊆ m_miss_list s' -> stored s a -> stored s' a.
Proof. intros E. apply stored_mono. intros l. unfold set_of. rewrite E. intros ? ?. by exists l. Qed.

Lemma stored_hit i n l req s a : set_of i s !! n = Some l -> l_tag l = get_tag cf (addr req) ->
  stored s a -> stored (send_hit cf i n l req s) a.
Proof.
  intros Hn Ht. apply stored_mono; [|done]. intros x Hin Hd. unfold send_hit.
  change (set_of ?x (set_lists ?a ?b ?c ?y)) with (set_of x y). rewrite set_of_put. unfold push_line.
  change (set_of ?x (bump_node ?y)) with (set_of x y). rewrite !set_of_put. rewrite (decide_True (P := i = i)) by done.
  case_decide as E; [|by exists x]. rewrite delete_app_l by (by eapply lookup_lt_Some). rewrite <- E in Hin.
  destruct (elem_of_delete_inv _ _ _ _ Hn Hin) as [->|Hx].
  - eexists. split; [apply elem_of_app; right; by left|]. cbn. by rewrite Hd.
  - exists x. split; [apply elem_of_app; by left|done].
Qed.

Lemma hit_stored i n l req s : set_of i s !! n = Some l -> i = get_index cf (addr req) -> type_id req = ReqType.Write ->
  stored (send_hit cf i n l req s) (addr req).
Proof.
  intros Hn Hi Hw. left. unfold dirty_in, send_hit. rewrite <- Hi.
  change (set_of ?x (set_lists ?a ?b ?c ?y)) with (set_of x y). rewrite set_of_put, decide_True by done.
  unfold push_line. change (set_of ?x (bump_node ?y)) with (set_of x y). rewrite set_of_put, decide_True by done.
  rewrite delete_app_l by (by eapply lookup_lt_Some). eexists. split; [apply elem_of_app; right; by left|].
  cbn. rewrite Hw. by rewrite orb_true_r.
Qed.

Lemma stored_make_room i s a : wf cf s -> is_i64 a -> stored s a -> stored (make_room cf i s) a.
Proof.
  intros W Ha Hst. unfold make_room. case_match; [done|]. destruct (list_find _ _) as [[n l]|] eqn:E; [|done].
  apply list_find_Some in E as (Hn & _ & _). by apply stored_evict.
Qed.

Lemma stored_missed i d req s a : wf cf s -> is_i64 a -> stored s a -> stored (missed cf i d req s) a.
Proof.
  intros W Ha Hst. eapply (stored_frame (push_line cf i (addr req) d false (make_room cf i s))); [done|cbn; set_solver|].
  by apply stored_push, stored_make_room.
Qed.

Lemma missed_stored i req s : i = get_index cf (addr req) -> stored (missed cf i true req s) (addr req).
Proof.
  intros Hi. left. unfold dirty_in. rewrite <- Hi. unfold missed.
  match goal with |- context [set_of i ?x] => change (set_of i x) with (set_of i (put_set i (set_of i (make_room cf i s) ++
    [mkLine (addr req) (get_tag cf (addr req)) true false (next_node (make_room cf i s))]) (make_room cf i s))) end.
  rewrite set_of_put, decide_True by done. eexists. split; [apply elem_of_app; right; by left|done].
Qed.

Lemma mshr_hit_stored e n req dirty s s' a : llc_wf cf cores s -> is_i64 (addr req) ->
  check_mshr_hit cf (addr req) s = Some (n, e) -> send_mshr_hit e dirty req s = Ok s' ->
  (stored s a -> stored s' a) /\ (dirty = true -> stored s' (addr req)).
Proof.
  intros [W _] Ha He H. unfold send_mshr_hit in H. set (s1 := set_receive _ s) in H. split.
  { intros Hst. eapply stored_update; [exact H| |by apply (stored_frame s)].
    intros l. cbn. split; [done|]. intros ->. by rewrite orb_true_r. }
  intros ->. apply check_mshr_hit_Some in He as [He Hal].
  assert (e ∈ m_mshrs s) as Hin by (by eapply list_elem_of_lookup_2).
  destruct (line_at_mshr cf s1 e W Hin) as (m & l & Hl & Hm & (_ & _ & _ & Hi & Ht)).
  unfold update_line in H. rewrite Hl, bind_Ok_l in H. injection H as <-.
  destruct (cw_mshrs _ _ _ _ W e Hin) as [Hae _].
  apply (align_eq cf k j G) in Hal; [|done..]. apply (block_eq cf k j G) in Hal as [Ei Et].
  left. unfold dirty_in. rewrite set_of_put, decide_True by congruence.
  eexists. split; [by eapply elem_of_insert_new|]. cbn. split; congruence.
Qed.

Lemma new_miss_stored i dirty req s ok s' a : llc_wf cf cores s -> is_i64 a -> i = get_index cf (addr req) ->
  get_tag cf (addr req) ∉ l_tag <$> set_of i s -> send_new_miss cf i dirty req s = Ok (ok, s') ->
  (stored s a -> stored s' a) /\ (ok = true -> dirty = true -> stored s' (addr req)).
Proof.
  intros W Ha Hi Ht H. rewrite (send_new_miss_eq cf k j G cores) in H by done.
  case_match; [by injection H as <- <-|]. case_match; [by injection H as <- <-|].
  apply bind_Ok in H as (s1 & Hadd & H). injection H as <- <-. apply add_allocated_frame in Hadd as [l ->]. split.
  - intros Hst. apply (stored_frame (missed cf i dirty req s)); [done|done|]. apply stored_missed; [apply W|done|done].
  - intros _ ->. apply (stored_frame (missed cf i true req s)); [done|done|]. by apply missed_stored.
Qed.

Lemma send_stored req s ok req' s' a : llc_wf cf cores s -> req_wf cores req -> is_i64 a ->
  send cf req s = Ok (ok, req', s') ->
  (stored s a -> stored s' a) /\ (ok = true -> type_id req = ReqType.Write -> stored s' (addr req)).
Proof.
  intros W [Hreq _] Ha H. rewrite send_eq in H. pose proof (accessed_wf cf cores req s W) as W1.
  assert (stored s a -> stored (accessed cf req s) a) as Hacc.
  { apply stored_mono; [|done]. intros l. rewrite accessed_set. intros ? ?. by exists l. }
  generalize dependent (accessed cf req s). intros s1 H W1 Hacc. set (i := get_index cf (addr req)) in *.
  destruct (check_set_hit cf _ _) as [[n l]|] eqn:Hh.
  { apply check_set_hit_Some in Hh as (Hn & Ht & _). injection H as <- <- <-. split.
    - intros Hst. apply stored_hit; [done|done|by apply Hacc].
    - intros _ Hw. by apply hit_stored. }
  unfold send_miss in H. fold (as_read req) in H. set (s2 := count_miss _ s1) in H.
  assert (llc_wf cf cores s2) as W2 by exact W1. assert (stored s a -> stored s2 a) as Hs2 by exact Hacc.
  destruct (check_mshr_hit cf (addr (as_read req)) s2) as [[m e]|] eqn:Hm.
  - apply bind_Ok in H as (s3 & H3 & H). injection H as <- <- <-.
    eapply (mshr_hit_stored _ _ _ _ _ _ a) in H3 as [Hk Hw]; [|done|by rewrite as_read_addr|done].
    rewrite as_read_addr in Hw. split; [by intros ?%Hs2%Hk|]. intros _ Ht. apply Hw. by rewrite Ht.
  - apply bind_Ok in H as (b & _ & H). destruct b; [by injection H as <- <- <-|].
    apply bind_Ok in H as ([ok1 s3] & H3 & H). injection H as <- <- <-.
    eapply (new_miss_stored _ _ _ _ _ _ a) in H3 as [Hk Hw]; [|done|done|by rewrite as_read_addr|].
    + rewrite as_read_addr in Hw. split; [by intros ?%Hs2%Hk|]. intros Hok Ht. apply Hw; [done|by rewrite Ht].
    + rewrite as_read_addr in *. apply (miss_no_tag cf k j G); try done. apply W2.
Qed.

Lemma receive_stored req s s' a : receive cf req s = Ok s' -> stored s a -> stored s' a.
Proof.
  unfold receive. destruct (check_mshr_hit cf (addr req) s) as [[n e]|]; [|by intros [= <-]]. intros H Hst. apply bind_Ok in H as (s1 & H1 & H).
  apply add_allocated_frame in H as [l ->]. eapply (stored_frame s1); [done|done|].
  by eapply stored_update.
Qed.

Lemma clflush_stored b s a : llc_wf cf cores s -> is_i64 a -> stored s a -> stored (clflush cf b s) a.
Proof.
  intros W Ha Hst. unfold clflush. pose proof (get_set_wf cf cores b s W) as [W1 _].
  change (get_set cf b s) with (get_index cf b, (get_set cf b s).2). cbv iota beta.
  assert (stored (get_set cf b s).2 a) as Hst1.
  { revert Hst. apply stored_mono; [|done]. intros l Hin Hd. exists l. split; [|done]. cbn.
    rewrite set_of_put. case_decide as E; [by rewrite E|done]. }
  destruct (check_set_hit cf _ b) as [[n l]|] eqn:Hh; [|done].
  apply check_set_hit_Some in Hh as (Hn & _ & _). by apply stored_evict.
Qed.
End Dirty.

(** ** The checkpoint file *)
Lemma stoll_print_d n : is_i64 n -> stoll (print_d n) = Ok n.
Proof.
  unfold is_i64. intros. unfold stoll, sto_signed, print_d. change (64 - 1) with 63. destruct (Z.ltb_spec n 0).
  - change (strto (String "-" (print_lu (- n)))) with (pair true <$> digits None (print_lu (- n))).
    rewrite digits_print_lu by lia. cbn [fmap option_fmap option_map].
    rewrite Z.opp_involutive. by rewrite (proj2 (Z.leb_le _ _)), (proj2 (Z.ltb_lt _ _)) by lia.
  - rewrite strto_print_lu by lia. by rewrite (proj2 (Z.leb_le _ _)), (proj2 (Z.ltb_lt _ _)) by lia.
Qed.

Definition no_comma (s : string) : bool := all_chars (fun c => negb (Ascii.eqb c ",")) s.

Lemma print_d_no_comma n : no_comma (print_d n) = true.
Proof.
  assert (forall m, 0 <= m -> no_comma (print_lu m) = true) as H.
  { intros m Hm. eapply all_chars_impl; [|by apply print_lu_chars].
    intros c Hc. destruct c as [[] [] [] [] [] [] [] []]; by try discriminate Hc. }
  unfold print_d. destruct (Z.ltb_spec n 0); [|apply H; lia]. unfold no_comma. cbn [all_chars]. apply H. lia.
Qed.

Lemma comma_app s t : no_comma s = true ->
  before_comma (s +:+ String "," t) = s /\ after_comma (s +:+ String "," t) = t.
Proof.
  unfold no_comma, after_comma.
  enough (no_comma s = true -> before_comma (s +:+ String "," t) = s /\ find_comma (s +:+ String "," t) = Some t) as H.
  { intros Hs. destruct (H Hs) as [-> ->]. done. }
  unfold no_comma. induction s as [|c s IH]; [done|]. cbn [all_chars]. intros [Hc Hs]%andb_true_iff.
  change (String c s +:+ String "," t) with (String c (s +:+ String "," t)). cbn [before_comma find_comma].
  apply negb_true_iff in Hc as ->. destruct (IH Hs) as [-> ->]. done.
Qed.

Lemma before_comma_all s : no_comma s = true -> before_comma s = s.
Proof.
  unfold no_comma. induction s as [|c s IH]; [done|]. cbn [all_chars before_comma]. intros [Hc Hs]%andb_true_iff.
  apply negb_true_iff in Hc as ->. by rewrite IH.
Qed.

(** What a line of the file records. *)
Definition line_data (l : Line) : Z * Z * bool := (l_addr l, l_tag l, l_dirty l).

(** A line whose fields fit their C++ types. *)
Definition line_typed (i : Z) (l : Line) : Prop := - 2 ^ 31 <= i < 2 ^ 31 /\ is_i64 (l_addr l) /\ is_i64 (l_tag l).

Lemma parse_print_line i l : line_typed i l ->
  exists l', parse_line (print_line i l) = Ok (i, l') /\
    forall n, line_data (l' n) = line_data l /\ l_ready (l' n) = true.
Proof.
  intros (Hi & Ha & Ht). unfold parse_line, print_line.
  repeat change ("," +:+ ?x) with (String "," x).
  destruct (comma_app (print_d i) (print_d (l_addr l) +:+ String "," (print_d (l_tag l) +:+ String "," (print_bool (l_dirty l)))))
    as [-> ->]; [apply print_d_no_comma|].
  destruct (comma_app (print_d (l_addr l)) (print_d (l_tag l) +:+ String "," (print_bool (l_dirty l)))) as [-> ->];
    [apply print_d_no_comma|].
  destruct (comma_app (print_d (l_tag l)) (print_bool (l_dirty l))) as [-> ->]; [apply print_d_no_comma|].
  rewrite before_comma_all by (by destruct (l_dirty l)).
  rewrite stoi_print, !stoll_print_d by done. cbn [mbind res_bind].
  assert (stoi (print_bool (l_dirty l)) = Ok (if l_dirty l then 1 else 0)) as -> by (by destruct (l_dirty l)).
  cbn [mbind res_bind]. eexists. split; [done|]. intros n. unfold line_data. cbn. by destruct (l_dirty l).
Qed.

(** The data of a set. *)
Definition data (i : Z) (s : t) : list (Z * Z * bool) := line_data <$> set_of i s.

Definition all_ready (s : t) : Prop := forall i l, l ∈ set_of i s -> l_ready l = true.

Lemma load_lines_app l1 : forall l2 s, load_lines (l1 ++ l2) s = load_lines l1 s ≫= load_lines l2.
Proof.
  induction l1 as [|x l1 IH]; intros l2 s; [done|]. cbn. destruct (parse_line x) as [[i l]|]; [|done]. cbn. apply IH.
Qed.

Lemma load_set i set : forall s, Forall (line_typed i) set -> all_ready s ->
  exists s', load_lines (print_line i <$> set) s = Ok s' /\ all_ready s' /\
    forall i', data i' s' = if decide (i = i') then data i s ++ (line_data <$> set) else data i' s.
Proof.
  induction set as [|l set IH]; intros s Hall Hr.
  { exists s. split; [done|]. split; [done|]. intros i'. case_decide; [subst; by rewrite app_nil_r|done]. }
  apply list.Forall_cons in Hall as [Hl Hall]. destruct (parse_print_line i l Hl) as (l' & Hp & Hl').
  destruct (Hl' (next_node s)) as [Hd Hready].
  set (s1 := bump_node (put_set i (set_of i s ++ [l' (next_node s)]) s)).
  assert (forall i', set_of i' s1 = if decide (i = i') then set_of i s ++ [l' (next_node s)] else set_of i' s) as Hset.
  { intros i'. unfold s1. change (set_of i' (bump_node ?x)) with (set_of i' x). apply set_of_put. }
  destruct (IH s1 Hall) as (s2 & H2 & Hr2 & Hdata).
  { intros i' x. rewrite Hset. case_decide; [|apply Hr].
    intros [?| ->%list_elem_of_singleton]%elem_of_app; [by eapply Hr|done]. }
  exists s2. cbn [fmap list_fmap load_lines]. rewrite Hp, bind_Ok_l. split; [exact H2|]. split; [done|]. intros i'.
  rewrite Hdata. unfold data. rewrite !Hset. rewrite (decide_True (P := i = i)) by done. case_decide; [|done].
  rewrite fmap_app, <- app_assoc. cbn. by rewrite Hd.
Qed.

Lemma load_sets entries : forall s, NoDup (entries.*1) ->
  Forall (fun e : Z * list Line => Forall (line_typed e.1) e.2) entries -> all_ready s ->
  (forall i, i ∈ entries.*1 -> data i s = []) ->
  exists s', load_lines ('(i, set) ← entries; print_line i <$> set) s = Ok s' /\ all_ready s' /\
    forall i, data i s' = match list_to_map (M := gmap Z (list Line)) entries !! i with
                          | Some set => line_data <$> set | None => data i s end.
Proof.
  induction entries as [|[i set] entries IH]; intros s Hnd Hall Hr Hempty; [by exists s|].
  cbn in Hnd. apply list.NoDup_cons in Hnd as [Hi Hnd]. apply list.Forall_cons in Hall as [Hset Hall].
  destruct (load_set i set s Hset Hr) as (s1 & H1 & Hr1 & Hd1).
  destruct (IH s1 Hnd Hall Hr1) as (s2 & H2 & Hr2 & Hd2).
  { intros i' Hin. rewrite Hd1, decide_False by (intros ->; done). apply Hempty. by right. }
  exists s2. rewrite bind_cons, load_lines_app. cbn -[load_lines]. rewrite H1, bind_Ok_l. split; [exact H2|]. split; [done|].
  intros i'. rewrite Hd2. cbn. rewrite lookup_insert. destruct (decide (i = i')) as [<-|Hne].
  - rewrite (not_elem_of_list_to_map_1 (M := gmap Z) entries i Hi), Hd1, decide_True by done.
    rewrite (Hempty i) by (by left). done.
  - case_match; [done|]. by rewrite Hd1, decide_False.
Qed.

Lemma wf_line_typed cf k j s i : good_config cf k j -> wf cf s -> Forall (line_typed i) (set_of i s).
Proof.
  intros G W. pose proof (sw_lines _ _ _ _ (cw_sets _ _ _ _ W i)) as Hl. pose proof (gc_k _ _ _ G). pose proof (gc_j _ _ _ G).
  eapply list.Forall_impl; [exact Hl|]. intros l (Ha & Hi & Ht & _). split; [|split; [done|]].
  - rewrite <- Hi, (get_index_block cf k j G). pose proof (Z.mod_pos_bound (block k (l_addr l)) (2 ^ j) ltac:(lia)).
    assert (2 ^ j <= 2 ^ 30) by (apply Z.pow_le_mono_r; lia). lia.
  - rewrite Ht. unfold get_tag, is_i64 in *. rewrite (gc_toff _ _ _ G), Z.shiftr_div_pow2 by lia.
    assert (1 <= 2 ^ (j + k)) by (apply (Z.pow_le_mono_r 2 0); lia).
    split; [apply Z.div_le_lower_bound; nia|apply Z.div_lt_upper_bound; nia].
Qed.

(** Every element of the miss list stays in it or is accepted, in the state the
    memory system has when its turn comes. *)
Definition accepted_from `{M : IBHMemory} (clk : Z) (l : list (Z * Request)) (m : bh_state) (x : Z * Request) : Prop :=
  exists l1 l2 kept m1 m2, l = (l1 ++ x :: l2)%list /\ miss_loop clk l1 m = Ok (kept, m1) /\
    x.1 <= clk /\ bh_send x.2 m1 = Ok (true, m2).

Lemma miss_loop_kept `{M : IBHMemory} clk l : forall m kept m', miss_loop clk l m = Ok (kept, m') ->
  forall x, x ∈ l -> x ∈ kept \/ accepted_from clk l m x.
Proof.
  induction l as [|[due req] l IH]; cbn; intros m kept m' H x Hx; [by apply not_elem_of_nil in Hx|].
  destruct (Z.leb_spec due clk) as [Hd|Hd].
  - apply bind_Ok in H as ([ok m1] & H1 & H). apply bind_Ok in H as ([kept1 m2] & H2 & H). injection H as <- <-.
    apply elem_of_cons in Hx as [->|Hx].
    { destruct ok; [right|left; by left]. by exists [], l, [], m, m1. }
    destruct (IH _ _ _ H2 _ Hx) as [?|(l1 & l2 & kp & ma & mb & -> & Hl & ?)]; [left; destruct ok; [done|by right]|right].
    exists ((due, req) :: l1), l2, (if ok then kp else (due, req) :: kp), ma, mb. split; [done|]. split; [|done].
    cbn. rewrite (proj2 (Z.leb_le _ _) Hd), H1, bind_Ok_l, Hl. done.
  - apply bind_Ok in H as ([kept1 m1] & H1 & H). injection H as <- <-.
    apply elem_of_cons in Hx as [->|Hx]; [left; by left|].
    destruct (IH _ _ _ H1 _ Hx) as [?|(l1 & l2 & kp & ma & mb & -> & Hl & ?)]; [left; by right|right].
    exists ((due, req) :: l1), l2, ((due, req) :: kp), ma, mb. split; [done|]. split; [|done].
    cbn. rewrite (proj2 (Z.leb_gt _ _) Hd), Hl. done.
Qed.

Lemma miss_loop_total `{M : IBHMemory} clk l : (forall req m, is_Ok (bh_send req m)) ->
  forall m, exists kept m', miss_loop clk l m = Ok (kept, m').
Proof.
  intros Hm. induction l as [|[due req] l IH]; cbn; intros m; [by eexists _, _|]. destruct (due <=? clk).
  - destruct (Hm req m) as [[ok m1] ->]. rewrite bind_Ok_l. destruct (IH m1) as (kept & m2 & ->). by eexists _, _.
  - destruct (IH m) as (kept & m2 & ->). by eexists _, _.
Qed.

Lemma hit_loop_total cf cores {X} (cb : Request -> t * X -> res (t * X)) clk l :
  (forall req s x, req ∈ l.*2 -> llc_wf cf cores s -> exists s' x', cb req (s, x) = Ok (s', x') /\ llc_wf cf cores s') ->
  forall s x, llc_wf cf cores s -> exists kept s' x', hit_loop cb clk l (s, x) = Ok (kept, (s', x')) /\ llc_wf cf cores s'.
Proof.
  induction l as [|[due req] l IH]; cbn; intros Hcb s x W; [by eexists _, _, _|].
  assert (forall req s x, req ∈ l.*2 -> llc_wf cf cores s -> exists s' x', cb req (s, x) = Ok (s', x') /\ llc_wf cf cores s')
    as Hcb' by (intros; apply Hcb; [by right|done]).
  destruct (due <=? clk).
  - destruct (Hcb req (set_receive (<[addr req := [req]]> (m_receive_requests s)) s) x) as (s1 & x1 & -> & W1);
      [by left|exact W|]. rewrite bind_Ok_l. by apply IH.
  - destruct (IH Hcb' s x W) as (kept & s1 & x1 & -> & W1). by eexists _, _, _.
Qed.

Lemma tick_total cf cores `{M : IBHMemory} {X} (cb : Request -> t * X -> res (t * X)) s x m :
  (forall req m, is_Ok (bh_send req m)) ->
  (forall req s1 x1, req ∈ (m_hit_list s).*2 -> llc_wf cf cores s1 ->
     exists s2 x2, cb req (s1, x1) = Ok (s2, x2) /\ llc_wf cf cores s2) ->
  llc_wf cf cores s -> exists s' x' m', tick cb s x m = Ok (s', x', m') /\ llc_wf cf cores s'.
Proof.
  intros Hm Hcb W. unfold tick. destruct (miss_loop_total (m_clk s + 1) (m_miss_list s) Hm m) as (kept & m1 & ->).
  rewrite bind_Ok_l.
  destruct (hit_loop_total cf cores cb (m_clk s + 1) (m_hit_list s) Hcb (set_lists (m_clk s + 1) kept (m_hit_list s) s) x)
    as (hit & s1 & x1 & -> & W1); [exact W|]. rewrite bind_Ok_l. by eexists _, _, _.
Qed.

(** The callbacks of the hits keep what is stored if each of them does. *)
Lemma hit_loop_stored cf {X} (cb : Request -> t * X -> res (t * X)) clk a l :
  (forall req s x s' x', cb req (s, x) = Ok (s', x') -> stored cf s a -> stored cf s' a) ->
  forall s x kept s' x', hit_loop cb clk l (s, x) = Ok (kept, (s', x')) -> stored cf s a -> stored cf s' a.
Proof.
  intros Hcb. induction l as [|[due req] l IH]; cbn; intros s x kept s' x' H Hs; [by injection H as _ <- _|].
  destruct (due <=? clk).
  - apply bind_Ok in H as ([s1 x1] & H1 & H). eapply IH; [exact H|]. eapply Hcb; [exact H1|exact Hs].
  - apply bind_Ok in H as ([kept1 [s1 x1]] & H1 & H). injection H as _ <- _. by eapply IH.
Qed.

Lemma tick_stored cf `{M : IBHMemory} {X} (cb : Request -> t * X -> res (t * X)) s x m s' x' m' a :
  (forall req s x s' x', cb req (s, x) = Ok (s', x') -> stored cf s a -> stored cf s' a) ->
  tick cb s x m = Ok (s', x', m') -> stored cf s a ->
  stored cf s' a \/ exists due r, accepted_from (m_clk s + 1) (m_miss_list s) m (due, r) /\
    type_id r = ReqType.Write /\ align cf (addr r) = align cf a.
Proof.
  intros Hcb H Hs. unfold tick in H. apply bind_Ok in H as ([miss m1] & H1 & H).
  apply bind_Ok in H as ([hit [s1 x1]] & H2 & H). injection H as <- _ _.
  assert (stored cf (set_lists (m_clk s + 1) miss (m_hit_list s) s) a -> stored cf (set_lists (m_clk s1) (m_miss_list s1) hit s1) a)
    as Hgo by (intros H3; exact (hit_loop_stored cf cb _ a _ Hcb _ _ _ _ _ H2 H3)).
  destruct Hs as [Hd|(due & r & Hin & Ht & Ha)]; [left; apply Hgo; by left|].
  destruct (miss_loop_kept _ _ _ _ _ H1 _ Hin) as [Hk|Hacc]; [left; apply Hgo; right; by exists due, r|right].
  by exists due, r.
Qed.

(** ** The properties *)


Definition demo_llc : Config := mkConfig 47 512 64 2 4 4 3 6 8 2.

Lemma demo_llc_good : good_config demo_llc 6 2.
Proof. by split; cbn; lia. Qed.

Definition demo_load (a : Z) : Request := Request_addr_type_source_callback a ReqType.Read 1 CbFrontEnd.
Definition demo_store (a : Z) : Request := Request_addr_type_source_callback a ReqType.Write 1 CbFrontEnd.

Lemma demo_req_wf a ty : is_i64 a -> req_wf 2 (Request_addr_type_source_callback a ty 1 CbFrontEnd).
Proof. by split; cbn. Qed.


(** Property C18.  Replacement refines a recency stack: when every request is
    completed before the next one is sent, a set holds the
    [m_associativity] most recently used distinct tags of the requests that
    map to it, in the order of their last use. *)
Theorem llc_lru_refinement cf k j cores reqs : good_config cf k j -> 1 <= m_num_mshrs cf -> Forall (req_wf cores) reqs ->
  exists s, accesses cf reqs (new cores) = Ok s /\
    forall i, reverse (tags i s) = take (Z.to_nat (m_associativity cf)) (recency (history cf i reqs)).
Proof.
  intros G Hn Hall. assert (quiet cf cores (new cores)) as Q.
  { split; [by apply (llc_new_wf cf k j)|]. split; [done|]. apply Forall_replicate. done. }
  destruct (accesses_spec cf k j G cores reqs (new cores) Q Hall Hn) as (s & Hs & _ & Ht). exists s. split; [done|].
  intros i. rewrite Ht. unfold recency. rewrite <- stack_history by constructor.
  f_equal. unfold tags, set_of. cbn. rewrite lookup_empty. by rewrite take_nil.
Qed.

(** Three blocks of set 0 in a two-way cache: the least recently used leaves. *)
Lemma llc_lru_refinement_witness :
  exists s, accesses demo_llc [demo_load 0; demo_load 256; demo_load 0; demo_store 512] (new 2) = Ok s /\
    reverse (tags 0 s) = [2; 0].
Proof.
  destruct (llc_lru_refinement demo_llc 6 2 2 [demo_load 0; demo_load 256; demo_load 0; demo_store 512]
              demo_llc_good) as (s & Hs & Ht).
  - cbn. lia.
  - repeat constructor; cbn; lia.
  - exists s. split; [exact Hs|]. rewrite Ht. vm_compute. reflexivity.
Defined.

(** Property C19.  Stored data is not lost, for a geometry whose line size and
    number of sets are powers of two ([good_config]).  Say that a block is stored
    if it is in a dirty line or its write back is queued: an accepted store makes
    its block stored, and a stored block stays stored whatever request, reply or
    flush comes; a [tick] whose callbacks keep it stored (as [receive] does) keeps
    it stored, unless the memory system accepts its queued write back in that
    tick. *)
Theorem llc_store_not_lost cf k j cores s : good_config cf k j -> llc_wf cf cores s ->
  (forall req ok req' s', req_wf cores req -> send cf req s = Ok (ok, req', s') ->
     (forall a, is_i64 a -> stored cf s a -> stored cf s' a) /\
     (ok = true -> type_id req = ReqType.Write -> stored cf s' (addr req))) /\
  (forall req s' a, receive cf req s = Ok s' -> stored cf s a -> stored cf s' a) /\
  (forall b a, is_i64 a -> stored cf s a -> stored cf (clflush cf b s) a) /\
  (forall (M : IBHMemory) X (cb : Request -> t * X -> res (t * X)) x m s' x' m' a,
     (forall req s1 x1 s2 x2, cb req (s1, x1) = Ok (s2, x2) -> stored cf s1 a -> stored cf s2 a) ->
     tick cb s x m = Ok (s', x', m') -> stored cf s a ->
     stored cf s' a \/ exists due r, accepted_from (m_clk s + 1) (m_miss_list s) m (due, r) /\
       type_id r = ReqType.Write /\ align cf (addr r) = align cf a).
Proof.
  intros G W. split; [|split; [|split]].
  - intros req ok req' s' Hreq H. split.
    + intros a Ha. by apply (send_stored cf k j G cores req s ok req' s' a).
    + by apply (send_stored cf k j G cores req s ok req' s' (addr req) W Hreq (proj1 Hreq) H).
  - intros req s' a. apply receive_stored.
  - intros b a. by apply (clflush_stored cf k j G cores).
  - intros M X cb x m s' x' m' a. apply tick_stored.
Qed.

Lemma llc_store_not_lost_witness :
  exists s, send demo_llc (demo_store 4096) (new 2) = Ok (true, demo_load 4096, s) /\ stored demo_llc s 4096.
Proof.
  pose proof (llc_new_wf demo_llc 6 2 demo_llc_good 2) as W. pose proof (demo_req_wf 4096 ReqType.Write ltac:(by split)) as Hr.
  destruct (llc_store_not_lost demo_llc 6 2 2 (new 2) demo_llc_good W) as (Hs & _).
  destruct (send_Ok demo_llc 6 2 demo_llc_good 2 (demo_store 4096) (new 2) W Hr) as (ok & req' & s & H & _).
  assert (match send demo_llc (demo_store 4096) (new 2) with Ok (ok, r, _) => ok && bool_decide (r = demo_load 4096) | _ => false end = true)
    as Hb by (vm_compute; reflexivity).
  rewrite H in Hb. apply andb_true_iff in Hb as [-> Hb%bool_decide_eq_true]. subst req'.
  exists s. split; [exact H|]. destruct (Hs _ _ _ _ Hr H) as [_ Hst]. apply Hst; reflexivity.
Defined.

(** Property C36.  The checkpoint of a well-formed cache whose block size and number of
    sets are powers of two: reading the file that [serialize] writes, in whatever order
    the sets are visited, into a new cache succeeds and restores the address, the tag
    and the dirty bit of every line of every set in recency order; all lines are ready
    then, also those that were in flight. *)
Theorem llc_checkpoint_roundtrip `{O : IterOrder} cf k j cores s : good_config cf k j -> llc_wf cf cores s ->
  exists s', deserialize (serialize s) (new cores) = Ok s' /\ all_ready s' /\ forall i, data i s' = data i s.
Proof.
  intros G [W _]. unfold deserialize, serialize. cbn [tl].
  assert (list_to_map (iter_order (m_cache_sets s)) = m_cache_sets s) as Hm.
  { transitivity (list_to_map (M := gmap Z (list Line)) (map_to_list (m_cache_sets s))); [|apply list_to_map_to_list].
    apply list_to_map_proper; [|apply iter_order_perm]. rewrite iter_order_perm. apply NoDup_fst_map_to_list. }
  destruct (load_sets (iter_order (m_cache_sets s)) (new cores)) as (s' & Hs & Hr & Hd).
  - rewrite iter_order_perm. apply NoDup_fst_map_to_list.
  - apply list.Forall_forall. intros [i set] Hin%iter_order_elem. cbn.
    pose proof (wf_line_typed cf k j s i G W) as Ht. unfold set_of in Ht. by rewrite Hin in Ht.
  - intros i l. unfold set_of. cbn. rewrite lookup_empty. intros []%not_elem_of_nil.
  - intros i _. unfold data, set_of. cbn. by rewrite lookup_empty.
  - exists s'. split; [exact Hs|]. split; [done|]. intros i. rewrite Hd, Hm. unfold data, set_of. cbn.
    rewrite lookup_empty. by destruct (m_cache_sets s !! i).
Qed.

Lemma llc_checkpoint_roundtrip_witness :
  exists s s', accesses demo_llc [demo_load 64; demo_store (-256)] (new 2) = Ok s /\
    deserialize (serialize s) (new 2) = Ok s' /\ data 0 s' = [(-256, -1, true)].
Proof.
  assert (quiet demo_llc 2 (new 2)) as Q.
  { split; [apply (llc_new_wf demo_llc 6 2 demo_llc_good)|]. split; [done|]. by repeat constructor. }
  destruct (accesses_spec demo_llc 6 2 demo_llc_good 2 [demo_load 64; demo_store (-256)] (new 2) Q) as (s & Hs & (W & _) & _).
  - repeat constructor; cbn; lia.
  - cbn. lia.
  - destruct (llc_checkpoint_roundtrip demo_llc 6 2 2 s demo_llc_good W) as (s' & H & _ & Hd).
    exists s, s'. split; [exact Hs|]. split; [exact H|]. rewrite Hd.
    assert (match accesses demo_llc [demo_load 64; demo_store (-256)] (new 2) with
            | Ok s => bool_decide (data 0 s = [(-256, -1, true)]) | _ => false end = true) as Hb by (vm_compute; reflexivity).
    rewrite Hs in Hb. by apply bool_decide_eq_true in Hb.
Defined.
