(* ===== verification/BhO3.v ===== *)
(** * The BH processor frontend: [BHO3Core] and [BHO3]

    Models [frontend/impl/processor/bhO3/bhcore.h], [bhcore.cpp] and [bhO3.cpp]:
    trace-driven cores with an instruction window, in front of the last-level
    cache of [BhLlc].  The cores that do not block the end of the simulation
    are attackers: they use physical addresses and flush each line they
    receive. *)
From Stdlib Require Import String.
From S2P Require Import Prelude Utils Request Translation SimpleO3 SniperTrace BhLlc.
Local Open Scope string_scope.
Local Open Scope Z_scope.

Definition CLK_MAX : Z := 2 ^ 63 - 1.

Module BHO3Core.

(** ** The trace: as in [SimpleO3], but a malformed bubble count is an error *)
Definition parse_inst (line : string) : res Inst :=
  let tokens := tokenize line " " in
  let num_tokens := Z.of_nat (List.length tokens) in
  if negb (num_tokens =? 2) && negb (num_tokens =? 3) then Err (Exc "Trace format invalid!") else
  t0 ← vget tokens 0;
  bubble_count ← stoi t0;
  t1 ← vget tokens 1;
  load ← stoll t1;
  if num_tokens =? 2 then Ok (mkInst bubble_count load (-1))
  else
    t2 ← vget tokens 2;
    store ← stoll t2;
    Ok (mkInst bubble_count load store).

Fixpoint parse_lines (lines : list string) : res (list Inst) :=
  match lines with
  | [] => Ok []
  | l :: lines => i ← parse_inst l; insts ← parse_lines lines; Ok (i :: insts)
  end.

Definition load_trace (file : option (list string)) : res (list Inst) :=
  match file with
  | None => Err (Exc "Trace does not exist!")
  | Some lines => parse_lines lines
  end.

Definition get_next_inst (t : Trace) : res (Inst * Trace) :=
  inst ← vget (m_trace t) (m_curr_trace_idx t);
  Ok (inst, mkTrace (m_trace t) ((m_curr_trace_idx t + 1) mod Z.of_nat (List.length (m_trace t)))).

(** ** The instruction window, which also records when a request left the core *)
Record Window : Type := mkWindow {
  m_ipc : Z;
  m_depth : Z;
  m_load : Z;
  m_head_idx : Z;
  m_tail_idx : Z;
  m_ready_list : list bool;
  m_addr_list : list Z;
  m_depart_list : list Z;
}.

Definition new_window (ipc depth : Z) : Window :=
  let n := Z.to_nat depth in
  mkWindow ipc depth 0 0 0 (replicate n false) (replicate n (-1)) (replicate n (-1)).

Definition is_full (w : Window) : bool := m_load w =? m_depth w.

Definition insert (ready : bool) (addr clk : Z) (w : Window) : res Window :=
  rl ← vat_set (m_ready_list w) (m_head_idx w) ready;
  al ← vat_set (m_addr_list w) (m_head_idx w) addr;
  dl ← vat_set (m_depart_list w) (m_head_idx w) clk;
  if m_depth w =? 0 then Err Undef else
  Ok (mkWindow (m_ipc w) (m_depth w) (m_load w + 1) (Z.rem (m_head_idx w + 1) (m_depth w)) (m_tail_idx w) rl al dl).

(** [n] instructions may still be retired. *)
Fixpoint retire_loop (n : nat) (num_retired : Z) (w : Window) : res (Z * Window) :=
  match n with
  | O => Ok (num_retired, w)
  | S n =>
      if 0 <? m_load w then
        r ← vat (m_ready_list w) (m_tail_idx w);
        if r : bool then
          if m_depth w =? 0 then Err Undef else
          retire_loop n (num_retired + 1)
            (mkWindow (m_ipc w) (m_depth w) (m_load w - 1) (m_head_idx w)
               (Z.rem (m_tail_idx w + 1) (m_depth w)) (m_ready_list w) (m_addr_list w) (m_depart_list w))
        else Ok (num_retired, w)
      else Ok (num_retired, w)
  end.

Definition retire (w : Window) : res (Z * Window) :=
  if m_load w =? 0 then Ok (0, w) else retire_loop (Z.to_nat (m_ipc w)) 0 w.

(** The earliest cycle at which a request of this address left the core. *)
Fixpoint set_ready_loop (n : nat) (index addr min : Z) (w : Window) : res (Z * Window) :=
  match n with
  | O => Ok (min, w)
  | S n =>
      a ← vget (m_addr_list w) index;
      '(min, rl) ← (if a =? addr then
                      rl ← vset (m_ready_list w) index true;
                      d ← vget (m_depart_list w) index;
                      Ok (if d <? min then d else min, rl)
                    else Ok (min, m_ready_list w));
      let w := mkWindow (m_ipc w) (m_depth w) (m_load w) (m_head_idx w) (m_tail_idx w) rl (m_addr_list w)
                 (m_depart_list w) in
      let index := index + 1 in
      set_ready_loop n (if index =? m_depth w then 0 else index) addr min w
  end.

Definition set_ready (addr : Z) (w : Window) : res (Z * Window) :=
  if m_load w =? 0 then Ok (CLK_MAX, w)
  else set_ready_loop (Z.to_nat (m_load w)) (m_tail_idx w) addr CLK_MAX w.

(** ** The core *)
Record Stats : Type := mkStats {
  s_insts_retired : Z;
  s_cycles_recorded : Z;
  s_insts_recorded : Z;
  s_mem_access_cycles : Z;
  s_mem_requests_issued : Z;
}.

(** Members that the constructor fixes; [m_translated]: [m_translation] is not
    the null pointer. *)
Record Params : Type := mkParams {
  m_id : Z;
  m_num_expected_insts : Z;
  m_num_max_cycles : Z;
  m_lat_hist_sens : Z;
  m_dump_path : string;
  m_is_attacker : bool;
  m_translated : bool;
}.

Record Core : Type := mkCore {
  params : Params;
  c_clk : Z;
  c_trace : Trace;
  m_window : Window;
  m_num_bubbles : Z;
  m_load_addr : Z;
  m_writeback_addr : Z;
  m_last_mem_cycle : Z;
  m_lat_histogram : gmap Z Z;
  reached_expected_num_insts : bool;
  stats : Stats;
}.

Definition set_window (w : Window) (c : Core) : Core :=
  mkCore (params c) (c_clk c) (c_trace c) w (m_num_bubbles c) (m_load_addr c) (m_writeback_addr c)
    (m_last_mem_cycle c) (m_lat_histogram c) (reached_expected_num_insts c) (stats c).
Definition set_bubbles (n : Z) (c : Core) : Core :=
  mkCore (params c) (c_clk c) (c_trace c) (m_window c) n (m_load_addr c) (m_writeback_addr c)
    (m_last_mem_cycle c) (m_lat_histogram c) (reached_expected_num_insts c) (stats c).
Definition clear_load (c : Core) : Core :=
  mkCore (params c) (c_clk c) (c_trace c) (m_window c) (m_num_bubbles c) (-1) (m_writeback_addr c)
    (m_last_mem_cycle c) (m_lat_histogram c) (reached_expected_num_insts c) (stats c).
Definition count_issued (c : Core) : Core :=
  let st := stats c in
  mkCore (params c) (c_clk c) (c_trace c) (m_window c) (m_num_bubbles c) (m_load_addr c) (m_writeback_addr c)
    (m_last_mem_cycle c) (m_lat_histogram c) (reached_expected_num_insts c)
    (mkStats (s_insts_retired st) (s_cycles_recorded st) (s_insts_recorded st) (s_mem_access_cycles st)
       (u64 (s_mem_requests_issued st + 1))).

Definition fetch (c : Core) : res Core :=
  '(inst, tr) ← get_next_inst (c_trace c);
  Ok (mkCore (params c) (c_clk c) tr (m_window c) (bubble_count inst) (load_addr inst) (store_addr inst)
        (m_last_mem_cycle c) (m_lat_histogram c) (reached_expected_num_insts c) (stats c)).

(** The end of the constructor: the test is on the member, which is still
    empty, and not on the argument. *)
Definition latency_path (id : Z) (dump_path : string) : string :=
  let m_dump_path := "" in
  if String.eqb m_dump_path "" then m_dump_path else dump_path ++ ".core" ++ print_d id.

Definition new_core (id ipc depth num_expected_insts num_max_cycles : Z) (trace : list Inst) (translated : bool)
    (lat_hist_sens : Z) (dump_path : string) (is_attacker : bool) : res Core :=
  fetch (mkCore (mkParams id num_expected_insts num_max_cycles lat_hist_sens (latency_path id dump_path)
                   is_attacker translated)
           0 (mkTrace trace 0) (new_window ipc depth) 0 (-1) (-1) 0 ∅ false (mkStats 0 0 0 0 0)).

(** [dump_latency_histogram]: the file it writes, if it writes one. *)
Definition dump_latency_histogram `{IterOrder} (c : Core) : option (string * list string) :=
  if String.eqb (m_dump_path (params c)) "" then None
  else Some (m_dump_path (params c),
             (fun e : Z * Z => print_d e.1 ++ ", " ++ print_lu e.2) <$> iter_order (m_lat_histogram c)).

(** ** [receive]: the core and the cache, whose line an attacker flushes *)
Definition record_latency (depart : Z) (c : Core) : res Core :=
  let req_duration := i32 (c_clk c - depart) in
  let sens := m_lat_hist_sens (params c) in
  if sens =? 0 then Err Undef else
  let lat_bucket := req_duration - Z.rem req_duration sens in
  let count := default 0 (m_lat_histogram c !! lat_bucket) in
  let st := stats c in
  Ok (mkCore (params c) (c_clk c) (c_trace c) (m_window c) (m_num_bubbles c) (m_load_addr c) (m_writeback_addr c)
        depart (<[lat_bucket := u64 (count + 1)]> (m_lat_histogram c)) (reached_expected_num_insts c)
        (mkStats (s_insts_retired st) (s_cycles_recorded st) (s_insts_recorded st)
           (s_mem_access_cycles st + req_duration) (s_mem_requests_issued st))).

Definition receive (cf : BHO3LLC.Config) (req : Request) (c : Core) (llc : BHO3LLC.t) : res (Core * BHO3LLC.t) :=
  '(depart, w) ← set_ready (addr req) (m_window c);
  let c := set_window w c in
  c ← (if negb (reached_expected_num_insts c) && negb (depart =? CLK_MAX) then record_latency depart c else Ok c);
  Ok (c, if m_is_attacker (params c) then BHO3LLC.clflush cf (addr req) llc else llc).

(** ** [tick] *)
Definition retire_stage (c : Core) : res Core :=
  '(n, w) ← retire (m_window c);
  let clk := c_clk c + 1 in
  let st := stats c in
  let retired := u64 (s_insts_retired st + n) in
  let running := negb (reached_expected_num_insts c) in
  let reached := (m_num_expected_insts (params c) <=? retired) || (m_num_max_cycles (params c) <=? u64 clk) in
  Ok (mkCore (params c) clk (c_trace c) w (m_num_bubbles c) (m_load_addr c) (m_writeback_addr c)
        (m_last_mem_cycle c) (m_lat_histogram c) (reached_expected_num_insts c || reached)
        (mkStats retired (if running then u64 clk else s_cycles_recorded st)
           (if running then retired else s_insts_recorded st)
           (s_mem_access_cycles st) (s_mem_requests_issued st))).

(** As in [SimpleO3]: [Some] when all bubbles are issued. *)
Fixpoint issue_bubbles (bubbles : nat) (num_inserted : Z) (c : Core) : res (option Z * Core) :=
  match bubbles with
  | O => Ok (Some num_inserted, c)
  | S bubbles =>
      if num_inserted =? m_ipc (m_window c) then Ok (None, c)
      else if is_full (m_window c) then Ok (None, c)
      else
        w ← insert true (-1) (-1) (m_window c);
        issue_bubbles bubbles (num_inserted + 1) (set_bubbles (m_num_bubbles c - 1) (set_window w c))
  end.

Section Tick.
Context `{T : ITranslation} (cf : BHO3LLC.Config).

Definition translate (c : Core) (req : Request) (t : tr_state) : res (bool * Request * tr_state) :=
  if m_translated (params c) then tr_translate req t else Ok (true, req, t).

(** The flag says whether the cycle goes on. *)
Definition load_stage (num_inserted : Z) (c : Core) (t : tr_state) (llc : BHO3LLC.t)
    : res (bool * Core * tr_state * BHO3LLC.t) :=
  if m_load_addr c =? -1 then Ok (true, c, t, llc)
  else if num_inserted =? m_ipc (m_window c) then Ok (false, c, t, llc)
  else if is_full (m_window c) then Ok (false, c, t, llc)
  else
    let req := Request_addr_type_source_callback (m_load_addr c) ReqType.Read (m_id (params c)) CbFrontEnd in
    '(ok, req, t) ← translate c req t;
    if negb ok then Ok (false, c, t, llc) else
    '(sent, req, llc) ← BHO3LLC.send cf req llc;
    if sent : bool then
      w ← insert false (addr req) (c_clk c) (m_window c);
      let c := clear_load (set_window w (count_issued c)) in
      Ok (m_writeback_addr c =? -1, c, t, llc)
    else Ok (false, c, t, llc).

Definition writeback_stage (c : Core) (t : tr_state) (llc : BHO3LLC.t)
    : res (bool * Core * tr_state * BHO3LLC.t) :=
  if m_writeback_addr c =? -1 then Ok (true, c, t, llc)
  else
    let req := Request_addr_type_source_callback (m_writeback_addr c) ReqType.Write (m_id (params c)) CbFrontEnd in
    '(ok, req, t) ← translate c req t;
    if negb ok then Ok (false, c, t, llc) else
    '(sent, _, llc) ← BHO3LLC.send cf req llc;
    if sent : bool then Ok (true, count_issued c, t, llc) else Ok (false, c, t, llc).

Definition tick (c : Core) (t : tr_state) (llc : BHO3LLC.t) : res (Core * tr_state * BHO3LLC.t) :=
  c ← retire_stage c;
  '(inserted, c) ← issue_bubbles (Z.to_nat (m_num_bubbles c)) 0 c;
  match inserted with
  | None => Ok (c, t, llc)
  | Some n =>
      '(go, c, t, llc) ← load_stage n c t llc;
      if negb go then Ok (c, t, llc) else
      '(go, c, t, llc) ← writeback_stage c t llc;
      if negb go then Ok (c, t, llc) else
      c ← fetch c;
      Ok (c, t, llc)
  end.
End Tick.
End BHO3Core.

(** ** The frontend *)
Module BHO3.
Import BHO3Core.

Record t : Type := mk {
  f_clk : Z;
  m_llc : BHO3LLC.t;
  m_cores : list Core;
  m_num_blocking_cores : Z;
}.

(** The parameters of the cores and of the cache that [init] reads. *)
Record Options : Type := mkOptions {
  o_ipc : Z;
  o_depth : Z;
  o_lat_hist_sensitivity : Z;
  o_lat_dump_path : string;
  o_llc_latency : Z;
  o_llc_linesize : Z;
  o_llc_associativity : Z;
  o_llc_capacity_per_core : Z;
  o_llc_num_mshr_per_core : Z;
  o_num_expected_insts : Z;
  o_num_max_cycles : Z;
}.

Definition default_options (num_expected_insts : Z) : Options :=
  mkOptions 4 128 5 "" 47 64 8 (2 * 2 ^ 20) 16 num_expected_insts (2 ^ 64 - 1).

(** A product of [int]s: overflow is undefined. *)
Definition mul_int (x y : Z) : res Z :=
  if (- 2 ^ 31 <=? x * y) && (x * y <? 2 ^ 31) then Ok (x * y) else Err Undef.

Definition llc_config (o : Options) (num_cores : Z) : res BHO3LLC.Config :=
  size ← mul_int (o_llc_capacity_per_core o) num_cores;
  mshrs ← mul_int (o_llc_num_mshr_per_core o) num_cores;
  BHO3LLC.new_config (o_llc_latency o) size (o_llc_linesize o) (o_llc_associativity o) mshrs num_cores.

(** The blocking cores first, then the attackers, with consecutive identifiers. *)
Fixpoint new_cores (o : Options) (id : Z) (is_attacker : bool) (traces : list (option (list string)))
    : res (list Core) :=
  match traces with
  | [] => Ok []
  | file :: traces =>
      tr ← load_trace file;
      c ← new_core id (o_ipc o) (o_depth o) (o_num_expected_insts o) (o_num_max_cycles o) tr (negb is_attacker)
            (o_lat_hist_sensitivity o) (o_lat_dump_path o) is_attacker;
      cs ← new_cores o (id + 1) is_attacker traces;
      Ok (c :: cs)
  end.

(** [checkpoint]: the file to restore the cache from, [Some None] when it is
    missing. *)
Definition init (o : Options) (traces no_wait_traces : list (option (list string)))
    (checkpoint : option (option (list string))) : res (BHO3LLC.Config * t) :=
  let blocking := Z.of_nat (List.length traces) in
  let num_cores := (List.length traces + List.length no_wait_traces)%nat in
  cf ← llc_config o (Z.of_nat num_cores);
  llc ← match checkpoint with
        | None => Ok (BHO3LLC.new num_cores)
        | Some None => Err (Exc "LLC deserialization file not found.")
        | Some (Some file) => BHO3LLC.deserialize file (BHO3LLC.new num_cores)
        end;
  cs ← new_cores o 0 false traces;
  attackers ← new_cores o blocking true no_wait_traces;
  Ok (cf, mk 0 llc (cs ++ attackers)%list blocking).

Section Frontend.
Context (cf : BHO3LLC.Config).

(** Every request that waits for the address is delivered to its core. *)
Fixpoint deliver (reply : Request) (waiting : list Request) (sx : BHO3LLC.t * list Core)
    : res (BHO3LLC.t * list Core) :=
  match waiting with
  | [] => Ok sx
  | r :: waiting =>
      let r := set_depart (depart reply) (set_arrive (arrive reply) r) in
      c ← vget sx.2 (source_id r);
      '(c, llc) ← BHO3Core.receive cf r c sx.1;
      cs ← vset sx.2 (source_id r) c;
      deliver reply waiting (llc, cs)
  end.

Definition receive (req : Request) (sx : BHO3LLC.t * list Core) : res (BHO3LLC.t * list Core) :=
  llc ← BHO3LLC.receive cf req sx.1;
  let waiting := default [] (BHO3LLC.m_receive_requests llc !! addr req) in
  '(llc, cs) ← deliver req waiting (llc, sx.2);
  Ok (BHO3LLC.set_receive (<[addr req := []]> (BHO3LLC.m_receive_requests llc)) llc, cs).

Fixpoint tick_cores `{T : ITranslation} (cs : list Core) (tr : tr_state) (llc : BHO3LLC.t)
    : res (list Core * tr_state * BHO3LLC.t) :=
  match cs with
  | [] => Ok ([], tr, llc)
  | c :: cs =>
      '(c, tr, llc) ← BHO3Core.tick cf c tr llc;
      '(cs, tr, llc) ← tick_cores cs tr llc;
      Ok (c :: cs, tr, llc)
  end.

Definition tick `{T : ITranslation} `{M : IBHMemory} (f : t) (tr : tr_state) (m : bh_state)
    : res (t * tr_state * bh_state) :=
  '(llc, cs, m) ← BHO3LLC.tick receive (m_llc f) (m_cores f) m;
  '(cs, tr, llc) ← tick_cores cs tr llc;
  Ok (mk (f_clk f + 1) llc cs (m_num_blocking_cores f), tr, m).

(** The replies of a memory cycle, in order. *)
Fixpoint receive_all (reqs : list Request) (f : t) : res t :=
  match reqs with
  | [] => Ok f
  | r :: reqs =>
      f ← (if decide (callback r = CbNone) then Ok f
           else '(llc, cs) ← receive r (m_llc f, m_cores f); Ok (mk (f_clk f) llc cs (m_num_blocking_cores f)));
      receive_all reqs f
  end.
End Frontend.

(** Whether the blocking cores are done, and the checkpoint that is then
    written. *)
Definition is_finished `{IterOrder} (llc_serialize : bool) (f : t) : bool * option (list string) :=
  let finished := forallb reached_expected_num_insts (take (Z.to_nat (m_num_blocking_cores f)) (m_cores f)) in
  (finished, if finished && llc_serialize then Some (BHO3LLC.serialize (m_llc f)) else None).

Definition get_num_cores (f : t) : Z := Z.of_nat (List.length (m_cores f)).
End BHO3.
