(* ===== verification/BhO3Facts.v ===== *)
(** * Facts about the BH processor frontend

    The window of [BHO3Core] is the window of [SimpleO3] with a time stamp per
    instruction; a cycle of the frontend has no undefined behaviour and keeps
    the cache well-formed; replies wake the waiting cores, and when they do
    not. *)
From Stdlib Require Import String.
From S2P Require Import Prelude Utils Request Translation SimpleO3 WindowFacts BhLlc BhLlcFacts BhLlcSpec BhO3.
Import BHO3Core.
Local Open Scope Z_scope.

Definition rmap {A B} (f : A -> B) (m : res A) : res B := x ← m; Ok (f x).

(** ** The window *)
Definition erase (w : Window) : InstWindow.t :=
  InstWindow.mk (m_ipc w) (m_depth w) (m_load w) (m_head_idx w) (m_tail_idx w) (m_ready_list w) (m_addr_list w).

Definition stamped (w : Window) : Prop := length (m_depart_list w) = length (m_addr_list w).

Lemma insert_erase ready a clk w : stamped w -> rmap erase (insert ready a clk w) = InstWindow.insert ready a (erase w).
Proof.
  intros Hs. unfold rmap, insert, InstWindow.insert, vat_set, vset. cbn. rewrite Hs.
  repeat (case_bool_decide; cbn); try done; try tauto. by destruct (m_depth w =? 0).
Qed.

Lemma insert_stamped ready a clk w w' : insert ready a clk w = Ok w' -> stamped w -> stamped w'.
Proof.
  unfold insert, vat_set, vset, stamped. intros H Hs. repeat (case_bool_decide; cbn in H; try done).
  destruct (m_depth w =? 0); [done|]. injection H as <-. cbn. by rewrite !length_insert.
Qed.

Lemma retire_loop_erase n : forall k w,
  rmap (fun x => (x.1, erase x.2)) (retire_loop n k w) = InstWindow.retire_loop n k (erase w).
Proof.
  induction n as [|n IH]; intros k w; [done|]. cbn [retire_loop InstWindow.retire_loop]. cbn [erase InstWindow.m_load
    InstWindow.m_ready_list InstWindow.m_tail_idx InstWindow.m_depth].
  destruct (0 <? m_load w); [|done]. destruct (vat _ _) as [[]|]; [|done..]. cbn [mbind res_bind].
  destruct (m_depth w =? 0); [done|]. by rewrite IH.
Qed.

Lemma retire_erase w : rmap (fun x => (x.1, erase x.2)) (retire w) = InstWindow.retire (erase w).
Proof. unfold retire, InstWindow.retire. cbn. destruct (m_load w =? 0); [done|]. apply retire_loop_erase. Qed.

Lemma retire_loop_stamped n : forall k w r, retire_loop n k w = Ok r -> stamped w -> stamped r.2.
Proof.
  induction n as [|n IH]; cbn; intros k w r H Hs; [by injection H as <-|].
  destruct (0 <? m_load w); [|by injection H as <-]. apply bind_Ok in H as ([] & _ & H); [|by injection H as <-].
  destruct (m_depth w =? 0); [done|]. by apply IH in H.
Qed.

Lemma retire_stamped w r : retire w = Ok r -> stamped w -> stamped r.2.
Proof. unfold retire. destruct (m_load w =? 0); [by intros [= <-]|]. apply retire_loop_stamped. Qed.

Lemma vget_length {A B} (l : list A) (l' : list B) i x : length l' = length l -> vget l i = Ok x -> is_Ok (vget l' i).
Proof. intros E H%vget_inside. apply vget_is_Ok. by rewrite E. Qed.

Lemma set_ready_loop_erase n : forall i a m w, stamped w ->
  rmap (fun x => erase x.2) (set_ready_loop n i a m w) = InstWindow.set_ready_loop n i a (erase w).
Proof.
  induction n as [|n IH]; intros i a m w Hs; [done|]. cbn [set_ready_loop InstWindow.set_ready_loop].
  change (InstWindow.m_addr_list (erase w)) with (m_addr_list w).
  destruct (vget (m_addr_list w) i) as [b|] eqn:E; [|done]. cbn [mbind res_bind].
  change (InstWindow.m_ready_list (erase w)) with (m_ready_list w). destruct (b =? a).
  - destruct (vset (m_ready_list w) i true) as [rl|]; [|done]. cbn [mbind res_bind].
    destruct (vget_length _ (m_depart_list w) _ _ Hs E) as [d ->]. cbn [mbind res_bind]. by rewrite IH.
  - cbn [mbind res_bind]. by rewrite IH.
Qed.

Lemma set_ready_erase a w : stamped w -> rmap (fun x => erase x.2) (set_ready a w) = InstWindow.set_ready a (erase w).
Proof.
  intros Hs. unfold set_ready, InstWindow.set_ready. cbn. destruct (m_load w =? 0); [done|]. by apply set_ready_loop_erase.
Qed.

Lemma set_ready_loop_stamped n : forall i a m w r, set_ready_loop n i a m w = Ok r -> stamped w -> stamped r.2.
Proof.
  induction n as [|n IH]; intros i a m w r H Hs; [by injection H as <-|]. cbn [set_ready_loop] in H.
  apply bind_Ok in H as (b & _ & H). apply bind_Ok in H as ([mn rl] & _ & H). by apply IH in H.
Qed.

Lemma set_ready_stamped a w r : set_ready a w = Ok r -> stamped w -> stamped r.2.
Proof. unfold set_ready. destruct (m_load w =? 0); [by intros [= <-]|]. apply set_ready_loop_stamped. Qed.

Lemma rmap_Ok {A B} (f : A -> B) m y : rmap f m = Ok y -> exists x, m = Ok x /\ f x = y.
Proof. unfold rmap. intros (x & -> & [= <-])%bind_Ok. by exists x. Qed.

(** *** The operations on a well-formed window, from those of [SimpleO3] *)
Definition window_wf (w : Window) : Prop := Window.wf (erase w) /\ stamped w.

Lemma new_window_wf ipc depth : 0 < depth -> window_wf (new_window ipc depth).
Proof. intros Hd. split; [by apply (Window.new_wf ipc depth)|]. unfold stamped. cbn. by rewrite !length_replicate. Qed.

Lemma window_insert ready a clk w : window_wf w -> is_full w = false ->
  exists w', insert ready a clk w = Ok w' /\ window_wf w' /\ m_ipc w' = m_ipc w /\
    Window.entries (erase w') = (Window.entries (erase w) ++ [(ready, a)])%list.
Proof.
  intros [Hw Hs] Hf. destruct (Window.insert_spec ready a (erase w) Hw Hf) as (x & Hx & Wx & Hi & _ & _ & He).
  rewrite <- (insert_erase _ _ clk) in Hx by done. apply rmap_Ok in Hx as (w' & Hw' & <-).
  exists w'. split; [done|]. split; [by split; [|eapply insert_stamped]|done].
Qed.

Lemma window_retire w : window_wf w ->
  exists n w', retire w = Ok (Z.of_nat n, w') /\ window_wf w' /\ m_ipc w' = m_ipc w /\
    Window.entries (erase w') = drop n (Window.entries (erase w)).
Proof.
  intros [Hw Hs]. destruct (Window.retire_spec (erase w) Hw) as (x & Hx & Wx & Hi & _ & He).
  rewrite <- retire_erase in Hx. apply rmap_Ok in Hx as ([n w'] & Hw' & [= -> <-]). cbn in *.
  eexists _, w'. split; [exact Hw'|]. split; [|done]. split; [done|]. by apply (retire_stamped w (_, w')) in Hw'.
Qed.

Lemma window_set_ready a w : window_wf w ->
  exists d w', set_ready a w = Ok (d, w') /\ window_wf w' /\ m_ipc w' = m_ipc w /\
    Window.entries (erase w') = Window.mark a <$> Window.entries (erase w).
Proof.
  intros [Hw Hs]. destruct (Window.set_ready_spec a (erase w) Hw) as (x & Hx & Wx & Hi & _ & _ & He).
  rewrite <- set_ready_erase in Hx by done. apply rmap_Ok in Hx as ([d w'] & Hw' & <-). cbn in *.
  exists d, w'. split; [exact Hw'|]. split; [|done]. split; [done|]. by apply (set_ready_stamped a w (d, w')).
Qed.

(** ** The queues of the cache hold requests of cores only *)
Section Queues.
Context (cf : BHO3LLC.Config) (k j : Z) (G : good_config cf k j) (n : nat).
Import BHO3LLC.

Definition src_ok (req : Request) : Prop := 0 <= source_id req < Z.of_nat n.

Definition queues_wf (s : BHO3LLC.t) : Prop :=
  Forall (fun x : Z * Request => src_ok x.2) (m_hit_list s) /\
  forall a l, m_receive_requests s !! a = Some l -> Forall src_ok l.

Definition cache_wf (s : BHO3LLC.t) : Prop := llc_wf cf n s /\ queues_wf s.

Lemma queues_frame s s' : m_hit_list s' = m_hit_list s -> m_receive_requests s' = m_receive_requests s ->
  queues_wf s -> queues_wf s'.
Proof. unfold queues_wf. by intros -> ->. Qed.

Lemma queues_receive s a l : Forall src_ok l -> queues_wf s -> queues_wf (set_receive (<[a := l]> (m_receive_requests s)) s).
Proof.
  intros Hl [Hh Hr]. split; [done|]. cbn. intros b x. rewrite lookup_insert. case_decide; [by intros [= <-]|apply Hr].
Qed.

Lemma waiting_ok s a : queues_wf s -> Forall src_ok (default [] (m_receive_requests s !! a)).
Proof. intros [_ Hr]. destruct (m_receive_requests s !! a) as [l|] eqn:E; [by eapply Hr|constructor]. Qed.

Lemma evict_frame i m l s : m_hit_list (evict_line cf i m l s) = m_hit_list s /\
  m_receive_requests (evict_line cf i m l s) = m_receive_requests s.
Proof. unfold evict_line. by destruct (l_dirty l). Qed.

Lemma make_room_frame i s : m_hit_list (make_room cf i s) = m_hit_list s /\
  m_receive_requests (make_room cf i s) = m_receive_requests s.
Proof. unfold make_room. case_match; [done|]. case_match; [|done]. case_match. apply evict_frame. Qed.

Lemma send_queues req s ok req' s' : llc_wf cf n s -> is_i64 (addr req) -> src_ok req ->
  send cf req s = Ok (ok, req', s') -> queues_wf s -> queues_wf s'.
Proof.
  intros W Ha Hsrc H Q. rewrite send_eq in H. pose proof (accessed_wf cf n req s W) as W1.
  assert (queues_wf (accessed cf req s)) as Q1 by exact Q.
  generalize dependent (accessed cf req s). intros s1 H W1 Q1.
  destruct (check_set_hit cf _ _) as [[m l]|] eqn:Hh.
  { injection H as <- <- <-. destruct Q1 as [Q1 Q2]. split; [|exact Q2]. apply Forall_app. split; [exact Q1|by constructor]. }
  unfold send_miss in H. fold (as_read req) in H.
  assert (src_ok (as_read req)) as Hsrc' by (unfold src_ok; by rewrite as_read_src).
  destruct (check_mshr_hit cf _ _) as [[m e]|] eqn:Hm.
  - apply bind_Ok in H as (s3 & H3 & H). injection H as <- <- <-. unfold send_mshr_hit in H3.
    apply update_line_frame in H3 as [sets ->]. apply (queues_receive (count_miss (type_id req) s1)); [|exact Q1].
    apply Forall_app. split; [by apply waiting_ok|by constructor].
  - apply bind_Ok in H as (b & _ & H). destruct b; [by injection H as <- <- <-|].
    apply bind_Ok in H as ([ok1 s3] & H3 & H). injection H as <- <- <-.
    rewrite (send_new_miss_eq cf k j G n) in H3; [|exact W1|].
    2: { rewrite as_read_addr in *. apply (miss_no_tag cf k j G); try done. apply W1. }
    case_match; [by injection H3 as <- <-|]. case_match; [by injection H3 as <- <-|].
    apply bind_Ok in H3 as (s4 & Hadd & H3). injection H3 as <- <-. apply add_allocated_frame in Hadd as [l ->].
    set (i := get_index cf (addr req)). set (s2 := count_miss (type_id req) s1).
    destruct (make_room_frame i s2) as [E1 E2]. unfold queues_wf. cbn. rewrite E1, E2.
    apply (queues_receive s2 (addr (as_read req)) [as_read req]); [by constructor|exact Q1].
Qed.

Lemma receive_queues req s s' : receive cf req s = Ok s' -> queues_wf s -> queues_wf s'.
Proof.
  unfold receive. destruct (check_mshr_hit _ _ _) as [[m e]|]; [|by intros [= <-]]. intros H Q.
  apply bind_Ok in H as (s1 & H1 & H). apply add_allocated_frame in H as [l ->].
  apply update_line_frame in H1 as [sets ->]. exact Q.
Qed.

Lemma clflush_queues a s : queues_wf s -> queues_wf (clflush cf a s).
Proof.
  intros Q. unfold clflush. change (get_set cf a s) with (get_index cf a, (get_set cf a s).2). cbv iota beta.
  destruct (check_set_hit cf _ a) as [[m l]|]; [|exact Q].
  destruct (evict_frame (get_index cf a) m l (get_set cf a s).2) as [E1 E2]. by eapply queues_frame.
Qed.

Lemma clflush_cache_wf a s : cache_wf s -> cache_wf (clflush cf a s).
Proof. intros [W Q]. split; [by apply clflush_wf|by apply clflush_queues]. Qed.

(** The window of a core and the rest of what its cycle relies on. *)
Record core_wf (i : nat) (c : Core) : Prop := {
  co_window : window_wf (m_window c);
  co_id : m_id (params c) = Z.of_nat i;
  co_sens : m_lat_hist_sens (params c) <> 0;
  co_idx : 0 <= m_curr_trace_idx (c_trace c) < Z.of_nat (length (SimpleO3.m_trace (c_trace c)));
  co_trace : Forall (fun x => is_i64 (load_addr x) /\ is_i64 (store_addr x)) (SimpleO3.m_trace (c_trace c));
  co_load : is_i64 (m_load_addr c);
  co_store : is_i64 (m_writeback_addr c);
}.

Definition cores_wf (cs : list Core) : Prop := length cs = n /\ forall i c, cs !! i = Some c -> core_wf i c.

Lemma core_receive_Ok i req c s : core_wf i c -> cache_wf s ->
  exists c' s', BHO3Core.receive cf req c s = Ok (c', s') /\ core_wf i c' /\ cache_wf s' /\
    Window.entries (erase (m_window c')) = Window.mark (addr req) <$> Window.entries (erase (m_window c)).
Proof.
  intros [Hw Hid Hsens Hidx Htr Hl Hst] W. unfold BHO3Core.receive.
  destruct (window_set_ready (addr req) (m_window c) Hw) as (d & w' & -> & Hw' & _ & He). rewrite bind_Ok_l.
  assert (exists c', (if negb (reached_expected_num_insts (set_window w' c)) && negb (d =? CLK_MAX)
      then record_latency d (set_window w' c) else Ok (set_window w' c)) = Ok c' /\
      params c' = params c /\ m_window c' = w' /\ c_trace c' = c_trace c /\ m_load_addr c' = m_load_addr c /\
      m_writeback_addr c' = m_writeback_addr c) as (c' & -> & Ep & Ew & Et & El & Es).
  { destruct (_ && _); [|by eexists]. unfold record_latency. cbn [params set_window].
    rewrite (proj2 (Z.eqb_neq _ _)) by done. by eexists. }
  rewrite bind_Ok_l. eexists _, _. split; [done|]. rewrite Ew, Ep. split; [|split; [|exact He]].
  - split; congruence.
  - case_match; [by apply clflush_cache_wf|done].
Qed.

Lemma fetch_Ok i c : core_wf i c -> exists c', fetch c = Ok c' /\ core_wf i c'.
Proof.
  intros [Hw Hid Hsens Hidx Htr Hl Hst]. unfold fetch, get_next_inst.
  destruct (vget_is_Ok (SimpleO3.m_trace (c_trace c)) (m_curr_trace_idx (c_trace c)) Hidx) as [x Hx].
  rewrite Hx, !bind_Ok_l. eexists. split; [done|]. apply vget_Ok in Hx as [_ Hx]. rewrite list.Forall_lookup in Htr.
  destruct (Htr _ _ Hx) as [? ?]. split; cbn; try done; [|by rewrite list.Forall_lookup]. apply Z.mod_pos_bound. lia.
Qed.

Lemma retire_stage_Ok i c : core_wf i c -> exists c', retire_stage c = Ok c' /\ core_wf i c'.
Proof.
  intros [Hw Hid Hsens Hidx Htr Hl Hst]. unfold retire_stage.
  destruct (window_retire _ Hw) as (m & w' & -> & Hw' & _). rewrite bind_Ok_l. eexists. split; [done|]. by split.
Qed.

Lemma issue_bubbles_Ok i b : forall m c, core_wf i c -> exists o c', issue_bubbles b m c = Ok (o, c') /\ core_wf i c'.
Proof.
  induction b as [|b IH]; intros m c Hc; [by eexists _, _|]. cbn [issue_bubbles].
  destruct (m =? _); [by eexists _, _|]. destruct (is_full (m_window c)) eqn:Hf; [by eexists _, _|].
  destruct Hc as [Hw Hid Hsens Hidx Htr Hl Hst].
  destruct (window_insert true (-1) (-1) _ Hw Hf) as (w' & -> & Hw' & _). rewrite bind_Ok_l. apply IH. by split.
Qed.
End Queues.

(** ** What the frontend assumes of the translation and of the memory system *)
Class GoodTranslation (T : ITranslation) : Prop := {
  translation_total : forall req tr, is_i64 (addr req) ->
    exists ok req' tr', tr_translate req tr = Ok (ok, req', tr') /\ is_i64 (addr req') /\ source_id req' = source_id req;
}.

Class GoodMemory (M : IBHMemory) : Prop := {
  memory_send_total : forall req m, is_Ok (bh_send req m);
}.

(** The operation returns a known state of which the hypotheses say what is
    asked. *)
Ltac returns :=
  repeat match goal with |- exists _, _ => eexists end;
  repeat match goal with |- _ /\ _ => split; [first [reflexivity | eassumption]|] end;
  first [reflexivity | eassumption].

(** ** A cycle of the frontend *)
Section Cycle.
Context (cf : BHO3LLC.Config) (k j : Z) (G : good_config cf k j) (n : nat).
Context `{T : ITranslation} `{!GoodTranslation T} `{M : IBHMemory} `{!GoodMemory M}.
Import BHO3.

Lemma translate_Ok c req tr : is_i64 (addr req) ->
  exists ok req' tr', translate c req tr = Ok (ok, req', tr') /\ is_i64 (addr req') /\ source_id req' = source_id req.
Proof. intros Ha. unfold translate. destruct (m_translated _); [by apply translation_total|by eexists _, _, _]. Qed.

(** Sending a request of core [i]. *)
Lemma cache_send_Ok req s : cache_wf cf n s -> is_i64 (addr req) -> src_ok n req ->
  exists ok req' s', BHO3LLC.send cf req s = Ok (ok, req', s') /\ cache_wf cf n s'.
Proof.
  intros [W Q] Ha Hs. destruct (send_Ok cf k j G n req s W) as (ok & req' & s' & H & W'); [by split; [|apply Hs]|].
  exists ok, req', s'. split; [done|]. split; [done|]. by apply (send_queues cf k j G n req s ok req' s').
Qed.

Lemma load_stage_Ok i m c tr s : (i < n)%nat -> core_wf i c -> cache_wf cf n s ->
  exists go c' tr' s', load_stage cf m c tr s = Ok (go, c', tr', s') /\ core_wf i c' /\ cache_wf cf n s'.
Proof.
  intros Hi Hc W. pose proof Hc as [Hw Hid Hsens Hidx Htr Hl Hst]. unfold load_stage.
  destruct (m_load_addr c =? -1); [returns|]. destruct (m =? _); [returns|].
  destruct (is_full (m_window c)) eqn:Hf; [returns|].
  set (req := Request_addr_type_source_callback _ _ _ _).
  destruct (translate_Ok c req tr Hl) as (ok & req' & tr' & -> & Ha & Es). rewrite bind_Ok_l.
  destruct ok; cbn [negb]; [|returns].
  destruct (cache_send_Ok req' s W Ha) as (sent & req2 & s' & -> & W').
  { unfold src_ok. rewrite Es. cbn. lia. }
  rewrite bind_Ok_l. destruct sent; [|returns].
  destruct (window_insert false (addr req2) (c_clk c) _ Hw Hf) as (w' & -> & Hw' & _). rewrite bind_Ok_l.
  eexists _, _, _, _. split; [done|]. split; [|done]. by split.
Qed.

Lemma writeback_stage_Ok i c tr s : (i < n)%nat -> core_wf i c -> cache_wf cf n s ->
  exists go c' tr' s', writeback_stage cf c tr s = Ok (go, c', tr', s') /\ core_wf i c' /\ cache_wf cf n s'.
Proof.
  intros Hi Hc W. pose proof Hc as [Hw Hid Hsens Hidx Htr Hl Hst]. unfold writeback_stage.
  destruct (m_writeback_addr c =? -1); [returns|]. set (req := Request_addr_type_source_callback _ _ _ _).
  destruct (translate_Ok c req tr Hst) as (ok & req' & tr' & -> & Ha & Es). rewrite bind_Ok_l.
  destruct ok; cbn [negb]; [|returns].
  destruct (cache_send_Ok req' s W Ha) as (sent & req2 & s' & -> & W').
  { unfold src_ok. rewrite Es. cbn. lia. }
  rewrite bind_Ok_l. destruct sent; eexists _, _, _, _; (split; [done|]); by split.
Qed.

Lemma core_tick_Ok i c tr s : (i < n)%nat -> core_wf i c -> cache_wf cf n s ->
  exists c' tr' s', BHO3Core.tick cf c tr s = Ok (c', tr', s') /\ core_wf i c' /\ cache_wf cf n s'.
Proof.
  intros Hi Hc W. unfold BHO3Core.tick. destruct (retire_stage_Ok i c Hc) as (c1 & -> & Hc1). rewrite bind_Ok_l.
  destruct (issue_bubbles_Ok i (Z.to_nat (m_num_bubbles c1)) 0 c1 Hc1) as (o & c2 & -> & Hc2). rewrite bind_Ok_l.
  destruct o as [m|]; [|returns].
  destruct (load_stage_Ok i m c2 tr s Hi Hc2 W) as (go & c3 & tr3 & s3 & -> & Hc3 & W3). rewrite bind_Ok_l.
  destruct go; cbn [negb]; [|returns].
  destruct (writeback_stage_Ok i c3 tr3 s3 Hi Hc3 W3) as (go & c4 & tr4 & s4 & -> & Hc4 & W4). rewrite bind_Ok_l.
  destruct go; cbn [negb]; [|returns].
  destruct (fetch_Ok i c4 Hc4) as (c5 & -> & Hc5). rewrite bind_Ok_l. returns.
Qed.

Lemma tick_cores_Ok cs : forall o tr s, (o + length cs <= n)%nat ->
  (forall i c, cs !! i = Some c -> core_wf (o + i) c) -> cache_wf cf n s ->
  exists cs' tr' s', tick_cores cf cs tr s = Ok (cs', tr', s') /\ length cs' = length cs /\
    (forall i c, cs' !! i = Some c -> core_wf (o + i) c) /\ cache_wf cf n s'.
Proof.
  induction cs as [|c cs IH]; intros o tr s Hlen Hc W; [returns|]. cbn [tick_cores]. cbn in Hlen.
  assert (core_wf o c) as Hc0 by (rewrite <- (Nat.add_0_r o); by apply Hc).
  destruct (core_tick_Ok o c tr s ltac:(lia) Hc0 W) as (c' & tr1 & s1 & -> & Hc' & W1). rewrite bind_Ok_l.
  destruct (IH (S o) tr1 s1) as (cs' & tr2 & s2 & -> & Hl & Hcs & W2); [lia| |done|].
  { intros i x Hx. replace (S o + i)%nat with (o + S i)%nat by lia. by apply Hc. }
  rewrite bind_Ok_l. eexists _, _, _. split; [done|]. split; [cbn; by rewrite Hl|]. split; [|done].
  intros [|i] x Hx; [injection Hx as <-; by rewrite Nat.add_0_r|]. rewrite <- Nat.add_succ_comm. by apply Hcs.
Qed.

(** Delivering replies. *)
Lemma deliver_Ok reply waiting : forall sx, Forall (src_ok n) waiting -> cache_wf cf n sx.1 -> cores_wf n sx.2 ->
  exists sx', deliver cf reply waiting sx = Ok sx' /\ cache_wf cf n sx'.1 /\ cores_wf n sx'.2.
Proof.
  induction waiting as [|r waiting IH]; intros [s cs] Hall W Hcs; [by eexists|]. cbn [deliver].
  apply list.Forall_cons in Hall as [Hr Hall]. cbn [fst snd] in *. pose proof Hcs as [Hlen Hc].
  set (r' := set_depart _ _). assert (source_id r' = source_id r) as -> by done. unfold src_ok in Hr.
  destruct (vget_is_Ok cs (source_id r)) as [c Hg]; [lia|]. rewrite Hg, bind_Ok_l.
  pose proof Hg as [_ Hg']%vget_Ok. pose proof (Hc _ _ Hg') as Hcc.
  destruct (core_receive_Ok cf n _ r' c s Hcc W) as (c' & s' & -> & Hc' & W' & _). rewrite bind_Ok_l.
  unfold vset. rewrite bool_decide_eq_true_2 by lia. rewrite bind_Ok_l. apply IH; [done|done|].
  split; [by cbn; rewrite length_insert|]. intros i x. cbn. rewrite list_lookup_insert. case_decide as E; [|apply Hc].
  intros [= <-]. destruct E as [<- _]. done.
Qed.

Lemma receive_Ok req sx : source_id req < Z.of_nat n -> cache_wf cf n sx.1 -> cores_wf n sx.2 ->
  exists sx', receive cf req sx = Ok sx' /\ cache_wf cf n sx'.1 /\ cores_wf n sx'.2.
Proof.
  intros Hs [W Q] Hcs. unfold receive.
  destruct (llc_receive_Ok cf k j G n req sx.1 W Hs) as (s1 & H1 & W1). rewrite H1, bind_Ok_l.
  pose proof (receive_queues cf n _ _ _ H1 Q) as Q1.
  destruct (deliver_Ok req (default [] (BHO3LLC.m_receive_requests s1 !! addr req)) (s1, sx.2)) as ([s2 cs2] & H2 & [W2 Q2] & Hc2);
    [by apply waiting_ok|by split|done|].
  rewrite H2, bind_Ok_l. eexists. split; [done|]. split; [|done]. split; [exact W2|].
  by apply queues_receive.
Qed.

Lemma miss_loop_Ok clk l : forall m, exists kept m', BHO3LLC.miss_loop clk l m = Ok (kept, m').
Proof.
  induction l as [|[due req] l IH]; intros m; [by eexists _, _|]. cbn [BHO3LLC.miss_loop]. destruct (due <=? clk).
  - destruct (memory_send_total req m) as [[ok m1] ->]. rewrite bind_Ok_l. destruct (IH m1) as (kept & m2 & ->). by eexists _, _.
  - destruct (IH m) as (kept & m2 & ->). by eexists _, _.
Qed.

Lemma hit_loop_Ok clk l : forall sx, Forall (fun x : Z * Request => src_ok n x.2) l ->
  cache_wf cf n sx.1 -> cores_wf n sx.2 ->
  exists kept sx', BHO3LLC.hit_loop (receive cf) clk l sx = Ok (kept, sx') /\ cache_wf cf n sx'.1 /\ cores_wf n sx'.2 /\
    Forall (fun x : Z * Request => src_ok n x.2) kept.
Proof.
  induction l as [|[due req] l IH]; intros [s cs] Hall [W Q] Hcs; [by eexists _, _|]. cbn [BHO3LLC.hit_loop].
  apply list.Forall_cons in Hall as [Hr Hall]. cbn [fst snd] in *. destruct (due <=? clk).
  - destruct (receive_Ok req (BHO3LLC.set_receive (<[addr req := [req]]> (BHO3LLC.m_receive_requests s)) s, cs)) as (sx1 & -> & W1 & C1);
      [apply Hr|split; [exact W|apply queues_receive; [by constructor|done]]|done|].
    rewrite bind_Ok_l. by apply IH.
  - destruct (IH (s, cs) Hall (conj W Q) Hcs) as (kept & sx' & -> & W' & C' & Hk). rewrite bind_Ok_l.
    eexists _, _. split; [done|]. split; [done|]. split; [done|]. by constructor.
Qed.

(** What a cycle relies on and keeps. *)
Definition front_wf (f : BHO3.t) : Prop := cache_wf cf n (m_llc f) /\ cores_wf n (m_cores f).

Lemma front_tick_Ok f tr m : front_wf f ->
  exists f' tr' m', tick cf f tr m = Ok (f', tr', m') /\ front_wf f'.
Proof.
  intros [[W Q] Hcs]. unfold tick, BHO3LLC.tick. destruct (miss_loop_Ok (BHO3LLC.m_clk (m_llc f) + 1)
    (BHO3LLC.m_miss_list (m_llc f)) m) as (kept & m1 & ->). rewrite bind_Ok_l.
  set (s1 := BHO3LLC.set_lists _ kept _ (m_llc f)).
  destruct (hit_loop_Ok (BHO3LLC.m_clk (m_llc f) + 1) (BHO3LLC.m_hit_list (m_llc f)) (s1, m_cores f))
    as (hit & [s2 cs2] & -> & [W2 Q2] & C2 & Hk); [apply Q|by split|done|]. rewrite !bind_Ok_l. cbn [fst snd] in *.
  set (s3 := BHO3LLC.set_lists _ _ hit s2). assert (cache_wf cf n s3) as W3 by (split; [exact W2|split; [exact Hk|apply Q2]]).
  destruct C2 as [Hl Hc]. destruct (tick_cores_Ok cs2 0 tr s3) as (cs' & tr' & s' & -> & Hl' & Hc' & W');
    [lia|exact Hc|exact W3|]. rewrite bind_Ok_l. eexists _, _, _. split; [done|]. split; [done|]. split; [cbn; congruence|exact Hc'].
Qed.

Lemma receive_all_Ok reqs : forall f, Forall (fun r => source_id r < Z.of_nat n) reqs -> front_wf f ->
  exists f', receive_all cf reqs f = Ok f' /\ front_wf f'.
Proof.
  induction reqs as [|r reqs IH]; intros f Hall Hf; [returns|]. apply list.Forall_cons in Hall as [Hr Hall].
  cbn [receive_all]. case_decide; [by apply IH|]. destruct Hf as [W C].
  destruct (receive_Ok r (m_llc f, m_cores f) Hr W C) as ([s cs] & -> & W' & C'). rewrite !bind_Ok_l. apply IH; [done|by split].
Qed.
End Cycle.

(** ** The initial state *)
Lemma stoll_i64 s x : stoll s = Ok x -> is_i64 x.
Proof.
  unfold stoll, sto_signed. destruct (strto s) as [[neg v]|]; [|done].
  destruct (_ && _) eqn:E; [|done]. intros [= <-]. apply andb_true_iff in E as [E1%Z.leb_le E2%Z.ltb_lt].
  unfold is_i64. change (64 - 1) with 63 in *. lia.
Qed.

Lemma parse_inst_i64 line x : parse_inst line = Ok x -> is_i64 (load_addr x) /\ is_i64 (store_addr x).
Proof.
  unfold parse_inst. intros H. destruct (_ && _); [done|]. res_inv.
  destruct (_ =? 2); res_inv; cbn; split; try (by eapply stoll_i64); by split.
Qed.

Lemma parse_lines_i64 lines : forall l, parse_lines lines = Ok l ->
  Forall (fun x => is_i64 (load_addr x) /\ is_i64 (store_addr x)) l.
Proof.
  induction lines as [|x lines IH]; cbn; intros l H; [by injection H as <-|].
  res_inv. constructor; [by eapply parse_inst_i64|by apply IH].
Qed.

Lemma new_core_wf i ipc depth ne mc tr b sens path att c : 0 < depth -> sens <> 0 ->
  Forall (fun x => is_i64 (load_addr x) /\ is_i64 (store_addr x)) tr ->
  new_core (Z.of_nat i) ipc depth ne mc tr b sens path att = Ok c -> core_wf i c.
Proof.
  intros Hd Hs Htr H. unfold new_core in H.
  assert (0 < Z.of_nat (length tr)) as Hne.
  { unfold fetch in H. apply bind_Ok in H as (x & Hx & _). unfold get_next_inst in Hx. cbn in Hx.
    apply bind_Ok in Hx as (y & Hy & _). apply vget_inside in Hy. cbn in Hy. lia. }
  match type of H with fetch ?x = _ => destruct (fetch_Ok i x) as (c' & Hc & W) end.
  - split; cbn; try done; by apply new_window_wf.
  - congruence.
Qed.

Lemma new_cores_wf o att traces : forall id cs, 0 < BHO3.o_depth o -> BHO3.o_lat_hist_sensitivity o <> 0 ->
  BHO3.new_cores o (Z.of_nat id) att traces = Ok cs ->
  length cs = length traces /\ forall i c, cs !! i = Some c -> core_wf (id + i) c.
Proof.
  induction traces as [|file traces IH]; intros id cs Hd Hs H; [by injection H as <-|]. cbn [BHO3.new_cores] in H.
  apply bind_Ok in H as (tr & Htr & H). apply bind_Ok in H as (c & Hc & H). apply bind_Ok in H as (cs' & Hcs & H).
  injection H as <-. replace (Z.of_nat id + 1) with (Z.of_nat (S id)) in Hcs by lia.
  destruct (IH (S id) cs' Hd Hs Hcs) as [Hl Hw]. split; [cbn; by rewrite Hl|]. intros [|i] x Hx.
  - injection Hx as <-. rewrite Nat.add_0_r. eapply new_core_wf; [done|done| |exact Hc].
    destruct file as [lines|]; [by eapply parse_lines_i64|done].
  - rewrite <- Nat.add_succ_comm. by apply Hw.
Qed.

Lemma init_wf o traces no_wait cf k j f : 0 < BHO3.o_depth o -> BHO3.o_lat_hist_sensitivity o <> 0 -> good_config cf k j ->
  BHO3.init o traces no_wait None = Ok (cf, f) -> front_wf cf (length traces + length no_wait) f.
Proof.
  intros Hd Hs G H. unfold BHO3.init in H. apply bind_Ok in H as (cf' & _ & H). rewrite bind_Ok_l in H.
  apply bind_Ok in H as (cs1 & H1 & H). apply bind_Ok in H as (cs2 & H2 & H). injection H as -> <-.
  apply (new_cores_wf o false traces 0) in H1 as [Hl1 Hw1]; [|done..].
  apply new_cores_wf in H2 as [Hl2 Hw2]; [|done..]. split.
  - split; [by apply (llc_new_wf cf k j)|]. split; [constructor|]. cbn. intros a l. by rewrite lookup_empty.
  - split; [cbn; by rewrite length_app, Hl1, Hl2|]. intros i c. cbn. rewrite lookup_app. case_match eqn:E.
    + intros [= <-]. by apply Hw1.
    + apply lookup_ge_None in E. intros Hc. replace i with (length traces + (i - length cs1))%nat by lia. by apply Hw2.
Qed.

(** ** Replies and wake-ups *)
Section WakeUp.
Context (cf : BHO3LLC.Config) (n : nat).

(** Every instruction of the window that uses address [a] is ready. *)
Definition awake (a : Z) (c : Core) : Prop :=
  Forall (fun e : bool * Z => e.2 = a -> e.1 = true) (Window.entries (erase (m_window c))).

Lemma mark_awake a l : Forall (fun e : bool * Z => e.2 = a -> e.1 = true) (Window.mark a <$> l).
Proof.
  apply list.Forall_fmap, list.Forall_true. intros [r b]. cbn. intros ->. by rewrite Z.eqb_refl.
Qed.

Lemma mark_keeps a b l : Forall (fun e : bool * Z => e.2 = a -> e.1 = true) l ->
  Forall (fun e : bool * Z => e.2 = a -> e.1 = true) (Window.mark b <$> l).
Proof.
  intros H. apply list.Forall_fmap. eapply list.Forall_impl; [exact H|]. intros [r x] Hx. cbn in *. intros Ha.
  case_match; [done|auto].
Qed.

Definition awake_at (cs : list Core) (i a : Z) : Prop := exists c, cs !! Z.to_nat i = Some c /\ awake a c.

Lemma deliver_awake reply waiting : forall sx sx', Forall (src_ok n) waiting -> cache_wf cf n sx.1 -> cores_wf n sx.2 ->
  BHO3.deliver cf reply waiting sx = Ok sx' ->
  (forall i a, 0 <= i -> awake_at sx.2 i a -> awake_at sx'.2 i a) /\
  (forall r, r ∈ waiting -> awake_at sx'.2 (source_id r) (addr r)).
Proof.
  induction waiting as [|r waiting IH]; intros [s cs] sx' Hall W Hcs H.
  { injection H as <-. split; [done|]. intros r Hr%not_elem_of_nil. done. }
  cbn [BHO3.deliver fst snd] in *. apply list.Forall_cons in Hall as [Hr Hall]. unfold src_ok in Hr.
  set (r' := set_depart _ _) in H. change (source_id r') with (source_id r) in H.
  apply bind_Ok in H as (c & Hg & H). pose proof Hg as [_ Hg']%vget_Ok. pose proof Hcs as [Hlen Hc].
  pose proof (Hc _ _ Hg') as Hcc. destruct (core_receive_Ok cf n _ r' c s Hcc W) as (c' & s' & E & Hc' & W' & He).
  rewrite E, bind_Ok_l in H. unfold vset in H. rewrite bool_decide_eq_true_2, bind_Ok_l in H by lia.
  apply IH in H as [Hk Hw]; [|done|done|].
  2: { split; [by cbn; rewrite length_insert|]. intros i x. cbn. rewrite list_lookup_insert.
       case_decide as Ei; [|apply Hc]. intros [= <-]. destruct Ei as [<- _]. done. }
  cbn [fst snd] in *. split.
  - intros i a Hi (x & Hx & Ha). apply Hk; [done|]. unfold awake_at. rewrite list_lookup_insert. case_decide as Ei.
    + exists c'. split; [done|]. destruct Ei as [Ei _]. rewrite <- Ei, Hg' in Hx. injection Hx as <-.
      unfold awake. rewrite He. by apply mark_keeps.
    + by exists x.
  - intros q [->|Hq]%elem_of_cons; [|by apply Hw]. apply Hk; [lia|]. exists c'. split.
    + apply list_lookup_insert_eq. lia.
    + unfold awake. rewrite He. apply mark_awake.
Qed.

Lemma receive_waiters req s s' : BHO3LLC.receive cf req s = Ok s' ->
  BHO3LLC.m_receive_requests s' = BHO3LLC.m_receive_requests s.
Proof.
  unfold BHO3LLC.receive. destruct (BHO3LLC.check_mshr_hit cf (addr req) s) as [[m e]|]; [|by intros [= <-]].
  intros H. apply bind_Ok in H as (s1 & H1 & H). apply add_allocated_frame in H as [l ->].
  by apply update_line_frame in H1 as [sets ->].
Qed.

(** Without waiting requests a reply concerns no core. *)
Lemma receive_no_waiters req s cs s' cs' : BHO3LLC.m_receive_requests s !! addr req = Some [] ->
  BHO3.receive cf req (s, cs) = Ok (s', cs') -> cs' = cs.
Proof.
  intros Hw H. unfold BHO3.receive in H. apply bind_Ok in H as (s1 & H1 & H).
  rewrite (receive_waiters req s s1 H1), Hw in H. cbn in H. by injection H as _ <-.
Qed.

(** The only waiting request of an address after its hit is due is the hit. *)
Lemma hit_receive req s cs s' cs' : BHO3LLC.m_receive_requests s !! addr req = Some [req] ->
  BHO3.receive cf req (s, cs) = Ok (s', cs') ->
  BHO3LLC.m_receive_requests s' !! addr req = Some [] /\
  forall i, Z.of_nat i <> source_id req -> cs' !! i = cs !! i.
Proof.
  intros Hw H. unfold BHO3.receive in H. apply bind_Ok in H as (s1 & H1 & H).
  rewrite (receive_waiters req s s1 H1), Hw in H. cbn [default snd] in H. apply bind_Ok in H as ([s2 cs2] & H2 & H). injection H as <- <-.
  split; [cbn; apply lookup_insert_eq|]. intros i Hi. cbn [BHO3.deliver fst snd] in H2.
  apply bind_Ok in H2 as (c & _ & H2). apply bind_Ok in H2 as ([c' s3] & _ & H2). apply bind_Ok in H2 as (l & Hl & H2).
  injection H2 as _ <-. apply vset_Ok in Hl as [Hr ->]. apply list_lookup_insert_ne. cbn in *. lia.
Qed.
End WakeUp.

(** ** Properties *)


(** A reply reaches everyone who waits: after [receive], for
    every request that was waiting for the address of the reply, all
    instructions of its core that use its address are ready, no request waits
    any more, and no instruction of another address lost its readiness. *)
Theorem bh_reply_wakes_all_waiters cf k j n req s cs s' cs' : good_config cf k j ->
  cache_wf cf n s -> cores_wf n cs -> source_id req < Z.of_nat n -> BHO3.receive cf req (s, cs) = Ok (s', cs') ->
  (forall r, r ∈ default [] (BHO3LLC.m_receive_requests s !! addr req) -> awake_at cs' (source_id r) (addr r)) /\
  BHO3LLC.m_receive_requests s' !! addr req = Some [] /\
  (forall i a, 0 <= i -> awake_at cs i a -> awake_at cs' i a).
Proof.
  intros G [W Q] C Hs H. unfold BHO3.receive in H. cbn [fst snd] in H.
  destruct (llc_receive_Ok cf k j G n req s W Hs) as (s1 & H1 & W1). rewrite H1, bind_Ok_l in H.
  rewrite (receive_waiters cf req s s1 H1) in H. apply bind_Ok in H as ([s2 cs2] & H2 & H). injection H as <- <-.
  pose proof (receive_queues cf n _ _ _ H1 Q) as Q1.
  apply (deliver_awake cf n) in H2 as [Hk Hw]; [|by apply waiting_ok|by split|done].
  split; [exact Hw|]. split; [cbn; apply lookup_insert_eq|exact Hk].
Qed.

(** A lost wake-up.  When a hit becomes due while its line has
    been evicted and is being fetched again for the same address, the hit
    replaces the requests that wait for the fetch: the core of a waiting
    request [w] of another core is not told, nobody waits any more, and the
    reply of the memory system, whenever it comes, does not tell it either. *)
Theorem bh_early_hit_loses_wakeup cf clk due h w c s cs kept s' cs' :
  w ∈ default [] (BHO3LLC.m_receive_requests s !! addr h) -> 0 <= source_id w -> source_id w <> source_id h ->
  cs !! Z.to_nat (source_id w) = Some c ->
  due <= clk -> BHO3LLC.hit_loop (BHO3.receive cf) clk [(due, h)] (s, cs) = Ok (kept, (s', cs')) ->
  cs' !! Z.to_nat (source_id w) = Some c /\
  BHO3LLC.m_receive_requests s' !! addr h = Some [] /\
  (forall reply s2 cs2, addr reply = addr h -> BHO3.receive cf reply (s', cs') = Ok (s2, cs2) ->
     cs2 !! Z.to_nat (source_id w) = Some c).
Proof.
  intros _ Hw0 Hne Hc Hd H. cbn [BHO3LLC.hit_loop fst snd] in H. rewrite (proj2 (Z.leb_le _ _)) in H by done.
  apply bind_Ok in H as ([s1 cs1] & H1 & H). injection H as _ <- <-.
  apply hit_receive in H1 as [Hempty Hother]; [|cbn; apply lookup_insert_eq].
  assert (cs1 !! Z.to_nat (source_id w) = Some c) as Hc1 by (rewrite Hother by lia; done).
  split; [done|]. split; [done|]. intros reply s2 cs2 Ha H2.
  by rewrite (receive_no_waiters cf reply s1 cs1 s2 cs2) by (rewrite ?Ha; done).
Qed.

(** *** Witnesses: two cores and an attacker on the same line *)

(** A memory system that accepts everything and answers one request a cycle. *)
Definition fifo_memory : IBHMemory := {|
  bh_state := list Request;
  bh_send := fun r m => Ok (true, (m ++ [r])%list);
  bh_tick := fun m => match m with [] => Ok ([], []) | r :: m => Ok ([r], m) end;
|}.

Lemma fifo_memory_good : GoodMemory fifo_memory.
Proof. split. intros req m. by eexists. Qed.

Lemma no_translation_good : GoodTranslation no_translation.
Proof. split. intros req tr Ha. by eexists _, _, _. Qed.

Definition race_options : BHO3.Options := BHO3.mkOptions 1 8 5 "" 4 64 3 512 4 1000 1000000.
Definition race_config : BHO3LLC.Config := BHO3LLC.mkConfig 4 1536 64 3 12 8 7 6 9 4.

Lemma race_config_good : good_config race_config 6 3.
Proof. by split; cbn; lia. Qed.

Definition race_init : res (BHO3LLC.Config * BHO3.t) :=
  BHO3.init race_options [Some ["0 64"]; Some ["16 64"]] [Some ["12 64"]]%string None.

Definition race_cycle (x : BHO3.t * list Request) : res (BHO3.t * list Request) :=
  '(f, _, m) ← BHO3.tick (T := no_translation) (M := fifo_memory) race_config x.1 (NoTranslation.mkState 0) x.2;
  '(rs, m) ← bh_tick (IBHMemory := fifo_memory) m;
  f ← BHO3.receive_all race_config rs f;
  Ok (f, m).

Fixpoint race_cycles (n : nat) (x : BHO3.t * list Request) : res (BHO3.t * list Request) :=
  match n with O => Ok x | S n => x ← race_cycle x; race_cycles n x end.

Definition race (n : nat) : res (BHO3.t * list Request) := '(_, f) ← race_init; race_cycles n (f, []).

Definition race_dummy : BHO3.t * list Request := (BHO3.mk 0 (BHO3LLC.new 0) [] 0, []).

(** The state before cycle 18, in which the hit of core 0 is due and core 1
    waits for the fetch. *)
Definition race_llc : BHO3LLC.t := BHO3.m_llc (from_res race_dummy (race 17)).1.
Definition race_cores : list Core := BHO3.m_cores (from_res race_dummy (race 17)).1.
Definition race_hit : Request := Request_addr_type_source_callback 64 ReqType.Read 0 CbFrontEnd.
Definition race_waiter : Request := Request_addr_type_source_callback 64 ReqType.Read 1 CbFrontEnd.

Lemma race_init_Ok : exists f, race_init = Ok (race_config, f).
Proof.
  assert (ok_b race_init = true) as Hb by (vm_compute; reflexivity).
  destruct race_init as [[c f]|] eqn:E; [|discriminate Hb]. exists f.
  unfold race_init, BHO3.init in E. apply bind_Ok in E as (c' & Hc & E). vm_compute in Hc. injection Hc as <-.
  apply bind_Ok in E as (l & _ & E). apply bind_Ok in E as (c1 & _ & E). apply bind_Ok in E as (c2 & _ & E).
  by injection E as <- _.
Qed.


Lemma bh_early_hit_loses_wakeup_witness :
  exists c kept s' cs',
    race_cores !! 1%nat = Some c /\ Window.entries (erase (m_window c)) = [(false, 64)] /\
    BHO3LLC.hit_loop (BHO3.receive race_config) 18 [(18, race_hit)] (race_llc, race_cores) = Ok (kept, (s', cs')) /\
    cs' !! 1%nat = Some c.
Proof.
  assert (match race_cores !! 1%nat with Some c => bool_decide (Window.entries (erase (m_window c)) = [(false, 64)]) | None => false end = true)
    as Hc by (vm_compute; reflexivity).
  destruct (race_cores !! 1%nat) as [c|] eqn:Ec; [|discriminate Hc]. apply bool_decide_eq_true in Hc.
  assert (ok_b (BHO3LLC.hit_loop (BHO3.receive race_config) 18 [(18, race_hit)] (race_llc, race_cores)) = true) as Hok
    by (vm_compute; reflexivity).
  destruct (BHO3LLC.hit_loop _ _ _ _) as [[kept [s' cs']]|] eqn:Eh; [|discriminate Hok].
  exists c, kept, s', cs'. split; [exact eq_refl|]. split; [exact Hc|]. split; [exact eq_refl|].
  apply (bh_early_hit_loses_wakeup race_config 18 18 race_hit race_waiter c race_llc race_cores kept s' cs').
  - assert (bool_decide (default [] (BHO3LLC.m_receive_requests race_llc !! 64) = [race_hit; race_waiter]) = true)
      as Hw%bool_decide_eq_true by (vm_compute; reflexivity).
    change (addr race_hit) with 64. rewrite Hw. right. by left.
  - cbn. lia.
  - cbn. lia.
  - exact Ec.
  - lia.
  - exact Eh.
Defined.

(** The first cycle sends the load of core 0; its reply wakes it. *)
Definition race_first : BHO3.t := (from_res race_dummy (race 1)).1.

Lemma race_first_wf : front_wf race_config 3 race_first.
Proof.
  assert (exists f, race_init = Ok (race_config, f) /\ front_wf race_config 3 f) as (f & Hf & W).
  { destruct race_init_Ok as [f E]. exists f. split; [done|].
    apply (init_wf race_options [Some ["0 64"]; Some ["16 64"]] [Some ["12 64"]]%string race_config 6 3);
      [cbn; lia|cbn; lia|apply race_config_good|exact E]. }
  destruct (front_tick_Ok race_config 6 3 race_config_good 3 (T := no_translation) (GoodTranslation0 := no_translation_good)
    (M := fifo_memory) (GoodMemory0 := fifo_memory_good) f (NoTranslation.mkState 0) [] W) as (f1 & tr1 & m1 & H1 & W1).
  unfold race_first, race. rewrite Hf, bind_Ok_l. cbn [race_cycles]. unfold race_cycle. cbn [fst snd].
  rewrite H1, bind_Ok_l.
  assert (m1 = []) as ->.
  { assert (match race_init with Ok (_, f) =>
        match BHO3.tick (T := no_translation) (M := fifo_memory) race_config f (NoTranslation.mkState 0) [] with
        | Ok (_, _, m) => bool_decide (m = []) | _ => false end | _ => false end = true) as Hm by (vm_compute; reflexivity).
    rewrite Hf, H1 in Hm. by apply bool_decide_eq_true in Hm. }
  exact W1.
Qed.

Lemma bh_reply_wakes_all_waiters_witness :
  exists s' cs', BHO3.receive race_config race_hit (BHO3.m_llc race_first, BHO3.m_cores race_first) = Ok (s', cs') /\
    awake_at cs' 0 64.
Proof.
  destruct race_first_wf as [W C].
  destruct (receive_Ok race_config 6 3 race_config_good 3 race_hit (BHO3.m_llc race_first, BHO3.m_cores race_first)
    ltac:(cbn; lia) W C) as ([s' cs'] & H & _).
  exists s', cs'. split; [exact H|].
  destruct (bh_reply_wakes_all_waiters race_config 6 3 3 race_hit _ _ s' cs' race_config_good W C ltac:(cbn; lia) H)
    as (Hw & _). apply (Hw race_hit).
  assert (bool_decide (default [] (BHO3LLC.m_receive_requests (BHO3.m_llc race_first) !! 64) = [race_hit]) = true)
    as E%bool_decide_eq_true by (vm_compute; reflexivity).
  change (addr race_hit) with 64. rewrite E. by left.
Defined.

(** ** Two defects of the frontend *)

(** The latency histogram is never written, whatever path is configured. *)
Theorem bh_latency_dump_dead `{O : IterOrder} id ipc depth ne mc tr b sens path att c :
  new_core id ipc depth ne mc tr b sens path att = Ok c -> dump_latency_histogram c = None.
Proof. unfold new_core, fetch. intros H. apply bind_Ok in H as ([x y] & _ & H). by injection H as <-. Qed.

(** With three cores and the default cache parameters the number of sets is not
    a power of two: two blocks share index and tag, and a miss on the second
    while the first is in flight runs into the assertion of
    [need_eviction]. *)
Theorem bh_llc_three_cores_alias :
  exists cf, BHO3.llc_config (BHO3.default_options 1000) 3 = Ok cf /\
    BHO3LLC.get_index cf 0 = BHO3LLC.get_index cf (2 ^ 18) /\ BHO3LLC.get_tag cf 0 = BHO3LLC.get_tag cf (2 ^ 18) /\
    BHO3LLC.align cf 0 <> BHO3LLC.align cf (2 ^ 18) /\
    ('(_, _, s) ← BHO3LLC.send cf (demo_load 0) (BHO3LLC.new 3); BHO3LLC.send cf (demo_load (2 ^ 18)) s)
      = Err (Exc "assertion failed").
Proof.
  eexists. split; [vm_compute; reflexivity|]. split; [vm_compute; reflexivity|]. split; [vm_compute; reflexivity|].
  split; [vm_compute; discriminate|]. apply err_of_Some. vm_compute. reflexivity.
Qed.
