(* ===== verification/BhController.v ===== *)
(** * The BH and PRAC memory controllers

    Models [dram_controller/impl/bh_dram_controller.cpp] and
    [prac_dram_controller.cpp].  Both repeat the generic controller, without
    its latency and queue statistics and with row statistics per core; the
    PRAC controller adds a buffer for the commands of a recovery and only
    serves requests that end before the next recovery.  The members that they
    share with the generic controller are its record [Ctrl]; refresh manager,
    row policies and plugins are the same objects. *)
From Stdlib Require Import String.
From S2P Require Import Prelude CxxFloat Utils DramSpec Dram Request Scheduler Plugin Controller Prac Bliss.
Local Open Scope string_scope.
Local Open Scope Z_scope.

(** ** What the BH memory system uses of a controller *)
Class IBHController `{D : IDRAM} : Type := {
  bhc_state : Type;
  bhc_send : Request -> bhc_state -> res (bool * Request * bhc_state);
  bhc_tick : Z -> dev -> bhc_state -> res (option Request * dev * bhc_state);
}.

(** ** [IBHScheduler]: what the PRAC controller uses of its scheduler

    A scheduler has a state, is ticked once per cycle, and may look at the PRAC
    plugin of the controller.  Its choice recomputes the command of every request
    as the prerequisite of its final command and changes nothing else of the
    buffer but the scratchpads. *)
Class IBHScheduler `{D : IDRAM} : Type := {
  bhs_state : Type;
  bhs_tick : bhs_state -> bhs_state;
  bhs_best : PRAC.State -> bhs_state -> dev -> ReqBuffer -> res (option nat * ReqBuffer);
  bhs_best_spec : forall prac s dv b it b', bhs_best prac s dv b = Ok (it, b') ->
    max_size b' = max_size b /\
    Forall2 (fun r r' => exists r1 sp, with_preq dv r = Ok r1 /\ r' = set_scratchpad sp r1) (buffer b) (buffer b');
}.

Lemma annotate_spec `{D : IDRAM} first dv l l' : annotate first dv l = Ok l' ->
  Forall2 (fun r r' => exists r1 sp, with_preq dv r = Ok r1 /\ r' = set_scratchpad sp r1) l l'.
Proof.
  revert l'. induction l as [|r l IH]; cbn; intros l' H; [injection H as <-; constructor|].
  apply bind_Ok in H as (r1 & Hr & H). apply bind_Ok in H as (x & _ & H). apply bind_Ok in H as (rd & _ & H).
  apply bind_Ok in H as (l1 & Hl & H). injection H as <-. constructor; [|by apply IH].
  exists r1. eexists. split; [done|]. unfold set_flag. by destruct r1.
Qed.

(** [PRACScheduler]: its state is its clock. *)
#[refine] Definition prac_scheduler `{D : IDRAM} (p : PRAC.Config) : IBHScheduler := {|
  bhs_state := Z;
  bhs_tick := fun clk => clk + 1;
  bhs_best := PRACScheduler.get_best_request p;
|}.
Proof.
  intros prac clk dv b it b' H. unfold PRACScheduler.get_best_request, best_by_flags in H.
  destruct (buffer b) as [|r l] eqn:E; [injection H as _ <-; split; [done|rewrite E; constructor]|].
  apply bind_Ok in H as (l' & Hl & H). apply annotate_spec in Hl. destruct l'; [done|]. injection H as _ <-. done.
Defined.

(** [BHScheduler], whose clock is not used. *)
#[refine] Definition bh_scheduler `{D : IDRAM} : IBHScheduler := {|
  bhs_state := Z;
  bhs_tick := fun clk => clk + 1;
  bhs_best := fun _ _ => BHScheduler.get_best_request;
|}.
Proof.
  intros prac s dv b it b' (Hm & HF & _)%get_best_request_spec. split; [done|].
  eapply list.Forall2_impl; [exact HF|]. intros r r' H. exists r', (scratchpad r'). split; [done|]. by destruct r'.
Defined.

Definition INT_MAX : Z := 2 ^ 31 - 1.

(** ** Parts that the two controllers have in common *)
Section Common.
Context `{D : IDRAM}.

(** The row statistics, per core and in total. *)
Record RowStats : Type := mkRowStats {
  s_core_row_hits : list Z;
  s_core_row_misses : list Z;
  s_core_row_conflicts : list Z;
  s_num_row_hits : Z;
  s_num_row_misses : Z;
  s_num_row_conflicts : Z;
}.

Definition new_stats (num_cores : nat) : RowStats :=
  let z := replicate num_cores 0 in mkRowStats z z z 0 0 0.

(** The members of the generic controller that [init] and [setup] create; the
    priority buffer is practically unbounded. *)
Definition new_base (num_cores : nat) (rf : Refresh) (rp : RowPolicy) (ps : list Plugin) : Ctrl :=
  set_buf BPriority (mkReqBuffer [] INT_MAX) (new_ctrl num_cores rf rp ps).

(** The level indices that [setup] looks up, all of which have to exist. *)
Definition addr_indices : res Z :=
  _ ← def_of_name dram_levels "rank";
  _ ← def_of_name dram_levels "bankgroup";
  bank ← def_of_name dram_levels "bank";
  _ ← def_of_name dram_levels "row";
  Ok bank.

(** [send]: the request is passed by reference. *)
Definition base_send (req : Request) (c : Ctrl) : res (bool * Request * Ctrl) :=
  fc ← lut_get dram_request_translations (type_id req);
  let req := set_final_command fc req in
  if (type_id req =? ReqType.Read) &&
     existsb (fun w => addr w =? addr req) (buffer (m_write_buffer c)) then
    let req := set_depart (m_clk c + 1) req in
    Ok (true, req, set_pending (pending c ++ [req])%list c)
  else
    let req := set_arrive (m_clk c) req in
    if type_id req =? ReqType.Read then
      let '(ok, b) := enqueue req (m_read_buffer c) in
      if ok : bool then Ok (true, req, set_buf BRead b c) else Ok (false, set_arrive (-1) req, c)
    else if type_id req =? ReqType.Write then
      let '(ok, b) := enqueue req (m_write_buffer c) in
      if ok : bool then Ok (true, req, set_buf BWrite b c) else Ok (false, set_arrive (-1) req, c)
    else Err (Exc "Invalid request type!").

(** [serve_completed_reads] *)
Definition base_serve (c : Ctrl) : option Request * Ctrl :=
  match pending c with
  | [] => (None, c)
  | req :: rest => if depart req <=? m_clk c then (Some req, set_pending rest c) else (None, c)
  end.

(** The statistics at the end of [schedule_request]. *)
Definition bump (on : bool) (src inc : Z) (l : list Z) : res (list Z) :=
  if on then n ← vget l src; vset l src (n + inc) else Ok l.

Definition count_row (r : Request) (st : RowStats) : res RowStats :=
  if (type_id r =? ReqType.Read) || (type_id r =? ReqType.Write) then
    meta ← lut_get dram_command_meta (command r);
    let src := if 0 <=? source_id r then source_id r else 0 in
    let inc := if 0 <=? source_id r then 1 else 0 in
    h ← bump (is_accessing meta) src inc (s_core_row_hits st);
    m ← bump (is_opening meta) src inc (s_core_row_misses st);
    x ← bump (is_closing meta) src inc (s_core_row_conflicts st);
    let one (b : bool) := if b then 1 else 0 in
    Ok (mkRowStats h m x (s_num_row_hits st + one (is_accessing meta)) (s_num_row_misses st + one (is_opening meta))
          (s_num_row_conflicts st + one (is_closing meta)))
  else Ok st.

(** The row policy and the plugins see the scheduled request, if there is one. *)
Definition rowpolicy_on (r : option Request) (c : Ctrl) : res Ctrl :=
  match m_rowpolicy c, r with
  | ClosedRowPolicy p, Some r => closed_update p r c
  | _, _ => Ok c
  end.

Definition plugins_on (r : option Request) (c : Ctrl) : res Ctrl :=
  '(ps, c) ← update_plugins r (m_plugins c) c; Ok (set_plugins ps c).

(** The completed request enters [pending] if it is a read. *)
Definition complete (r : Request) (c : Ctrl) : Ctrl :=
  if type_id r =? ReqType.Read
  then set_pending (pending c ++ [set_depart (m_clk c + dram_read_latency) r])%list c else c.

Definition activate (r : Request) (c : Ctrl) : Ctrl := set_buf BActive (enqueue r (m_active_buffer c)).2 c.

(** Step 4 of [tick] for a request of one of the four buffers. *)
Definition base_issue (dv : dev) (i : BufId) (k : nat) (c : Ctrl) : res (dev * Ctrl) :=
  r ← vget (buffer (get_buf i c)) (Z.of_nat k);
  dv ← dram_issue_command (command r) (addr_vec r) dv;
  if command r =? final_command r then
    let c := complete r c in
    Ok (dv, set_buf i (remove k (get_buf i c)) c)
  else
    meta ← lut_get dram_command_meta (command r);
    if is_opening meta then
      let c := activate r c in
      Ok (dv, set_buf i (remove k (get_buf i c)) c)
    else Ok (dv, c).
End Common.

(** ** [BHDRAMController] *)
Module BHDRAMController.
Section Controller.
Context `{D : IDRAM} `{S : !IScheduler} (cf : CtrlConfig).

Record t : Type := mk { base : Ctrl; stats : RowStats }.

(** [setup] looks up the levels; only the index of the bank is used later. *)
Definition setup : res Z := addr_indices.

Definition new (num_cores : nat) (rf : Refresh) (rp : RowPolicy) (ps : list Plugin) : t :=
  mk (new_base num_cores rf rp ps) (new_stats num_cores).

Definition send (req : Request) (c : t) : res (bool * Request * t) :=
  '(ok, req, b) ← base_send req (base c); Ok (ok, req, mk b (stats c)).

Definition priority_send (req : Request) (c : t) : res (bool * t) :=
  '(ok, b) ← Controller.priority_send req (base c); Ok (ok, mk b (stats c)).

(** The search is that of the generic controller; requests of the active buffer
    are not counted. *)
Definition schedule_request (dv : dev) (c : t) : res (option (BufId * nat) * t) :=
  '(found, b) ← Controller.schedule_request cf dv (base c);
  match found with
  | None => Ok (None, mk b (stats c))
  | Some (i, k) =>
      st ← (match i with
            | BActive => Ok (stats c)
            | _ => r ← vget (buffer (get_buf i b)) (Z.of_nat k); count_row r (stats c)
            end);
      Ok (Some (i, k), mk b st)
  end.

Definition tick (dv : dev) (c : t) : res (option Request * dev * t) :=
  let '(done, b) := base_serve (set_clk (m_clk (base c) + 1) (base c)) in
  b ← refresh_tick cf b;
  '(found, c) ← schedule_request dv (mk b (stats c));
  r ← found_request found (base c);
  b ← rowpolicy_on r (base c);
  b ← plugins_on r b;
  match found with
  | None => Ok (done, dv, mk b (stats c))
  | Some (i, k) => '(dv, b) ← base_issue dv i k b; Ok (done, dv, mk b (stats c))
  end.
End Controller.
End BHDRAMController.

(** ** [PRACDRAMController] *)
Module PRACDRAMController.
Section Controller.
Context `{D : IDRAM} `{Sch : !IBHScheduler} `{ORD : IterOrder} (cf : CtrlConfig) (p : PRAC.Config).

(** [m_plugins] of the source is the list of [base], the PRAC plugin [m_prac]
    and [m_plugins_after]; [m_scheduler] is the state of the scheduler. *)
Record t : Type := mk {
  base : Ctrl;
  stats : RowStats;
  m_prac : PRAC.State;
  m_plugins_after : list Plugin;
  m_prac_buffer : ReqBuffer;
  m_scheduler : bhs_state;
}.

Definition set_base (b : Ctrl) (c : t) : t :=
  mk b (stats c) (m_prac c) (m_plugins_after c) (m_prac_buffer c) (m_scheduler c).
Definition set_prac_buffer (q : ReqBuffer) (c : t) : t :=
  mk (base c) (stats c) (m_prac c) (m_plugins_after c) q (m_scheduler c).
Definition set_row_stats (st : RowStats) (c : t) : t :=
  mk (base c) st (m_prac c) (m_plugins_after c) (m_prac_buffer c) (m_scheduler c).

(** The templates and constants of [setup]. *)
Record Setup : Type := mkSetup {
  m_prea_template : Request;
  m_rfmab_template : Request;
  m_rfmab_id : Z;
  m_rank_level : Z;
  m_num_ranks : Z;
  m_nRP : Z;
}.

Definition setup : res Setup :=
  _ ← addr_indices;
  let av := replicate (List.length dram_levels) (-1) in
  ch ← def_of_name dram_levels "channel";
  av ← vset av ch (m_channel_id cf);
  prea ← def_of_name dram_commands "PREA";
  rfmab ← def_of_name dram_commands "RFMab";
  close_all ← def_of_name dram_requests "close-all-bank";
  rfm ← def_of_name dram_requests "rfm";
  rank ← def_of_name dram_levels "rank";
  nr ← get_level_size "rank";
  nrp ← dram_timing "nRP";
  Ok (mkSetup (set_final_command prea (set_command prea (Request_vec_type av close_all)))
        (set_final_command rfmab (set_command rfmab (Request_vec_type av rfm))) rfmab rank nr nrp).

Definition new (num_cores : nat) (rf : Refresh) (rp : RowPolicy) (before after : list Plugin) (prac : PRAC.State)
    (sch : bhs_state) : t :=
  mk (new_base num_cores rf rp before) (new_stats num_cores) prac after new_buffer sch.

Definition send (req : Request) (c : t) : res (bool * Request * t) :=
  '(ok, req, b) ← base_send req (base c); Ok (ok, req, set_base b c).

Definition priority_send (req : Request) (c : t) : res (bool * t) :=
  '(ok, b) ← Controller.priority_send req (base c); Ok (ok, set_base b c).

(** *** Preparing a recovery

    One template for each rank; the results of enqueuing are ignored. *)
Fixpoint enqueue_ranks (su : Setup) (tmpl : Request) (ranks : list Z) (q : ReqBuffer) : res ReqBuffer :=
  match ranks with
  | [] => Ok q
  | i :: ranks =>
      av ← vset (addr_vec tmpl) (m_rank_level su) i;
      enqueue_ranks su tmpl ranks (enqueue (set_addr_vec av tmpl) q).2
  end.

Fixpoint enqueue_rfms (su : Setup) (n : nat) (q : ReqBuffer) : res ReqBuffer :=
  match n with
  | O => Ok q
  | S n => q ← enqueue_ranks su (m_rfmab_template su) (seqZ 0 (m_num_ranks su)) q; enqueue_rfms su n q
  end.

Definition prepare_recovery (su : Setup) (c : t) : res t :=
  let starting := PRAC.next_recovery_cycle (m_prac c) - m_clk (base c) <=? m_nRP su + 5 in
  if starting && (buf_size (m_prac_buffer c) =? 0) then
    q ← enqueue_ranks su (m_prea_template su) (seqZ 0 (m_num_ranks su)) (m_prac_buffer c);
    q ← enqueue_rfms su (Z.to_nat (PRAC.get_num_abo_recovery_refs p)) q;
    Ok (set_prac_buffer q c)
  else Ok c.

(** *** [schedule_request] *)
Inductive Loc : Type := LPrac | LBuf (i : BufId).

Definition get_loc (l : Loc) (c : t) : ReqBuffer :=
  match l with LPrac => m_prac_buffer c | LBuf i => get_buf i (base c) end.

Definition fits (c : t) (r : Request) : bool :=
  m_clk (base c) + PRAC.min_cycles_with_preall p r <? PRAC.next_recovery_cycle (m_prac c).

(** The scheduler's choice from one buffer, if it fits and is ready. *)
Definition try_buffer (dv : dev) (i : BufId) (c : t) : res (option (Loc * nat) * t) :=
  '(it, q) ← bhs_best (m_prac c) (m_scheduler c) dv (get_buf i (base c));
  let c := set_base (set_buf i q (base c)) c in
  match it with
  | None => Ok (None, c)
  | Some k =>
      r ← vget (buffer q) (Z.of_nat k);
      ready ← (if fits c r then req_ready dv r else Ok false);
      Ok (if ready : bool then Some (LBuf i, k) else None, c)
  end.

(** The head of the recovery buffer: an RFMab waits for the recovery. *)
Definition try_prac (su : Setup) (dv : dev) (r : Request) (c : t) : res (bool * t) :=
  r ← with_preq dv r;
  let c := set_prac_buffer (buf_update 0 (set_command (command r)) (m_prac_buffer c)) c in
  let early := (command r =? m_rfmab_id su) && bool_decide (PRAC.get_state (m_prac c) = PRAC.PRE_RECOVERY) in
  ready ← (if early then Ok false else req_ready dv r);
  Ok (ready, c).

(** The head of the priority buffer. *)
Definition try_priority (dv : dev) (r : Request) (c : t) : res (bool * t) :=
  r ← with_preq dv r;
  let c := set_base (set_buf BPriority (buf_update 0 (set_command (command r)) (m_priority_buffer (base c))) (base c)) c in
  ready ← (if fits c r then req_ready dv r else Ok false);
  Ok (ready, c).

(** The read or write buffer. *)
Definition try_rw (dv : dev) (c : t) : res (option (Loc * nat) * t) :=
  let b := set_write_mode cf (base c) in
  try_buffer dv (if m_is_write_mode b then BWrite else BRead) (set_base b c).

(** After the recovery buffer: [prac_found] says that its head is ready; the
    priority buffer is looked at all the same. *)
Definition after_prac (dv : dev) (prac_found : bool) (c : t) : res (option (Loc * nat) * t) :=
  match buffer (m_priority_buffer (base c)) with
  | r :: _ =>
      '(ok, c) ← try_priority dv r c;
      Ok (if ok : bool then Some (LBuf BPriority, 0%nat) else None, c)
  | [] => if prac_found then Ok (Some (LPrac, 0%nat), c) else try_rw dv c
  end.

Definition find_request (su : Setup) (dv : dev) (c : t) : res (option (Loc * nat) * t) :=
  '(found, c) ← try_buffer dv BActive c;
  match found with
  | Some x => Ok (Some x, c)
  | None =>
      match buffer (m_prac_buffer c) with
      | r :: _ =>
          '(ok, c) ← try_prac su dv r c;
          if ok : bool then after_prac dv true c else Ok (None, c)
      | [] => after_prac dv false c
      end
  end.

(** A command that closes rows of a bank in use waits. *)
Definition schedule_request (su : Setup) (dv : dev) (c : t) : res (option (Loc * nat) * t) :=
  '(found, c) ← find_request su dv c;
  match found with
  | None => Ok (None, c)
  | Some (l, k) =>
      r ← vget (buffer (get_loc l c)) (Z.of_nat k);
      meta ← lut_get dram_command_meta (command r);
      blocked ← (if is_closing meta then any_match cf (buffer (m_active_buffer (base c))) (addr_vec r) else Ok false);
      if blocked : bool then Ok (None, c)
      else
        st ← (match l with LBuf BActive => Ok (stats c) | _ => count_row r (stats c) end);
        Ok (Some (l, k), set_row_stats st c)
  end.

(** *** [tick] *)
Definition loc_request (found : option (Loc * nat)) (c : t) : res (option Request) :=
  match found with
  | None => Ok None
  | Some (l, k) => r ← vget (buffer (get_loc l c)) (Z.of_nat k); Ok (Some r)
  end.

(** The plugins before PRAC, PRAC, and the plugins after it. *)
Definition plugins_update (r : option Request) (c : t) : res t :=
  b ← plugins_on r (base c);
  prac ← PRAC.step p r (m_prac c);
  '(ps, b) ← update_plugins r (m_plugins_after c) b;
  Ok (mk b (stats c) prac ps (m_prac_buffer c) (m_scheduler c)).

Definition issue (dv : dev) (l : Loc) (k : nat) (c : t) : res (dev * t) :=
  match l with
  | LBuf i => '(dv, b) ← base_issue dv i k (base c); Ok (dv, set_base b c)
  | LPrac =>
      r ← vget (buffer (m_prac_buffer c)) (Z.of_nat k);
      dv ← dram_issue_command (command r) (addr_vec r) dv;
      if command r =? final_command r then
        Ok (dv, set_prac_buffer (remove k (m_prac_buffer c)) (set_base (complete r (base c)) c))
      else
        meta ← lut_get dram_command_meta (command r);
        if is_opening meta then
          Ok (dv, set_prac_buffer (remove k (m_prac_buffer c)) (set_base (activate r (base c)) c))
        else Ok (dv, c)
  end.

Definition next_cycle (c : t) : t :=
  mk (set_clk (m_clk (base c) + 1) (base c)) (stats c) (m_prac c) (m_plugins_after c) (m_prac_buffer c) (m_scheduler c).
Definition sched_tick (c : t) : t :=
  mk (base c) (stats c) (m_prac c) (m_plugins_after c) (m_prac_buffer c) (bhs_tick (m_scheduler c)).

(** Everything before the choice of a request. *)
Definition begin_cycle (su : Setup) (c : t) : res (option Request * t) :=
  let c := next_cycle c in
  let '(done, b) := base_serve (base c) in
  b ← refresh_tick cf b;
  c ← prepare_recovery su (sched_tick (set_base b c));
  Ok (done, c).

Definition tick (su : Setup) (dv : dev) (c : t) : res (option Request * dev * t) :=
  '(done, c) ← begin_cycle su c;
  '(found, c) ← schedule_request su dv c;
  r ← loc_request found c;
  b ← rowpolicy_on r (base c);
  c ← plugins_update r (set_base b c);
  match found with
  | None => Ok (done, dv, c)
  | Some (l, k) => '(dv, c) ← issue dv l k c; Ok (done, dv, c)
  end.
End Controller.
End PRACDRAMController.
