(* ===== verification/BhControllerFacts.v ===== *)
(** * Facts about the BH and PRAC memory controllers *)
From Stdlib Require Import String.
From S2P Require Import Prelude CxxFloat Utils DramSpec DDR4 DDR4Facts Dram Request Scheduler.
From S2P Require Import Plugin Controller ControllerFacts Prac Bliss BhController Device DDR5VRR StandardsFacts PracFacts.
Local Open Scope Z_scope.

Section Common.
Context `{D : IDRAM} (cf : CtrlConfig).

Lemma base_serve_served t c dn c1 : base_serve (set_clk t c) = (dn, c1) -> t = m_clk c + 1 -> served c dn c1.
Proof.
  intros H ->. unfold base_serve in H. cbn [pending set_clk m_clk] in H.
  destruct (pending c) as [|r rest] eqn:E; [|destruct (_ <=? _) eqn:Ed]; injection H as <- <-;
    (split; unfold completed; cbn; rewrite ?E, ?Ed; try done; by intros []).
Qed.

Lemma rowpolicy_on_spec r c c' : rowpolicy_on r c = Ok c' ->
  exists l, adds_priority c c' l /\ Forall (fun r => Some (type_id r) = policy_req_id c) l.
Proof.
  unfold rowpolicy_on, policy_req_id. destruct (m_rowpolicy c) as [|p], r as [r|];
    try (intros H; injection H as <-; exists []; by split; [apply adds_nil|]).
  intros H. apply closed_update_spec in H as (l & Ha & Hf). exists l. split; [done|].
  eapply Forall_impl; [|exact Hf]. cbn. by intros ? ->.
Qed.

Lemma plugins_on_spec r c c' : plugins_on r c = Ok c' ->
  exists c1, adds_priority c c1 (prioritised <$> accepted_all (places (m_priority_buffer c)) r (m_plugins c)) /\
    c' = set_plugins (m_plugins c') c1.
Proof.
  unfold plugins_on. intros H. apply bind_Ok in H as ([ps c1] & Hu & H). injection H as <-.
  apply update_plugins_accepted in Hu. by exists c1.
Qed.

Lemma complete_live r c : type_id r = ReqType.Read -> live (complete r c) ≡ₚ rkey r :: live c.
Proof.
  intros Hr. unfold complete. rewrite (proj2 (Z.eqb_eq _ _) Hr).
  apply (live_pending [set_depart (m_clk c + dram_read_latency) r]).
Qed.

Lemma base_issue_spec dv i k c r dv' c' : buffer (get_buf i c) !! k = Some r ->
  base_issue dv i k c = Ok (dv', c') -> issued dv c r dv' c'.
Proof.
  intros Hr H. unfold base_issue in H. apply bind_Ok in H as (r0 & [_ Hr0]%vget_Ok & H).
  rewrite Nat2Z.id, Hr in Hr0. injection Hr0 as <-. apply bind_Ok in H as (dv1 & Hi & H).
  destruct (Z.eqb_spec (command r) (final_command r)) as [Hf|Hf].
  - injection H as <- <-. split; [done|]. intros _. unfold finished. rewrite Hf, Z.eqb_refl.
    destruct (Z.eqb_spec (type_id r) ReqType.Read) as [Ht|Ht]; cbn [andb negb].
    + rewrite app_nil_r. pose proof (complete_live r c Ht) as Hp.
      assert (buffer (get_buf i (complete r c)) !! k = Some r) as Hk by (unfold complete; destruct (_ =? _); by destruct i).
      rewrite (live_remove i k _ _ Hk) in Hp. by apply Permutation_cons_inv in Hp.
    + unfold complete. rewrite (proj2 (Z.eqb_neq _ _)) by done.
      rewrite (live_remove i k c _ Hr). symmetry. apply Permutation_cons_append.
  - assert (finished (Some r) = []) as Hfin by (unfold finished; by rewrite (proj2 (Z.eqb_neq _ _) Hf)).
    apply bind_Ok in H as (meta & _ & H). destruct (is_opening meta).
    + injection H as <- <-. split; [done|]. intros Hsz. rewrite Hfin, app_nil_r.
      pose proof (active_enqueue_live r c Hsz) as Hp. pose proof (active_enqueue_lookup i k r r c Hr) as Hk.
      unfold activate. set (c2 := set_buf BActive _ c) in *. rewrite (live_remove i k c2 _ Hk) in Hp.
      by apply Permutation_cons_inv in Hp.
    + injection H as <- <-. split; [done|]. intros _. by rewrite Hfin, app_nil_r.
Qed.
End Common.

(** ** [BHDRAMController] *)
Section BH.
Context `{D : IDRAM} `{Sch : !IScheduler} (cf : CtrlConfig).
Import BHDRAMController.

Lemma bh_tick_spec dv c dn dv' c' : tick cf dv c = Ok (dn, dv', c') -> tick_post cf dv (base c) dn dv' (base c').
Proof.
  unfold tick. destruct (base_serve _) as [dn1 c1] eqn:H1. intros H. apply base_serve_served in H1; [|done].
  apply bind_Ok in H as (c2 & H2 & H). apply bind_Ok in H as ([found [c3 st]] & H3 & H).
  apply bind_Ok in H as (r & Hr & H). apply bind_Ok in H as (c4 & H4 & H). apply bind_Ok in H as (c6 & H6 & H).
  cbn [base stats] in *. unfold schedule_request in H3. apply bind_Ok in H3 as ([f b] & H3 & Hst). cbn [base stats] in *.
  assert (f = found /\ b = c3) as [-> ->].
  { destruct f as [[i k]|]; [apply bind_Ok in Hst as (x & _ & Hst)|]; by injection Hst as <- <-. } clear Hst.
  apply refresh_tick_spec in H2 as (l2 & Ha2 & Hl2 & Hpol2). rewrite (sv_refresh _ _ _ H1) in Hl2.
  apply schedule_request_spec in H3 as [Hs3 Hf3].
  apply rowpolicy_on_spec in H4 as (l4 & Ha4 & Hl4).
  apply plugins_on_spec in H6 as (c5 & Ha5 & E6).
  set (ps := m_plugins c6) in E6. clearbody ps. subst c6.
  assert (dn1 = dn) as <- by (destruct found as [[i k]|]; [apply bind_Ok in H as ([x y] & _ & H)|]; by injection H as <- _ _).
  eapply (phases_post cf dv (base c) dn1 c1 l2 c2 found r c3 l4 c4 c5); try done. destruct found as [[i k]|].
  - intros q Hq. apply bind_Ok in H as ([dvx cx] & Hi & H). injection H as <- <-. cbn [base].
    apply (base_issue_spec dv i k (set_plugins ps c5) q) in Hi; [exact Hi|]. by destruct i.
  - by injection H as <- <-.
Qed.

End BH.

(** The controller behind the interface of the memory system. *)
Definition bh_controller `{D : IDRAM} `{Sch : !IScheduler} (bank : Z) (low high : spec_float) : IBHController := {|
  bhc_state := BHDRAMController.t;
  bhc_send := BHDRAMController.send;
  bhc_tick := fun channel => BHDRAMController.tick (mkCtrlConfig channel bank low high);
|}.

(** ** [PRACDRAMController] *)

(** The identity of a request: its scratchpad belongs to the scheduler. *)
Definition rident (r : Request) : Request := set_scratchpad [] (rkey r).

Section Prac.
Context `{D : IDRAM} `{Sch : !IBHScheduler} `{ORD : IterOrder}.
Context (cf : CtrlConfig) (p : PRAC.Config) (su : PRACDRAMController.Setup).
Import PRACDRAMController.

(** What scheduling leaves alone. *)
Record same_machine (c c' : t) : Prop := {
  sm_prac : m_prac c' = m_prac c;
  sm_clk : m_clk (base c') = m_clk (base c);
  sm_ident : forall l, rident <$> buffer (get_loc l c') = rident <$> buffer (get_loc l c);
}.

Lemma same_machine_refl c : same_machine c c.
Proof. done. Qed.

Lemma same_machine_trans a b c : same_machine a b -> same_machine b c -> same_machine a c.
Proof. intros [H1 H2 H3] [H4 H5 H6]. split; [congruence|congruence|]. intros l. by rewrite H6. Qed.

Lemma sm_finals c c' : same_machine c c' ->
  final_command <$> buffer (m_prac_buffer c') = final_command <$> buffer (m_prac_buffer c).
Proof.
  intros H. pose proof (sm_ident _ _ H LPrac) as E. cbn in E. apply (f_equal (fmap final_command)) in E.
  by rewrite <- !list_fmap_compose in E.
Qed.

(** A request of the new state is one of the old state. *)
Lemma sm_lookup c c' l k r : same_machine c c' -> buffer (get_loc l c') !! k = Some r ->
  exists r0, buffer (get_loc l c) !! k = Some r0 /\ rident r0 = rident r.
Proof.
  intros H Hr. pose proof (sm_ident _ _ H l) as E. apply (f_equal (lookup k)) in E. rewrite !list_lookup_fmap, Hr in E.
  destruct (buffer (get_loc l c) !! k) as [r0|]; [|done]. exists r0. split; [done|]. apply (inj Some). by symmetry.
Qed.

Lemma set_buf_machine i q c : rident <$> buffer q = rident <$> buffer (get_buf i (base c)) ->
  same_machine c (set_base (set_buf i q (base c)) c).
Proof.
  intros Hq. split; [done|done|]. intros [|j]; [done|]. cbn [get_loc base set_base].
  destruct i, j; try done; by rewrite get_set_same.
Qed.

(** A request may be issued: its command is the prerequisite of its final
    command and is ready; if it is the head of the recovery buffer, it does not
    come too early; otherwise it ends before the recovery. *)
Definition may_issue (dv : dev) (c : t) (l : Loc) (k : nat) (r : Request) : Prop :=
  dram_get_preq_command (final_command r) (addr_vec r) dv = Ok (command r) /\
  dram_check_ready (command r) (addr_vec r) dv = Ok true /\
  match l with
  | LPrac => k = 0%nat /\ (command r = m_rfmab_id su -> PRAC.get_state (m_prac c) <> PRAC.PRE_RECOVERY)
  | LBuf _ => m_clk (base c) + PRAC.min_cycles_with_preall p r < PRAC.next_recovery_cycle (m_prac c)
  end.

Definition found_ok (dv : dev) (found : option (Loc * nat)) (c : t) : Prop :=
  forall l k, found = Some (l, k) -> exists r, buffer (get_loc l c) !! k = Some r /\ may_issue dv c l k r.

Lemma prac_try_buffer_spec dv i c found c' : try_buffer p dv i c = Ok (found, c') ->
  same_machine c c' /\ found_ok dv found c' /\ (forall k, found <> Some (LPrac, k)).
Proof.
  unfold try_buffer. intros H. apply bind_Ok in H as ([it q] & Hq & H). apply bhs_best_spec in Hq as [_ HF].
  assert (same_machine c (set_base (set_buf i q (base c)) c)) as Hs.
  { apply set_buf_machine. clear H. induction HF as [|r r' l l' (r1 & sp & Hr & ->) _ IH]; [done|].
    cbn. rewrite IH. f_equal. apply with_preq_Ok in Hr as [Hk _]. unfold rident. rewrite <- Hk. done. }
  destruct it as [k|].
  - apply bind_Ok in H as (r & [_ Hr]%vget_Ok & H). apply bind_Ok in H as (ready & Hrd & H). rewrite Nat2Z.id in Hr.
    injection H as <- <-. split; [done|]. destruct ready; [|by split].
    split; [|done]. intros l k' [= <- <-]. exists r. cbn [get_loc base set_base]. rewrite get_set_same. split; [done|].
    destruct (Forall2_lookup_r _ _ _ _ _ HF Hr) as (r0 & _ & r1 & sp & [_ Hp]%with_preq_Ok & ->).
    destruct (fits p _ _) eqn:Hf; [|done]. split; [exact Hp|]. split; [exact Hrd|]. by apply Z.ltb_lt in Hf.
  - injection H as <- <-. by split.
Qed.

Lemma head_preq dv r r1 l k : with_preq dv r = Ok r1 ->
  rident <$> alter (set_command (command r1)) 0%nat (r :: l) = rident <$> (r :: l) /\
  (alter (set_command (command r1)) 0%nat (r :: l) !! k = Some r1 \/ k <> 0%nat) /\
  dram_get_preq_command (final_command r1) (addr_vec r1) dv = Ok (command r1).
Proof.
  intros Hr. unfold with_preq in Hr. apply bind_Ok in Hr as (cm & Hc & Hr). injection Hr as <-.
  split; [done|]. split; [destruct k; [by left|by right]|done].
Qed.

Lemma prac_try_priority_spec dv r l c ok c' : buffer (m_priority_buffer (base c)) = r :: l ->
  try_priority p dv r c = Ok (ok, c') ->
  same_machine c c' /\ (ok = true -> found_ok dv (Some (LBuf BPriority, 0%nat)) c').
Proof.
  intros E H. unfold try_priority in H. apply bind_Ok in H as (r1 & Hr1 & H). apply bind_Ok in H as (ready & Hrd & H).
  injection H as <- <-. destruct (head_preq dv r r1 l 0 Hr1) as (Hi & [Hk|] & Hp); [|done].
  split; [apply set_buf_machine; cbn [buffer buf_update get_buf]; by rewrite E|].
  intros -> x k [= <- <-]. exists r1. cbn [get_loc base set_base get_buf m_priority_buffer set_buf buffer buf_update].
  rewrite E. split; [exact Hk|]. destruct (fits p _ _) eqn:Hf; [|done].
  split; [exact Hp|]. split; [exact Hrd|]. by apply Z.ltb_lt in Hf.
Qed.

Lemma try_prac_spec dv r l c ok c' : buffer (m_prac_buffer c) = r :: l -> try_prac su dv r c = Ok (ok, c') ->
  same_machine c c' /\ base c' = base c /\ (ok = true -> found_ok dv (Some (LPrac, 0%nat)) c').
Proof.
  intros E H. unfold try_prac in H. apply bind_Ok in H as (r1 & Hr1 & H). apply bind_Ok in H as (ready & Hrd & H).
  injection H as <- <-. destruct (head_preq dv r r1 l 0 Hr1) as (Hi & [Hk|] & Hp); [|done].
  split; [split; [done|done|]; intros [|j]; [|done]; cbn [get_loc m_prac_buffer set_prac_buffer buf_update buffer]; by rewrite E|].
  split; [done|]. intros -> x k [= <- <-]. exists r1. cbn [get_loc m_prac_buffer set_prac_buffer buf_update buffer].
  rewrite E. split; [exact Hk|]. destruct (_ && _) eqn:Hb; [done|]. split; [exact Hp|]. split; [exact Hrd|].
  split; [done|]. cbn [m_prac set_prac_buffer] in *. intros Hc Hst.
  rewrite Hc, Z.eqb_refl in Hb. by rewrite bool_decide_eq_true_2 in Hb.
Qed.

Lemma after_prac_spec dv b c found c' : (b = true -> found_ok dv (Some (LPrac, 0%nat)) c) ->
  after_prac cf p dv b c = Ok (found, c') ->
  same_machine c c' /\ found_ok dv found c' /\
  (forall k, found = Some (LPrac, k) -> buffer (m_priority_buffer (base c)) = []).
Proof.
  intros Hb H. unfold after_prac in H. destruct (buffer (m_priority_buffer (base c))) as [|r l] eqn:E.
  - destruct b.
    + injection H as <- <-. split; [apply same_machine_refl|]. split; [by apply Hb|done].
    + unfold try_rw in H. apply prac_try_buffer_spec in H as (Hs & Hf & Hn). split; [|split; [done|done]].
      eapply same_machine_trans; [|exact Hs]. unfold set_write_mode. repeat case_match; split; try done; by intros [|[]].
  - apply bind_Ok in H as ([ok c1] & H1 & H). injection H as <- <-.
    apply (prac_try_priority_spec _ _ _ _ _ _ E) in H1 as [Hs Hok]. split; [done|]. destruct ok; [|by split].
    split; [by apply Hok|]. by intros k [=].
Qed.

Lemma prac_find_spec dv c found c' : find_request cf p su dv c = Ok (found, c') ->
  same_machine c c' /\ found_ok dv found c' /\
  (forall k, found = Some (LPrac, k) -> buffer (m_priority_buffer (base c)) = []).
Proof.
  unfold find_request. intros H. apply bind_Ok in H as ([f1 c1] & H1 & H).
  assert (m_priority_buffer (base c1) = m_priority_buffer (base c)) as Ep.
  { unfold try_buffer in H1. apply bind_Ok in H1 as ([it q] & _ & H1). destruct it.
    - apply bind_Ok in H1 as (r & _ & H1). apply bind_Ok in H1 as (rd & _ & H1). by injection H1 as _ <-.
    - by injection H1 as _ <-. }
  apply prac_try_buffer_spec in H1 as (Hs1 & Hf1 & Hn1). destruct f1 as [x|].
  { injection H as <- <-. split; [done|]. split; [done|]. intros k [= ->]. by destruct (Hn1 k). }
  destruct (buffer (m_prac_buffer c1)) as [|r l] eqn:E.
  - apply after_prac_spec in H as (Hs & Hf & Hn); [|done]. split; [by eapply same_machine_trans|]. rewrite <- Ep. done.
  - apply bind_Ok in H as ([ok c2] & H2 & H). apply (try_prac_spec _ _ _ _ _ _ E) in H2 as (Hs2 & Eb & Hok).
    assert (same_machine c c2) as Hs by (by eapply same_machine_trans). destruct ok.
    + apply after_prac_spec in H as (Hs3 & Hf & Hn); [|done]. split; [by eapply same_machine_trans|].
      split; [done|]. intros k Hk. rewrite <- Ep, <- Eb. by eapply Hn.
    + injection H as <- <-. by split.
Qed.

Lemma prac_schedule_spec dv c found c' : schedule_request cf p su dv c = Ok (found, c') ->
  same_machine c c' /\ found_ok dv found c' /\
  (forall k, found = Some (LPrac, k) -> buffer (m_priority_buffer (base c)) = []).
Proof.
  unfold schedule_request. intros H. apply bind_Ok in H as ([f1 c1] & H1 & H).
  apply prac_find_spec in H1 as (Hs & Hf & Hn). destruct f1 as [[l k]|]; [|by injection H as <- <-].
  apply bind_Ok in H as (r & _ & H). apply bind_Ok in H as (meta & _ & H). apply bind_Ok in H as (b & _ & H).
  destruct b; [injection H as <- <-; by split|]. apply bind_Ok in H as (st & _ & H). injection H as <- <-.
  split; [|by split]. destruct Hs as [Hs1 Hs2 Hs3]. split; [done|done|]. intros [|i]; [exact (Hs3 LPrac)|exact (Hs3 (LBuf i))].
Qed.

(** The recovery buffer only holds PREA and RFMab requests. *)
Definition recovery_final (f : Z) : Prop :=
  f = final_command (m_prea_template su) \/ f = final_command (m_rfmab_template su).

Definition recovery_wf (c : t) : Prop := Forall recovery_final (final_command <$> buffer (m_prac_buffer c)).

Lemma enqueue_ranks_spec tmpl ranks : forall q q', recovery_final (final_command tmpl) ->
  enqueue_ranks su tmpl ranks q = Ok q' -> Forall recovery_final (final_command <$> buffer q) ->
  Forall recovery_final (final_command <$> buffer q').
Proof.
  induction ranks as [|i ranks IH]; cbn [enqueue_ranks]; intros q q' Ht H Hq; [by injection H as <-|].
  apply bind_Ok in H as (av & _ & H). apply (IH _ _ Ht H). unfold enqueue. destruct (_ <=? _); [|done].
  cbn. rewrite fmap_app. apply Forall_app. split; [done|]. by constructor.
Qed.

Lemma enqueue_rfms_spec n : forall q q', enqueue_rfms su n q = Ok q' ->
  Forall recovery_final (final_command <$> buffer q) -> Forall recovery_final (final_command <$> buffer q').
Proof.
  induction n as [|n IH]; cbn [enqueue_rfms]; intros q q' H Hq; [by injection H as <-|].
  apply bind_Ok in H as (q1 & H1 & H). apply (IH _ _ H). apply (enqueue_ranks_spec _ _ _ _ (or_intror eq_refl) H1 Hq).
Qed.

Lemma prepare_recovery_spec c c' : prepare_recovery p su c = Ok c' ->
  base c' = base c /\ m_prac c' = m_prac c /\ (recovery_wf c -> recovery_wf c').
Proof.
  unfold prepare_recovery. intros H. destruct (_ && _); [|by injection H as <-].
  apply bind_Ok in H as (q1 & H1 & H). apply bind_Ok in H as (q2 & H2 & H). injection H as <-.
  split; [done|]. split; [done|]. intros Hq. apply (enqueue_rfms_spec _ _ _ H2).
  apply (enqueue_ranks_spec _ _ _ _ (or_introl eq_refl) H1 Hq).
Qed.

Lemma prac_plugins_spec r c c' : plugins_update p r c = Ok c' ->
  m_prac_buffer c' = m_prac_buffer c /\
  forall i k q, buffer (get_buf i (base c)) !! k = Some q -> buffer (get_buf i (base c')) !! k = Some q.
Proof.
  unfold plugins_update. intros H. apply bind_Ok in H as (b & Hb & H). apply bind_Ok in H as (pr & _ & H).
  apply bind_Ok in H as ([ps b2] & Hu & H). injection H as <-. split; [done|]. cbn [base]. intros i k q Hq.
  apply plugins_on_spec in Hb as (b1 & Ha & E). apply (update_plugins_spec (fun _ => True)) in Hu as (l2 & Ha2 & _);
    [|done|done]. eapply adds_lookup; [exact Ha2|]. rewrite E.
  replace (get_buf i (set_plugins (m_plugins b) b1)) with (get_buf i b1) by (by destruct i). by eapply adds_lookup.
Qed.

Lemma Forall_delete {A} (P : A -> Prop) (l : list A) k : Forall P l -> Forall P (delete k l).
Proof. intros H. revert k. induction H as [|x l Hx H IH]; intros [|k]; cbn; [constructor|constructor|done|by constructor]. Qed.

Lemma prac_issue_spec dv l k r c dv' c' : buffer (get_loc l c) !! k = Some r -> issue dv l k c = Ok (dv', c') ->
  dram_issue_command (command r) (addr_vec r) dv = Ok dv' /\ (recovery_wf c -> recovery_wf c').
Proof.
  intros Hr H. destruct l as [|i]; cbn [issue get_loc] in *.
  - apply bind_Ok in H as (r0 & [_ Hr0]%vget_Ok & H). rewrite Nat2Z.id, Hr in Hr0. injection Hr0 as <-.
    apply bind_Ok in H as (dv1 & Hd & H).
    assert (recovery_wf c -> Forall recovery_final (final_command <$> buffer (remove k (m_prac_buffer c)))) as Hrm.
    { unfold recovery_wf, remove. cbn. rewrite !list.Forall_fmap. apply Forall_delete. }
    destruct (_ =? _); [by injection H as <- <-|]. apply bind_Ok in H as (meta & _ & H).
    destruct (is_opening meta); by injection H as <- <-.
  - apply bind_Ok in H as ([dv1 b] & Hi & H). injection H as <- <-.
    apply (base_issue_spec dv i k (base c) r) in Hi as [Hd _]; [|done]. done.
Qed.

(** The clock advances by one before the choice; the PRAC plugin is not yet updated. *)
Lemma begin_cycle_spec c dn c1 : begin_cycle cf p su c = Ok (dn, c1) ->
  m_prac c1 = m_prac c /\ m_clk (base c1) = m_clk (base c) + 1 /\ (recovery_wf c -> recovery_wf c1).
Proof.
  unfold begin_cycle. cbv zeta. cbn [base next_cycle]. destruct (base_serve _) as [dn1 b1] eqn:H1. intros H.
  assert (m_clk b1 = m_clk (base c) + 1) as Hclk.
  { unfold base_serve in H1. cbn [pending set_clk m_clk] in H1. destruct (pending (base c)); [by injection H1 as _ <-|].
    destruct (_ <=? _); by injection H1 as _ <-. }
  apply bind_Ok in H as (b2 & H2 & H). apply refresh_tick_spec in H2 as (l2 & Ha2 & _).
  apply bind_Ok in H as (c3 & H3 & H). injection H as _ <-. apply prepare_recovery_spec in H3 as (E3 & P3 & W3).
  cbn in E3, P3. split; [done|]. split; [|exact W3]. by rewrite E3, (ap_clk _ _ _ Ha2).
Qed.

(** What a tick issues: a request of the state in which it chooses. *)
Definition tick_issues (dv : dev) (c1 : t) (dv' : dev) : Prop :=
  dv' = dv \/ exists l k r0 r, buffer (get_loc l c1) !! k = Some r0 /\ rident r0 = rident r /\
    may_issue dv c1 l k r /\ dram_issue_command (command r) (addr_vec r) dv = Ok dv'.

Lemma prac_tick_spec dv c dn dv' c' : tick cf p su dv c = Ok (dn, dv', c') ->
  exists c1, begin_cycle cf p su c = Ok (dn, c1) /\ tick_issues dv c1 dv' /\ (recovery_wf c1 -> recovery_wf c').
Proof.
  unfold tick. intros H. apply bind_Ok in H as ([dn1 c1] & H1 & H). exists c1.
  apply bind_Ok in H as ([found c4] & H4 & H). apply prac_schedule_spec in H4 as (Hs4 & Hf4 & _).
  apply bind_Ok in H as (r & _ & H). apply bind_Ok in H as (b5 & H5 & H). apply rowpolicy_on_spec in H5 as (l5 & Ha5 & _).
  apply bind_Ok in H as (c6 & H6 & H). apply prac_plugins_spec in H6 as (E6 & Hb6).
  assert (recovery_wf c1 -> recovery_wf c6) as W6.
  { unfold recovery_wf. rewrite E6. cbn. by rewrite (sm_finals _ _ Hs4). }
  destruct found as [[l k]|]; [|injection H as <- <- <-; split; [done|]; by split; [left|]].
  destruct (Hf4 l k eq_refl) as (q & Hq & Hm). apply bind_Ok in H as ([dvx cx] & Hi & H). injection H as <- <- <-.
  assert (buffer (get_loc l c6) !! k = Some q) as Hq6.
  { destruct l as [|i]; cbn [get_loc] in *; [by rewrite E6|]. apply Hb6. cbn. by eapply adds_lookup. }
  apply (prac_issue_spec _ _ _ _ _ _ _ Hq6) in Hi as [Hd W7]. split; [exact H1|]. split; [|by intros W%W6%W7].
  destruct (sm_lookup _ _ _ _ _ Hs4 Hq) as (r0 & Hr0 & Hid). right. exists l, k, r0, q.
  split; [done|]. split; [done|]. split; [|done]. unfold may_issue in *.
  by rewrite <- (sm_prac _ _ Hs4), <- (sm_clk _ _ Hs4).
Qed.
End Prac.

Definition prac_controller `{D : IDRAM} `{Sch : !IBHScheduler} `{ORD : IterOrder} (bank : Z) (low high : spec_float)
    (p : PRAC.Config) (su : Z -> PRACDRAMController.Setup) : IBHController := {|
  bhc_state := PRACDRAMController.t;
  bhc_send := PRACDRAMController.send;
  bhc_tick := fun channel => PRACDRAMController.tick (mkCtrlConfig channel bank low high) p (su channel);
|}.

(** ** The controllers of the repository behind the interface

    [BHDRAMController] with any scheduler and [PRACDRAMController] with any
    scheduler, plugins and parameters. *)
Inductive shipped_controller `{D : IDRAM} : IBHController -> Prop :=
| shipped_bh (Sch : IScheduler) bank low high : shipped_controller (bh_controller (Sch := Sch) bank low high)
| shipped_prac (Sch : IBHScheduler) (ORD : IterOrder) bank low high p su :
    shipped_controller (prac_controller (Sch := Sch) (ORD := ORD) bank low high p su).

(** A cycle of either changes the device by at most one command, which was ready. *)
Lemma shipped_tick_ready `{D : IDRAM} (C : IBHController) channel dv c dn dv' c' :
  shipped_controller C -> bhc_tick channel dv c = Ok (dn, dv', c') ->
  dv' = dv \/ exists r, dram_check_ready (command r) (addr_vec r) dv = Ok true /\
    dram_issue_command (command r) (addr_vec r) dv = Ok dv'.
Proof.
  intros HC. revert c c'. destruct HC as [Sch bank low high|Sch ORD bank low high p su]; intros c c'.
  - intros [_ Hi _]%bh_tick_spec. destruct Hi as [->|(r & [Hr _] & Hd & _)]; [by left|right]. by exists r.
  - intros (c1 & _ & [->|(l & k & r0 & r & _ & _ & (_ & Hr & _) & Hd)] & _)%prac_tick_spec; [by left|right]. by exists r.
Qed.

(** ** The plan of a recovery *)
Section Plan.
Context `{D : IDRAM} `{Sch : !IBHScheduler} `{ORD : IterOrder} (p : PRAC.Config) (su : PRACDRAMController.Setup).
Import PRACDRAMController.

Definition with_rank (tmpl : Request) (i : Z) : Request :=
  set_addr_vec (<[Z.to_nat (m_rank_level su) := i]> (addr_vec tmpl)) tmpl.

Definition for_ranks (tmpl : Request) : list Request := with_rank tmpl <$> seqZ 0 (m_num_ranks su).

(** All ranks are precharged, then [n] rounds of RFMab over all ranks. *)
Definition plan (n : nat) : list Request :=
  for_ranks (m_prea_template su) ++ mjoin (replicate n (for_ranks (m_rfmab_template su))).

Definition has_rank (tmpl : Request) : Prop := 0 <= m_rank_level su < Z.of_nat (length (addr_vec tmpl)).

Lemma enqueue_ranks_room tmpl ranks : forall q, has_rank tmpl ->
  buf_size q + Z.of_nat (length ranks) <= max_size q + 1 ->
  enqueue_ranks su tmpl ranks q = Ok (mkReqBuffer (buffer q ++ (with_rank tmpl <$> ranks)) (max_size q)).
Proof.
  induction ranks as [|i ranks IH]; intros q Ht Hq; cbn [enqueue_ranks fmap list_fmap].
  { rewrite app_nil_r. by destruct q. }
  unfold vset. rewrite bool_decide_eq_true_2 by exact Ht. rewrite bind_Ok_l. cbn [length] in Hq. unfold enqueue.
  rewrite (proj2 (Z.leb_le _ _)) by lia. cbn [snd]. rewrite IH; [|done|].
  - cbn [buffer max_size]. by rewrite <- app_assoc.
  - unfold buf_size in *. cbn [buffer max_size]. rewrite length_app. cbn. lia.
Qed.

Lemma enqueue_rfms_room n : forall q, has_rank (m_rfmab_template su) -> 0 <= m_num_ranks su ->
  buf_size q + Z.of_nat n * m_num_ranks su <= max_size q + 1 ->
  enqueue_rfms su n q = Ok (mkReqBuffer (buffer q ++ mjoin (replicate n (for_ranks (m_rfmab_template su)))) (max_size q)).
Proof.
  induction n as [|n IH]; intros q Ht Hr Hq; cbn [enqueue_rfms].
  { cbn. rewrite app_nil_r. by destruct q. }
  rewrite enqueue_ranks_room by (done || rewrite length_seqZ; nia). rewrite bind_Ok_l, IH; [|done|done|].
  - cbn [buffer max_size replicate]. change (mjoin (?x :: ?l)) with (x ++ mjoin l). by rewrite <- app_assoc.
  - unfold buf_size in *. cbn [buffer max_size]. rewrite length_app, length_fmap, length_seqZ. nia.
Qed.

Lemma prepare_recovery_plan c : has_rank (m_prea_template su) -> has_rank (m_rfmab_template su) -> 0 <= m_num_ranks su ->
  let n := Z.to_nat (PRAC.get_num_abo_recovery_refs p) in
  buffer (m_prac_buffer c) = [] -> (1 + Z.of_nat n) * m_num_ranks su <= max_size (m_prac_buffer c) + 1 ->
  prepare_recovery p su c =
  Ok (if PRAC.next_recovery_cycle (m_prac c) - m_clk (base c) <=? m_nRP su + 5
      then set_prac_buffer (mkReqBuffer (plan n) (max_size (m_prac_buffer c))) c else c).
Proof.
  intros Hp Hf Hr n He Hsz. unfold prepare_recovery. unfold buf_size at 1. rewrite He. cbn [length].
  rewrite andb_true_r. destruct (_ <=? _); [|done].
  rewrite enqueue_ranks_room; [|done|unfold buf_size; rewrite He, length_seqZ; cbn; nia].
  rewrite bind_Ok_l, He. fold n. rewrite enqueue_rfms_room; [done|done|done|].
  unfold buf_size. cbn [buffer max_size]. rewrite length_app, length_fmap, length_seqZ. cbn. nia.
Qed.
End Plan.

(** ** Properties *)

(** The BH controller keeps the contract of the generic one: a
    cycle issues at most one command, which the device accepts, which is the
    prerequisite of the request it serves and which closes no row that an
    active request waits for; and no request is lost or duplicated while the
    active buffer has room. *)
Theorem bh_controller_contract `{D : IDRAM} `{Sch : !IScheduler} cf dv c dn dv' c' :
  BHDRAMController.tick cf dv c = Ok (dn, dv', c') ->
  let b := BHDRAMController.base c in
  (dv' = dv \/ exists r, issuable dv r /\ dram_issue_command (command r) (addr_vec r) dv = Ok dv' /\ spares_active cf b r) /\
  dn = completed b /\
  (buf_size (m_active_buffer b) <= max_size (m_active_buffer b) ->
   exists q new,
     scheduled dv (live b ++ new)%list q dv' /\
     (live (BHDRAMController.base c') ++ (rkey <$> option_list dn) ++ finished q)%list ≡ₚ
       (live b ++ new ++ sent_by b q new)%list /\
     Forall (fun r => type_id r = rf_ref_req_id (m_refresh b) \/ Some (type_id r) = policy_req_id b) new).
Proof. intros [Hp Hi Hl]%bh_tick_spec. done. Qed.

(** Property C30.  The PRAC controller, with any scheduler, respects a recovery
    that is announced for cycle [next_recovery_cycle].  Let [c1] be its state
    when it chooses a request, after the completed read, the refresh manager and
    the preparation of a recovery.  It issues nothing, or it issues for one
    request of [c1] the prerequisite of the request's final command, which is
    ready.  If the request is in the active, priority, read or write buffer,
    the command and the precharge that follows end before the recovery; only
    the head of the recovery buffer is exempt, which is a PREA or RFMab of the
    recovery, and its RFMab does not precede the start of the recovery.  The
    recovery buffer never holds anything else. *)
Theorem prac_controller_respects_recovery `{D : IDRAM} `{Sch : !IBHScheduler} `{ORD : IterOrder} cf p su dv c dn dv' c' :
  PRACDRAMController.tick cf p su dv c = Ok (dn, dv', c') -> recovery_wf su c ->
  recovery_wf su c' /\
  exists c1, PRACDRAMController.begin_cycle cf p su c = Ok (dn, c1) /\
    (dv' = dv \/ exists l k r0 r,
       buffer (PRACDRAMController.get_loc l c1) !! k = Some r0 /\ rident r0 = rident r /\
       dram_get_preq_command (final_command r) (addr_vec r) dv = Ok (command r) /\
       dram_check_ready (command r) (addr_vec r) dv = Ok true /\
       dram_issue_command (command r) (addr_vec r) dv = Ok dv' /\
       match l with
       | PRACDRAMController.LBuf _ =>
           m_clk (PRACDRAMController.base c) + 1 + PRAC.min_cycles_with_preall p r <
             PRAC.next_recovery_cycle (PRACDRAMController.m_prac c)
       | PRACDRAMController.LPrac =>
           k = 0%nat /\ recovery_final su (final_command r) /\
           (command r = PRACDRAMController.m_rfmab_id su ->
            PRAC.get_state (PRACDRAMController.m_prac c) <> PRAC.PRE_RECOVERY)
       end).
Proof.
  intros (c1 & H1 & Hi & Hw)%prac_tick_spec W. destruct (begin_cycle_spec _ _ _ _ _ _ H1) as (Hp & Hc & W1).
  split; [by apply Hw, W1|]. exists c1. split; [done|].
  destruct Hi as [?|(l & k & r0 & r & Hr0 & Hid & (Hpre & Hrd & Hl) & Hd)]; [by left|right].
  exists l, k, r0, r. do 5 (split; [done|]). rewrite Hp, Hc in Hl. destruct l as [|i]; [|exact Hl].
  destruct Hl as [-> Hl]. split; [done|]. split; [|exact Hl]. apply W1 in W. unfold recovery_wf in W.
  rewrite list.Forall_fmap, list.Forall_lookup in W. apply W in Hr0. cbn in Hr0.
  by replace (final_command r) with (final_command r0) by (by apply (f_equal final_command) in Hid).
Qed.

(** The plan of a recovery: when at most [nRP + 5] cycles remain
    and no recovery is prepared, the recovery buffer receives one PREA for
    every rank and then as many rounds of RFMab over all ranks as the plugin
    asks for, in this order, provided they fit; otherwise nothing changes. *)
Theorem prac_recovery_plan `{D : IDRAM} `{Sch : !IBHScheduler} `{ORD : IterOrder} p su (c : PRACDRAMController.t) :
  has_rank su (PRACDRAMController.m_prea_template su) -> has_rank su (PRACDRAMController.m_rfmab_template su) ->
  0 <= PRACDRAMController.m_num_ranks su -> buffer (PRACDRAMController.m_prac_buffer c) = [] ->
  let n := Z.to_nat (PRAC.get_num_abo_recovery_refs p) in
  (1 + Z.of_nat n) * PRACDRAMController.m_num_ranks su <= max_size (PRACDRAMController.m_prac_buffer c) + 1 ->
  PRACDRAMController.prepare_recovery p su c =
  Ok (if PRAC.next_recovery_cycle (PRACDRAMController.m_prac c) - m_clk (PRACDRAMController.base c) <=?
         PRACDRAMController.m_nRP su + 5
      then PRACDRAMController.set_prac_buffer
             (mkReqBuffer (plan su n) (max_size (PRACDRAMController.m_prac_buffer c))) c
      else c).
Proof. intros Hp Hf Hr He n Hsz. by apply prepare_recovery_plan. Qed.

(** The head of the recovery buffer is never scheduled while the priority buffer
    holds a request: a ready PREA or RFMab is overwritten by the choice from
    the priority buffer. *)
Theorem prac_priority_shadows_recovery `{D : IDRAM} `{Sch : !IBHScheduler} `{ORD : IterOrder} cf p su dv c k c' :
  PRACDRAMController.schedule_request cf p su dv c = Ok (Some (PRACDRAMController.LPrac, k), c') ->
  buffer (m_priority_buffer (PRACDRAMController.base c)) = [].
Proof. intros (_ & _ & H)%prac_schedule_spec. by eapply H. Qed.

(** *** Witnesses: a DDR5 device with PRAC whose threshold is one activation *)
Definition abo_dev : Dev.Device * Dev.State := example (DDR5VRR.std 2 2 (-1) true) "DDR5_16Gb_x8"%string "DDR5_3200AN"%string.
Definition abo_dram : IDRAM := std_dram (DDR5VRR.std 2 2 (-1) true) abo_dev.1.
Definition abo_cf : CtrlConfig := mkCtrlConfig 0 3 wr_low wr_high.
Definition abo_prac : PRAC.Config * PRAC.State := from_res (no_config, no_state) (PRAC.setup (D := abo_dram) 1 1 200 1).
Definition abo_setup : PRACDRAMController.Setup :=
  from_res (PRACDRAMController.mkSetup blank_request blank_request 0 0 0 0) (PRACDRAMController.setup (D := abo_dram) abo_cf).
#[local] Instance abo_sched : IBHScheduler (D := abo_dram) := prac_scheduler (D := abo_dram) abo_prac.1.
Definition abo_ctrl_t : Type := PRACDRAMController.t (D := abo_dram) (Sch := abo_sched).
Definition abo_new : abo_ctrl_t :=
  PRACDRAMController.new (D := abo_dram) 1 (from_res (mkRefresh 0 0 0 0 0) (refresh_setup (D := abo_dram))) OpenRowPolicy [] [] abo_prac.2 0.
Definition abo_read (row : Z) : Request :=
  set_addr_vec [0; 0; 0; 0; row; 0] (Request_addr_type_source (row * 64) ReqType.Read 0).
Definition abo_sent : abo_ctrl_t :=
  foldl (fun c row => match PRACDRAMController.send (D := abo_dram) (abo_read row) c with Ok (_, _, c) => c | Err _ => c end)
    abo_new [1; 2; 1].

Fixpoint abo_run (n : nat) (x : @dev abo_dram * abo_ctrl_t) : res (@dev abo_dram * abo_ctrl_t) :=
  match n with
  | O => Ok x
  | Datatypes.S n =>
      dv ← dram_tick (IDRAM := abo_dram) x.1;
      '(_, dv, c) ← PRACDRAMController.tick (D := abo_dram) abo_cf abo_prac.1 abo_setup dv x.2;
      abo_run n (dv, c)
  end.

Lemma abo_run_wf n : forall x x', abo_run n x = Ok x' -> recovery_wf abo_setup x.2 -> recovery_wf abo_setup x'.2.
Proof.
  induction n as [|n IH]; cbn [abo_run]; intros x x' H W; [by injection H as <-|].
  apply bind_Ok in H as (dv & _ & H). apply bind_Ok in H as ([[dn dv1] c1] & H1 & H).
  apply (IH _ _ H). cbn. apply (prac_tick_spec (D := abo_dram)) in H1 as (c2 & H2 & _ & Hw).
  by apply Hw, (begin_cycle_spec (D := abo_dram) _ _ _ _ _ _ H2).
Qed.

Lemma abo_sent_wf : recovery_wf abo_setup abo_sent.
Proof.
  assert (buffer (PRACDRAMController.m_prac_buffer abo_sent) = []) as E by (vm_compute; reflexivity).
  unfold recovery_wf. rewrite E. constructor.
Qed.

(** The cycle in which the recovery starts. *)
Definition abo_before : @dev abo_dram * abo_ctrl_t :=
  from_res (abo_dev.2, abo_sent) (abo_run 322 (abo_dev.2, abo_sent)).

Lemma abo_before_run : abo_run 322 (abo_dev.2, abo_sent) = Ok abo_before.
Proof. apply from_res_Ok. vm_compute. reflexivity. Qed.

Lemma prac_controller_respects_recovery_witness :
  exists dn dv' c', PRACDRAMController.tick (D := abo_dram) abo_cf abo_prac.1 abo_setup abo_before.1 abo_before.2 = Ok (dn, dv', c') /\
    PRAC.get_state (PRACDRAMController.m_prac abo_before.2) = PRAC.RECOVERY /\ recovery_wf abo_setup c'.
Proof.
  assert (ok_b (PRACDRAMController.tick (D := abo_dram) abo_cf abo_prac.1 abo_setup abo_before.1 abo_before.2) = true) as Hok
    by (vm_compute; reflexivity).
  destruct (PRACDRAMController.tick abo_cf abo_prac.1 abo_setup abo_before.1 abo_before.2) as [[[dn dv'] c']|] eqn:E; [|discriminate Hok].
  exists dn, dv', c'. split; [reflexivity|]. split; [vm_compute; reflexivity|].
  apply (prac_controller_respects_recovery (D := abo_dram) abo_cf abo_prac.1 abo_setup abo_before.1 abo_before.2 dn dv' c' E).
  exact (abo_run_wf 322 (abo_dev.2, abo_sent) abo_before abo_before_run abo_sent_wf).
Defined.

(** 63 cycles before the recovery: nRP is 58. *)
Definition abo_warned : abo_ctrl_t := (from_res (abo_dev.2, abo_sent) (abo_run 258 (abo_dev.2, abo_sent))).2.

Lemma prac_recovery_plan_witness :
  exists c', PRACDRAMController.prepare_recovery abo_prac.1 abo_setup
      (PRACDRAMController.next_cycle abo_warned) = Ok c' /\
    command <$> buffer (PRACDRAMController.m_prac_buffer c') = [2; 12].
Proof.
  eexists. split.
  - apply (prac_recovery_plan (D := abo_dram) abo_prac.1 abo_setup (PRACDRAMController.next_cycle abo_warned)).
    + vm_compute. split; congruence.
    + vm_compute. split; congruence.
    + vm_compute. congruence.
    + vm_compute. reflexivity.
    + vm_compute. congruence.
  - vm_compute. reflexivity.
Defined.

Definition bh_demo : BHDRAMController.t :=
  match BHDRAMController.send (D := DDR4_dram demo_d) demo_req (BHDRAMController.new 8 demo_rf OpenRowPolicy []) with
  | Ok (_, _, c) => c
  | Err _ => BHDRAMController.new 8 demo_rf OpenRowPolicy []
  end.

Lemma bh_controller_contract_witness :
  exists dn dv' c', BHDRAMController.tick (D := DDR4_dram demo_d) (S := FRFCFS_scheduler) demo_cf demo_s bh_demo = Ok (dn, dv', c') /\
    exists q new, (live (BHDRAMController.base c') ++ (rkey <$> option_list dn) ++ finished q)%list ≡ₚ
      (live (BHDRAMController.base bh_demo) ++ new ++ sent_by (D := DDR4_dram demo_d) (BHDRAMController.base bh_demo) q new)%list.
Proof.
  assert (ok_b (BHDRAMController.tick (D := DDR4_dram demo_d) (S := FRFCFS_scheduler) demo_cf demo_s bh_demo) = true) as Hok
    by (vm_compute; reflexivity).
  destruct (BHDRAMController.tick (D := DDR4_dram demo_d) (S := FRFCFS_scheduler) demo_cf demo_s bh_demo) as [[[dn dv'] c']|] eqn:E; [|discriminate Hok].
  exists dn, dv', c'. split; [reflexivity|].
  destruct (bh_controller_contract (D := DDR4_dram demo_d) (Sch := FRFCFS_scheduler) demo_cf demo_s bh_demo dn dv' c' E)
    as (_ & _ & Hl).
  destruct Hl as (q & new & _ & Hp & _); [vm_compute; discriminate|]. exists q, new. exact Hp.
Defined.
