(* ===== verification/BhSystem.v ===== *)
(** * The BH memory system, and the BH simulator as a whole

    Models [memory_system/impl/bh_DRAM_system.cpp] over the interface
    [IBHController], its composition with the frontend [BHO3] in the
    main loop of [main.cpp], and that every run drives the device only with
    commands it reported ready. *)
From Stdlib Require Import String.
From S2P Require Import HBM StandardsFacts.
From S2P Require Import Prelude CxxFloat Utils Request DramSpec DramConfig DramTiming Device DeviceFacts DDR4.
From S2P Require Import DDR4Facts Dram Scheduler Plugin Controller ControllerFacts AddrMapper.
From S2P Require Import MemorySystem MemorySystemFacts SimpleO3 Translation BhLlc BhO3 BhController BhControllerFacts.
Local Open Scope string_scope.
Local Open Scope Z_scope.

Module BHDRAMSystem.
Section System.
Context `{D : IDRAM} `{C : !IBHController} `{M : !IAddrMapper}.

Record t : Type := mk {
  clk : Z;
  dram : dev;
  controllers : list bhc_state;
  stats : SysStats;
}.

(** [c channel] is the controller that [create_child_ifce] makes for a channel. *)
Definition init (c : Z -> bhc_state) (dv : dev) : res t :=
  num_channels ← get_level_size "channel";
  Ok (mk 0 dv (c <$> seqZ 0 num_channels) (mkSysStats 0 0 0)).

(** The request is passed by value. *)
Definition send (req : Request) (s : t) : res (bool * t) :=
  req ← map_apply req;
  channel_id ← vget (addr_vec req) 0;
  c ← vget (controllers s) channel_id;
  '(is_success, req, c) ← bhc_send req c;
  cs ← vset (controllers s) channel_id c;
  st ← (if is_success : bool then count_request (type_id req) (stats s) else Ok (stats s));
  Ok (is_success, mk (clk s) (dram s) cs st).

Fixpoint tick_controllers (channel : Z) (dv : dev) (cs : list bhc_state)
    : res (list Request * dev * list bhc_state) :=
  match cs with
  | [] => Ok ([], dv, [])
  | c :: cs =>
      '(dn, dv, c) ← bhc_tick channel dv c;
      '(dns, dv, cs) ← tick_controllers (channel + 1) dv cs;
      Ok ((option_list dn ++ dns)%list, dv, c :: cs)
  end.

Definition tick (s : t) : res (list Request * t) :=
  dv ← dram_tick (dram s);
  '(dns, dv, cs) ← tick_controllers 0 dv (controllers s);
  Ok (dns, mk (clk s + 1) dv cs (stats s)).

Definition get_dram (s : t) : dev := dram s.

Definition get_tCK : res spec_float := t ← dram_timing "tCK_ps"; Ok (F32.div (F32.of_Z t) (F32.of_Z 1000)).

#[export] Instance bh_memory : IBHMemory := {| bh_state := t; bh_send := send; bh_tick := tick |}.
End System.
End BHDRAMSystem.

(** ** The main loop with the frontend [BHO3] *)
Module BHSim.
Section Sim.
Context `{T : ITranslation} `{M : IBHMemory} (cf : BHO3LLC.Config).

Record t : Type := mk { front : BHO3.t; trans : tr_state; memory : bh_state }.

Definition front_cycle (s : t) : res t :=
  '(f, tr, m) ← BHO3.tick cf (front s) (trans s) (memory s); Ok (mk f tr m).

Definition mem_cycle (s : t) : res t :=
  '(rs, m) ← bh_tick (memory s);
  f ← BHO3.receive_all cf rs (front s);
  Ok (mk f (trans s) m).

(** One iteration [i] of the loop, with whether the simulation is finished. *)
Definition iteration `{IterOrder} (frontend_tick mem_tick i : Z) (s : t) : res (bool * t) :=
  if frontend_tick * mem_tick =? 0 then Err Undef else
  s ← (if SimpleO3.front_ticks frontend_tick mem_tick i then front_cycle s else Ok s);
  if (BHO3.is_finished false (front s)).1 then Ok (true, s)
  else
    s ← (if SimpleO3.mem_ticks frontend_tick mem_tick i then mem_cycle s else Ok s);
    Ok (false, s).

Fixpoint simulate `{IterOrder} (fuel : nat) (frontend_tick mem_tick i : Z) (s : t) : res t :=
  match fuel with
  | O => Err OutOfFuel
  | S fuel =>
      '(finished, s) ← iteration frontend_tick mem_tick i s;
      if finished : bool then Ok s else simulate fuel frontend_tick mem_tick (i + 1) s
  end.

(** The states of the loop. *)
Inductive reach `{IterOrder} (frontend_tick mem_tick : Z) (s0 : t) : Z -> t -> Prop :=
| reach_start : reach frontend_tick mem_tick s0 0 s0
| reach_step i s b s' : reach frontend_tick mem_tick s0 i s ->
    iteration frontend_tick mem_tick i s = Ok (b, s') -> reach frontend_tick mem_tick s0 (i + 1) s'.

Lemma bh_simulate_reach `{ORD : IterOrder} fuel a b s0 : forall i s s', reach a b s0 i s ->
  simulate fuel a b i s = Ok s' -> exists j, reach a b s0 j s' /\ (BHO3.is_finished false (front s')).1 = true.
Proof.
  induction fuel as [|fuel IH]; cbn; intros i s s' Hr H; [done|].
  apply bind_Ok in H as ([fin s1] & H1 & H). pose proof (reach_step a b s0 i s fin s1 Hr H1) as Hr1.
  destruct fin; [injection H as <-|by eapply IH]. exists (i + 1). split; [done|].
  unfold iteration in H1. destruct (_ =? _); [done|]. apply bind_Ok in H1 as (s2 & _ & H1).
  destruct (BHO3.is_finished _ s2.(front)).1 eqn:E; [by injection H1 as <-|].
  by apply bind_Ok in H1 as (s3 & _ & H1).
Qed.

(** An invariant of the memory system is one of the simulation. *)
Section Frame.
Context (P : bh_state -> Prop).
Hypothesis P_send : forall req m ok m', P m -> bh_send req m = Ok (ok, m') -> P m'.
Hypothesis P_tick : forall m rs m', P m -> bh_tick m = Ok (rs, m') -> P m'.

Lemma miss_loop_frame c l : forall m kept m', P m -> BHO3LLC.miss_loop c l m = Ok (kept, m') -> P m'.
Proof.
  induction l as [|[due req] l IH]; cbn; intros m kept m' Hm H; [by injection H as _ <-|].
  destruct (due <=? c).
  - apply bind_Ok in H as ([ok m1] & H1 & H). apply bind_Ok in H as ([k2 m2] & H2 & H). injection H as _ <-.
    eapply IH; [|exact H2]. by eapply P_send.
  - apply bind_Ok in H as ([k2 m2] & H2 & H). injection H as _ <-. by eapply IH.
Qed.

Lemma front_cycle_frame s s' : P (memory s) -> front_cycle s = Ok s' -> P (memory s').
Proof.
  intros Hm H. unfold front_cycle in H. apply bind_Ok in H as ([[f tr] m] & H1 & H). injection H as <-. cbn.
  unfold BHO3.tick in H1. apply bind_Ok in H1 as ([[llc cs] m1] & H2 & H1). apply bind_Ok in H1 as ([[cs2 tr2] llc2] & _ & H1).
  injection H1 as _ _ <-. unfold BHO3LLC.tick in H2. apply bind_Ok in H2 as ([k m2] & H3 & H2).
  apply bind_Ok in H2 as ([h [s2 x2]] & _ & H2). injection H2 as _ _ <-. by eapply miss_loop_frame.
Qed.

Lemma mem_cycle_frame s s' : P (memory s) -> mem_cycle s = Ok s' -> P (memory s').
Proof.
  intros Hm H. unfold mem_cycle in H. apply bind_Ok in H as ([rs m] & H1 & H). apply bind_Ok in H as (f & _ & H).
  injection H as <-. by eapply P_tick.
Qed.

Lemma iteration_frame `{IterOrder} a b i s x s' : P (memory s) -> iteration a b i s = Ok (x, s') -> P (memory s').
Proof.
  intros Hm H1. unfold iteration in H1. destruct (_ =? _); [done|]. apply bind_Ok in H1 as (s1 & H2 & H1).
  assert (P (memory s1)) as Hm1 by (destruct (SimpleO3.front_ticks _ _ _); [by eapply front_cycle_frame|by injection H2 as <-]).
  destruct (BHO3.is_finished _ _).1; [by injection H1 as _ <-|]. apply bind_Ok in H1 as (s2 & H3 & H1).
  injection H1 as _ <-. destruct (SimpleO3.mem_ticks _ _ _); [by eapply mem_cycle_frame|by injection H3 as <-].
Qed.

Lemma reach_frame `{IterOrder} a b s0 i s : P (memory s0) -> reach a b s0 i s -> P (memory s).
Proof. intros H0. induction 1; [done|]. by eapply iteration_frame. Qed.
End Frame.
End Sim.
End BHSim.

(** ** The device under the BH memory system *)
Section Safety.
Context (σ : Standard) (d : Dev.Device).
Context `{C : !IBHController (D := std_dram σ d)} `{M : !IAddrMapper}.
Context (HC : shipped_controller C).
Import BHDRAMSystem.
Notation Sys := (t (D := std_dram σ d)).

(** The device is in a run from [s0] all of whose commands were ready, and its
    clock is the one of the memory system. *)
Record run_ok (s0 : Dev.State) (s : Sys) : Prop := {
  ro_run : exists H, DeviceFacts.reach σ true d s0 (dram s) H;
  ro_clk : Dev.m_clk (dram s) = clk s;
}.

Lemma bh_controllers_run s0 cs : forall channel dv dns dv' cs' H,
  tick_controllers (D := std_dram σ d) channel dv cs = Ok (dns, dv', cs') -> DeviceFacts.reach σ true d s0 dv H ->
  (exists H', DeviceFacts.reach σ true d s0 dv' H') /\ Dev.m_clk dv' = Dev.m_clk dv.
Proof.
  induction cs as [|c cs IH]; cbn [tick_controllers]; intros channel dv dns dv' cs' H E Hr.
  { injection E as _ <- _. eauto. }
  apply bind_Ok in E as ([[dn dv1] c1] & E1 & E). apply bind_Ok in E as ([[dns1 dv2] cs1] & E2 & E).
  injection E as _ <- _.
  assert (exists H1, DeviceFacts.reach σ true d s0 dv1 H1 /\ Dev.m_clk dv1 = Dev.m_clk dv) as (H1 & Hr1 & Hc1).
  { destruct (shipped_tick_ready C _ _ _ _ _ _ HC E1) as [->|(r & Hready & Hcmd)]; [eauto|].
    eexists. split; [|exact (issue_command_clk σ d _ _ _ _ Hcmd)].
    eapply DeviceFacts.reach_issue; [exact Hr|intros _; exact Hready|exact Hcmd]. }
  destruct (IH _ _ _ _ _ _ E2 Hr1) as [? Hc2]. split; [done|congruence].
Qed.

Lemma bh_send_run s0 req s ok s' : run_ok s0 s -> send (D := std_dram σ d) req s = Ok (ok, s') -> run_ok s0 s'.
Proof.
  intros [Hr Hc] H. unfold send in H. apply bind_Ok in H as (r & _ & H). apply bind_Ok in H as (ch & _ & H).
  apply bind_Ok in H as (c & _ & H). apply bind_Ok in H as ([[o r2] c2] & _ & H). apply bind_Ok in H as (cs & _ & H).
  apply bind_Ok in H as (st & _ & H). by injection H as _ <-.
Qed.

Lemma bh_tick_run s0 s rs s' : run_ok s0 s -> tick (D := std_dram σ d) s = Ok (rs, s') -> run_ok s0 s'.
Proof.
  intros [[H Hr] Hc] E. unfold tick in E. apply bind_Ok in E as (dv & Hd & E).
  apply bind_Ok in E as ([[dns dv1] cs] & Hcs & E). injection E as _ <-.
  pose proof (DeviceFacts.reach_tick _ _ _ _ _ _ _ Hr Hd) as Hr1.
  destruct (bh_controllers_run s0 _ _ _ _ _ _ _ Hcs Hr1) as [Hr2 Hk]. split; cbn [dram clk]; [done|].
  rewrite Hk, (device_tick_clk _ _ _ _ Hd). lia.
Qed.

Lemma bh_init_run po pt s0 c s : Dev.init σ po pt = Ok (d, s0) -> init (D := std_dram σ d) c s0 = Ok s -> run_ok s0 s.
Proof.
  intros Hd H. unfold init in H. apply bind_Ok in H as (n & _ & H). injection H as <-.
  split; cbn [dram clk]; [exists []; apply DeviceFacts.reach_init|by eapply init_clk].
Qed.
End Safety.


(** A core with a load and a store and a core that only loads, on the example
    device with the BH controller, until the first has retired twenty
    instructions. *)
Definition bh_demo_ctrl : IBHController (D := DDR4_dram demo_d) :=
  bh_controller (D := DDR4_dram demo_d) (Sch := FRFCFS_scheduler (D := DDR4_dram demo_d)) 3 wr_low wr_high.

Definition bh_demo_memory : IBHMemory :=
  BHDRAMSystem.bh_memory (D := DDR4_dram demo_d) (C := bh_demo_ctrl) (M := ChRaBaRoCo_mapper demo_map).

Definition bh_demo_system : BHDRAMSystem.t (D := DDR4_dram demo_d) (C := bh_demo_ctrl) :=
  from_res (BHDRAMSystem.mk (D := DDR4_dram demo_d) (C := bh_demo_ctrl) 0 demo_s [] (mkSysStats 0 0 0))
    (BHDRAMSystem.init (D := DDR4_dram demo_d) (C := bh_demo_ctrl)
       (fun _ => BHDRAMController.new 2 demo_rf OpenRowPolicy []) demo_s).

Definition bh_demo_options : BHO3.Options := BHO3.mkOptions 4 8 5 "" 4 64 4 512 4 20 100000.

Definition bh_demo_front : BHO3LLC.Config * BHO3.t :=
  from_res (BHO3LLC.mkConfig 0 0 0 0 0 0 0 0 0 0, BHO3.mk 0 (BHO3LLC.new 0) [] 0)
    (BHO3.init bh_demo_options [Some ["3 4096"; "2 8192 64"]] [Some ["1 1048576"; "6 128"]] None).

Definition bh_demo_start : BHSim.t (T := no_translation) (M := bh_demo_memory) :=
  BHSim.mk (T := no_translation) (M := bh_demo_memory) bh_demo_front.2 (NoTranslation.mkState 0) bh_demo_system.

Definition bh_demo_result : res (BHSim.t (T := no_translation) (M := bh_demo_memory)) :=
  BHSim.simulate (T := no_translation) (M := bh_demo_memory) bh_demo_front.1 1000 2 1 0 bh_demo_start.

Lemma bh_demo_result_reach s : bh_demo_result = Ok s ->
  exists j, BHSim.reach (T := no_translation) (M := bh_demo_memory) bh_demo_front.1 2 1 bh_demo_start j s.
Proof.
  unfold bh_demo_result. intros E.
  destruct (BHSim.bh_simulate_reach (T := no_translation) (M := bh_demo_memory) bh_demo_front.1 1000 2 1 bh_demo_start 0
    bh_demo_start s (BHSim.reach_start (T := no_translation) (M := bh_demo_memory) _ 2 1 bh_demo_start) E)
    as (j & Hr & _). by exists j.
Qed.

