(* ===== verification/RowTracker.v ===== *)
(** * What the plugins Hydra, RRS and AQUA share

    Row counters per bank ([m_hot_row_tracker] of RRS and
    [m_aggressor_row_tracker] of AQUA, which treat them alike), the reservation
    of rows in the translation, and the copying of rows column by column. *)
From Stdlib Require Import String.
From S2P Require Import Prelude CxxFloat DramSpec Request Dram Plugin Rit RowHammer Graphene.
Local Open Scope string_scope.
Local Open Scope Z_scope.

(** ** Reserving rows

    [reserve_rows_for_rct] and [reserve_rows_for_aqua]: all addresses below
    [max_addr] in steps of a cache line, in one request object. *)
Section Reserve.
Context {T : Type} (map_apply : Request -> res Request) (reserve : Z -> T -> res T).

Fixpoint reserve_loop (row_level limit : Z) (addrs : list Z) (req : Request) (t : T) : res T :=
  match addrs with
  | [] => Ok t
  | a :: addrs =>
      req ← map_apply (set_addr a req);
      row ← vget (addr_vec req) row_level;
      t ← (if row <? limit then reserve a t else Ok t);
      reserve_loop row_level limit addrs req t
  end.

Definition line_addrs (max_addr : Z) : list Z := (fun i => 64 * i) <$> seqZ 0 ((max_addr + 63) / 64).

Definition reserve_rows (row_level limit max_addr : Z) (t : T) : res T :=
  reserve_loop row_level limit (line_addrs max_addr) (Request_addr_type 0 0) t.
End Reserve.

(** ** The hot-row tracker of a bank

    A Misra-Gries summary with a bounded number of rows.  The result is the
    count of the row, if it is in the table afterwards. *)
Section Tracker.
Context `{IO : !IterOrder}.

Definition track (entries row : Z) (t : gmap Z Z) (spill : Z) : option Z * gmap Z Z * Z :=
  match t !! row with
  | Some n => (Some (n + 1), <[row := n + 1]> t, spill)
  | None =>
      if Z.of_nat (size t) <? u64 entries then (Some 1, <[row := 1]> t, spill)
      else
        match Graphene.find_spill spill t with
        | Some (to_remove, v) => (Some (v + 1), <[row := v + 1]> (delete to_remove t), spill)
        | None => (None, t, spill + 1)
        end
  end.

Record Tracker : Type := mkTracker { tr_tables : list (gmap Z Z); tr_spills : list Z }.

Definition new_tracker (banks : nat) : Tracker := mkTracker (replicate banks ∅) (replicate banks 0).

Definition reset_tracker (tr : Tracker) : Tracker :=
  mkTracker (fmap (fun _ => ∅) (tr_tables tr)) (fmap (fun _ => 0) (tr_spills tr)).

Definition track_bank (entries b row : Z) (tr : Tracker) : res (option Z * Tracker) :=
  t ← vget (tr_tables tr) b;
  spill ← vget (tr_spills tr) b;
  let '(n, t, spill) := track entries row t spill in
  ts ← vset (tr_tables tr) b t;
  sps ← vset (tr_spills tr) b spill;
  Ok (n, mkTracker ts sps).
End Tracker.

(** ** Copying rows *)
Record RowPort : Type := mkRowPort {
  rp_RD_req_id : Z;
  rp_WR_req_id : Z;
  rp_row_level : Z;
  rp_col_level : Z;
  rp_num_cls : Z;
}.

(** One request for each cache line of a row. *)
Definition row_requests (p : RowPort) (ty row : Z) (av : list Z) : res (list Request) :=
  av ← vset av (rp_row_level p) row;
  mapM (fun cl => av ← vset av (rp_col_level p) (Z.shiftl cl 3); Ok (Request_vec_type av ty)) (seqZ 0 (rp_num_cls p)).

Definition row_port `{D : IDRAM} : res RowPort :=
  rd ← def_of_name dram_requests "read";
  wr ← def_of_name dram_requests "write";
  row ← def_of_name dram_levels "row";
  col ← def_of_name dram_levels "column";
  ncol ← get_level_size "column";
  Ok (mkRowPort rd wr row col (Z.quot ncol 8)).

(** [m_clk % m_reset_period_clk == 0] *)
Definition resets (clk period : Z) : res bool := if period =? 0 then Err Undef else Ok (Z.rem clk period =? 0).

(** ** Requests keep their channel *)
Lemma vset_channel (v v' : list Z) i x : vset v i x = Ok v' -> 0 < i -> v' !! 0%nat = v !! 0%nat.
Proof. intros [_ ->]%vset_Ok Hi. apply list_lookup_insert_ne. lia. Qed.

Lemma mapM_Ok {A B} (f : A -> res B) l k : mapM f l = Ok k -> Forall2 (fun x y => f x = Ok y) l k.
Proof.
  revert k. induction l as [|x l IH]; cbn; intros k H; [injection H as <-; constructor|].
  apply bind_Ok in H as (y & Hy & H). apply bind_Ok in H as (k' & Hk & H). injection H as <-. constructor; auto.
Qed.

Lemma row_requests_channel p ty row av reqs : 0 < rp_row_level p -> 0 < rp_col_level p ->
  row_requests p ty row av = Ok reqs -> Forall (fun q => addr_vec q !! 0%nat = av !! 0%nat) reqs.
Proof.
  intros Hr Hc H. unfold row_requests in H. apply bind_Ok in H as (v & Hv & H%mapM_Ok).
  induction H as [|i q l k Hq _ IH]; [constructor|]. constructor; [|done]. apply bind_Ok in Hq as (v2 & Hv2 & Hq).
  injection Hq as <-. cbn. by rewrite (vset_channel _ _ _ _ Hv2), (vset_channel _ _ _ _ Hv).
Qed.
