(* ===== verification/Hydra.v ===== *)
(** * The Hydra plugin: [dram_controller/impl/plugin/hydra.cpp]

    Counters in three levels: a counter per group of rows (GCT), and, once a
    group has reached its threshold, a counter per row (RCT) that lives in
    reserved rows of the device and is cached in the controller (RCC).  The
    activations of the reserved rows are counted separately. *)
From Stdlib Require Import String.
From S2P Require Import Prelude CxxFloat DramSpec Request Dram Plugin Rit RowHammer Graphene RowTracker.
Local Open Scope string_scope.
Local Open Scope Z_scope.

Module Hydra.
Section Hydra.
Context `{D : IDRAM} `{IO : !IterOrder}.

(** [distribution(generator)]: a number from 0 to 15 and the next generator. *)
Context {gen : Type} (draw : gen -> Z * gen).

Record GCT_Entry : Type := mkGCT { group_count : Z; initialized : bool }.

Record Config : Type := mkConfig {
  m_tracking_threshold : Z;
  m_group_threshold : Z;
  m_row_group_size : Z;
  m_rcc_policy : string;
  m_reset_period_clk : Z;
  m_VRR_req_id : Z;
  m_RD_req_id : Z;
  m_WR_req_id : Z;
  m_geo : Geometry;
  m_bank_group_level : Z;
  m_col_level : Z;
  m_num_banks : Z;
  m_row_address_bits : Z;
  m_counter_bits : Z;
  m_gct_index_bits : Z;
  m_rcc_set_num : Z;
  m_rcc_index_bits : Z;
  m_rcc_tag_row_bits : Z;
  m_total_rct_row_size : Z;
  m_rct_per_row : Z;
  m_rct_per_cl : Z;
  m_group_rct_cl_size : Z;
}.

Record Stats : Type := mkStats {
  s_num_vrr : Z;
  s_num_vrr_rct : Z;
  s_num_read_req : Z;
  s_num_write_req : Z;
  s_num_initialization : Z;
  s_num_eviction : Z;
  s_num_rcc_miss : Z;
  s_gct_check : Z;
  s_rcc_check : Z;
  s_rct_check : Z;
  s_rctct_check : Z;
}.

Definition stats_add (x y : Stats) : Stats :=
  mkStats (s_num_vrr x + s_num_vrr y) (s_num_vrr_rct x + s_num_vrr_rct y) (s_num_read_req x + s_num_read_req y)
    (s_num_write_req x + s_num_write_req y) (s_num_initialization x + s_num_initialization y)
    (s_num_eviction x + s_num_eviction y) (s_num_rcc_miss x + s_num_rcc_miss y) (s_gct_check x + s_gct_check y)
    (s_rcc_check x + s_rcc_check y) (s_rct_check x + s_rct_check y) (s_rctct_check x + s_rctct_check y).

Record State : Type := mkState {
  m_clk : Z;
  group_count_table : list (gmap Z GCT_Entry);
  row_count_table : list (gmap Z Z);
  row_count_cache : list (list (gmap Z Z));
  rct_count_table : list (gmap Z Z);
  generator : gen;
  stats : Stats;
}.

(** ** [setup] *)

(** [log2] of an [int], truncated. *)
Definition ilog2 (n : Z) : res Z := if 0 <? n then Ok (Z.log2 n) else Err Undef.
Definition idiv (a b : Z) : res Z := if b =? 0 then Err Undef else Ok (Z.quot a b).

(** [ceil(log2(n) / 8) * 8] *)
Definition counter_bits (n : Z) : res Z := if 0 <? n then Ok (8 * ((Z.log2_up n + 7) / 8)) else Err Undef.

(** [ceil] of a [float], as an [int]. *)
Definition fceil (x : spec_float) : res Z :=
  n ← fto_i32 x; Ok (if flt (F32.of_Z n) x then n + 1 else n).

(** The last step of [setup], the reservation of the rows that hold counters,
    changes the translation and is a definition of its own. *)
Definition setup (tracking_threshold group_threshold row_group_size reset_period_ns rcc_num_per_rank : Z)
    (rcc_policy : string) (g0 : gen) : res (Config * State) :=
  vrr ← vrr_setup;
  tCK ← dram_timing "tCK_ps";
  period ← Graphene.reset_period_clk reset_period_ns tCK;
  g ← geometry;
  port ← row_port;
  bg ← def_of_name dram_levels "bankgroup";
  nb ← get_level_size "bank";
  let rows := g_num_rows_per_bank g in
  row_bits ← ilog2 rows;
  _ ← ilog2 (g_num_banks_per_rank g);
  cbits ← counter_bits tracking_threshold;
  entries ← idiv rows row_group_size;
  gct_bits ← ilog2 entries;
  let sets := Z.quot rcc_num_per_rank 16 in
  idx_bits ← ilog2 sets;
  rct_rows ← fceil (F32.div (F32.of_Z (Z.quot (rows * cbits) 512)) (F32.of_Z (rp_num_cls port)));
  per_row ← idiv (rp_num_cls port * 512) cbits;
  per_cl ← idiv 512 cbits;
  let banks := Z.to_nat (g_num_ranks g * g_num_banks_per_rank g) in
  Ok (mkConfig tracking_threshold group_threshold row_group_size rcc_policy period vrr (rp_RD_req_id port)
        (rp_WR_req_id port) g bg (rp_col_level port) nb row_bits cbits gct_bits sets idx_bits (row_bits - idx_bits)
        rct_rows per_row per_cl (Z.quot (row_group_size * cbits) 512),
      mkState (-1) (replicate banks ∅) (replicate banks ∅)
        (replicate (Z.to_nat (g_num_ranks g)) (replicate (Z.to_nat sets) ∅)) (replicate (banks + banks) ∅) g0
        (mkStats 0 0 0 0 0 0 0 0 0 0 0)).

(** The rows that hold the counters are withdrawn from the translation. *)
Definition reserve_rows_for_rct {T} (map_apply : Request -> res Request) (reserve : Z -> T -> res T)
    (p : Config) (max_addr : Z) (t : T) : res T :=
  reserve_rows map_apply reserve (g_row_level (m_geo p)) (m_total_rct_row_size p) max_addr t.

(** ** Resetting; of the [rct_count_table] only the first half is cleared *)
Definition clear_tables (s : State) : State :=
  let n := List.length (group_count_table s) in
  mkState (m_clk s) ((fun _ : gmap Z GCT_Entry => ∅) <$> group_count_table s)
    ((fun _ : gmap Z Z => ∅) <$> row_count_table s)
    ((fun sets : list (gmap Z Z) => (fun _ : gmap Z Z => ∅) <$> sets) <$> row_count_cache s) (replicate n ∅ ++ drop n (rct_count_table s))%list
    (generator s) (stats s).

Definition tick (p : Config) (s : State) : res State :=
  if 2 ^ 31 - 1 <=? m_clk s then Err Undef
  else
    let s := mkState (m_clk s + 1) (group_count_table s) (row_count_table s) (row_count_cache s)
               (rct_count_table s) (generator s) (stats s) in
    r ← resets (m_clk s) (m_reset_period_clk p);
    Ok (if r : bool then clear_tables s else s).

(** ** Where the counters of a row are *)
Record Where : Type := mkWhere { flat_bank_id : Z; rank_id : Z; row_id : Z; gct_index : Z; rcc_index : Z; rcc_tag : Z }.

Definition tag_of (p : Config) (bank row : Z) : Z :=
  Z.lor (Z.shiftr row (m_row_address_bits p - m_rcc_tag_row_bits p)) (u32 (Z.shiftl bank (m_rcc_tag_row_bits p))).

Definition locate (p : Config) (r : Request) : res Where :=
  b ← flat_bank (m_geo p) r;
  rank ← vget (addr_vec r) (g_rank_level (m_geo p));
  row ← vget (addr_vec r) (g_row_level (m_geo p));
  if (g_num_banks_per_rank (m_geo p) =? 0) || (m_rcc_tag_row_bits p <? 0) then Err Undef else
  let bank := u32 (Z.rem b (g_num_banks_per_rank (m_geo p))) in
  let row := u32 row in
  Ok (mkWhere b rank row (Z.shiftr row (m_row_address_bits p - m_gct_index_bits p))
        (Z.land row (2 ^ m_rcc_index_bits p - 1)) (tag_of p bank row)).

Definition generate_row_col_id (p : Config) (row : Z) : res (Z * Z) :=
  q ← idiv row (m_rct_per_row p);
  Ok (q, Z.shiftl (Z.quot (Z.rem row (m_rct_per_row p) * m_counter_bits p) 512) 3).

(** A request for the cache line that holds the counter of a row. *)
Definition rct_request (p : Config) (ty row : Z) (av : list Z) : res Request :=
  '(rct_row, col) ← generate_row_col_id p row;
  av ← vset av (g_row_level (m_geo p)) rct_row;
  av ← vset av (m_col_level p) col;
  Ok (Request_vec_type av ty).

(** ** Activations of the reserved rows *)
Definition count_rct_row (p : Config) (r : Request) (w : Where) (s : State) : res (list Request * State) :=
  t ← vget (rct_count_table s) (flat_bank_id w);
  let n := default 0 (t !! row_id w) + 1 in
  let hit := m_tracking_threshold p <=? n in
  ts ← vset (rct_count_table s) (flat_bank_id w) (if hit then delete (row_id w) t else <[row_id w := n]> t);
  let k := if hit then 1 else 0 in
  Ok (if hit then [vrr_request (m_VRR_req_id p) r] else [],
      mkState (m_clk s) (group_count_table s) (row_count_table s) (row_count_cache s) ts (generator s)
        (stats_add (stats s) (mkStats k k 0 0 0 0 0 0 0 0 1))).

(** ** The first activation of a group at its threshold *)
Definition group_start (p : Config) (w : Where) : Z := i32 (u32 (gct_index w * m_row_group_size p)).

Definition init_rows (start size v : Z) (t : gmap Z Z) : gmap Z Z :=
  foldr (fun row t => <[row := v]> t) t (seqZ start size).

Definition initialize_group (p : Config) (r : Request) (w : Where) (s : State) : res (list Request * State) :=
  gt ← vget (group_count_table s) (flat_bank_id w);
  let e := default (mkGCT 0 false) (gt !! gct_index w) in
  if initialized e then Ok ([], s) else
  gts ← vset (group_count_table s) (flat_bank_id w) (<[gct_index w := mkGCT (group_count e) true]> gt);
  t ← vget (row_count_table s) (flat_bank_id w);
  ts ← vset (row_count_table s) (flat_bank_id w)
         (init_rows (group_start p w) (m_row_group_size p) (m_group_threshold p) t);
  reqs ← mapM (fun i => rct_request p (m_WR_req_id p) (group_start p w + i * m_rct_per_cl p) (addr_vec r))
           (seqZ 0 (m_group_rct_cl_size p));
  Ok (reqs, mkState (m_clk s) gts ts (row_count_cache s) (rct_count_table s) (generator s)
              (stats_add (stats s) (mkStats 0 0 0 (Z.max 0 (m_group_rct_cl_size p)) 1 0 0 0 0 0 0))).

(** ** The cache of row counters *)
Fixpoint min_count (l : list (Z * Z)) (min tag : Z) : Z :=
  match l with
  | [] => tag
  | (k, n) :: l => if n <? min then min_count l n k else min_count l min tag
  end.

Definition get_tag_to_evict (p : Config) (set : gmap Z Z) (g : gen) : res (Z * gen) :=
  if bool_decide (m_rcc_policy p = "RANDOM") then
    let '(i, g) := draw g in
    '(tag, _) ← vget (iter_order set) i;
    Ok (tag, g)
  else if bool_decide (m_rcc_policy p = "MIN_COUNT") then Ok (min_count (iter_order set) (2 ^ 31 - 1) (-1), g)
  else Err (Exc "Undefined RCC eviction policy.").

(** A full set writes one of its counters back. *)
Definition evict (p : Config) (r : Request) (w : Where) (set : gmap Z Z) (g : gen)
    : res (list Request * gmap Z Z * gen) :=
  if negb (Nat.eqb (size set) 16) then Ok ([], set, g) else
  '(tag, g) ← get_tag_to_evict p set g;
  let row := Z.lor (Z.shiftl (Z.land tag (2 ^ m_rcc_tag_row_bits p - 1)) (m_rcc_index_bits p)) (rcc_index w) in
  let bank := Z.shiftr tag (m_rcc_tag_row_bits p) in
  bg ← idiv bank (m_num_banks p);
  av ← vset (addr_vec r) (m_bank_group_level p) bg;
  av ← vset av (g_bank_level (m_geo p)) (Z.rem bank (m_num_banks p));
  req ← rct_request p (m_WR_req_id p) row av;
  Ok ([req], delete tag set, g).

(** The counter of the row, in the cache and in the table, after a miss (with
    the requests it causes) or a hit. *)
Record Counted : Type := mkCounted {
  c_reqs : list Request;
  c_set : gmap Z Z;
  c_count : Z;
  c_table : gmap Z Z;
  c_gen : gen;
  c_stats : Stats;
}.

Definition count_in_rcc (p : Config) (r : Request) (w : Where) (set t : gmap Z Z) (g : gen) : res Counted :=
  let n := default 0 (t !! row_id w) + 1 in
  match set !! rcc_tag w with
  | None =>
      '(wb, set, g) ← evict p r w set g;
      row ← vget (addr_vec r) (g_row_level (m_geo p));
      rd ← rct_request p (m_RD_req_id p) row (addr_vec r);
      let k := Z.of_nat (List.length wb) in
      Ok (mkCounted (wb ++ [rd])%list (<[rcc_tag w := n]> set) n (<[row_id w := n]> t) g
            (mkStats 0 0 1 k 0 k 1 0 1 1 0))
  | Some c =>
      Ok (mkCounted [] (<[rcc_tag w := c + 1]> set) (c + 1) (<[row_id w := n]> t) g (mkStats 0 0 0 0 0 0 0 0 1 0 0))
  end.

(** A counter at the threshold has the neighbours refreshed and starts anew. *)
Definition count_row (p : Config) (r : Request) (w : Where) (s : State) : res (list Request * State) :=
  sets ← vget (row_count_cache s) (rank_id w);
  set ← vget sets (rcc_index w);
  t ← vget (row_count_table s) (flat_bank_id w);
  c ← count_in_rcc p r w set t (generator s);
  let hit := m_tracking_threshold p <=? c_count c in
  sets ← vset sets (rcc_index w) (if hit then <[rcc_tag w := 0]> (c_set c) else c_set c);
  rcc ← vset (row_count_cache s) (rank_id w) sets;
  rct ← vset (row_count_table s) (flat_bank_id w) (if hit then <[row_id w := 0]> (c_table c) else c_table c);
  Ok ((c_reqs c ++ if hit then [vrr_request (m_VRR_req_id p) r] else [])%list,
      mkState (m_clk s) (group_count_table s) rct rcc (rct_count_table s) (c_gen c)
        (stats_add (stats s) (stats_add (c_stats c) (mkStats (if hit then 1 else 0) 0 0 0 0 0 0 0 0 0 0)))).

(** ** The group counter *)
Definition count_group (w : Where) (s : State) : res State :=
  gt ← vget (group_count_table s) (flat_bank_id w);
  let e := default (mkGCT 0 false) (gt !! gct_index w) in
  gts ← vset (group_count_table s) (flat_bank_id w) (<[gct_index w := mkGCT (group_count e + 1) (initialized e)]> gt);
  Ok (mkState (m_clk s) gts (row_count_table s) (row_count_cache s) (rct_count_table s) (generator s)
        (stats_add (stats s) (mkStats 0 0 0 0 0 0 0 1 0 0 0))).

(** Whether the group has reached its threshold; it gets an entry if it has none. *)
Definition check_gct (p : Config) (w : Where) (s : State) : res bool :=
  gt ← vget (group_count_table s) (flat_bank_id w);
  Ok (m_group_threshold p <=? group_count (default (mkGCT 0 false) (gt !! gct_index w))).

Definition activate (p : Config) (r : Request) (s : State) : res (list Request * State) :=
  w ← locate p r;
  if row_id w <? u32 (m_total_rct_row_size p) then count_rct_row p r w s
  else
    full ← check_gct p w s;
    if full : bool then
      '(reqs, s) ← initialize_group p r w s;
      '(reqs', s) ← count_row p r w s;
      Ok ((reqs ++ reqs')%list,
          mkState (m_clk s) (group_count_table s) (row_count_table s) (row_count_cache s) (rct_count_table s) (generator s)
            (stats_add (stats s) (mkStats 0 0 0 0 0 0 0 1 0 0 0)))
    else s ← count_group w s; Ok ([], s).

Definition step (p : Config) (found : option Request) (s : State) : res (list Request * State) :=
  s ← tick p s;
  match found with
  | None => Ok ([], s)
  | Some r =>
      act ← is_row_open (g_row_level (m_geo p)) r;
      if act : bool then activate p r s else Ok ([], s)
  end.

Definition update (p : Config) (found : option Request) (s : State) : Act State :=
  match step p found s with
  | Err e => Done (Err e)
  | Ok (reqs, s) => _ ← send_all reqs; mret s
  end.
End Hydra.
End Hydra.
