(* ===== verification/HydraFacts.v ===== *)
(** * The guarantee of Hydra

    Whatever the group, table and cache of counters do: between two resets no
    row is opened [m_tracking_threshold] times without a refresh of its
    neighbours being requested. *)
From Stdlib Require Import String.
From S2P Require Import Prelude CxxFloat DramSpec Device DDR4VRR StandardsFacts Request Dram Plugin Rit RowHammer.
From S2P Require Import PluginFacts Graphene RowTracker Hydra.
Local Open Scope Z_scope.

(** ** Cells of tables of tables *)
Definition cell {V} (l : list (gmap Z V)) (i k : Z) : option V := l !! Z.to_nat i ≫= (fun m => m !! k).

Lemma cell_insert {V} (l : list (gmap Z V)) i j k m : 0 <= i < Z.of_nat (length l) -> 0 <= j ->
  cell (<[Z.to_nat i := m]> l) j k = if decide (j = i) then m !! k else cell l j k.
Proof.
  intros Hi Hj. unfold cell. case_decide as E; [subst; by rewrite list_lookup_insert_eq by lia|].
  by rewrite list_lookup_insert_ne by lia.
Qed.

Lemma cell_Some {V} (l : list (gmap Z V)) i k m : l !! Z.to_nat i = Some m -> cell l i k = m !! k.
Proof. intros H. unfold cell. by rewrite H. Qed.

Lemma cell_cleared {V W} (l : list W) i k : cell ((fun _ : W => (∅ : gmap Z V)) <$> l) i k = None.
Proof. unfold cell. rewrite list_lookup_fmap. by destruct (l !! _). Qed.

Section Guarantee.
Context `{D : IDRAM} `{IO : !IterOrder} {gen : Type} (draw : gen -> Z * gen) (p : Hydra.Config).
Notation g := (Hydra.m_geo p).
Notation T := (Hydra.m_tracking_threshold p).
Notation GT := (Hydra.m_group_threshold p).
Notation bpr := (g_num_banks_per_rank g).
Notation State := (Hydra.State (gen := gen)).

(** The sizes are powers of two, the tag of a row fits its 32 bits, and groups
    reach their threshold before rows do. *)
Record hydra_ok : Prop := {
  hy_bits : 0 <= Hydra.m_gct_index_bits p <= Hydra.m_row_address_bits p /\ Hydra.m_row_address_bits p <= 31;
  hy_group : Hydra.m_row_group_size p = 2 ^ (Hydra.m_row_address_bits p - Hydra.m_gct_index_bits p);
  hy_tag : Hydra.m_rcc_tag_row_bits p = Hydra.m_row_address_bits p - Hydra.m_rcc_index_bits p;
  hy_idx : 0 <= Hydra.m_rcc_index_bits p <= Hydra.m_row_address_bits p;
  hy_banks : 0 < bpr /\ bpr * 2 ^ Hydra.m_rcc_tag_row_bits p <= 2 ^ 32;
  hy_rct : 0 <= Hydra.m_total_rct_row_size p < 2 ^ 32;
  hy_ranks : 0 <= g_num_ranks g;
  hy_thr : 0 <= GT < T;
}.

Definition row_ok (row : Z) : Prop := 0 <= row < 2 ^ Hydra.m_row_address_bits p.

(** A request addresses the rank that holds its bank, and a row of the bank. *)
Definition hreq_ok (r : Request) : Prop := forall b, flat_bank g r = Ok b ->
  0 <= b < g_num_ranks g * bpr /\ vget (addr_vec r) (g_rank_level g) = Ok (b / bpr) /\
  exists row, vget (addr_vec r) (g_row_level g) = Ok row /\ row_ok row.

(** ** Where the counters are *)
Definition group_of (row : Z) : Z := row / Hydra.m_row_group_size p.
Definition index_of (row : Z) : Z := row mod 2 ^ Hydra.m_rcc_index_bits p.
Definition tag_at (b row : Z) : Z :=
  row / 2 ^ Hydra.m_rcc_index_bits p + (b mod bpr) * 2 ^ Hydra.m_rcc_tag_row_bits p.

Definition where_of (b row : Z) : Hydra.Where :=
  Hydra.mkWhere b (b / bpr) row (group_of row) (index_of row) (tag_at b row).

Lemma tag_row_range row : hydra_ok -> row_ok row ->
  0 <= row / 2 ^ Hydra.m_rcc_index_bits p < 2 ^ Hydra.m_rcc_tag_row_bits p.
Proof.
  intros H Hr. destruct H as [? ? Htag Hidx ? ? ? ?]. unfold row_ok in Hr.
  assert (2 ^ Hydra.m_row_address_bits p = 2 ^ Hydra.m_rcc_index_bits p * 2 ^ Hydra.m_rcc_tag_row_bits p) as E
    by (rewrite <- Z.pow_add_r by lia; f_equal; lia).
  split; [apply Z.div_pos; lia|]. apply Z.div_lt_upper_bound; lia.
Qed.

Lemma tag_of_spec b row : hydra_ok -> row_ok row -> 0 <= b ->
  Hydra.tag_of p (u32 (Z.rem b bpr)) row = tag_at b row.
Proof.
  intros H Hr Hb. pose proof (tag_row_range row H Hr) as Hq. destruct H as [? ? Htag Hidx [Hbpr Hb32] ? ? ?].
  unfold Hydra.tag_of, tag_at. rewrite Z.rem_mod_nonneg by lia.
  pose proof (Z.mod_pos_bound b bpr Hbpr) as Hm.
  assert (1 <= 2 ^ Hydra.m_rcc_tag_row_bits p) by lia.
  unfold u32. rewrite (Z.mod_small (b mod bpr)) by nia.
  rewrite Z.shiftl_mul_pow2 by lia. rewrite (Z.mod_small (_ * _)) by nia.
  replace (Hydra.m_row_address_bits p - Hydra.m_rcc_tag_row_bits p) with (Hydra.m_rcc_index_bits p) by lia.
  rewrite Z.shiftr_div_pow2, <- Z.shiftl_mul_pow2, Z.lor_comm by lia. rewrite lor_disjoint by lia.
  rewrite <- Z.shiftl_mul_pow2 by lia. lia.
Qed.

Lemma locate_spec r w : hydra_ok -> hreq_ok r -> Hydra.locate p r = Ok w ->
  exists b row, flat_bank g r = Ok b /\ vget (addr_vec r) (g_row_level g) = Ok row /\
    0 <= b < g_num_ranks g * bpr /\ row_ok row /\ w = where_of b row.
Proof.
  intros H Hr E. unfold Hydra.locate in E. apply bind_Ok in E as (b & Hb & E). destruct (Hr b Hb) as (H0 & Hrank & row & Hrow & Hok).
  rewrite Hrank, Hrow in E. cbn [mbind res_bind] in E. destruct (_ || _); [done|]. injection E as <-.
  exists b, row. split; [done|]. split; [done|]. split; [done|]. split; [done|].
  pose proof (hy_bits H) as [[Hg1 Hg2] Hg3]. pose proof (hy_idx H).
  assert (row < 2 ^ 32) by (unfold row_ok in Hok; pose proof (Z.pow_le_mono_r 2 (Hydra.m_row_address_bits p) 31); lia).
  unfold where_of, group_of, index_of. rewrite (hy_group H).
  assert (u32 row = row) as -> by (unfold u32; apply Z.mod_small; unfold row_ok in Hok; lia).
  rewrite tag_of_spec by (done || lia). rewrite Z.shiftr_div_pow2 by lia. f_equal.
  rewrite <- (Z.land_ones row) by lia. by rewrite Z.ones_equiv, Z.sub_1_r.
Qed.

Lemma place_inj b row b' row' : hydra_ok -> row_ok row -> row_ok row' ->
  b / bpr = b' / bpr -> index_of row = index_of row' -> tag_at b row = tag_at b' row' -> b = b' /\ row = row'.
Proof.
  intros H Hr Hr' Hd Hi Ht. pose proof (tag_row_range row H Hr). pose proof (tag_row_range row' H Hr').
  pose proof (hy_idx H). pose proof (hy_banks H) as [Hbpr _]. pose proof (hy_tag H).
  unfold tag_at, index_of in *. set (q := 2 ^ Hydra.m_rcc_tag_row_bits p) in *. set (i := 2 ^ Hydra.m_rcc_index_bits p) in *.
  assert (0 < q) by (apply Z.pow_pos_nonneg; lia). assert (0 < i) by (apply Z.pow_pos_nonneg; lia).
  destruct (Z.div_mod_unique q (b mod bpr) (b' mod bpr) (row / i) (row' / i)) as [E1 E2]; [by left|by left|lia|].
  split; [rewrite (Z.div_mod b bpr), (Z.div_mod b' bpr) by lia; congruence|].
  rewrite (Z.div_mod row i), (Z.div_mod row' i) by lia. congruence.
Qed.

(** ** The state, cell by cell *)
Definition v_group (s : State) (b k : Z) : Hydra.GCT_Entry := default (Hydra.mkGCT 0 false) (cell (Hydra.group_count_table s) b k).
Definition v_row (s : State) (b row : Z) : option Z := cell (Hydra.row_count_table s) b row.
Definition v_rct (s : State) (b row : Z) : Z := default 0 (cell (Hydra.rct_count_table s) b row).
Definition v_cache (s : State) (b row : Z) : option Z :=
  Hydra.row_count_cache s !! Z.to_nat (b / bpr) ≫= (fun sets => cell sets (index_of row) (tag_at b row)).

Definition banks_of (s : State) : Z := Z.of_nat (length (Hydra.group_count_table s)).
Definition rct_row (row : Z) : bool := row <? Hydra.m_total_rct_row_size p.

(** ** Exposure: activations since the last refresh of the neighbours *)
Definition refreshes (e : Event) : bool :=
  match e.1 with Some r => bool_decide (vrr_request (Hydra.m_VRR_req_id p) r ∈ e.2) | None => false end.

Fixpoint exposed (b row : Z) (ep : list Event) : Z :=
  match ep with
  | [] => 0
  | e :: ep =>
      if decide (opened g e = Some (b, row)) then if refreshes e then 0 else 1 + exposed b row ep
      else exposed b row ep
  end.

Lemma exposed_nonneg b row ep : 0 <= exposed b row ep.
Proof. induction ep as [|e ep IH]; cbn; [lia|]. repeat case_match; lia. Qed.

Lemma exposed_miss b row e ep : opened g e <> Some (b, row) -> exposed b row (e :: ep) = exposed b row ep.
Proof. intros H. cbn. by rewrite decide_False. Qed.

Lemma exposed_hit b row r l ep : opened g (Some r, l) = Some (b, row) ->
  exposed b row ((Some r, l) :: ep) = if bool_decide (vrr_request (Hydra.m_VRR_req_id p) r ∈ l) then 0 else 1 + exposed b row ep.
Proof. intros H. cbn [exposed]. by rewrite decide_True. Qed.

(** ** The invariant *)
Record row_inv (s : State) (ep : list Event) (b row : Z) : Prop := {
  ri_rct : rct_row row = true -> exposed b row ep <= v_rct s b row < T;
  ri_group : rct_row row = false -> Hydra.initialized (v_group s b (group_of row)) = false ->
    exposed b row ep <= Hydra.group_count (v_group s b (group_of row)) <= GT /\ v_cache s b row = None;
  ri_row : rct_row row = false -> Hydra.initialized (v_group s b (group_of row)) = true ->
    GT <= Hydra.group_count (v_group s b (group_of row)) /\
    exists n, v_row s b row = Some n /\ exposed b row ep <= n < T /\ forall c, v_cache s b row = Some c -> c = n;
}.

Record inv (s : State) (ep : list Event) : Prop := {
  iv_banks : banks_of s = g_num_ranks g * bpr;
  iv_row_table : Z.of_nat (length (Hydra.row_count_table s)) = banks_of s;
  iv_rct_table : banks_of s <= Z.of_nat (length (Hydra.rct_count_table s));
  iv_rows : forall b row, 0 <= b < banks_of s -> row_ok row -> row_inv s ep b row;
}.

Lemma row_inv_frame s s' ep ep' b row :
  exposed b row ep' = exposed b row ep -> v_rct s' b row = v_rct s b row ->
  v_group s' b (group_of row) = v_group s b (group_of row) -> v_row s' b row = v_row s b row ->
  (v_cache s' b row = v_cache s b row \/ v_cache s' b row = None) ->
  row_inv s ep b row -> row_inv s' ep' b row.
Proof.
  intros He Hr Hg Hrow Hc [H1 H2 H3]. split; rewrite ?He, ?Hr, ?Hg, ?Hrow; [done| |].
  - intros Hn Hi. destruct (H2 Hn Hi) as [? Hz]. split; [done|]. destruct Hc as [->| ->]; done.
  - intros Hn Hi. destruct (H3 Hn Hi) as (? & n & ? & ? & Hcn). split; [done|]. exists n. split; [done|].
    split; [done|]. destruct Hc as [->| ->]; done.
Qed.

(** Clock, generator and statistics do not matter. *)
Lemma inv_same s s' ep : Hydra.group_count_table s' = Hydra.group_count_table s ->
  Hydra.row_count_table s' = Hydra.row_count_table s -> Hydra.row_count_cache s' = Hydra.row_count_cache s ->
  Hydra.rct_count_table s' = Hydra.rct_count_table s -> inv s ep -> inv s' ep.
Proof.
  intros E1 E2 E3 E4 [Hl0 Hl1 Hl2 Hi]. unfold banks_of in *. split; unfold banks_of; rewrite ?E1, ?E2, ?E4; [done|done|done|].
  intros b row Hb Hr. apply (row_inv_frame s s' ep ep); unfold v_rct, v_group, v_row, v_cache; rewrite ?E1, ?E2, ?E3, ?E4; try done.
  - by left.
  - by apply Hi.
Qed.

(** ** The steps *)
Lemma clear_inv s : hydra_ok -> banks_of s = g_num_ranks g * bpr -> Z.of_nat (length (Hydra.row_count_table s)) = banks_of s ->
  banks_of s <= Z.of_nat (length (Hydra.rct_count_table s)) -> inv (Hydra.clear_tables s) [].
Proof.
  intros H Hl0 Hl1 Hl2. unfold banks_of in *. split; unfold banks_of; cbn.
  - by rewrite length_fmap.
  - by rewrite !length_fmap.
  - rewrite length_fmap, length_app, length_replicate. lia.
  - rewrite length_fmap. intros b row Hb Hr. pose proof (hy_thr H). split; cbn.
    + intros _. unfold v_rct, cell. cbn. rewrite lookup_app_l, lookup_replicate_2 by (rewrite ?length_replicate; lia).
      cbn. rewrite lookup_empty. cbn. lia.
    + intros _ _. unfold v_group. cbn. rewrite cell_cleared. cbn. split; [lia|].
      unfold v_cache. cbn. rewrite list_lookup_fmap. destruct (_ !! _); cbn; [apply cell_cleared|done].
    + intros _. unfold v_group. cbn. by rewrite cell_cleared.
Qed.

Lemma hydra_tick_inv s ep s' : hydra_ok -> inv s ep -> Hydra.tick p s = Ok s' ->
  inv s' (if Z.rem (Hydra.m_clk s') (Hydra.m_reset_period_clk p) =? 0 then [] else ep).
Proof.
  intros H [Hl0 Hl1 Hl2 Hi] E. unfold Hydra.tick, resets in E. destruct (_ <=? _); [done|]. cbn [Hydra.m_clk] in E.
  apply bind_Ok in E as (r & Hr & E). destruct (_ =? 0); [done|]. injection Hr as Hr. injection E as <-.
  destruct r; cbn [Hydra.clear_tables Hydra.m_clk]; rewrite Hr.
  - by apply (clear_inv (Hydra.mkState _ _ _ _ _ _ _)).
  - by apply (inv_same s).
Qed.

(** An activation of a row that holds counters. *)
Lemma count_rct_row_inv s ep r b row reqs s' : hydra_ok -> inv s ep -> 0 <= b < banks_of s -> row_ok row ->
  rct_row row = true -> (forall l, opened g (Some r, l) = Some (b, row)) ->
  Hydra.count_rct_row p r (where_of b row) s = Ok (reqs, s') -> inv s' ((Some r, reqs) :: ep).
Proof.
  intros H [Hl0 Hl1 Hl2 Hi] Hb Hr Hrow He E. unfold Hydra.count_rct_row in E. cbn [where_of Hydra.flat_bank_id Hydra.row_id] in E.
  apply bind_Ok in E as (t & [_ Ht]%vget_Ok & E). apply bind_Ok in E as (ts & [Hlt ->]%vset_Ok & E). injection E as <- <-.
  pose proof (ri_rct _ _ _ _ (Hi b row Hb Hr) Hrow) as Hold. unfold v_rct in Hold. rewrite (cell_Some _ _ _ _ Ht) in Hold.
  set (n := default 0 (t !! row)) in *.
  split; [done|done|unfold banks_of in *; cbn in *; by rewrite length_insert|]. intros b' row' Hb' Hr'.
  destruct (decide ((b', row') = (b, row))) as [[= -> ->]|Hne].
  - split; [intros _|by rewrite Hrow|by rewrite Hrow]. unfold v_rct. cbn [Hydra.rct_count_table].
    rewrite cell_insert by lia. rewrite decide_True by done. rewrite exposed_hit by apply He.
    destruct (Z.leb_spec T (n + 1)); cbn.
    + rewrite bool_decide_true by (apply list_elem_of_singleton; done). rewrite lookup_delete_eq. cbn. pose proof (hy_thr H). lia.
    + rewrite bool_decide_false by (apply not_elem_of_nil). rewrite lookup_insert_eq. cbn. lia.
  - apply (row_inv_frame s _ ep _); [|unfold v_rct; cbn [Hydra.rct_count_table]|done|done|by left|by apply Hi].
    + apply exposed_miss. rewrite He. congruence.
    + rewrite cell_insert by (unfold banks_of in *; cbn in *; lia). case_decide as E; [subst b'|done].
      rewrite (cell_Some _ _ _ _ Ht). assert (row' <> row) by congruence.
      destruct (_ <=? _); [by rewrite lookup_delete_ne|by rewrite lookup_insert_ne].
Qed.

(** An activation of a group below its threshold. *)
Lemma count_group_inv s ep r b row s' l : hydra_ok -> inv s ep -> 0 <= b < banks_of s -> row_ok row ->
  rct_row row = false -> (forall l, opened g (Some r, l) = Some (b, row)) ->
  Hydra.group_count (v_group s b (group_of row)) < GT ->
  Hydra.count_group (where_of b row) s = Ok s' -> l = [] -> inv s' ((Some r, l) :: ep).
Proof.
  intros H [Hl0 Hl1 Hl2 Hi] Hb Hr Hrow He Hlt E ->. unfold Hydra.count_group in E. cbn [where_of Hydra.flat_bank_id Hydra.gct_index] in E.
  apply bind_Ok in E as (t & [_ Ht]%vget_Ok & E). apply bind_Ok in E as (ts & [Hbt ->]%vset_Ok & E). injection E as <-.
  unfold v_group in Hlt. rewrite (cell_Some _ _ _ _ Ht) in Hlt. set (e := default _ (t !! group_of row)) in *.
  assert (forall b' k, 0 <= b' -> v_group (Hydra.mkState (Hydra.m_clk s)
      (<[Z.to_nat b := <[group_of row := Hydra.mkGCT (Hydra.group_count e + 1) (Hydra.initialized e)]> t]> (Hydra.group_count_table s))
      (Hydra.row_count_table s) (Hydra.row_count_cache s) (Hydra.rct_count_table s) (Hydra.generator s)
      (Hydra.stats_add (Hydra.stats s) (Hydra.mkStats 0 0 0 0 0 0 0 1 0 0 0))) b' k =
    if decide ((b', k) = (b, group_of row)) then Hydra.mkGCT (Hydra.group_count e + 1) (Hydra.initialized e) else v_group s b' k) as Hv.
  { intros b' k Hb'. unfold v_group. cbn [Hydra.group_count_table]. rewrite cell_insert by lia.
    destruct (decide (b' = b)) as [->|]; [|by rewrite decide_False by congruence]. rewrite (cell_Some _ _ _ _ Ht).
    destruct (decide (k = group_of row)) as [->|]; [by rewrite decide_True, lookup_insert_eq|].
    by rewrite decide_False, lookup_insert_ne by congruence. }
  split; [by unfold banks_of in *; cbn in *; rewrite length_insert|by unfold banks_of in *; cbn in *; rewrite length_insert|by unfold banks_of in *; cbn in *; rewrite length_insert|].
  unfold banks_of in *. cbn [Hydra.group_count_table] in *. rewrite length_insert. intros b' row' Hb' Hr'.
  destruct (decide ((b', group_of row') = (b, group_of row))) as [[= -> Eg]|Hne].
  - destruct (Hi b row' Hb Hr') as [Hi1 Hi2 Hi3]. rewrite Eg in Hi2, Hi3.
    assert (v_group s b (group_of row) = e) as Eve by (unfold v_group; by rewrite (cell_Some _ _ _ _ Ht)). rewrite Eve in Hi2, Hi3.
    assert (rct_row row' = false -> Hydra.initialized e = false) as Hun
      by (intros Hn; destruct (Hydra.initialized e) eqn:Ei; [destruct (Hi3 Hn eq_refl); lia|done]).
    assert (exposed b row' ((Some r, []) :: ep) <= 1 + exposed b row' ep) as Hexp.
    { destruct (decide (row' = row)) as [->|]; [rewrite exposed_hit by apply He|rewrite exposed_miss by (rewrite He; congruence)]; [|lia].
      rewrite bool_decide_false by apply not_elem_of_nil. lia. }
    split; rewrite ?Hv, ?Eg, ?decide_True by (done || lia); cbn [Hydra.initialized Hydra.group_count].
    + intros Hn. assert (row' <> row) by congruence. rewrite exposed_miss by (rewrite He; congruence). by apply Hi1.
    + intros Hn Hei. destruct (Hi2 Hn Hei) as [? Hc]. split; [lia|exact Hc].
    + intros Hn Hei. rewrite (Hun Hn) in Hei. done.
  - apply (row_inv_frame s _ ep _); [|done| |done|by left|by apply Hi].
    + apply exposed_miss. rewrite He. intros [= -> ->]. done.
    + rewrite Hv by lia. by rewrite decide_False.
Qed.

(** ** Initialising a group *)
Lemma init_rows_lookup start n v t row :
  Hydra.init_rows start n v t !! row = if decide (start <= row < start + n) then Some v else t !! row.
Proof.
  unfold Hydra.init_rows. assert (forall l, foldr (fun row (t : gmap Z Z) => <[row := v]> t) t l !! row =
    if decide (row ∈ l) then Some v else t !! row) as Hl.
  { induction l as [|x l IH]; cbn; [by rewrite decide_False by set_solver|].
    destruct (decide (row = x)) as [->|Hne]; [by rewrite lookup_insert_eq, decide_True by set_solver|].
    rewrite lookup_insert_ne, IH by done. repeat case_decide; set_solver. }
  rewrite Hl. repeat case_decide; try done; rewrite elem_of_seqZ in *; lia.
Qed.

Lemma group_rows row row' : hydra_ok -> row_ok row -> row_ok row' ->
  Hydra.group_start p (where_of 0 row) <= row' < Hydra.group_start p (where_of 0 row) + Hydra.m_row_group_size p <->
  group_of row' = group_of row.
Proof.
  intros H Hr Hr'. pose proof (hy_bits H) as [? ?]. pose proof (hy_group H) as Hg.
  assert (0 < Hydra.m_row_group_size p) as Hpos by (rewrite Hg; apply Z.pow_pos_nonneg; lia).
  unfold row_ok in *. pose proof (Z.pow_le_mono_r 2 (Hydra.m_row_address_bits p) 31 ltac:(lia) ltac:(lia)).
  pose proof (Z.mul_div_le row (Hydra.m_row_group_size p) Hpos) as Hle.
  assert (0 <= group_of row) by (apply Z.div_pos; lia).
  assert (Hydra.group_start p (where_of 0 row) = group_of row * Hydra.m_row_group_size p) as ->.
  { unfold Hydra.group_start, where_of, u32. cbn [Hydra.gct_index]. fold (group_of row) in Hle.
    rewrite (Z.mod_small (group_of row * _)) by nia. unfold i32. rewrite Z.mod_small by nia. lia. }
  split; intros E.
  - unfold group_of at 1. symmetry. apply (Z.div_unique_pos _ _ _ (row' - group_of row * Hydra.m_row_group_size p)); lia.
  - rewrite <- E. unfold group_of. pose proof (Z.div_mod row' (Hydra.m_row_group_size p) ltac:(lia)).
    pose proof (Z.mod_pos_bound row' (Hydra.m_row_group_size p) Hpos). nia.
Qed.

Lemma initialize_group_inv s ep r b row reqs s' : hydra_ok -> inv s ep -> 0 <= b < banks_of s -> row_ok row ->
  rct_row row = false -> GT <= Hydra.group_count (v_group s b (group_of row)) ->
  Hydra.initialize_group p r (where_of b row) s = Ok (reqs, s') ->
  inv s' ep /\ Hydra.initialized (v_group s' b (group_of row)) = true /\ banks_of s' = banks_of s.
Proof.
  intros H [Hl0 Hl1 Hl2 Hi] Hb Hr Hrow Hge E. unfold Hydra.initialize_group in E. cbn [where_of Hydra.flat_bank_id Hydra.gct_index] in E.
  apply bind_Ok in E as (t & [_ Ht]%vget_Ok & E). set (e := default _ (t !! group_of row)) in E.
  assert (v_group s b (group_of row) = e) as Eve by (unfold v_group; by rewrite (cell_Some _ _ _ _ Ht)).
  destruct (Hydra.initialized e) eqn:Ei; [injection E as <- <-; by rewrite Eve|].
  apply bind_Ok in E as (gts & [Hbt ->]%vset_Ok & E). apply bind_Ok in E as (tr & [_ Htr]%vget_Ok & E).
  apply bind_Ok in E as (rts & [Hbr ->]%vset_Ok & E). apply bind_Ok in E as (rq & _ & E). injection E as <- <-.
  assert (Hydra.group_start p (where_of b row) = Hydra.group_start p (where_of 0 row)) as Est by done. rewrite Est.
  set (s' := Hydra.mkState _ _ _ _ _ _ _).
  assert (forall b' k, 0 <= b' -> v_group s' b' k =
    if decide ((b', k) = (b, group_of row)) then Hydra.mkGCT (Hydra.group_count e) true else v_group s b' k) as Hv.
  { intros b' k Hb'. unfold v_group, s'. cbn [Hydra.group_count_table]. rewrite cell_insert by lia.
    destruct (decide (b' = b)) as [->|]; [|by rewrite decide_False by congruence]. rewrite (cell_Some _ _ _ _ Ht).
    destruct (decide (k = group_of row)) as [->|]; [by rewrite decide_True, lookup_insert_eq|].
    by rewrite decide_False, lookup_insert_ne by congruence. }
  assert (forall b' row', 0 <= b' -> row_ok row' -> v_row s' b' row' =
    if decide ((b', group_of row') = (b, group_of row)) then Some GT else v_row s b' row') as Hvr.
  { intros b' row' Hb' Hr'. unfold v_row, s'. cbn [Hydra.row_count_table]. rewrite cell_insert by lia.
    destruct (decide (b' = b)) as [->|]; [|by rewrite decide_False by congruence]. rewrite (cell_Some _ _ _ _ Htr), init_rows_lookup.
    pose proof (group_rows row row' H Hr Hr') as Hgr. destruct (decide (group_of row' = group_of row)) as [Eg|Eg].
    - by rewrite !decide_True by (rewrite ?Eg; tauto).
    - rewrite !decide_False; [done|congruence|tauto]. }
  assert (banks_of s' = banks_of s) as Hbk by (unfold banks_of, s'; cbn; by rewrite length_insert).
  split; [|split; [rewrite Hv by lia; by rewrite decide_True|done]].
  split; rewrite ?Hbk; [done|unfold s'; cbn; by rewrite length_insert|done|]. intros b' row' Hb' Hr'.
  destruct (decide ((b', group_of row') = (b, group_of row))) as [[= -> Eg]|Hne].
  - destruct (Hi b row' Hb Hr') as [Hi1 Hi2 _]. rewrite Eg, Eve in Hi2.
    split; rewrite ?Hvr, ?Eg, ?Hv, ?decide_True by (done || lia || congruence); cbn [Hydra.initialized Hydra.group_count]; [exact Hi1|done|].
    intros Hn _. destruct (Hi2 Hn Ei) as [? Hc]. rewrite Eve in Hge. split; [done|]. exists GT. split; [done|].
    pose proof (hy_thr H). split; [lia|]. intros c. change (v_cache s' b row') with (v_cache s b row'). by rewrite Hc.
  - apply (row_inv_frame s s' ep ep); [done|done| | |by left|by apply Hi].
    + rewrite Hv by lia. by rewrite decide_False.
    + rewrite Hvr by (done || lia). by rewrite decide_False.
Qed.

(** ** Counting in the cache *)
Lemma evict_spec r w set gn l set' gn' : Hydra.evict draw p r w set gn = Ok (l, set', gn') ->
  forall k, set' !! k = set !! k \/ set' !! k = None.
Proof.
  intros E k. unfold Hydra.evict in E. destruct (negb _); [injection E as _ <- _; by left|].
  apply bind_Ok in E as ([tag g1] & _ & E). apply bind_Ok in E as (bg & _ & E). apply bind_Ok in E as (a1 & _ & E).
  apply bind_Ok in E as (a2 & _ & E). apply bind_Ok in E as (rq & _ & E). injection E as _ <- _.
  destruct (decide (k = tag)) as [->|]; [right; apply lookup_delete_eq|left; by apply lookup_delete_ne].
Qed.

Lemma count_in_rcc_spec r w set t gn c n : Hydra.count_in_rcc draw p r w set t gn = Ok c ->
  t !! Hydra.row_id w = Some n -> (forall x, set !! Hydra.rcc_tag w = Some x -> x = n) ->
  Hydra.c_count c = n + 1 /\ Hydra.c_table c = <[Hydra.row_id w := n + 1]> t /\
  Hydra.c_set c !! Hydra.rcc_tag w = Some (n + 1) /\
  forall k, k <> Hydra.rcc_tag w -> Hydra.c_set c !! k = set !! k \/ Hydra.c_set c !! k = None.
Proof.
  intros E Ht Hc. unfold Hydra.count_in_rcc in E. rewrite Ht in E. cbn [default] in E.
  destruct (set !! Hydra.rcc_tag w) as [x|] eqn:Ex.
  - rewrite (Hc x eq_refl) in E. injection E as <-. cbn. split; [done|]. split; [done|]. rewrite lookup_insert_eq. split; [done|].
    intros k Hk. left. by rewrite lookup_insert_ne.
  - apply bind_Ok in E as ([[wb set'] g1] & He & E). apply bind_Ok in E as (row & _ & E). apply bind_Ok in E as (rd & _ & E).
    injection E as <-. cbn. split; [done|]. split; [done|]. rewrite lookup_insert_eq. split; [done|].
    intros k Hk. rewrite lookup_insert_ne by done. by eapply evict_spec.
Qed.

Lemma count_row_inv s ep r b row reqs s' pre : hydra_ok -> inv s ep -> 0 <= b < banks_of s -> row_ok row ->
  rct_row row = false -> Hydra.initialized (v_group s b (group_of row)) = true ->
  (forall l, opened g (Some r, l) = Some (b, row)) ->
  Hydra.count_row draw p r (where_of b row) s = Ok (reqs, s') -> inv s' ((Some r, (pre ++ reqs)%list) :: ep).
Proof.
  intros H [Hl0 Hl1 Hl2 Hi] Hb Hr Hrow Hini He E. unfold Hydra.count_row in E.
  cbn [where_of Hydra.flat_bank_id Hydra.rank_id Hydra.rcc_index] in E. fold (where_of b row) in E.
  apply bind_Ok in E as (sets & [Hb0 Hsets]%vget_Ok & E). apply bind_Ok in E as (set & [Hi0 Hset]%vget_Ok & E).
  apply bind_Ok in E as (t & [_ Ht]%vget_Ok & E). apply bind_Ok in E as (c & Hc & E).
  apply bind_Ok in E as (sets1 & [Hsl ->]%vset_Ok & E). apply bind_Ok in E as (rcc & [Hrl ->]%vset_Ok & E).
  apply bind_Ok in E as (rct & [Hbl ->]%vset_Ok & E). injection E as <- <-.
  destruct (ri_row _ _ _ _ (Hi b row Hb Hr) Hrow Hini) as (HgT & n & Hn & Hexp & Hcn).
  assert (forall b' row', b' / bpr = b / bpr -> index_of row' = index_of row -> v_cache s b' row' = set !! tag_at b' row') as Hvc.
  { intros b' row' E1 E2. unfold v_cache. rewrite E1, Hsets. cbn. rewrite E2. by apply cell_Some. }
  unfold v_row in Hn. rewrite (cell_Some _ _ _ _ Ht) in Hn.
  destruct (count_in_rcc_spec r (where_of b row) set t (Hydra.generator s) c n Hc Hn) as (Hcnt & Htab & Htag & Hoth).
  { intros x Hx. apply Hcn. by rewrite Hvc. }
  cbn [where_of Hydra.row_id Hydra.rcc_tag] in *. rewrite Hcnt. set (hit := T <=? n + 1).
  set (m := if hit then 0 else n + 1).
  assert (forall k, (if hit then <[row := 0]> (Hydra.c_table c) else Hydra.c_table c) !! k = if decide (k = row) then Some m else t !! k) as Htm.
  { intros k. rewrite Htab. unfold m. destruct hit; case_decide as Ek; subst; rewrite ?lookup_insert_eq, ?lookup_insert_ne; done. }
  assert (forall k, (k = tag_at b row /\ (if hit then <[tag_at b row := 0]> (Hydra.c_set c) else Hydra.c_set c) !! k = Some m) \/
    (k <> tag_at b row /\ ((if hit then <[tag_at b row := 0]> (Hydra.c_set c) else Hydra.c_set c) !! k = set !! k \/
                           (if hit then <[tag_at b row := 0]> (Hydra.c_set c) else Hydra.c_set c) !! k = None))) as Hsm.
  { intros k. unfold m. destruct (decide (k = tag_at b row)) as [->|Hk]; [left|right]; (split; [done|]);
      destruct hit; rewrite ?lookup_insert_eq, ?lookup_insert_ne by done; auto. }
  set (s' := Hydra.mkState _ _ _ _ _ _ _).
  set (set' := if hit then <[tag_at b row := 0]> (Hydra.c_set c) else Hydra.c_set c) in *.
  assert (forall b' row', 0 <= b' -> row_ok row' -> v_cache s' b' row' =
    if decide (b' / bpr = b / bpr /\ index_of row' = index_of row) then set' !! tag_at b' row' else v_cache s b' row') as Hvc'.
  { intros b' row' Hb' Hr'. unfold v_cache, s'. cbn [Hydra.row_count_cache].
    assert (0 <= b' / bpr) by (apply Z.div_pos; [done|apply (hy_banks H)]).
    assert (0 <= index_of row') by (apply Z.mod_pos_bound, Z.pow_pos_nonneg; [lia|apply (hy_idx H)]).
    destruct (decide (b' / bpr = b / bpr)) as [E1|E1].
    - rewrite E1, list_lookup_insert_eq by lia. cbn. rewrite cell_insert by lia. rewrite Hsets. cbn.
      destruct (decide (index_of row' = index_of row)) as [E2|E2]; [by rewrite decide_True|by rewrite decide_False by tauto].
    - rewrite list_lookup_insert_ne by lia. rewrite decide_False by (intros []; done). done. }
  split; [done|unfold banks_of, s' in *; cbn; by rewrite length_insert|done|]. intros b' row' Hb' Hr'.
  destruct (decide ((b', row') = (b, row))) as [[= -> ->]|Hne].
  - split; [by rewrite Hrow|by change (v_group s' b) with (v_group s b); rewrite Hini|]. intros _ _. split; [done|]. exists m.
    assert (0 <= b) as Hb00 by lia.
    split; [unfold v_row, s'; cbn [Hydra.row_count_table]; rewrite cell_insert by lia; by rewrite decide_True, Htm, decide_True|].
    split; [|intros x; rewrite Hvc' by done; rewrite decide_True by done; destruct (Hsm (tag_at b row)) as [[_ ->]|[]]; congruence].
    rewrite exposed_hit by apply He. unfold m, hit. pose proof (hy_thr H). destruct (Z.leb_spec T (n + 1)).
    + rewrite bool_decide_true; [lia|]. apply elem_of_app. right. apply elem_of_app. right. by apply list_elem_of_singleton.
    + pose proof (exposed_nonneg b row ep). case_bool_decide; lia.
  - apply (row_inv_frame s s' ep _); [|done|done| | |by apply Hi].
    + apply exposed_miss. rewrite He. congruence.
    + unfold v_row, s'. cbn [Hydra.row_count_table]. rewrite cell_insert by (unfold banks_of, s' in *; cbn in *; lia).
      case_decide as E; [subst b'|done]. rewrite Htm, decide_False by congruence. symmetry. by apply cell_Some.
    + rewrite Hvc' by (done || lia). case_decide as E; [|by left]. destruct E as [E1 E2]. rewrite Hvc by done.
      destruct (Hsm (tag_at b' row')) as [[Etag _]|[_ ?]]; [|done].
      destruct (place_inj b' row' b row H Hr' Hr E1 E2 Etag); congruence.
Qed.

(** ** Updates *)
Lemma rct_row_test row : hydra_ok -> row_ok row -> (row <? u32 (Hydra.m_total_rct_row_size p)) = rct_row row.
Proof. intros H Hr. unfold rct_row, u32. rewrite Z.mod_small by apply (hy_rct H). done. Qed.

Lemma hydra_clks r w s q s' :
  Hydra.initialize_group p r w s = Ok (q, s') \/ Hydra.count_row draw p r w s = Ok (q, s') -> Hydra.m_clk s' = Hydra.m_clk s.
Proof.
  intros [E|E]; [unfold Hydra.initialize_group in E|unfold Hydra.count_row in E; res_inv; by subst].
  apply bind_Ok in E as (gt & _ & E). destruct (Hydra.initialized _); [by injection E as _ <-|]. res_inv. by subst.
Qed.

Lemma hydra_activate_inv s ep r reqs s' : hydra_ok -> inv s ep -> hreq_ok r -> is_row_open (g_row_level g) r = Ok true ->
  Hydra.activate draw p r s = Ok (reqs, s') -> inv s' ((Some r, reqs) :: ep) /\ Hydra.m_clk s' = Hydra.m_clk s.
Proof.
  intros H Hi Hq Ho E. unfold Hydra.activate in E. apply bind_Ok in E as (w & Hw & E).
  destruct (locate_spec r w H Hq Hw) as (b & row & Hb & Hrow & H0 & Hr & ->). pose proof (iv_banks _ _ Hi) as Hbks.
  assert (forall l, opened g (Some r, l) = Some (b, row)) as He by (intros l; unfold opened; cbn; by rewrite Ho, Hb, Hrow).
  cbn [where_of Hydra.row_id] in E. rewrite rct_row_test in E by done. fold (where_of b row) in E. destruct (rct_row row) eqn:Er.
  { split; [eapply count_rct_row_inv; try done; lia|]. unfold Hydra.count_rct_row in E. res_inv. by subst. }
  apply bind_Ok in E as (full & Hf & E). unfold Hydra.check_gct in Hf. cbn [where_of Hydra.flat_bank_id Hydra.gct_index] in Hf.
  apply bind_Ok in Hf as (gt & [_ Hgt]%vget_Ok & Hf). injection Hf as Hf.
  assert (v_group s b (group_of row) = default (Hydra.mkGCT 0 false) (gt !! group_of row)) as Ev
    by (unfold v_group; by rewrite (cell_Some _ _ _ _ Hgt)). rewrite <- Ev in Hf.
  destruct full.
  - apply Z.leb_le in Hf. apply bind_Ok in E as ([q1 s1] & E1 & E). apply bind_Ok in E as ([q2 s2] & E2 & E). injection E as <- <-.
    pose proof E1 as E1'. apply (initialize_group_inv s ep) in E1 as (Hi1 & Hini & Hbk1); [|done|done|lia|done|done|done].
    pose proof E2 as E2'. apply (count_row_inv s1 ep r b row q2 s2 q1) in E2; [|done|done|lia|done|done|done|done].
    split; [by eapply (inv_same s2)|]. cbn.
    rewrite (hydra_clks r (where_of b row) s1 q2 s2) by (by right). by apply (hydra_clks r (where_of b row) s q1); left.
  - apply Z.leb_gt in Hf. apply bind_Ok in E as (s1 & E1 & E). injection E as <- <-.
    split; [eapply (count_group_inv s ep r b row); try done; lia|]. unfold Hydra.count_group in E1. res_inv. by subst.
Qed.

Lemma hydra_outcome found s sent s' : outcome (Hydra.update draw p found s) sent s' -> Hydra.step draw p found s = Ok (sent, s').
Proof.
  unfold Hydra.update. destruct (Hydra.step draw p found s) as [[reqs s1]|e]; [|inversion 1].
  intros (l1 & l2 & x & H1%outcome_send_all & [[= ->] ->]%outcome_done & ->)%outcome_bind. by rewrite H1, app_nil_r.
Qed.

Lemma hydra_inv_miss s ep e : opened g e = None -> inv s ep -> inv s (e :: ep).
Proof.
  intros He [Hl0 Hl1 Hl2 Hi]. split; [done..|]. intros b row Hb Hr.
  apply (row_inv_frame s s ep _); [apply exposed_miss; by rewrite He|done|done|done|by left|by apply Hi].
Qed.

Lemma hydra_update_inv s ep found sent s' : hydra_ok -> inv s ep -> (forall r, found = Some r -> hreq_ok r) ->
  outcome (Hydra.update draw p found s) sent s' ->
  inv s' ((found, sent) :: if Z.rem (Hydra.m_clk s') (Hydra.m_reset_period_clk p) =? 0 then [] else ep).
Proof.
  intros H Hi Hq E%hydra_outcome. unfold Hydra.step in E. apply bind_Ok in E as (s1 & E1 & E).
  apply (hydra_tick_inv s ep s1 H Hi) in E1. destruct found as [r|]; [|injection E as <- <-; by apply hydra_inv_miss].
  apply bind_Ok in E as (act & Ha & E). destruct act.
  - destruct (hydra_activate_inv s1 _ r sent s' H E1 (Hq r eq_refl) Ha E) as [Hi' ->]. exact Hi'.
  - injection E as <- <-. apply hydra_inv_miss; [|done]. unfold opened. cbn. by rewrite Ha.
Qed.

(** The updates since the last reset. *)
Inductive run (s0 : State) : State -> list Event -> Prop :=
| run_start : run s0 s0 []
| run_update s ep found sent s' :
    run s0 s ep -> (forall r, found = Some r -> hreq_ok r) -> outcome (Hydra.update draw p found s) sent s' ->
    run s0 s' ((found, sent) :: if Z.rem (Hydra.m_clk s') (Hydra.m_reset_period_clk p) =? 0 then [] else ep).

Lemma hydra_run_inv s0 s ep : hydra_ok -> inv s0 [] -> run s0 s ep -> inv s ep.
Proof. intros H H0. induction 1 as [|s ep found sent s' _ IH Hq Ho]; [done|]. by eapply hydra_update_inv. Qed.
End Guarantee.

Lemma hydra_setup_inv `{D : IDRAM} `{IO : !IterOrder} {gen : Type} T GT gs ns n pol (g0 : gen) p s0 :
  Hydra.setup T GT gs ns n pol g0 = Ok (p, s0) -> hydra_ok p -> inv p s0 [] /\ Hydra.m_tracking_threshold p = T.
Proof.
  intros H Hp. unfold Hydra.setup in H. cbv zeta in H. repeat (apply bind_Ok in H as (? & _ & H)). injection H as <- <-.
  split; [|done]. pose proof (hy_thr _ Hp). pose proof (hy_ranks _ Hp). pose proof (hy_banks _ Hp). cbn in *.
  split; unfold banks_of; cbn; rewrite ?length_replicate; [nia|done|lia|].
  assert (forall V n b (k : Z), cell (replicate n (∅ : gmap Z V)) b k = None) as Hc.
  { intros V m b k. unfold cell. destruct (_ !! _) as [t|] eqn:E; [|done]. apply lookup_replicate in E as [-> _]. apply lookup_empty. }
  intros b row _ _. split; cbn.
  - intros _. unfold v_rct. cbn. rewrite Hc. cbn. lia.
  - intros _ _. unfold v_group. cbn. rewrite Hc. cbn. split; [lia|]. unfold v_cache. cbn.
    destruct (_ !! _) as [sets|] eqn:E; [|done]. apply lookup_replicate in E as [-> _]. apply Hc.
  - intros _. unfold v_group. cbn. by rewrite Hc.
Qed.

(** ** The plugin of a controller, for levels below the channel *)
Section PluginObject.
Context `{D : IDRAM} `{IO : !IterOrder} {gen : Type} (draw : gen -> Z * gen) (p : Hydra.Config).

Definition levels_ok : Prop :=
  0 < g_row_level (Hydra.m_geo p) /\ 0 < Hydra.m_col_level p /\ 0 < Hydra.m_bank_group_level p /\ 0 < g_bank_level (Hydra.m_geo p).

Context (Hlev : levels_ok).

Lemma rct_request_channel ty row av q : Hydra.rct_request p ty row av = Ok q -> addr_vec q !! 0%nat = av !! 0%nat.
Proof.
  unfold Hydra.rct_request. intros H. apply bind_Ok in H as ([a c] & _ & H). apply bind_Ok in H as (v1 & H1 & H).
  apply bind_Ok in H as (v2 & H2 & H). injection H as <-. cbn. destruct Hlev as (? & ? & _).
  by rewrite (vset_channel _ _ _ _ H2), (vset_channel _ _ _ _ H1).
Qed.

Lemma evict_channel r w set gn l set' gn' : Hydra.evict draw p r w set gn = Ok (l, set', gn') -> Forall (same_channel (Some r)) l.
Proof.
  unfold Hydra.evict. destruct (negb _); [intros H; injection H as <- _ _; constructor|]. intros H.
  apply bind_Ok in H as ([tag g1] & _ & H). apply bind_Ok in H as (bg & _ & H). apply bind_Ok in H as (v1 & H1 & H).
  apply bind_Ok in H as (v2 & H2 & H). apply bind_Ok in H as (q & Hq & H). injection H as <- _ _.
  constructor; [|constructor]. exists r. split; [done|]. destruct Hlev as (_ & _ & ? & ?).
  by rewrite (rct_request_channel _ _ _ _ Hq), (vset_channel _ _ _ _ H2), (vset_channel _ _ _ _ H1).
Qed.

Lemma activate_channel r s reqs s' : Hydra.activate draw p r s = Ok (reqs, s') -> Forall (same_channel (Some r)) reqs.
Proof.
  unfold Hydra.activate. intros H. apply bind_Ok in H as (w & _ & H). destruct (_ <? _).
  { unfold Hydra.count_rct_row in H. apply bind_Ok in H as (t & _ & H). apply bind_Ok in H as (ts & _ & H). injection H as <- _.
    destruct (_ <=? _); [|constructor]. constructor; [apply vrr_same_channel|constructor]. }
  apply bind_Ok in H as (full & _ & H). destruct full; [|apply bind_Ok in H as (s1 & _ & H); injection H as <- _; constructor].
  apply bind_Ok in H as ([q1 s1] & H1 & H). apply bind_Ok in H as ([q2 s2] & H2 & H). injection H as <- _. apply Forall_app. split.
  - unfold Hydra.initialize_group in H1. apply bind_Ok in H1 as (t & _ & H1). destruct (Hydra.initialized _); [injection H1 as <- _; constructor|].
    apply bind_Ok in H1 as (? & _ & H1). apply bind_Ok in H1 as (? & _ & H1). apply bind_Ok in H1 as (? & _ & H1).
    apply bind_Ok in H1 as (rs & Hrs & H1). injection H1 as <- _. apply mapM_Ok in Hrs.
    induction Hrs as [|i q l k Hq _ IH]; [constructor|]. constructor; [|done]. exists r. split; [done|]. by eapply rct_request_channel.
  - unfold Hydra.count_row in H2. apply bind_Ok in H2 as (? & _ & H2). apply bind_Ok in H2 as (? & _ & H2).
    apply bind_Ok in H2 as (? & _ & H2). apply bind_Ok in H2 as (c & Hc & H2). apply bind_Ok in H2 as (? & _ & H2).
    apply bind_Ok in H2 as (? & _ & H2). apply bind_Ok in H2 as (? & _ & H2). injection H2 as <- _. apply Forall_app. split.
    + unfold Hydra.count_in_rcc in Hc. destruct (_ !! _); [injection Hc as <-; constructor|].
      apply bind_Ok in Hc as ([[wb set'] g1] & He & Hc). apply bind_Ok in Hc as (row & _ & Hc). apply bind_Ok in Hc as (rd & Hrd & Hc).
      injection Hc as <-. cbn. apply Forall_app. split; [by eapply evict_channel|]. constructor; [|constructor].
      exists r. split; [done|]. by eapply rct_request_channel.
    + destruct (_ <=? _); [|constructor]. constructor; [apply vrr_same_channel|constructor].
Qed.

#[refine] Definition hydra_plugin (s : Hydra.State (gen := gen)) : Plugin :=
  {| pl_update := Hydra.update draw p; pl_current := s |}.
Proof.
  intros found s'. unfold Hydra.update. destruct (Hydra.step draw p found s') as [[reqs s1]|e] eqn:H; [|done].
  apply Sends_bind; [|done]. apply Sends_all. unfold Hydra.step in H. apply bind_Ok in H as (s2 & _ & H).
  destruct found as [r|]; [|injection H as <- _; constructor]. apply bind_Ok in H as (act & _ & H).
  destruct act; [by eapply activate_channel|injection H as <- _; constructor].
Defined.
End PluginObject.

(** ** Property *)

(** Property C12.  The guarantee of Hydra, for every eviction policy, random
    generator and iteration order: since the last reset of the tables, no row
    of the device, be it an ordinary row or one that holds counters, has been
    opened [hydra_tracking_threshold] times without a refresh of its neighbours
    being requested. *)
Theorem hydra_bounds_activations `{D : IDRAM} `{IO : !IterOrder} {gen : Type} (draw : gen -> Z * gen)
    T GT gs ns n pol (g0 : gen) p s0 s ep b row :
  Hydra.setup T GT gs ns n pol g0 = Ok (p, s0) -> hydra_ok p -> run draw p s0 s ep ->
  0 <= b < g_num_ranks (Hydra.m_geo p) * g_num_banks_per_rank (Hydra.m_geo p) -> row_ok p row ->
  exposed p b row ep < T.
Proof.
  intros Hs Hp Hr Hb Hrow. destruct (hydra_setup_inv _ _ _ _ _ _ _ _ _ Hs Hp) as [H0 <-].
  apply (hydra_run_inv draw p s0) in Hr as [Hl _ _ Hi]; [|done|done]. rewrite <- Hl in Hb. destruct (Hi b row Hb Hrow) as [H1 H2 H3].
  pose proof (hy_thr _ Hp). destruct (rct_row p row) eqn:E; [destruct (H1 eq_refl); lia|].
  destruct (Hydra.initialized (v_group s b (group_of p row))) eqn:Ei.
  - destruct (H3 eq_refl eq_refl) as (_ & m & _ & ? & _). lia.
  - destruct (H2 eq_refl eq_refl) as [? _]. lia.
Qed.

(** ** An example: two banks' worth of activations with threshold 4 *)
#[local] Instance hydra_dram : IDRAM := vrr_dram.

Definition hydra_blank : Hydra.Config * Hydra.State (gen := Z) :=
  (Hydra.mkConfig 0 0 0 "" 0 0 0 0 (mkGeometry 0 0 0 0 0 0) 0 0 0 0 0 0 0 0 0 0 0 0 0,
   Hydra.mkState 0 [] [] [] [] 0 (Hydra.mkStats 0 0 0 0 0 0 0 0 0 0 0)).
Definition hydra_demo : Hydra.Config * Hydra.State (gen := Z) :=
  from_res hydra_blank (Hydra.setup 4 2 128 64000000 4096 "RANDOM" 0).
Definition round_robin (x : Z) : Z * Z := (x mod 16, x + 1).

Lemma hydra_demo_setup : Hydra.setup 4 2 128 64000000 4096 "RANDOM" 0 = Ok (hydra_demo.1, hydra_demo.2).
Proof. rewrite <- surjective_pairing. apply from_res_Ok. vm_compute. reflexivity. Qed.

Lemma hydra_demo_ok : hydra_ok hydra_demo.1.
Proof. split; vm_compute; repeat split; congruence. Qed.

Fixpoint hydra_replay (fs : list (option Request)) (x : Hydra.State (gen := Z) * list Event)
    : res (Hydra.State (gen := Z) * list Event) :=
  match fs with
  | [] => Ok x
  | f :: fs =>
      '(sent, s) ← Hydra.step round_robin hydra_demo.1 f x.1;
      hydra_replay fs (s, (f, sent) :: if Z.rem (Hydra.m_clk s) (Hydra.m_reset_period_clk hydra_demo.1) =? 0 then [] else x.2)
  end.
Definition hydra_hammer : list (option Request) := [act_row 5000; act_row 5000; None; act_row 5000; act_row 5000; act_row 5000; act_row 3].

Lemma hydra_hammer_ok row : 0 <= row < 65536 -> forall r, act_row row = Some r -> hreq_ok hydra_demo.1 r.
Proof.
  intros Hrow r [= <-] b Hb. vm_compute in Hb. injection Hb as <-.
  split; [vm_compute; split; congruence|]. split; [vm_compute; reflexivity|]. exists row. split; [reflexivity|exact Hrow].
Qed.

Lemma hydra_hammer_rows f : In f hydra_hammer -> f = None \/ exists row, 0 <= row < 65536 /\ f = act_row row.
Proof.
  assert (forall row, 0 <= row < 65536 -> act_row row = None \/ exists row', 0 <= row' < 65536 /\ act_row row = act_row row') as Ha
    by (intros row Hrow; right; by exists row).
  cbn [hydra_hammer In]. intros [<-|[<-|[<-|[<-|[<-|[<-|[<-|[]]]]]]]]; [apply Ha; lia|apply Ha; lia|by left|apply Ha; lia..].
Qed.

Lemma hydra_replay_run fs s ep s' ep' : run round_robin hydra_demo.1 hydra_demo.2 s ep ->
  (forall f r, In f fs -> f = Some r -> hreq_ok hydra_demo.1 r) ->
  hydra_replay fs (s, ep) = Ok (s', ep') -> run round_robin hydra_demo.1 hydra_demo.2 s' ep'.
Proof.
  revert s ep. induction fs as [|f fs IH]; cbn [hydra_replay]; intros s ep Hr Hf H; [by injection H as <- <-|].
  apply bind_Ok in H as ([sent s1] & H1 & H). cbn [fst snd] in *. eapply IH; [|intros; eapply Hf; [by right|done]|exact H].
  apply run_update with (s := s); [done|intros; eapply Hf; [by left|done]|]. unfold Hydra.update. rewrite H1.
  clear. induction sent as [|q sent IH]; cbn; [constructor|]. by apply (out_send _ _ true).
Qed.

(** The fourth activation of row 5000 has its neighbours refreshed; one more follows. *)
Definition hydra_events : list Event :=
  from_option id [] (events_of (hydra_replay hydra_hammer (hydra_demo.2, []))).

Lemma hydra_bounds_activations_witness :
  exists s, run round_robin hydra_demo.1 hydra_demo.2 s hydra_events /\
    activations (Hydra.m_geo hydra_demo.1) 0 hydra_events = 6 /\
    exposed hydra_demo.1 0 5000 hydra_events = 1 /\ exposed hydra_demo.1 0 5000 hydra_events < 4.
Proof.
  assert (ok_b (hydra_replay hydra_hammer (hydra_demo.2, [])) = true) as Hok by (vm_compute; reflexivity).
  destruct (hydra_replay hydra_hammer (hydra_demo.2, [])) as [[s ep]|] eqn:E; [|discriminate Hok].
  assert (hydra_events = ep) as Eev by (unfold hydra_events; rewrite E; reflexivity).
  assert (run round_robin hydra_demo.1 hydra_demo.2 s ep) as Hrun.
  { apply (hydra_replay_run hydra_hammer hydra_demo.2 [] s ep (run_start _ _ _)); [|exact E].
    intros f r [->|(row & Hrow & ->)]%hydra_hammer_rows Hf; [discriminate Hf|]. exact (hydra_hammer_ok row Hrow r Hf). }
  exists s. rewrite Eev. split; [exact Hrun|]. rewrite <- Eev.
  split; [vm_compute; reflexivity|]. split; [vm_compute; reflexivity|]. rewrite Eev.
  apply (hydra_bounds_activations round_robin 4 2 128 64000000 4096 "RANDOM" 0 hydra_demo.1 hydra_demo.2 s ep 0 5000
    hydra_demo_setup hydra_demo_ok Hrun); vm_compute; split; congruence.
Defined.
