(* ===== verification/RowSwap.v ===== *)
(** * The plugins RRS and AQUA: [dram_controller/impl/plugin/rrs.cpp] and [aqua.cpp]

    Both move rows that are opened too often to other places of the bank, with
    requests they send to the controller, and redirect later requests with the
    row indirection table of the address mapper.  The mapper belongs to the
    memory system; here it is the member [m_addr_mapper] of the state. *)
From Stdlib Require Import String.
From S2P Require Import Prelude CxxFloat DramSpec Request Dram Plugin Rit RowHammer Graphene RowTracker Prac.
Local Open Scope string_scope.
Local Open Scope Z_scope.

(** ** [RRS]: randomized row swap *)
Module RRS.
Section RRS.
Context `{D : IDRAM} `{IO : !IterOrder}.

(** [distribution(generator)] for the range from 0 to the given bound. *)
Context {gen : Type} (draw : Z -> gen -> Z * gen).

Record Config : Type := mkConfig {
  m_num_hrt_entries : Z;
  m_rss_threshold : Z;
  m_reset_period_clk : Z;
  m_geo : Geometry;
  m_port : RowPort;
}.

Record State : Type := mkState {
  m_clk : Z;
  m_hot_row_tracker : Tracker;
  m_addr_mapper : Rit;
  generator : gen;
  s_num_swaps : Z;
  s_num_unswaps : Z;
  s_num_reswaps : Z;
}.

Definition setup (num_hrt_entries num_rit_entries rss_threshold reset_period_ns : Z) (mapper : Rit) (g0 : gen)
    : res (Config * State) :=
  tCK ← dram_timing "tCK_ps";
  period ← Graphene.reset_period_clk reset_period_ns tCK;
  port ← row_port;
  g ← geometry;
  let banks := g_num_banks_per_rank g * g_num_ranks g in
  rit ← init_rit dram_levels banks num_rit_entries mapper;
  Ok (mkConfig num_hrt_entries rss_threshold period g port, mkState 0 (new_tracker (Z.to_nat banks)) rit g0 0 0 0).

Definition set_rit (rit : Rit) (s : State) : State :=
  mkState (m_clk s) (m_hot_row_tracker s) rit (generator s) (s_num_swaps s) (s_num_unswaps s) (s_num_reswaps s).
Definition set_generator (g : gen) (s : State) : State :=
  mkState (m_clk s) (m_hot_row_tracker s) (m_addr_mapper s) g (s_num_swaps s) (s_num_unswaps s) (s_num_reswaps s).
Definition set_tracker (tr : Tracker) (s : State) : State :=
  mkState (m_clk s) tr (m_addr_mapper s) (generator s) (s_num_swaps s) (s_num_unswaps s) (s_num_reswaps s).
Definition count_swaps (swaps unswaps reswaps : Z) (s : State) : State :=
  mkState (m_clk s) (m_hot_row_tracker s) (m_addr_mapper s) (generator s) (s_num_swaps s + swaps)
    (s_num_unswaps s + unswaps) (s_num_reswaps s + reswaps).

(** The reset empties the trackers and unlocks the table. *)
Definition tick (p : Config) (s : State) : res State :=
  if 2 ^ 31 - 1 <=? m_clk s then Err Undef
  else
    let clk := m_clk s + 1 in
    r ← resets clk (m_reset_period_clk p);
    let s := mkState clk (m_hot_row_tracker s) (m_addr_mapper s) (generator s) (s_num_swaps s) (s_num_unswaps s)
               (s_num_reswaps s) in
    Ok (if r : bool then set_tracker (reset_tracker (m_hot_row_tracker s)) (set_rit (rit_unlock (m_addr_mapper s)) s)
        else s).

(** Draws until the row is neither hot nor swapped nor [row_id] itself. *)
Fixpoint rand_row (fuel : nat) (p : Config) (bank_id row_id : Z) (hrt : gmap Z Z) (rit : Rit) (g : gen) : res (Z * gen) :=
  match fuel with
  | O => Err OutOfFuel
  | S fuel =>
      let '(x, g) := draw (g_num_rows_per_bank (m_geo p)) g in
      c ← check_rit bank_id x rit;
      if bool_decide (hrt !! x = None) && (c =? -1) && negb (x =? row_id) then Ok (x, g)
      else rand_row fuel p bank_id row_id hrt rit g
  end.

Definition get_rand_row (fuel : nat) (p : Config) (bank_id row_id : Z) (s : State) : res (Z * State) :=
  hrt ← vget (tr_tables (m_hot_row_tracker s)) bank_id;
  '(x, g) ← rand_row fuel p bank_id row_id hrt (m_addr_mapper s) (generator s);
  Ok (x, set_generator g s).

(** Both rows are read into buffers and written to each other's place. *)
Definition swap_requests (p : Config) (av : list Z) (src_row dst_row : Z) : res (list Request) :=
  let q := m_port p in
  r0 ← row_requests q (rp_RD_req_id q) src_row av;
  r1 ← row_requests q (rp_RD_req_id q) dst_row av;
  w0 ← row_requests q (rp_WR_req_id q) dst_row av;
  w1 ← row_requests q (rp_WR_req_id q) src_row av;
  Ok (r0 ++ r1 ++ w0 ++ w1)%list.

Definition issue_swap (p : Config) (r : Request) (src_row dst_row : Z) : Act unit :=
  reqs ← Done (swap_requests p (addr_vec r) src_row dst_row); send_all_or_exit reqs.

(** A full table gives up a pair of rows that are not hot. *)
Definition make_room (p : Config) (r : Request) (b : Z) (s : State) : Act State :=
  full ← Done (is_rit_full b (m_addr_mapper s));
  if full : bool then
    hrt ← Done (vget (tr_tables (m_hot_row_tracker s)) b);
    '(x, y) ← Done (get_unswap_pair b hrt (m_addr_mapper s));
    _ ← issue_swap p r x y;
    rit ← Done (rit_remove_entry b x y (m_addr_mapper s));
    mret (count_swaps 0 1 0 (set_rit rit s))
  else mret s.

(** The row was swapped in this epoch. *)
Definition reswap (fuel : nat) (p : Config) (r : Request) (b row prev : Z) (s : State) : Act State :=
  s ← make_room p r b s;
  '(dst_row0, s) ← Done (get_rand_row fuel p b row s);
  '(dst_row1, s) ← Done (get_rand_row fuel p b row s);
  rit ← Done (rit_remove_entry b row prev (m_addr_mapper s));
  _ ← issue_swap p r row dst_row0;
  _ ← issue_swap p r prev dst_row1;
  rit ← Done (rit_insert_entry b row dst_row1 rit);
  rit ← Done (rit_insert_entry b prev dst_row0 rit);
  mret (count_swaps 2 0 1 (set_rit rit s)).

(** The row was swapped in an earlier epoch. *)
Definition unswap_and_swap (fuel : nat) (p : Config) (r : Request) (b row prev : Z) (s : State) : Act State :=
  '(dst_row, s) ← Done (get_rand_row fuel p b row s);
  _ ← issue_swap p r row prev;
  rit ← Done (rit_remove_entry b row prev (m_addr_mapper s));
  _ ← issue_swap p r row dst_row;
  rit ← Done (rit_insert_entry b row dst_row rit);
  mret (count_swaps 1 1 0 (set_rit rit s)).

(** The row is in its own place. *)
Definition fresh_swap (fuel : nat) (p : Config) (r : Request) (b row : Z) (s : State) : Act State :=
  s ← make_room p r b s;
  '(dst_row, s) ← Done (get_rand_row fuel p b row s);
  _ ← issue_swap p r row dst_row;
  rit ← Done (rit_insert_entry b row dst_row (m_addr_mapper s));
  mret (count_swaps 1 0 0 (set_rit rit s)).

Definition swap_row (fuel : nat) (p : Config) (r : Request) (b row : Z) (s : State) : Act State :=
  prev ← Done (check_rit b row (m_addr_mapper s));
  if prev =? -1 then fresh_swap fuel p r b row s
  else
    '(locked, rit) ← Done (is_rit_locked b row (m_addr_mapper s));
    let s := set_rit rit s in
    if locked : bool then reswap fuel p r b row prev s else unswap_and_swap fuel p r b row prev s.

Definition activate (fuel : nat) (p : Config) (r : Request) (s : State) : Act State :=
  b ← Done (flat_bank (m_geo p) r);
  row ← Done (vget (addr_vec r) (g_row_level (m_geo p)));
  '(n, tr) ← Done (track_bank (m_num_hrt_entries p) b row (m_hot_row_tracker s));
  let s := set_tracker tr s in
  match n with
  | None => mret s
  | Some n =>
      if m_rss_threshold p =? 0 then Done (Err Undef)
      else if Z.rem n (m_rss_threshold p) =? 0 then swap_row fuel p r b row s
      else mret s
  end.

Definition update (fuel : nat) (p : Config) (found : option Request) (s : State) : Act State :=
  s ← Done (tick p s);
  match found with
  | None => mret s
  | Some r =>
      act ← Done (is_row_open (g_row_level (m_geo p)) r);
      if act : bool then activate fuel p r s else mret s
  end.
End RRS.
End RRS.

(** ** [AQUA]: quarantine rows *)
Module AQUA.
Section AQUA.
Context `{D : IDRAM} `{IO : !IterOrder}.

Record Config : Type := mkConfig {
  m_num_art_entries : Z;
  m_num_qrows_per_bank : Z;
  m_art_threshold : Z;
  m_reset_period_clk : Z;
  m_geo : Geometry;
  m_port : RowPort;
}.

Record State : Type := mkState {
  m_clk : Z;
  m_rqa_head : Z;
  m_aggressor_row_tracker : Tracker;
  m_reverse_pointer_table : list (gmap Z Z);
  m_addr_mapper : Rit;
  s_num_migrations : Z;
  s_num_r_migrations : Z;
}.

(** [m_reset_period_clk] is a 64-bit number here. *)
Definition reset_period_clk (ns tCK_ps : Z) : res Z :=
  fto_int (- 2 ^ 63) (2 ^ 63 - 1) (F32.div (F32.of_Z ns) (F32.div (F32.of_Z tCK_ps) (F32.of_Z 1000))).

(** The last step of [setup], the reservation of the quarantine rows, changes
    the translation and is a definition of its own. *)
Definition setup (num_art_entries num_fpt_entries num_qrows art_threshold reset_period_ns : Z) (mapper : Rit)
    : res (Config * State) :=
  _ ← DeviceConfig.set_device;
  tCK ← dram_timing "tCK_ps";
  period ← reset_period_clk reset_period_ns tCK;
  port ← row_port;
  g ← geometry;
  let banks := g_num_banks_per_rank g * g_num_ranks g in
  rit ← init_rit dram_levels banks (num_fpt_entries * 2) mapper;
  let n := Z.to_nat banks in
  Ok (mkConfig num_art_entries num_qrows art_threshold period g port,
      mkState 0 0 (new_tracker n) (replicate n ∅) rit 0 0).

(** The quarantine rows are withdrawn from the translation. *)
Definition reserve_rows_for_aqua {T} (map_apply : Request -> res Request) (reserve : Z -> T -> res T)
    (p : Config) (max_addr : Z) (t : T) : res T :=
  reserve_rows map_apply reserve (g_row_level (m_geo p)) (m_num_qrows_per_bank p) max_addr t.

Definition tick (p : Config) (s : State) : res State :=
  let clk := m_clk s + 1 in
  r ← resets clk (m_reset_period_clk p);
  Ok (mkState clk (m_rqa_head s)
        (if r : bool then reset_tracker (m_aggressor_row_tracker s) else m_aggressor_row_tracker s)
        (m_reverse_pointer_table s) (m_addr_mapper s) (s_num_migrations s) (s_num_r_migrations s)).

(** The row is read into a buffer and written to another place. *)
Definition migration_requests (p : Config) (av : list Z) (src_row dst_row : Z) : res (list Request) :=
  let q := m_port p in
  r ← row_requests q (rp_RD_req_id q) src_row av;
  w ← row_requests q (rp_WR_req_id q) dst_row av;
  Ok (r ++ w)%list.

Definition issue_migration (p : Config) (r : Request) (src_row dst_row : Z) : Act unit :=
  reqs ← Done (migration_requests p (addr_vec r) src_row dst_row); send_all_or_exit reqs.

Definition set_tables (rpt : list (gmap Z Z)) (rit : Rit) (s : State) : State :=
  mkState (m_clk s) (m_rqa_head s) (m_aggressor_row_tracker s) rpt rit (s_num_migrations s) (s_num_r_migrations s).

(** A row that is still in the quarantine row at the head goes back to its
    own place. *)
Definition empty_head (p : Config) (r : Request) (b : Z) (s : State) : Act State :=
  t ← Done (vget (m_reverse_pointer_table s) b);
  match t !! m_rqa_head s with
  | None => mret s
  | Some org =>
      rpt ← Done (vset (m_reverse_pointer_table s) b (delete (m_rqa_head s) t));
      rit ← Done (rit_remove_entry b (m_rqa_head s) org (m_addr_mapper s));
      _ ← issue_migration p r (m_rqa_head s) org;
      mret (mkState (m_clk s) (m_rqa_head s) (m_aggressor_row_tracker s) rpt rit (s_num_migrations s)
              (s_num_r_migrations s + 1))
  end.

(** Both tables learn that the row is at the head.  [operator[]] makes up the
    original row 0 for a quarantine row that is not in the table. *)
Definition point_to_head (p : Config) (b row : Z) (s : State) : res State :=
  t ← vget (m_reverse_pointer_table s) b;
  if row <? m_num_qrows_per_bank p then
    let org := default 0 (t !! row) in
    rit ← rit_remove_entry b row org (m_addr_mapper s);
    rpt ← vset (m_reverse_pointer_table s) b (<[m_rqa_head s := org]> (delete row t));
    rit ← rit_insert_entry b (m_rqa_head s) org rit;
    Ok (set_tables rpt rit s)
  else
    rpt ← vset (m_reverse_pointer_table s) b (<[m_rqa_head s := row]> t);
    rit ← rit_insert_entry b row (m_rqa_head s) (m_addr_mapper s);
    Ok (set_tables rpt rit s).

Definition quarantine (p : Config) (r : Request) (b row : Z) (s : State) : Act State :=
  s ← empty_head p r b s;
  _ ← issue_migration p r row (m_rqa_head s);
  s ← Done (point_to_head p b row s);
  if m_num_qrows_per_bank p =? 0 then Done (Err Undef)
  else
    mret (mkState (m_clk s) (Z.rem (m_rqa_head s + 1) (m_num_qrows_per_bank p)) (m_aggressor_row_tracker s)
            (m_reverse_pointer_table s) (m_addr_mapper s) (s_num_migrations s + 1) (s_num_r_migrations s)).

Definition activate (p : Config) (r : Request) (s : State) : Act State :=
  b ← Done (flat_bank (m_geo p) r);
  row ← Done (vget (addr_vec r) (g_row_level (m_geo p)));
  '(n, tr) ← Done (track_bank (m_num_art_entries p) b row (m_aggressor_row_tracker s));
  let s := mkState (m_clk s) (m_rqa_head s) tr (m_reverse_pointer_table s) (m_addr_mapper s) (s_num_migrations s)
             (s_num_r_migrations s) in
  match n with
  | None => mret s
  | Some n =>
      if m_art_threshold p =? 0 then Done (Err Undef)
      else if Z.rem n (m_art_threshold p) =? 0 then quarantine p r b row s
      else mret s
  end.

Definition update (p : Config) (found : option Request) (s : State) : Act State :=
  s ← Done (tick p s);
  match found with
  | None => mret s
  | Some r =>
      act ← Done (is_row_open (g_row_level (m_geo p)) r);
      if act : bool then activate p r s else mret s
  end.
End AQUA.
End AQUA.
