(* ===== verification/RowSwapFacts.v ===== *)
(** * Where the rows are

    The promise of RRS and AQUA is that the row indirection table says where the
    data of a row is.  The requests a plugin sends move the contents of rows;
    this file follows the contents and compares them with the table. *)
From Stdlib Require Import String.
From S2P Require Import Prelude CxxFloat DramSpec Device DDR4VRR StandardsFacts Request Dram Plugin AddrMapper.
From S2P Require Import Rit RowHammer PluginFacts Graphene RowTracker RowSwap.
Local Open Scope Z_scope.

Lemma outcome_lift {A B} (x : res A) (k : A -> Act B) l y :
  outcome (Done x ≫= k) l y -> exists a, x = Ok a /\ outcome (k a) l y.
Proof. destruct x as [a|e]; cbn; [eauto|]. inversion 1. Qed.

Lemma outcome_mret {A} (x : A) l y : outcome (mret x) l y -> l = [] /\ y = x.
Proof. intros H. inversion H. done. Qed.

(** ** Contents of the rows of a bank: which row's data is in a place *)
Definition Contents : Type := Z -> Z.

Definition exchange (x y : Z) (C : Contents) : Contents :=
  fun z => if decide (z = x) then C y else if decide (z = y) then C x else C z.

Definition copy (x y : Z) (C : Contents) : Contents := fun z => if decide (z = y) then C x else C z.

(** The table tells where each row is. *)
Definition located (m : gmap Z RIT_entry) (C : Contents) : Prop := forall row, 0 <= row -> C (redirect m row) = row.

Lemma redirect_None m row : m !! row = None -> redirect m row = row.
Proof. intros H. unfold redirect. by rewrite H. Qed.

Lemma redirect_Some m row e : swaps m -> m !! row = Some e -> redirect m row = dst_row e.
Proof.
  intros Hs H. unfold redirect. rewrite H. pose proof (swaps_nonneg m row e Hs H). destruct (Z.eqb_spec (dst_row e) (-1)); [lia|done].
Qed.

(** A row that is sent to a place of the table is the partner of that place. *)
Lemma redirect_partner m row z f : swaps m -> m !! z = Some f -> redirect m row = z -> row = dst_row f.
Proof.
  intros Hs Hz <-. rewrite <- (redirect_involutive m row Hs). apply (redirect_Some m _ f Hs Hz).
Qed.

Lemma redirect_free m row z : swaps m -> m !! z = None -> redirect m row = z -> row = z.
Proof. intros Hs Hz <-. rewrite <- (redirect_involutive m row Hs) at 1. by apply redirect_None. Qed.

(** Unswapping a pair of the table. *)
Lemma located_remove m C x e : swaps m -> m !! x = Some e -> located m C ->
  located (delete (dst_row e) (delete x m)) (exchange x (dst_row e) C).
Proof.
  intros Hs He HC row Hrow. set (y := dst_row e). destruct (Hs _ _ He) as (Hx & f & Hf & Hfx). fold y in Hf.
  unfold exchange. destruct (decide (row = x)) as [->|Hrx].
  { rewrite (redirect_None _ x); [|destruct (decide (x = y)) as [Exy|]; [by rewrite <- Exy, lookup_delete_eq|by rewrite lookup_delete_ne, lookup_delete_eq]].
    rewrite decide_True by done. rewrite <- (HC x Hx). by rewrite (redirect_Some m x e). }
  destruct (decide (row = y)) as [->|Hry].
  { rewrite (redirect_None _ y) by (by rewrite lookup_delete_eq). rewrite decide_False, decide_True by done.
    transitivity (C (redirect m y)); [by rewrite (redirect_Some m y f), Hfx|by apply HC]. }
  assert (redirect (delete y (delete x m)) row = redirect m row) as -> by (unfold redirect; by rewrite !lookup_delete_ne).
  rewrite !decide_False; [by apply HC| |].
  - intros E. apply Hrx. rewrite (redirect_partner m row y f Hs Hf E). done.
  - intros E. apply Hry. by apply (redirect_partner m row x e).
Qed.

(** Swapping two rows that are in their own places. *)
Lemma located_insert m C x y l1 l2 : swaps m -> m !! x = None -> m !! y = None -> 0 <= x -> 0 <= y -> located m C ->
  located (<[y := mkRIT x l1]> (<[x := mkRIT y l2]> m)) (exchange x y C).
Proof.
  intros Hs Hx Hy H0x H0y HC row Hrow. pose proof (swaps_insert m x y l1 l2 Hs Hx Hy H0x H0y) as Hs'.
  assert (C x = x) as Cx by (rewrite <- (HC x H0x) at 2; by rewrite redirect_None).
  assert (C y = y) as Cy by (rewrite <- (HC y H0y) at 2; by rewrite redirect_None).
  unfold exchange. destruct (decide (row = y)) as [->|Hry].
  { rewrite (redirect_Some _ y (mkRIT x l1)) by (done || apply lookup_insert_eq). cbn. by rewrite decide_True. }
  destruct (decide (row = x)) as [->|Hrx].
  { rewrite (redirect_Some _ x (mkRIT y l2)) by (done || by rewrite lookup_insert_ne, lookup_insert_eq). cbn.
    destruct (decide (y = x)); [done|]. by rewrite decide_True. }
  assert (redirect (<[y := mkRIT x l1]> (<[x := mkRIT y l2]> m)) row = redirect m row) as ->
    by (unfold redirect; by rewrite !lookup_insert_ne).
  rewrite !decide_False; [by apply HC| |].
  - intros E. apply Hry. by apply (redirect_free m).
  - intros E. apply Hrx. by apply (redirect_free m).
Qed.

Lemma redirect_unlock m row : redirect ((fun e => mkRIT (dst_row e) false) <$> m) row = redirect m row.
Proof. unfold redirect. rewrite lookup_fmap. by destruct (m !! row). Qed.

Lemma located_unlock m C : located m C -> located ((fun e => mkRIT (dst_row e) false) <$> m) C.
Proof.
  intros HC row Hrow. rewrite redirect_unlock. by apply HC.
Qed.

(** ** The table of a bank *)
Definition bank_table (rit : Rit) (b : Z) : gmap Z RIT_entry := default ∅ (m_row_indirection_table rit !! Z.to_nat b).

Lemma bank_table_ok rit b : rit_ok rit -> swaps (bank_table rit b).
Proof.
  intros H. unfold bank_table. destruct (_ !! _) as [m|] eqn:E; cbn; [|apply swaps_empty]. apply (Forall_lookup_1 _ _ _ _ H E).
Qed.

Lemma check_rit_table rit b row d : check_rit b row rit = Ok d ->
  0 <= b /\ d = match bank_table rit b !! row with Some e => dst_row e | None => -1 end.
Proof.
  unfold check_rit. intros H. apply bind_Ok in H as (m & [Hb Hm]%vget_Ok & H). injection H as <-. split; [done|].
  unfold bank_table. by rewrite Hm.
Qed.

Lemma check_rit_None rit b row : rit_ok rit -> check_rit b row rit = Ok (-1) -> bank_table rit b !! row = None.
Proof.
  intros Hr [_ H]%check_rit_table. destruct (bank_table rit b !! row) as [e|] eqn:E; [|done].
  pose proof (swaps_nonneg _ _ _ (bank_table_ok rit b Hr) E). lia.
Qed.

(** What the two changes of the table do to the tables of all banks. *)
Definition only_bank (b : Z) (m : gmap Z RIT_entry) (rit rit' : Rit) : Prop :=
  0 <= b /\ forall b', 0 <= b' -> bank_table rit' b' = if decide (b' = b) then m else bank_table rit b'.

Lemma table_put rit b m : 0 <= b < Z.of_nat (length (m_row_indirection_table rit)) ->
  only_bank b m rit (set_table (<[Z.to_nat b := m]> (m_row_indirection_table rit)) rit).
Proof.
  intros Hb. split; [lia|]. intros b' Hb'. unfold bank_table. cbn. case_decide as E; [subst; by rewrite list_lookup_insert_eq by lia|].
  by rewrite list_lookup_insert_ne by lia.
Qed.

Lemma only_bank_ok b m rit rit' : rit_ok rit -> swaps m -> only_bank b m rit rit' -> rit_ok rit'.
Proof.
  intros Hr Hm [_ Ho]. apply Forall_lookup. intros i x Hx. specialize (Ho (Z.of_nat i) ltac:(lia)). unfold bank_table in Ho.
  rewrite Nat2Z.id, Hx in Ho. cbn in Ho. rewrite Ho. case_decide; [done|].
  pose proof (bank_table_ok rit (Z.of_nat i) Hr) as Hb. unfold bank_table in Hb. by rewrite Nat2Z.id in Hb.
Qed.

Lemma insert_entry_table rit b x y rit' : rit_insert_entry b x y rit = Ok rit' ->
  only_bank b (<[y := mkRIT x true]> (<[x := mkRIT y true]> (bank_table rit b))) rit rit'.
Proof.
  unfold rit_insert_entry. intros H. apply bind_Ok in H as (m & [Hb Hm]%vget_Ok & H). cbv zeta in H.
  apply bind_Ok in H as (t & [Hlt ->]%vset_Ok & H). destruct (_ <? _); [done|]. injection H as <-.
  pose proof (table_put rit b (<[y:=mkRIT x true]> (<[x:=mkRIT y true]> m)) ltac:(lia)) as Hp.
  unfold bank_table at 1. by rewrite Hm.
Qed.

Lemma remove_entry_table rit b x y rit' : rit_remove_entry b x y rit = Ok rit' ->
  only_bank b (delete y (delete x (bank_table rit b))) rit rit'.
Proof.
  unfold rit_remove_entry. intros H. apply bind_Ok in H as (m & [Hb Hm]%vget_Ok & H).
  apply bind_Ok in H as (t & [Hlt ->]%vset_Ok & H). injection H as <-.
  pose proof (table_put rit b (delete y (delete x m)) ltac:(lia)) as Hp.
  unfold bank_table at 1. by rewrite Hm.
Qed.

(** ** [RRS] *)
Section RRS.
Context `{D : IDRAM} `{IO : !IterOrder} {gen : Type} (draw : Z -> gen -> Z * gen) (p : RRS.Config).
Hypothesis draw_nonneg : forall n g, 0 <= (draw n g).1.
Notation State := (RRS.State (gen := gen)).

(** The requests are those of a sequence of swaps. *)
Definition swapped (av : list Z) (pairs : list (Z * Z)) (sent : list Request) : Prop :=
  exists rss, Forall2 (fun xy reqs => RRS.swap_requests p av xy.1 xy.2 = Ok reqs) pairs rss /\ sent = concat rss.

Definition after (pairs : list (Z * Z)) (C : Contents) : Contents := foldl (fun C xy => exchange xy.1 xy.2 C) C pairs.

(** The table of every bank follows the swaps, all of which are in bank [b]. *)
Definition follows (av : list Z) (b : Z) (rit : Rit) (sent : list Request) (rit' : Rit) : Prop :=
  rit_ok rit' /\ exists pairs, swapped av pairs sent /\ forall b' C, 0 <= b' -> located (bank_table rit b') C ->
    located (bank_table rit' b') (if decide (b' = b) then after pairs C else C).

Lemma swapped_nil av : swapped av [] [].
Proof. exists []. by split; [constructor|]. Qed.

Lemma swapped_app av ps qs l k : swapped av ps l -> swapped av qs k -> swapped av (ps ++ qs) (l ++ k)%list.
Proof.
  intros (r1 & H1 & ->) (r2 & H2 & ->). exists (r1 ++ r2)%list. split; [by apply Forall2_app|]. by rewrite concat_app.
Qed.

Lemma swapped_one r x y l u : outcome (RRS.issue_swap p r x y) l u -> swapped (addr_vec r) [(x, y)] l.
Proof.
  unfold RRS.issue_swap. intros (reqs & Hr & H)%outcome_lift. apply outcome_send_all_or_exit in H as ->.
  exists [reqs]. split; [constructor; [done|constructor]|]. cbn. by rewrite app_nil_r.
Qed.

Lemma follows_refl av b rit : rit_ok rit -> follows av b rit [] rit.
Proof. intros H. split; [done|]. exists []. split; [apply swapped_nil|]. intros b' C _ HC. by case_decide. Qed.

Lemma follows_trans av b r1 l1 r2 l2 r3 : follows av b r1 l1 r2 -> follows av b r2 l2 r3 -> follows av b r1 (l1 ++ l2)%list r3.
Proof.
  intros (_ & ps & Hs1 & H1) (Hok & qs & Hs2 & H2). split; [done|]. exists (ps ++ qs)%list. split; [by apply swapped_app|].
  intros b' C Hb HC. specialize (H2 b' _ Hb (H1 b' C Hb HC)). unfold after in *. rewrite foldl_app. by case_decide.
Qed.

(** A swap with the change of the table that belongs to it. *)
Lemma unswap_follows r b x e rit l u rit' : rit_ok rit -> bank_table rit b !! x = Some e ->
  outcome (RRS.issue_swap p r x (dst_row e)) l u -> rit_remove_entry b x (dst_row e) rit = Ok rit' -> follows (addr_vec r) b rit l rit'.
Proof.
  intros Hok He Hl%swapped_one Hr%remove_entry_table. pose proof (bank_table_ok rit b Hok) as Hs.
  split; [eapply only_bank_ok; [exact Hok| |exact Hr]; by apply swaps_delete|]. exists [(x, dst_row e)]. split; [done|].
  destruct Hr as [_ Ho]. intros b' C Hb HC. rewrite Ho by done. case_decide; [subst|done]. by apply located_remove.
Qed.

Lemma swap_follows r b x y rit l u rit' : rit_ok rit -> bank_table rit b !! x = None -> bank_table rit b !! y = None ->
  0 <= x -> 0 <= y -> outcome (RRS.issue_swap p r x y) l u -> rit_insert_entry b x y rit = Ok rit' ->
  follows (addr_vec r) b rit l rit'.
Proof.
  intros Hok Hx Hy H0x H0y Hl%swapped_one Hr%insert_entry_table. pose proof (bank_table_ok rit b Hok) as Hs.
  split; [eapply only_bank_ok; [exact Hok| |exact Hr]; by apply swaps_insert|]. exists [(x, y)]. split; [done|].
  destruct Hr as [_ Ho]. intros b' C Hb HC. rewrite Ho by done. case_decide; [subst|done]. by apply located_insert.
Qed.

(** The tracker counts the row. *)
Definition hot_row (s : State) (b row : Z) : Prop :=
  exists hrt, vget (tr_tables (RRS.m_hot_row_tracker s)) b = Ok hrt /\ is_Some (hrt !! row).

Lemma make_room_follows r b (s : State) l s' : rit_ok (RRS.m_addr_mapper s) -> outcome (RRS.make_room p r b s) l s' ->
  follows (addr_vec r) b (RRS.m_addr_mapper s) l (RRS.m_addr_mapper s') /\
  (forall k, bank_table (RRS.m_addr_mapper s) b !! k = None -> bank_table (RRS.m_addr_mapper s') b !! k = None) /\
  (forall k, hot_row s b k -> bank_table (RRS.m_addr_mapper s') b !! k = bank_table (RRS.m_addr_mapper s) b !! k).
Proof.
  intros Hok H. unfold RRS.make_room in H. apply outcome_lift in H as (full & _ & H). destruct full.
  - apply outcome_lift in H as (hrt & Hhrt & H). apply outcome_lift in H as ([x y] & Hxy & H).
    apply outcome_bind in H as (l1 & l2 & u & H1 & H & ->). apply outcome_lift in H as (rit & Hr & H).
    apply outcome_mret in H as [-> ->]. rewrite app_nil_r. cbn.
    unfold get_unswap_pair in Hxy. apply bind_Ok in Hxy as (m & [Hb Hm]%vget_Ok & Hxy).
    destruct (List.find _ _) as [[src e]|] eqn:Ef; [|done]. injection Hxy as <- <-.
    apply find_some in Ef as [Ef Hun]. apply list_elem_of_In, iter_order_elem in Ef.
    assert (bank_table (RRS.m_addr_mapper s) b !! src = Some e) as He by (unfold bank_table; by rewrite Hm).
    split; [by eapply unswap_follows|]. apply remove_entry_table in Hr as [Hb0 Ho].
    split; intros k Hk; rewrite Ho, decide_True by done.
    + destruct (decide (k = dst_row e)) as [->|]; [apply lookup_delete_eq|]. rewrite lookup_delete_ne by done.
      destruct (decide (k = src)) as [->|]; [apply lookup_delete_eq|by rewrite lookup_delete_ne].
    + destruct Hk as (hrt' & Eh & [c Hc]). rewrite Hhrt in Eh. injection Eh as <-. unfold unswappable in Hun. cbn in Hun.
      apply andb_true_iff in Hun as [Hun H2%bool_decide_eq_true]. apply andb_true_iff in Hun as [_ H3%bool_decide_eq_true].
      by rewrite !lookup_delete_ne by congruence.
  - apply outcome_mret in H as [-> ->]. split; [by apply follows_refl|done].
Qed.

Lemma rand_row_spec fuel b row hrt rit g x g' : rit_ok rit -> RRS.rand_row draw fuel p b row hrt rit g = Ok (x, g') ->
  0 <= x /\ x <> row /\ bank_table rit b !! x = None.
Proof.
  intros Hok. revert g. induction fuel as [|fuel IH]; cbn; intros g H; [done|]. pose proof (draw_nonneg (g_num_rows_per_bank (RRS.m_geo p)) g) as Hd.
  destruct (draw _ g) as [z g1]. apply bind_Ok in H as (c & Hc & H). destruct (_ && _) eqn:E; [|by eapply IH].
  injection H as <- <-. apply andb_true_iff in E as [E E3]. apply andb_true_iff in E as [_ E2]. apply Z.eqb_eq in E2 as ->.
  split; [done|]. split; [by intros ->; rewrite Z.eqb_refl in E3|by apply check_rit_None].
Qed.

Lemma get_rand_row_spec fuel b row (s : State) x s' : rit_ok (RRS.m_addr_mapper s) -> RRS.get_rand_row draw fuel p b row s = Ok (x, s') ->
  (0 <= x /\ x <> row /\ bank_table (RRS.m_addr_mapper s) b !! x = None) /\ RRS.m_addr_mapper s' = RRS.m_addr_mapper s.
Proof.
  intros Hok H. unfold RRS.get_rand_row in H. apply bind_Ok in H as (hrt & _ & H). apply bind_Ok in H as ([z g] & Hz & H).
  injection H as <- <-. split; [by eapply rand_row_spec|done].
Qed.

(** The place of a row now holds the data of another row. *)
Definition moved (b row : Z) (rit rit' : Rit) : Prop := redirect (bank_table rit' b) row <> redirect (bank_table rit b) row.

Lemma insert_entry_redirect rit b x y rit' : rit_insert_entry b x y rit = Ok rit' -> x <> y -> 0 <= y ->
  redirect (bank_table rit' b) x = y.
Proof.
  intros [Hb H]%insert_entry_table Hne Hy. rewrite H, decide_True by done. unfold redirect.
  rewrite lookup_insert_ne, lookup_insert_eq by done. cbn. destruct (Z.eqb_spec y (-1)); [lia|done].
Qed.

Lemma fresh_swap_follows fuel r b row (s : State) l s' : rit_ok (RRS.m_addr_mapper s) -> 0 <= row ->
  bank_table (RRS.m_addr_mapper s) b !! row = None -> outcome (RRS.fresh_swap draw fuel p r b row s) l s' ->
  follows (addr_vec r) b (RRS.m_addr_mapper s) l (RRS.m_addr_mapper s') /\ moved b row (RRS.m_addr_mapper s) (RRS.m_addr_mapper s').
Proof.
  intros Hok Hrow Hfree H. unfold RRS.fresh_swap in H. apply outcome_bind in H as (l1 & l2 & s1 & H1 & H & ->).
  apply make_room_follows in H1 as (F1 & Hkeep & _); [|done]. pose proof F1 as [Hok1 _].
  apply outcome_lift in H as ([x s2] & Hx & H). apply get_rand_row_spec in Hx as [(Hx0 & Hxr & Hxn) Em]; [|done].
  apply outcome_bind in H as (l3 & l4 & u & H3 & H & ->). apply outcome_lift in H as (rit & Hr & H).
  apply outcome_mret in H as [-> ->]. rewrite app_nil_r. cbn. rewrite Em in Hr. split.
  - eapply follows_trans; [exact F1|]. eapply swap_follows; [exact Hok1|by apply Hkeep|exact Hxn|done|done|exact H3|exact Hr].
  - unfold moved. rewrite (insert_entry_redirect _ _ _ _ _ Hr), redirect_None by done. done.
Qed.

Lemma unswap_and_swap_follows fuel r b row e (s : State) l s' : rit_ok (RRS.m_addr_mapper s) -> 0 <= row ->
  bank_table (RRS.m_addr_mapper s) b !! row = Some e ->
  outcome (RRS.unswap_and_swap draw fuel p r b row (dst_row e) s) l s' ->
  follows (addr_vec r) b (RRS.m_addr_mapper s) l (RRS.m_addr_mapper s') /\ moved b row (RRS.m_addr_mapper s) (RRS.m_addr_mapper s').
Proof.
  intros Hok Hrow He H. unfold RRS.unswap_and_swap in H. apply outcome_lift in H as ([x s1] & Hx & H).
  apply get_rand_row_spec in Hx as [(Hx0 & Hxr & Hxn) Em]; [|done]. rewrite Em in H.
  apply outcome_bind in H as (l1 & l2 & u & H1 & H & ->). apply outcome_lift in H as (rit1 & Hr1 & H).
  pose proof (unswap_follows _ _ _ _ _ _ _ _ Hok He H1 Hr1) as F1. pose proof F1 as [Hok1 _].
  apply outcome_bind in H as (l3 & l4 & u2 & H3 & H & ->). apply outcome_lift in H as (rit2 & Hr2 & H).
  apply outcome_mret in H as [-> ->]. rewrite app_nil_r. cbn. apply remove_entry_table in Hr1 as [Hb Ho]. split.
  { eapply follows_trans; [exact F1|].
  eapply swap_follows; [exact Hok1| | |exact Hrow|exact Hx0|exact H3|exact Hr2]; rewrite Ho, decide_True by done.
  - destruct (decide (row = dst_row e)) as [<-|]; [apply lookup_delete_eq|]. rewrite lookup_delete_ne by done. apply lookup_delete_eq.
  - destruct (decide (x = dst_row e)) as [->|]; [apply lookup_delete_eq|]. by rewrite !lookup_delete_ne. }
  unfold moved. pose proof (bank_table_ok _ b Hok) as Hs. rewrite (insert_entry_redirect _ _ _ _ _ Hr2), (redirect_Some _ _ _ Hs He) by done.
  intros ->. destruct (Hs _ _ He) as (_ & f & Hf & _). congruence.
Qed.

(** [is_rit_locked] of a row in the table changes nothing. *)
Lemma locked_table rit b row e l rit' : bank_table rit b !! row = Some e -> is_rit_locked b row rit = Ok (l, rit') ->
  l = lock e /\ (rit_ok rit -> rit_ok rit') /\ forall b', 0 <= b' -> bank_table rit' b' = bank_table rit b'.
Proof.
  unfold is_rit_locked. intros He H. apply bind_Ok in H as (m & [Hb Hm]%vget_Ok & H). cbv zeta in H.
  apply bind_Ok in H as (t & [Hlt ->]%vset_Ok & H). injection H as <- <-. unfold bank_table in He. rewrite Hm in He. cbn in He.
  rewrite He. cbn [default]. rewrite insert_id by done. split; [done|].
  assert (set_table (<[Z.to_nat b := m]> (m_row_indirection_table rit)) rit = rit) as ->
    by (rewrite list_insert_id by done; by destruct rit). done.
Qed.

(** The row was not swapped since the last reset. *)
Definition unlocked (rit : Rit) (b row : Z) : Prop := forall e, bank_table rit b !! row = Some e -> lock e = false.

(** The count of the row reaches a multiple of the threshold. *)
Definition hot_count (s : State) (b row : Z) : Prop :=
  exists n tr, track_bank (RRS.m_num_hrt_entries p) b row (RRS.m_hot_row_tracker s) = Ok (Some n, tr) /\
    Z.rem n (RRS.m_rss_threshold p) = 0.

(** The update sees a row opened whose count reaches a multiple of the threshold. *)
Definition hot_event (s : State) (r : Request) (b row : Z) : Prop :=
  is_row_open (g_row_level (RRS.m_geo p)) r = Ok true /\ flat_bank (RRS.m_geo p) r = Ok b /\
  vget (addr_vec r) (g_row_level (RRS.m_geo p)) = Ok row /\ exists s1, RRS.tick p s = Ok s1 /\ hot_count s1 b row.

(** If the request makes its row hot, the row was not swapped since the last
    reset. *)
Definition calm (s : State) (r : Request) : Prop :=
  forall b row, flat_bank (RRS.m_geo p) r = Ok b -> vget (addr_vec r) (g_row_level (RRS.m_geo p)) = Ok row ->
    0 <= row /\ (hot_event s r b row -> unlocked (RRS.m_addr_mapper s) b row).

Lemma follows_tables av b rit1 rit2 l rit' : (forall b', 0 <= b' -> bank_table rit2 b' = bank_table rit1 b') ->
  follows av b rit2 l rit' -> follows av b rit1 l rit'.
Proof.
  intros Heq (Hok & pairs & Hs & H). split; [done|]. exists pairs. split; [done|]. intros b' C Hb HC. apply H; [done|]. by rewrite Heq.
Qed.

Lemma swap_row_follows fuel r b row (s : State) l s' : rit_ok (RRS.m_addr_mapper s) -> 0 <= row ->
  unlocked (RRS.m_addr_mapper s) b row -> outcome (RRS.swap_row draw fuel p r b row s) l s' ->
  follows (addr_vec r) b (RRS.m_addr_mapper s) l (RRS.m_addr_mapper s') /\ moved b row (RRS.m_addr_mapper s) (RRS.m_addr_mapper s').
Proof.
  intros Hok Hrow0 Hlock H. unfold RRS.swap_row in H. apply outcome_lift in H as (prev & Hprev & H).
  destruct (Z.eqb_spec prev (-1)) as [->|Hne].
  - apply check_rit_None in Hprev; [|done]. by eapply fresh_swap_follows.
  - apply check_rit_table in Hprev as [Hb0 Hprev]. destruct (bank_table _ b !! row) as [e|] eqn:E; [subst prev|done].
    apply outcome_lift in H as ([lk rit] & Hl & H). apply (locked_table _ _ _ e) in Hl as (-> & Hok' & Heq); [|done].
    rewrite (Hlock e E) in H.
    eapply (unswap_and_swap_follows fuel r b row e (RRS.set_rit rit s)) in H as [F M]; [|by apply Hok'|done|by cbn; rewrite Heq].
    split; [by eapply follows_tables|]. unfold moved in *. cbn in M. by rewrite <- (Heq b Hb0).
Qed.

Lemma activate_follows fuel r (s : State) l s' : rit_ok (RRS.m_addr_mapper s) ->
  (forall b row, flat_bank (RRS.m_geo p) r = Ok b -> vget (addr_vec r) (g_row_level (RRS.m_geo p)) = Ok row ->
     0 <= row /\ (hot_count s b row -> unlocked (RRS.m_addr_mapper s) b row)) ->
  outcome (RRS.activate draw fuel p r s) l s' ->
  exists b row, flat_bank (RRS.m_geo p) r = Ok b /\ vget (addr_vec r) (g_row_level (RRS.m_geo p)) = Ok row /\
    follows (addr_vec r) b (RRS.m_addr_mapper s) l (RRS.m_addr_mapper s') /\
    (hot_count s b row -> moved b row (RRS.m_addr_mapper s) (RRS.m_addr_mapper s')).
Proof.
  intros Hok Hcalm H. unfold RRS.activate in H. apply outcome_lift in H as (b & Hb & H). apply outcome_lift in H as (row & Hrow & H).
  destruct (Hcalm b row Hb Hrow) as [Hrow0 Hlock]. exists b, row. split; [done|]. split; [done|].
  apply outcome_lift in H as ([n tr] & Htr & H). destruct n as [n|]; cycle 1.
  { apply outcome_mret in H as [-> ->]. split; [by apply follows_refl|]. intros (n & tr' & Hn & _). congruence. }
  destruct (_ =? 0); [by inversion H|]. destruct (Z.eqb_spec (Z.rem n (RRS.m_rss_threshold p)) 0) as [Hz|Hz]; cycle 1.
  { apply outcome_mret in H as [-> ->]. split; [by apply follows_refl|]. intros (n' & tr' & Hn & Hz'). congruence. }
  apply (swap_row_follows fuel r b row (RRS.set_tracker tr s)) in H as [F M]; [|done|done|apply Hlock; by exists n, tr].
  split; [exact F|]. intros _. exact M.
Qed.

Lemma unlock_table rit b : bank_table (rit_unlock rit) b = (fun e => mkRIT (dst_row e) false) <$> bank_table rit b.
Proof. unfold bank_table, rit_unlock. cbn. rewrite list_lookup_fmap. destruct (_ !! _); cbn; [done|by rewrite fmap_empty]. Qed.

Lemma tick_follows av b (s s1 : State) : rit_ok (RRS.m_addr_mapper s) -> RRS.tick p s = Ok s1 ->
  follows av b (RRS.m_addr_mapper s) [] (RRS.m_addr_mapper s1) /\
  (forall b row, unlocked (RRS.m_addr_mapper s) b row -> unlocked (RRS.m_addr_mapper s1) b row) /\
  (forall b row, redirect (bank_table (RRS.m_addr_mapper s1) b) row = redirect (bank_table (RRS.m_addr_mapper s) b) row).
Proof.
  intros Hok H. unfold RRS.tick in H. destruct (_ <=? _); [done|]. apply bind_Ok in H as (b0 & _ & H). injection H as <-.
  destruct b0; cbn; [|split; [by apply follows_refl|done]]. split; [|split].
  - split; [apply (rit_step_ok _ _ Hok), step_unlock|]. exists []. split; [apply swapped_nil|]. intros b' C _ HC.
    rewrite unlock_table. case_decide; by apply located_unlock.
  - intros b1 row _ e. rewrite unlock_table, lookup_fmap.
    destruct (_ !! _); cbn; [|done]. by intros [= <-].
  - intros b1 row. rewrite unlock_table. apply redirect_unlock.
Qed.

Definition av_of (found : option Request) : list Z := match found with Some r => addr_vec r | None => [] end.

(** The bank the scheduled request addresses, if the update sent something. *)
Definition bank_of_sent (g : Geometry) (e : Event) (b : Z) : Prop :=
  e.2 = [] \/ exists r, e.1 = Some r /\ flat_bank g r = Ok b.

Lemma update_follows fuel found (s : State) l s' : rit_ok (RRS.m_addr_mapper s) ->
  (forall r, found = Some r -> calm s r) -> outcome (RRS.update draw fuel p found s) l s' ->
  (exists b, bank_of_sent (RRS.m_geo p) (found, l) b /\ follows (av_of found) b (RRS.m_addr_mapper s) l (RRS.m_addr_mapper s')) /\
  (forall r b row, found = Some r -> hot_event s r b row -> moved b row (RRS.m_addr_mapper s) (RRS.m_addr_mapper s')).
Proof.
  intros Hok Hcalm H. unfold RRS.update in H. apply outcome_lift in H as (s1 & H1 & H).
  destruct found as [r|].
  - destruct (tick_follows (addr_vec r) 0 s s1 Hok H1) as (F0 & Hc & Hred). pose proof F0 as [Hok1 _].
    apply outcome_lift in H as (act & Hact & H). destruct act.
    + apply activate_follows in H as (b & row & Hb & Hrow & F & Hm); [|done|]; cycle 1.
      { intros b row Hb Hrow. destruct (Hcalm r eq_refl b row Hb Hrow) as [Hrow0 Hlock]. split; [done|]. intros Hh. apply Hc, Hlock.
        split; [done|]. split; [done|]. split; [done|]. by exists s1. }
      split.
      * exists b. split; [right; by exists r|]. destruct (tick_follows (addr_vec r) b s s1 Hok H1) as [F1 _]. apply (follows_trans _ _ _ [] _ _ _ F1 F).
      * intros r' b' row' [= <-] (_ & Hb' & Hrow' & s2 & Ht & Hz). unfold moved in *.
        rewrite Hb in Hb'. rewrite Hrow in Hrow'. rewrite H1 in Ht. injection Hb' as <-. injection Hrow' as <-. injection Ht as <-.
        rewrite <- Hred. by apply Hm.
    + apply outcome_mret in H as [-> ->]. split; [exists 0; split; [by left|done]|]. intros r' b row [= <-] (Ha & _). congruence.
  - apply outcome_mret in H as [-> ->]. split; [|done]. exists 0. split; [by left|]. apply (tick_follows [] 0 s s1 Hok H1).
Qed.

(** ** Runs *)
Inductive rrs_run (fuel : nat) (s0 : State) : State -> list Event -> Prop :=
| rrs_start : rrs_run fuel s0 s0 []
| rrs_next s ep found sent s' : rrs_run fuel s0 s ep -> (forall r, found = Some r -> calm s r) ->
    outcome (RRS.update draw fuel p found s) sent s' -> rrs_run fuel s0 s' ((found, sent) :: ep).

(** The contents of all banks after the swaps of a history. *)
Inductive swap_history (C0 : Z -> Contents) : list Event -> (Z -> Contents) -> Prop :=
| hist_nil : swap_history C0 [] C0
| hist_cons ep e b pairs C C' : swap_history C0 ep C -> bank_of_sent (RRS.m_geo p) e b -> swapped (av_of e.1) pairs e.2 ->
    (forall b', 0 <= b' -> C' b' = if decide (b' = b) then after pairs (C b') else C b') -> swap_history C0 (e :: ep) C'.

Lemma rrs_run_located fuel s0 s ep C0 : rit_ok (RRS.m_addr_mapper s0) ->
  (forall b, 0 <= b -> located (bank_table (RRS.m_addr_mapper s0) b) (C0 b)) -> rrs_run fuel s0 s ep ->
  rit_ok (RRS.m_addr_mapper s) /\
  exists C, swap_history C0 ep C /\ forall b, 0 <= b -> located (bank_table (RRS.m_addr_mapper s) b) (C b).
Proof.
  intros Hok H0. induction 1 as [|s ep found sent s' _ (Hr & C & HC & Hl) Hcalm Hout]; [split; [done|]; exists C0; split; [constructor|done]|].
  destruct (update_follows _ _ _ _ _ Hr Hcalm Hout) as [(b & Hb & Hr' & pairs & Hp & Hf) _]. split; [done|].
  exists (fun b' => if decide (b' = b) then after pairs (C b') else C b'). split; [by eapply hist_cons|].
  intros b' Hb'. apply Hf; [done|by apply Hl].
Qed.

(** The branch for rows that were swapped in this epoch loses track of the
    rows it draws. *)
Lemma reswap_misplaces fuel r b row e (s : State) l s' C : rit_ok (RRS.m_addr_mapper s) -> 0 <= b ->
  bank_table (RRS.m_addr_mapper s) b !! row = Some e -> hot_row s b row -> located (bank_table (RRS.m_addr_mapper s) b) C ->
  outcome (RRS.reswap draw fuel p r b row (dst_row e) s) l s' ->
  exists pairs lost, swapped (addr_vec r) pairs l /\ 0 <= lost /\ after pairs C (redirect (bank_table (RRS.m_addr_mapper s') b) lost) <> lost.
Proof.
  intros Hok Hb0 He Hhot HC H. unfold RRS.reswap in H. apply outcome_bind in H as (l1 & l2 & s1 & H1 & H & ->).
  apply make_room_follows in H1 as ((Hok1 & ps & Hps & Hloc) & _ & Hsame); [|done].
  specialize (Hloc b C Hb0 HC). rewrite decide_True in Hloc by done. rewrite <- (Hsame row Hhot) in He. clear Hsame Hhot HC Hok.
  set (m := bank_table (RRS.m_addr_mapper s1) b) in *. set (C1 := after ps C) in *.
  apply outcome_lift in H as ([d0 s2] & Hd0 & H). apply get_rand_row_spec in Hd0 as [(H0 & Hn0 & Hf0) E2]; [|done].
  apply outcome_lift in H as ([d1 s3] & Hd1 & H). apply get_rand_row_spec in Hd1 as [(H01 & Hn1 & Hf1) E3]; [|by rewrite E2].
  rewrite E2 in Hf1, E3. rewrite E3 in H. fold m in Hf0, Hf1.
  apply outcome_lift in H as (rit1 & Hr1 & H). apply outcome_bind in H as (l3 & l4 & u3 & H3 & H & ->).
  apply outcome_bind in H as (l5 & l6 & u5 & H5 & H & ->). apply outcome_lift in H as (rit2 & Hr2 & H).
  apply outcome_lift in H as (rit3 & Hr3 & H). apply outcome_mret in H as [-> ->]. rewrite app_nil_r. cbn.
  exists (ps ++ [(row, d0); (dst_row e, d1)])%list, d0. split; [|split; [done|]].
  { apply swapped_app; [done|]. change [(row, d0); (dst_row e, d1)] with ([(row, d0)] ++ [(dst_row e, d1)])%list.
    apply swapped_app; by eapply swapped_one. }
  apply insert_entry_table in Hr3 as [_ Ho3]. pose proof (bank_table_ok _ b Hok1) as Hs. fold m in Hs.
  destruct (Hs _ _ He) as (_ & f & Hf & _). intros Hbad.
  rewrite Ho3, decide_True in Hbad by done. unfold redirect in Hbad. rewrite lookup_insert_eq in Hbad. cbn in Hbad.
  pose proof (swaps_nonneg _ _ _ Hs He). destruct (Z.eqb_spec (dst_row e) (-1)); [lia|].
  unfold after in Hbad. rewrite foldl_app in Hbad. cbn in Hbad. fold (after ps C) in Hbad. fold C1 in Hbad.
  unfold exchange at 1 in Hbad. rewrite decide_True in Hbad by done. unfold exchange in Hbad.
  rewrite decide_False in Hbad by done. case_decide as Ed.
  - subst d1. pose proof (Hloc (dst_row e) ltac:(lia)) as Hp. rewrite (redirect_Some m (dst_row e) f Hs Hf) in Hp.
    destruct (Hs _ _ He) as (_ & f' & Hf' & Hrow). rewrite Hf in Hf'. injection Hf' as <-. rewrite Hrow in Hp. congruence.
  - pose proof (Hloc d1 H01) as Hp. rewrite redirect_None in Hp by done. congruence.
Qed.
End RRS.

(** ** Executing an update: every request is accepted *)
Fixpoint accept_all {A} (a : Act A) : res (list Request * A) :=
  match a with
  | Done (Ok x) => Ok ([], x)
  | Done (Err e) => Err e
  | PrioritySend req k => '(l, x) ← accept_all (k true); Ok (req :: l, x)
  end.

Lemma accept_all_outcome {A} (a : Act A) l x : accept_all a = Ok (l, x) -> outcome a l x.
Proof.
  revert l. induction a as [[y|e]|req k IH]; cbn; intros l H; [injection H as <- <-; constructor|done|].
  apply bind_Ok in H as ([l1 y] & H1 & H). injection H as <- <-. by apply (out_send _ _ true), IH.
Qed.

(** The initial table leaves every row in its place. *)
Lemma init_rit_fresh levels banks n mapper rit : m_row_indirection_table mapper = [] -> init_rit levels banks n mapper = Ok rit ->
  rit_ok rit /\ forall b, bank_table rit b = ∅.
Proof.
  intros Hm Hi. split; [by eapply init_rit_ok|]. intros b. unfold init_rit in Hi. res_inv. unfold bank_table. cbn. rewrite Hm. cbn.
  destruct (replicate _ _ !! _) as [t|] eqn:E; [|done]. apply lookup_replicate in E as [-> _]. done.
Qed.

Lemma rrs_setup_fresh `{D : IDRAM} {gen : Type} hrt_entries rit_entries threshold ns mapper (g0 : gen) p s0 :
  m_row_indirection_table mapper = [] -> RRS.setup hrt_entries rit_entries threshold ns mapper g0 = Ok (p, s0) ->
  rit_ok (RRS.m_addr_mapper s0) /\ forall b row, redirect (bank_table (RRS.m_addr_mapper s0) b) row = row.
Proof.
  intros Hm Hs. assert (exists banks, init_rit dram_levels banks rit_entries mapper = Ok (RRS.m_addr_mapper s0)) as [banks Hi].
  { unfold RRS.setup in Hs. res_inv. cbn. eauto. }
  destruct (init_rit_fresh _ _ _ _ _ Hm Hi) as [Hok He]. split; [done|]. intros b row. rewrite He. by apply redirect_None.
Qed.


(** ** An example: the rows of a device with threshold 3 and resets every 9 cycles *)
#[local] Instance swap_dram : IDRAM := vrr_dram.

Definition rrs_mapper : Rit := mkRit (mkMapper 6 [0; 0; 2; 2; 16; 7] 6 5 4) [1; 1; 4; 4; 65536; 1024] (-1) (-1) (-1) (-1) [].
Definition count_up (n g : Z) : Z * Z := (100 + Z.abs g, g + 1).
Definition rrs_blank : RRS.Config * RRS.State (gen := Z) :=
  (RRS.mkConfig 0 0 0 (mkGeometry 0 0 0 0 0 0) (mkRowPort 0 0 0 0 0), RRS.mkState 0 (new_tracker 0) rrs_mapper 0 0 0 0).
Definition rrs_demo : RRS.Config * RRS.State (gen := Z) := from_res rrs_blank (RRS.setup 16 4 3 8 rrs_mapper 0).

Lemma rrs_demo_setup : RRS.setup 16 4 3 8 rrs_mapper 0 = Ok (rrs_demo.1, rrs_demo.2).
Proof. rewrite <- surjective_pairing. apply from_res_Ok. vm_compute. reflexivity. Qed.

Lemma count_up_nonneg n g : 0 <= (count_up n g).1.
Proof. cbn. lia. Qed.

Definition locked_b (rit : Rit) (b row : Z) : bool := match bank_table rit b !! row with Some e => lock e | None => false end.

Definition hot_b (p : RRS.Config) (s : RRS.State (gen := Z)) (b row : Z) : bool :=
  match RRS.tick p s with
  | Ok s1 =>
      match track_bank (RRS.m_num_hrt_entries p) b row (RRS.m_hot_row_tracker s1) with
      | Ok (Some n, _) => Z.rem n (RRS.m_rss_threshold p) =? 0
      | _ => false
      end
  | Err _ => false
  end.

Definition calm_b (p : RRS.Config) (s : RRS.State (gen := Z)) (r : Request) : bool :=
  match flat_bank (RRS.m_geo p) r, vget (addr_vec r) (g_row_level (RRS.m_geo p)) with
  | Ok b, Ok row => (0 <=? row) && negb (hot_b p s b row && locked_b (RRS.m_addr_mapper s) b row)
  | _, _ => true
  end.

Lemma calm_b_calm p s r : calm_b p s r = true -> calm p s r.
Proof.
  intros H b row Hb Hrow. unfold calm_b in H. rewrite Hb, Hrow in H. apply andb_true_iff in H as [H1%Z.leb_le H2%negb_true_iff].
  split; [done|]. intros (_ & _ & _ & s1 & Ht & n & tr & Hn & Hz) e He. unfold hot_b, locked_b in H2. by rewrite Ht, Hn, Hz, He in H2.
Qed.

Fixpoint rrs_replay (fs : list (option Request)) (x : RRS.State (gen := Z) * list Event) : res (RRS.State (gen := Z) * list Event) :=
  match fs with
  | [] => Ok x
  | f :: fs =>
      if from_option (calm_b rrs_demo.1 x.1) true f then
        '(sent, s) ← accept_all (RRS.update count_up 10 rrs_demo.1 f x.1);
        rrs_replay fs (s, (f, sent) :: x.2)
      else Err Undef
  end.

Lemma rrs_replay_run fs s0 s ep s' ep' : rrs_run count_up rrs_demo.1 10 s0 s ep -> rrs_replay fs (s, ep) = Ok (s', ep') ->
  rrs_run count_up rrs_demo.1 10 s0 s' ep'.
Proof.
  revert s ep. induction fs as [|f fs IH]; cbn [rrs_replay]; intros s ep Hr H; [by injection H as <- <-|].
  cbn [fst snd] in H. destruct (from_option _ _ _) eqn:Ec; [|done]. apply bind_Ok in H as ([sent s1] & H1 & H).
  eapply IH; [|exact H]. eapply rrs_next; [exact Hr| |by apply accept_all_outcome]. intros r ->. by apply calm_b_calm.
Qed.

(** Row 5 is swapped; after a reset its new place is opened as often. *)
Definition rrs_hammer : list (option Request) :=
  [act_row 5; act_row 5; act_row 5; None; None; None; None; None; None; act_row 100; act_row 100; act_row 100; None].


(** The branch of RRS for rows that were already swapped since
    the last reset breaks the row indirection table: from every state whose
    table tells where the rows are, after the requests this branch sends there is
    a row whose data is not where the table says. *)
Theorem rrs_reswap_misplaces_rows `{D : IDRAM} `{IO : !IterOrder} {gen : Type} (draw : Z -> gen -> Z * gen) p fuel r b row e
    (s : RRS.State (gen := gen)) sent s' C :
  (forall n g, 0 <= (draw n g).1) -> rit_ok (RRS.m_addr_mapper s) -> 0 <= b ->
  bank_table (RRS.m_addr_mapper s) b !! row = Some e -> hot_row s b row -> located (bank_table (RRS.m_addr_mapper s) b) C ->
  outcome (RRS.reswap draw fuel p r b row (dst_row e) s) sent s' ->
  exists pairs lost, swapped p (addr_vec r) pairs sent /\ 0 <= lost /\
    after pairs C (redirect (bank_table (RRS.m_addr_mapper s') b) lost) <> lost.
Proof. intros Hd. by apply reswap_misplaces. Qed.

(** Row 5 is in place 100, which is opened again before the reset. *)
Definition rrs_hot : list (option Request) := [act_row 5; act_row 5; act_row 5; act_row 100].
Definition rrs_hot_state : RRS.State (gen := Z) := (from_res (rrs_demo.2, []) (rrs_replay rrs_hot (rrs_demo.2, []))).1.
Definition rrs_reswapped : list Request * RRS.State (gen := Z) :=
  from_res ([], rrs_demo.2) (accept_all (RRS.reswap count_up 10 rrs_demo.1 (default blank_request (act_row 100)) 0 100 5 rrs_hot_state)).

Lemma rrs_reswap_misplaces_rows_witness : exists C pairs lost,
  located (bank_table (RRS.m_addr_mapper rrs_hot_state) 0) C /\
  swapped rrs_demo.1 [0; 0; 0; 0; 100; 0] pairs rrs_reswapped.1 /\ 0 <= lost /\
  after pairs C (redirect (bank_table (RRS.m_addr_mapper rrs_reswapped.2) 0) lost) <> lost.
Proof.
  assert (exists ep, rrs_replay rrs_hot (rrs_demo.2, []) = Ok (rrs_hot_state, ep)) as [ep E].
  { exists (from_res (rrs_demo.2, []) (rrs_replay rrs_hot (rrs_demo.2, []))).2. unfold rrs_hot_state. rewrite <- surjective_pairing.
    apply from_res_Ok. vm_compute. reflexivity. }
  pose proof (rrs_replay_run rrs_hot _ _ _ _ _ (rrs_start _ _ _ _) E) as Hr.
  destruct (rrs_setup_fresh _ _ _ _ rrs_mapper _ _ _ eq_refl rrs_demo_setup) as [Hok0 Hid].
  destruct (rrs_run_located count_up rrs_demo.1 count_up_nonneg 10 rrs_demo.2 rrs_hot_state ep (fun _ place => place) Hok0)
    as (Hok & C & _ & Hl); [intros b _ row _; apply Hid|exact Hr|].
  assert (bank_table (RRS.m_addr_mapper rrs_hot_state) 0 !! 100 = Some (mkRIT 5 true)) as He by (vm_compute; reflexivity).
  destruct (rrs_reswap_misplaces_rows count_up rrs_demo.1 10 (default blank_request (act_row 100)) 0 100 (mkRIT 5 true) rrs_hot_state
    rrs_reswapped.1 rrs_reswapped.2 (C 0) count_up_nonneg Hok (Z.le_refl 0) He) as (pairs & lost & H1 & H2 & H3).
  - unfold hot_row. assert (match vget (tr_tables (RRS.m_hot_row_tracker rrs_hot_state)) 0 with
      | Ok h => match h !! 100 with Some _ => true | None => false end | Err _ => false end = true) as Hh by (vm_compute; reflexivity).
    destruct (vget _ 0) as [h|]; [|discriminate Hh]. exists h. split; [reflexivity|]. destruct (h !! 100); [by eexists|discriminate Hh].
  - apply Hl. lia.
  - apply accept_all_outcome. rewrite <- surjective_pairing. apply from_res_Ok. vm_compute. reflexivity.
  - exists (C 0), pairs, lost. split; [apply Hl; lia|]. split; [exact H1|]. split; [exact H2|exact H3].
Defined.
