(* ===== verification/AquaFacts.v ===== *)
(** * Where the rows are: AQUA

    AQUA keeps the ordinary rows it moves in a region of quarantine rows, with
    a table from quarantine rows to the rows they hold beside the row
    indirection table of the address mapper. *)
From Stdlib Require Import String.
From S2P Require Import Prelude CxxFloat DramSpec Device DDR4VRR StandardsFacts Request Dram Plugin AddrMapper.
From S2P Require Import Rit RowHammer PluginFacts Graphene RowTracker RowSwap RowSwapFacts.
Local Open Scope Z_scope.

Section AQUA.
Context `{D : IDRAM} `{IO : !IterOrder} (p : AQUA.Config).
Notation Q := (AQUA.m_num_qrows_per_bank p).

(** The requests are those of a sequence of migrations. *)
Definition migrated (av : list Z) (moves : list (Z * Z)) (sent : list Request) : Prop :=
  exists rss, Forall2 (fun xy reqs => AQUA.migration_requests p av xy.1 xy.2 = Ok reqs) moves rss /\ sent = concat rss.

Definition after_moves (moves : list (Z * Z)) (C : Contents) : Contents := foldl (fun C xy => copy xy.1 xy.2 C) C moves.

Definition partner (m : gmap Z RIT_entry) (x : Z) : option Z := dst_row <$> m !! x.

(** The two tables of a bank: they hold the same pairs of a quarantine row and
    an ordinary row. *)
Record pointers_ok (t : gmap Z Z) (m : gmap Z RIT_entry) : Prop := {
  po_range : forall q org, t !! q = Some org -> 0 <= q < Q /\ Q <= org;
  po_match : forall x y, partner m x = Some y <-> (t !! x = Some y \/ t !! y = Some x);
}.

(** The table tells where each ordinary row is. *)
Definition ordinary_located (m : gmap Z RIT_entry) (C : Contents) : Prop := forall row, Q <= row -> C (redirect m row) = row.

Lemma pointers_inj t m q q' org : pointers_ok t m -> t !! q = Some org -> t !! q' = Some org -> q = q'.
Proof.
  intros [_ Hm] H1 H2. assert (partner m org = Some q) as E1 by (apply Hm; by right).
  assert (partner m org = Some q') as E2 by (apply Hm; by right). congruence.
Qed.

Lemma partner_redirect m x : partner m x <> Some (-1) -> redirect m x = default x (partner m x).
Proof.
  intros H. unfold redirect, partner in *. destruct (m !! x) as [e|]; cbn in *; [|done].
  destruct (Z.eqb_spec (dst_row e) (-1)) as [E|]; [|done]. by rewrite E in H.
Qed.

Lemma partner_nonneg t m x y : pointers_ok t m -> 0 <= Q -> partner m x = Some y -> 0 <= x /\ 0 <= y.
Proof. intros [Hr Hm] HQ [H|H]%Hm; apply Hr in H; lia. Qed.

Lemma aqua_redirect t m x : pointers_ok t m -> 0 <= Q -> redirect m x = default x (partner m x).
Proof. intros Hp HQ. apply partner_redirect. intros H%(partner_nonneg t); [|done|done]. lia. Qed.

(** A quarantined row leaves the tables. *)
Lemma pointers_remove t m q org : pointers_ok t m -> t !! q = Some org -> pointers_ok (delete q t) (delete org (delete q m)).
Proof.
  intros Hp Hq. pose proof Hp as [Hr Hm]. destruct (Hr _ _ Hq) as [Hq0 Horg]. split.
  - intros q' org' H. apply lookup_delete_Some in H as [_ H]. by apply Hr.
  - intros x y. unfold partner. destruct (decide (x = org)) as [->|Hxo]; [|destruct (decide (x = q)) as [->|Hxq]].
    + rewrite lookup_delete_eq. split; [done|]. rewrite !lookup_delete_Some. intros [[_ H1]|[Hne H1]].
      * apply Hr in H1. lia.
      * exfalso. apply Hne. symmetry. by apply (pointers_inj t m y q org).
    + rewrite lookup_delete_ne, lookup_delete_eq by done. split; [done|]. rewrite !lookup_delete_Some. intros [[? _]|[_ H1]]; [done|].
      apply Hr in H1. lia.
    + rewrite !lookup_delete_ne by done. fold (partner m x). rewrite Hm, lookup_delete_Some. split; [|intros [?|[? ?]]; auto].
      intros [?|H1]; [by left|right]. split; [|done]. intros <-. rewrite Hq in H1. by injection H1 as ->.
Qed.

(** A row enters a free quarantine row. *)
Lemma pointers_insert t m m' q org : pointers_ok t m -> t !! q = None -> partner m org = None -> 0 <= q < Q -> Q <= org ->
  (forall x, partner m' x = if decide (x = q) then Some org else if decide (x = org) then Some q else partner m x) ->
  pointers_ok (<[q := org]> t) m'.
Proof.
  intros [Hr Hm] Hq Ho Hq0 Horg Hm'. split.
  - intros q' org' [[<- <-]|[_ H]]%lookup_insert_Some; [done|by apply Hr].
  - intros x y. rewrite Hm', !lookup_insert_Some. destruct (decide (x = q)) as [->|Hxq]; [|destruct (decide (x = org)) as [->|Hxo]].
    + split; [intros [= ->]; by left; left|]. intros [[[_ ->]|[? _]]|[[-> ->]|[_ H]]]; [done|done|lia|].
      apply Hr in H. lia.
    + split; [intros [= ->]; by right; left|]. intros [[[-> _]|[_ H]]|[[-> _]|[Hne H]]]; [lia| |done|].
      * apply Hr in H. lia.
      * assert (partner m org = Some y) by (apply Hm; by right). congruence.
    + rewrite Hm. split; [intros [?|H]; [left; right; by split|]|intros [[[? _]|[_ ?]]|[[_ ?]|[_ ?]]]; try done; auto].
      right. right. split; [|done]. intros <-. congruence.
Qed.

(** The contents follow. *)
Lemma remove_located t m q org C : pointers_ok t m -> 0 <= Q -> t !! q = Some org -> ordinary_located m C ->
  ordinary_located (delete org (delete q m)) (copy q org C).
Proof.
  intros Hp HQ Hq HC row Hrow. pose proof (pointers_remove t m q org Hp Hq) as Hp'. pose proof Hp as [Hr Hm]. destruct (Hr _ _ Hq) as [Hq0 Horg].
  rewrite (aqua_redirect (delete q t)) by done. unfold copy, partner. destruct (decide (row = org)) as [->|Hne].
  - rewrite lookup_delete_eq. cbn. rewrite decide_True by done. specialize (HC org Hrow). rewrite (aqua_redirect t) in HC by done.
    assert (partner m org = Some q) as E by (apply Hm; by right). by rewrite E in HC.
  - rewrite !lookup_delete_ne by lia. fold (partner m row). rewrite <- (aqua_redirect t) by done. rewrite decide_False; [by apply HC|].
    rewrite (aqua_redirect t) by done. destruct (partner m row) as [y|] eqn:E; cbn; [|done].
    apply Hm in E as [E|E]; apply Hr in E; lia.
Qed.

Lemma insert_located t m m' q org src C : pointers_ok t m -> 0 <= Q -> t !! q = None -> partner m org = None -> 0 <= q < Q -> Q <= org ->
  (forall x, partner m' x = if decide (x = q) then Some org else if decide (x = org) then Some q else partner m x) ->
  C src = org -> (forall row, Q <= row -> row <> org -> C (redirect m row) = row) -> ordinary_located m' (copy src q C).
Proof.
  intros Hp HQ Hq Ho Hq0 Horg Hm' Hsrc HC row Hrow. pose proof (pointers_insert t m m' q org Hp Hq Ho Hq0 Horg Hm') as Hp'.
  rewrite (aqua_redirect (<[q := org]> t)), Hm' by done. rewrite decide_False by lia. unfold copy. destruct (decide (row = org)) as [->|Hne].
  - cbn. by rewrite decide_True.
  - rewrite <- (aqua_redirect t) by done. rewrite decide_False; [by apply HC|]. rewrite (aqua_redirect t) by done.
    destruct (partner m row) as [y|] eqn:E; cbn; [|lia]. apply (po_match _ _ Hp) in E as [E|E].
    + apply (po_range _ _ Hp) in E. lia.
    + intros ->. congruence.
Qed.

(** ** The tables of a state *)
Definition ptable (s : AQUA.State) (b : Z) : gmap Z Z := default ∅ (AQUA.m_reverse_pointer_table s !! Z.to_nat b).
Notation rtable s b := (bank_table (AQUA.m_addr_mapper s) b).

Definition aqua_ok (s : AQUA.State) : Prop :=
  0 <= AQUA.m_rqa_head s < Q /\ forall b, 0 <= b -> pointers_ok (ptable s b) (rtable s b).

(** The tables of every bank follow the migrations, all of which are in bank [b]. *)
Definition aqua_follows (av : list Z) (b : Z) (s : AQUA.State) (sent : list Request) (s' : AQUA.State) : Prop :=
  aqua_ok s' /\ exists moves, migrated av moves sent /\ forall b' C, 0 <= b' -> ordinary_located (rtable s b') C ->
    ordinary_located (rtable s' b') (if decide (b' = b) then after_moves moves C else C).

Lemma migrated_one r x y l u : outcome (AQUA.issue_migration p r x y) l u -> migrated (addr_vec r) [(x, y)] l.
Proof.
  intros H. unfold AQUA.issue_migration in H. apply outcome_lift in H as (reqs & Hr & H). apply outcome_send_all_or_exit in H as ->.
  exists [reqs]. cbn. rewrite app_nil_r. split; [by constructor|done].
Qed.

Lemma aqua_follows_refl av b s : aqua_ok s -> aqua_follows av b s [] s.
Proof. intros H. split; [done|]. exists []. split; [by exists []|]. intros b' C _ HC. by case_decide. Qed.

Lemma aqua_follows_trans av b s1 l1 s2 l2 s3 : aqua_follows av b s1 l1 s2 -> aqua_follows av b s2 l2 s3 ->
  aqua_follows av b s1 (l1 ++ l2)%list s3.
Proof.
  intros (_ & m1 & (k1 & F1 & ->) & H1) (Hok & m2 & (k2 & F2 & ->) & H2). split; [done|]. exists (m1 ++ m2)%list. split.
  - exists (k1 ++ k2)%list. rewrite concat_app. split; [by apply Forall2_app|done].
  - intros b' C Hb HC. specialize (H2 b' _ Hb (H1 b' C Hb HC)). unfold after_moves in *. rewrite foldl_app. by case_decide.
Qed.

Lemma ptable_put (l : list (gmap Z Z)) b t : 0 <= b < Z.of_nat (length l) -> forall b', 0 <= b' ->
  default ∅ (<[Z.to_nat b := t]> l !! Z.to_nat b') = if decide (b' = b) then t else default ∅ (l !! Z.to_nat b').
Proof.
  intros Hb b' Hb'. case_decide as E; [subst; by rewrite list_lookup_insert_eq by lia|]. by rewrite list_lookup_insert_ne by lia.
Qed.

(** A change of the tables of one bank together with one migration. *)
Lemma aqua_follows_one r b x y l u s s' t m : aqua_ok s -> outcome (AQUA.issue_migration p r x y) l u ->
  0 <= AQUA.m_rqa_head s' < Q ->
  (forall b', 0 <= b' -> ptable s' b' = if decide (b' = b) then t else ptable s b') ->
  only_bank b m (AQUA.m_addr_mapper s) (AQUA.m_addr_mapper s') -> pointers_ok t m ->
  (forall C, ordinary_located (rtable s b) C -> ordinary_located m (copy x y C)) -> aqua_follows (addr_vec r) b s l s'.
Proof.
  intros [_ Hok] Hl Hh Ht [Hb Hm] Hp HC. split.
  - split; [done|]. intros b' Hb'. rewrite Ht, Hm by done. case_decide; [done|by apply Hok].
  - exists [(x, y)]. split; [by eapply migrated_one|]. intros b' C Hb' Hloc. rewrite Hm by done.
    destruct (decide (b' = b)) as [->|]; [by apply HC|done].
Qed.

Lemma ptable_vget s b t : vget (AQUA.m_reverse_pointer_table s) b = Ok t -> 0 <= b /\ ptable s b = t.
Proof. intros [Hb Ht]%vget_Ok. split; [done|]. unfold ptable. by rewrite Ht. Qed.

(** The head is made free: only the row it held moves. *)
Lemma empty_head_follows r b s l s' : aqua_ok s -> outcome (AQUA.empty_head p r b s) l s' ->
  aqua_follows (addr_vec r) b s l s' /\ AQUA.m_rqa_head s' = AQUA.m_rqa_head s /\
  ptable s' b = delete (AQUA.m_rqa_head s) (ptable s b) /\ 0 <= b.
Proof.
  intros Hok H. pose proof Hok as [Hh Hp]. unfold AQUA.empty_head in H. apply outcome_lift in H as (t & Ht & H).
  pose proof (ptable_vget _ _ _ Ht) as [Hb Et]. apply vget_Ok in Ht as [_ Ht].
  destruct (t !! AQUA.m_rqa_head s) as [org|] eqn:E.
  - apply outcome_lift in H as (rpt & [Hlt ->]%vset_Ok & H). apply outcome_lift in H as (rit & Hr & H).
    apply outcome_bind in H as (l1 & l2 & u & H1 & H & ->). apply outcome_mret in H as [-> ->]. rewrite app_nil_r.
    assert (Hpt : forall b', 0 <= b' -> default ∅ (<[Z.to_nat b := delete (AQUA.m_rqa_head s) t]> (AQUA.m_reverse_pointer_table s) !! Z.to_nat b')
      = if decide (b' = b) then delete (AQUA.m_rqa_head s) t else ptable s b') by (apply ptable_put; lia).
    split; [|split; [done|split; [|done]]].
    + eapply aqua_follows_one; [done|exact H1|done|exact Hpt|exact (remove_entry_table _ _ _ _ _ Hr)| |].
      * apply pointers_remove; [by rewrite <- Et; apply Hp|done].
      * intros C HC. apply (remove_located t); [by rewrite <- Et; apply Hp|lia|done|done].
    + unfold ptable at 1. cbn [AQUA.m_reverse_pointer_table]. rewrite (Hpt b Hb), decide_True by done. by rewrite Et.
  - apply outcome_mret in H as [-> ->]. split; [by apply aqua_follows_refl|]. split; [done|]. split; [|done].
    rewrite delete_id; [done|]. by rewrite Et.
Qed.

(** A hot row that is not at the head: a quarantine row is in use, an ordinary
    row is in its own place. *)
Definition in_use (s : AQUA.State) (b row : Z) : Prop :=
  row <> AQUA.m_rqa_head s /\ (row < Q -> is_Some (ptable s b !! row)) /\ (Q <= row -> rtable s b !! row = None).

Lemma partner_insert2 m x y l1 l2 : x <> y -> forall z,
  partner (<[y := mkRIT x l1]> (<[x := mkRIT y l2]> m)) z =
    if decide (z = x) then Some y else if decide (z = y) then Some x else partner m z.
Proof.
  intros Hne z. unfold partner. destruct (decide (z = x)) as [->|]; [by rewrite lookup_insert_ne, lookup_insert_eq by done|].
  destruct (decide (z = y)) as [->|]; [by rewrite lookup_insert_eq|]. by rewrite !lookup_insert_ne by done.
Qed.

Lemma partner_delete2 m x y z : partner (delete y (delete x m)) z = if decide (z = x \/ z = y) then None else partner m z.
Proof.
  unfold partner. case_decide as E; [|by rewrite !lookup_delete_ne by naive_solver].
  destruct (decide (z = y)) as [->|]; [by rewrite lookup_delete_eq|]. rewrite lookup_delete_ne by done.
  destruct E as [->|?]; [by rewrite lookup_delete_eq|done].
Qed.

(** A quarantine row moves on to the head. *)
Lemma requarantine_located t m m' q row org C : pointers_ok t m -> 0 <= Q -> 0 <= q < Q -> t !! q = None -> t !! row = Some org ->
  (forall z, partner m' z = if decide (z = q) then Some org else if decide (z = org) then Some q else partner (delete org (delete row m)) z) ->
  pointers_ok (<[q := org]> (delete row t)) m' /\ (ordinary_located m C -> ordinary_located m' (copy row q C)).
Proof.
  intros Hp HQ Hq Hfree Hrow Hm'. pose proof (pointers_remove t m row org Hp Hrow) as Hp1.
  assert (Hfree' : delete row t !! q = None) by (apply lookup_delete_None; by right).
  assert (Horg : partner (delete org (delete row m)) org = None) by (rewrite partner_delete2, decide_True by auto; done).
  destruct (po_range _ _ Hp _ _ Hrow) as [Hr0 Ho0]. split; [by eapply pointers_insert|]. intros HC.
  assert (partner m org = Some row) as Eorg by (apply (po_match _ _ Hp); by right).
  apply (insert_located (delete row t) (delete org (delete row m)) m' q org row C); try done.
  - specialize (HC org Ho0). by rewrite (aqua_redirect t), Eorg in HC.
  - intros row' Hrow' Hne. rewrite (aqua_redirect (delete row t)), partner_delete2, decide_False by (try done; lia).
    rewrite <- (aqua_redirect t) by done. by apply HC.
Qed.

(** An ordinary row moves to the head. *)
Lemma quarantine_located t m m' q row C : pointers_ok t m -> 0 <= Q -> 0 <= q < Q -> t !! q = None -> Q <= row -> partner m row = None ->
  (forall z, partner m' z = if decide (z = q) then Some row else if decide (z = row) then Some q else partner m z) ->
  pointers_ok (<[q := row]> t) m' /\ (ordinary_located m C -> ordinary_located m' (copy row q C)).
Proof.
  intros Hp HQ Hq Hfree Hrow Hn Hm'. split; [by eapply pointers_insert|]. intros HC.
  apply (insert_located t m m' q row row C); try done; [|intros row' Hrow' _; by apply HC].
  specialize (HC row Hrow). by rewrite (aqua_redirect t), Hn in HC.
Qed.

Lemma point_to_head_spec b row s s' : AQUA.point_to_head p b row s = Ok s' -> aqua_ok s -> 0 <= b ->
  let q := AQUA.m_rqa_head s in
  ptable s b !! q = None -> in_use s b row ->
  AQUA.m_rqa_head s' = q /\ exists t m,
    (forall b', 0 <= b' -> ptable s' b' = if decide (b' = b) then t else ptable s b') /\
    only_bank b m (AQUA.m_addr_mapper s) (AQUA.m_addr_mapper s') /\ pointers_ok t m /\
    (forall C, ordinary_located (rtable s b) C -> ordinary_located m (copy row q C)) /\
    t !! q = Some (if row <? Q then default 0 (ptable s b !! row) else row).
Proof.
  intros H [Hq Hp] Hb q Hfree (Hne & Hlow & Hhigh). specialize (Hp b Hb). unfold AQUA.point_to_head in H.
  apply bind_Ok in H as (t & Ht & H). apply ptable_vget in Ht as [_ Et]. rewrite Et in *. destruct (Z.ltb_spec row Q) as [Hlt|Hge].
  - destruct (Hlow Hlt) as [org Horg]. rewrite Horg in H |- *. cbn [default] in H. apply bind_Ok in H as (rit1 & Hr1 & H).
    apply bind_Ok in H as (rpt & [Hlen ->]%vset_Ok & H). apply bind_Ok in H as (rit2 & Hr2 & H). injection H as <-. split; [done|].
    apply remove_entry_table in Hr1 as [_ Hr1]. apply insert_entry_table in Hr2 as [_ Hr2]. rewrite Hr1, decide_True in Hr2 by done.
    eexists _, _. split; [apply ptable_put; lia|]. split.
    { split; [done|]. intros b' Hb'. cbn. rewrite Hr2 by done. case_decide; [reflexivity|]. by rewrite Hr1, decide_False. }
    destruct (po_range _ _ Hp _ _ Horg) as [_ Hbig]. split; [|split; [|apply lookup_insert_eq]].
    + eapply (requarantine_located t (rtable s b) _ q row org id); try done; [lia|]. apply partner_insert2. unfold q. lia.
    + intros C. eapply (requarantine_located t (rtable s b) _ q row org C); try done; [lia|]. apply partner_insert2. unfold q. lia.
  - apply bind_Ok in H as (rpt & [Hlen ->]%vset_Ok & H). apply bind_Ok in H as (rit2 & Hr2 & H). injection H as <-. split; [done|].
    apply insert_entry_table in Hr2 as [_ Hr2]. eexists _, _. split; [apply ptable_put; lia|]. split; [split; [done|exact Hr2]|].
    assert (Hn : partner (rtable s b) row = None) by (unfold partner; by rewrite Hhigh).
    assert (Hpart : forall z, partner (<[q := mkRIT row true]> (<[row := mkRIT q true]> (rtable s b))) z =
      if decide (z = q) then Some row else if decide (z = row) then Some q else partner (rtable s b) z).
    { intros z. rewrite partner_insert2 by (unfold q; lia). repeat case_decide; try done. subst. unfold q in *. lia. }
    split; [eapply (quarantine_located t (rtable s b) _ q row id); try done; lia|]. split; [|apply lookup_insert_eq].
    intros C. eapply (quarantine_located t (rtable s b) _ q row C); try done; lia.
Qed.

(** The data in the place [row] is found in the tables. *)
Lemma redirect_data t m d row : pointers_ok t m -> 0 <= Q -> Q <= d -> redirect m d = row ->
  d = if row <? Q then default 0 (t !! row) else row.
Proof.
  intros Hp HQ Hd. rewrite (aqua_redirect t) by done. destruct (partner m d) as [y|] eqn:E; cbn; intros <-.
  - apply (po_match _ _ Hp) in E as [E|E]; pose proof (po_range _ _ Hp _ _ E); [lia|]. rewrite (proj2 (Z.ltb_lt _ _)) by lia. by rewrite E.
  - by rewrite (proj2 (Z.ltb_ge _ _)) by lia.
Qed.

Lemma in_use_after s s' b row : aqua_ok s -> aqua_ok s' -> 0 <= b -> AQUA.m_rqa_head s' = AQUA.m_rqa_head s ->
  ptable s' b = delete (AQUA.m_rqa_head s) (ptable s b) -> in_use s b row -> in_use s' b row.
Proof.
  intros [_ Hp] [_ Hp1] Hb Eh Et (Hne & Hlow & Hhigh). specialize (Hp b Hb). specialize (Hp1 b Hb).
  split; [by rewrite Eh|]. rewrite Et. split; [rewrite lookup_delete_ne by done; done|]. intros Hge.
  destruct (rtable s' b !! row) as [e|] eqn:E; [exfalso|done].
  assert (partner (rtable s' b) row = Some (dst_row e)) as [H|H]%(po_match _ _ Hp1) by (unfold partner; by rewrite E).
  - apply (po_range _ _ Hp1) in H. lia.
  - rewrite Et in H. apply lookup_delete_Some in H as [_ H].
    assert (partner (rtable s b) row = Some (dst_row e)) as Hx by (apply (po_match _ _ Hp); by right).
    unfold partner in Hx. by rewrite Hhigh in Hx.
Qed.

Lemma quarantine_follows r b row s l s' : aqua_ok s -> in_use s b row -> outcome (AQUA.quarantine p r b row s) l s' ->
  aqua_follows (addr_vec r) b s l s' /\
  (forall d, Q <= d -> redirect (rtable s b) d = row -> redirect (rtable s' b) d = AQUA.m_rqa_head s).
Proof.
  intros Hok Huse H. unfold AQUA.quarantine in H. apply outcome_bind in H as (l1 & l2 & s1 & H1 & H & ->).
  apply empty_head_follows in H1 as (F1 & Eh & Et & Hb); [|done]. pose proof F1 as [Hok1 _].
  apply outcome_bind in H as (l3 & l4 & u & H3 & H & ->). apply outcome_lift in H as (s2 & H2 & H).
  destruct (Z.eqb_spec Q 0); [by inversion H|]. apply outcome_mret in H as [-> ->]. rewrite app_nil_r.
  destruct (point_to_head_spec b row s1 s2 H2 Hok1 Hb) as (Eh2 & t & m & Ht & Hm & Hp & HC & Hq);
    [rewrite Et, Eh; apply lookup_delete_eq|by apply (in_use_after s)|]. split.
  - eapply aqua_follows_trans; [exact F1|]. eapply aqua_follows_one; [exact Hok1|exact H3| |exact Ht|exact Hm|exact Hp|exact HC].
    cbn. destruct Hok1 as [Hq1 _]. rewrite Eh2, Z.rem_mod_nonneg by lia. apply Z.mod_pos_bound. lia.
  - intros d Hd Hred. pose proof Hok as [Hh Hp0]. destruct Huse as [Hne _]. apply (redirect_data (ptable s b)) in Hred; [|by apply Hp0|lia|done].
    rewrite Et, lookup_delete_ne, <- Hred, Eh in Hq by done. cbn [AQUA.m_addr_mapper]. destruct Hm as [_ Hm].
    rewrite Hm, decide_True, (aqua_redirect t) by (try done; lia).
    assert (partner m d = Some (AQUA.m_rqa_head s)) as -> by (apply (po_match _ _ Hp); by right). done.
Qed.

(** The count of the row reaches a multiple of the threshold. *)
Definition aqua_hot_count (s : AQUA.State) (b row : Z) : Prop :=
  exists n tr, track_bank (AQUA.m_num_art_entries p) b row (AQUA.m_aggressor_row_tracker s) = Ok (Some n, tr) /\
    Z.rem n (AQUA.m_art_threshold p) = 0.

Definition aqua_hot_event (s : AQUA.State) (r : Request) (b row : Z) : Prop :=
  is_row_open (g_row_level (AQUA.m_geo p)) r = Ok true /\ flat_bank (AQUA.m_geo p) r = Ok b /\
  vget (addr_vec r) (g_row_level (AQUA.m_geo p)) = Ok row /\ exists s1, AQUA.tick p s = Ok s1 /\ aqua_hot_count s1 b row.

(** A row that gets hot is in use and not at the head. *)
Definition well_placed (s : AQUA.State) (r : Request) : Prop := forall b row, aqua_hot_event s r b row -> in_use s b row.

Lemma aqua_activate_follows r s l s' : aqua_ok s -> outcome (AQUA.activate p r s) l s' ->
  (forall b row, flat_bank (AQUA.m_geo p) r = Ok b -> vget (addr_vec r) (g_row_level (AQUA.m_geo p)) = Ok row ->
     aqua_hot_count s b row -> in_use s b row) ->
  exists b row, flat_bank (AQUA.m_geo p) r = Ok b /\ vget (addr_vec r) (g_row_level (AQUA.m_geo p)) = Ok row /\
    aqua_follows (addr_vec r) b s l s' /\
    (aqua_hot_count s b row -> forall d, Q <= d -> redirect (rtable s b) d = row -> redirect (rtable s' b) d = AQUA.m_rqa_head s).
Proof.
  intros Hok H Hw. unfold AQUA.activate in H. apply outcome_lift in H as (b & Hb & H). apply outcome_lift in H as (row & Hrow & H).
  specialize (Hw b row Hb Hrow). exists b, row. split; [done|]. split; [done|]. apply outcome_lift in H as ([n tr] & Htr & H).
  set (s1 := AQUA.mkState _ _ tr _ _ _ _) in H.
  assert (Hr : forall l s', aqua_follows (addr_vec r) b s1 l s' -> aqua_follows (addr_vec r) b s l s') by done.
  destruct n as [n|]; cycle 1.
  { apply outcome_mret in H as [-> ->]. split; [by apply Hr, aqua_follows_refl|]. intros (n & tr' & Hn & _). congruence. }
  destruct (_ =? 0); [by inversion H|]. destruct (Z.eqb_spec (Z.rem n (AQUA.m_art_threshold p)) 0) as [Hz|Hz]; cycle 1.
  { apply outcome_mret in H as [-> ->]. split; [by apply Hr, aqua_follows_refl|]. intros (n' & tr' & Hn & Hz'). congruence. }
  apply (quarantine_follows r b row s1) in H as [F M]; [|done|apply Hw; by exists n, tr]. split; [by apply Hr|]. intros _. exact M.
Qed.

Lemma aqua_update_follows found s l s' : aqua_ok s -> (forall r, found = Some r -> well_placed s r) ->
  outcome (AQUA.update p found s) l s' ->
  (exists b, bank_of_sent (AQUA.m_geo p) (found, l) b /\ aqua_follows (av_of found) b s l s') /\
  (forall r b row d, found = Some r -> aqua_hot_event s r b row -> Q <= d -> redirect (rtable s b) d = row ->
     redirect (rtable s' b) d = AQUA.m_rqa_head s).
Proof.
  intros Hok Hw H. unfold AQUA.update in H. apply outcome_lift in H as (s1 & H1 & H). pose proof H1 as Ht. unfold AQUA.tick in H1.
  apply bind_Ok in H1 as (rs & _ & H1). injection H1 as Es1. destruct found as [r|].
  - apply outcome_lift in H as (act & Hact & H). destruct act.
    + apply aqua_activate_follows in H as (b & row & Hb & Hrow & F & M); [|by subst s1|].
      * split; [exists b; split; [right; by exists r|by subst s1]|]. intros r' b' row' d [= <-] (_ & Hb' & Hrow' & s2 & Ht2 & Hh) Hd Hred.
        rewrite Hb in Hb'. rewrite Hrow in Hrow'. rewrite Ht in Ht2. injection Hb' as <-. injection Hrow' as <-. injection Ht2 as <-.
        specialize (M Hh d Hd). subst s1. exact (M Hred).
      * intros b row Hb Hrow Hh. assert (in_use s b row) as Hu by (apply (Hw r eq_refl); split; [done|split; [done|split; [done|by exists s1]]]).
        by subst s1.
    + apply outcome_mret in H as [-> ->]. subst s1. split; [exists 0; split; [by left|exact (aqua_follows_refl _ 0 s Hok)]|].
      intros r' b row d [= <-] (Ha & _). congruence.
  - apply outcome_mret in H as [-> ->]. subst s1. split; [|done]. exists 0. split; [by left|exact (aqua_follows_refl _ 0 s Hok)].
Qed.

(** ** Runs *)
Inductive aqua_run (s0 : AQUA.State) : AQUA.State -> list Event -> Prop :=
| aqua_start : aqua_run s0 s0 []
| aqua_next s ep found sent s' : aqua_run s0 s ep -> (forall r, found = Some r -> well_placed s r) ->
    outcome (AQUA.update p found s) sent s' -> aqua_run s0 s' ((found, sent) :: ep).

(** The contents of all banks after the migrations of a history. *)
Inductive move_history (C0 : Z -> Contents) : list Event -> (Z -> Contents) -> Prop :=
| moves_nil : move_history C0 [] C0
| moves_cons ep e b moves C C' : move_history C0 ep C -> bank_of_sent (AQUA.m_geo p) e b -> migrated (av_of e.1) moves e.2 ->
    (forall b', 0 <= b' -> C' b' = if decide (b' = b) then after_moves moves (C b') else C b') -> move_history C0 (e :: ep) C'.

Lemma aqua_run_located s0 s ep C0 : aqua_ok s0 -> (forall b, 0 <= b -> ordinary_located (rtable s0 b) (C0 b)) -> aqua_run s0 s ep ->
  aqua_ok s /\ exists C, move_history C0 ep C /\ forall b, 0 <= b -> ordinary_located (rtable s b) (C b).
Proof.
  intros Hok H0. induction 1 as [|s ep found sent s' _ (Hr & C & HC & Hl) Hw Hout]; [split; [done|]; exists C0; split; [constructor|done]|].
  destruct (aqua_update_follows _ _ _ _ Hr Hw Hout) as [(b & Hb & Hr' & moves & Hp & Hf) _]. split; [done|].
  exists (fun b' => if decide (b' = b) then after_moves moves (C b') else C b'). split; [by eapply moves_cons|].
  intros b' Hb'. apply Hf; [done|by apply Hl].
Qed.

(** A hot row at the head: the table records row 0 as the row it holds. *)
Lemma quarantine_head r b s l s' : 0 < Q -> aqua_ok s -> outcome (AQUA.quarantine p r b (AQUA.m_rqa_head s) s) l s' ->
  ptable s' b !! AQUA.m_rqa_head s = Some 0.
Proof.
  intros HQ Hok H. unfold AQUA.quarantine in H. apply outcome_bind in H as (l1 & l2 & s1 & H1 & H & ->).
  apply empty_head_follows in H1 as (_ & Eh & Et & Hb); [|done]. apply outcome_bind in H as (l3 & l4 & u & _ & H & ->).
  apply outcome_lift in H as (s2 & H2 & H). destruct (_ =? 0); [by inversion H|]. apply outcome_mret in H as [-> ->].
  unfold ptable at 1. cbn [AQUA.m_reverse_pointer_table]. fold (ptable s2 b). unfold AQUA.point_to_head in H2.
  apply bind_Ok in H2 as (t & Ht & H2). pose proof (proj2 (proj1 (vget_Ok _ _ _) Ht)) as Hl.
  apply lookup_lt_Some in Hl. apply ptable_vget in Ht as [_ Ht]. rewrite (proj2 (Z.ltb_lt _ _)) in H2 by apply Hok.
  apply bind_Ok in H2 as (rit1 & _ & H2). apply bind_Ok in H2 as (rpt & [Hlen ->]%vset_Ok & H2).
  apply bind_Ok in H2 as (rit2 & _ & H2). injection H2 as <-. unfold ptable. cbn.
  rewrite ptable_put, decide_True by (try done; lia). rewrite Eh, lookup_insert_eq. by rewrite <- Ht, Et, lookup_delete_eq.
Qed.
End AQUA.

Lemma aqua_setup_fresh `{D : IDRAM} art fpt qrows threshold ns mapper p s0 : 0 < qrows -> m_row_indirection_table mapper = [] ->
  AQUA.setup art fpt qrows threshold ns mapper = Ok (p, s0) ->
  AQUA.m_num_qrows_per_bank p = qrows /\ aqua_ok p s0 /\ forall b row, redirect (bank_table (AQUA.m_addr_mapper s0) b) row = row.
Proof.
  intros HQ Hm Hs. assert (exists banks n, init_rit dram_levels banks n mapper = Ok (AQUA.m_addr_mapper s0) /\
    AQUA.m_reverse_pointer_table s0 = replicate (Z.to_nat banks) ∅ /\ AQUA.m_rqa_head s0 = 0 /\ AQUA.m_num_qrows_per_bank p = qrows)
    as (banks & n & Hi & Ht & Hh & Hq).
  { unfold AQUA.setup in Hs. res_inv. cbn. eauto 10. }
  destruct (init_rit_fresh _ _ _ _ _ Hm Hi) as [_ He]. split; [done|]. split.
  - split; [rewrite Hh, Hq; lia|]. intros b _. rewrite He. assert (ptable s0 b = ∅) as ->.
    { unfold ptable. rewrite Ht. destruct (_ !! _) as [t|] eqn:E; [|done]. by apply lookup_replicate in E as [-> _]. }
    split; [done|]. intros x y. unfold partner. rewrite lookup_empty. cbn. naive_solver.
  - intros b row. rewrite He. by apply redirect_None.
Qed.


(** ** An example: two quarantine rows and threshold 3 *)
#[local] Instance aqua_dram : IDRAM := vrr_dram.

Definition aqua_blank : AQUA.Config * AQUA.State :=
  (AQUA.mkConfig 0 0 0 0 (mkGeometry 0 0 0 0 0 0) (mkRowPort 0 0 0 0 0), AQUA.mkState 0 0 (new_tracker 0) [] rrs_mapper 0 0).
Definition aqua_demo : AQUA.Config * AQUA.State := from_res aqua_blank (AQUA.setup 16 4 2 3 64000000 rrs_mapper).

Lemma aqua_demo_setup : AQUA.setup 16 4 2 3 64000000 rrs_mapper = Ok (aqua_demo.1, aqua_demo.2).
Proof. rewrite <- surjective_pairing. apply from_res_Ok. vm_compute. reflexivity. Qed.

Definition in_use_b (p : AQUA.Config) (s : AQUA.State) (b row : Z) : bool :=
  negb (row =? AQUA.m_rqa_head s) &&
  if row <? AQUA.m_num_qrows_per_bank p then match ptable s b !! row with Some _ => true | None => false end
  else match bank_table (AQUA.m_addr_mapper s) b !! row with Some _ => false | None => true end.

Definition well_placed_b (p : AQUA.Config) (s : AQUA.State) (r : Request) : bool :=
  match flat_bank (AQUA.m_geo p) r, vget (addr_vec r) (g_row_level (AQUA.m_geo p)) with
  | Ok b, Ok row => in_use_b p s b row
  | _, _ => true
  end.

Lemma well_placed_b_ok p s r : well_placed_b p s r = true -> well_placed p s r.
Proof.
  intros H b row (_ & Hb & Hrow & _). unfold well_placed_b in H. rewrite Hb, Hrow in H. unfold in_use_b in H.
  apply andb_true_iff in H as [H1%negb_true_iff%Z.eqb_neq H2]. split; [done|].
  destruct (Z.ltb_spec row (AQUA.m_num_qrows_per_bank p)); (split; intros ?; [|try lia]); [|lia|].
  - destruct (_ !! row); [by eexists|done].
  - by destruct (_ !! row).
Qed.

Fixpoint aqua_replay (fs : list (option Request)) (x : AQUA.State * list Event) : res (AQUA.State * list Event) :=
  match fs with
  | [] => Ok x
  | f :: fs =>
      if from_option (well_placed_b aqua_demo.1 x.1) true f then
        '(sent, s) ← accept_all (AQUA.update aqua_demo.1 f x.1);
        aqua_replay fs (s, (f, sent) :: x.2)
      else Err Undef
  end.

Lemma aqua_replay_run fs s0 s ep s' ep' : aqua_run aqua_demo.1 s0 s ep -> aqua_replay fs (s, ep) = Ok (s', ep') ->
  aqua_run aqua_demo.1 s0 s' ep'.
Proof.
  revert s ep. induction fs as [|f fs IH]; cbn [aqua_replay]; intros s ep Hr H; [by injection H as <- <-|].
  cbn [fst snd] in H. destruct (from_option _ _ _) eqn:Ec; [|done]. apply bind_Ok in H as ([sent s1] & H1 & H).
  eapply IH; [|exact H]. eapply aqua_next; [exact Hr| |by apply accept_all_outcome]. intros r ->. by apply well_placed_b_ok.
Qed.

(** Rows 100 and 200 fill the quarantine region; row 200 moves on within it
    and sends row 100 home. *)
Definition aqua_hammer : list (option Request) :=
  [act_row 100; act_row 100; act_row 100; act_row 200; act_row 200; None; act_row 200; act_row 1; act_row 1; act_row 1].

